(* ===== verification/_CoqProject ===== *)
-Q . S2P
Prelude.v
ListHeap.v
Rings.v
Spinlock.v
Strings.v
Portable.v
Printfmt.v
RbTree.v
RbTreeThm.v
Clock.v
Console.v
ConsoleThm.v
MemState.v
Buddy.v
BuddyInv.v
BuddyThm.v
Consistency.v
Slab.v
SlabInv.v
SlabThm.v
Walk.v
WalkThm.v
Ptbl.v
Init.v
InitThm.v
Vma.v
VmaThm.v
Task.v
Proc.v
Trap.v
ProcThm.v
ExitThm.v
TrapThm.v
PtblThm.v
Cow.v
DevMem.v
Devices.v
Acpi.v
Smp.v
SmpThm.v
Pci.v
PciThm.v
Ata.v
AtaThm.v
Ahci.v
AhciThm.v
Monitor.v
Fwcfg.v
Symbols.v
Boot.v
Ulib.v
Intr.v
Dump.v
Daemons.v
DaemonsThm.v
Report.v
Panics.v
Probes.v
Mp.v
Regs.v
