(* ===== verification/Prelude.v ===== *)
(** * A verification development for the OpenLSD kernel

    OpenLSD is a small x86-64 teaching kernel in C.  This library models the parts of it
    that carry its logic, written the way the C code is written, and proves what makes
    them correct.  File names below without a directory are files of this library; names
    with one are paths under src/.

    ** How code is modelled

    A routine that can fail or change state is a function [K S A] from a state [S] to an
    outcome (this file): it returns a value and a state, panics, touches memory that is
    no object ([Fault]), never ends ([Hang]), or leaves for user mode ([NoReturn]).
    Machine integers are integers of [Z] with their wrap-around written out.  A pointer
    to a structure is the structure's name (a frame's number, a task's address), NULL is
    [None].  Linked lists are nodes in a store, so that aliasing is the store's; the
    address of a node is named by the structure that contains it.

    ** Files

    - Prelude.v: outcomes, integers, notations (scope [kernel_scope]), the hint database
      [kernel], tactics.  ListHeap.v: include/list.h and lib/list.c over a store of
      nodes; [dlist h hd xs] says that the ring at [hd] is [xs].  Rings.v: several such
      lists in one store.
    - Spinlock.v: include/spinlock.h, kernel/spinlock.c; module [Spinlock] is one CPU
      with the ranks that order the locks, [SpinlockSMP] the lock word under the
      interleaving of any number of CPUs.
    - Strings.v: lib/string.c; Portable.v: its memset and memmove without assembly.
      Printfmt.v: lib/printfmt.c, lib/printf.c,
      kernel/printf.c.  Clock.v: lib/time.c, kernel/rtc.c.  Console.v, ConsoleThm.v:
      kernel/console.c, lib/readline.c.
    - RbTree.v, RbTreeThm.v: lib/rbtree.c, with the balance loop proved by climbing the
      context of the new leaf.
    - MemState.v: the state of the memory code, [mstate]: the pages, their lists, the
      contents of frames, two locks, the part of the current task the memory code uses,
      CR3 and what was flushed from the TLB.  Buddy.v, BuddyInv.v, BuddyThm.v:
      kernel/mem/buddy.c, its invariant, and what it promises to its clients (the class
      [PageAllocator], of which the buddy allocator is an instance).  Consistency.v: the check
      the tests make of it (test/shared).
    - Slab.v, SlabInv.v, SlabThm.v: kernel/mem/slab.c and kmem.c on top of that class.
    - Walk.v, WalkThm.v: the walker of kernel/mem/walk.c and its readers lookup.c and
      user.c, against the translation the hardware performs ([leaf4]).  Ptbl.v,
      PtblThm.v: the writers ptbl.c, insert.c, remove.c, protect.c, populate.c, map.c,
      tlb.c of kernel/mem.
    - Init.v, InitThm.v: kernel/mem/boot.c and init.c, and the growth and relocation of
      the page array (end of buddy.c).
    - Vma.v, VmaThm.v: kernel/vma, the areas of an address space, their system calls and
      the page fault handler, over the tree, the list and the page tables.
    - Task.v, Proc.v, Trap.v: kernel/sched (task.c, sched.c, fork.c, wait.c, syscall.c,
      idt.c) over all of the above: the state [pstate] holds the tasks, the PID map, the
      queues, the areas of each task and one [mstate].  ProcThm.v, ExitThm.v, TrapThm.v:
      theorems about scheduling, the end of a task, and the timer interrupt.  Cow.v: the
      pages fork.c shares and populate.c copies.
    - Devices.v: the machine a driver sees ([hw]: memory as bytes, and the trace of
      accesses to ports and registers), include/x86-64/asm.h.  DevMem.v: the class
      [DevMem], what drivers use of the memory code (objects, pages, mapped registers),
      with the memory code of the files above as an instance.
    - Acpi.v: kernel/acpi/acpi.c.  Smp.v, SmpThm.v: madt.c, lapic.c, hpet.c of
      kernel/acpi, over the state [platform].  Pci.v, PciThm.v: kernel/dev/pci.c and
      kernel/acpi/mcfg.c, over [bus_state], which leaves the drivers' part of the state
      open.  Ata.v, AtaThm.v, Ahci.v, AhciThm.v: kernel/dev/ata.c, ahci.c, disk.c, which
      fill that part with [disk_state].
    - Monitor.v: the interpreter of kernel/monitor.c; Report.v: its commands, and what
      the other components print of themselves (idt.c, boot.c, dump.c, show.c, buddy.c),
      character by character.  Panics.v: cprintf with its lock, _panic and _warn of
      kernel/main.c.  Fwcfg.v: kernel/fwcfg.c.  Symbols.v: kernel/symbols.c.  Probes.v:
      kernel/test, and how main.c finds the program to run.
    - Boot.v: the boot loader, boot/main.c.  Intr.v: the interrupt and segment tables
      (idt.c, gdt.c, cpu.c) and the interrupt controllers (kernel/pic.c).  Regs.v: the
      register instructions of include/x86-64/asm.h.  Mp.v: kernel/mp.c and boot_ap.S,
      the steps of the processors interleaved.
    - Dump.v: kernel/mem/dump.c.  Daemons.v, DaemonsThm.v: the page daemons of task.c and
      kernel/mem/swap.c.
    - Ulib.v: the user library (lib/syscall.c, libmain.c, vma.c), from a program's request
      through the handlers of Trap.v back to the program.

    ** What is proved

    - Memory: page_init sets up the allocator's invariant with exactly the usable pages
      free (InitThm.v); page_alloc and page_free keep it, are inverse to each other and
      change nothing else; the optional checks catch a double free; kmalloc and kfree
      refine a finite map of disjoint, zeroed objects (SlabThm.v); moving the page array
      is invisible in the lists.
    - Translation: page_lookup finds what the hardware finds, check_user_mem accepts
      exactly the accessible ranges, page_insert makes the hardware find the page.
    - Areas: insertion keeps them ordered, disjoint and in a red-black tree; splitting,
      range checks and page faults do what they say; no system call makes an area
      writable and executable, and all keep every area well typed (whole pages, 64-bit
      addresses, a protection the processor can enforce): both are instances of the class
      [typing] of VmaThm.v.
    - Copy on write: a shared page is read-only on both sides, and the task that writes
      gets a copy with the same contents.
    - Processes: sched_yield serves the queues first in, first out; a timer interrupt
      charges the task and preempts it when its budget is gone; an ended task becomes a
      zombie or wakes its parent, and sys_wait delivers the status; pid2task with the
      permission check returns only the caller and its children.
    - Locks: mutual exclusion under every interleaving; ranks and ownership are enforced.
    - Library: memmove on overlapping regions, termination and bounds of the formatter,
      numbers printed and read back, calendar arithmetic, the console's screen, input
      queue and line editor.
    - Machine tables: the root pointer is the first genuine one, a table is found by its
      signature, the processors of a table are exactly those registered.
    - Devices: both ways into the configuration space agree, measuring a region leaves it
      as it was, enumeration keeps exactly the objects of the functions a driver accepts;
      the request an ATA or AHCI controller receives is the one the caller made, and its
      data goes to the caller's buffer.
    - Start: the boot loader puts every byte of every segment where the kernel expects it;
      processors are started one at a time and each runs on its own stack; programs can
      raise exactly three of the vectors themselves.
    - The user library: every stub makes the call of its name with its arguments in their
      places, the program resumes with the answer, and print_vmas lists the address space.
    - Listings: dump.c lists exactly what the processor translates.
    - Probes that run into probes always end; register_probe replaces 16 bytes of code.
    - The monitor's interpreter splits lines as a reference function does; the directory
      of the configuration device is read back.
    - Where the code does not do what it means to, a theorem says what it does instead
      (page_lookup at an unaligned address, TLB entries that are never invalidated,
      add_vma with length 0, panics whose message is lost, a page that stays mapped when it
      is swapped out, ports programs can reach, and others).

    ** Fuel

    Loops that are not structural take fuel, and running out of it is [Hang].  The bound
    is a fact of the code: a list has fewer nodes than its store, a string loop visits a
    new byte in every turn, a table has 512 entries, a page order 64 values at most, a
    region below 8 MB 2048 pages, the PID map pid_max entries.  The theorems prove that
    the routine returns, so their fuel is enough; the search of add_vma and the passes of
    the scheduler, which the code does not bound, take theirs from the caller, as do the
    loops that wait for a device ([patience]): their theorems ask that the device answers
    before it is used up.

    ** Arguments

    What is not code of this repository is an argument: the devices behind the ports
    (Console.v, Clock.v), and for the drivers the class [devices] of Devices.v: what a
    device answers to an access and how it changes memory, as functions of all accesses
    so far; the hardware's time stamp counter and local APIC registers and
    the build options (class [machine] of Task.v, [config] of Buddy.v), the addresses of
    linker symbols and the contents of uninitialised memory (Init.v).  Code of the
    repository that a component only calls is an argument there too where the call would
    be circular: the out-of-memory killer for the page-table code, task_destroy for the
    areas; Proc.v passes the definitions in.  kmalloc is an argument of Fwcfg.v, the
    commands (Report.v) are one of Monitor.v, the disk's table of operations one of
    Daemons.v, the contents of the boot disk and the size of the second stage of Boot.v, the
    addresses of the assembly stubs of Intr.v and Probes.v.

    ** Not modelled

    - Assembly (the first stages of boot/, kernel/boot.S, stubs.S): no state beyond what
      the processor has.  Of boot_ap.S the use of the boot stack is part of Mp.v.
    - What a device does on its own between two accesses, and a device that is reached by
      interrupts: the drivers of kernel/dev poll.
    - kmain, which calls the initialisations of all components one after the other; the
      text-only variadic wrappers of lib/; the example programs (user/, test/), which use the
      system calls modelled here; the 32-bit headers under include/x86, which nothing uses.
    - Several CPUs beyond the spinlock and their start: every other component is what one CPU does
      between taking the locks it takes; memory models weaker than interleaving are not
      considered.  A list node inside a page frame and the words of that frame are kept
      apart: that writing through one changes the other is not modelled. *)

From Stdlib Require Import ZArith Lia.
From stdpp Require Import strings base gmap fin_maps list.

#[local] Open Scope Z_scope.

(** ** Outcomes of kernel code

    A kernel routine either returns, or stops in one of the ways the C code can
    stop: [panic]/failed [assert], an access through a pointer that designates no
    object (undefined behaviour in C, a page fault on the machine), a loop that no
    further step of this CPU can end (or whose fuel is exhausted), and a control
    transfer that never comes back to the caller ([task_run] returns to user mode). *)

Inductive outcome (S A : Type) : Type :=
  | Ret (a : A) (s : S)
  | Panic
  | Fault
  | Hang
  | NoReturn (s : S).
Arguments Ret {S A} _ _.
Arguments Panic {S A}.
Arguments Fault {S A}.
Arguments Hang {S A}.
Arguments NoReturn {S A} _.

(** Kernel computations: state passing with outcomes. *)
Definition K (S A : Type) : Type := S -> outcome S A.

Definition kret {S A} (a : A) : K S A := fun s => Ret a s.

Definition kbind {S A B} (m : K S A) (f : A -> K S B) : K S B := fun s =>
  match m s with
  | Ret a s' => f a s'
  | Panic => Panic
  | Fault => Fault
  | Hang => Hang
  | NoReturn s' => NoReturn s'
  end.

Definition kget {S} : K S S := fun s => Ret s s.
Definition kput {S} (s : S) : K S unit := fun _ => Ret tt s.
Definition kmodify {S} (f : S -> S) : K S unit := fun s => Ret tt (f s).
Definition kpanic {S A} : K S A := fun _ => Panic.
Definition kfault {S A} : K S A := fun _ => Fault.
Definition khang {S A} : K S A := fun _ => Hang.

(** A failed [assert] panics. *)
Definition kassert {S} (b : bool) : K S unit := if b then kret tt else kpanic.

(** Dereferencing: [None] is a pointer to no object. *)
Definition kderef {S A} (o : option A) : K S A :=
  match o with Some a => kret a | None => kfault end.

Declare Scope kernel_scope.
Delimit Scope kernel_scope with kernel.
Notation "x <-- m ;; k" := (kbind m (fun x => k))
  (at level 100, m at next level, right associativity) : kernel_scope.
Notation "m ;;; k" := (kbind m (fun _ => k))
  (at level 100, right associativity) : kernel_scope.

(** ** Machine integers

    Unsigned C integers are integers of [Z] with the reduction written out;
    the kernel is compiled for x86-64, so [size_t], [uintptr_t], [uint64_t] and
    [physaddr_t] have 64 bits. *)

Definition u64 (x : Z) : Z := x mod 2 ^ 64.
Definition u32 (x : Z) : Z := x mod 2 ^ 32.
Definition u16 (x : Z) : Z := x mod 2 ^ 16.
Definition u8 (x : Z) : Z := x mod 2 ^ 8.

(** Two's complement reading of a [w]-bit pattern. *)
Definition sint (w x : Z) : Z := (x + 2 ^ (w - 1)) mod 2 ^ w - 2 ^ (w - 1).
Definition s32 (x : Z) : Z := sint 32 x.
Definition s64 (x : Z) : Z := sint 64 x.

(** [flag x m]: the C condition [x & m]. *)
Definition flag (x m : Z) : bool := negb (Z.land x m =? 0).

Lemma flag_bit0 x : flag x 1 = Z.testbit x 0.
Proof.
  unfold flag. change 1 with (Z.ones 1). rewrite Z.land_ones by lia. change (2 ^ 1) with 2. rewrite <- Z.bit0_mod.
  by destruct (Z.testbit x 0).
Qed.

(** ROUNDDOWN and ROUNDUP of include/types.h, on [uintptr_t]. *)
Definition ROUNDDOWN (a n : Z) : Z := u64 (a - a mod n).
Definition ROUNDUP (a n : Z) : Z := ROUNDDOWN (u64 (u64 (a + n) - 1)) n.

Definition b2z (b : bool) : Z := if b then 1 else 0.

(** Numbers put together from fields. *)
Lemma lor_high a b k : 0 <= k -> 0 <= b < 2 ^ k -> Z.lor (Z.shiftl a k) b = a * 2 ^ k + b.
Proof.
  intros Hk Hb. rewrite <- Z.shiftl_mul_pow2 by done. symmetry. apply Z.add_nocarry_lor.
  apply Z.bits_inj'. intros i Hi. rewrite Z.land_spec, Z.bits_0. destruct (Z.lt_ge_cases i k).
  - by rewrite Z.shiftl_spec_low.
  - rewrite <- (Z.mod_small b (2 ^ k)) by done. rewrite Z.mod_pow2_bits_high by lia. apply andb_false_r.
Qed.

Lemma land_high_mask b c k w : 0 <= k -> 0 <= w -> 0 <= b < 2 ^ w -> 0 <= c < 2 ^ k ->
  Z.land (b * 2 ^ k + c) (2 ^ (k + w) - 2 ^ k) = b * 2 ^ k.
Proof.
  intros Hk Hw Hb Hc. rewrite <- lor_high, Z.land_lor_distr_l by done.
  replace (2 ^ (k + w) - 2 ^ k) with (Z.shiftl (Z.ones w) k).
  2: { rewrite Z.shiftl_mul_pow2, Z.ones_equiv, Z.pow_add_r by done. lia. }
  rewrite <- Z.shiftl_land, Z.land_ones, Z.mod_small by done.
  replace (Z.land c (Z.shiftl (Z.ones w) k)) with 0; [by rewrite Z.lor_0_r, Z.shiftl_mul_pow2|].
  symmetry. apply Z.bits_inj'. intros i Hi. rewrite Z.land_spec, Z.bits_0. destruct (Z.lt_ge_cases i k).
  - by rewrite Z.shiftl_spec_low, andb_false_r by done.
  - rewrite <- (Z.mod_small c (2 ^ k)) by done. by rewrite Z.mod_pow2_bits_high by lia.
Qed.

Lemma u64_range x : 0 <= u64 x < 2 ^ 64.
Proof. unfold u64. apply Z.mod_pos_bound. lia. Qed.

Lemma u64_id x : 0 <= x < 2 ^ 64 -> u64 x = x.
Proof. intros. unfold u64. by apply Z.mod_small. Qed.

Lemma u64_u64 x : u64 (u64 x) = u64 x.
Proof. apply u64_id, u64_range. Qed.

Lemma u64_add_l x y : u64 (u64 x + y) = u64 (x + y).
Proof. unfold u64. by rewrite Zplus_mod_idemp_l. Qed.

Lemma u64_add_r x y : u64 (x + u64 y) = u64 (x + y).
Proof. unfold u64. by rewrite Zplus_mod_idemp_r. Qed.

Lemma u64_sub_l x y : u64 (u64 x - y) = u64 (x - y).
Proof. unfold u64. by rewrite Zminus_mod_idemp_l. Qed.

Lemma u64_sub_r x y : u64 (x - u64 y) = u64 (x - y).
Proof. unfold u64. by rewrite Zminus_mod_idemp_r. Qed.

Lemma ROUNDDOWN_spec a n :
  0 <= a < 2 ^ 64 -> 0 < n ->
  ROUNDDOWN a n = n * (a / n).
Proof.
  intros Ha Hn. unfold ROUNDDOWN.
  pose proof (Z.div_mod a n ltac:(lia)) as Hd.
  pose proof (Z.mod_pos_bound a n Hn).
  rewrite u64_id; [lia|].
  pose proof (Z.div_pos a n ltac:(lia) Hn). nia.
Qed.

Lemma ROUNDDOWN_bounds a n :
  0 <= a < 2 ^ 64 -> 0 < n ->
  ROUNDDOWN a n <= a < ROUNDDOWN a n + n /\ ROUNDDOWN a n mod n = 0.
Proof.
  intros Ha Hn. rewrite ROUNDDOWN_spec by done.
  pose proof (Z.div_mod a n ltac:(lia)) as Hd.
  pose proof (Z.mod_pos_bound a n Hn).
  split; [lia|]. rewrite Z.mul_comm. apply Z.mod_mul. lia.
Qed.

Lemma ROUNDUP_bounds a n :
  0 <= a -> 0 < n -> a + n <= 2 ^ 64 ->
  a <= ROUNDUP a n < a + n /\ ROUNDUP a n mod n = 0.
Proof.
  intros Ha Hn Hlim. unfold ROUNDUP.
  rewrite u64_sub_l, u64_id by lia.
  pose proof (ROUNDDOWN_bounds (a + n - 1) n ltac:(lia) Hn) as [? ?].
  split; [lia|done].
Qed.

Lemma ROUNDUP_aligned a n :
  0 <= a -> 0 < n -> a + n <= 2 ^ 64 -> a mod n = 0 -> ROUNDUP a n = a.
Proof.
  intros Ha Hn Hlim Hal.
  destruct (ROUNDUP_bounds a n Ha Hn Hlim) as [? Hm].
  apply Z.mod_divide in Hal as [q Hq], Hm as [q' Hq']; [|lia..].
  rewrite Hq' in *. subst a. assert (q' = q) by nia. by subst.
Qed.

(** A check of every value of a small range, by evaluation. *)
Lemma range_check (f : Z -> bool) n : forallb f (seqZ 0 n) = true -> forall i, 0 <= i < n -> f i = true.
Proof. rewrite forallb_forall. intros Hf i Hi. apply Hf. apply list_elem_of_In, elem_of_seqZ. lia. Qed.

(** ** Ltac and hints *)

Create HintDb kernel discriminated.
#[export] Hint Resolve u64_range u64_id : kernel.

(** Peels the guards of a monadic definition in a hypothesis or the goal. *)
Ltac kunfold :=
  unfold kbind, kret, kget, kput, kmodify, kpanic, kfault, khang, kassert, kderef in *.

Ltac zify_bool :=
  repeat match goal with
  | H : (_ =? _) = true |- _ => apply Z.eqb_eq in H
  | H : (_ =? _) = false |- _ => apply Z.eqb_neq in H
  | H : (_ <? _) = true |- _ => apply Z.ltb_lt in H
  | H : (_ <? _) = false |- _ => apply Z.ltb_ge in H
  | H : (_ <=? _) = true |- _ => apply Z.leb_le in H
  | H : (_ <=? _) = false |- _ => apply Z.leb_gt in H
  | H : (_ && _) = true |- _ => apply andb_prop in H as [? ?]
  | H : (_ || _) = false |- _ => apply orb_false_elim in H as [? ?]
  end.

(** Whether a computation returns, for runs that are checked by evaluation. *)
Definition is_ret {S A} (o : outcome S A) : bool := match o with Ret _ _ => true | _ => false end.

Lemma is_ret_true {S A} (o : outcome S A) : is_ret o = true -> exists a s, o = Ret a s.
Proof. destruct o as [a s| | | |]; [by exists a, s|discriminate..]. Qed.

(** Running the first step of a computation. *)
Lemma krun {S A B} (m : K S A) (f : A -> K S B) s a s' : m s = Ret a s' -> kbind m f s = f a s'.
Proof. unfold kbind. by intros ->. Qed.
Lemma kret_run {S A B} (a : A) (f : A -> K S B) s : kbind (kret a) f s = f a s.
Proof. done. Qed.

(** A decidable closed goal, by evaluation. *)
Ltac by_eval := apply (bool_decide_unpack _); vm_compute; exact I.
