(* ===== verification/ListHeap.v ===== *)
(** * Intrusive doubly-linked lists (lib/list.c, include/list.h)

    A [struct list] is a node with a [next] and a [prev] pointer; a list is a ring
    of nodes through a distinguished head.  The store maps node addresses, of any
    countable type [L], to their two pointers; an operation dereferences nodes and
    is undefined ([None]) on an address that holds no node.  [dlist] relates the
    ring in the store to the sequence of its nodes; the theorems show that each
    operation of list.c implements the sequence operation. *)

From stdpp Require Import base list gmap fin_maps.
From S2P Require Import Prelude.

Record list_node (L : Type) := mk_node { next : L; prev : L }.
Arguments mk_node {L} _ _.
Arguments next {L} _.
Arguments prev {L} _.

Section Ops.
Context {L : Type} `{Countable L}.
Implicit Types (h : gmap L (list_node L)) (n a : L).

Definition get_next h n : option L := next <$> h !! n.
Definition get_prev h n : option L := prev <$> h !! n.

(** [n->next = x], [n->prev = x]. *)
Definition set_next h n (x : L) : option (gmap L (list_node L)) :=
  nd ← h !! n; Some (<[n := mk_node x (prev nd)]> h).

Definition set_prev h n (x : L) : option (gmap L (list_node L)) :=
  nd ← h !! n; Some (<[n := mk_node (next nd) x]> h).

Definition list_init h n : option (gmap L (list_node L)) :=
  h ← set_next h n n;
  set_prev h n n.

Definition list_insert_after h (after new : L) : option (gmap L (list_node L)) :=
  h ← set_prev h new after;
  an ← get_next h after;
  h ← set_next h new an;
  an ← get_next h after;
  h ← set_prev h an new;
  set_next h after new.

Definition list_insert_before h (before new : L) : option (gmap L (list_node L)) :=
  h ← set_next h new before;
  bp ← get_prev h before;
  h ← set_prev h new bp;
  bp ← get_prev h before;
  h ← set_next h bp new;
  set_prev h before new.

Definition list_del h (node : L) : option (gmap L (list_node L)) :=
  p ← get_prev h node;
  n ← get_next h node;
  h ← set_next h p n;
  n ← get_next h node;
  p ← get_prev h node;
  h ← set_prev h n p;
  h ← set_next h node node;
  set_prev h node node.

Definition list_add h (head new : L) := list_insert_after h head new.
Definition list_add_tail h (head new : L) := list_insert_before h head new.

Definition list_pop_tail h (head : L) : option (option L * gmap L (list_node L)) :=
  p ← get_prev h head;
  if decide (p = head) then Some (None, h)
  else h' ← list_del h p; Some (Some p, h').

Definition list_pop h (head : L) : option (option L * gmap L (list_node L)) :=
  n ← get_next h head;
  if decide (n = head) then Some (None, h)
  else h' ← list_del h n; Some (Some n, h').

(** The accessors of list.h. *)
Definition list_is_empty h (head : L) : option bool :=
  n ← get_next h head; Some (bool_decide (n = head)).

Definition list_head h (head : L) : option (option L) :=
  n ← get_next h head; Some (if decide (n = head) then None else Some n).

Definition list_tail h (head : L) : option (option L) :=
  p ← get_prev h head; Some (if decide (p = head) then None else Some p).

Definition list_next h (head node : L) : option (option L) :=
  n ← get_next h node; Some (if decide (n = head) then None else Some n).

Definition list_prev h (head node : L) : option (option L) :=
  p ← get_prev h node; Some (if decide (p = head) then None else Some p).

(** [list_foreach(head, node) body]: the nodes visited by
    [for (node = head->next; node != head; node = node->next)], for a body that
    does not change the list.  [None]: a bad pointer, or more than [fuel] nodes. *)
Fixpoint list_foreach_from h (head node : L) (fuel : nat) : option (list L) :=
  if decide (node = head) then Some [] else
  match fuel with
  | O => None
  | S fuel =>
      n ← get_next h node;
      rest ← list_foreach_from h head n fuel;
      Some (node :: rest)
  end.

Definition list_foreach h (head : L) (fuel : nat) : option (list L) :=
  n ← get_next h head; list_foreach_from h head n fuel.

(** ** The representation predicate *)

(** [linked h a xs z]: following [next] from [a] visits [xs] and arrives at [z],
    and the [prev] pointers lead back. *)
Fixpoint linked h (a : L) (xs : list L) (z : L) : Prop :=
  match xs with
  | [] => get_next h a = Some z /\ get_prev h z = Some a
  | x :: xs' => get_next h a = Some x /\ get_prev h x = Some a /\ linked h x xs' z
  end.

Definition dlist h (head : L) (xs : list L) : Prop :=
  NoDup (head :: xs) /\ linked h head xs head.

End Ops.

Section Facts.
Context {L : Type} `{Countable L}.
Implicit Types (h : gmap L (list_node L)) (n a : L).

Lemma linked_app h a xs y ys z :
  linked h a (xs ++ y :: ys) z <-> linked h a xs y /\ linked h y ys z.
Proof. revert a. induction xs as [|x xs IH]; intros a; simpl; [tauto|]. rewrite IH. tauto. Qed.

(** A segment only depends on the nodes it goes through. *)
Lemma linked_ext h h' a xs z :
  linked h a xs z ->
  (forall b, b ∈ a :: xs -> get_next h' b = get_next h b) ->
  (forall b, b ∈ xs ++ [z] -> get_prev h' b = get_prev h b) ->
  linked h' a xs z.
Proof.
  revert a. induction xs as [|x xs IH]; intros a; simpl.
  - intros [? ?] Hn Hp. rewrite Hn, Hp by set_solver. done.
  - intros (?&?&?) Hn Hp. rewrite Hn, Hp by set_solver. split; [done|]. split; [done|].
    apply IH; [done| |]; intros b ?; [apply Hn | apply Hp]; set_solver.
Qed.

Lemma dlist_ext h h' head xs :
  dlist h head xs ->
  (forall b, b ∈ head :: xs -> h' !! b = h !! b) ->
  dlist h' head xs.
Proof.
  intros [Hnd Hl] He. split; [done|].
  eapply linked_ext; [done| |]; intros b ?; unfold get_next, get_prev; rewrite He; set_solver.
Qed.

Lemma dlist_nodup h head xs : dlist h head xs -> NoDup xs /\ head ∉ xs.
Proof. intros [Hnd _]. apply NoDup_cons in Hnd. tauto. Qed.

Lemma get_next_Some h n x : get_next h n = Some x -> exists p, h !! n = Some (mk_node x p).
Proof. unfold get_next. rewrite fmap_Some. intros ([x' p] & -> & ->). eauto. Qed.

Lemma get_prev_Some h n x : get_prev h n = Some x -> exists q, h !! n = Some (mk_node q x).
Proof. unfold get_prev. rewrite fmap_Some. intros ([q x'] & -> & ->). eauto. Qed.

Lemma linked_node h a xs z b : linked h a xs z -> b ∈ a :: xs -> is_Some (h !! b).
Proof.
  revert a. induction xs as [|x xs IH]; intros a; simpl.
  - intros [[p Ha]%get_next_Some _] Hb. apply list_elem_of_singleton in Hb as ->. rewrite Ha. eauto.
  - intros ([p Ha]%get_next_Some & _ & Hl) [->|Hb]%elem_of_cons; [rewrite Ha; eauto|eauto].
Qed.

Lemma dlist_node h head xs b : dlist h head xs -> b ∈ head :: xs -> is_Some (h !! b).
Proof. intros [_ Hl]. by apply linked_node with (z := head). Qed.

(** Storing to one node, seen through the two pointer fields. *)
Lemma set_next_spec h n x nd :
  h !! n = Some nd -> set_next h n x = Some (<[n := mk_node x (prev nd)]> h).
Proof. unfold set_next. by intros ->. Qed.

Lemma set_prev_spec h n x nd :
  h !! n = Some nd -> set_prev h n x = Some (<[n := mk_node (next nd) x]> h).
Proof. unfold set_prev. by intros ->. Qed.

(** Pointwise effect of the two field stores. *)
Lemma set_next_effect h n x :
  is_Some (h !! n) ->
  exists h', set_next h n x = Some h'
    /\ get_next h' n = Some x
    /\ (forall b, b <> n -> get_next h' b = get_next h b)
    /\ (forall b, get_prev h' b = get_prev h b)
    /\ (forall b, b <> n -> h' !! b = h !! b)
    /\ dom h' = dom h.
Proof.
  intros [nd Hn]. unfold set_next. rewrite Hn. simpl. eexists; split; [done|].
  unfold get_next, get_prev. rewrite lookup_insert_eq. split; [done|].
  split; [intros b Hb; by rewrite lookup_insert_ne|].
  split; [|split].
  - intros b. destruct (decide (b = n)) as [->|]; [by rewrite lookup_insert_eq, Hn|by rewrite lookup_insert_ne].
  - intros b Hb. by rewrite lookup_insert_ne.
  - rewrite dom_insert_lookup_L; eauto.
Qed.

Lemma set_prev_effect h n x :
  is_Some (h !! n) ->
  exists h', set_prev h n x = Some h'
    /\ get_prev h' n = Some x
    /\ (forall b, b <> n -> get_prev h' b = get_prev h b)
    /\ (forall b, get_next h' b = get_next h b)
    /\ (forall b, b <> n -> h' !! b = h !! b)
    /\ dom h' = dom h.
Proof.
  intros [nd Hn]. unfold set_prev. rewrite Hn. simpl. eexists; split; [done|].
  unfold get_next, get_prev. rewrite lookup_insert_eq. split; [done|].
  split; [intros b Hb; by rewrite lookup_insert_ne|].
  split; [|split].
  - intros b. destruct (decide (b = n)) as [->|]; [by rewrite lookup_insert_eq, Hn|by rewrite lookup_insert_ne].
  - intros b Hb. by rewrite lookup_insert_ne.
  - rewrite dom_insert_lookup_L; eauto.
Qed.

Lemma dom_is_Some {A} (m m' : gmap L A) b : dom m' = dom m -> is_Some (m !! b) -> is_Some (m' !! b).
Proof. intros E. by rewrite <- !elem_of_dom, E. Qed.

End Facts.

(** ** Splicing *)

Section Splice.
Context {L : Type} `{Countable L}.
Implicit Types (h : gmap L (list_node L)) (n a b : L).

(** [h'] is [h] with [new] linked between [a] and [b]. *)
Record spliced h a new b h' : Prop := {
  sp_next_a : get_next h' a = Some new;
  sp_prev_new : get_prev h' new = Some a;
  sp_next_new : get_next h' new = Some b;
  sp_prev_b : get_prev h' b = Some new;
  sp_next_ne : forall c, c <> a -> c <> new -> get_next h' c = get_next h c;
  sp_prev_ne : forall c, c <> b -> c <> new -> get_prev h' c = get_prev h c;
  sp_frame : forall c, c <> a -> c <> new -> c <> b -> h' !! c = h !! c;
  sp_dom : dom h' = dom h
}.

(** [h'] is [h] with [x] taken out between [a] and [b] and left self-linked. *)
Record unspliced h a x b h' : Prop := {
  us_next_a : get_next h' a = Some b;
  us_prev_b : get_prev h' b = Some a;
  us_next_x : get_next h' x = Some x;
  us_prev_x : get_prev h' x = Some x;
  us_next_ne : forall c, c <> a -> c <> x -> get_next h' c = get_next h c;
  us_prev_ne : forall c, c <> b -> c <> x -> get_prev h' c = get_prev h c;
  us_frame : forall c, c <> a -> c <> x -> c <> b -> h' !! c = h !! c;
  us_dom : dom h' = dom h
}.


Lemma list_insert_after_spliced h a new b :
  get_next h a = Some b -> is_Some (h !! b) -> is_Some (h !! new) -> new <> a -> new <> b ->
  exists h', list_insert_after h a new = Some h' /\ spliced h a new b h'.
Proof.
  intros Ha Hb Hnew Hna Hnb. assert (is_Some (h !! a)) as Hsa.
  { by apply get_next_Some in Ha as [? ->]. }
  unfold list_insert_after.
  destruct (set_prev_effect h new a Hnew) as (h1 & -> & P1 & P1' & N1 & F1 & D1); simpl.
  rewrite N1, Ha; simpl.
  destruct (set_next_effect h1 new b) as (h2 & -> & N2 & N2' & P2 & F2 & D2);
    [by eapply dom_is_Some|]; simpl.
  rewrite N2', N1, Ha by done; simpl.
  destruct (set_prev_effect h2 b new) as (h3 & -> & P3 & P3' & N3 & F3 & D3);
    [eapply dom_is_Some; [|done]; congruence|]; simpl.
  destruct (set_next_effect h3 a new) as (h4 & -> & N4 & N4' & P4 & F4 & D4);
    [eapply dom_is_Some; [|done]; congruence|].
  exists h4. split; [done|]. split.
  - done.
  - rewrite P4, P3', P2 by done. done.
  - rewrite N4', N3 by done. done.
  - by rewrite P4.
  - intros c ? ?. by rewrite N4', N3, N2', N1.
  - intros c ? ?. by rewrite P4, P3', P2, P1'.
  - intros c ? ? ?. by rewrite F4, F3, F2, F1.
  - congruence.
Qed.

Lemma list_insert_before_spliced h a new b :
  get_prev h b = Some a -> is_Some (h !! a) -> is_Some (h !! new) -> new <> a -> new <> b ->
  exists h', list_insert_before h b new = Some h' /\ spliced h a new b h'.
Proof.
  intros Hb Ha Hnew Hna Hnb. assert (is_Some (h !! b)) as Hsb.
  { by apply get_prev_Some in Hb as [? ->]. }
  unfold list_insert_before.
  destruct (set_next_effect h new b Hnew) as (h1 & -> & N1 & N1' & P1 & F1 & D1); simpl.
  rewrite P1, Hb; simpl.
  destruct (set_prev_effect h1 new a) as (h2 & -> & P2 & P2' & N2 & F2 & D2);
    [by eapply dom_is_Some|]; simpl.
  rewrite P2', P1, Hb by done; simpl.
  destruct (set_next_effect h2 a new) as (h3 & -> & N3 & N3' & P3 & F3 & D3);
    [eapply dom_is_Some; [|done]; congruence|]; simpl.
  destruct (set_prev_effect h3 b new) as (h4 & -> & P4 & P4' & N4 & F4 & D4);
    [eapply dom_is_Some; [|done]; congruence|].
  exists h4. split; [done|]. split.
  - by rewrite N4.
  - rewrite P4', P3 by done. done.
  - rewrite N4, N3', N2 by done. done.
  - done.
  - intros c ? ?. by rewrite N4, N3', N2, N1'.
  - intros c ? ?. by rewrite P4', P3, P2', P1.
  - intros c ? ? ?. by rewrite F4, F3, F2, F1.
  - congruence.
Qed.

Lemma list_del_unspliced h a x b :
  get_prev h x = Some a -> get_next h x = Some b ->
  is_Some (h !! a) -> is_Some (h !! b) -> x <> a -> x <> b ->
  exists h', list_del h x = Some h' /\ unspliced h a x b h'.
Proof.
  intros Hp Hn Ha Hb Hna Hnb. assert (is_Some (h !! x)) as Hsx.
  { by apply get_prev_Some in Hp as [? ->]. }
  unfold list_del. rewrite Hp; simpl. rewrite Hn; simpl.
  destruct (set_next_effect h a b Ha) as (h1 & -> & N1 & N1' & P1 & F1 & D1); simpl.
  rewrite N1', Hn by done; simpl. rewrite P1, Hp; simpl.
  destruct (set_prev_effect h1 b a) as (h2 & -> & P2 & P2' & N2 & F2 & D2);
    [by eapply dom_is_Some|]; simpl.
  destruct (set_next_effect h2 x x) as (h3 & -> & N3 & N3' & P3 & F3 & D3);
    [eapply dom_is_Some; [|done]; congruence|]; simpl.
  destruct (set_prev_effect h3 x x) as (h4 & -> & P4 & P4' & N4 & F4 & D4);
    [eapply dom_is_Some; [|done]; congruence|].
  exists h4. split; [done|]. split.
  - rewrite N4, N3', N2 by done. done.
  - rewrite P4', P3 by done. done.
  - by rewrite N4.
  - done.
  - intros c ? ?. by rewrite N4, N3', N2, N1'.
  - intros c ? ?. by rewrite P4', P3, P2', P1.
  - intros c ? ? ?. by rewrite F4, F3, F2, F1.
  - congruence.
Qed.

(** The neighbours of a position in a segment. *)
Lemma linked_next h a xs ys z :
  linked h a (xs ++ ys) z -> get_next h (default a (last xs)) = Some (default z (head ys)).
Proof.
  destruct xs as [|x xs' _] using rev_ind; simpl.
  - destruct ys; simpl; tauto.
  - rewrite last_snoc, <- app_assoc. simpl. rewrite linked_app. destruct ys; simpl; tauto.
Qed.

Lemma linked_prev h a xs ys z :
  linked h a (xs ++ ys) z -> get_prev h (default z (head ys)) = Some (default a (last xs)).
Proof.
  destruct xs as [|x xs' _] using rev_ind; simpl.
  - destruct ys; simpl; tauto.
  - rewrite last_snoc, <- app_assoc. simpl. rewrite linked_app. destruct ys; simpl; tauto.
Qed.

Lemma default_last_elem (a : L) xs : default a (last xs) ∈ a :: xs.
Proof.
  destruct xs as [|x xs' _] using rev_ind; [simpl; left|].
  rewrite last_snoc. simpl. right. apply elem_of_app. right. left.
Qed.

Lemma default_head_elem (z : L) ys : default z (head ys) ∈ ys ++ [z].
Proof. destruct ys; simpl; left. Qed.

Lemma linked_splice h h' a xs ys z new :
  linked h a (xs ++ ys) z -> NoDup (a :: xs ++ ys) -> z ∉ xs ++ ys ->
  new ∉ a :: xs ++ ys ++ [z] ->
  spliced h (default a (last xs)) new (default z (head ys)) h' ->
  linked h' a (xs ++ new :: ys) z.
Proof.
  revert a. induction xs as [|x xs IH]; intros a Hl Hnd Hz Hnew Hs; simpl in *.
  - split; [apply Hs|]. split; [apply Hs|].
    destruct ys as [|y ys]; simpl in *; [split; apply Hs|].
    split; [apply Hs|]. split; [apply Hs|].
    destruct Hl as (_ & _ & Hl). apply NoDup_cons in Hnd as [Ha Hnd].
    apply NoDup_cons in Hnd as [Hy Hnd].
    eapply linked_ext; [done| |]; intros c ?.
    + eapply sp_next_ne; [done| |]; set_solver.
    + eapply sp_prev_ne; [done| |]; set_solver.
  - destruct Hl as (Hn & Hp & Hl). apply NoDup_cons in Hnd as [Ha Hnd].
    rewrite last_cons in Hs.
    assert (default a (Some (default x (last xs))) = default x (last xs)) as Hdef by done.
    assert (match last xs with Some y => Some y | None => Some x end = Some (default x (last xs))) as Hl'.
    { by destruct (last xs). }
    rewrite Hl' in Hs. simpl in Hs.
    pose proof (default_last_elem x xs) as Hle. pose proof (default_head_elem z ys) as Hhe.
    apply NoDup_cons in Hnd as [Hx Hnd].
    rewrite (sp_next_ne _ _ _ _ _ Hs a); [|set_solver..].
    rewrite (sp_prev_ne _ _ _ _ _ Hs x); [|set_solver..].
    split; [done|]. split; [done|]. apply IH; [done|by apply NoDup_cons|set_solver..].
Qed.

Lemma linked_unsplice h h' a xs x ys z :
  linked h a (xs ++ x :: ys) z -> NoDup (a :: xs ++ x :: ys) -> z ∉ xs ++ x :: ys ->
  unspliced h (default a (last xs)) x (default z (head ys)) h' ->
  linked h' a (xs ++ ys) z.
Proof.
  revert a. induction xs as [|w xs IH]; intros a Hl Hnd Hz Hs; simpl in *.
  - destruct Hl as (_ & _ & Hl). apply NoDup_cons in Hnd as [Ha Hnd].
    apply NoDup_cons in Hnd as [Hx Hnd].
    destruct ys as [|y ys]; simpl in *; [split; apply Hs|].
    split; [apply Hs|]. split; [apply Hs|].
    destruct Hl as (_ & _ & Hl). apply NoDup_cons in Hnd as [Hy Hnd].
    eapply linked_ext; [done| |]; intros c ?.
    + eapply us_next_ne; [done| |]; set_solver.
    + eapply us_prev_ne; [done| |]; set_solver.
  - destruct Hl as (Hn & Hp & Hl). apply NoDup_cons in Hnd as [Ha Hnd].
    rewrite last_cons in Hs.
    assert (match last xs with Some y => Some y | None => Some w end = Some (default w (last xs))) as Hl'.
    { by destruct (last xs). }
    rewrite Hl' in Hs. simpl in Hs.
    pose proof (default_last_elem w xs) as Hle. pose proof (default_head_elem z ys) as Hhe.
    apply NoDup_cons in Hnd as [Hw Hnd].
    rewrite (us_next_ne _ _ _ _ _ Hs a); [|set_solver..].
    rewrite (us_prev_ne _ _ _ _ _ Hs w); [|set_solver..].
    split; [done|]. split; [done|]. apply IH; [done|by apply NoDup_cons|set_solver..].
Qed.

End Splice.

(** ** The operations on lists *)

Section Spec.
Context {L : Type} `{Countable L}.
Implicit Types (h : gmap L (list_node L)) (n a b x new hd : L) (xs ys : list L).

(** [h'] differs from [h] at most in the pointers of the nodes [ns]. *)
Definition touches h (ns : list L) h' : Prop :=
  (forall c, c ∉ ns -> h' !! c = h !! c) /\ dom h' = dom h.

Lemma dlist_touches h h' ns hd xs :
  dlist h hd xs -> touches h ns h' -> (forall c, c ∈ ns -> c ∉ hd :: xs) -> dlist h' hd xs.
Proof.
  intros Hd [Ht _] Hdis. eapply dlist_ext; [done|].
  intros c Hc. apply Ht. intros Hin. by apply (Hdis c).
Qed.

Lemma touches_is_Some h h' ns c : touches h ns h' -> is_Some (h !! c) -> is_Some (h' !! c).
Proof. intros [_ Hd]. by apply dom_is_Some. Qed.

Lemma touches_weaken h h' ns ns' : touches h ns h' -> ns ⊆ ns' -> touches h ns' h'.
Proof. intros [Hf Hd] Hs. split; [|done]. intros c Hc. apply Hf. set_solver. Qed.

Lemma touches_trans h h' h'' ns ns' : touches h ns h' -> touches h' ns' h'' -> touches h (ns ++ ns') h''.
Proof.
  intros [Hf Hd] [Hf' Hd']. split; [|congruence].
  intros c Hc. rewrite Hf', Hf; set_solver.
Qed.

Lemma touches_refl h ns : touches h ns h.
Proof. done. Qed.

Lemma spliced_touches h a new b h' : spliced h a new b h' -> touches h [a; new; b] h'.
Proof. intros Hs. split; [|apply Hs]. intros c Hc. apply Hs; set_solver. Qed.

Lemma unspliced_touches h a x b h' : unspliced h a x b h' -> touches h [a; x; b] h'.
Proof. intros Hs. split; [|apply Hs]. intros c Hc. apply Hs; set_solver. Qed.

Lemma dlist_splice h h' hd xs ys new :
  dlist h hd (xs ++ ys) -> new ∉ hd :: xs ++ ys ->
  spliced h (default hd (last xs)) new (default hd (head ys)) h' ->
  dlist h' hd (xs ++ new :: ys).
Proof.
  intros [Hnd Hl] Hnew Hs. split.
  - apply NoDup_cons in Hnd as [Hhd Hnd]. apply NoDup_cons. split; [set_solver|].
    apply NoDup_app in Hnd as (? & ? & ?). apply NoDup_app. split; [done|].
    split; [set_solver|]. apply NoDup_cons. set_solver.
  - apply NoDup_cons in Hnd as Hnd'. eapply linked_splice; eauto; set_solver.
Qed.

Lemma dlist_position h hd xs ys :
  dlist h hd (xs ++ ys) ->
  get_next h (default hd (last xs)) = Some (default hd (head ys))
  /\ get_prev h (default hd (head ys)) = Some (default hd (last xs))
  /\ is_Some (h !! default hd (last xs)) /\ is_Some (h !! default hd (head ys)).
Proof.
  intros Hd. pose proof Hd as [Hnd Hl]. split; [by apply linked_next in Hl|].
  split; [by apply linked_prev in Hl|].
  pose proof (default_last_elem hd xs). pose proof (default_head_elem hd ys).
  split; eapply dlist_node; [done|set_solver|done|set_solver].
Qed.

(** Inserting before or after any position of a list. *)
Lemma insert_after_spec h hd xs ys new :
  dlist h hd (xs ++ ys) -> is_Some (h !! new) -> new ∉ hd :: xs ++ ys ->
  exists h', list_insert_after h (default hd (last xs)) new = Some h'
    /\ dlist h' hd (xs ++ new :: ys) /\ touches h (new :: hd :: xs ++ ys) h'.
Proof.
  intros Hd Hn Hnew. destruct (dlist_position h hd xs ys Hd) as (N & P & Sa & Sb).
  pose proof (default_last_elem hd xs). pose proof (default_head_elem hd ys).
  destruct (list_insert_after_spliced h (default hd (last xs)) new (default hd (head ys)))
    as (h' & E & Hs); [done..|set_solver|set_solver|].
  exists h'. split; [done|]. split; [by eapply dlist_splice|].
  eapply touches_weaken; [by eapply spliced_touches|]. set_solver.
Qed.

Lemma insert_before_spec h hd xs ys new :
  dlist h hd (xs ++ ys) -> is_Some (h !! new) -> new ∉ hd :: xs ++ ys ->
  exists h', list_insert_before h (default hd (head ys)) new = Some h'
    /\ dlist h' hd (xs ++ new :: ys) /\ touches h (new :: hd :: xs ++ ys) h'.
Proof.
  intros Hd Hn Hnew. destruct (dlist_position h hd xs ys Hd) as (N & P & Sa & Sb).
  pose proof (default_last_elem hd xs). pose proof (default_head_elem hd ys).
  destruct (list_insert_before_spliced h (default hd (last xs)) new (default hd (head ys)))
    as (h' & E & Hs); [done..|set_solver|set_solver|].
  exists h'. split; [done|]. split; [by eapply dlist_splice|].
  eapply touches_weaken; [by eapply spliced_touches|]. set_solver.
Qed.

Lemma list_init_spec h n :
  is_Some (h !! n) ->
  exists h', list_init h n = Some h' /\ dlist h' n [] /\ touches h [n] h'.
Proof.
  intros Hn. unfold list_init.
  destruct (set_next_effect h n n Hn) as (h1 & -> & N1 & N1' & P1 & F1 & D1); simpl.
  destruct (set_prev_effect h1 n n) as (h2 & -> & P2 & P2' & N2 & F2 & D2);
    [by eapply dom_is_Some|].
  exists h2. split; [done|]. split; [split; [apply NoDup_singleton|]; simpl; rewrite N2; done|].
  split; [|congruence]. intros c Hc. rewrite F2, F1; set_solver.
Qed.

Lemma list_add_spec h hd xs new :
  dlist h hd xs -> is_Some (h !! new) -> new ∉ hd :: xs ->
  exists h', list_add h hd new = Some h'
    /\ dlist h' hd (new :: xs) /\ touches h (new :: hd :: xs) h'.
Proof. apply (insert_after_spec h hd [] xs new). Qed.

Lemma list_add_tail_spec h hd xs new :
  dlist h hd xs -> is_Some (h !! new) -> new ∉ hd :: xs ->
  exists h', list_add_tail h hd new = Some h'
    /\ dlist h' hd (xs ++ [new]) /\ touches h (new :: hd :: xs) h'.
Proof.
  intros Hd Hn Hnew. destruct (insert_before_spec h hd xs [] new) as (h' & E & Hd' & Ht);
    rewrite ?app_nil_r; eauto. exists h'. split; [done|]. split; [done|]. by rewrite app_nil_r in Ht.
Qed.

Lemma list_del_spec h hd xs x ys :
  dlist h hd (xs ++ x :: ys) ->
  exists h', list_del h x = Some h'
    /\ dlist h' hd (xs ++ ys) /\ dlist h' x [] /\ touches h (hd :: xs ++ x :: ys) h'.
Proof.
  intros Hd. pose proof Hd as [Hnd Hl].
  destruct (dlist_position h hd xs (x :: ys) Hd) as (_ & P & Sa & _). simpl in P.
  replace (xs ++ x :: ys) with ((xs ++ [x]) ++ ys) in Hd by by rewrite <- app_assoc.
  destruct (dlist_position h hd (xs ++ [x]) ys Hd) as (N & _ & _ & Sb).
  rewrite last_snoc in N. simpl in N.
  apply NoDup_cons in Hnd as Hnd'. destruct Hnd' as [Hhd Hnd'].
  apply NoDup_app in Hnd' as (Hn1 & Hn2 & Hn3). apply NoDup_cons in Hn3 as [Hn3 Hn4].
  pose proof (default_last_elem hd xs). pose proof (default_head_elem hd ys).
  destruct (list_del_unspliced h (default hd (last xs)) x (default hd (head ys)))
    as (h' & E & Hs); [done..|set_solver|set_solver|].
  exists h'. split; [done|]. split; [|split].
  - split; [|eapply linked_unsplice; eauto]. apply NoDup_cons. split; [set_solver|].
    apply NoDup_app. set_solver.
  - split; [apply NoDup_singleton|]. split; apply Hs.
  - eapply touches_weaken; [by eapply unspliced_touches|]. set_solver.
Qed.

(** Deleting a node that is on no list leaves it on no list. *)
Lemma list_del_self h n : dlist h n [] -> exists h', list_del h n = Some h' /\ touches h [n] h' /\ dlist h' n [].
Proof.
  intros [_ [Hn Hp]]. assert (is_Some (h !! n)) as Hs.
  { apply get_next_Some in Hn as [p ->]. eauto. }
  unfold list_del. rewrite Hp; simpl; rewrite Hn; simpl.
  destruct (set_next_effect h n n Hs) as (h1 & -> & N1 & N1' & P1 & F1 & D1); simpl.
  rewrite N1; simpl. rewrite P1, Hp; simpl.
  destruct (set_prev_effect h1 n n) as (h2 & -> & P2 & P2' & N2 & F2 & D2); [by eapply dom_is_Some|]; simpl.
  destruct (set_next_effect h2 n n) as (h3 & -> & N3 & N3' & P3 & F3 & D3);
    [eapply dom_is_Some; [|done]; congruence|]; simpl.
  destruct (set_prev_effect h3 n n) as (h4 & -> & P4 & P4' & N4 & F4 & D4);
    [eapply dom_is_Some; [|done]; congruence|].
  exists h4. split; [done|]. split; [split; [|congruence]; intros c Hc; rewrite F4, F3, F2, F1; set_solver|].
  split; [apply NoDup_singleton|]. simpl. by rewrite N4.
Qed.

Lemma list_is_empty_spec h hd xs :
  dlist h hd xs -> list_is_empty h hd = Some (bool_decide (xs = [])).
Proof.
  intros Hd. destruct (dlist_nodup _ _ _ Hd) as [_ Hhd]. destruct Hd as [Hnd Hl].
  unfold list_is_empty. apply (linked_next h hd [] xs) in Hl. simpl in Hl. rewrite Hl. simpl. f_equal.
  destruct xs; simpl; [by apply bool_decide_eq_true|].
  rewrite bool_decide_eq_false_2; [done|set_solver].
Qed.

Lemma list_pop_spec h hd xs :
  dlist h hd xs ->
  match xs with
  | [] => list_pop h hd = Some (None, h)
  | x :: ys => exists h', list_pop h hd = Some (Some x, h')
      /\ dlist h' hd ys /\ dlist h' x [] /\ touches h (hd :: xs) h'
  end.
Proof.
  intros Hd. destruct (dlist_nodup _ _ _ Hd) as [_ Hhd].
  pose proof (linked_next h hd [] xs hd ltac:(apply Hd)) as Hn. simpl in Hn.
  unfold list_pop. rewrite Hn. simpl.
  destruct xs as [|x ys]; simpl; [by rewrite decide_True|].
  rewrite decide_False by set_solver.
  destruct (list_del_spec h hd [] x ys Hd) as (h' & E & ? & ? & ?). rewrite E. eauto 10.
Qed.

Lemma list_pop_tail_spec h hd xs :
  dlist h hd xs ->
  match last xs with
  | None => list_pop_tail h hd = Some (None, h)
  | Some x => exists h' ys, xs = ys ++ [x] /\ list_pop_tail h hd = Some (Some x, h')
      /\ dlist h' hd ys /\ dlist h' x [] /\ touches h (hd :: xs) h'
  end.
Proof.
  intros Hd. destruct (dlist_nodup _ _ _ Hd) as [_ Hhd].
  pose proof (linked_prev h hd xs [] hd) as Hn. rewrite app_nil_r in Hn. specialize (Hn ltac:(apply Hd)).
  unfold list_pop_tail. simpl in Hn. rewrite Hn. simpl.
  destruct xs as [|x ys _] using rev_ind; simpl; [by rewrite decide_True|].
  rewrite last_snoc. simpl. rewrite decide_False by set_solver.
  destruct (list_del_spec h hd ys x [] Hd) as (h' & E & Hd' & ? & ?). rewrite E, app_nil_r in *. eauto 10.
Qed.

Lemma list_next_spec h hd xs x ys :
  dlist h hd (xs ++ x :: ys) -> list_next h hd x = Some (head ys).
Proof.
  intros Hd. destruct (dlist_nodup _ _ _ Hd) as [_ Hhd].
  replace (xs ++ x :: ys) with ((xs ++ [x]) ++ ys) in Hd by by rewrite <- app_assoc.
  destruct (dlist_position h hd (xs ++ [x]) ys Hd) as (N & _). rewrite last_snoc in N. simpl in N.
  unfold list_next. rewrite N. simpl. destruct ys; simpl; [by rewrite decide_True|].
  rewrite decide_False by set_solver. done.
Qed.

Lemma list_prev_spec h hd xs x ys :
  dlist h hd (xs ++ x :: ys) -> list_prev h hd x = Some (last xs).
Proof.
  intros Hd. destruct (dlist_nodup _ _ _ Hd) as [_ Hhd].
  destruct (dlist_position h hd xs (x :: ys) Hd) as (_ & N & _). simpl in N.
  unfold list_prev. rewrite N. simpl. destruct (last xs) as [y|] eqn:E; simpl; [|by rewrite decide_True].
  apply last_Some in E as [xs' ->].
  rewrite decide_False by set_solver. done.
Qed.

Lemma list_foreach_spec h hd xs fuel :
  dlist h hd xs -> (length xs <= fuel)%nat -> list_foreach h hd fuel = Some xs.
Proof.
  intros Hd Hf. destruct (dlist_nodup _ _ _ Hd) as [_ Hhd]. destruct Hd as [_ Hl].
  unfold list_foreach. pose proof (linked_next h hd [] xs hd Hl) as Hn. simpl in Hn. rewrite Hn. simpl.
  assert (forall zs a fuel, hd ∉ zs -> (length zs <= fuel)%nat -> linked h a zs hd ->
    list_foreach_from h hd (default hd (head zs)) fuel = Some zs) as Hgen; [|by eapply Hgen].
  clear. induction zs as [|z zs IH]; intros a fuel Hz Hf Hl; simpl in *.
  - destruct fuel; simpl; by rewrite decide_True.
  - destruct fuel; [simpl in Hf; lia|]. simpl. rewrite decide_False by set_solver.
    destruct Hl as (_ & _ & Hl). pose proof (linked_next h z [] zs hd Hl) as Hn. simpl in Hn. rewrite Hn. simpl.
    rewrite (IH z); [done|set_solver|simpl in *; lia|done].
Qed.

(** A ring of nodes fits in the store, so its length bounds the fuel of a traversal. *)
Lemma dlist_size h hd xs : dlist h hd xs -> (length xs < size h)%nat.
Proof.
  intros Hd. pose proof Hd as [Hnd _].
  assert (list_to_set (hd :: xs) ⊆ dom h) as Hs.
  { intros c Hc. apply elem_of_list_to_set in Hc. apply elem_of_dom. by eapply dlist_node. }
  apply subseteq_size in Hs. rewrite size_list_to_set in Hs by done. rewrite size_dom in Hs.
  simpl in Hs. lia.
Qed.

End Spec.
