(* ===== verification/Rings.v ===== *)
(** * Families of lists in one store of nodes

    Several lists of list.c whose nodes live in the same memory: which nodes each head's
    list has, that no node is on two of them, and what adding, deleting and initialising
    nodes does to the family. *)

From Stdlib Require Import ZArith Lia.
From stdpp Require Import functions base gmap fin_maps list.
From S2P Require Import Prelude ListHeap.

Section Rings.
Context {L : Type} `{Countable L}.
Implicit Types (h : gmap L (list_node L)) (X : L -> option (list L)) (n hd : L) (xs ys : list L).

(** The list at every head of [X], and no node on two of them. *)
Record rings h X : Prop := {
  rg_list : forall hd xs, X hd = Some xs -> dlist h hd xs;
  rg_disj : forall a b xs ys n, X a = Some xs -> X b = Some ys -> n ∈ a :: xs -> n ∈ b :: ys -> a = b
}.
Definition outside X n : Prop := forall hd xs, X hd = Some xs -> n ∉ hd :: xs.

#[global] Instance rings_proper h : Proper (pointwise_relation L eq ==> iff) (rings h).
Proof.
  intros X Y E. unfold pointwise_relation in E.
  split; intros [Hl Hd]; split.
  - intros hd xs Hx. apply Hl. by rewrite E.
  - intros a b xs ys n Ha Hb. rewrite <- E in Ha, Hb. by apply (Hd a b xs ys n).
  - intros hd xs Hx. apply Hl. by rewrite <- E.
  - intros a b xs ys n Ha Hb. rewrite E in Ha, Hb. by apply (Hd a b xs ys n).
Qed.

Lemma rings_is_Some h X hd xs n : rings h X -> X hd = Some xs -> n ∈ hd :: xs -> is_Some (h !! n).
Proof. intros R Hx. apply dlist_node. by apply R. Qed.

Lemma rings_next h X hd xs : rings h X -> X hd = Some xs -> get_next h hd = Some (default hd (head xs)).
Proof. intros R Hx. destruct (rg_list _ _ R _ _ Hx) as [_ Hl]. by apply (linked_next h hd [] xs hd). Qed.

Lemma rings_empty h X hd xs : rings h X -> X hd = Some xs -> list_is_empty h hd = Some (bool_decide (xs = [])).
Proof. intros R Hx. by apply list_is_empty_spec, R. Qed.

(** One list changed: the others keep their nodes. *)
Lemma rings_change h h' X hd xs ns :
  rings h X -> touches h ns h' -> dlist h' hd xs ->
  (forall a ys n, X a = Some ys -> a <> hd -> n ∈ a :: ys -> n ∈ ns -> False) ->
  (forall a ys n, X a = Some ys -> a <> hd -> n ∈ a :: ys -> n ∈ hd :: xs -> False) ->
  rings h' (<[hd := Some xs]> X).
Proof.
  intros R T D Hns Hxs. split.
  - intros a ys Ha. destruct (decide (a = hd)) as [->|Hne].
    + rewrite fn_lookup_insert in Ha. by injection Ha as <-.
    + rewrite fn_lookup_insert_ne in Ha by done. eapply dlist_touches; [by apply R|done|]. eauto.
  - intros a b ys zs n Ha Hb Hn Hn'. destruct (decide (a = hd)) as [->|Ea], (decide (b = hd)) as [->|Eb].
    + done.
    + rewrite fn_lookup_insert in Ha. injection Ha as <-. rewrite fn_lookup_insert_ne in Hb by done.
      exfalso. by eapply Hxs.
    + rewrite fn_lookup_insert in Hb. injection Hb as <-. rewrite fn_lookup_insert_ne in Ha by done.
      exfalso. by eapply Hxs.
    + rewrite fn_lookup_insert_ne in Ha, Hb by done. by eapply (rg_disj _ _ R).
Qed.

Lemma rings_add h X hd xs n :
  rings h X -> X hd = Some xs -> is_Some (h !! n) -> outside X n ->
  exists h', list_add h hd n = Some h' /\ rings h' (<[hd := Some (n :: xs)]> X) /\ dom h' = dom h.
Proof.
  intros R Hx Hn Ho. destruct (list_add_spec h hd xs n) as (h' & E & D & T); [by apply R|done|by apply Ho|].
  exists h'. split; [done|]. split; [|apply T].
  assert (forall a ys m, X a = Some ys -> a <> hd -> m ∈ a :: ys -> m ∈ n :: hd :: xs -> False) as Hd.
  { intros a ys m Ha Hne Hm Hin. apply elem_of_cons in Hin as [->|Hin]; [by eapply Ho|].
    by eapply Hne, (rg_disj _ _ R). }
  eapply rings_change; [done..|]. intros a ys m Ha Hne Hm Hin. eapply Hd; [done..|set_solver].
Qed.

Lemma rings_del h X hd xs n ys :
  rings h X -> X hd = Some (xs ++ n :: ys) ->
  exists h', list_del h n = Some h' /\ rings h' (<[hd := Some (xs ++ ys)]> X) /\ dom h' = dom h
    /\ outside (<[hd := Some (xs ++ ys)]> X) n.
Proof.
  intros R Hx. pose proof (rg_list _ _ R _ _ Hx) as D0.
  destruct (list_del_spec h hd xs n ys D0) as (h' & E & D & _ & T).
  exists h'. split; [done|].
  assert (forall a zs m, X a = Some zs -> a <> hd -> m ∈ a :: zs -> m ∈ hd :: xs ++ n :: ys -> False) as Hd.
  { intros a zs m Ha Hne Hm Hin. by eapply Hne, (rg_disj _ _ R). }
  split; [|split; [apply T|]].
  - eapply rings_change; [done..|]. intros a zs m Ha Hne Hm Hin. eapply Hd; [done..|set_solver].
  - intros a zs Ha Hin. destruct (decide (a = hd)) as [->|Hne].
    + rewrite fn_lookup_insert in Ha. injection Ha as <-. destruct D0 as [Hnd _].
      apply NoDup_cons in Hnd as [Hnh Hnd]. apply NoDup_app in Hnd as (? & Hn2 & Hnd). apply NoDup_cons in Hnd.
      specialize (Hn2 n). set_solver.
    + rewrite fn_lookup_insert_ne in Ha by done. eapply Hd; [done..|set_solver].
Qed.

(** Memory that is no node of any list becomes a list of its own, or a single node. *)
Lemma rings_fresh h X n : rings h X -> outside X n -> rings (<[n := mk_node n n]> h) X.
Proof.
  intros [Hl Hd] Ho. split; [|done]. intros hd xs Hx. eapply dlist_ext; [by apply Hl|].
  intros b Hb. apply lookup_insert_ne. intros ->. by eapply Ho.
Qed.

Lemma rings_init h X n : rings h X -> outside X n -> rings (<[n := mk_node n n]> h) (<[n := Some []]> X).
Proof.
  intros R Ho. eapply (rings_change _ _ _ _ _ []); [by apply rings_fresh|done| |set_solver|].
  - split; [apply NoDup_singleton|]. unfold linked, get_next, get_prev. by rewrite lookup_insert_eq.
  - intros a ys m Ha _ Hm Hin. apply list_elem_of_singleton in Hin as ->. by eapply Ho.
Qed.

Lemma rings_forget h X hd : rings h X -> rings h (<[hd := None]> X).
Proof.
  intros [Hl Hd].
  assert (forall a ys, (<[hd := None]> X) a = Some ys -> X a = Some ys) as Hs.
  { intros a ys. destruct (decide (a = hd)) as [->|]; [by rewrite fn_lookup_insert|by rewrite fn_lookup_insert_ne]. }
  split; [eauto|]. intros a b xs ys n Ha Hb. apply (Hd a b xs ys n); eauto.
Qed.

End Rings.
