(* ===== verification/Spinlock.v ===== *)
(** * Spinlocks (kernel/spinlock.c, include/spinlock.h)

    Module [Spinlock]: the routines of spinlock.c as seen by one CPU, with the
    ranks that order lock acquisition (DEBUG_SPINLOCK is defined by the header).
    Module [SpinlockSMP]: the same routines cut into the atomic steps the CPUs
    interleave, as a step relation. *)

From Stdlib Require Import ZArith Lia.
From stdpp Require Import strings relations functions base list.
From S2P Require Import Prelude.

#[local] Open Scope Z_scope.
#[local] Open Scope kernel_scope.

Module Spinlock.

(** [struct spinlock]; [lk_cpu] is the owning CPU ([NULL] is [None]). *)
Record spinlock := mk_spinlock {
  locked : Z;
  rank : Z;
  lk_name : string;
  lk_cpu : option Z;
  lk_file : option string;
  lk_line : Z
}.

(** The state one CPU works on: the lock and its own [spinlock_rank]. *)
Definition lock_state : Type := spinlock * Z.

(** A statically initialised lock ([= { .name = "..." }]). *)
Definition static_lock (name : string) : spinlock := mk_spinlock 0 0 name None None 0.

Definition holding (this_cpu : Z) (l : spinlock) : bool :=
  negb (locked l =? 0) && bool_decide (lk_cpu l = Some this_cpu).

Definition spin_haslock (this_cpu : Z) (l : spinlock) : bool := holding this_cpu l.

Definition spin_init (name : string) (rk : Z) : K lock_state unit := fun '(l, r) =>
  if flag rk (u64 (rk - 1)) then Panic
  else Ret tt (mk_spinlock 0 rk name None (lk_file l) (lk_line l), r).

(** The checks before the acquisition loop, shared by lock and trylock:
    no second acquisition by the same CPU, ranks strictly increasing. *)
Definition acquire_checks (this_cpu : Z) (l : spinlock) (r : Z) : bool :=
  negb (holding this_cpu l) &&
  (if negb (rank l =? 0) then negb (rank l <=? r) else true).

(** What follows a successful compare-and-exchange. *)
Definition acquired (this_cpu : Z) (file : string) (line : Z) (l : spinlock) (r : Z) : lock_state :=
  (mk_spinlock 1 (rank l) (lk_name l) (Some this_cpu) (Some file) line, Z.lor r (rank l)).

(** [while (!atomic_cmpxchg(&lock->locked, 0, 1));] — when the lock is taken, no
    step of this CPU ends the loop. *)
Definition spin_lock (this_cpu : Z) (file : string) (line : Z) : K lock_state unit := fun '(l, r) =>
  if negb (acquire_checks this_cpu l r) then Panic
  else if locked l =? 0 then Ret tt (acquired this_cpu file line l r)
  else Hang.

Definition spin_trylock (this_cpu : Z) (file : string) (line : Z) : K lock_state Z := fun '(l, r) =>
  if negb (acquire_checks this_cpu l r) then Panic
  else if locked l =? 0 then Ret 1 (acquired this_cpu file line l r)
  else Ret 0 (l, r).

Definition release_checks (this_cpu : Z) (l : spinlock) (r : Z) : bool :=
  negb (locked l =? 0) && holding this_cpu l &&
  (if negb (rank l =? 0)
   then negb (u64 (Z.shiftl (rank l) 1) <=? r) && negb (rank l >? r)
   else true).

Definition spin_unlock (this_cpu : Z) : K lock_state unit := fun '(l, r) =>
  if negb (release_checks this_cpu l r) then Panic
  else Ret tt (mk_spinlock 0 (rank l) (lk_name l) None None 0, Z.lxor r (rank l)).

(** ** Ranks *)

(** What [spin_init] admits: no bit or one bit. *)
Definition valid_rank (rk : Z) : Prop := rk = 0 \/ exists k, 0 <= k < 64 /\ rk = 2 ^ k.

Lemma valid_rank_check rk : valid_rank rk -> flag rk (u64 (rk - 1)) = false.
Proof.
  intros [->|(k & Hk & ->)]; [done|]. unfold flag. apply negb_false_iff, Z.eqb_eq.
  assert (0 < 2 ^ k) by lia. assert (2 ^ k <= 2 ^ 63) by (apply Z.pow_le_mono_r; lia).
  rewrite u64_id by lia. apply Z.bits_inj'. intros n Hn. rewrite Z.land_spec, Z.bits_0.
  rewrite Z.pow2_bits_eqb by lia.
  replace (2 ^ k - 1) with (Z.ones k) by (rewrite Z.ones_equiv; lia).
  destruct (Z.eqb_spec k n) as [->|]; [|done].
  rewrite Z.ones_spec_high by lia. done.
Qed.

(** A rank above every bit of [r] is added to it, and taking it off restores [r]. *)
Lemma rank_lor r k : 0 <= r < 2 ^ k -> 0 <= k -> Z.lor r (2 ^ k) = r + 2 ^ k.
Proof.
  intros Hr Hk. rewrite Z.add_nocarry_lxor, Z.lxor_lor; try done.
  - apply Z.bits_inj'. intros n Hn. rewrite Z.land_spec, Z.bits_0, Z.pow2_bits_eqb by done.
    destruct (Z.eqb_spec k n) as [->|]; [|by rewrite andb_false_r].
    rewrite andb_true_r. destruct (Z.eq_dec r 0) as [->|]; [by rewrite Z.bits_0|].
    apply Z.bits_above_log2; [lia|]. apply Z.log2_lt_pow2; lia.
  - apply Z.bits_inj'. intros n Hn. rewrite Z.land_spec, Z.bits_0, Z.pow2_bits_eqb by done.
    destruct (Z.eqb_spec k n) as [->|]; [|by rewrite andb_false_r].
    rewrite andb_true_r. destruct (Z.eq_dec r 0) as [->|]; [by rewrite Z.bits_0|].
    apply Z.bits_above_log2; [lia|]. apply Z.log2_lt_pow2; lia.
Qed.

Lemma rank_lxor r k : 0 <= r < 2 ^ k -> 0 <= k -> Z.lxor (Z.lor r (2 ^ k)) (2 ^ k) = r.
Proof.
  intros Hr Hk. apply Z.bits_inj'. intros n Hn.
  rewrite Z.lxor_spec, Z.lor_spec, Z.pow2_bits_eqb by done.
  destruct (Z.eqb_spec k n) as [->|]; [|by rewrite orb_false_r, xorb_false_r].
  rewrite orb_true_r. simpl. symmetry. destruct (Z.eq_dec r 0) as [->|]; [by rewrite Z.bits_0|].
  apply Z.bits_above_log2; [lia|]. apply Z.log2_lt_pow2; lia.
Qed.

Lemma rank_above k r : 0 <= r -> 0 <= k -> (forall j, 0 <= j -> Z.testbit r j = true -> j < k) -> r < 2 ^ k.
Proof.
  intros Hr Hk Hb. destruct (Z.eq_dec r 0) as [->|]; [lia|].
  apply Z.log2_lt_pow2; [lia|]. apply Hb; [apply Z.log2_nonneg|]. apply Z.bit_log2. lia.
Qed.

(** The ranks a CPU accumulates: it holds the locks [ranks] (latest first). *)
Fixpoint held_rank (ranks : list Z) : Z :=
  match ranks with [] => 0 | rk :: rest => Z.lor (held_rank rest) rk end.

(** Each lock was admitted by the rank check when it was taken. *)
Fixpoint rank_chain (ranks : list Z) : Prop :=
  match ranks with
  | [] => True
  | rk :: rest => valid_rank rk /\ rk <> 2 ^ 63 /\ (rk <> 0 -> held_rank rest < rk) /\ rank_chain rest
  end.

Lemma held_rank_range ranks : rank_chain ranks -> 0 <= held_rank ranks < 2 ^ 63.
Proof.
  induction ranks as [|rk rest IH]; simpl; [lia|].
  intros (Hv & H63 & Hgt & Hc). specialize (IH Hc).
  destruct Hv as [->|(k & Hk & ->)]; [by rewrite Z.lor_0_r|].
  assert (k <> 63) by congruence. assert (2 ^ k <= 2 ^ 62) by (apply Z.pow_le_mono_r; lia).
  rewrite rank_lor; lia.
Qed.

Lemma acquire_checks_free cpu l r :
  locked l = 0 -> (rank l <> 0 -> r < rank l) -> acquire_checks cpu l r = true.
Proof.
  intros Hl Hr. unfold acquire_checks, holding. rewrite Hl. simpl.
  destruct (Z.eqb_spec (rank l) 0); simpl; [done|].
  destruct (Z.leb_spec (rank l) r); [|done]. specialize (Hr ltac:(done)). lia.
Qed.

Lemma release_checks_top cpu l ranks :
  locked l = 1 -> lk_cpu l = Some cpu -> rank_chain (rank l :: ranks) ->
  release_checks cpu l (held_rank (rank l :: ranks)) = true.
Proof.
  intros Hl Hc Hch. pose proof Hch as (Hv & H63 & Hgt & Hrest).
  pose proof (held_rank_range _ Hrest). unfold release_checks, holding.
  rewrite Hl, Hc, bool_decide_true by done. simpl.
  destruct (Z.eqb_spec (rank l) 0) as [|Hnz]; simpl; [done|].
  destruct Hv as [?|(k & Hk & Erk)]; [done|]. rewrite Erk in *.
  assert (k <> 63) by congruence. assert (2 ^ k <= 2 ^ 62) by (apply Z.pow_le_mono_r; lia).
  specialize (Hgt Hnz). rewrite rank_lor by lia. rewrite Z.shiftl_mul_pow2, u64_id by lia.
  apply andb_true_iff; split; apply negb_true_iff; [apply Z.leb_gt|rewrite Z.gtb_ltb; apply Z.ltb_ge]; lia.
Qed.

Lemma held_rank_ge ranks rk : rank_chain ranks -> rk ∈ ranks -> rk <= held_rank ranks.
Proof.
  induction ranks as [|r rest IH]; simpl; intros Hc Hin; [set_solver|].
  destruct Hc as (Hv & H63 & Hgt & Hc). pose proof (held_rank_range _ Hc).
  assert (0 <= r) as Hr0. { destruct Hv as [->|(k & ? & ->)]; lia. }
  apply elem_of_cons in Hin as [->|Hin].
  - destruct Hv as [->|(k & Hk & ->)]; [rewrite Z.lor_0_r; lia|].
    rewrite rank_lor by (specialize (Hgt ltac:(lia)); lia). lia.
  - specialize (IH Hc Hin). destruct Hv as [->|(k & Hk & ->)]; [rewrite Z.lor_0_r; lia|].
    rewrite rank_lor by (specialize (Hgt ltac:(lia)); lia). lia.
Qed.

(** ** Properties *)

(** Fact (round trip): a lock that passes the rank check is acquired when it is free,
    and releasing it gives back the lock free and the CPU's rank as it was, for every
    chain of locks the CPU already holds. *)
Theorem lock_unlock_roundtrip (cpu : Z) (file : string) (line : Z) (l : spinlock) (ranks : list Z) :
  locked l = 0 -> rank_chain (rank l :: ranks) ->
  exists l', spin_lock cpu file line (l, held_rank ranks) = Ret tt (l', held_rank (rank l :: ranks))
    /\ spin_haslock cpu l' = true
    /\ spin_unlock cpu (l', held_rank (rank l :: ranks)) =
         Ret tt (mk_spinlock 0 (rank l) (lk_name l) None None 0, held_rank ranks).
Proof.
  intros Hl Hch. pose proof Hch as (Hv & H63 & Hgt & Hrest).
  unfold spin_lock. rewrite acquire_checks_free, Hl by done. simpl.
  eexists. split; [done|]. split; [unfold spin_haslock, holding; simpl; by rewrite bool_decide_true|].
  pose proof (release_checks_top cpu (mk_spinlock 1 (rank l) (lk_name l) (Some cpu) (Some file) line) ranks
    eq_refl eq_refl Hch) as Hrc.
  unfold spin_unlock. simpl in Hrc |- *. rewrite Hrc. simpl. f_equal.
  pose proof (held_rank_range _ Hrest).
  destruct Hv as [Erk|(k & Hk & Erk)]; rewrite Erk in *; [by rewrite Z.lor_0_r, Z.lxor_0_r|].
  assert (2 ^ k <> 0) by (apply Z.pow_nonzero; lia). f_equal. apply rank_lxor; lia.
Qed.

(** Fact (safety): ranked locks are released in reverse order of acquisition: releasing a
    ranked lock below the top of the chain panics. *)
Theorem unlock_out_of_order_panics (cpu : Z) (l : spinlock) (top : Z) (ranks : list Z) :
  rank_chain (top :: ranks) -> top <> 0 -> rank l ∈ ranks -> rank l <> 0 ->
  spin_unlock cpu (l, held_rank (top :: ranks)) = Panic.
Proof.
  intros Hch Htop Hin Hnz. pose proof Hch as (Hv & H63 & Hgt & Hrest).
  specialize (Hgt Htop). pose proof (held_rank_ge _ _ Hrest Hin) as Hle.
  pose proof (held_rank_ge (top :: ranks) top Hch ltac:(left)) as Htl.
  pose proof (held_rank_range _ Hrest) as Hrng.
  assert (valid_rank (rank l)) as Hvl.
  { clear -Hrest Hin. induction ranks as [|r rest IH]; [set_solver|]. destruct Hrest as (? & _ & _ & ?).
    apply elem_of_cons in Hin as [->|]; [done|auto]. }
  destruct Hv as [|(k & Hk & ->)]; [done|]. destruct Hvl as [|(j & Hj & Ej)]; [done|]. rewrite Ej in *.
  assert (j < k) by (apply (Z.pow_lt_mono_r_iff 2); lia).
  assert (2 ^ (j + 1) <= 2 ^ k) by (apply Z.pow_le_mono_r; lia).
  assert (k <> 63) by congruence. assert (2 ^ k <= 2 ^ 62) by (apply Z.pow_le_mono_r; lia).
  unfold spin_unlock, release_checks. rewrite Ej.
  replace (2 ^ j =? 0) with false by (symmetry; apply Z.eqb_neq, Z.pow_nonzero; lia). simpl negb.
  rewrite Z.shiftl_mul_pow2 by lia. rewrite <- Z.pow_add_r, u64_id by lia.
  cbn [held_rank] in Htl |- *.
  replace (2 ^ (j + 1) <=? _) with true by (symmetry; apply Z.leb_le; lia).
  simpl. by rewrite andb_false_r.
Qed.

(** Fact (safety): unlocking never releases a lock another CPU holds, nor a free lock. *)
Theorem unlock_needs_owner (cpu : Z) (l : spinlock) (r : Z) :
  spin_haslock cpu l = false -> spin_unlock cpu (l, r) = Panic.
Proof.
  intros Hh. unfold spin_unlock, release_checks, spin_haslock in *. rewrite Hh.
  by rewrite andb_false_r.
Qed.

(** Fact (bounds): [spin_init] admits the rank [2^63]; a lock of that rank can be taken by a
    CPU that holds no ranked lock, but [lock->rank << 1] is then 0 in 64 bits, so that
    every release of it panics. *)
Theorem rank63_cannot_be_released (cpu : Z) (l : spinlock) (name : string) :
  exists l0 l1, spin_init name (2 ^ 63) (l, 0) = Ret tt (l0, 0)
    /\ spin_lock cpu name 0 (l0, 0) = Ret tt (l1, 2 ^ 63)
    /\ forall l2 r, rank l2 = 2 ^ 63 -> 0 <= r -> spin_unlock cpu (l2, r) = Panic.
Proof.
  do 2 eexists. split; [reflexivity|]. split; [reflexivity|].
  intros l2 r Hr Hpos. unfold spin_unlock, release_checks. rewrite Hr.
  replace (u64 (Z.shiftl (2 ^ 63) 1)) with 0 by reflexivity.
  replace (0 <=? r) with true by (symmetry; by apply Z.leb_le).
  simpl. by rewrite andb_false_r.
Qed.

Lemma lock_unlock_roundtrip_witness :
  exists l', spin_lock 0 "buddy.c" 248 (static_lock "buddy_lock", held_rank [4; 1]) =
    Ret tt (l', held_rank [0; 4; 1]) /\ spin_haslock 0 l' = true
    /\ spin_unlock 0 (l', held_rank [0; 4; 1]) = Ret tt (mk_spinlock 0 0 "buddy_lock" None None 0, held_rank [4; 1]).
Proof.
  apply (lock_unlock_roundtrip 0 "buddy.c" 248 (static_lock "buddy_lock") [4; 1]); [reflexivity|].
  simpl. repeat split; try lia; try (by left).
  - right. by exists 2.
  - right. by exists 0.
Defined.

Lemma unlock_out_of_order_panics_witness :
  spin_unlock 0 (mk_spinlock 1 1 "a" (Some 0) None 0, held_rank [4; 1]) = Panic.
Proof.
  apply (unlock_out_of_order_panics 0 (mk_spinlock 1 1 "a" (Some 0) None 0) 4 [1]); simpl; try lia.
  - repeat split; try lia; right; [by exists 2|by exists 0].
  - apply list_elem_of_singleton. reflexivity.
Defined.

Lemma unlock_needs_owner_witness :
  spin_unlock 1 (mk_spinlock 1 0 "a" (Some 0) None 0, 0) = Panic.
Proof. apply (unlock_needs_owner 1 (mk_spinlock 1 0 "a" (Some 0) None 0) 0). reflexivity. Defined.

End Spinlock.

(** ** Interleavings of several CPUs *)

Module SpinlockSMP.
Import Spinlock.

(** Where a CPU stands in [__spin_lock] / [__spin_unlock]: before the call, in the
    compare-and-exchange loop, after it (rank not yet updated), rank updated (owner
    not yet recorded), in the critical section, after the checks of the release,
    owner cleared, [locked] cleared (rank not yet updated). *)
Inductive pc := Idle | Spin | Got | Ranked | Crit | Rel | Cleared | Freed.

#[global] Instance pc_eq_dec : EqDecision pc.
Proof. solve_decision. Defined.

Record smp := mk_smp { lk : spinlock; ranks : Z -> Z; pcs : Z -> pc }.

Definition goto (s : smp) (c : Z) (p : pc) : smp :=
  mk_smp (lk s) (ranks s) (<[c := p]> (pcs s)).
Definition set_locked (s : smp) (v : Z) : smp :=
  let l := lk s in
  mk_smp (mk_spinlock v (rank l) (lk_name l) (lk_cpu l) (lk_file l) (lk_line l)) (ranks s) (pcs s).
Definition set_owner (s : smp) (o : option Z) : smp :=
  let l := lk s in
  mk_smp (mk_spinlock (locked l) (rank l) (lk_name l) o (lk_file l) (lk_line l)) (ranks s) (pcs s).
Definition set_rank (s : smp) (c r : Z) : smp := mk_smp (lk s) (<[c := r]> (ranks s)) (pcs s).

(** One atomic step of CPU [c].  A CPU whose checks fail panics, which stops the
    machine: there is no step. *)
Inductive step (s : smp) : smp -> Prop :=
  | step_enter c : pcs s c = Idle -> acquire_checks c (lk s) (ranks s c) = true ->
      step s (goto s c Spin)
  | step_cas_ok c : pcs s c = Spin -> locked (lk s) = 0 ->
      step s (goto (set_locked s 1) c Got)
  | step_cas_fail c : pcs s c = Spin -> locked (lk s) <> 0 -> step s s
  | step_try_fail c : pcs s c = Spin -> locked (lk s) <> 0 -> step s (goto s c Idle)
  | step_rank c : pcs s c = Got ->
      step s (goto (set_rank s c (Z.lor (ranks s c) (rank (lk s)))) c Ranked)
  | step_own c : pcs s c = Ranked -> step s (goto (set_owner s (Some c)) c Crit)
  | step_leave c : pcs s c = Crit \/ pcs s c = Idle -> release_checks c (lk s) (ranks s c) = true ->
      step s (goto s c Rel)
  | step_clear c : pcs s c = Rel -> step s (goto (set_owner s None) c Cleared)
  | step_free c : pcs s c = Cleared -> step s (goto (set_locked s 0) c Freed)
  | step_unrank c : pcs s c = Freed ->
      step s (goto (set_rank s c (Z.lxor (ranks s c) (rank (lk s)))) c Idle).

(** A free lock, every CPU outside it. *)
Definition initial (s : smp) : Prop :=
  locked (lk s) = 0 /\ lk_cpu (lk s) = None /\ forall c, pcs s c = Idle.

Definition reachable (s : smp) : Prop := exists s0, initial s0 /\ rtc step s0 s.

(** Between the successful exchange and the store that frees the lock. *)
Definition inside (p : pc) : bool :=
  match p with Got | Ranked | Crit | Rel | Cleared => true | _ => false end.

(** Between recording the owner and clearing it. *)
Definition owning (p : pc) : bool := match p with Crit | Rel => true | _ => false end.

Record smp_inv (s : smp) : Prop := {
  inv_locked : forall c, inside (pcs s c) = true -> locked (lk s) <> 0;
  inv_unique : forall c d, inside (pcs s c) = true -> inside (pcs s d) = true -> c = d;
  inv_owner : forall c, lk_cpu (lk s) = Some c -> owning (pcs s c) = true;
  inv_owned : forall c, owning (pcs s c) = true -> lk_cpu (lk s) = Some c
}.

Lemma pcs_goto s c p d : pcs (goto s c p) d = if decide (c = d) then p else pcs s d.
Proof. simpl. case_decide; subst; [by rewrite fn_lookup_insert|by rewrite fn_lookup_insert_ne]. Qed.

Lemma smp_inv_initial s : initial s -> smp_inv s.
Proof.
  intros (Hl & Hc & Hp). split; intros *; rewrite ?Hp; simpl; try done. by rewrite Hc.
Qed.

(** A CPU passing the release checks owns the lock. *)
Lemma release_checks_owner c l r : release_checks c l r = true -> lk_cpu l = Some c.
Proof.
  unfold release_checks, holding. intros Hr.
  apply andb_prop in Hr as [Hr _]. apply andb_prop in Hr as [_ Hr].
  apply andb_prop in Hr as [_ Hr]. by apply bool_decide_eq_true in Hr.
Qed.

(** The shape shared by the steps that neither enter nor leave: [c] moves from [p] to
    [q], the lock word is unchanged. *)
Lemma smp_inv_move s s' c q :
  smp_inv s ->
  (forall d, pcs s' d = if decide (c = d) then q else pcs s d) ->
  locked (lk s') = locked (lk s) ->
  lk_cpu (lk s') = (if owning q then Some c else if owning (pcs s c) then None else lk_cpu (lk s)) ->
  (inside q = true -> inside (pcs s c) = true) ->
  (owning q = true -> inside (pcs s c) = true) ->
  smp_inv s'.
Proof.
  intros [I1 I2 I3 I4] Hp Hl Hc Hin Hown. split.
  - intros d. rewrite Hp, Hl. case_decide; subst; eauto.
  - intros d e. rewrite !Hp. do 2 case_decide; subst; eauto.
  - intros d. rewrite Hc, Hp. destruct (owning q) eqn:Eq.
    + intros [= <-]. by rewrite decide_True.
    + destruct (owning (pcs s c)) eqn:Ec; [done|]. intros Hd.
      case_decide; subst; [specialize (I3 _ Hd); congruence|auto].
  - intros d. rewrite Hp, Hc. case_decide; subst; [by intros ->|]. intros Hd.
    assert (inside (pcs s d) = true) by by destruct (pcs s d).
    destruct (owning q) eqn:Eq; [exfalso; eauto|].
    destruct (owning (pcs s c)) eqn:Ec; [|auto].
    assert (inside (pcs s c) = true) by by destruct (pcs s c). exfalso; eauto.
Qed.

Lemma smp_inv_step s s' : smp_inv s -> step s s' -> smp_inv s'.
Proof.
  intros I Hst. pose proof I as [I1 I2 I3 I4]. inversion Hst as
    [c Hc Hk|c Hc Hl|c Hc Hl|c Hc Hl|c Hc|c Hc|c Hc Hk|c Hc|c Hc|c Hc]; subst; clear Hst; try done.
  - eapply (smp_inv_move s _ c Spin); [done|intros; by rewrite pcs_goto|done|..]; by rewrite ?Hc.
  - assert (forall d, inside (pcs s d) = true -> False) as Hno by (intros d Hd; by apply (I1 d Hd)).
    assert (forall d, owning (pcs s d) = true -> False) as Hno'.
    { intros d Hd. apply (Hno d). by destruct (pcs s d). }
    split; intros *; rewrite ?pcs_goto; simpl; repeat case_decide; subst; simpl; naive_solver.
  - eapply (smp_inv_move s _ c Idle); [done|intros; by rewrite pcs_goto|done|..]; by rewrite ?Hc.
  - eapply (smp_inv_move s _ c Ranked); [done|intros; by rewrite pcs_goto|done|..]; by rewrite ?Hc.
  - eapply (smp_inv_move s _ c Crit); [done|intros; by rewrite pcs_goto|done|..]; by rewrite ?Hc.
  - pose proof (I3 _ (release_checks_owner _ _ _ Hk)) as Ho.
    destruct Hc as [Hc|Hc]; [|by rewrite Hc in Ho].
    eapply (smp_inv_move s _ c Rel); [done|intros; by rewrite pcs_goto|done|..]; rewrite ?Hc; try done.
    simpl. rewrite (I4 c); [done|by rewrite Hc].
  - eapply (smp_inv_move s _ c Cleared); [done|intros; by rewrite pcs_goto|done|..]; by rewrite ?Hc.
  - assert (forall d, c <> d -> inside (pcs s d) = true -> False) as Hno.
    { intros d Hne Hd. apply Hne, I2; [by rewrite Hc|done]. }
    assert (forall d, c <> d -> owning (pcs s d) = true -> False) as Hno'.
    { intros d Hne Hd. apply (Hno d); [done|]. by destruct (pcs s d). }
    split; intros d; [|intros e|..]; rewrite ?pcs_goto; simpl; repeat case_decide; subst; simpl;
      try done; try (by intros Hd; exfalso; eauto); try (by intros Hd He; exfalso; eauto).
    intros Hd. specialize (I3 _ Hd). by rewrite Hc in I3.
  - eapply (smp_inv_move s _ c Idle); [done|intros; by rewrite pcs_goto|done|..]; by rewrite ?Hc.
Qed.

Lemma reachable_inv s : reachable s -> smp_inv s.
Proof.
  intros (s0 & H0 & Hr). apply smp_inv_initial in H0.
  induction Hr; eauto using smp_inv_step.
Qed.

(** C4 (safety): mutual exclusion: under every interleaving of lock, trylock and unlock on
    any number of CPUs, at most one CPU is between acquiring and freeing the lock. *)
Theorem mutual_exclusion (s : smp) (c d : Z) :
  reachable s -> inside (pcs s c) = true -> inside (pcs s d) = true -> c = d.
Proof. intros Hr. apply reachable_inv in Hr as [_ I2 _ _]. apply I2. Qed.

(** Fact (invariant): the owner test is exact where it is used: a CPU in its critical section is
    seen as holding the lock, and one that is outside the lock or waiting for it is not, so
    the double-acquisition panic is raised for real double acquisitions only. *)
Theorem holding_exact (s : smp) (c : Z) :
  reachable s ->
  (pcs s c = Crit -> spin_haslock c (lk s) = true) /\
  (pcs s c = Idle \/ pcs s c = Spin \/ pcs s c = Freed -> spin_haslock c (lk s) = false).
Proof.
  intros Hr. apply reachable_inv in Hr as [I1 _ I3 I4]. unfold spin_haslock, holding. split.
  - intros Hc. rewrite (I4 c), bool_decide_true by (rewrite ?Hc; done). rewrite andb_true_r.
    apply negb_true_iff, Z.eqb_neq, (I1 c). by rewrite Hc.
  - intros Hc. destruct (bool_decide _) eqn:Eb; [|by rewrite andb_false_r].
    apply bool_decide_eq_true, I3 in Eb. by destruct Hc as [Hc|[Hc|Hc]]; rewrite Hc in Eb.
Qed.

(** CPU 0 has taken a free lock, CPU 1 is waiting for it. *)
Definition demo0 : smp := mk_smp (static_lock "runq_lock") (fun _ => 0) (fun _ => Idle).
Definition demo1 : smp :=
  goto (goto (set_owner (goto (set_rank (goto (set_locked (goto demo0 0 Spin) 1) 0 Got) 0 0) 0 Ranked) (Some 0)) 0 Crit) 1 Spin.

Lemma demo1_reachable : reachable demo1.
Proof.
  exists demo0. split; [split; [done|split; [done|done]]|].
  eapply rtc_l; [apply (step_enter _ 0); reflexivity|].
  eapply rtc_l; [apply (step_cas_ok _ 0); reflexivity|].
  eapply rtc_l; [apply (step_rank _ 0); reflexivity|].
  eapply rtc_l; [apply (step_own _ 0); reflexivity|].
  eapply rtc_l; [apply (step_enter _ 1); reflexivity|]. apply rtc_refl.
Defined.

Lemma mutual_exclusion_witness : inside (pcs demo1 0) = true /\ inside (pcs demo1 1) = false /\ (0 = 0)%Z.
Proof.
  split; [reflexivity|]. split; [reflexivity|].
  apply (mutual_exclusion demo1 0 0); [apply demo1_reachable|reflexivity|reflexivity].
Defined.

Lemma holding_exact_witness :
  spin_haslock 0 (lk demo1) = true /\ spin_haslock 1 (lk demo1) = false.
Proof.
  split.
  - apply (holding_exact demo1 0); [apply demo1_reachable|reflexivity].
  - apply (holding_exact demo1 1); [apply demo1_reachable|right; left; reflexivity].
Defined.

End SpinlockSMP.
