(* ===== verification/Strings.v ===== *)
(** * String and memory routines (lib/string.c)

    Memory is a finite map from byte addresses to bytes (0..255): an address that is not
    mapped belongs to no object, and touching it is a fault.  Pointers are addresses.
    A loop over a string visits a new address in every round, so one round per mapped
    byte and one more is enough fuel for all of them; [memset] and [memmove] are the
    [ASM] versions the file compiles ([rep stos]/[rep movs] with the direction flag). *)

From Stdlib Require Import ZArith Lia.
From stdpp Require Import strings base gmap fin_maps list.
From S2P Require Import Prelude.

#[local] Open Scope Z_scope.
#[local] Open Scope kernel_scope.

Abbreviation mem := (gmap Z Z).

(** [*p] and [*p = c]; a stored value is cut to a byte. *)
Definition load (p : Z) : K mem Z := fun m => kderef (m !! p) m.
Definition store (p c : Z) : K mem unit := fun m =>
  match m !! p with Some _ => Ret tt (<[p := u8 c]> m) | None => Fault end.

(** A [char] is signed. *)
Definition schar (b : Z) : Z := sint 8 b.

Definition rounds (m : mem) : nat := S (size m).

Fixpoint strlen_loop (fuel : nat) (s n : Z) : K mem Z :=
  match fuel with
  | O => khang
  | S fuel =>
      c <-- load s;;
      if c =? 0 then kret n else strlen_loop fuel (s + 1) (s32 (n + 1))
  end.
Definition strlen (s : Z) : K mem Z := fun m => strlen_loop (rounds m) s 0 m.

Fixpoint strnlen_loop (fuel : nat) (s size n : Z) : K mem Z :=
  if size >? 0 then
    match fuel with
    | O => khang
    | S fuel =>
        c <-- load s;;
        if c =? 0 then kret n else strnlen_loop fuel (s + 1) (size - 1) (s32 (n + 1))
    end
  else kret n.
Definition strnlen (s size : Z) : K mem Z := fun m => strnlen_loop (rounds m) s size 0 m.

Fixpoint strcpy_loop (fuel : nat) (dst src : Z) : K mem unit :=
  match fuel with
  | O => khang
  | S fuel =>
      c <-- load src;;
      store dst c;;;
      if c =? 0 then kret tt else strcpy_loop fuel (dst + 1) (src + 1)
  end.
Definition strcpy (dst src : Z) : K mem Z := fun m =>
  (strcpy_loop (rounds m) dst src;;; kret dst) m.

Definition strcat (dst src : Z) : K mem Z :=
  len <-- strlen dst;;
  strcpy (dst + len) src;;;
  kret dst.

Fixpoint strncpy_loop (n : nat) (dst src : Z) : K mem unit :=
  match n with
  | O => kret tt
  | S n =>
      c <-- load src;;
      store dst c;;;
      c <-- load src;;
      strncpy_loop n (dst + 1) (if negb (c =? 0) then src + 1 else src)
  end.
Definition strncpy (dst src size : Z) : K mem Z :=
  strncpy_loop (Z.to_nat size) dst src;;; kret dst.

(** [while (--size > 0 && *src != 0) *dst++ = *src++;]: the final [dst]. *)
Fixpoint strlcpy_loop (n : nat) (dst src : Z) : K mem Z :=
  match n with
  | O => kret dst
  | S n =>
      c <-- load src;;
      if c =? 0 then kret dst
      else store dst c;;; strlcpy_loop n (dst + 1) (src + 1)
  end.
Definition strlcpy (dst src size : Z) : K mem Z :=
  if size >? 0 then
    d <-- strlcpy_loop (Z.to_nat (size - 1)) dst src;;
    store d 0;;;
    kret (u64 (d - dst))
  else kret 0.

Fixpoint strcmp_loop (fuel : nat) (p q : Z) : K mem Z :=
  match fuel with
  | O => khang
  | S fuel =>
      a <-- load p;;
      if negb (a =? 0) then
        b <-- load q;;
        if a =? b then strcmp_loop fuel (p + 1) (q + 1) else kret (a - b)
      else (b <-- load q;; kret (a - b))
  end.
Definition strcmp (p q : Z) : K mem Z := fun m => strcmp_loop (rounds m) p q m.

Fixpoint strncmp_loop (n : nat) (p q : Z) : K mem Z :=
  match n with
  | O => kret 0
  | S n =>
      a <-- load p;;
      if negb (a =? 0) then
        b <-- load q;;
        if a =? b then strncmp_loop n (p + 1) (q + 1) else kret (a - b)
      else (b <-- load q;; kret (a - b))
  end.
Definition strncmp (p q n : Z) : K mem Z := strncmp_loop (Z.to_nat n) p q.

(** A null pointer is [None]. *)
Fixpoint strchr_loop (fuel : nat) (s c : Z) : K mem (option Z) :=
  match fuel with
  | O => khang
  | S fuel =>
      b <-- load s;;
      if b =? 0 then kret None
      else if schar b =? schar c then kret (Some s) else strchr_loop fuel (s + 1) c
  end.
Definition strchr (s c : Z) : K mem (option Z) := fun m => strchr_loop (rounds m) s c m.

Fixpoint strfind_loop (fuel : nat) (s c : Z) : K mem Z :=
  match fuel with
  | O => khang
  | S fuel =>
      b <-- load s;;
      if b =? 0 then kret s
      else if schar b =? schar c then kret s else strfind_loop fuel (s + 1) c
  end.
Definition strfind (s c : Z) : K mem Z := fun m => strfind_loop (rounds m) s c m.

(** ** Block operations *)

(** One unit of [u] bytes. *)
Fixpoint read_unit (u : nat) (p : Z) : K mem (list Z) :=
  match u with
  | O => kret []
  | S u => c <-- load p;; cs <-- read_unit u (p + 1);; kret (c :: cs)
  end.
Fixpoint write_unit (p : Z) (cs : list Z) : K mem unit :=
  match cs with
  | [] => kret tt
  | c :: cs => store p c;;; write_unit (p + 1) cs
  end.

(** [rep stos]: [n] units, the direction flag clear. *)
Fixpoint rep_stos (n : nat) (d : Z) (unit_bytes : list Z) : K mem unit :=
  match n with
  | O => kret tt
  | S n => write_unit d unit_bytes;;; rep_stos n (d + Z.of_nat (length unit_bytes)) unit_bytes
  end.

(** [rep movs]: [n] units of [u] bytes from [s] to [d], upwards ([dir] = 1) or downwards. *)
Fixpoint rep_movs (n u : nat) (dir d s : Z) : K mem unit :=
  match n with
  | O => kret tt
  | S n =>
      cs <-- read_unit u s;;
      write_unit d cs;;;
      rep_movs n u dir (d + dir * Z.of_nat u) (s + dir * Z.of_nat u)
  end.

(** The bytes of [(c<<24)|(c<<16)|(c<<8)|c], least significant first. *)
Definition stosl_word (c : Z) : list Z :=
  let c := Z.land c 0xFF in
  let w := u32 (Z.lor (Z.lor (Z.lor (Z.shiftl c 24) (Z.shiftl c 16)) (Z.shiftl c 8)) c) in
  [u8 w; u8 (Z.shiftr w 8); u8 (Z.shiftr w 16); u8 (Z.shiftr w 24)].

Definition memset (v c n : Z) : K mem Z :=
  if n =? 0 then kret v
  else if (v mod 4 =? 0) && (n mod 4 =? 0) then
    rep_stos (Z.to_nat (n / 4)) v (stosl_word c);;; kret v
  else rep_stos (Z.to_nat n) v [u8 c];;; kret v.

Definition memmove (dst src n : Z) : K mem Z :=
  (if (src <? dst) && (src + n >? dst) then
     let s := src + n in
     let d := dst + n in
     if (s mod 4 =? 0) && (d mod 4 =? 0) && (n mod 4 =? 0)
     then rep_movs (Z.to_nat (n / 4)) 4 (-1) (d - 4) (s - 4)
     else rep_movs (Z.to_nat n) 1 (-1) (d - 1) (s - 1)
   else
     if (src mod 4 =? 0) && (dst mod 4 =? 0) && (n mod 4 =? 0)
     then rep_movs (Z.to_nat (n / 4)) 4 1 dst src
     else rep_movs (Z.to_nat n) 1 1 dst src);;;
  kret dst.

Definition memcpy (dst src n : Z) : K mem Z := memmove dst src n.

Fixpoint memcmp_loop (n : nat) (s1 s2 : Z) : K mem Z :=
  match n with
  | O => kret 0
  | S n =>
      a <-- load s1;;
      b <-- load s2;;
      if negb (a =? b) then kret (a - b) else memcmp_loop n (s1 + 1) (s2 + 1)
  end.
Definition memcmp (v1 v2 n : Z) : K mem Z := memcmp_loop (Z.to_nat n) v1 v2.

Fixpoint memfind_loop (n : nat) (s c : Z) : K mem Z :=
  match n with
  | O => kret s
  | S n =>
      b <-- load s;;
      if b =? u8 c then kret s else memfind_loop n (s + 1) c
  end.
Definition memfind (s c n : Z) : K mem Z := memfind_loop (Z.to_nat n) s c.

(** ** strtol *)

Fixpoint skip_blanks (fuel : nat) (s : Z) : K mem Z :=
  match fuel with
  | O => khang
  | S fuel =>
      c <-- load s;;
      if (c =? 32) || (c =? 9) then skip_blanks fuel (s + 1) else kret s
  end.

(** The digit a character stands for. *)
Definition digit_of (c : Z) : option Z :=
  let c := schar c in
  if (48 <=? c) && (c <=? 57) then Some (c - 48)
  else if (97 <=? c) && (c <=? 122) then Some (c - 97 + 10)
  else if (65 <=? c) && (c <=? 90) then Some (c - 65 + 10)
  else None.

Fixpoint strtol_digits (fuel : nat) (s val base : Z) : K mem (Z * Z) :=
  match fuel with
  | O => khang
  | S fuel =>
      c <-- load s;;
      match digit_of c with
      | Some dig => if dig >=? base then kret (s, val)
                    else strtol_digits fuel (s + 1) (s64 (val * base + dig)) base
      | None => kret (s, val)
      end
  end.

(** The value and the final [s] (what is stored through [endptr]). *)
Definition strtol (s base : Z) : K mem (Z * Z) := fun m =>
  (s <-- skip_blanks (rounds m) s;;
   c <-- load s;;
   let '(s, neg) := if c =? 43 then (s + 1, false) else if c =? 45 then (s + 1, true) else (s, false) in
   c0 <-- load s;;
   hex <-- (if ((base =? 0) || (base =? 16)) && (c0 =? 48) then
              c1 <-- load (s + 1);; kret (c1 =? 120) else kret false);;
   let '(s, base) :=
     if (hex : bool) then (s + 2, 16)
     else if (base =? 0) && (c0 =? 48) then (s + 1, 8)
     else if base =? 0 then (s, 10) else (s, base) in
   r <-- strtol_digits (rounds m) s 0 base;;
   kret (if (neg : bool) then s64 (- snd r) else snd r, fst r)) m.

(** ** Objects in memory *)

(** The bytes [bs] lie at [p]. *)
Fixpoint bytes_at (m : mem) (p : Z) (bs : list Z) : Prop :=
  match bs with
  | [] => True
  | b :: bs => m !! p = Some b /\ bytes_at m (p + 1) bs
  end.

(** A string: its characters and the terminating null byte. *)
Definition cstring (m : mem) (p : Z) (bs : list Z) : Prop :=
  bytes_at m p (bs ++ [0]) /\ Forall (fun b => 0 < b < 256) bs.

(** The addresses [p, p + n) are mapped. *)
Definition mapped (m : mem) (p n : Z) : Prop := forall a, p <= a < p + n -> is_Some (m !! a).

Section Facts.
Implicit Types (m : mem) (bs cs : list Z).

Lemma bind_load {A} p c m (k : Z -> K mem A) : m !! p = Some c -> kbind (load p) k m = k c m.
Proof. unfold kbind, load, kderef. by intros ->. Qed.

Lemma bind_store {A} p c m (k : unit -> K mem A) :
  is_Some (m !! p) -> kbind (store p c) k m = k tt (<[p := u8 c]> m).
Proof. unfold kbind, store. by intros [? ->]. Qed.

Lemma bytes_at_lookup m p bs a : bytes_at m p bs -> p <= a < p + Z.of_nat (length bs) -> is_Some (m !! a).
Proof.
  revert p. induction bs as [|b bs IH]; intros p Hb Ha; simpl in *; [lia|].
  destruct Hb as [Hp Hb]. destruct (decide (a = p)) as [->|]; [eauto|]. apply (IH (p + 1)); [done|lia].
Qed.

Lemma bytes_at_size m p bs : bytes_at m p bs -> (length bs <= size m)%nat.
Proof.
  intros Hb. rewrite <- (size_dom (D := gset Z) m).
  replace (length bs) with (size (list_to_set (seqZ p (Z.of_nat (length bs))) : gset Z)).
  - apply subseteq_size. intros a Ha. apply elem_of_list_to_set, elem_of_seqZ in Ha.
    apply elem_of_dom. eapply bytes_at_lookup; eauto.
  - rewrite size_list_to_set by apply NoDup_seqZ. rewrite length_seqZ. lia.
Qed.

Lemma cstring_rounds m p bs : cstring m p bs -> (length bs < rounds m)%nat.
Proof. intros [Hb _]. apply bytes_at_size in Hb. rewrite length_app in Hb. unfold rounds. simpl in Hb. lia. Qed.

Lemma cstring_cons m p b bs :
  cstring m p (b :: bs) -> m !! p = Some b /\ 0 < b < 256 /\ cstring m (p + 1) bs.
Proof. intros [[Hp Hb] Hf]. apply Forall_cons in Hf as [? ?]. repeat split; try done; lia. Qed.

Lemma cstring_nil m p : cstring m p [] -> m !! p = Some 0.
Proof. by intros [[Hp _] _]. Qed.

Lemma bytes_at_insert m p bs a c :
  bytes_at m p bs -> (a < p \/ p + Z.of_nat (length bs) <= a) -> bytes_at (<[a := c]> m) p bs.
Proof.
  revert p. induction bs as [|b bs IH]; intros p Hb Ha; simpl in *; [done|].
  destruct Hb as [Hp Hb]. split; [rewrite lookup_insert_ne by lia; done|]. apply IH; [done|lia].
Qed.

Lemma cstring_insert m p bs a c :
  cstring m p bs -> (a < p \/ p + Z.of_nat (length bs) + 1 <= a) -> cstring (<[a := c]> m) p bs.
Proof. intros [Hb Hf] Ha. split; [|done]. apply bytes_at_insert; [done|]. rewrite length_app. simpl. lia. Qed.

Lemma s32_id x : - 2 ^ 31 <= x < 2 ^ 31 -> s32 x = x.
Proof. intros Hx. unfold s32, sint. rewrite Z.mod_small; lia. Qed.

Lemma u8_id x : 0 <= x < 256 -> u8 x = x.
Proof. intros. unfold u8. by apply Z.mod_small. Qed.

Lemma strlen_loop_ok fuel m p bs n :
  cstring m p bs -> (length bs < fuel)%nat -> 0 <= n -> n + Z.of_nat (length bs) < 2 ^ 31 ->
  strlen_loop fuel p n m = Ret (n + Z.of_nat (length bs)) m.
Proof.
  revert fuel p n. induction bs as [|b bs IH]; intros [|fuel] p n Hs Hf Hn Hlim; simpl in Hf; try lia;
    cbn [strlen_loop].
  - rewrite (bind_load _ 0) by (by apply cstring_nil). simpl. unfold kret. f_equal. lia.
  - apply cstring_cons in Hs as (Hp & Hb & Hs). rewrite (bind_load _ b) by done.
    destruct (Z.eqb_spec b 0); [lia|]. simpl length in *. rewrite s32_id by lia. rewrite IH by (done || lia).
    f_equal. lia.
Qed.

Lemma strnlen_loop_ok fuel m p bs size n :
  cstring m p bs -> (length bs < fuel)%nat -> 0 <= n -> n + Z.of_nat (length bs) < 2 ^ 31 ->
  strnlen_loop fuel p size n m = Ret (n + Z.min (Z.max 0 size) (Z.of_nat (length bs))) m.
Proof.
  revert fuel p size n. induction bs as [|b bs IH]; intros [|fuel] p size n Hs Hf Hn Hlim; simpl in Hf; try lia;
    cbn [strnlen_loop]; destruct (Z.gtb_spec size 0);
    try (unfold kret; f_equal; simpl; lia).
  - rewrite (bind_load _ 0) by (by apply cstring_nil). simpl. unfold kret. f_equal. lia.
  - apply cstring_cons in Hs as (Hp & Hb & Hs). rewrite (bind_load _ b) by done.
    destruct (Z.eqb_spec b 0); [lia|]. simpl length in *. rewrite s32_id by lia. rewrite IH by (done || lia).
    f_equal. lia.
Qed.

(** ** Comparison *)

(** Lexicographic comparison of the characters. *)
Fixpoint lex (l1 l2 : list Z) : comparison :=
  match l1, l2 with
  | [], [] => Eq
  | [], _ :: _ => Lt
  | _ :: _, [] => Gt
  | x :: l1, y :: l2 => match x ?= y with Eq => lex l1 l2 | c => c end
  end.

Lemma lex_eq l1 l2 : lex l1 l2 = Eq <-> l1 = l2.
Proof.
  revert l2. induction l1 as [|x l1 IH]; intros [|y l2]; simpl; try done.
  destruct (Z.compare_spec x y) as [->|?|?]; [rewrite IH|..]; split; try done; try congruence; intros [= -> ->]; lia.
Qed.

Lemma strcmp_loop_ok fuel m p q bs cs :
  cstring m p bs -> cstring m q cs -> (length bs < fuel)%nat ->
  exists r, strcmp_loop fuel p q m = Ret r m /\ (r ?= 0) = lex bs cs /\ -255 <= r <= 255.
Proof.
  revert fuel p q cs. induction bs as [|b bs IH]; intros [|fuel] p q cs Hp Hq Hf; simpl in Hf; try lia;
    cbn [strcmp_loop].
  - rewrite (bind_load _ 0) by (by apply cstring_nil). simpl.
    destruct cs as [|c cs]; [rewrite (bind_load _ 0) by (by apply cstring_nil)|].
    + by exists 0.
    + apply cstring_cons in Hq as (Hq & Hc & _). rewrite (bind_load _ c) by done. exists (0 - c).
      split; [done|]. split; [simpl; apply Z.compare_lt_iff; lia|lia].
  - apply cstring_cons in Hp as (Hp & Hb & Hps). rewrite (bind_load _ b) by done.
    destruct (Z.eqb_spec b 0); [lia|]. cbn [negb].
    destruct cs as [|c cs]; [rewrite (bind_load _ 0) by (by apply cstring_nil)|].
    + destruct (Z.eqb_spec b 0); [lia|]. exists (b - 0). split; [done|]. split; [simpl; apply Z.compare_gt_iff; lia|lia].
    + apply cstring_cons in Hq as (Hq & Hc & Hqs). rewrite (bind_load _ c) by done.
      destruct (Z.eqb_spec b c) as [->|Hne].
      * destruct (IH fuel (p + 1) (q + 1) cs Hps Hqs ltac:(lia)) as (r & E & Hr). exists r.
        split; [exact E|]. simpl. by rewrite Z.compare_refl.
      * exists (b - c). split; [done|]. split; [|lia]. simpl.
        destruct (Z.compare_spec b c) as [?|?|?]; [done|apply Z.compare_lt_iff; lia|apply Z.compare_gt_iff; lia].
Qed.

(** ** strlcpy *)

(** [write_bytes m p bs]: the memory after storing [bs] at [p]. *)
Fixpoint write_bytes (m : mem) (p : Z) (bs : list Z) : mem :=
  match bs with
  | [] => m
  | b :: bs => write_bytes (<[p := b]> m) (p + 1) bs
  end.

Lemma write_bytes_lookup bs m p a :
  write_bytes m p bs !! a =
    if decide (p <= a < p + Z.of_nat (length bs)) then bs !! Z.to_nat (a - p) else m !! a.
Proof.
  revert m p. induction bs as [|b bs IH]; intros m p; cbn [write_bytes length].
  { rewrite decide_False by lia. done. }
  rewrite IH. destruct (decide (a = p)) as [->|Hne].
  - rewrite decide_False, decide_True, Z.sub_diag by lia. by rewrite lookup_insert_eq.
  - rewrite lookup_insert_ne by done.
    destruct (decide (p + 1 <= a < p + 1 + Z.of_nat (length bs))).
    + rewrite decide_True by lia. replace (Z.to_nat (a - p)) with (S (Z.to_nat (a - (p + 1)))) by lia. done.
    + rewrite decide_False by lia. done.
Qed.

Lemma write_bytes_at m p bs : bytes_at (write_bytes m p bs) p bs.
Proof.
  revert m p. induction bs as [|b bs IH]; intros m p; simpl; [done|]. split; [|apply IH].
  rewrite write_bytes_lookup, decide_False by lia. apply lookup_insert_eq.
Qed.

Lemma write_bytes_app m p bs cs :
  write_bytes m p (bs ++ cs) = write_bytes (write_bytes m p bs) (p + Z.of_nat (length bs)) cs.
Proof.
  revert m p. induction bs as [|b bs IH]; intros m p; cbn [app write_bytes length].
  - f_equal. lia.
  - rewrite IH. f_equal. lia.
Qed.

Lemma strlcpy_loop_ok n m d s bs :
  cstring m s bs -> mapped m d (Z.of_nat (S n)) ->
  (d + Z.of_nat n < s \/ s + Z.of_nat (length bs) < d) ->
  strlcpy_loop n d s m =
    Ret (d + Z.of_nat (length (take n bs))) (write_bytes m d (take n bs)).
Proof.
  revert m d s bs. induction n as [|n IH]; intros m d s bs Hs Hm Hdis; cbn [strlcpy_loop].
  - simpl. unfold kret. f_equal. lia.
  - destruct bs as [|b bs].
    { rewrite (bind_load _ 0) by (by apply cstring_nil). simpl. unfold kret. f_equal. lia. }
    pose proof Hs as Hs'. apply cstring_cons in Hs as (Hp & Hb & Hs). rewrite (bind_load _ b) by done.
    destruct (Z.eqb_spec b 0); [lia|]. rewrite bind_store by (apply Hm; lia). rewrite u8_id by lia.
    cbn [take write_bytes length] in *. rewrite (IH _ _ _ bs).
    + f_equal. lia.
    + apply cstring_insert; [done|]. lia.
    + intros a Ha. rewrite lookup_insert. case_decide; [eauto|]. apply Hm. lia.
    + lia.
Qed.

(** ** Block copies *)

(** Memory holds bytes. *)
Definition wf_mem m : Prop := map_Forall (fun _ b => 0 <= b < 256) m.

Lemma read_unit_ok u m p :
  mapped m p (Z.of_nat u) ->
  exists cs, read_unit u p m = Ret cs m /\ length cs = u
    /\ forall i, 0 <= i < Z.of_nat u -> cs !! Z.to_nat i = m !! (p + i).
Proof.
  revert p. induction u as [|u IH]; intros p Hm; cbn [read_unit].
  { exists []. split; [done|]. split; [done|]. lia. }
  destruct (Hm p ltac:(lia)) as [c Hc]. rewrite (bind_load _ c) by done.
  destruct (IH (p + 1)) as (cs & E & Hl & Hcs). { intros a Ha. apply Hm. lia. }
  exists (c :: cs). unfold kbind. rewrite E. split; [done|]. split; [simpl; lia|].
  intros i Hi. destruct (decide (i = 0)) as [->|]; [by rewrite Z.add_0_r|].
  replace (Z.to_nat i) with (S (Z.to_nat (i - 1))) by lia. simpl. rewrite Hcs by lia. f_equal. lia.
Qed.

Lemma write_unit_ok cs m p :
  mapped m p (Z.of_nat (length cs)) -> Forall (fun b => 0 <= b < 256) cs ->
  write_unit p cs m = Ret tt (write_bytes m p cs).
Proof.
  revert m p. induction cs as [|c cs IH]; intros m p Hm Hc; cbn [write_unit]; [done|].
  apply Forall_cons in Hc as [Hc Hcs]. rewrite bind_store by (apply Hm; simpl; lia).
  rewrite u8_id by done. rewrite IH; [done| |done].
  intros a Ha. rewrite lookup_insert. case_decide; [eauto|]. apply Hm. simpl. lia.
Qed.

(** The memory [m'] is [m] with the [n] bytes at [s] copied to [d]. *)
Definition moved m d s n m' : Prop :=
  forall a, m' !! a = if decide (d <= a < d + n) then m !! (s + (a - d)) else m !! a.

Lemma moved_wf m d s n m' : wf_mem m -> moved m d s n m' -> wf_mem m'.
Proof. intros Hw Hm a b. rewrite Hm. case_decide; apply Hw. Qed.

Lemma moved_mapped m d s n m' p k : mapped m s n -> moved m d s n m' -> mapped m p k -> mapped m' p k.
Proof. intros Hs Hm Hp a Ha. rewrite Hm. case_decide; [apply Hs; lia|by apply Hp]. Qed.

(** One unit. *)
Lemma unit_moved m d s u :
  wf_mem m -> mapped m s (Z.of_nat u) -> mapped m d (Z.of_nat u) ->
  exists m1, (forall k : K mem unit, (cs <-- read_unit u s;; write_unit d cs;;; k) m = k m1)
    /\ moved m d s (Z.of_nat u) m1.
Proof.
  intros Hw Hs Hd. destruct (read_unit_ok u m s Hs) as (cs & E & Hl & Hcs).
  exists (write_bytes m d cs). split.
  - intros k. unfold kbind. rewrite E, write_unit_ok; [done|by rewrite Hl|].
    apply Forall_lookup. intros i b Hi. pose proof (lookup_lt_Some _ _ _ Hi).
    specialize (Hcs (Z.of_nat i) ltac:(lia)). rewrite Nat2Z.id, Hi in Hcs. symmetry in Hcs. by eapply Hw.
  - intros a. rewrite write_bytes_lookup, Hl. case_decide; [|done]. rewrite Hcs by lia. done.
Qed.

Lemma moved_step m d s u n m1 m' :
  moved m d s u m1 -> moved m1 (d + u) (s + u) n m' -> (d <= s \/ s + (u + n) <= d) -> 0 <= u -> 0 <= n ->
  moved m d s (u + n) m'.
Proof.
  intros H1 H2 Hdis Hu Hn a. rewrite H2, !H1.
  repeat case_decide; try lia; f_equal; lia.
Qed.

Lemma rep_movs_up n u m d s :
  wf_mem m -> mapped m s (Z.of_nat u * Z.of_nat n) -> mapped m d (Z.of_nat u * Z.of_nat n) ->
  (d <= s \/ s + Z.of_nat u * Z.of_nat n <= d) ->
  exists m', rep_movs n u 1 d s m = Ret tt m' /\ moved m d s (Z.of_nat u * Z.of_nat n) m'.
Proof.
  revert m d s. induction n as [|n IH]; intros m d s Hw Hs Hd Hdis; cbn [rep_movs].
  { exists m. split; [done|]. intros a. rewrite decide_False by lia. done. }
  destruct (unit_moved m d s u Hw) as (m1 & E & Hm1).
  { intros a Ha. apply Hs. lia. } { intros a Ha. apply Hd. lia. }
  rewrite E. rewrite !Z.mul_1_l.
  destruct (IH m1 (d + Z.of_nat u) (s + Z.of_nat u)) as (m' & E' & Hm').
  - by eapply moved_wf.
  - eapply moved_mapped; [|done|]; intros a Ha; apply Hs; lia.
  - eapply moved_mapped; [|done|]; intros a Ha; [apply Hs|apply Hd]; lia.
  - lia.
  - exists m'. split; [exact E'|]. replace (Z.of_nat u * Z.of_nat (S n)) with (Z.of_nat u + Z.of_nat u * Z.of_nat n) by lia.
    eapply moved_step; [done|done| |lia|lia]. lia.
Qed.

Lemma moved_step_down m d s u n m1 m' :
  moved m (d + n) (s + n) u m1 -> moved m1 d s n m' -> s <= d -> 0 <= u -> 0 <= n ->
  moved m d s (n + u) m'.
Proof.
  intros H1 H2 Hdis Hu Hn a. rewrite H2, !H1. repeat case_decide; try lia; f_equal; lia.
Qed.

Lemma rep_movs_down n u m d s d0 s0 :
  wf_mem m -> mapped m s (Z.of_nat u * Z.of_nat n) -> mapped m d (Z.of_nat u * Z.of_nat n) -> s <= d ->
  d0 = d + Z.of_nat u * (Z.of_nat n - 1) -> s0 = s + Z.of_nat u * (Z.of_nat n - 1) ->
  exists m', rep_movs n u (-1) d0 s0 m = Ret tt m' /\ moved m d s (Z.of_nat u * Z.of_nat n) m'.
Proof.
  revert m d0 s0. induction n as [|n IH]; intros m d0 s0 Hw Hs Hd Hdis Ed Es; cbn [rep_movs].
  { exists m. split; [done|]. intros a. rewrite decide_False by lia. done. }
  replace (Z.of_nat (S n) - 1) with (Z.of_nat n) in * by lia.
  replace (Z.of_nat u * Z.of_nat (S n)) with (Z.of_nat u * Z.of_nat n + Z.of_nat u) in * by lia.
  set (w := Z.of_nat u * Z.of_nat n) in *. assert (0 <= w) by (unfold w; lia).
  destruct (unit_moved m d0 s0 u Hw) as (m1 & E & Hm1).
  { intros a Ha. apply Hs. lia. } { intros a Ha. apply Hd. lia. }
  rewrite E. subst d0 s0.
  assert (mapped m (s + w) (Z.of_nat u)) as Hsu by (intros a Ha; apply Hs; lia).
  destruct (IH m1 (d + w + -1 * Z.of_nat u) (s + w + -1 * Z.of_nat u)) as (m' & E' & Hm').
  - by eapply moved_wf.
  - eapply moved_mapped; [done|done|]. intros a Ha. apply Hs. lia.
  - eapply moved_mapped; [done|done|]. intros a Ha. apply Hd. lia.
  - done.
  - unfold w. lia.
  - unfold w. lia.
  - exists m'. split; [exact E'|]. eapply moved_step_down; [exact Hm1|exact Hm'|lia..].
Qed.

Lemma mod4 n : n mod 4 = 0 -> Z.of_nat 4 * Z.of_nat (Z.to_nat (n / 4)) = Z.max 0 n.
Proof.
  intros Hn. pose proof (Z.div_mod n 4 ltac:(lia)). lia.
Qed.

Lemma rep_stos_ok n m d c cs :
  mapped m d (Z.of_nat (length cs) * Z.of_nat n) -> Forall (fun b => b = c) cs -> 0 <= c < 256 ->
  exists m', rep_stos n d cs m = Ret tt m'
    /\ forall a, m' !! a = if decide (d <= a < d + Z.of_nat (length cs) * Z.of_nat n) then Some c else m !! a.
Proof.
  intros Hm Hcs Hc. revert m d Hm. induction n as [|n IH]; intros m d Hm; cbn [rep_stos].
  { exists m. split; [done|]. intros a. rewrite decide_False by lia. done. }
  set (u := Z.of_nat (length cs)) in *.
  replace (u * Z.of_nat (S n)) with (u + u * Z.of_nat n) in * by lia.
  assert (0 <= u * Z.of_nat n) by lia.
  unfold kbind at 1. rewrite write_unit_ok.
  2:{ intros a Ha. apply Hm. fold u in Ha. lia. } 2:{ eapply Forall_impl; [done|]. simpl. lia. }
  assert (forall a, write_bytes m d cs !! a = if decide (d <= a < d + u) then Some c else m !! a) as Hw.
  { intros a. rewrite write_bytes_lookup. fold u. case_decide; [|done].
    destruct (lookup_lt_is_Some_2 cs (Z.to_nat (a - d))) as [b Hb]; [unfold u in *; lia|].
    rewrite Hb. rewrite Forall_lookup in Hcs. by rewrite (Hcs _ _ Hb). }
  destruct (IH (write_bytes m d cs) (d + u)) as (m' & E & Hm').
  { intros a Ha. rewrite Hw. case_decide; [eauto|]. apply Hm. lia. }
  exists m'. split; [exact E|]. intros a. rewrite Hm', Hw. repeat case_decide; try done; lia.
Qed.

Lemma stosl_word_bytes c : Forall (fun b => b = u8 c) (stosl_word c) /\ length (stosl_word c) = 4%nat.
Proof.
  split; [|done]. unfold stosl_word. replace (Z.land c 0xFF) with (u8 c).
  2:{ change 0xFF with (Z.ones 8). by rewrite Z.land_ones by lia. }
  assert (0 <= u8 c < 256) as Hc by (apply Z.mod_pos_bound; lia).
  generalize dependent (u8 c). clear c. intros c Hc.
  pose proof (range_check (fun c => forallb (fun b => b =? c)
    (let w := u32 (Z.lor (Z.lor (Z.lor (Z.shiftl c 24) (Z.shiftl c 16)) (Z.shiftl c 8)) c) in
     [u8 w; u8 (Z.shiftr w 8); u8 (Z.shiftr w 16); u8 (Z.shiftr w 24)])) 256
    ltac:(vm_compute; reflexivity) c Hc) as Hall. cbv beta in Hall.
  rewrite forallb_forall in Hall. apply Forall_forall. intros b Hb. apply Z.eqb_eq, Hall. by apply list_elem_of_In.
Qed.

Lemma memmove_moves (m : mem) (dst src n : Z) :
  wf_mem m -> 0 <= n -> mapped m src n -> mapped m dst n ->
  exists m', memmove dst src n m = Ret dst m' /\ moved m dst src n m'.
Proof.
  intros Hw Hn Hs Hd. unfold memmove.
  assert (forall c (r : K mem unit), (exists m', r m = Ret tt m' /\ moved m dst src n m') ->
    c = r -> exists m', (c;;; kret dst) m = Ret dst m' /\ moved m dst src n m') as Hfin.
  { intros c r (m' & E & Hm) ->. exists m'. unfold kbind. by rewrite E. }
  eapply Hfin; [|reflexivity]. clear Hfin.
  destruct ((src <? dst) && (src + n >? dst)) eqn:Eo.
  - apply andb_prop in Eo as [?%Z.ltb_lt ?%Z.gtb_lt].
    destruct (_ && _ && _) eqn:Ea.
    + apply andb_prop in Ea as [_ Ea%Z.eqb_eq]. pose proof (mod4 n Ea) as H4.
      rewrite Z.max_r in H4 by lia.
      destruct (rep_movs_down (Z.to_nat (n / 4)) 4 m dst src (dst + n - 4) (src + n - 4)) as (m' & E & Hm);
        rewrite ?H4; try done; try lia. exists m'. split; [exact E|]. by rewrite H4 in Hm.
    + destruct (rep_movs_down (Z.to_nat n) 1 m dst src (dst + n - 1) (src + n - 1)) as (m' & E & Hm);
        try done; try lia.
      * by replace (Z.of_nat 1 * Z.of_nat (Z.to_nat n)) with n by lia.
      * by replace (Z.of_nat 1 * Z.of_nat (Z.to_nat n)) with n by lia.
      * exists m'. split; [exact E|]. by replace (Z.of_nat 1 * Z.of_nat (Z.to_nat n)) with n in Hm by lia.
  - assert (dst <= src \/ src + n <= dst) as Hdis.
    { apply andb_false_iff in Eo as [?%Z.ltb_ge|Hx]; [lia|]. rewrite Z.gtb_ltb in Hx. apply Z.ltb_ge in Hx. lia. }
    destruct (_ && _ && _) eqn:Ea.
    + apply andb_prop in Ea as [_ Ea%Z.eqb_eq]. pose proof (mod4 n Ea) as H4.
      rewrite Z.max_r in H4 by lia.
      destruct (rep_movs_up (Z.to_nat (n / 4)) 4 m dst src) as (m' & E & Hm); rewrite ?H4; try done.
      exists m'. split; [exact E|]. by rewrite H4 in Hm.
    + destruct (rep_movs_up (Z.to_nat n) 1 m dst src) as (m' & E & Hm); try done;
        replace (Z.of_nat 1 * Z.of_nat (Z.to_nat n)) with n in * by lia; try done.
      exists m'. done.
Qed.

End Facts.

(** ** Properties *)

(** C17 (functional): [memmove] copies the [n] bytes at [src] as they were before the call
    to [dst], whether or not the two ranges overlap and whichever of the four copy loops
    is taken, and changes no other byte. *)
Theorem memmove_correct (m : mem) (dst src n : Z) :
  wf_mem m -> 0 <= n -> mapped m src n -> mapped m dst n ->
  exists m', memmove dst src n m = Ret dst m' /\ moved m dst src n m'.
Proof. apply memmove_moves. Qed.

(** Fact (functional): [memset] sets the [n] bytes at [v] to the low byte of [c], with the
    word loop as with the byte loop, and changes no other byte. *)
Theorem memset_correct (m : mem) (v c n : Z) :
  0 <= n -> mapped m v n ->
  exists m', memset v c n m = Ret v m'
    /\ forall a, m' !! a = if decide (v <= a < v + n) then Some (u8 c) else m !! a.
Proof.
  intros Hn Hm. unfold memset. destruct (Z.eqb_spec n 0) as [->|].
  { exists m. split; [done|]. intros a. by rewrite decide_False by lia. }
  assert (0 <= u8 c < 256) as Hc by (apply Z.mod_pos_bound; lia).
  destruct ((v mod 4 =? 0) && (n mod 4 =? 0)) eqn:Ea.
  - apply andb_prop in Ea as [_ Ea%Z.eqb_eq]. pose proof (mod4 n Ea) as H4. rewrite Z.max_r in H4 by lia.
    destruct (stosl_word_bytes c) as [Hb Hl].
    destruct (rep_stos_ok (Z.to_nat (n / 4)) m v (u8 c) (stosl_word c)) as (m' & E & Hm');
      rewrite ?Hl, ?H4 in *; try done.
    exists m'. unfold kbind. by rewrite E.
  - destruct (rep_stos_ok (Z.to_nat n) m v (u8 c) [u8 c]) as (m' & E & Hm');
      simpl length in *; replace (Z.of_nat 1 * Z.of_nat (Z.to_nat n)) with n in * by lia; try done.
    { by apply Forall_singleton. }
    exists m'. unfold kbind. by rewrite E.
Qed.

(** Fact (bounds): [strlcpy] writes at most [size] bytes at [dst]: the longest prefix of the
    string that fits and a null byte; it returns the length of that prefix and changes no
    other byte. *)
Theorem strlcpy_correct (m : mem) (dst src size : Z) (bs : list Z) :
  cstring m src bs -> 0 < size < 2 ^ 64 -> mapped m dst size ->
  (dst + size <= src \/ src + Z.of_nat (length bs) < dst) ->
  let pre := take (Z.to_nat (size - 1)) bs in
  strlcpy dst src size m = Ret (Z.of_nat (length pre)) (write_bytes m dst (pre ++ [0]))
  /\ Z.of_nat (length pre) < size.
Proof.
  intros Hs Hsz Hm Hdis pre. unfold strlcpy. replace (size >? 0) with true by (symmetry; apply Z.gtb_lt; lia).
  set (n := Z.to_nat (size - 1)) in *. unfold kbind at 1.
  assert (Z.of_nat (S n) = size) as En by (unfold n; lia).
  rewrite (strlcpy_loop_ok n m dst src bs); [|done|by rewrite En|lia]. fold pre.
  assert (length pre <= n)%nat as Hle by (unfold pre; rewrite length_take; lia).
  split; [|lia].
  rewrite bind_store.
  - rewrite write_bytes_app. unfold kret. f_equal. rewrite u64_id; lia.
  - rewrite write_bytes_lookup, decide_False by lia. apply Hm. lia.
Qed.

(** Fact (functional): [strcmp] orders strings lexicographically by unsigned characters;
    in particular it returns 0 exactly for equal strings. *)
Theorem strcmp_correct (m : mem) (p q : Z) (bs cs : list Z) :
  cstring m p bs -> cstring m q cs ->
  exists r, strcmp p q m = Ret r m /\ (r ?= 0) = lex bs cs /\ (r = 0 <-> bs = cs).
Proof.
  intros Hp Hq. destruct (strcmp_loop_ok (rounds m) m p q bs cs Hp Hq (cstring_rounds _ _ _ Hp)) as (r & E & Hr & _).
  exists r. split; [exact E|]. split; [done|]. rewrite <- lex_eq, <- Hr. symmetry. apply Z.compare_eq_iff.
Qed.

(** ** Witnesses *)

(** "abcd" at 100, 12 zero bytes after it; "abc" at 200. *)
Definition demo_mem : mem :=
  list_to_map (imap (fun i b => (100 + Z.of_nat i, b)) [97; 98; 99; 100; 0; 0; 0; 0; 0; 0; 0; 0; 0; 0; 0; 0]
               ++ imap (fun i b => (200 + Z.of_nat i, b)) [97; 98; 99; 0]).

Lemma mapped_check m p n :
  forallb (fun i => match m !! (p + i) with Some _ => true | None => false end) (seqZ 0 n) = true -> mapped m p n.
Proof.
  intros Hc a Ha. pose proof (range_check _ n Hc (a - p) ltac:(lia)) as H. simpl in H.
  replace (p + (a - p)) with a in H by lia. destruct (m !! a); [eauto|done].
Qed.

Lemma wf_mem_check (m : mem) : forallb (fun ab => (0 <=? ab.2) && (ab.2 <? 256)) (map_to_list m) = true -> wf_mem m.
Proof.
  rewrite forallb_forall. intros Hf a b Hab. specialize (Hf (a, b)).
  rewrite <- list_elem_of_In, elem_of_map_to_list in Hf. specialize (Hf Hab).
  apply andb_prop in Hf as [?%Z.leb_le ?%Z.ltb_lt]. simpl in *. lia.
Qed.

Lemma memmove_correct_witness : exists m', memmove 102 100 8 demo_mem = Ret 102 m' /\ moved demo_mem 102 100 8 m'.
Proof.
  apply (memmove_correct demo_mem 102 100 8).
  - apply wf_mem_check. vm_compute. reflexivity.
  - lia.
  - apply mapped_check. vm_compute. reflexivity.
  - apply mapped_check. vm_compute. reflexivity.
Defined.

Lemma memset_correct_witness : exists m', memset 100 0x141 8 demo_mem = Ret 100 m'
  /\ forall a, m' !! a = if decide (100 <= a < 100 + 8) then Some (u8 0x141) else demo_mem !! a.
Proof.
  apply (memset_correct demo_mem 100 0x141 8).
  - lia.
  - apply mapped_check. vm_compute. reflexivity.
Defined.

Lemma demo_abcd : cstring demo_mem 100 [97; 98; 99; 100].
Proof. split; [vm_compute; tauto|]. repeat (apply Forall_cons; split; [lia|]). constructor. Qed.

Lemma demo_abc : cstring demo_mem 200 [97; 98; 99].
Proof. split; [vm_compute; tauto|]. repeat (apply Forall_cons; split; [lia|]). constructor. Qed.

Lemma strlcpy_correct_witness :
  strlcpy 106 200 3 demo_mem = Ret 2 (write_bytes demo_mem 106 [97; 98; 0]).
Proof.
  apply (strlcpy_correct demo_mem 106 200 3 [97; 98; 99]).
  - exact demo_abc.
  - lia.
  - apply mapped_check. vm_compute. reflexivity.
  - simpl. lia.
Defined.

Lemma strcmp_correct_witness :
  exists r, strcmp 100 200 demo_mem = Ret r demo_mem /\ (r ?= 0) = Gt
    /\ (r = 0 <-> [97; 98; 99; 100] = [97; 98; 99]).
Proof. exact (strcmp_correct demo_mem 100 200 _ _ demo_abcd demo_abc). Defined.
