(* ===== verification/Portable.v ===== *)
(** * The portable block operations (lib/string.c, the branch without ASM)

    memset and memmove as the file spells them in C, one byte at a time.  They do what the
    assembly versions of Strings.v do, which the file compiles. *)

From Stdlib Require Import ZArith Lia.
From stdpp Require Import strings base gmap fin_maps list.
From S2P Require Import Prelude Strings.

#[local] Open Scope Z_scope.
#[local] Open Scope kernel_scope.

(** [while (--m >= 0) *p++ = c;] from [m = n], an [int]. *)
Fixpoint fill_loop (m : nat) (p c : Z) : K mem unit :=
  match m with
  | O => kret tt
  | S m => store p c;;; fill_loop m (p + 1) c
  end.
Definition portable_memset (v c n : Z) : K mem Z := fill_loop (Z.to_nat (s32 n)) v c;;; kret v.

(** [while (n-- > 0) *--d = *--s;] and [while (n-- > 0) *d++ = *s++;]. *)
Fixpoint copy_down (n : nat) (d s : Z) : K mem unit :=
  match n with
  | O => kret tt
  | S n => c <-- load (s - 1);; store (d - 1) c;;; copy_down n (d - 1) (s - 1)
  end.
Fixpoint copy_up (n : nat) (d s : Z) : K mem unit :=
  match n with
  | O => kret tt
  | S n => c <-- load s;; store d c;;; copy_up n (d + 1) (s + 1)
  end.
Definition portable_memmove (dst src n : Z) : K mem Z :=
  (if (src <? dst) && (src + n >? dst) then copy_down (Z.to_nat n) (dst + n) (src + n) else copy_up (Z.to_nat n) dst src);;;
  kret dst.

(** ** The loops and the string instructions *)

Lemma byte_move d s m : (cs <-- read_unit 1 s;; write_unit d cs) m = (c <-- load s;; store d c) m.
Proof.
  cbn [read_unit]. unfold kbind, load. destruct (m !! s) as [c|]; [|reflexivity].
  change ((store d c;;; kret tt) m = store d c m). unfold kbind, kret. by destruct (store d c m) as [[]| | | |].
Qed.

Lemma kbind_assoc {S A B C} (k : K S A) (f : A -> K S B) (g : B -> K S C) s : kbind (kbind k f) g s = kbind k (fun a => kbind (f a) g) s.
Proof. unfold kbind. by destruct (k s). Qed.

Lemma copy_step {A} d s (k k' : K mem A) m : (forall m, k m = k' m) ->
  (c <-- load s;; store d c;;; k) m = (cs <-- read_unit 1 s;; write_unit d cs;;; k') m.
Proof.
  intros Hk.
  assert (forall x y : K mem unit, x m = y m -> kbind x (fun _ => k) m = kbind y (fun _ => k') m) as H.
  { intros x y E. unfold kbind. rewrite E. destruct (y m); [apply Hk|done..]. }
  etransitivity; [symmetry; apply kbind_assoc|]. etransitivity; [|apply kbind_assoc]. apply H. symmetry. apply byte_move.
Qed.

Lemma copy_up_movs n d s m : copy_up n d s m = rep_movs n 1 1 d s m.
Proof.
  revert d s m. induction n as [|n IH]; intros d s m; [done|]. cbn [copy_up rep_movs]. apply copy_step. intros m'. apply IH.
Qed.

Lemma copy_down_movs n d s m : copy_down n d s m = rep_movs n 1 (-1) (d - 1) (s - 1) m.
Proof.
  revert d s m. induction n as [|n IH]; intros d s m; [done|]. cbn [copy_down rep_movs]. apply copy_step. intros m'. rewrite IH. f_equal; lia.
Qed.

Lemma moved_unique m d s n m1 m2 : moved m d s n m1 -> moved m d s n m2 -> m1 = m2.
Proof. intros H1 H2. apply map_eq. intros a. by rewrite H1, H2. Qed.

Lemma portable_moves (m : mem) (dst src n : Z) :
  wf_mem m -> 0 <= n -> mapped m src n -> mapped m dst n ->
  exists m', portable_memmove dst src n m = Ret dst m' /\ moved m dst src n m'.
Proof.
  intros Hw Hn Hs Hd. unfold portable_memmove.
  assert (Z.of_nat 1 * Z.of_nat (Z.to_nat n) = n) as En by lia.
  destruct ((src <? dst) && (src + n >? dst)) eqn:Eo.
  - destruct (rep_movs_down (Z.to_nat n) 1 m dst src (dst + n - 1) (src + n - 1)) as (m' & E & Hm); rewrite ?En; (done || lia || idtac).
    exists m'. unfold kbind. rewrite copy_down_movs, E. rewrite En in Hm. done.
  - assert (dst <= src \/ src + n <= dst) as Hdis.
    { apply andb_false_iff in Eo as [?%Z.ltb_ge|Hx]; [lia|]. rewrite Z.gtb_ltb in Hx. apply Z.ltb_ge in Hx. lia. }
    destruct (rep_movs_up (Z.to_nat n) 1 m dst src) as (m' & E & Hm); rewrite ?En; try done.
    exists m'. unfold kbind. rewrite copy_up_movs, E. rewrite En in Hm. done.
Qed.

(** Fact (equivalence): the portable memmove and the one with string instructions leave the
    same memory behind, for every pair of regions, overlapping or not. *)
Theorem memmove_equivalent (m : mem) (dst src n : Z) :
  wf_mem m -> 0 <= n -> mapped m src n -> mapped m dst n -> portable_memmove dst src n m = memmove dst src n m.
Proof.
  intros Hw Hn Hs Hd. destruct (portable_moves m dst src n) as (m1 & -> & H1); [done..|].
  destruct (memmove_moves m dst src n) as (m2 & -> & H2); [done..|]. by rewrite (moved_unique _ _ _ _ _ _ H1 H2).
Qed.

Lemma fill_stos m p c s : fill_loop m p c s = rep_stos m p [u8 c] s.
Proof.
  revert p s. induction m as [|m IH]; intros p s; [done|]. cbn [fill_loop rep_stos write_unit length Z.of_nat Pos.of_succ_nat].
  unfold kbind, store, kret. destruct (s !! p); [|done]. unfold u8. rewrite Z.mod_mod by lia. apply IH.
Qed.

(** Fact (equivalence): so do the two versions of memset, below 2^31 bytes: the portable one
    counts in an [int]. *)
Theorem memset_equivalent (m : mem) (v c n : Z) :
  0 <= n < 2 ^ 31 -> mapped m v n -> portable_memset v c n m = memset v c n m.
Proof.
  intros Hn Hm. destruct (memset_correct m v c n) as (m2 & -> & H2); [lia|done|].
  assert (Z.of_nat (length [u8 c]) * Z.of_nat (Z.to_nat n) = n) as En by (cbn [length]; lia).
  destruct (rep_stos_ok (Z.to_nat n) m v (u8 c) [u8 c]) as (m1 & E & H1); rewrite ?En; [done|by constructor|apply Z.mod_pos_bound; lia|].
  rewrite En in H1. unfold portable_memset. rewrite s32_id by lia. unfold kbind. rewrite fill_stos, E. unfold kret. f_equal. apply map_eq. intros a. by rewrite H1, H2.
Qed.

Lemma memmove_equivalent_witness : portable_memmove 102 100 8 demo_mem = memmove 102 100 8 demo_mem.
Proof.
  apply (memmove_equivalent demo_mem 102 100 8).
  - apply wf_mem_check. vm_compute. reflexivity.
  - lia.
  - apply mapped_check. vm_compute. reflexivity.
  - apply mapped_check. vm_compute. reflexivity.
Defined.
