(* ===== verification/Printfmt.v ===== *)
(** * Formatted output (lib/printfmt.c, lib/printf.c, kernel/printf.c)

    The formatter calls [putch] for every character it produces; [putch] is a parameter
    here, as in the code, with the state it works on.  The format and the strings it
    prints are read from a memory ([mem] of Strings.v) that [putch] does not write: the
    output buffer of [vsnprintf] is a separate object.  A [va_list] is the list of the
    64-bit slots of the remaining arguments; taking one from an empty list is a fault. *)

From Stdlib Require Import ZArith Lia Ascii String.
From stdpp Require Import strings base gmap fin_maps list.
From S2P Require Import Prelude Strings.

#[local] Open Scope Z_scope.
#[local] Open Scope kernel_scope.

(** The character codes of a string literal, and the literal as an object at [p]. *)
Definition codes (s : string) : list Z :=
  (fun a => Z.of_nat (Ascii.nat_of_ascii a)) <$> String.list_ascii_of_string s.
Definition lit (p : Z) (s : string) (m : mem) : mem := write_bytes m p (codes s ++ [0]).

(** include/error.h and the table of messages. *)
Definition EAGAIN : Z := 1.
Definition ECHILD : Z := 2.
Definition EEXIST : Z := 3.
Definition EFAULT : Z := 4.
Definition EINVAL : Z := 5.
Definition ENOMEM : Z := 6.
Definition ENOSYS : Z := 7.
Definition EPERM : Z := 8.

(** [error_string]: 9 entries, those not initialised are null. *)
Definition error_string : list (option string) :=
  [None; Some "Resources temporarily unavailable"; Some "No child process"; None; Some "Bad address";
   Some "Invalid argument"; Some "Not enough space"; Some "Function not implemented";
   Some "Operation not permitted"]%string.

(** The flags of a conversion. *)
Record conv := mk_conv { padc : Z; width : Z; precision : Z; lflag : Z; altflag : bool }.
Definition conv0 : conv := mk_conv 32 (-1) (-1) 0 false.

(** Where the formatter is: copying text, or inside a conversion. *)
Inductive fstate := Text | Conv (c : conv).

Section Fmt.
Context {S : Type} (putch : Z -> K S unit).

(** Reading through a pointer. *)
Definition rd (m : mem) (p : Z) : K S Z := kderef (m !! p).

(** A routine of string.c that only reads. *)
Definition reading {A} (o : outcome mem A) : K S A := fun s =>
  match o with Ret a _ => Ret a s | Panic => Panic | Fault => Fault | Hang => Hang | NoReturn _ => Fault end.

Fixpoint putch_n (n : nat) (c : Z) : K S unit :=
  match n with O => kret tt | Datatypes.S n => putch c;;; putch_n n c end.

Definition hexdigit (d : Z) : Z := nth (Z.to_nat d) (codes "0123456789abcdef") 0.

(** [while (--width > 0)] runs [width - 1] times.  A 64-bit number has at most 64 digits. *)
Fixpoint printnum (fuel : nat) (num base width padc : Z) : K S unit :=
  (if num >=? base then
     match fuel with
     | O => khang
     | Datatypes.S fuel => printnum fuel (num / base) base (width - 1) padc
     end
   else putch_n (Z.to_nat (width - 1)) padc);;;
  putch (hexdigit (num mod base)).

Definition getuint (slot lflag : Z) : Z := if negb (lflag =? 0) then u64 slot else u32 slot.
Definition getint (slot lflag : Z) : Z := if negb (lflag =? 0) then s64 slot else s32 slot.

(** The digits of a width: the value and the place of the first character after them. *)
Fixpoint width_digits (fuel : nat) (m : mem) (fmt ch prec : Z) : K S (Z * Z) :=
  match fuel with
  | O => khang
  | Datatypes.S fuel =>
      let prec := s32 (prec * 10 + ch - 48) in
      c <-- rd m fmt;;
      let ch := schar c in
      if (ch <? 48) || (ch >? 57) then kret (prec, fmt) else width_digits fuel m (fmt + 1) ch prec
  end.

Definition process_precision (prec : Z) (c : conv) : conv :=
  if width c <? 0 then mk_conv (padc c) prec (-1) (lflag c) (altflag c)
  else mk_conv (padc c) (width c) prec (lflag c) (altflag c).

(** The loop over the characters of a [%s] argument: the width that is left. *)
Fixpoint str_loop (fuel : nat) (m : mem) (p prec width : Z) (alt : bool) : K S Z :=
  match fuel with
  | O => khang
  | Datatypes.S fuel =>
      b <-- rd m p;;
      let ch := schar b in
      if ch =? 0 then kret width
      else if (prec <? 0) || (prec - 1 >=? 0) then
        (if alt && ((ch <? 32) || (ch >? 126)) then putch 63 else putch ch);;;
        str_loop fuel m (p + 1) (if prec <? 0 then prec else prec - 1) (width - 1) alt
      else kret width
  end.

Definition conv_s (m : mem) (slot : Z) (c : conv) : K S unit :=
  let '(m, p) := if slot =? 0 then (lit 0 "(null)" ∅, 0) else (m, slot) in
  w <-- (if (width c >? 0) && negb (padc c =? 45) then
           n <-- reading (strnlen p (u64 (precision c)) m);;
           putch_n (Z.to_nat (width c - n)) (padc c);;;
           kret (Z.min (width c - n) 0)
         else kret (width c));;
  w <-- str_loop (rounds m) m p (precision c) w (altflag c);;
  putch_n (Z.to_nat w) 32.

Definition number (num base : Z) (c : conv) : K S unit := printnum 64 num base (width c) (padc c).

Definition conv_d (slot : Z) (c : conv) : K S unit :=
  let num := getint slot (lflag c) in
  if num <? 0 then putch 45;;; number (u64 (- num)) 10 c else number (u64 num) 10 c.

Definition conv_p (slot : Z) (c : conv) : K S unit :=
  putch 48;;; putch 120;;; number (u64 slot) 16 c.

(** [for (fmt--; fmt[-1] != '%'; fmt--);] *)
Fixpoint back_to_percent (fuel : nat) (m : mem) (fmt : Z) : K S Z :=
  match fuel with
  | O => khang
  | Datatypes.S fuel =>
      c <-- rd m (fmt - 1);;
      if c =? 37 then kret fmt else back_to_percent fuel m (fmt - 1)
  end.

Definition with_padc p c := mk_conv p (width c) (precision c) (lflag c) (altflag c).
Definition with_width w c := mk_conv (padc c) w (precision c) (lflag c) (altflag c).
Definition with_lflag l c := mk_conv (padc c) (width c) (precision c) l (altflag c).
Definition with_alt c := mk_conv (padc c) (width c) (precision c) (lflag c) true.

(** [vprintfmt]: one round per character read.  A character is read at most once as
    part of a conversion and once as text, the messages of [%e] take a bounded number
    of rounds. *)
Fixpoint vprintfmt_loop (fuel : nat) (m : mem) (st : fstate) (fmt : Z) (ap : list Z) : K S unit :=
  match fuel with
  | O => khang
  | Datatypes.S fuel =>
    ch <-- rd m fmt;;
    match st with
    | Text =>
        if ch =? 37 then vprintfmt_loop fuel m (Conv conv0) (fmt + 1) ap
        else if ch =? 0 then kret tt
        else putch ch;;; vprintfmt_loop fuel m Text (fmt + 1) ap
    | Conv c =>
        let fmt := fmt + 1 in
        let reswitch c := vprintfmt_loop fuel m (Conv c) fmt ap in
        let take_arg (k : Z -> K S unit) :=
          match ap with [] => kfault | slot :: ap => k slot;;; vprintfmt_loop fuel m Text fmt ap end in
        if ch =? 45 then reswitch (with_padc 45 c)
        else if ch =? 48 then reswitch (with_padc 48 c)
        else if (49 <=? ch) && (ch <=? 57) then
          r <-- width_digits (rounds m) m fmt ch 0;;
          vprintfmt_loop fuel m (Conv (process_precision (fst r) c)) (snd r) ap
        else if ch =? 42 then
          match ap with
          | [] => kfault
          | slot :: ap => vprintfmt_loop fuel m (Conv (process_precision (s32 slot) c)) fmt ap
          end
        else if ch =? 46 then reswitch (if width c <? 0 then with_width 0 c else c)
        else if ch =? 35 then reswitch (with_alt c)
        else if ch =? 108 then reswitch (with_lflag (lflag c + 1) c)
        else if ch =? 99 then take_arg (fun slot => putch (s32 slot))
        else if ch =? 101 then
          take_arg (fun slot =>
            let err := s32 slot in
            let err := if err <? 0 then s32 (- err) else err in
            match (if u64 err <? 9 then error_string !! Z.to_nat err else None) with
            | Some (Some msg) => vprintfmt_loop fuel (lit 0 "%s" (lit 1000 msg ∅)) Text 0 [1000]
            | _ => vprintfmt_loop fuel (lit 0 "error %d" ∅) Text 0 [err]
            end)
        else if ch =? 115 then take_arg (fun slot => conv_s m slot c)
        else if ch =? 100 then take_arg (fun slot => conv_d slot c)
        else if ch =? 117 then take_arg (fun slot => number (getuint slot (lflag c)) 10 c)
        else if ch =? 111 then take_arg (fun slot => number (getuint slot (lflag c)) 8 c)
        else if ch =? 112 then take_arg (fun slot => conv_p slot c)
        else if ch =? 120 then take_arg (fun slot => number (getuint slot (lflag c)) 16 c)
        else if ch =? 37 then putch ch;;; vprintfmt_loop fuel m Text fmt ap
        else
          putch 37;;;
          fmt <-- back_to_percent (rounds m) m (fmt - 1);;
          vprintfmt_loop fuel m Text fmt ap
    end
  end.

Definition vprintfmt (m : mem) (fmt : Z) (ap : list Z) : K S unit :=
  vprintfmt_loop (3 * rounds m + 64) m Text fmt ap.

End Fmt.

(** ** vsnprintf: a buffer of [n] bytes *)

(** [struct sprintbuf] with the bytes of the buffer: [buf] and [ebuf] are offsets in it. *)
Record sprintbuf := mk_sprintbuf { sb_bytes : list Z; sb_buf : Z; sb_ebuf : Z; sb_cnt : Z }.

(** A store outside the bytes of the buffer is a fault. *)
Definition sb_store (i c : Z) (l : list Z) : option (list Z) :=
  if decide (0 <= i < Z.of_nat (length l)) then Some (<[Z.to_nat i := u8 c]> l) else None.

Definition sprintputch (ch : Z) : K sprintbuf unit := fun b =>
  if sb_buf b <? sb_ebuf b then
    match sb_store (sb_buf b) ch (sb_bytes b) with
    | Some l => Ret tt (mk_sprintbuf l (sb_buf b + 1) (sb_ebuf b) (s32 (sb_cnt b + 1)))
    | None => Fault
    end
  else Ret tt (mk_sprintbuf (sb_bytes b) (sb_buf b) (sb_ebuf b) (s32 (sb_cnt b + 1))).

(** The buffer ([None] is a null pointer), the result and the bytes of the buffer afterwards. *)
Definition vsnprintf (m : mem) (buf : option (list Z)) (n fmt : Z) (ap : list Z) : outcome (list Z) Z :=
  match buf with
  | None => Ret (- EINVAL) []
  | Some l =>
      if n <? 1 then Ret (- EINVAL) l else
      match vprintfmt sprintputch m fmt ap (mk_sprintbuf l 0 (n - 1) 0) with
      | Ret _ b =>
          match sb_store (sb_buf b) 0 (sb_bytes b) with
          | Some l => Ret (sb_cnt b) l
          | None => Fault
          end
      | Panic => Panic | Fault => Fault | Hang => Hang | NoReturn _ => Fault
      end
  end.

(** ** kernel/printf.c: the console, as the list of characters sent to it *)

(** [putch]: [*cnt++] moves the (local) pointer and leaves the counter alone. *)
Definition cputch (ch : Z) : K (list Z * Z) unit := fun '(out, cnt) => Ret tt (out ++ [ch], cnt).

Definition vcprintf (m : mem) (fmt : Z) (ap : list Z) : K (list Z) Z := fun out =>
  match vprintfmt cputch m fmt ap (out, 0) with
  | Ret _ (out, cnt) => Ret cnt out
  | Panic => Panic | Fault => Fault | Hang => Hang | NoReturn (out, _) => NoReturn out
  end.

(** ** lib/printf.c: 256-byte chunks *)

(** [struct printbuf]; the output of [puts] is the list of the strings passed to it. *)
Record printbuf := mk_printbuf { pb_idx : Z; pb_cnt : Z; pb_buf : list Z; pb_out : list (list Z) }.

Definition upputch (ch : Z) : K printbuf unit := fun b =>
  if decide (0 <= pb_idx b < Z.of_nat (length (pb_buf b))) then
    let buf := <[Z.to_nat (pb_idx b) := u8 ch]> (pb_buf b) in
    let idx := pb_idx b + 1 in
    if idx =? 255
    then Ret tt (mk_printbuf 0 (s32 (pb_cnt b + 1)) buf (pb_out b ++ [take (Z.to_nat idx) buf]))
    else Ret tt (mk_printbuf idx (s32 (pb_cnt b + 1)) buf (pb_out b))
  else Fault.

(** [garbage]: what the uninitialised 256-byte array of [vprintf] holds. *)
Definition vprintf (garbage : list Z) (m : mem) (fmt : Z) (ap : list Z) : K (list (list Z)) Z := fun out =>
  match vprintfmt upputch m fmt ap (mk_printbuf 0 0 garbage out) with
  | Ret _ b => Ret (pb_cnt b) (pb_out b ++ [take (Z.to_nat (pb_idx b)) (pb_buf b)])
  | Panic => Panic | Fault => Fault | Hang => Hang | NoReturn b => NoReturn (pb_out b)
  end.

(** ** Every putch is driven by the same characters *)

(** The [putch] that collects the characters. *)
Definition emit (c : Z) : K (list Z) unit := fun l => Ret tt (l ++ [c]).

Fixpoint putch_all {S} (putch : Z -> K S unit) (l : list Z) : K S unit :=
  match l with [] => kret tt | c :: l => putch c;;; putch_all putch l end.

Section Emits.
Context {S : Type} (putch : Z -> K S unit).

Lemma putch_all_app l l' s :
  putch_all putch (l ++ l') s = (putch_all putch l;;; putch_all putch l') s.
Proof.
  revert s. induction l as [|c l IH]; intros s; simpl; [done|].
  unfold kbind in *. by destruct (putch c s).
Qed.

(** When collecting returns, any [putch] is called on the collected characters in order. *)
Definition emits {A} (e : K (list Z) A) (g : K S A) : Prop :=
  forall l0 a l1, e l0 = Ret a l1 ->
  exists l, l1 = l0 ++ l /\ forall s, g s = (putch_all putch l;;; kret a) s.

Lemma emits_ret {A} (a : A) : emits (kret a) (kret a).
Proof. intros l0 a' l1 [= <- <-]. exists []. by rewrite app_nil_r. Qed.

Lemma emits_fault {A} : emits (A := A) kfault kfault.
Proof. done. Qed.

Lemma emits_hang {A} : emits (A := A) khang khang.
Proof. done. Qed.

Lemma emits_putch c : emits (emit c) (putch c).
Proof.
  intros l0 a l1 [= <- <-]. exists [c]. split; [done|]. intros s. simpl. unfold kbind, kret.
  destruct (putch c s) as [[]| | | |]; done.
Qed.

Lemma emits_bind {A B} (e : K (list Z) A) g (e' : A -> K (list Z) B) g' :
  emits e g -> (forall a, emits (e' a) (g' a)) -> emits (kbind e e') (kbind g g').
Proof.
  intros H1 H2 l0 b l2 E. unfold kbind in E. destruct (e l0) as [a l1| | | |] eqn:E1; try done.
  destruct (H1 _ _ _ E1) as (l & -> & Hg). destruct (H2 _ _ _ _ E) as (l' & -> & Hg').
  exists (l ++ l'). split; [by rewrite app_assoc|]. intros s. unfold kbind in *. rewrite Hg.
  pose proof (putch_all_app l l' s) as Ha. unfold kbind in Ha. rewrite Ha.
  destruct (putch_all putch l s); simpl; (apply Hg' || done).
Qed.

Lemma emits_rd m p : emits (rd m p) (rd m p).
Proof. unfold rd. destruct (m !! p); [apply emits_ret|done]. Qed.

Lemma emits_reading {A} (o : outcome mem A) : emits (reading o) (reading o).
Proof. destruct o; (apply emits_ret || done). Qed.

Lemma emits_putch_n n c : emits (putch_n emit n c) (putch_n putch n c).
Proof. induction n; simpl; [apply emits_ret|]. apply emits_bind; [apply emits_putch|done]. Qed.

Ltac emits_step :=
  match goal with
  | |- emits (kret _) _ => apply emits_ret
  | |- emits kfault _ => apply emits_fault
  | |- emits khang _ => apply emits_hang
  | |- emits (emit _) _ => apply emits_putch
  | |- emits (rd _ _) _ => apply emits_rd
  | |- emits (reading _) _ => apply emits_reading
  | |- emits (putch_n _ _ _) _ => apply emits_putch_n
  | |- emits (kbind _ _) _ => apply emits_bind; [|intro]
  | |- emits (if ?b then _ else _) _ => destruct b
  end.

Lemma emits_printnum fuel num base w p : emits (printnum emit fuel num base w p) (printnum putch fuel num base w p).
Proof. revert num w. induction fuel; intros num w; simpl; repeat (emits_step || done). Qed.

Lemma emits_width_digits fuel m fmt ch prec : emits (width_digits fuel m fmt ch prec) (width_digits fuel m fmt ch prec).
Proof. revert fmt ch prec. induction fuel; intros fmt ch prec; simpl; repeat (emits_step || done). Qed.

Lemma emits_str_loop fuel m p prec w alt :
  emits (str_loop emit fuel m p prec w alt) (str_loop putch fuel m p prec w alt).
Proof. revert p prec w. induction fuel; intros p prec w; simpl; repeat (emits_step || done). Qed.

Lemma emits_back fuel m fmt : emits (back_to_percent fuel m fmt) (back_to_percent fuel m fmt).
Proof. revert fmt. induction fuel; intros fmt; simpl; repeat (emits_step || done). Qed.

Lemma emits_number num base c : emits (number emit num base c) (number putch num base c).
Proof. apply emits_printnum. Qed.

Lemma emits_conv_s m slot c : emits (conv_s emit m slot c) (conv_s putch m slot c).
Proof.
  unfold conv_s. destruct (slot =? 0);
    repeat (emits_step || apply emits_str_loop).
Qed.

Lemma emits_conv_d slot c : emits (conv_d emit slot c) (conv_d putch slot c).
Proof. unfold conv_d. repeat (emits_step || apply emits_number). Qed.

Lemma emits_conv_p slot c : emits (conv_p emit slot c) (conv_p putch slot c).
Proof. unfold conv_p. repeat (emits_step || apply emits_number). Qed.

Lemma emits_vprintfmt_loop fuel m st fmt ap :
  emits (vprintfmt_loop emit fuel m st fmt ap) (vprintfmt_loop putch fuel m st fmt ap).
Proof.
  revert m st fmt ap. induction fuel as [|fuel IH]; intros m st fmt ap; [apply emits_hang|].
  cbn [vprintfmt_loop]. apply emits_bind; [apply emits_rd|]. intros ch.
  destruct st as [|c]; [repeat (emits_step || apply IH)|].
  destruct ap as [|slot ap];
    repeat (emits_step || apply emits_width_digits || apply emits_back || apply IH || apply emits_number
      || apply emits_conv_s || apply emits_conv_d || apply emits_conv_p);
    repeat case_match; apply IH.
Qed.

Lemma vprintfmt_emits m fmt ap out :
  vprintfmt emit m fmt ap [] = Ret tt out ->
  forall s, vprintfmt putch m fmt ap s = putch_all putch out s.
Proof.
  intros E s. destruct (emits_vprintfmt_loop _ _ _ _ _ _ _ _ E) as (l & Hl & H). simpl in Hl. subst l.
  unfold vprintfmt. rewrite H. unfold kbind, kret. by destruct (putch_all putch out s) as [[]| | | |].
Qed.

End Emits.

(** ** Numbers *)

(** The digits of [num], most significant first. *)
Fixpoint digits (fuel : nat) (num base : Z) : list Z :=
  (if num >=? base then match fuel with O => [] | Datatypes.S fuel => digits fuel (num / base) base end else [])
  ++ [num mod base].

(** The number a list of digits stands for, after [acc]. *)
Definition value (base acc : Z) (ds : list Z) : Z := fold_left (fun v d => v * base + d) ds acc.

Lemma value_app base acc ds ds' : value base acc (ds ++ ds') = value base (value base acc ds) ds'.
Proof. apply fold_left_app. Qed.

Lemma div_fuel num base fuel :
  2 <= base -> 0 <= num < base ^ Z.of_nat (S (S fuel)) -> 0 <= num / base < base ^ Z.of_nat (S fuel).
Proof.
  intros Hb Hn. split; [apply Z.div_pos; lia|]. apply Z.div_lt_upper_bound; [lia|].
  rewrite <- Z.pow_succ_r by lia. replace (Z.succ (Z.of_nat (S fuel))) with (Z.of_nat (S (S fuel))) by lia. lia.
Qed.

Lemma digits_value fuel num base :
  2 <= base -> 0 <= num < base ^ Z.of_nat (S fuel) -> value base 0 (digits fuel num base) = num.
Proof.
  revert num. induction fuel as [|fuel IH]; intros num Hb Hn; cbn [digits]; rewrite value_app.
  - rewrite Z.pow_1_r in Hn. destruct (Z.geb_spec num base); [lia|]. simpl. by rewrite Z.mod_small by lia.
  - destruct (Z.geb_spec num base).
    + rewrite IH by (done || by apply div_fuel). simpl. rewrite (Z.div_mod num base) at 3 by lia. lia.
    + simpl. by rewrite Z.mod_small by lia.
Qed.

Lemma digits_range fuel num base : 2 <= base -> Forall (fun d => 0 <= d < base) (digits fuel num base).
Proof.
  revert num. induction fuel as [|fuel IH]; intros num Hb; cbn [digits]; apply Forall_app; split;
    try (apply Forall_singleton, Z.mod_pos_bound; lia); destruct (num >=? base); [constructor..|by apply IH|constructor].
Qed.

Lemma putch_n_emit n c l : putch_n emit n c l = Ret tt (l ++ replicate n c).
Proof.
  revert l. induction n as [|n IH]; intros l; simpl; [by rewrite app_nil_r|].
  unfold kbind. simpl. rewrite IH. by rewrite <- app_assoc.
Qed.

(** What [printnum] prints: the padding and the digits. *)
Lemma printnum_out fuel num base w p l :
  2 <= base -> 0 <= num < base ^ Z.of_nat (S fuel) ->
  printnum emit fuel num base w p l =
    Ret tt (l ++ replicate (Z.to_nat (w - Z.of_nat (length (digits fuel num base)))) p
              ++ (hexdigit <$> digits fuel num base)).
Proof.
  revert num w. induction fuel as [|fuel IH]; intros num w Hb Hn; cbn [printnum digits]; unfold kbind.
  - rewrite Z.pow_1_r in Hn. destruct (Z.geb_spec num base); [lia|]. rewrite putch_n_emit. unfold emit. simpl.
    by rewrite <- app_assoc.
  - destruct (Z.geb_spec num base).
    + rewrite IH by (done || by apply div_fuel). unfold emit. rewrite fmap_app, length_app. simpl.
      rewrite <- !app_assoc. do 4 f_equal. lia.
    + rewrite putch_n_emit. unfold emit. simpl. by rewrite <- app_assoc.
Qed.

Lemma digit_of_hexdigit d : 0 <= d < 16 -> digit_of (hexdigit d) = Some d /\ 0 < hexdigit d < 128.
Proof.
  intros Hd. pose proof (range_check (fun d => match digit_of (hexdigit d) with Some e => e =? d | None => false end
    && (0 <? hexdigit d) && (hexdigit d <? 128)) 16 ltac:(vm_compute; reflexivity) d Hd) as H. cbv beta in H.
  apply andb_prop in H as [[H ?%Z.ltb_lt]%andb_prop ?%Z.ltb_lt]. split; [|lia].
  destruct (digit_of (hexdigit d)); [|done]. by apply Z.eqb_eq in H as ->.
Qed.

Lemma s64_mod x y : (exists q, x = y + 2 ^ 64 * q) -> s64 x = s64 y.
Proof.
  intros [q ->]. unfold s64, sint. replace (y + 2 ^ 64 * q + 2 ^ (64 - 1)) with (y + 2 ^ (64 - 1) + q * 2 ^ 64) by lia.
  by rewrite Z.mod_add by lia.
Qed.

Lemma s64_eq x : exists q, s64 x = x + 2 ^ 64 * q.
Proof.
  exists (- ((x + 2 ^ 63) / 2 ^ 64)). unfold s64, sint. change (64 - 1) with 63.
  pose proof (Z.div_mod (x + 2 ^ 63) (2 ^ 64) ltac:(lia)). lia.
Qed.

Lemma s64_id x : - 2 ^ 63 <= x < 2 ^ 63 -> s64 x = x.
Proof. intros Hx. unfold s64, sint. rewrite Z.mod_small; lia. Qed.

(** The parser reads back what the digits stand for, modulo 2^64. *)
Lemma strtol_digits_ok ds fuel m p acc base :
  Forall (fun d => 0 <= d < base) ds -> 2 <= base <= 16 -> cstring m p (hexdigit <$> ds) -> (length ds < fuel)%nat ->
  strtol_digits fuel p (s64 acc) base m = Ret (p + Z.of_nat (length ds), s64 (value base acc ds)) m.
Proof.
  revert fuel p acc. induction ds as [|d ds IH]; intros [|fuel] p acc Hd Hb Hs Hf; simpl in Hf; try lia;
    cbn [strtol_digits].
  - rewrite (bind_load _ 0) by (by apply cstring_nil). unfold kret. simpl. by rewrite Z.add_0_r.
  - apply Forall_cons in Hd as [Hd Hds]. apply cstring_cons in Hs as (Hp & _ & Hs).
    rewrite (bind_load _ (hexdigit d)) by done.
    destruct (digit_of_hexdigit d ltac:(lia)) as [-> _]. destruct (Z.geb_spec d base); [lia|].
    replace (s64 (s64 acc * base + d)) with (s64 (acc * base + d)).
    + rewrite IH by (done || lia). f_equal. cbn [length value fold_left]. f_equal. lia.
    + symmetry. apply s64_mod. destruct (s64_eq acc) as [q ->]. exists (q * base). lia.
Qed.

Lemma strtol_digits_0 ds fuel m p base :
  Forall (fun d => 0 <= d < base) ds -> 2 <= base <= 16 -> cstring m p (hexdigit <$> ds) -> (length ds < fuel)%nat ->
  strtol_digits fuel p 0 base m = Ret (p + Z.of_nat (length ds), s64 (value base 0 ds)) m.
Proof. exact (strtol_digits_ok ds fuel m p 0 base). Qed.

(** ** The clients of the formatter *)

Lemma skip_blanks_stop fuel m s c :
  m !! s = Some c -> c <> 32 -> c <> 9 -> skip_blanks (S fuel) s m = Ret s m.
Proof.
  intros Hc H1 H2. cbn [skip_blanks]. rewrite (bind_load _ c) by done.
  destruct (Z.eqb_spec c 32), (Z.eqb_spec c 9); done.
Qed.

#[local] Arguments strtol_digits : simpl never.
#[local] Arguments rounds : simpl never.
#[local] Arguments printnum : simpl never.
#[local] Arguments digits : simpl never.

(** [strtol] in base 10 on an optional sign and digits. *)
Lemma strtol_decimal m p neg ds :
  ds <> [] -> Forall (fun d => 0 <= d < 10) ds ->
  cstring m p ((if neg : bool then [45] else []) ++ (hexdigit <$> ds)) ->
  strtol p 10 m = Ret (if neg then s64 (- s64 (value 10 0 ds)) else s64 (value 10 0 ds),
                       p + Z.of_nat (length ((if neg then [45] else []) ++ (hexdigit <$> ds)))) m.
Proof.
  intros Hne Hds Hs. pose proof (cstring_rounds _ _ _ Hs) as Hr. rewrite length_app, length_fmap in Hr.
  destruct ds as [|d ds]; [done|]. pose proof Hds as [Hd _]%Forall_cons.
  destruct (digit_of_hexdigit d ltac:(lia)) as [_ Hh].
  assert (forall x, In x [32; 9; 43; 45] -> hexdigit d <> x) as Hx.
  { pose proof (range_check (fun d => forallb (fun x => negb (hexdigit d =? x)) [32; 9; 43; 45]) 10
      ltac:(vm_compute; reflexivity) d Hd) as H. cbv beta in H. rewrite forallb_forall in H.
    intros x Hin. specialize (H x Hin). by apply negb_true_iff, Z.eqb_neq in H. }
  assert (exists f, rounds m = S f) as [f Hf] by (by exists (size m)).
  unfold strtol. unfold kbind at 1. destruct neg; cbn [app] in Hs.
  - apply cstring_cons in Hs as (Hp & _ & Hs). pose proof Hs as Hs'. rewrite fmap_cons in Hs'.
    apply cstring_cons in Hs' as (Hp1 & _ & _).
    rewrite Hf at 1. rewrite (skip_blanks_stop _ _ _ 45) by done. rewrite (bind_load _ 45) by done. simpl.
    rewrite (bind_load _ (hexdigit d)) by done. unfold kbind at 1. simpl. unfold kbind at 1.
    rewrite (strtol_digits_0 (d :: ds) (rounds m) m (p + 1) 10 Hds ltac:(lia) Hs ltac:(simpl in *; lia)).
    unfold kret. rewrite length_fmap. f_equal. f_equal. simpl. lia.
  - pose proof Hs as Hs'. rewrite fmap_cons in Hs'. apply cstring_cons in Hs' as (Hp1 & _ & _).
    rewrite Hf at 1. rewrite (skip_blanks_stop _ _ _ (hexdigit d)) by (try done; apply Hx; simpl; tauto).
    rewrite (bind_load _ (hexdigit d)) by done.
    destruct (Z.eqb_spec (hexdigit d) 43) as [E|_]; [by apply Hx in E; [|simpl; tauto]|].
    destruct (Z.eqb_spec (hexdigit d) 45) as [E|_]; [by apply Hx in E; [|simpl; tauto]|].
    rewrite (bind_load _ (hexdigit d)) by done. unfold kbind at 1. simpl. unfold kbind at 1.
    rewrite (strtol_digits_0 (d :: ds) (rounds m) m p 10 Hds ltac:(lia) Hs ltac:(simpl in *; lia)).
    unfold kret. simpl. by rewrite length_fmap.
Qed.

Lemma s64_u64 x : s64 (u64 x) = s64 x.
Proof. apply s64_mod. exists (- (x / 2 ^ 64)). unfold u64. rewrite Z.mod_eq by lia. lia. Qed.

Lemma digits_nonempty fuel num base : digits fuel num base <> [].
Proof. destruct fuel; cbn [digits]; intros H; apply app_eq_nil in H as [_ H]; done. Qed.

(** Fact (round trip): the characters [%ld] produces for a signed 64-bit number are read back
    by [strtol] in base 10 as the same number, up to the end of the string, including the
    most negative number. *)
Theorem decimal_roundtrip (x : Z) (m : mem) (p : Z) (out : list Z) :
  - 2 ^ 63 <= x < 2 ^ 63 -> conv_d emit (u64 x) (with_lflag 1 conv0) [] = Ret tt out -> cstring m p out ->
  strtol p 10 m = Ret (x, p + Z.of_nat (length out)) m.
Proof.
  intros Hx E Hs. unfold conv_d, getint in E. simpl in E. rewrite s64_u64, s64_id in E by done.
  assert (forall n, 0 <= n <= 2 ^ 63 -> 0 <= n < 10 ^ Z.of_nat 65) as Hfuel.
  { intros n Hn. split; [lia|]. assert (2 ^ 63 < 10 ^ Z.of_nat 65) by done. lia. }
  destruct (Z.ltb_spec x 0).
  - unfold kbind, number in E. simpl in E. rewrite u64_id in E by lia.
    rewrite printnum_out in E by (lia || apply Hfuel; lia). cbn [width padc with_lflag conv0] in E.
    replace (Z.to_nat (-1 - Z.of_nat (length (digits 64 (- x) 10)))) with 0%nat in E by lia.
    simpl in E. injection E as <-.
    rewrite (strtol_decimal m p true (digits 64 (- x) 10) (digits_nonempty _ _ _)).
    + rewrite digits_value by (lia || apply Hfuel; lia).
      assert (s64 (- s64 (- x)) = x) as ->; [|done]. rewrite <- (s64_id x) at 2 by done.
      apply s64_mod. destruct (s64_eq (- x)) as [q ->]. exists (- q). lia.
    + apply digits_range. lia.
    + exact Hs.
  - unfold number in E. rewrite u64_id in E by lia.
    rewrite printnum_out in E by (lia || apply Hfuel; lia). cbn [width padc with_lflag conv0] in E.
    replace (Z.to_nat (-1 - Z.of_nat (length (digits 64 x 10)))) with 0%nat in E by lia.
    simpl in E. injection E as <-.
    rewrite (strtol_decimal m p false (digits 64 x 10) (digits_nonempty _ _ _)).
    + by rewrite digits_value, s64_id by (lia || apply Hfuel; lia).
    + apply digits_range. lia.
    + exact Hs.
Qed.

Lemma sb_store_app pre c0 rest c :
  sb_store (Z.of_nat (length pre)) c (pre ++ c0 :: rest) = Some (pre ++ u8 c :: rest).
Proof.
  unfold sb_store. rewrite length_app. rewrite decide_True by (simpl; lia). f_equal.
  rewrite Nat2Z.id. replace (length pre) with (length pre + 0)%nat by lia. by rewrite insert_app_r.
Qed.

Lemma sprint_all out pre rest n c :
  0 <= n - 1 - Z.of_nat (length pre) < Z.of_nat (length rest) ->
  0 <= c -> c + Z.of_nat (length out) < 2 ^ 31 ->
  let room := Z.to_nat (n - 1 - Z.of_nat (length pre)) in
  putch_all sprintputch out (mk_sprintbuf (pre ++ rest) (Z.of_nat (length pre)) (n - 1) c) =
    Ret tt (mk_sprintbuf (pre ++ (u8 <$> take room out) ++ drop (length (take room out)) rest)
              (Z.of_nat (length pre + length (take room out))) (n - 1) (c + Z.of_nat (length out))).
Proof.
  revert pre rest c. induction out as [|ch out IH]; intros pre rest c Hroom Hc Hlim room.
  { rewrite take_nil. simpl. unfold kret. by rewrite Z.add_0_r, Nat.add_0_r. }
  cbn [putch_all length] in *. unfold kbind, sprintputch at 1. cbn [sb_buf sb_ebuf sb_bytes sb_cnt].
  rewrite s32_id by lia. destruct (Z.ltb_spec (Z.of_nat (length pre)) (n - 1)).
  - destruct rest as [|c0 rest]; [simpl in *; lia|]. rewrite sb_store_app.
    replace (pre ++ u8 ch :: rest) with ((pre ++ [u8 ch]) ++ rest) by (by rewrite <- app_assoc).
    replace (Z.of_nat (length pre) + 1) with (Z.of_nat (length (pre ++ [u8 ch]))) by (rewrite length_app; simpl; lia).
    rewrite IH; [|rewrite length_app; simpl in *; lia|lia|lia].
    replace room with (S (Z.to_nat (n - 1 - Z.of_nat (length (pre ++ [u8 ch])))))
      by (unfold room; rewrite length_app; simpl; lia).
    rewrite <- app_assoc. simpl. f_equal. f_equal; [|lia]. rewrite length_app. simpl. lia.
  - replace room with 0%nat by (unfold room; lia).
    rewrite IH by lia. fold room. replace room with 0%nat by (unfold room; lia). simpl. f_equal. f_equal. lia.
Qed.

(** C19 (bounds): [vsnprintf] on a buffer of [n] bytes never writes outside it: the buffer
    receives the first [n - 1] characters at most and a null byte behind them, the bytes
    after that are untouched, and the result is the length of the full output. *)
Theorem vsnprintf_correct (m : mem) (l : list Z) (n fmt : Z) (ap out : list Z) :
  vprintfmt emit m fmt ap [] = Ret tt out -> Z.of_nat (length l) = n -> 1 <= n ->
  Z.of_nat (length out) < 2 ^ 31 ->
  let kept := take (Z.to_nat (n - 1)) out in
  vsnprintf m (Some l) n fmt ap =
    Ret (Z.of_nat (length out)) ((u8 <$> kept) ++ 0 :: drop (length kept + 1) l).
Proof.
  intros E Hl Hn Hout kept. unfold vsnprintf. destruct (Z.ltb_spec n 1); [lia|].
  rewrite (vprintfmt_emits sprintputch _ _ _ _ E).
  pose proof (sprint_all out [] l n 0 ltac:(simpl; lia) ltac:(lia) ltac:(lia)) as Hall.
  change (Z.of_nat (length (@nil Z))) with 0 in Hall. rewrite Z.sub_0_r in Hall. simpl in Hall. fold kept in Hall.
  rewrite Hall. cbn [sb_buf sb_bytes sb_cnt].
  assert (length kept <= Z.to_nat (n - 1))%nat by (unfold kept; rewrite length_take; lia).
  destruct (drop (length kept) l) as [|c0 rest] eqn:Ed.
  { apply (f_equal length) in Ed. rewrite length_drop in Ed. simpl in Ed. lia. }
  rewrite <- (length_fmap u8 kept) at 1. rewrite sb_store_app. f_equal. f_equal. f_equal.
  rewrite <- drop_drop, Ed. done.
Qed.

(** Fact (functional): [vcprintf] sends the formatted characters to the console, and always
    returns 0: its [putch] increments the pointer to the counter, not the counter. *)
Theorem vcprintf_returns_zero (m : mem) (fmt : Z) (ap out con : list Z) :
  vprintfmt emit m fmt ap [] = Ret tt out -> vcprintf m fmt ap con = Ret 0 (con ++ out).
Proof.
  intros E. unfold vcprintf. rewrite (vprintfmt_emits cputch _ _ _ _ E).
  assert (forall con, putch_all cputch out (con, 0) = Ret tt (con ++ out, 0)) as ->; [|done]. clear E con.
  induction out as [|c out IH]; intros con; simpl; [by rewrite app_nil_r|].
  unfold kbind. simpl. rewrite IH. by rewrite <- app_assoc.
Qed.

Lemma take_insert_snoc (l : list Z) (i : nat) (c : Z) :
  (i < length l)%nat -> take (S i) (<[i := c]> l) = take i l ++ [c].
Proof.
  intros Hi. erewrite take_S_r by (by apply list_lookup_insert_eq). by rewrite take_insert_ge by lia.
Qed.

(** The output so far: what was passed to [puts] and what is waiting in the buffer. *)
Definition pending (b : printbuf) : list Z := concat (pb_out b) ++ take (Z.to_nat (pb_idx b)) (pb_buf b).

Lemma up_all out b :
  length (pb_buf b) = 256%nat -> 0 <= pb_idx b < 255 -> 0 <= pb_cnt b -> pb_cnt b + Z.of_nat (length out) < 2 ^ 31 ->
  Forall (fun c => (length c <= 255)%nat) (pb_out b) ->
  exists b', putch_all upputch out b = Ret tt b' /\ pending b' = pending b ++ (u8 <$> out)
    /\ pb_cnt b' = pb_cnt b + Z.of_nat (length out) /\ 0 <= pb_idx b' < 255
    /\ Forall (fun c => (length c <= 255)%nat) (pb_out b').
Proof.
  revert b. induction out as [|ch out IH]; intros b Hl Hi Hc Hlim Hch.
  { exists b. simpl. rewrite app_nil_r, Z.add_0_r. done. }
  cbn [putch_all length] in *. unfold kbind, upputch at 1. rewrite decide_True by lia. rewrite s32_id by lia.
  assert (Z.to_nat (pb_idx b + 1) = S (Z.to_nat (pb_idx b))) as Es by lia.
  destruct (Z.eqb_spec (pb_idx b + 1) 255) as [E|Hne].
  - destruct (IH (mk_printbuf 0 (pb_cnt b + 1) (<[Z.to_nat (pb_idx b) := u8 ch]> (pb_buf b))
        (pb_out b ++ [take (Z.to_nat (pb_idx b + 1)) (<[Z.to_nat (pb_idx b) := u8 ch]> (pb_buf b))])))
      as (b' & Er & Hp & Hcnt & Hidx & Hch'); simpl; [by rewrite length_insert|lia|lia|lia| |].
    { apply Forall_app. split; [done|]. apply Forall_singleton. rewrite length_take. lia. }
    exists b'. split; [exact Er|]. split; [|split; [simpl in *; lia|done]]. rewrite Hp. unfold pending. simpl.
    rewrite concat_app, Es, take_insert_snoc by lia. simpl. rewrite !app_nil_r, <- !app_assoc. done.
  - destruct (IH (mk_printbuf (pb_idx b + 1) (pb_cnt b + 1) (<[Z.to_nat (pb_idx b) := u8 ch]> (pb_buf b)) (pb_out b)))
      as (b' & Er & Hp & Hcnt & Hidx & Hch'); simpl; [by rewrite length_insert|lia|lia|lia|done|].
    exists b'. split; [exact Er|]. split; [|split; [simpl in *; lia|done]]. rewrite Hp. unfold pending. simpl.
    rewrite Es, take_insert_snoc by lia. rewrite <- !app_assoc. done.
Qed.

(** Fact (functional): the strings the user-level [vprintf] passes to [puts] are, joined
    together, exactly the formatted output; each has at most 255 characters, the 256-byte
    buffer is never overrun and the result is the number of characters. *)
Theorem vprintf_correct (garbage : list Z) (m : mem) (fmt : Z) (ap out : list Z) (con : list (list Z)) :
  vprintfmt emit m fmt ap [] = Ret tt out -> length garbage = 256%nat -> Z.of_nat (length out) < 2 ^ 31 ->
  Forall (fun c => (length c <= 255)%nat) con ->
  exists chunks, vprintf garbage m fmt ap con = Ret (Z.of_nat (length out)) chunks
    /\ concat chunks = concat con ++ (u8 <$> out) /\ Forall (fun c => (length c <= 255)%nat) chunks.
Proof.
  intros E Hg Hout Hcon. unfold vprintf. rewrite (vprintfmt_emits upputch _ _ _ _ E).
  destruct (up_all out (mk_printbuf 0 0 garbage con)) as (b' & Er & Hp & Hc & Hi & Hch); try done; try (simpl; lia).
  rewrite Er. eexists. split; [by rewrite Hc|]. split.
  - rewrite concat_app. simpl. rewrite app_nil_r. unfold pending in Hp. rewrite Hp. simpl. by rewrite app_nil_r.
  - apply Forall_app. split; [done|]. apply Forall_singleton. rewrite length_take. lia.
Qed.

(** ** Termination *)

#[local] Arguments printnum : simpl nomatch.

Section Live.
Context {S : Type} (putch : Z -> K S unit).

(** [g] never runs out of fuel, and what it returns satisfies [Q]. *)
Definition live {A} (g : K S A) (Q : A -> Prop) : Prop := forall s,
  match g s with Hang => False | Ret a _ => Q a | _ => True end.

Lemma live_ret {A} (a : A) (Q : A -> Prop) : Q a -> live (kret a) Q.
Proof. by intros H s. Qed.

Lemma live_fault {A} (Q : A -> Prop) : live kfault Q.
Proof. done. Qed.

Lemma live_bind {A B} (g : K S A) (g' : A -> K S B) (P : A -> Prop) (Q : B -> Prop) :
  live g P -> (forall a, P a -> live (g' a) Q) -> live (kbind g g') Q.
Proof. intros H1 H2 s. unfold kbind. specialize (H1 s). destruct (g s); try done. by apply H2. Qed.

Lemma live_weaken {A} (g : K S A) (P Q : A -> Prop) : live g P -> (forall a, P a -> Q a) -> live g Q.
Proof. intros H1 H2 s. specialize (H1 s). destruct (g s); auto. Qed.

Lemma live_rd m p c : m !! p = Some c -> live (rd m p) (fun b => b = c).
Proof. intros Hc s. unfold rd. by rewrite Hc. Qed.

Lemma live_rd_any m p : live (rd m p) (fun b => m !! p = Some b).
Proof. intros s. unfold rd. by destruct (m !! p). Qed.

(** Among [rounds m] addresses in a row one is not mapped. *)
Lemma gap (m : mem) p : exists i, 0 <= i < Z.of_nat (rounds m) /\ m !! (p + i) = None.
Proof.
  destruct (existsb (fun i => match m !! (p + i) with None => true | _ => false end) (seqZ 0 (Z.of_nat (rounds m)))) eqn:E.
  - apply existsb_exists in E as (i & Hi%list_elem_of_In%elem_of_seqZ & Hn). exists i. split; [lia|].
    by destruct (m !! (p + i)).
  - exfalso.
    assert (size (list_to_set (seqZ p (Z.of_nat (rounds m))) : gset Z) <= size (dom (D := gset Z) m))%nat as Hle.
    { apply subseteq_size. intros a Ha. apply elem_of_list_to_set, elem_of_seqZ in Ha. apply elem_of_dom.
      destruct (m !! a) as [c|] eqn:Ea; [eauto|]. exfalso. apply not_true_iff_false in E. apply E.
      apply existsb_exists. exists (a - p). split; [apply list_elem_of_In, elem_of_seqZ; lia|].
      replace (p + (a - p)) with a by lia. by rewrite Ea. }
    rewrite size_list_to_set, length_seqZ, size_dom in Hle by apply NoDup_seqZ. unfold rounds in Hle. lia.
Qed.

Hypothesis putch_live : forall c, live (putch c) (fun _ => True).

Lemma live_putch_n n c : live (putch_n putch n c) (fun _ => True).
Proof. induction n; simpl; [by apply live_ret|]. eapply live_bind; [apply putch_live|done]. Qed.

Lemma live_str_loop fuel m p prec w alt :
  (exists i, 0 <= i < Z.of_nat fuel /\ m !! (p + i) = None) -> live (str_loop putch fuel m p prec w alt) (fun _ => True).
Proof.
  revert p prec w. induction fuel as [|fuel IH]; intros p prec w (i & Hi & Hn); [lia|]. cbn [str_loop].
  eapply live_bind; [apply live_rd_any|]. intros b Hb. simpl.
  destruct (schar b =? 0); [by apply live_ret|]. destruct (_ || _); [|by apply live_ret].
  eapply live_bind; [destruct (alt && _); apply putch_live|]. intros _ _. apply IH.
  exists (i - 1). assert (i <> 0) by (intros ->; rewrite Z.add_0_r in Hn; congruence).
  split; [lia|]. by replace (p + 1 + (i - 1)) with (p + i) by lia.
Qed.

Lemma strnlen_loop_total fuel (m : mem) p sz n :
  (exists i, 0 <= i < Z.of_nat fuel /\ m !! (p + i) = None) -> strnlen_loop fuel p sz n m <> Hang.
Proof.
  revert p sz n. induction fuel as [|fuel IH]; intros p sz n (i & Hi & Hn); [lia|]. cbn [strnlen_loop].
  destruct (sz >? 0); [|done]. unfold kbind, load, kderef. destruct (m !! p) as [c|] eqn:Ep; [|done]. simpl.
  destruct (c =? 0); [done|]. apply IH. exists (i - 1).
  assert (i <> 0) by (intros ->; rewrite Z.add_0_r in Hn; congruence).
  split; [lia|]. by replace (p + 1 + (i - 1)) with (p + i) by lia.
Qed.

Lemma live_conv_s m slot c : live (conv_s putch m slot c) (fun _ => True).
Proof.
  unfold conv_s. destruct (if slot =? 0 then _ else _) as [m' p].
  eapply live_bind with (P := fun _ => True).
  - destruct (_ && _); [|by apply live_ret]. eapply live_bind with (P := fun _ => True).
    + intros s. unfold reading, strnlen.
      pose proof (strnlen_loop_total (rounds m') m' p (u64 (precision c)) 0 (gap m' p)).
      by destruct (strnlen_loop _ _ _ _ m').
    + intros n _. eapply live_bind; [apply live_putch_n|]. intros _ _. by apply live_ret.
  - intros w _. eapply live_bind; [apply live_str_loop, gap|]. intros w' _. apply live_putch_n.
Qed.

Lemma live_printnum fuel num base w p :
  2 <= base -> 0 <= num < base ^ Z.of_nat (Datatypes.S fuel) -> live (printnum putch fuel num base w p) (fun _ => True).
Proof.
  revert num w. induction fuel as [|fuel IH]; intros num w Hb Hn; cbn [printnum].
  - rewrite Z.pow_1_r in Hn. destruct (Z.geb_spec num base); [lia|].
    eapply live_bind; [apply live_putch_n|]. intros _ _. apply putch_live.
  - eapply live_bind; [|intros _ _; apply putch_live].
    destruct (Z.geb_spec num base); [|apply live_putch_n]. apply IH; [done|]. by apply div_fuel.
Qed.

Lemma live_number x base c : (base = 8 \/ base = 10 \/ base = 16) -> 0 <= x < 2 ^ 64 -> live (number putch x base c) (fun _ => True).
Proof.
  intros Hb Hx. apply live_printnum; [lia|]. split; [lia|].
  assert (2 ^ 64 <= 8 ^ Z.of_nat 65 /\ 2 ^ 64 <= 10 ^ Z.of_nat 65 /\ 2 ^ 64 <= 16 ^ Z.of_nat 65)
    by (split_and!; vm_compute; discriminate).
  destruct Hb as [-> | [-> | ->]]; lia.
Qed.

Lemma live_conv_d slot c : live (conv_d putch slot c) (fun _ => True).
Proof.
  unfold conv_d. destruct (_ <? 0); [eapply live_bind; [apply putch_live|intros _ _]|]; apply live_number; try tauto; apply u64_range.
Qed.

Lemma live_conv_p slot c : live (conv_p putch slot c) (fun _ => True).
Proof.
  unfold conv_p. eapply live_bind; [apply putch_live|intros _ _]. eapply live_bind; [apply putch_live|intros _ _].
  apply live_number; [tauto|apply u64_range].
Qed.

Lemma getuint_range slot l : 0 <= getuint slot l < 2 ^ 64.
Proof. unfold getuint. destruct (negb _); [apply u64_range|]. unfold u32. pose proof (Z.mod_pos_bound slot (2 ^ 32)). lia. Qed.

(** Positions in a string. *)
Lemma cstring_app m p fs bs : cstring m p (fs ++ bs) -> cstring m (p + Z.of_nat (length fs)) bs.
Proof.
  revert p. induction fs as [|f fs IH]; intros p Hs; [simpl; by rewrite Z.add_0_r|].
  apply cstring_cons in Hs as (_ & _ & Hs). apply IH in Hs. cbn [length].
  by replace (p + Z.of_nat (Datatypes.S (length fs))) with (p + 1 + Z.of_nat (length fs)) by lia.
Qed.

Lemma cstring_head m p b bs : cstring m p (b :: bs) -> m !! p = Some b.
Proof. by intros (? & _)%cstring_cons. Qed.

(** Backing up over characters that are not percent signs. *)
Lemma live_back fuel m q fs bs :
  cstring m q (37 :: fs ++ bs) -> 37 ∉ fs -> (length fs < fuel)%nat ->
  live (back_to_percent fuel m (q + 1 + Z.of_nat (length fs))) (fun f => f = q + 1).
Proof.
  revert fuel bs. induction fs as [|f fs IH] using rev_ind; intros [|fuel] bs Hs Hn Hf; simpl in Hf; try lia;
    cbn [back_to_percent].
  - simpl. eapply live_bind; [apply (live_rd _ _ 37)|intros c ->; simpl; apply live_ret; lia].
    replace (q + 1 + Z.of_nat 0 - 1) with q by lia. exact (cstring_head _ _ _ _ Hs).
  - rewrite length_app in *. simpl in *.
    eapply live_bind; [apply (live_rd _ _ f)|].
    + apply (cstring_head _ _ _ bs). replace (q + 1 + Z.of_nat (length fs + 1) - 1) with (q + Z.of_nat (length (37 :: fs))) by (simpl; lia).
      apply cstring_app. simpl. by rewrite <- app_assoc in Hs.
    + intros c ->. destruct (Z.eqb_spec f 37) as [->|]; [set_solver|].
      replace (q + 1 + Z.of_nat (length fs + 1) - 1) with (q + 1 + Z.of_nat (length fs)) by lia.
      apply (IH _ (f :: bs)); [by rewrite <- app_assoc in Hs|set_solver|lia].
Qed.

Lemma live_width_digits fuel m q bs ch prec :
  cstring m q bs -> (length bs < fuel)%nat ->
  live (width_digits fuel m q ch prec) (fun r => exists ds bs', bs = ds ++ bs' /\ 37 ∉ ds /\ snd r = q + Z.of_nat (length ds)).
Proof.
  revert fuel q ch prec. induction bs as [|b bs IH]; intros [|fuel] q ch prec Hs Hf; simpl in Hf; try lia;
    cbn [width_digits].
  - eapply live_bind; [apply (live_rd _ _ 0); by apply cstring_nil|]. intros c ->. simpl.
    apply live_ret. exists [], []. simpl. split; [done|]. split; [set_solver|lia].
  - pose proof Hs as (Hp & Hb & Hs')%cstring_cons. eapply live_bind; [by apply (live_rd _ _ b)|]. intros c ->. simpl.
    destruct ((schar b <? 48) || (schar b >? 57)) eqn:E.
    + apply live_ret. exists [], (b :: bs). simpl. split; [done|]. split; [set_solver|lia].
    + eapply live_weaken; [by apply IH; [|lia]|]. intros r (ds & bs' & -> & Hn & Hr).
      exists (b :: ds), bs'. split; [done|]. split; [|rewrite Hr; simpl; lia].
      rewrite not_elem_of_cons. split; [|done]. intros <-. done.
Qed.

(** The two messages of [%e]. *)
Definition err_msg_mem (msg : string) : mem := lit 0 "%s" (lit 1000 msg ∅).
Definition err_num_mem : mem := lit 0 "error %d" ∅.

(** The rounds the formatter takes from here: [fs] is what was read since the
    percent sign (or is known to be plain text), [bs] what is left. *)
Definition text_live (extra fuel : nat) (noerr : bool) : Prop := forall m q fs bs ap,
  cstring m q (fs ++ bs) -> 37 ∉ fs -> (noerr = true -> 101 ∉ bs) -> (length fs + 3 * length bs + 2 + extra <= fuel)%nat ->
  live (vprintfmt_loop putch fuel m Text q ap) (fun _ => True).
Definition conv_live (extra fuel : nat) (noerr : bool) : Prop := forall m q fs bs c ap,
  cstring m q (37 :: fs ++ bs) -> 37 ∉ fs -> (noerr = true -> 101 ∉ bs) -> (length fs + 3 * length bs + 3 + extra <= fuel)%nat ->
  live (vprintfmt_loop putch fuel m (Conv c) (q + 1 + Z.of_nat (length fs)) ap) (fun _ => True).

Lemma text_step extra fuel noerr : text_live extra fuel noerr -> conv_live extra fuel noerr -> text_live extra (Datatypes.S fuel) noerr.
Proof.
  intros IHt IHc m q fs bs ap Hs Hn He Hf. cbn [vprintfmt_loop]. destruct fs as [|f fs].
  - destruct bs as [|b bs].
    + eapply live_bind; [apply (live_rd _ _ 0); by apply cstring_nil|]. intros ch ->. simpl. by apply live_ret.
    + simpl app in Hs. pose proof Hs as (Hb & Hr & Hs')%cstring_cons.
      eapply live_bind; [by apply (live_rd _ _ b)|]. intros ch ->. destruct (Z.eqb_spec b 37) as [->|Hne].
      * replace (q + 1) with (q + 1 + Z.of_nat (length (@nil Z))) by (simpl; lia).
        apply (IHc m q [] bs); [done|set_solver|set_solver|simpl in *; lia].
      * destruct (Z.eqb_spec b 0); [lia|]. eapply live_bind; [apply putch_live|]. intros _ _.
        apply (IHt m (q + 1) [] bs); [done|set_solver|set_solver|simpl in *; lia].
  - pose proof Hs as (Hb & Hr & Hs')%cstring_cons.
    eapply live_bind; [by apply (live_rd _ _ f)|]. intros ch ->.
    destruct (Z.eqb_spec f 37) as [->|Hne]; [set_solver|]. destruct (Z.eqb_spec f 0); [lia|].
    eapply live_bind; [apply putch_live|]. intros _ _.
    apply (IHt m (q + 1) fs bs); [done|set_solver|done|simpl in *; lia].
Qed.

Lemma conv_step extra fuel noerr :
  text_live extra fuel noerr -> conv_live extra fuel noerr ->
  (noerr = false -> (extra <= fuel)%nat -> forall msg err, Some msg ∈ error_string ->
     live (vprintfmt_loop putch fuel (err_msg_mem msg) Text 0 [1000]) (fun _ => True)
     /\ live (vprintfmt_loop putch fuel err_num_mem Text 0 [err]) (fun _ => True)) ->
  conv_live extra (Datatypes.S fuel) noerr.
Proof.
  intros IHt IHc Hnest m q fs bs c ap Hs Hn He Hf. cbn [vprintfmt_loop].
  pose proof Hs as (Hpc & _ & Hs1)%cstring_cons. pose proof (cstring_app _ _ _ _ Hs1) as Hs2.
  set (pos := q + 1 + Z.of_nat (length fs)) in *.
  (* the unrecognised character *)
  assert (forall bs', bs' = bs -> live (putch 37;;; fmt <-- back_to_percent (rounds m) m (pos + 1 - 1);;
      vprintfmt_loop putch fuel m Text fmt ap) (fun _ => True)) as Hdefault.
  { intros _ _. eapply live_bind; [apply putch_live|]. intros _ _. replace (pos + 1 - 1) with pos by lia.
    eapply live_bind; [eapply live_back; [done|done|]|].
    - pose proof (cstring_rounds _ _ _ Hs) as Hr. simpl in Hr. rewrite length_app in Hr. lia.
    - intros f ->. apply (IHt m (q + 1) fs bs); [done|done|done|lia]. }
  specialize (Hdefault bs eq_refl).
  destruct bs as [|b bs].
  { eapply live_bind; [apply (live_rd _ _ 0); by apply cstring_nil|]. intros ch ->. exact Hdefault. }
  pose proof Hs2 as (Hb & Hr & Hs3)%cstring_cons.
  eapply live_bind; [by apply (live_rd _ _ b)|]. intros ch ->. cbv zeta.
  assert (forall c' ap', b <> 37 -> live (vprintfmt_loop putch fuel m (Conv c') (pos + 1) ap') (fun _ => True)) as Hre.
  { intros c' ap' Hb37. replace (pos + 1) with (q + 1 + Z.of_nat (length (fs ++ [b]))) by (unfold pos; rewrite length_app; simpl; lia).
    apply (IHc m q (fs ++ [b]) bs); [by rewrite <- app_assoc|set_solver|set_solver|].
    rewrite length_app. simpl in *. lia. }
  assert (forall ap', live (vprintfmt_loop putch fuel m Text (pos + 1) ap') (fun _ => True)) as Hgo.
  { intros ap'. apply (IHt m (pos + 1) [] bs); [done|set_solver|set_solver|simpl in *; lia]. }
  assert (forall k : Z -> K S unit, (forall slot, live (k slot) (fun _ => True)) ->
    live (match ap with [] => kfault | slot :: ap => k slot;;; vprintfmt_loop putch fuel m Text (pos + 1) ap end)
      (fun _ => True)) as Htake.
  { intros k Hk. destruct ap as [|slot ap]; [apply live_fault|]. eapply live_bind; [apply Hk|]. intros _ _. apply Hgo. }
  destruct (Z.eqb_spec b 45) as [->|_]; [by apply Hre|]. destruct (Z.eqb_spec b 48) as [->|_]; [by apply Hre|].
  destruct ((49 <=? b) && (b <=? 57)) eqn:Edig.
  { apply andb_prop in Edig as [?%Z.leb_le ?%Z.leb_le].
    eapply live_bind; [apply (live_width_digits _ _ _ bs); [done|]|].
    - pose proof (cstring_rounds _ _ _ Hs3). lia.
    - intros [prec f] (ds & bs' & -> & Hd & Hr'). simpl in Hr'. subst f. simpl fst. simpl snd.
      replace (pos + 1 + Z.of_nat (length ds)) with (q + 1 + Z.of_nat (length (fs ++ b :: ds)))
        by (unfold pos; rewrite length_app; simpl; lia).
      apply (IHc m q (fs ++ b :: ds) bs'); [by rewrite <- app_assoc| | |].
      + rewrite elem_of_app, elem_of_cons. intros [?|[?|?]]; [done|lia|done].
      + intros Hne Hx. apply (He Hne). rewrite elem_of_cons, elem_of_app. tauto.
      + rewrite length_app. simpl in *. rewrite length_app in Hf. lia. }
  destruct (Z.eqb_spec b 42) as [->|_]. { destruct ap; [apply live_fault|]. by apply Hre. }
  destruct (Z.eqb_spec b 46) as [->|_]; [by apply Hre|]. destruct (Z.eqb_spec b 35) as [->|_]; [by apply Hre|].
  destruct (Z.eqb_spec b 108) as [->|_]; [by apply Hre|].
  destruct (Z.eqb_spec b 99) as [->|_]; [apply Htake; intros; apply putch_live|].
  destruct (Z.eqb_spec b 101) as [->|_].
  { destruct noerr; [exfalso; apply He; [done|left]|]. apply Htake. intros slot. cbv zeta.
    set (err := if s32 slot <? 0 then s32 (- s32 slot) else s32 slot).
    destruct (Hnest eq_refl ltac:(simpl in *; lia) "Bad address"%string err) as [_ Hnum].
    { apply (list_elem_of_lookup_2 _ 4). reflexivity. }
    destruct (u64 err <? 9); [|exact Hnum]. destruct (error_string !! Z.to_nat err) as [[msg|]|] eqn:Em; [|exact Hnum..].
    apply Hnest; [done|simpl in *; lia|exact err|]. by eapply list_elem_of_lookup_2. }
  destruct (Z.eqb_spec b 115) as [->|_]; [apply Htake; intros; by apply live_conv_s|].
  destruct (Z.eqb_spec b 100) as [->|_]; [apply Htake; intros; by apply live_conv_d|].
  destruct (Z.eqb_spec b 117) as [->|_]; [apply Htake; intros; apply live_number; [lia|apply getuint_range]|].
  destruct (Z.eqb_spec b 111) as [->|_]; [apply Htake; intros; apply live_number; [lia|apply getuint_range]|].
  destruct (Z.eqb_spec b 112) as [->|_]; [apply Htake; intros; by apply live_conv_p|].
  destruct (Z.eqb_spec b 120) as [->|_]; [apply Htake; intros; apply live_number; [lia|apply getuint_range]|].
  destruct (Z.eqb_spec b 37) as [->|_]; [eapply live_bind; [apply putch_live|intros _ _; apply Hgo]|].
  exact Hdefault.
Qed.

(** Formats without [%e]. *)
Lemma live_noerr fuel : text_live 0 fuel true /\ conv_live 0 fuel true.
Proof.
  induction fuel as [|fuel [IHt IHc]].
  - split; intros m q fs bs; intros; lia.
  - split; [by apply text_step|]. apply conv_step; done.
Qed.

Lemma cstring_lit p s m : forallb (fun b => (0 <? b) && (b <? 256)) (codes s) = true -> cstring (lit p s m) p (codes s).
Proof.
  intros Hc. split; [apply write_bytes_at|]. rewrite forallb_forall in Hc. apply Forall_forall. intros b Hb.
  apply list_elem_of_In, Hc, andb_prop in Hb as [?%Z.ltb_lt ?%Z.ltb_lt]. lia.
Qed.

Lemma live_nested fuel msg err : (64 <= fuel)%nat ->
  live (vprintfmt_loop putch fuel (err_msg_mem msg) Text 0 [1000]) (fun _ => True)
  /\ live (vprintfmt_loop putch fuel err_num_mem Text 0 [err]) (fun _ => True).
Proof.
  intros Hf. destruct (live_noerr fuel) as [Ht _]. split.
  - apply (Ht _ _ [] (codes "%s")); [by apply cstring_lit|set_solver| |simpl; lia].
    intros _ Hx%list_elem_of_In. vm_compute in Hx. intuition discriminate.
  - apply (Ht _ _ (codes "error ") (codes "%d")); [by apply (cstring_lit 0 "error %d" ∅)| | |simpl; lia].
    + intros Hx%list_elem_of_In. vm_compute in Hx. intuition discriminate.
    + intros _ Hx%list_elem_of_In. vm_compute in Hx. intuition discriminate.
Qed.

Lemma live_all fuel : text_live 64 fuel false /\ conv_live 64 fuel false.
Proof.
  induction fuel as [|fuel [IHt IHc]].
  - split; intros m q fs bs; intros; lia.
  - split; [by apply text_step|]. apply conv_step; [done|done|]. intros _ Hf msg err _. by apply live_nested.
Qed.

Lemma vprintfmt_live m fmt bs ap : cstring m fmt bs -> live (vprintfmt putch m fmt ap) (fun _ => True).
Proof.
  intros Hs. unfold vprintfmt. apply (proj1 (live_all _) m fmt [] bs); [done|set_solver|done|].
  pose proof (cstring_rounds _ _ _ Hs). cbn [length]. lia.
Qed.

End Live.

(** C18 (termination): on every null-terminated format, with any arguments, the formatter
    stops (it returns or faults on a bad argument): the fuel of the model is never
    exhausted, provided [putch] itself returns. *)
Theorem vprintfmt_terminates {S : Type} (putch : Z -> K S unit) (m : mem) (fmt : Z) (bs ap : list Z) (s : S) :
  (forall c s', putch c s' <> Hang) -> cstring m fmt bs -> vprintfmt putch m fmt ap s <> Hang.
Proof.
  intros Hp Hs. assert (forall c, live (putch c) (fun _ => True)) as Hl.
  { intros c s'. specialize (Hp c s'). by destruct (putch c s'). }
  pose proof (vprintfmt_live putch Hl m fmt bs ap Hs s) as H. by destruct (vprintfmt putch m fmt ap s).
Qed.

(** ** Witnesses *)

(** The format "n=%5d|%-3s|%e%%" with a string argument at 300. *)
Definition demo_fmt : mem := lit 100 "n=%5d|%-3s|%e%%" (lit 300 "ab" (lit 400 "-42" ∅)).
Definition demo_args : list Z := [u64 (-17); 300; 6].

Lemma vprintfmt_terminates_witness : vprintfmt emit demo_fmt 100 demo_args [] <> Hang.
Proof.
  apply (vprintfmt_terminates emit demo_fmt 100 (codes "n=%5d|%-3s|%e%%") demo_args []).
  - intros c s' H. discriminate H.
  - apply cstring_lit. vm_compute. reflexivity.
Defined.

Lemma demo_out : vprintfmt emit demo_fmt 100 demo_args [] = Ret tt (codes "n=-   17|ab |Not enough space%").
Proof. vm_compute. reflexivity. Qed.

Lemma vsnprintf_correct_witness :
  vsnprintf demo_fmt (Some (replicate 8 7)) 8 100 demo_args = Ret 30 (codes "n=-   1" ++ [0]).
Proof.
  exact (vsnprintf_correct demo_fmt (replicate 8 7) 8 100 demo_args _ demo_out
    ltac:(reflexivity) ltac:(lia) ltac:(vm_compute; reflexivity)).
Defined.

Lemma vcprintf_returns_zero_witness :
  vcprintf demo_fmt 100 demo_args [] = Ret 0 (codes "n=-   17|ab |Not enough space%").
Proof. exact (vcprintf_returns_zero demo_fmt 100 demo_args _ [] demo_out). Defined.

Lemma vprintf_correct_witness :
  exists chunks, vprintf (replicate 256 7) demo_fmt 100 demo_args [] = Ret 30 chunks
    /\ concat chunks = codes "n=-   17|ab |Not enough space%" /\ Forall (fun c => (length c <= 255)%nat) chunks.
Proof.
  exact (vprintf_correct (replicate 256 7) demo_fmt 100 demo_args _ [] demo_out
    ltac:(reflexivity) ltac:(vm_compute; reflexivity) ltac:(constructor)).
Defined.

Lemma decimal_roundtrip_witness : strtol 400 10 demo_fmt = Ret (-42, 403) demo_fmt.
Proof.
  apply (decimal_roundtrip (-42) demo_fmt 400 (codes "-42")).
  - lia.
  - vm_compute. reflexivity.
  - split; [vm_compute; tauto|]. repeat (apply Forall_cons; split; [vm_compute; split; reflexivity|]). constructor.
Defined.
