(* ===== verification/RbTree.v ===== *)
(** * Red-black trees (lib/rbtree.c)

    Nodes live in a heap of [struct rb_node]; a pointer is [None] for NULL.  The
    operations are those of the C file, in its order, on that heap: rotation,
    traversal, rebalancing after an insertion, removal, replacement.  RbTreeThm.v
    relates the heap to a tree and proves the operations correct. *)

From stdpp Require Import base gmap.
From S2P Require Import Prelude.

#[local] Open Scope kernel_scope.

(** [enum rb_dir] and [enum rb_color]; [!dir] is the other direction. *)
Inductive rb_dir := RB_LEFT | RB_RIGHT.
Inductive rb_color := RB_BLACK | RB_RED.

#[global] Instance rb_dir_eq_dec : EqDecision rb_dir.
Proof. solve_decision. Defined.
#[global] Instance rb_color_eq_dec : EqDecision rb_color.
Proof. solve_decision. Defined.

Definition opp (d : rb_dir) : rb_dir := match d with RB_LEFT => RB_RIGHT | RB_RIGHT => RB_LEFT end.
(** A C truth value used as a direction: [RB_RIGHT] is 1. *)
Definition dir_of (b : bool) : rb_dir := if b then RB_RIGHT else RB_LEFT.

Section Ops.
Context {L : Type} `{Countable L}.

Record rb_node := mk_rb { parent : option L; child_l : option L; child_r : option L; color : rb_color }.
Record rb_tree := mk_tree { rb_heap : gmap L rb_node; root : option L }.

Definition child (d : rb_dir) (n : rb_node) : option L := match d with RB_LEFT => child_l n | RB_RIGHT => child_r n end.
Definition set_child (d : rb_dir) (v : option L) (n : rb_node) : rb_node :=
  match d with
  | RB_LEFT => mk_rb (parent n) v (child_r n) (color n)
  | RB_RIGHT => mk_rb (parent n) (child_l n) v (color n)
  end.
Definition set_parent (v : option L) (n : rb_node) : rb_node := mk_rb v (child_l n) (child_r n) (color n).
Definition set_color (c : rb_color) (n : rb_node) : rb_node := mk_rb (parent n) (child_l n) (child_r n) c.
(** [memset(node, 0, sizeof *node)]: null pointers, and the color 0, black. *)
Definition rb_node_init : rb_node := mk_rb None None None RB_BLACK.

Definition rd (p : option L) : K rb_tree rb_node := fun t => kderef (n ← p; rb_heap t !! n) t.
Definition upd (p : option L) (f : rb_node -> rb_node) : K rb_tree unit := fun t =>
  match p with
  | Some n => match rb_heap t !! n with
              | Some nd => Ret tt (mk_tree (<[n := f nd]> (rb_heap t)) (root t))
              | None => Fault
              end
  | None => Fault
  end.
Definition get_root : K rb_tree (option L) := fun t => Ret (root t) t.
Definition set_root (p : option L) : K rb_tree unit := fun t => Ret tt (mk_tree (rb_heap t) p).
Definition when (b : bool) (m : K rb_tree unit) : K rb_tree unit := if b then m else kret tt.
Definition notnull (p : option L) : bool := if p then true else false.

(** [parent->child[parent->child[RB_RIGHT] == node] = v], or the root. *)
Definition relink (par : option L) (node : L) (v : option L) : K rb_tree unit :=
  match par with
  | Some _ =>
      p <-- rd par;;
      upd par (set_child (dir_of (bool_decide (child RB_RIGHT p = Some node))) v)
  | None => set_root v
  end.

Definition rotate_node (node : option L) (dir : rb_dir) : K rb_tree unit :=
  n <-- rd node;;
  let par := parent n in
  let ch := child (opp dir) n in
  c <-- rd ch;;
  upd node (set_child (opp dir) (child dir c));;;
  when (notnull (child dir c)) (upd (child dir c) (set_parent node));;;
  upd ch (set_child dir node);;;
  upd ch (set_parent par);;;
  match node with Some nn => relink par nn ch | None => kfault end;;;
  upd node (set_parent ch).

Fixpoint outermost_loop (fuel : nat) (node : option L) (dir : rb_dir) : K rb_tree (option L) :=
  match fuel with
  | O => khang
  | S fuel =>
      n <-- rd node;;
      match child dir n with
      | None => kret node
      | Some _ => outermost_loop fuel (child dir n) dir
      end
  end.
Definition rb_fuel (t : rb_tree) : nat := S (size (rb_heap t)).
Definition get_outermost (node : option L) (dir : rb_dir) : K rb_tree (option L) :=
  match node with
  | None => kret None
  | Some _ => fun t => outermost_loop (rb_fuel t) node dir t
  end.

Fixpoint closest_loop (fuel : nat) (node : option L) (dir : rb_dir) : K rb_tree (option L) :=
  match fuel with
  | O => khang
  | S fuel =>
      n <-- rd node;;
      match parent n with
      | None => kret None
      | Some _ =>
          p <-- rd (parent n);;
          if bool_decide (child dir p = node) then closest_loop fuel (parent n) dir
          else kret (parent n)
      end
  end.
Definition get_closest (node : option L) (dir : rb_dir) : K rb_tree (option L) :=
  match node with
  | None => kret None
  | Some _ =>
      n <-- rd node;;
      match child dir n with
      | Some _ => get_outermost (child dir n) (opp dir)
      | None => fun t => closest_loop (rb_fuel t) node dir t
      end
  end.

Definition rb_first : K rb_tree (option L) := r <-- get_root;; get_outermost r RB_LEFT.
Definition rb_last : K rb_tree (option L) := r <-- get_root;; get_outermost r RB_RIGHT.
Definition rb_next (node : option L) : K rb_tree (option L) := get_closest node RB_RIGHT.
Definition rb_prev (node : option L) : K rb_tree (option L) := get_closest node RB_LEFT.

(** One test: the pointer is not NULL and its node is red. *)
Definition is_red (p : option L) : K rb_tree bool :=
  match p with
  | None => kret false
  | Some _ => n <-- rd p;; kret (bool_decide (color n = RB_RED))
  end.

Fixpoint balance_loop (fuel : nat) (node : option L) : K rb_tree unit :=
  match fuel with
  | O => khang
  | S fuel =>
      n <-- rd node;;
      let par := parent n in
      pred <-- is_red par;;
      if negb pred then kret tt else
      p <-- rd par;;
      let grandparent := parent p in
      g <-- rd grandparent;;
      let dir := dir_of (bool_decide (child RB_LEFT g = par)) in
      let uncle := child dir g in
      ured <-- is_red uncle;;
      if ured : bool then
        upd par (set_color RB_BLACK);;;
        upd uncle (set_color RB_BLACK);;;
        upd grandparent (set_color RB_RED);;;
        balance_loop fuel grandparent
      else
        p <-- rd par;;
        np <-- (if bool_decide (child dir p = node) then
                  rotate_node par (opp dir);;;
                  n <-- rd par;;
                  kret (par, parent n)
                else kret (node, par));;
        upd (snd np) (set_color RB_BLACK);;;
        upd grandparent (set_color RB_RED);;;
        rotate_node grandparent dir;;;
        balance_loop fuel (fst np)
  end.

Definition rb_balance (node : option L) : K rb_tree Z :=
  match node with
  | None => kret (-1)%Z
  | Some _ =>
      upd node (set_color RB_RED);;;
      (fun t => balance_loop (rb_fuel t) node t);;;
      r <-- get_root;;
      upd r (set_color RB_BLACK);;;
      kret 0%Z
  end.

(** The recursive call removes the predecessor, which has no right child. *)
Fixpoint do_remove_rec (fuel : nat) (node : option L) : K rb_tree Z :=
  match fuel with
  | O => khang
  | S fuel =>
      match node with
      | None => kret (-1)%Z
      | Some nn =>
          n <-- rd node;;
          let par := parent n in
          ch <-- (match child RB_LEFT n, child RB_RIGHT n with
                  | Some _, Some _ =>
                      ch <-- get_outermost (child RB_LEFT n) RB_RIGHT;;
                      do_remove_rec fuel ch;;;
                      n <-- rd node;;
                      upd ch (set_child RB_LEFT (child RB_LEFT n));;;
                      when (notnull (child RB_LEFT n)) (upd (child RB_LEFT n) (set_parent ch));;;
                      n <-- rd node;;
                      upd ch (set_child RB_RIGHT (child RB_RIGHT n));;;
                      when (notnull (child RB_RIGHT n)) (upd (child RB_RIGHT n) (set_parent ch));;;
                      kret ch
                  | _, _ => kret (child (dir_of (negb (notnull (child RB_LEFT n)))) n)
                  end);;
          relink par nn ch;;;
          when (notnull ch) (upd ch (set_parent par));;;
          upd node (fun _ => rb_node_init);;;
          kret 0%Z
      end
  end.
Definition do_remove (node : option L) : K rb_tree Z := do_remove_rec 2 node.

(** [!p || p->color == RB_BLACK]. *)
Definition is_black (p : option L) : K rb_tree bool := r <-- is_red p;; kret (negb r).

Fixpoint remove_loop (fuel : nat) (node : option L) : K rb_tree (option L) :=
  match fuel with
  | O => khang
  | S fuel =>
      n <-- rd node;;
      match parent n with
      | None => kret node
      | Some _ =>
          p <-- rd (parent n);;
          let dir := dir_of (bool_decide (child RB_LEFT p = node)) in
          let sibling := child dir p in
          match sibling with
          | None => kret node
          | Some _ =>
              s <-- rd sibling;;
              sibling <-- (match color s with
                           | RB_RED =>
                               upd (parent n) (set_color RB_RED);;;
                               upd sibling (set_color RB_BLACK);;;
                               rotate_node (parent n) (opp dir);;;
                               n <-- rd node;;
                               p <-- rd (parent n);;
                               kret (child dir p)
                           | RB_BLACK => kret sibling
                           end);;
              s <-- rd sibling;;
              inner <-- is_black (child (opp dir) s);;
              outer <-- is_black (child dir s);;
              if (inner && outer)%bool then
                upd sibling (set_color RB_RED);;;
                n <-- rd node;;
                remove_loop fuel (parent n)
              else
                let finish (sibling : option L) : K rb_tree (option L) :=
                  n <-- rd node;;
                  p <-- rd (parent n);;
                  upd sibling (set_color (color p));;;
                  upd (parent n) (set_color RB_BLACK);;;
                  s <-- rd sibling;;
                  upd (child dir s) (set_color RB_BLACK);;;
                  rotate_node (parent n) (opp dir);;;
                  r <-- get_root;;
                  remove_loop fuel r in
                if outer : bool then
                  upd sibling (set_color RB_RED);;;
                  s <-- rd sibling;;
                  when (notnull (child (opp dir) s)) (upd (child (opp dir) s) (set_color RB_BLACK));;;
                  n <-- rd node;;
                  rotate_node (parent n) dir;;;
                  n <-- rd node;;
                  match parent n with
                  | None => kret node
                  | Some _ =>
                      p <-- rd (parent n);;
                      match child dir p with
                      | None => kret node
                      | Some _ => finish (child dir p)
                      end
                  end
                else finish sibling
          end
      end
  end.

Definition rb_remove (node : option L) : K rb_tree Z :=
  match node with
  | None => kret (-1)%Z
  | Some _ =>
      n <-- rd node;;
      let child_dir := dir_of (negb (notnull (child RB_LEFT n))) in
      let ch := child child_dir n in
      let other := child (opp child_dir) n in
      do_remove node;;;
      if (negb (notnull ch) && negb (notnull other))%bool then kret 0%Z else
      n <-- rd node;;
      match color n with
      | RB_RED => kret 0%Z
      | RB_BLACK =>
          c <-- rd ch;;
          match color c with
          | RB_RED => upd ch (set_color RB_BLACK);;; kret 0%Z
          | RB_BLACK =>
              last <-- (fun t => remove_loop (rb_fuel t) ch t);;
              when (notnull last) (upd last (set_color RB_BLACK));;;
              kret 0%Z
          end
      end
  end.

Definition rb_replace (node new_node : option L) : K rb_tree Z :=
  match node, new_node with
  | Some nn, Some _ =>
      n <-- rd node;;
      relink (parent n) nn new_node;;;
      n <-- rd node;;
      when (notnull (child RB_LEFT n)) (upd (child RB_LEFT n) (set_parent new_node));;;
      n <-- rd node;;
      when (notnull (child RB_RIGHT n)) (upd (child RB_RIGHT n) (set_parent new_node));;;
      n <-- rd node;;
      upd new_node (fun _ => n);;;
      kret 0%Z
  | _, _ => kret (-1)%Z
  end.

End Ops.

Arguments rb_node L : clear implicits.
Arguments rb_tree L {_ _}.
