(* ===== verification/RbTreeThm.v ===== *)
(** * Red-black trees: what the operations of RbTree.v compute

    [at_ h par t] says that the heap holds the tree [t] below the parent pointer
    [par]; [focus st k t] that it holds [t] in the context [k] (the path from the
    subtree up to the root, with the siblings), all nodes distinct.  Rotations and
    recolorings are lemmas on [focus]; the balance loop climbs the context. *)

From stdpp Require Import base list gmap fin_sets.
From S2P Require Import Prelude RbTree.

#[local] Open Scope kernel_scope.

Section Trees.
Context {L : Type} `{Countable L}.

Inductive tree := E | T (c : rb_color) (l : tree) (n : L) (r : tree).
Inductive frame := Fr (d : rb_dir) (c : rb_color) (n : L) (s : tree).

Definition ptr (t : tree) : option L := match t with E => None | T _ _ n _ => Some n end.
Definition col (t : tree) : rb_color := match t with E => RB_BLACK | T c _ _ _ => c end.
(** The tree with [x] on side [d] and [y] on the other. *)
Definition mk (d : rb_dir) (c : rb_color) (x : tree) (n : L) (y : tree) : tree :=
  match d with RB_LEFT => T c x n y | RB_RIGHT => T c y n x end.
Definition cell (d : rb_dir) (par a b : option L) (c : rb_color) : rb_node L :=
  match d with RB_LEFT => mk_rb par a b c | RB_RIGHT => mk_rb par b a c end.

Fixpoint nodes (t : tree) : list L := match t with E => [] | T _ l n r => nodes l ++ n :: nodes r end.
Fixpoint plug (k : list frame) (t : tree) : tree :=
  match k with [] => t | Fr d c n s :: k => plug k (mk d c t n s) end.
Fixpoint cnodes (k : list frame) : list L :=
  match k with [] => [] | Fr _ _ n s :: k => n :: nodes s ++ cnodes k end.
Definition cpar (k : list frame) : option L := match k with [] => None | Fr _ _ n _ :: _ => Some n end.
Fixpoint croot (k : list frame) (hole : option L) : option L :=
  match k with [] => hole | Fr _ _ n _ :: k => croot k (Some n) end.

Fixpoint at_ (h : gmap L (rb_node L)) (par : option L) (t : tree) : Prop :=
  match t with
  | E => True
  | T c l n r => h !! n = Some (mk_rb par (ptr l) (ptr r) c) /\ at_ h (Some n) l /\ at_ h (Some n) r
  end.
Fixpoint ctx_at (h : gmap L (rb_node L)) (k : list frame) (hole : option L) : Prop :=
  match k with
  | [] => True
  | Fr d c n s :: k => h !! n = Some (cell d (cpar k) hole (ptr s) c) /\ at_ h (Some n) s /\ ctx_at h k (Some n)
  end.

Record focus (st : rb_tree L) (k : list frame) (t : tree) : Prop := {
  f_at : at_ (rb_heap st) (cpar k) t;
  f_ctx : ctx_at (rb_heap st) k (ptr t);
  f_root : root st = croot k (ptr t);
  f_nodup : NoDup (nodes t ++ cnodes k)
}.
(** The whole tree is [t]. *)
Definition rep (st : rb_tree L) (t : tree) : Prop := focus st [] t.
(** Cells outside the tree are left alone. *)
Definition same_outside (st : rb_tree L) (ns : list L) (st' : rb_tree L) : Prop :=
  forall j, j ∉ ns -> rb_heap st' !! j = rb_heap st !! j.

(** ** The red-black invariant *)

Fixpoint no_red_red (t : tree) : Prop :=
  match t with
  | E => True
  | T c l _ r => (c = RB_RED -> col l = RB_BLACK /\ col r = RB_BLACK) /\ no_red_red l /\ no_red_red r
  end.
Fixpoint balanced (t : tree) (b : nat) : Prop :=
  match t with
  | E => b = O
  | T RB_RED l _ r => balanced l b /\ balanced r b
  | T RB_BLACK l _ r => match b with O => False | S b => balanced l b /\ balanced r b end
  end.
Record red_black (t : tree) : Prop := {
  rb_root : col t = RB_BLACK;
  rb_red : no_red_red t;
  rb_bal : exists b, balanced t b
}.

(** The same for a context, for a hole of color [hc] and black height [b]. *)
Fixpoint ctx_no_red_red (k : list frame) (hc : rb_color) : Prop :=
  match k with
  | [] => True
  | Fr _ c _ s :: k => (c = RB_RED -> hc = RB_BLACK /\ col s = RB_BLACK) /\ no_red_red s /\ ctx_no_red_red k c
  end.
Fixpoint ctx_balanced (k : list frame) (b N : nat) : Prop :=
  match k with
  | [] => b = N
  | Fr _ c _ s :: k => balanced s b /\ ctx_balanced k (match c with RB_BLACK => S b | RB_RED => b end) N
  end.
Fixpoint ctx_root_black (k : list frame) : Prop :=
  match k with [] => True | [Fr _ c _ _] => c = RB_BLACK | _ :: k => ctx_root_black k end.

(** ** Shapes *)

Lemma mk_nodes d c x n y : nodes (mk d c x n y) ≡ₚ n :: nodes x ++ nodes y.
Proof. destruct d; simpl; [by rewrite <- Permutation_middle|]. rewrite <- Permutation_middle. f_equiv. apply Permutation_app_comm. Qed.

Lemma plug_nodes k t : nodes (plug k t) ≡ₚ nodes t ++ cnodes k.
Proof.
  revert t; induction k as [|[d c n s] k IH]; intros t; simpl; [by rewrite app_nil_r|].
  rewrite IH, mk_nodes. simpl. rewrite <- Permutation_middle. f_equiv. by rewrite app_assoc.
Qed.

Lemma plug_cong k t t' : nodes t = nodes t' -> nodes (plug k t) = nodes (plug k t').
Proof.
  revert t t'; induction k as [|[d c n s] k IH]; intros t t' E0; simpl; [done|].
  apply IH. destruct d; simpl; congruence.
Qed.

Lemma mk_opp d c x n y : mk (opp d) c x n y = mk d c y n x.
Proof. by destruct d. Qed.

Lemma opp_opp d : opp (opp d) = d.
Proof. by destruct d. Qed.

Lemma opp_ne d : opp d <> d.
Proof. by destruct d. Qed.

Lemma as_mk d c l n r : exists x y, T c l n r = mk d c x n y.
Proof. destruct d; [by exists l, r|by exists r, l]. Qed.

Lemma at_mk h par d c x n y : at_ h par (mk d c x n y)
  <-> h !! n = Some (cell d par (ptr x) (ptr y) c) /\ at_ h (Some n) x /\ at_ h (Some n) y.
Proof. destruct d; simpl; tauto. Qed.

Lemma focus_down st k d c x n y : focus st k (mk d c x n y) <-> focus st (Fr d c n y :: k) x.
Proof.
  assert (nodes (mk d c x n y) ++ cnodes k ≡ₚ nodes x ++ cnodes (Fr d c n y :: k)) as P.
  { rewrite mk_nodes. simpl. rewrite <- Permutation_middle. f_equiv. by rewrite app_assoc. }
  assert (ptr (mk d c x n y) = Some n) as Hp by by destruct d.
  split; intros [A C R N]; constructor; simpl in *.
  - by apply at_mk in A as (_ & A & _).
  - apply at_mk in A as (A1 & _ & A2). rewrite Hp in C. done.
  - by rewrite Hp in R.
  - by rewrite <- P.
  - apply at_mk. tauto.
  - rewrite Hp. tauto.
  - by rewrite Hp.
  - by rewrite P.
Qed.

Lemma focus_in st k d c x n y : focus st k (mk d c x n y) -> focus st (Fr d c n y :: k) x.
Proof. apply focus_down. Qed.

Lemma rep_plug st k t : rep st (plug k t) <-> focus st k t.
Proof.
  unfold rep. revert t; induction k as [|[d c n s] k IH]; intros t; simpl; [done|]. rewrite IH. apply focus_down.
Qed.

Lemma mk_no_red_red d c x n y : no_red_red (mk d c x n y)
  <-> (c = RB_RED -> col x = RB_BLACK /\ col y = RB_BLACK) /\ no_red_red x /\ no_red_red y.
Proof. destruct d; simpl; tauto. Qed.

Lemma mk_balanced d c x n y b : balanced (mk d c x n y) b
  <-> match c with RB_RED => balanced x b /\ balanced y b
      | RB_BLACK => match b with O => False | S b => balanced x b /\ balanced y b end end.
Proof. destruct d, c, b; simpl; tauto. Qed.

Lemma mk_col d c x n y : col (mk d c x n y) = c.
Proof. by destruct d. Qed.

Lemma plug_no_red_red k t : no_red_red (plug k t) <-> no_red_red t /\ ctx_no_red_red k (col t).
Proof.
  revert t; induction k as [|[d c n s] k IH]; intros t; simpl; [tauto|].
  rewrite IH, mk_no_red_red, mk_col. tauto.
Qed.

Lemma plug_balanced k t N : balanced (plug k t) N <-> exists b, balanced t b /\ ctx_balanced k b N.
Proof.
  revert t; induction k as [|[d c n s] k IH]; intros t; simpl.
  - split; [by exists N|intros (b & ? & ->); done].
  - rewrite IH. split.
    + intros (b & Hb & Hc). apply mk_balanced in Hb. destruct c; [destruct b; [done|]|]; by eexists; split_and!; [apply Hb|apply Hb|].
    + intros (b & Hb & Hs & Hc). eexists. rewrite mk_balanced. split; [|exact Hc]. by destruct c.
Qed.

Lemma plug_root_black k t : k <> [] -> col (plug k t) = RB_BLACK -> ctx_root_black k.
Proof.
  revert t; induction k as [|[d c n s] k IH]; intros t Hk; [done|]. simpl. destruct k as [|f k].
  - simpl. by rewrite mk_col.
  - intros Hc. by apply (IH (mk d c t n s)).
Qed.

End Trees.

Arguments tree L : clear implicits.
Arguments frame L : clear implicits.

(** ** Writing cells *)

Section Heap.
Context {L : Type} `{Countable L}.
Implicit Types (h : gmap L (rb_node L)) (st : rb_tree L) (t : tree L) (k : list (frame L)) (par a b v : option L).

Lemma at_ext h h' par t : (forall j, j ∈ nodes t -> h' !! j = h !! j) -> at_ h par t -> at_ h' par t.
Proof.
  revert par; induction t as [|c l IHl n r IHr]; intros par Hj; simpl in *; [done|]. intros (Hn & Hl & Hr).
  split_and!.
  - rewrite Hj by set_solver. done.
  - apply IHl; [|done]. intros; apply Hj; set_solver.
  - apply IHr; [|done]. intros; apply Hj; set_solver.
Qed.

Lemma ctx_ext h h' k hole : (forall j, j ∈ cnodes k -> h' !! j = h !! j) -> ctx_at h k hole -> ctx_at h' k hole.
Proof.
  revert hole; induction k as [|[d c n s] k IH]; intros hole Hj; simpl in *; [done|]. intros (Hn & Hs & Hk).
  split_and!.
  - rewrite Hj by set_solver. done.
  - eapply at_ext; [|done]. intros; apply Hj; set_solver.
  - apply IH; [|done]. intros; apply Hj; set_solver.
Qed.

(** The heap with the parent pointer of [t]'s root set, and with the pointer to the hole set. *)
Definition reparent (v : option L) t h : gmap L (rb_node L) :=
  match t with E => h | T _ _ n _ => alter (set_parent v) n h end.
Definition rehole k (v : option L) h : gmap L (rb_node L) :=
  match k with [] => h | Fr d _ n _ :: _ => alter (set_child d v) n h end.

Lemma at_reparent h par v t : NoDup (nodes t) -> at_ h par t -> at_ (reparent v t h) v t.
Proof.
  destruct t as [|c l n r]; simpl; [done|]. intros Hnd (Hn & Hl & Hr).
  apply NoDup_app in Hnd as (_ & Hd1 & [Hd2 _]%NoDup_cons). split_and!.
  - by rewrite lookup_alter_eq, Hn.
  - eapply at_ext; [|done]. intros j Hj. rewrite lookup_alter_ne; [done|]. intros ->. apply (Hd1 j); set_solver.
  - eapply at_ext; [|done]. intros j Hj. rewrite lookup_alter_ne; [done|]. intros ->. done.
Qed.

Lemma ctx_rehole h k hole v : NoDup (cnodes k) -> ctx_at h k hole -> ctx_at (rehole k v h) k v.
Proof.
  destruct k as [|[d c n s] k]; simpl; [done|]. intros [Hn0 Hnd]%NoDup_cons (Hn & Hs & Hk). split_and!.
  - rewrite lookup_alter_eq, Hn. by destruct d.
  - eapply at_ext; [|done]. intros j Hj. rewrite lookup_alter_ne; [done|]. set_solver.
  - eapply ctx_ext; [|done]. intros j Hj. rewrite lookup_alter_ne; [done|]. set_solver.
Qed.

Lemma reparent_out h v t j : j ∉ nodes t -> reparent v t h !! j = h !! j.
Proof. destruct t as [|c l n r]; simpl; [done|]. intros Hj. apply lookup_alter_ne. set_solver. Qed.

Lemma rehole_out h k v j : j ∉ cnodes k -> rehole k v h !! j = h !! j.
Proof. destruct k as [|[d c n s] k]; simpl; [done|]. intros Hj. apply lookup_alter_ne. set_solver. Qed.

Lemma rd_ok st p n : rb_heap st !! p = Some n -> rd (Some p) st = Ret n st.
Proof. intros E0. unfold rd, kderef. simpl. by rewrite E0. Qed.

Lemma upd_ok st p n f : rb_heap st !! p = Some n -> upd (Some p) f st = Ret tt (mk_tree (alter f p (rb_heap st)) (root st)).
Proof.
  intros E0. unfold upd. rewrite E0. f_equal. f_equal. apply map_eq. intros j. destruct (decide (j = p)) as [->|Hne].
  - by rewrite lookup_insert_eq, lookup_alter_eq, E0.
  - by rewrite lookup_insert_ne, lookup_alter_ne by done.
Qed.

Lemma when_reparent st par t v : at_ (rb_heap st) par t ->
  when (notnull (ptr t)) (upd (ptr t) (set_parent v)) st = Ret tt (mk_tree (reparent v t (rb_heap st)) (root st)).
Proof. destruct t as [|c l n r]; simpl; [by destruct st|]. intros (Hn & _). by apply (upd_ok _ _ _ _ Hn). Qed.

(** [relink] writes the pointer to the subtree, in its parent or in the root. *)
Lemma relink_ok st k node v : ctx_at (rb_heap st) k (Some node) -> root st = croot k (Some node) -> node ∉ cnodes k ->
  (forall d c n s, head k = Some (Fr d c n s) -> ptr s <> Some node) ->
  relink (cpar k) node v st = Ret tt (mk_tree (rehole k v (rb_heap st)) (croot k v)).
Proof.
  destruct k as [|[d c n s] k]; simpl; [done|]. intros (Hn & Hs & Hk) Hr Hnode Hsib. unfold relink, kbind.
  rewrite (rd_ok _ _ _ Hn), (upd_ok _ _ _ _ Hn). rewrite Hr. do 3 f_equal. f_equal.
  specialize (Hsib _ _ _ _ eq_refl). destruct d; simpl; by case_bool_decide.
Qed.

Lemma cell_child d par a b c : child d (cell d par a b c) = a.
Proof. by destruct d. Qed.
Lemma cell_child_opp d par a b c : child (opp d) (cell d par a b c) = b.
Proof. by destruct d. Qed.
Lemma cell_parent d par a b c : parent (cell d par a b c) = par.
Proof. by destruct d. Qed.
Lemma cell_color d par a b c : color (cell d par a b c) = c.
Proof. by destruct d. Qed.
Lemma cell_opp d par a b c : cell (opp d) par a b c = cell d par b a c.
Proof. by destruct d. Qed.
Lemma set_child_cell d v par a b c : set_child d v (cell d par a b c) = cell d par v b c.
Proof. by destruct d. Qed.
Lemma set_child_cell_opp d v par a b c : set_child (opp d) v (cell d par a b c) = cell d par a v c.
Proof. by destruct d. Qed.
Lemma set_parent_cell d v par a b c : set_parent v (cell d par a b c) = cell d v a b c.
Proof. by destruct d. Qed.
Lemma set_color_cell d c2 par a b c : set_color c2 (cell d par a b c) = cell d par a b c2.
Proof. by destruct d. Qed.

(** The sibling of the hole is another subtree than the one at the hole. *)
Lemma sibling_ne k t n : ptr t = Some n -> NoDup (nodes t ++ cnodes k) ->
  forall d c m s, head k = Some (Fr d c m s) -> ptr s <> Some n.
Proof.
  intros Ht Hnd d c m s Hk Hs. destruct k as [|f k]; [done|]. injection Hk as ->.
  destruct t as [|? ? n1 ?]; [done|]. injection Ht as ->. destruct s as [|? ? n2 ?]; [done|]. injection Hs as ->.
  apply NoDup_app in Hnd as (_ & Hd & _). apply (Hd n); simpl; set_solver.
Qed.

Lemma focus_size st k t : focus st k t -> (length (nodes t) + length (cnodes k) <= size (rb_heap st))%nat.
Proof.
  intros F. rewrite <- length_app, <- size_dom, <- (size_list_to_set (C := gset L)) by apply F.
  apply subseteq_size. intros j. rewrite elem_of_list_to_set, elem_of_dom.
  assert (forall par t, at_ (rb_heap st) par t -> j ∈ nodes t -> is_Some (rb_heap st !! j)) as Ha.
  { intros par t0; revert par; induction t0 as [|c l IHl n r IHr]; intros par; simpl; [set_solver|].
    intros (Hn & Hl & Hr) [?|[->|?]%elem_of_cons]%elem_of_app; eauto. }
  intros [Hj|Hj]%elem_of_app; [eapply Ha; [apply F|done]|].
  pose proof (f_ctx _ _ _ F) as Hc. clear F. revert Hc Hj. generalize (ptr t).
  induction k as [|[d c n s] k IH]; intros hole; simpl; [set_solver|].
  intros (Hn & Hs & Hk) [->|[?|?]%elem_of_app]%elem_of_cons; eauto.
Qed.

End Heap.

(** ** Rotations and recolorings *)

Section Rotate.
Context {L : Type} `{Countable L}.
Implicit Types (h : gmap L (rb_node L)) (st : rb_tree L) (t x y z : tree L) (k : list (frame L)).

Ltac outside := first [assumption | congruence | tauto | intros ->; tauto].
Ltac heap_simpl :=
  repeat first [ rewrite lookup_alter_eq | rewrite lookup_alter_ne by outside
               | rewrite reparent_out by outside | rewrite rehole_out by outside ].

Lemma at_lookup h par t j : at_ h par t -> j ∈ nodes t -> is_Some (h !! j).
Proof.
  revert par; induction t as [|c l IHl n r IHr]; intros par; simpl; [set_solver|].
  intros (Hn & Hl & Hr) [?|[->|?]%elem_of_cons]%elem_of_app; eauto.
Qed.

Lemma rotate_ok st k d c c' x y z n m :
  focus st k (mk d c x n (mk d c' y m z)) ->
  exists st', rotate_node (Some n) d st = Ret tt st' /\ focus st' k (mk d c' (mk d c x n y) m z)
    /\ same_outside st (nodes (mk d c x n (mk d c' y m z)) ++ cnodes k) st'.
Proof.
  intros [A C R N]. set (h := rb_heap st) in *.
  assert (ptr (mk d c x n (mk d c' y m z)) = Some n) as Hp by by destruct d. rewrite Hp in C, R.
  assert (NoDup (n :: m :: nodes x ++ nodes y ++ nodes z ++ cnodes k)) as N'.
  { rewrite !mk_nodes in N. simpl in N. rewrite <- (Permutation_middle (nodes x)) in N. simpl in N. by rewrite <- !app_assoc in N. }
  assert (nodes (mk d c' (mk d c x n y) m z) ++ cnodes k ≡ₚ n :: m :: nodes x ++ nodes y ++ nodes z ++ cnodes k) as P.
  { rewrite !mk_nodes. simpl. rewrite <- !app_assoc. apply Permutation_swap. }
  apply NoDup_cons in N' as [Nn [Nm Nr]%NoDup_cons].
  assert (Nr' := Nr). apply NoDup_app in Nr as (Nx & Dx & (Ny & Dy & (Nz & Dz & Nk)%NoDup_app)%NoDup_app).
  assert (Nn' := Nn). assert (Nm' := Nm).
  rewrite not_elem_of_cons, !not_elem_of_app in Nn. rewrite !not_elem_of_app in Nm.
  setoid_rewrite not_elem_of_app in Dx. setoid_rewrite not_elem_of_app in Dx. setoid_rewrite not_elem_of_app in Dy.
  apply at_mk in A as (An & Ax & (Am & Ay & Az)%at_mk).
  assert (ptr (mk d c' y m z) = Some m) as Hp' by by destruct d. rewrite Hp' in An.
  set (h1 := alter (set_child (opp d) (ptr y)) n h).
  set (h2 := reparent (Some n) y h1).
  set (h4 := alter (set_parent (cpar k)) m (alter (set_child d (Some n)) m h2)).
  set (h6 := alter (set_parent (Some m)) n (rehole k (Some m) h4)).
  exists (mk_tree h6 (croot k (Some m))).
  assert (h2 !! m = Some (cell d (Some n) (ptr y) (ptr z) c')) as E2 by (unfold h2, h1; heap_simpl; exact Am).
  assert (h4 !! m = Some (cell d (cpar k) (Some n) (ptr z) c')) as E4.
  { unfold h4. heap_simpl. rewrite E2. simpl. by rewrite set_child_cell, set_parent_cell. }
  assert (h4 !! n = Some (cell d (cpar k) (ptr x) (ptr y) c)) as E4n.
  { unfold h4, h2, h1. heap_simpl. fold h. rewrite An. simpl. by rewrite set_child_cell_opp. }
  assert (ctx_at h4 k (Some n)) as C4.
  { eapply ctx_ext; [|exact C]. intros j Hj. specialize (Dy j). specialize (Dx j). specialize (Dz j).
    unfold h4, h2, h1. heap_simpl. done. }
  split_and!.
  - unfold rotate_node, kbind. rewrite (rd_ok _ _ _ An).
    rewrite cell_child_opp, cell_parent, (rd_ok _ _ _ Am), cell_child, (upd_ok _ _ _ _ An).
    rewrite (when_reparent _ (Some m)); cycle 1.
    { simpl. eapply at_ext; [|exact Ay]. intros j Hj. heap_simpl. done. }
    cbn [rb_heap root]. fold h. fold h1. fold h2. rewrite (upd_ok (mk_tree h2 (root st)) _ _ _ E2). cbn [rb_heap root].
    erewrite upd_ok; [|cbn [rb_heap]; rewrite lookup_alter_eq, E2; reflexivity]. cbn [rb_heap root]. fold h4.
    rewrite (relink_ok (mk_tree h4 (root st))); [|done|done|tauto|].
    + cbn [rb_heap root]. erewrite upd_ok; [reflexivity|]. cbn [rb_heap]. heap_simpl. exact E4n.
    + eapply (sibling_ne k (mk d c x n (mk d c' y m z))); [exact Hp|exact N].
  - assert (h6 !! m = Some (cell d (cpar k) (Some n) (ptr z) c')) as E6 by (unfold h6; heap_simpl; done).
    assert (ptr (mk d c' (mk d c x n y) m z) = Some m) as Hp2 by by destruct d.
    assert (ptr (mk d c x n y) = Some n) as Hp3 by by destruct d.
    assert (forall t par, at_ h par t -> (n ∉ nodes t) /\ (m ∉ nodes t) -> (forall j, j ∈ nodes t -> (j ∉ nodes y) /\ (j ∉ cnodes k)) ->
      at_ h6 par t) as Hsame.
    { intros t par At Hnm Hyk. eapply at_ext; [|exact At]. intros j Hj. destruct (Hyk j Hj).
      unfold h6, h4, h2, h1. heap_simpl. done. }
    constructor; cbn [rb_heap root].
    + apply at_mk. rewrite Hp3. split; [exact E6|]. split; [|apply Hsame; [exact Az|tauto|]].
      2: { intros j Hj. split; [|by apply Dz]. intros Hy. by apply Dy in Hy as []. }
      apply at_mk. split_and!.
      * unfold h6. heap_simpl. rewrite E4n. simpl. by rewrite set_parent_cell.
      * apply Hsame; [exact Ax|tauto|]. intros j Hj. by apply Dx in Hj as (? & ? & ?).
      * eapply (at_ext h2).
        { intros j Hj. specialize (Dy j Hj). unfold h6, h4. heap_simpl. done. }
        unfold h2. eapply at_reparent; [done|]. eapply at_ext; [|exact Ay]. intros j Hj. unfold h1. heap_simpl. done.
    + rewrite Hp2. eapply (ctx_ext (rehole k (Some m) h4)).
      { intros j Hj. unfold h6. heap_simpl. done. }
      eapply ctx_rehole; done.
    + by rewrite Hp2.
    + rewrite P. by repeat (apply NoDup_cons; split; [done|]).
  - intros j Hj. rewrite !mk_nodes in Hj. cbn [app] in Hj.
    repeat first [rewrite not_elem_of_app in Hj | rewrite not_elem_of_cons in Hj]. cbn [rb_heap]. unfold h6, h4, h2, h1. heap_simpl. done.
Qed.

(** Recoloring a node at the focus. *)
Lemma recolor_ok st k d c c2 x n y : focus st k (mk d c x n y) ->
  upd (Some n) (set_color c2) st = Ret tt (mk_tree (alter (set_color c2) n (rb_heap st)) (root st))
  /\ focus (mk_tree (alter (set_color c2) n (rb_heap st)) (root st)) k (mk d c2 x n y).
Proof.
  intros [A C R N]. apply at_mk in A as (An & Ax & Ay). split; [by apply (upd_ok _ _ _ _ An)|].
  assert (NoDup (n :: nodes x ++ nodes y ++ cnodes k)) as [Nn _]%NoDup_cons.
  { rewrite mk_nodes in N. simpl in N. by rewrite app_assoc. }
  rewrite !not_elem_of_app in Nn.
  assert (forall c0, ptr (mk d c0 x n y) = Some n) as Hp by by destruct d.
  constructor; cbn [rb_heap root].
  - apply at_mk. split_and!.
    + heap_simpl. rewrite An. simpl. by rewrite set_color_cell.
    + eapply at_ext; [|exact Ax]. intros j Hj. by heap_simpl.
    + eapply at_ext; [|exact Ay]. intros j Hj. by heap_simpl.
  - rewrite Hp in *. eapply ctx_ext; [|exact C]. intros j Hj. by heap_simpl.
  - by rewrite Hp in *.
  - rewrite mk_nodes. by rewrite mk_nodes in N.
Qed.

End Rotate.

(** ** Rebalancing after an insertion *)

Ltac nodes_eq := simpl; repeat (rewrite <- !app_assoc; simpl); done.

Section Balance.
Context {L : Type} `{Countable L}.
Implicit Types (st : rb_tree L) (t x y u : tree L) (k : list (frame L)).

Lemma is_red_ok st par t : at_ (rb_heap st) par t -> is_red (ptr t) st = Ret (bool_decide (col t = RB_RED)) st.
Proof. destruct t as [|c l n r]; simpl; [done|]. intros (Hn & _). unfold is_red, kbind. by rewrite (rd_ok _ _ _ Hn). Qed.

Lemma dir_sib d (par b : option L) p c : b <> Some p ->
  dir_of (bool_decide (child RB_LEFT (cell d par (Some p) b c) = Some p)) = opp d.
Proof. intros Hb. destruct d; simpl; by case_bool_decide. Qed.

(** The state of the loop: [n], red, roots the subtree [mk d RB_RED x n y] of black height [b] in
    a context that is red-black up to the color of [n]. *)
Record climbing st k t (b N : nat) : Prop := {
  cl_focus : focus st k t;
  cl_red : no_red_red t;
  cl_bal : balanced t b;
  cl_ctx_red : ctx_no_red_red k RB_BLACK;
  cl_ctx_bal : ctx_balanced k b N;
  cl_ctx_root : ctx_root_black k
}.

Definition balances (fuel : nat) st (node : L) (ns : list L) : Prop :=
  exists st' t', balance_loop fuel (Some node) st = Ret tt st' /\ rep st' t' /\ nodes t' = ns
    /\ no_red_red t' /\ (exists N, balanced t' N) /\ same_outside st ns st'.

Lemma same_trans st1 st2 st3 (ns ns' : list L) : ns ≡ₚ ns' -> same_outside st1 ns st2 -> same_outside st2 ns' st3 -> same_outside st1 ns' st3.
Proof. intros P H1 H2 j Hj. rewrite (H2 j Hj). apply H1. by rewrite P. Qed.

Lemma recolor_outside st (n : L) c ns : n ∈ ns -> same_outside st ns (mk_tree (alter (set_color c) n (rb_heap st)) (root st)).
Proof. intros Hn j Hj. simpl. apply lookup_alter_ne. by intros ->. Qed.

Lemma balances_through fuel st st1 node ns ns1 : same_outside st ns1 st1 -> ns1 ≡ₚ ns -> balances fuel st1 node ns ->
  exists st' t', balance_loop fuel (Some node) st1 = Ret tt st' /\ rep st' t' /\ nodes t' = ns
    /\ no_red_red t' /\ (exists N, balanced t' N) /\ same_outside st ns st'.
Proof.
  intros S P (st' & t' & E0 & R & Hn & Hr & Hb & S'). exists st', t'. split_and!; try done.
  by eapply same_trans.
Qed.

(** The last case: [q], the red parent, becomes black and replaces the grandparent. *)
Lemma balance_top fuel st k d (N' : tree L) q y g u np b N :
  (forall st k d c x n y b N, (length k < fuel)%nat -> climbing st k (mk d RB_RED x n y) b N -> c = RB_RED ->
     balances fuel st n (nodes (plug k (mk d c x n y)))) ->
  (S (length k) < fuel)%nat ->
  focus st k (mk d RB_BLACK (mk d RB_RED N' q y) g u) ->
  col u = RB_BLACK -> col y = RB_BLACK -> (exists d' x z, N' = mk d' RB_RED x np z) ->
  no_red_red N' -> no_red_red y -> no_red_red u -> balanced N' b -> balanced y b -> balanced u b ->
  ctx_no_red_red k RB_BLACK -> ctx_balanced k (S b) N -> ctx_root_black (Fr d RB_BLACK g u :: k) ->
  exists st', (upd (Some q) (set_color RB_BLACK);;; upd (Some g) (set_color RB_RED);;; rotate_node (Some g) (opp d)) st = Ret tt st'
    /\ same_outside st (nodes (plug k (mk d RB_BLACK (mk d RB_RED N' q y) g u))) st'
    /\ balances fuel st' np (nodes (plug k (mk d RB_BLACK (mk d RB_RED N' q y) g u))).
Proof.
  intros IH Hf F Hu Hy (d' & x & z & EN) RN Ry Ru BN By Bu Ck Bk Rk.
  assert (cl := F). apply focus_down in F. apply (recolor_ok _ _ _ _ RB_BLACK) in F as (E1 & F1).
  apply focus_down in F1. apply (recolor_ok _ _ _ _ RB_RED) in F1 as (E2 & F2).
  rewrite <- (mk_opp d RB_RED), <- (mk_opp d RB_BLACK) in F2.
  destruct (rotate_ok _ _ _ _ _ _ _ _ _ _ F2) as (st3 & E3 & F3 & S3).
  assert (nodes (plug k (mk d RB_BLACK (mk d RB_RED N' q y) g u))
          = nodes (plug k (mk d RB_BLACK N' q (mk d RB_RED y g u)))) as En.
  { apply plug_cong. destruct d; nodes_eq. }
  exists st3. unfold kbind. rewrite E1, E2. split; [exact E3|]. split.
  - intros j Hj. rewrite (S3 j).
    + simpl. assert (j <> g /\ j <> q) as [Hg Hq].
      { rewrite plug_nodes, !mk_nodes in Hj. set_solver. }
      by rewrite !lookup_alter_ne.
    + rewrite plug_nodes in Hj. rewrite !mk_opp. intros Hj'. apply Hj. revert Hj'. rewrite !elem_of_app, !mk_nodes. set_solver.
  - rewrite En. rewrite !mk_opp in F3. apply focus_down in F3.
    specialize (IH st3 (Fr d RB_BLACK q (mk d RB_RED y g u) :: k) d' RB_RED x np z b N).
    simpl in IH. rewrite <- EN in IH. apply IH; [simpl; lia| |done].
    constructor; [exact F3|exact RN|exact BN| | |].
    + simpl. split; [done|]. split; [by apply mk_no_red_red|done].
    + simpl. split; [by apply mk_balanced|done].
    + simpl in Rk |- *. by destruct k.
Qed.

(** The recoloring case: parent and uncle become black, the grandparent red. *)
Lemma recolor_step st k d1 d2 t p s u g b N : u <> E ->
  focus st (Fr d1 RB_RED p s :: Fr d2 RB_BLACK g u :: k) t ->
  col u = RB_RED -> col s = RB_BLACK -> col t = RB_RED -> no_red_red t -> no_red_red s -> no_red_red u ->
  balanced t b -> balanced s b -> balanced u b ->
  ctx_no_red_red k RB_BLACK -> ctx_balanced k (S b) N -> ctx_root_black (Fr d2 RB_BLACK g u :: k) ->
  exists st' x y, (upd (Some p) (set_color RB_BLACK);;; upd (ptr u) (set_color RB_BLACK);;; upd (Some g) (set_color RB_RED)) st = Ret tt st'
    /\ climbing st' k (mk d2 RB_RED x g y) (S b) N
    /\ same_outside st (nodes (plug (Fr d1 RB_RED p s :: Fr d2 RB_BLACK g u :: k) t)) st'
    /\ nodes (plug k (mk d2 RB_RED x g y)) = nodes (plug (Fr d1 RB_RED p s :: Fr d2 RB_BLACK g u :: k) t).
Proof.
  intros Hu F Cu Cs Ct Rt Rs Ru Bt Bs Bu Ck Bk Rk.
  destruct u as [|cu ul un ur]; [done|]. simpl in Cu. subst cu.
  apply focus_down, (recolor_ok _ _ _ _ RB_BLACK) in F as (E1 & F1).
  apply focus_down in F1. rewrite <- mk_opp in F1. apply focus_down in F1.
  apply (recolor_ok _ _ RB_LEFT _ RB_BLACK) in F1 as (E2 & F2).
  apply focus_down in F2. rewrite mk_opp in F2. apply (recolor_ok _ _ _ _ RB_RED) in F2 as (E3 & F3).
  eexists _, _, _. unfold kbind. rewrite E1. cbn [ptr]. rewrite E2, E3. split; [reflexivity|]. split; [|split].
  - constructor; [exact F3| | |done|done|by destruct k].
    + apply mk_no_red_red. rewrite mk_col. split; [done|]. split; [by apply mk_no_red_red|]. simpl in *. tauto.
    + apply mk_balanced. split; [by apply mk_balanced|]. done.
  - intros j Hj. simpl. rewrite plug_nodes in Hj. simpl in Hj.
    assert (j <> p /\ j <> un /\ j <> g) as (? & ? & ?) by set_solver. by rewrite !lookup_alter_ne.
  - simpl. apply plug_cong. destruct d2, d1; done.
Qed.

(** Three steps that run, then the rest. *)
Lemma run_three {S A} (m1 m2 m3 : K S unit) (m4 : K S A) s s' :
  (m1;;; m2;;; m3) s = Ret tt s' -> (m1;;; m2;;; m3;;; m4) s = m4 s'.
Proof.
  unfold kbind. destruct (m1 s) as [? s1| | | |]; try discriminate. destruct (m2 s1) as [? s2| | | |]; try discriminate.
  by intros ->.
Qed.

(** The black-uncle case, from the node whose parent is the new red child to the rotation of the
    grandparent. *)
Lemma rotate_step fuel st k d1 d2 c x n y p s u g b N :
  (forall st k d c x n y b N, (length k < fuel)%nat -> climbing st k (mk d RB_RED x n y) b N -> c = RB_RED ->
     balances fuel st n (nodes (plug k (mk d c x n y)))) ->
  (S (length k) < fuel)%nat -> c = RB_RED ->
  focus st (Fr d1 RB_RED p s :: Fr d2 RB_BLACK g u :: k) (mk d2 c x n y) ->
  col u = RB_BLACK -> col s = RB_BLACK -> no_red_red (mk d2 c x n y) -> no_red_red s -> no_red_red u ->
  balanced (mk d2 c x n y) b -> balanced s b -> balanced u b ->
  ctx_no_red_red k RB_BLACK -> ctx_balanced k (S b) N -> ctx_root_black (Fr d2 RB_BLACK g u :: k) ->
  exists st1 np q, (pn <-- rd (Some p);;
     (if bool_decide (child (opp d2) pn = Some n) then
        rotate_node (Some p) (opp (opp d2));;; pn <-- rd (Some p);; kret (Some p, parent pn)
      else kret (Some n, Some p))) st = Ret (Some np, Some q) st1
    /\ exists st', (upd (Some q) (set_color RB_BLACK);;; upd (Some g) (set_color RB_RED);;; rotate_node (Some g) (opp d2)) st1 = Ret tt st'
    /\ same_outside st (nodes (plug (Fr d1 RB_RED p s :: Fr d2 RB_BLACK g u :: k) (mk d2 c x n y))) st'
    /\ balances fuel st' np (nodes (plug (Fr d1 RB_RED p s :: Fr d2 RB_BLACK g u :: k) (mk d2 c x n y))).
Proof.
  intros IH Hf -> F Cu Cs Rt Rs Ru Bt Bs Bu Ck Bk Rk.
  assert (forall c0, ptr (mk d2 c0 x n y) = Some n) as Hp by by destruct d2.
  pose proof (f_ctx _ _ _ F) as (Cp & _ & _). pose proof (f_nodup _ _ _ F) as Nd.
  assert (ptr s <> Some n) as Hs by (eapply (sibling_ne _ _ n (Hp _) Nd); done).
  rewrite Hp in Cp. apply mk_no_red_red in Rt as (Hxy & Rx & Ry). destruct (Hxy eq_refl) as [Cx Cy].
  apply mk_balanced in Bt as [Bx By]. apply focus_down in F.
  destruct (decide (d1 = d2)) as [->|Hne].
  - exists st, n, p. split.
    { unfold kbind. rewrite (rd_ok _ _ _ Cp), cell_child_opp. by rewrite bool_decide_false. }
    apply focus_down in F. eapply (balance_top fuel st k d2 _ p s g u n b N); eauto.
    + by apply mk_no_red_red.
    + by apply mk_balanced.
  - assert (d1 = opp d2) as -> by by destruct d1, d2. rewrite mk_opp in F.
    destruct (rotate_ok _ _ _ _ _ _ _ _ _ _ F) as (st1 & E1 & F1 & S1).
    assert (F2 := F1). apply focus_in in F2. destruct F2 as [A2 _ _ _]. apply at_mk in A2 as (A2 & _).
    exists st1, p, n. split.
    { unfold kbind. rewrite (rd_ok _ _ _ Cp), cell_child, bool_decide_true by done. rewrite opp_opp, E1.
      rewrite (rd_ok _ _ _ A2), cell_parent. done. }
    apply focus_down in F1.
    destruct (balance_top fuel st1 k d2 (mk d2 RB_RED s p x) n y g u p b N) as (st' & E' & S' & B'); eauto.
    + by apply mk_no_red_red.
    + by apply mk_balanced.
    + exists st'. split; [exact E'|].
      assert (nodes (plug k (mk d2 RB_BLACK (mk d2 RB_RED (mk d2 RB_RED s p x) n y) g u))
        = nodes (plug (Fr (opp d2) RB_RED p s :: Fr d2 RB_BLACK g u :: k) (mk d2 RB_RED x n y))) as En.
      { simpl. apply plug_cong. destruct d2; nodes_eq. }
      rewrite <- En. split; [|done]. eapply same_trans; [|exact S1|exact S'].
      rewrite <- plug_nodes. simpl. erewrite plug_cong; [reflexivity|]. destruct d2; nodes_eq.
Qed.

(** One turn of the loop below a red parent. *)
Lemma balance_turn fuel st n p g d1 d2 (cn cp cg : rb_color) (a a' : option L) s u k (F : cpar k = cpar k) :
  rb_heap st !! n = Some (cell d1 (Some p) a a' cn) ->
  rb_heap st !! p = Some (cell d2 (Some g) (Some n) s RB_RED) ->
  forall gp d3, rb_heap st !! g = Some (cell d3 gp (Some p) (ptr u) cg) -> at_ (rb_heap st) (Some g) u -> ptr u <> Some p ->
  balance_loop (S fuel) (Some n) st =
  if bool_decide (col u = RB_RED) then
    (upd (Some p) (set_color RB_BLACK);;; upd (ptr u) (set_color RB_BLACK);;; upd (Some g) (set_color RB_RED);;;
     balance_loop fuel (Some g)) st
  else
    (np <-- (pn <-- rd (Some p);;
             (if bool_decide (child (opp d3) pn = Some n) then
                rotate_node (Some p) (opp (opp d3));;; pn <-- rd (Some p);; kret (Some p, parent pn)
              else kret (Some n, Some p)));;
     upd (snd np) (set_color RB_BLACK);;; upd (Some g) (set_color RB_RED);;; rotate_node (Some g) (opp d3);;;
     balance_loop fuel (fst np)) st.
Proof.
  intros An Ap gp d3 Ag Au Hu. cbn [balance_loop]. unfold kbind at 1. rewrite (rd_ok _ _ _ An), cell_parent.
  unfold kbind at 1. assert (is_red (Some p) st = Ret true st) as ->.
  { unfold is_red, kbind. by rewrite (rd_ok _ _ _ Ap), cell_color. }
  cbn [negb]. unfold kbind at 1. rewrite (rd_ok _ _ _ Ap), cell_parent.
  unfold kbind at 1. rewrite (rd_ok _ _ _ Ag). rewrite (dir_sib _ _ _ _ _ Hu), cell_child_opp.
  unfold kbind at 1. rewrite (is_red_ok _ _ _ Au). case_bool_decide; [done|].
  unfold kbind. by rewrite (rd_ok _ _ _ Ap).
Qed.

Lemma balance_loop_ok fuel : forall st k d c x n y b N, (length k < fuel)%nat ->
  climbing st k (mk d RB_RED x n y) b N -> c = RB_RED -> balances fuel st n (nodes (plug k (mk d c x n y))).
Proof.
  induction fuel as [|fuel IH]; [lia|]. intros st k d c x n y b N Hf [F R B Ck Bk Rk] ->.
  assert (forall c0, ptr (mk d c0 x n y) = Some n) as Hp by by destruct d.
  pose proof (f_at _ _ _ F) as A. apply at_mk in A as (An & _). pose proof (f_ctx _ _ _ F) as C. rewrite Hp in C.
  destruct k as [|[d1 [] p s] k].
  - exists st, (mk d RB_RED x n y). split_and!; try done; [|by exists b]. simpl. unfold kbind.
    rewrite (rd_ok _ _ _ An), cell_parent. done.
  - exists st, (plug (Fr d1 RB_BLACK p s :: k) (mk d RB_RED x n y)). simpl in C. destruct C as (Cp & _). split_and!; try done.
    + simpl. unfold kbind. rewrite (rd_ok _ _ _ An), cell_parent. unfold is_red, kbind. simpl.
      by rewrite (rd_ok _ _ _ Cp), cell_color.
    + by apply rep_plug.
    + apply plug_no_red_red. rewrite mk_col. split; [done|]. simpl in *. destruct Ck as (_ & ? & ?). by split.
    + exists N. apply plug_balanced. by exists b.
  - destruct k as [|[d2 c2 g u] k]; [done|]. simpl in Ck, Bk.
    destruct Ck as (Hc1 & Rs & Hc2 & Ru & Ck). destruct (Hc1 eq_refl) as [_ Cs].
    assert (c2 = RB_BLACK) as ->. { destruct c2; [done|]. by destruct (Hc2 eq_refl). }
    destruct Bk as (Bs & Bu & Bk). simpl in C. destruct C as (Cp & _ & Cg & Au & _).
    assert (ptr u <> Some p) as Hup.
    { apply focus_down in F. eapply (sibling_ne (Fr d2 RB_BLACK g u :: k) _ p); [|apply F|reflexivity]. by destruct d1. }
    assert (exists a a', rb_heap st !! n = Some (cell d (Some p) a a' RB_RED)) as (a & a' & An') by eauto.
    assert (balance_turn' := balance_turn fuel st n p g d d1 RB_RED RB_RED RB_BLACK a a' (ptr s) u [] eq_refl An' Cp _ _ Cg Au Hup).
    destruct (col u) eqn:Cu.
    + rewrite bool_decide_false in balance_turn' by done.
      assert (exists x' y', mk d RB_RED x n y = mk d2 RB_RED x' n y') as (x' & y' & Et).
      { destruct d, d2; eauto. }
      rewrite Et in *.
      destruct (rotate_step fuel st k d1 d2 RB_RED x' n y' p s u g b N) as (st1 & np & q & E1 & st' & E2 & S2 & B2); eauto.
      { simpl in Hf. lia. }
      eapply balances_through in B2 as (st2 & t2 & E3 & Rest); [|exact S2|reflexivity].
      exists st2, t2. split; [|exact Rest]. rewrite balance_turn'. unfold kbind at 1. rewrite E1. cbn [fst snd].
      by rewrite (run_three _ _ _ _ _ _ E2).
    + rewrite bool_decide_true in balance_turn' by done.
      destruct (recolor_step st k d1 d2 (mk d RB_RED x n y) p s u g b N) as (st' & x' & y' & E1 & Cl & S1 & En); eauto.
      { by intros ->. } { apply mk_col. }
      assert (B2 : balances fuel st' g (nodes (plug k (mk d2 RB_RED x' g y')))).
      { eapply IH; [simpl in Hf; lia|exact Cl|done]. }
      eapply balances_through in B2 as (st2 & t2 & E3 & Rest); [|exact S1|by rewrite En].
      exists st2, t2. rewrite En in Rest. split; [|exact Rest]. rewrite balance_turn'. by rewrite (run_three _ _ _ _ _ _ E1).
Qed.

End Balance.

Section Insert.
Context {L : Type} `{Countable L}.
Implicit Types (st : rb_tree L) (t : tree L) (k : list (frame L)).

Lemma length_cnodes k : (length k <= length (cnodes k))%nat.
Proof. induction k as [|[d c n s] k IH]; simpl; [lia|]. rewrite length_app. lia. Qed.

Lemma ctx_hole_black k hc : ctx_no_red_red k hc -> ctx_no_red_red k RB_BLACK.
Proof. destruct k as [|[d c n s] k]; simpl; [done|]. tauto. Qed.

(** Blackening the root of a tree without two reds in a row keeps it so, and balanced. *)
Lemma blacken c l (n : L) r : no_red_red (T c l n r) -> (exists N, balanced (T c l n r) N) -> red_black (T RB_BLACK l n r).
Proof.
  intros (_ & Rl & Rr) [N B]. constructor; [done|by simpl|]. destruct c; simpl in B.
  - by exists N.
  - exists (S N). done.
Qed.

(** The new leaf [n], linked at the hole of [k], is rebalanced. *)
Lemma rb_balance_ok st k c n : focus st k (T c E n E) -> red_black (plug k E) ->
  exists st' t', rb_balance (Some n) st = Ret 0%Z st' /\ rep st' t' /\ nodes t' = nodes (plug k (T c E n E))
    /\ red_black t' /\ same_outside st (nodes t') st'.
Proof.
  intros F [C R [N B]]. pose proof (focus_size _ _ _ F) as Hsz. pose proof (length_cnodes k).
  apply (recolor_ok _ _ RB_LEFT _ RB_RED) in F as (E1 & F1).
  set (st1 := mk_tree _ _) in *.
  apply plug_no_red_red in R as [_ Rk]. apply plug_balanced in B as (b & Hb & Bk).
  assert (balances (rb_fuel st1) st1 n (nodes (plug k (mk RB_LEFT RB_RED E n E)))) as (st2 & t2 & E2 & F2 & En & R2 & B2 & S2).
  { eapply balance_loop_ok; [|constructor; [exact F1| | | |exact Bk|]|done].
    - unfold rb_fuel. simpl. assert (size (alter (set_color RB_RED) n (rb_heap st)) = size (rb_heap st)) as ->; [|lia].
      by rewrite <- !size_dom, dom_alter.
    - simpl. tauto.
    - simpl. simpl in Hb. done.
    - by eapply ctx_hole_black.
    - destruct k as [|f k']; [done|]. by apply (plug_root_black _ E). }
  destruct t2 as [|c2 l2 n2 r2].
  { assert (n ∈ @nodes L E) as Hn; [|by apply elem_of_nil in Hn]. rewrite En, plug_nodes. simpl. set_solver. }
  pose proof (f_root _ _ _ F2) as Hr. simpl in Hr.
  apply (recolor_ok _ _ RB_LEFT _ RB_BLACK) in F2 as (E3 & F3).
  exists (mk_tree (alter (set_color RB_BLACK) n2 (rb_heap st2)) (root st2)), (T RB_BLACK l2 n2 r2). split_and!; [|exact F3| |by eapply blacken|].
  - unfold rb_balance, kbind. rewrite E1, E2. unfold get_root. replace (root st2) with (Some n2) at 1 by done. by rewrite E3.
  - simpl in *. rewrite En. by apply plug_cong.
  - apply (same_trans _ st2 _ (nodes (T c2 l2 n2 r2))); [done| |].
    + apply (same_trans _ st1 _ (nodes (T c2 l2 n2 r2))); [done| |by rewrite En].
      apply recolor_outside. rewrite En, plug_nodes. simpl. set_solver.
    + apply recolor_outside. simpl. set_solver.
Qed.

(** Linking a fresh node at the hole of a context: into its parent, or as the root. *)
Lemma link_ok st k (p : L) : focus st k E -> rb_heap st !! p = Some rb_node_init -> p ∉ cnodes k ->
  exists st', match k with
              | [] => set_root (Some p) st
              | Fr d _ q _ :: _ => (upd (Some q) (set_child d (Some p));;; upd (Some p) (set_parent (Some q))) st
              end = Ret tt st'
    /\ focus st' k (T RB_BLACK E p E) /\ same_outside st (p :: cnodes k) st'.
Proof.
  intros [_ C R N] Hp Hout. simpl in N. destruct k as [|[d' c q s] k].
  - exists (mk_tree (rb_heap st) (Some p)). split; [done|]. split; [|done].
    constructor; [by split_and!|done|done|by apply NoDup_singleton].
  - simpl in C. destruct C as (Cq & Cs & Ck). simpl in Hout. rewrite not_elem_of_cons, not_elem_of_app in Hout.
    destruct Hout as (Hpq & Hps & Hpk).
    set (h1 := alter (set_child d' (Some p)) q (rb_heap st)).
    assert (h1 !! p = Some rb_node_init) as Hp1 by (unfold h1; by rewrite lookup_alter_ne by done).
    exists (mk_tree (alter (set_parent (Some q)) p h1) (root st)). split_and!.
    + unfold kbind. rewrite (upd_ok _ _ _ _ Cq). fold h1. by rewrite (upd_ok (mk_tree h1 _) _ _ _ Hp1).
    + constructor; cbn [rb_heap root].
      * simpl. split; [|done]. rewrite lookup_alter_eq, Hp1. done.
      * eapply (ctx_ext h1).
        { intros j Hj. apply lookup_alter_ne. intros ->. simpl in Hj. set_solver. }
        apply (ctx_rehole _ (Fr d' c q s :: k) None); [done|by split_and!].
      * exact R.
      * simpl. apply NoDup_cons. split; [simpl; set_solver|exact N].
    + intros j Hj. cbn [rb_heap]. simpl in Hj. unfold h1. rewrite !lookup_alter_ne by set_solver. done.
Qed.

End Insert.

(** ** Traversal *)

Section Traverse.
Context {L : Type} `{Countable L}.
Implicit Types (st : rb_tree L) (t : tree L) (k : list (frame L)).

(** The nodes met when walking in direction [d]. *)
Definition seq (d : rb_dir) t : list L := match d with RB_RIGHT => nodes t | RB_LEFT => rev (nodes t) end.
(** Those met after the hole of a context. *)
Fixpoint after (d : rb_dir) k : list L :=
  match k with
  | [] => []
  | Fr d' _ n s :: k => if bool_decide (d' = d) then after d k else n :: seq d s ++ after d k
  end.
Fixpoint before (d : rb_dir) k : list L :=
  match k with
  | [] => []
  | Fr d' _ n s :: k => if bool_decide (d' = d) then before d k ++ seq d s ++ [n] else before d k
  end.

Lemma seq_mk d c x n y : seq d (mk d c x n y) = seq d y ++ n :: seq d x.
Proof. destruct d; simpl; [|done]. rewrite rev_app_distr. simpl. by rewrite <- app_assoc. Qed.

Lemma seq_plug d k t : seq d (plug k t) = before d k ++ seq d t ++ after d k.
Proof.
  revert t; induction k as [|[d' c n s] k IH]; intros t; simpl; [by rewrite app_nil_r|].
  rewrite IH. case_bool_decide as Hd.
  - subst d'. rewrite seq_mk. by rewrite <- !app_assoc.
  - assert (d' = opp d) as -> by by destruct d, d'. rewrite mk_opp, seq_mk. by rewrite <- !app_assoc.
Qed.

Lemma outermost_loop_ok d fuel : forall st par c l n r, (length (nodes (T c l n r)) < fuel)%nat -> at_ (rb_heap st) par (T c l n r) ->
  outermost_loop fuel (Some n) d st = Ret (head (seq (opp d) (T c l n r))) st.
Proof.
  induction fuel as [|fuel IH]; [lia|]. intros st par c l n r Hf A.
  destruct (as_mk (opp d) c l n r) as (x & y & E0). rewrite E0 in *. apply at_mk in A as (An & Ax & Ay).
  rewrite mk_nodes in Hf. simpl in Hf. rewrite length_app in Hf.
  cbn [outermost_loop]. unfold kbind. rewrite (rd_ok _ _ _ An). rewrite seq_mk.
  replace (child d (cell (opp d) par (ptr x) (ptr y) c)) with (ptr y) by by destruct d.
  destruct y as [|cy yl yn yr].
  - simpl. by destruct d.
  - change (ptr (T cy yl yn yr)) with (Some yn). cbn iota. rewrite (IH st (Some n) cy yl yn yr); [|lia|exact Ay].
    destruct (seq (opp d) (T cy yl yn yr)) as [|j js] eqn:Es; [|done].
    destruct d; simpl in Es; [|apply (f_equal (@length L)) in Es; rewrite length_rev, length_app in Es; simpl in Es; lia].
    by destruct (nodes yl).
Qed.

Lemma get_outermost_ok d st par t : at_ (rb_heap st) par t -> (length (nodes t) <= size (rb_heap st))%nat ->
  get_outermost (ptr t) d st = Ret (head (seq (opp d) t)) st.
Proof.
  intros A Hsz. destruct t as [|c l n r]; [by destruct d|]. cbn [ptr get_outermost].
  eapply outermost_loop_ok; [|exact A]. unfold rb_fuel. lia.
Qed.

Lemma closest_loop_ok d fuel : forall st k c l n r, (length k < fuel)%nat -> focus st k (T c l n r) ->
  closest_loop fuel (Some n) d st = Ret (head (after d k)) st.
Proof.
  induction fuel as [|fuel IH]; [lia|]. intros st k c l n r Hf F.
  pose proof (f_at _ _ _ F) as (An & _). pose proof (f_ctx _ _ _ F) as C. pose proof (f_nodup _ _ _ F) as Nd.
  cbn [closest_loop]. unfold kbind. rewrite (rd_ok _ _ _ An). simpl parent.
  destruct k as [|[d' c' p s] k]; simpl; [done|]. simpl in C. destruct C as (Cp & _). rewrite (rd_ok _ _ _ Cp).
  assert (ptr s <> Some n) as Hs by (eapply (sibling_ne _ (T c l n r) n eq_refl Nd); reflexivity).
  destruct (decide (d' = d)) as [->|Hd].
  - rewrite cell_child, !bool_decide_true by done.
    assert (exists l' r', focus st k (T c' l' p r')) as (l' & r' & F').
    { apply focus_down in F. destruct d; simpl in F; eauto. }
    eapply IH; [simpl in Hf; lia|exact F'].
  - assert (d = opp d') as -> by by destruct d, d'. rewrite cell_child_opp.
    rewrite !bool_decide_false by (try done; by destruct d'). done.
Qed.

Lemma get_closest_ok d st k c l n r : focus st k (T c l n r) ->
  get_closest (Some n) d st = Ret (head (seq d (match d with RB_LEFT => l | RB_RIGHT => r end) ++ after d k)) st.
Proof.
  intros F. pose proof (focus_size _ _ _ F) as Hsz. pose proof (f_at _ _ _ F) as (An & Al & Ar).
  simpl in Hsz. rewrite length_app in Hsz. simpl in Hsz. pose proof (length_cnodes k) as Hk.
  assert (forall t, head (seq d t ++ after d k) = match t with E => head (after d k) | _ => head (seq d t) end) as Hh.
  { intros [|c1 l1 n1 r1]; [by destruct d|]. destruct (seq d (T c1 l1 n1 r1)) eqn:Es; [|done].
    apply (f_equal (@length L)) in Es. destruct d; simpl in Es; rewrite ?length_rev, length_app in Es; simpl in Es; lia. }
  rewrite Hh. cbn [get_closest]. unfold kbind. rewrite (rd_ok _ _ _ An).
  destruct d; simpl child.
  - destruct l as [|cl ll ln lr]; cbn [ptr].
    + eapply closest_loop_ok; [|exact F]. unfold rb_fuel. lia.
    + apply (get_outermost_ok RB_RIGHT st (Some n) (T cl ll ln lr)); [done|]. lia.
  - destruct r as [|cr rl rn rr]; cbn [ptr].
    + eapply closest_loop_ok; [|exact F]. unfold rb_fuel. lia.
    + apply (get_outermost_ok RB_LEFT st (Some n) (T cr rl rn rr)); [done|]. lia.
Qed.

(** Every node of a tree is at the focus of a context. *)
Lemma focus_on t n : n ∈ nodes t -> exists k c l r, t = plug k (T c l n r).
Proof.
  induction t as [|c l IHl m r IHr]; simpl; [set_solver|]. intros [Hn|[->|Hn]%elem_of_cons]%elem_of_app.
  - destruct (IHl Hn) as (k & c' & l' & r' & ->). exists (k ++ [Fr RB_LEFT c m r]), c', l', r'.
    generalize (T c' l' n r'). clear. induction k as [|[d1 c1 n1 s1] k IH]; intros t0; simpl; [done|]. apply IH.
  - by exists [], c, l, r.
  - destruct (IHr Hn) as (k & c' & l' & r' & ->). exists (k ++ [Fr RB_RIGHT c m l]), c', l', r'.
    generalize (T c' l' n r'). clear. induction k as [|[d1 c1 n1 s1] k IH]; intros t0; simpl; [done|]. apply IH.
Qed.

Lemma head_after (xs ys xs' ys' : list L) n : NoDup (xs ++ n :: ys) -> xs ++ n :: ys = xs' ++ n :: ys' -> ys = ys' /\ xs = xs'.
Proof.
  revert xs'; induction xs as [|x xs IH]; intros [|x' xs'] Nd E0; simpl in *; simplify_eq; [done| | |].
  - apply NoDup_cons in Nd as [Nd _]. set_solver.
  - apply NoDup_cons in Nd as [Nd _]. set_solver.
  - apply NoDup_cons in Nd as [_ Nd]. destruct (IH xs' Nd) as [-> ->]; done.
Qed.

Lemma seq_split d k c l (n : L) r : seq d (plug k (T c l n r)) =
  (before d k ++ seq d (match d with RB_LEFT => r | RB_RIGHT => l end)) ++ n :: (seq d (match d with RB_LEFT => l | RB_RIGHT => r end) ++ after d k).
Proof.
  rewrite seq_plug. destruct d; simpl; rewrite ?rev_app_distr; simpl; by rewrite <- !app_assoc.
Qed.

End Traverse.

(** ** Removal *)

Section Remove.
Context {L : Type} `{Countable L}.
Implicit Types (st : rb_tree L) (t l r : tree L) (k : list (frame L)).

Ltac outside := first [assumption | congruence | tauto | intros ->; tauto].
Ltac heap_simpl :=
  repeat first [ rewrite lookup_alter_eq | rewrite lookup_alter_ne by outside
               | rewrite reparent_out by outside | rewrite rehole_out by outside ].

(** A subtree moves up to the place of its parent [n], which leaves the tree. *)
Lemma lift_ok st k c l n r t : focus st k (T c l n r) -> (l = E /\ t = r) \/ (r = E /\ t = l) ->
  exists st', (relink (cpar k) n (ptr t);;; when (notnull (ptr t)) (upd (ptr t) (set_parent (cpar k)));;; upd (Some n) (fun _ => rb_node_init)) st = Ret tt st'
    /\ focus st' k t /\ rb_heap st' !! n = Some rb_node_init /\ same_outside st (nodes (T c l n r) ++ cnodes k) st'.
Proof.
  intros [A C R N] Ht. assert (at_ (rb_heap st) (Some n) t) as At by (simpl in A; destruct Ht as [[-> ->]|[-> ->]]; tauto).
  assert (NoDup (n :: nodes t ++ cnodes k)) as Nt.
  { destruct Ht as [[-> ->]|[-> ->]]; simpl in N; [done|]. rewrite <- app_assoc in N. simpl in N. by rewrite <- Permutation_middle in N. }
  assert (forall j, j ∉ nodes (T c l n r) ++ cnodes k -> j <> n /\ j ∉ nodes t /\ j ∉ cnodes k) as Hout.
  { intros j Hj. simpl in Hj. destruct Ht as [[-> ->]|[-> ->]]; simpl in Hj; set_solver. }
  apply NoDup_cons in Nt as [Nn Nt]. assert (Nt' := Nt). apply NoDup_app in Nt as (N1 & N2 & N3).
  rewrite not_elem_of_app in Nn.
  pose proof (sibling_ne k (T c l n r) n eq_refl N) as Hsib. simpl in A, C, R.
  set (h1 := rehole k (ptr t) (rb_heap st)). set (h2 := reparent (cpar k) t h1).
  exists (mk_tree (alter (fun _ => rb_node_init) n h2) (croot k (ptr t))).
  assert (at_ h1 (Some n) t) as At1.
  { eapply at_ext; [|exact At]. intros j Hj. specialize (N2 j Hj). unfold h1. by heap_simpl. }
  assert (h2 !! n = Some (mk_rb (cpar k) (ptr l) (ptr r) c)) as Hn2.
  { unfold h2, h1. heap_simpl. tauto. }
  split_and!.
  - unfold kbind. rewrite relink_ok; [|exact C|exact R|tauto|exact Hsib]. fold h1.
    rewrite (when_reparent _ (Some n)) by exact At1. cbn [rb_heap root]. fold h2.
    by rewrite (upd_ok (mk_tree h2 _) _ _ _ Hn2).
  - constructor; cbn [rb_heap root].
    + eapply (at_ext h2); [|by eapply at_reparent]. intros j Hj. assert (j <> n) by (intros ->; tauto). by heap_simpl.
    + eapply (ctx_ext h1); [|by eapply ctx_rehole]. intros j Hj.
      assert (j ∉ nodes t) by (intros Hj'; by apply (N2 j)). unfold h2. by heap_simpl.
    + done.
    + done.
  - cbn [rb_heap]. rewrite lookup_alter_eq. by rewrite Hn2.
  - intros j Hj. destruct (Hout j Hj) as (? & ? & ?). cbn [rb_heap]. unfold h2, h1. by heap_simpl.
Qed.

Lemma splice_ok f st k c l n r : focus st k (T c l n r) -> l = E \/ r = E ->
  exists st', do_remove_rec (S f) (Some n) st = Ret 0%Z st' /\ focus st' k (match l with E => r | _ => l end)
    /\ rb_heap st' !! n = Some rb_node_init /\ same_outside st (nodes (T c l n r) ++ cnodes k) st'.
Proof.
  intros F Hlr. assert (exists t, t = match l with E => r | _ => l end) as [t Et] by eauto.
  destruct (lift_ok st k c l n r t F) as (st' & E1 & F1 & Hn & S1).
  { subst t. destruct Hlr as [->| ->]; [by left|]. destruct l; [by left|by right]. }
  exists st'. rewrite <- Et. split; [|by split_and!]. pose proof (f_at _ _ _ F) as (An & _).
  cbn [do_remove_rec]. unfold kbind at 1. rewrite (rd_ok _ _ _ An). cbn [parent child child_l child_r].
  assert ((match ptr l, ptr r with Some _, Some _ => None | _, _ => child (dir_of (negb (notnull (ptr l)))) (mk_rb (cpar k) (ptr l) (ptr r) c) end) = ptr t) as Ec.
  { subst t. destruct Hlr as [->| ->]; [done|]. by destruct l. }
  revert E1 Ec. generalize (ptr t). intros p E1 Ec. unfold kbind in *.
  destruct (ptr l) eqn:El, (ptr r) eqn:Er; [destruct Hlr; by subst|..]; cbn [kret]; rewrite Ec;
  destruct (relink _ _ _ _); try done; destruct (when _ _ _); try done; by rewrite E1.
Qed.

(** The rightmost node of a nonempty tree. *)
Lemma rightmost c l (n : L) r : exists k m t cm, T c l n r = plug k (T cm t m E) /\ nodes (T c l n r) = nodes (plug k t) ++ [m]
  /\ (forall t', plug k t' = t' \/ exists c' l' r', plug k t' = T c' l' n r').
Proof.
  revert c l n; induction r as [|cr rl IHl m rr IHr]; intros c l n.
  - exists [], n, l, c. split; [done|]. split; [done|]. by left.
  - destruct (IHr cr rl m) as (k & m' & t & cm & E1 & E2 & _). exists (k ++ [Fr RB_RIGHT c n l]), m', t, cm.
    assert (forall t, plug (k ++ [Fr RB_RIGHT c n l]) t = T c l n (plug k t)) as Hp.
    { clear. induction k as [|[d1 c1 n1 s1] k IH]; intros t; simpl; [done|]. apply IH. }
    rewrite !Hp, E1. split; [done|]. rewrite <- E1. split; [|intros; rewrite Hp; eauto].
    change (nodes (T c l n (T cr rl m rr))) with (nodes l ++ n :: nodes (T cr rl m rr)). rewrite E2. simpl. by rewrite <- app_assoc.
Qed.

Lemma plug_app k1 k2 t : plug (k1 ++ k2) t = plug k2 (plug k1 t).
Proof. revert t; induction k1 as [|[d c n s] k1 IH]; intros t; simpl; [done|]. apply IH. Qed.

Lemma focus_app st k1 k2 t : focus st (k1 ++ k2) t <-> focus st k2 (plug k1 t).
Proof. by rewrite <- !rep_plug, plug_app. Qed.

(** [m], outside the tree, takes the place of [n] and becomes black. *)
Lemma replace_ok st k c l n r m : focus st k (T c l n r) -> rb_heap st !! m = Some rb_node_init ->
  m ∉ nodes (T c l n r) ++ cnodes k ->
  exists st', (upd (Some m) (set_child RB_LEFT (ptr l));;;
     when (notnull (ptr l)) (upd (ptr l) (set_parent (Some m)));;;
     n' <-- rd (Some n);;
     upd (Some m) (set_child RB_RIGHT (child RB_RIGHT n'));;;
     when (notnull (child RB_RIGHT n')) (upd (child RB_RIGHT n') (set_parent (Some m)));;;
     relink (cpar k) n (Some m);;;
     when (notnull (Some m)) (upd (Some m) (set_parent (cpar k)));;;
     upd (Some n) (fun _ => rb_node_init)) st = Ret tt st'
    /\ focus st' k (T RB_BLACK l m r) /\ rb_heap st' !! n = Some rb_node_init
    /\ same_outside st (m :: nodes (T c l n r) ++ cnodes k) st'.
Proof.
  intros [A C R N] Hm Hout. pose proof (sibling_ne k (T c l n r) n eq_refl N) as Hsib. simpl in A, C, R. destruct A as (An & Al & Ar).
  assert (NoDup (n :: nodes l ++ nodes r ++ cnodes k)) as Nd.
  { simpl in N. rewrite <- app_assoc in N. simpl in N. by rewrite <- Permutation_middle in N. }
  simpl in Hout. repeat first [rewrite not_elem_of_app in Hout | rewrite not_elem_of_cons in Hout].
  apply NoDup_cons in Nd as [Nn Nd]. rewrite !not_elem_of_app in Nn. assert (Nd' := Nd).
  apply NoDup_app in Nd as (Nl & Dl & (Nr & Dr & Nk)%NoDup_app). setoid_rewrite not_elem_of_app in Dl.
  set (h0 := rb_heap st) in *. set (h1 := alter (set_child RB_LEFT (ptr l)) m h0). set (h2 := reparent (Some m) l h1).
  set (h3 := alter (set_child RB_RIGHT (ptr r)) m h2). set (h4 := reparent (Some m) r h3).
  set (h5 := rehole k (Some m) h4). set (h6 := alter (set_parent (cpar k)) m h5). set (h7 := alter (fun _ => rb_node_init) n h6).
  assert (h2 !! m = Some (mk_rb None (ptr l) None RB_BLACK)) as M2 by (unfold h2, h1; heap_simpl; by rewrite Hm).
  assert (h2 !! n = Some (mk_rb (cpar k) (ptr l) (ptr r) c)) as N2 by (unfold h2, h1; heap_simpl; done).
  assert (h5 !! m = Some (mk_rb None (ptr l) (ptr r) RB_BLACK)) as M5 by (unfold h5, h4, h3; heap_simpl; by rewrite M2).
  assert (h6 !! n = Some (mk_rb (cpar k) (ptr l) (ptr r) c)) as N6 by (unfold h6, h5, h4, h3; heap_simpl; done).
  exists (mk_tree h7 (croot k (Some m))). split_and!.
  - unfold kbind. rewrite (upd_ok _ _ _ _ Hm). fold h0. fold h1.
    rewrite (when_reparent _ (Some n)); cycle 1.
    { cbn [rb_heap]. eapply at_ext; [|exact Al]. intros j Hj. assert (j <> m) by (intros ->; tauto). unfold h1. by heap_simpl. }
    cbn [rb_heap root]. fold h2. rewrite (rd_ok (mk_tree h2 _) _ _ N2). cbn [child child_r].
    rewrite (upd_ok (mk_tree h2 _) _ _ _ M2). cbn [rb_heap root]. fold h3.
    rewrite (when_reparent _ (Some n)); cycle 1.
    { cbn [rb_heap]. eapply at_ext; [|exact Ar]. intros j Hj. assert (j <> m) by (intros ->; tauto).
      assert (j ∉ nodes l) by (intros Hj'; by destruct (Dl j Hj')). unfold h3, h2, h1. by heap_simpl. }
    cbn [rb_heap root]. fold h4. rewrite relink_ok; [|cbn [rb_heap]|exact R|tauto|exact Hsib].
    + cbn [rb_heap root]. fold h5. cbn [notnull when]. rewrite (upd_ok (mk_tree h5 _) _ _ _ M5). cbn [rb_heap root]. fold h6.
      by rewrite (upd_ok (mk_tree h6 _) _ _ _ N6).
    + eapply ctx_ext; [|exact C]. intros j Hj. assert (j <> m) by (intros ->; tauto).
      assert (j ∉ nodes l) by (intros Hj'; by destruct (Dl j Hj')). assert (j ∉ nodes r) by (intros Hj'; by destruct (Dr j Hj')).
      unfold h4, h3, h2, h1. by heap_simpl.
  - constructor; cbn [rb_heap root].
    + simpl. split; [|split].
      * unfold h7, h6. heap_simpl. by rewrite M5.
      * eapply (at_ext h2); [|unfold h2; eapply at_reparent; [done|]].
        -- intros j Hj. destruct (Dl j Hj). assert (j <> m) by (intros ->; tauto). assert (j <> n) by (intros ->; tauto).
           unfold h7, h6, h5, h4, h3. by heap_simpl.
        -- eapply at_ext; [|exact Al]. intros j Hj. assert (j <> m) by (intros ->; tauto). unfold h1. by heap_simpl.
      * eapply (at_ext h4); [|unfold h4; eapply at_reparent; [done|]].
        -- intros j Hj. specialize (Dr j Hj). assert (j <> m) by (intros ->; tauto). assert (j <> n) by (intros ->; tauto).
           unfold h7, h6, h5. by heap_simpl.
        -- eapply at_ext; [|exact Ar]. intros j Hj. assert (j <> m) by (intros ->; tauto).
           assert (j ∉ nodes l) by (intros Hj'; by destruct (Dl j Hj')). unfold h3, h2, h1. by heap_simpl.
    + eapply (ctx_ext h5); [|unfold h5; eapply ctx_rehole; [done|]].
      * intros j Hj. assert (j <> m) by (intros ->; tauto). assert (j <> n) by (intros ->; tauto). unfold h7, h6. by heap_simpl.
      * eapply ctx_ext; [|exact C]. intros j Hj. assert (j <> m) by (intros ->; tauto).
        assert (j ∉ nodes l) by (intros Hj'; by destruct (Dl j Hj')). assert (j ∉ nodes r) by (intros Hj'; by destruct (Dr j Hj')).
        unfold h4, h3, h2, h1. by heap_simpl.
    + done.
    + simpl. rewrite <- app_assoc. simpl. rewrite <- Permutation_middle. apply NoDup_cons. split; [|done].
      rewrite !not_elem_of_app. tauto.
  - cbn [rb_heap]. unfold h7. rewrite lookup_alter_eq. by rewrite N6.
  - intros j Hj. simpl in Hj. repeat first [rewrite not_elem_of_app in Hj | rewrite not_elem_of_cons in Hj].
    cbn [rb_heap]. unfold h7, h6, h5, h4, h3, h2, h1. by heap_simpl.
Qed.

Lemma do_remove_ok st k c l n r : focus st k (T c l n r) ->
  exists st' t', do_remove (Some n) st = Ret 0%Z st' /\ focus st' k t' /\ nodes t' = nodes l ++ nodes r
    /\ rb_heap st' !! n = Some rb_node_init /\ same_outside st (nodes (T c l n r) ++ cnodes k) st'.
Proof.
  intros F. unfold do_remove. destruct l as [|cl ll ln lr] eqn:El.
  { destruct (splice_ok 1 st k c E n r F) as (st' & E1 & F1 & Hn & S1); [by left|]. exists st', r. by split_and!. }
  destruct r as [|cr rl rn rr] eqn:Er.
  { destruct (splice_ok 1 st k c l n E) as (st' & E1 & F1 & Hn & S1); [by rewrite El|by right|]. subst l.
    exists st', (T cl ll ln lr). split_and!; try done. simpl. by rewrite app_nil_r. }
  rewrite <- Er, <- El in *. assert (r <> E) as Hr by by rewrite Er.
  destruct (rightmost cl ll ln lr) as (kl & m & t & cm & E1 & E2 & _). rewrite <- El in E1, E2.
  assert (focus st (kl ++ Fr RB_LEFT c n r :: k) (T cm t m E)) as Fm.
  { apply focus_app. rewrite <- E1. by apply focus_in. }
  destruct (splice_ok 0 st _ cm t m E Fm) as (st1 & R1 & F1 & M1 & S1); [by right|].
  replace (match t with E => E | _ => t end) with t in F1 by by destruct t.
  apply focus_app in F1. assert (F1' := F1). apply focus_down in F1'. simpl in F1'. set (l' := plug kl t) in *.
  assert (Pm : nodes (T cm t m E) ++ cnodes (kl ++ Fr RB_LEFT c n r :: k) ≡ₚ nodes (T c l n r) ++ cnodes k).
  { rewrite <- plug_nodes, plug_app. simpl. rewrite plug_nodes, E1. done. }
  pose proof (f_nodup _ _ _ F) as Nd.
  assert (m ∉ nodes (T c l' n r) ++ cnodes k) as Hm.
  { pose proof (f_nodup _ _ _ F) as Nd'. simpl in Nd'. rewrite E2 in Nd'. rewrite <- !app_assoc in Nd'. simpl in Nd'.
    rewrite <- Permutation_middle in Nd'. apply NoDup_cons in Nd' as [Hm _]. simpl. rewrite <- app_assoc. exact Hm. }
  destruct (replace_ok st1 k c l' n r m F1' M1 Hm) as (st2 & R2 & F2 & N2 & S2).
  exists st2, (T RB_BLACK l' m r). split_and!; [|exact F2| |exact N2|].
  - pose proof (f_at _ _ _ F) as (An & Al & _). pose proof (f_at _ _ _ F1') as (An1 & _).
    change (do_remove_rec 2 (Some n)) with (n0 <-- rd (Some n);;
      ch <-- (match child RB_LEFT n0, child RB_RIGHT n0 with
              | Some _, Some _ =>
                  ch <-- get_outermost (child RB_LEFT n0) RB_RIGHT;;
                  do_remove_rec 1 ch;;;
                  n1 <-- rd (Some n);;
                  upd ch (set_child RB_LEFT (child RB_LEFT n1));;;
                  when (notnull (child RB_LEFT n1)) (upd (child RB_LEFT n1) (set_parent ch));;;
                  n1 <-- rd (Some n);;
                  upd ch (set_child RB_RIGHT (child RB_RIGHT n1));;;
                  when (notnull (child RB_RIGHT n1)) (upd (child RB_RIGHT n1) (set_parent ch));;;
                  kret ch
              | _, _ => kret (child (dir_of (negb (notnull (child RB_LEFT n0)))) n0)
              end);;
      relink (parent n0) n ch;;;
      when (notnull ch) (upd ch (set_parent (parent n0)));;;
      upd (Some n) (fun _ => rb_node_init);;;
      kret 0%Z).
    unfold kbind at 1. rewrite (rd_ok _ _ _ An). cbn [child child_l child_r parent].
    assert (ptr l = Some ln /\ ptr r = Some rn) as [-> ->] by by subst. cbn iota.
    assert (get_outermost (Some ln) RB_RIGHT st = Ret (Some m) st) as Ho.
    { pose proof (focus_size _ _ _ F) as Hsz. simpl in Hsz. rewrite length_app in Hsz.
      pose proof (get_outermost_ok RB_RIGHT st (Some n) l Al ltac:(lia)) as Ho. replace (ptr l) with (Some ln) in Ho by by subst. rewrite Ho.
      simpl. by rewrite E2, rev_unit. }
    revert R2. unfold kbind. rewrite Ho, R1, (rd_ok _ _ _ An1). cbn [child child_l child_r].
    do 7 (match goal with |- match ?e with _ => _ end = _ -> _ => destruct e as [? ?| | | |]; try discriminate end; cbn [kret]).
    by intros ->.
  - simpl. rewrite E2. by rewrite <- app_assoc.
  - intros j Hj. rewrite (S2 j), (S1 j); [done|by rewrite Pm|].
    intros [->|Hj']%elem_of_cons; apply Hj.
    + simpl. rewrite E2. set_solver.
    + revert Hj'. simpl. rewrite E2. fold l'. clear. set_solver.
Qed.

End Remove.

(** ** The operations *)

Lemma rev_reverse {A} (l : list A) : rev l = reverse l.
Proof. apply rev_alt. Qed.

(** C22 (invariant): rebalancing after the insertion of a leaf: when the new leaf [n] hangs at the
    hole of a red-black tree, [rb_balance] returns 0, and leaves a red-black tree (black root, no
    red node with a red child, equal black heights) with the same nodes in the same order; no
    other memory is written. *)
Theorem rb_balance_correct {L} `{Countable L} (st : rb_tree L) (k : list (frame L)) (c : rb_color) (n : L) :
  focus st k (T c E n E) -> red_black (plug k E) ->
  exists st' t', rb_balance (Some n) st = Ret 0%Z st' /\ rep st' t' /\ nodes t' = nodes (plug k (T c E n E))
    /\ red_black t' /\ same_outside st (nodes t') st'.
Proof. apply rb_balance_ok. Qed.

Lemma closest_split {L} `{Countable L} d (st : rb_tree L) t n xs ys : rep st t -> seq d t = xs ++ n :: ys ->
  get_closest (Some n) d st = Ret (head ys) st.
Proof.
  intros R Et. assert (n ∈ nodes t) as Hn.
  { assert (n ∈ seq d t) as Hn by (rewrite Et; set_solver). destruct d; [|done]. simpl in Hn. by rewrite rev_reverse, elem_of_reverse in Hn. }
  destruct (focus_on _ _ Hn) as (k & c & l & r & ->). pose proof (proj1 (rep_plug _ _ _) R) as F.
  rewrite (get_closest_ok d st k c l n r F). rewrite seq_split in Et. symmetry in Et.
  apply head_after in Et as [<- _]; [done|]. rewrite Et, <- (seq_split d k c l n r).
  pose proof (f_nodup _ _ _ R) as Nd. simpl in Nd. rewrite app_nil_r in Nd.
  destruct d; [|done]. simpl. by rewrite rev_reverse, reverse_Permutation.
Qed.

(** Fact (functional): traversal: [rb_first] and [rb_last] return the ends of the sequence of
    nodes (NULL for an empty tree), and [rb_next] and [rb_prev] of a node its neighbours in it,
    NULL at the ends. *)
Theorem rb_traversal_correct {L} `{Countable L} (st : rb_tree L) (t : tree L) : rep st t ->
  rb_first st = Ret (head (nodes t)) st /\ rb_last st = Ret (last (nodes t)) st
  /\ forall xs n ys, nodes t = xs ++ n :: ys ->
     rb_next (Some n) st = Ret (head ys) st /\ rb_prev (Some n) st = Ret (last xs) st.
Proof.
  intros R. pose proof (focus_size _ _ _ R) as Hsz. simpl in Hsz. pose proof (f_root _ _ _ R) as Hr. simpl in Hr.
  assert (forall l : list L, head (rev l) = last l) as Hl by (intros l; by rewrite rev_reverse, head_reverse).
  split; [|split].
  - unfold rb_first, get_root, kbind. rewrite Hr. rewrite (get_outermost_ok RB_LEFT st None t); [done|apply R|lia].
  - unfold rb_last, get_root, kbind. rewrite Hr. rewrite (get_outermost_ok RB_RIGHT st None t); [|apply R|lia]. simpl. by rewrite Hl.
  - intros xs n ys Et. split.
    + by apply (closest_split RB_RIGHT st t n xs ys R).
    + unfold rb_prev. rewrite (closest_split RB_LEFT st t n (rev ys) (rev xs) R); [by rewrite Hl|].
      simpl. rewrite Et, rev_app_distr. simpl. by rewrite <- app_assoc.
Qed.

(** Fact (functional): [do_remove] unlinks exactly the given node: the other nodes keep their
    order, the node's cell is zeroed, and no cell outside the tree is written. *)
Theorem do_remove_correct {L} `{Countable L} (st : rb_tree L) (t : tree L) (xs ys : list L) (n : L) :
  rep st t -> nodes t = xs ++ n :: ys ->
  exists st' t', do_remove (Some n) st = Ret 0%Z st' /\ rep st' t' /\ nodes t' = xs ++ ys
    /\ rb_heap st' !! n = Some rb_node_init /\ same_outside st (nodes t) st'.
Proof.
  intros R Et. assert (n ∈ nodes t) as Hn by (rewrite Et; set_solver).
  destruct (focus_on _ _ Hn) as (k & c & l & r & ->). pose proof (proj1 (rep_plug _ _ _) R) as F.
  destruct (do_remove_ok st k c l n r F) as (st' & t' & E1 & F' & En & Hz & S).
  exists st', (plug k t'). split_and!; [done|by apply rep_plug| |done|].
  - pose proof (f_nodup _ _ _ R) as Nd. simpl in Nd. rewrite app_nil_r in Nd.
    pose proof (seq_split RB_RIGHT k c l n r) as Es. simpl in Es. rewrite Es in Et. symmetry in Et.
    assert (Et' := Et). apply head_after in Et as [-> ->]; [|by rewrite Et', <- Es].
    change (nodes (plug k t')) with (seq RB_RIGHT (plug k t')). rewrite seq_plug. simpl. rewrite En. by rewrite <- !app_assoc.
  - intros j Hj. apply S. by rewrite plug_nodes in Hj.
Qed.

(** A run of insertions of keys, as their own addresses: descend, link a leaf, rebalance. *)
Fixpoint descend (fuel : nat) (p : option Z) (n : Z) (t : rb_tree Z) : option (Z * rb_dir) :=
  match fuel, p with
  | S fuel, Some q =>
      nd ← rb_heap t !! q;
      let d := if (n <? q)%Z then RB_LEFT else RB_RIGHT in
      match child d nd with None => Some (q, d) | Some _ => descend fuel (child d nd) n t end
  | _, _ => None
  end.
Definition link_leaf (n : Z) (t : rb_tree Z) : rb_tree Z :=
  match descend (rb_fuel t) (root t) n t with
  | None => mk_tree (<[n := rb_node_init]> (rb_heap t)) (Some n)
  | Some (q, d) => mk_tree (<[n := mk_rb (Some q) None None RB_BLACK]> (alter (set_child d (Some n)) q (rb_heap t))) (root t)
  end.
Definition insert_all (ns : list Z) : K (rb_tree Z) unit :=
  fold_left (fun m n => m;;; kmodify (link_leaf n);;; rb_balance (Some n);;; kret tt) ns (kret tt).
Definition empty_tree : rb_tree Z := mk_tree ∅ None.

(** Fact (error): [rb_remove] can dereference NULL on a tree built by the operations themselves:
    after the insertions 3, 4, 5, 2, 1 and the removal of 2, removing 4 faults.  (The color of the
    removed node is read after the node was cleared, and a rotation turns about the wrong node.) *)
Theorem rb_remove_faults :
  exists st, (insert_all [3; 4; 5; 2; 1]%Z;;; rb_remove (Some 2%Z)) empty_tree = Ret 0%Z st /\ rb_remove (Some 4%Z) st = Fault.
Proof.
  assert (match (insert_all [3; 4; 5; 2; 1]%Z;;; rb_remove (Some 2%Z)) empty_tree with
          | Ret 0%Z st => match rb_remove (Some 4%Z) st with Fault => True | _ => False end | _ => False end) as Hr by (vm_compute; exact I).
  destruct ((insert_all _;;; rb_remove _) empty_tree) as [[] st| | | |]; try done.
  exists st. split; [done|]. by destruct (rb_remove (Some 4%Z) st).
Qed.

(** ** Witnesses *)

(** 2 black over 1 and 3, red; 4 is linked below 3. *)
Definition demo_rb : rb_tree Z := mk_tree
  (list_to_map [(2, mk_rb None (Some 1) (Some 3) RB_BLACK); (1, mk_rb (Some 2) None None RB_RED);
                (3, mk_rb (Some 2) None (Some 4) RB_RED); (4, mk_rb (Some 3) None None RB_BLACK)]%Z) (Some 2%Z).
Definition demo_ctx : list (frame Z) := [Fr RB_RIGHT RB_RED 3 E; Fr RB_RIGHT RB_BLACK 2 (T RB_RED E 1 E)]%Z.

Lemma demo_focus : focus demo_rb demo_ctx (T RB_BLACK E 4%Z E).
Proof. constructor; [vm_compute; repeat split..|]. simpl. repeat (apply NoDup_cons; split; [set_solver|]). by apply NoDup_nil. Qed.

Lemma rb_balance_correct_witness :
  exists st' t', rb_balance (Some 4%Z) demo_rb = Ret 0%Z st' /\ rep st' t' /\ nodes t' = [1; 2; 3; 4]%Z /\ red_black t'.
Proof.
  destruct (rb_balance_correct demo_rb demo_ctx RB_BLACK 4%Z demo_focus) as (st' & t' & E1 & R & En & Rb & _).
  - constructor; [done|vm_compute; repeat split; try discriminate|exists 1%nat; vm_compute; repeat split].
  - exists st', t'. exact (conj E1 (conj R (conj En Rb))).
Defined.

Lemma rb_traversal_correct_witness : rb_first demo_rb = Ret (Some 1%Z) demo_rb /\ rb_next (Some 2%Z) demo_rb = Ret (Some 3%Z) demo_rb.
Proof.
  destruct (rb_traversal_correct demo_rb (plug demo_ctx (T RB_BLACK E 4%Z E)) (proj2 (rep_plug _ _ _) demo_focus)) as (F & _ & N).
  split; [exact F|]. exact (proj1 (N [1%Z] 2%Z [3; 4]%Z eq_refl)).
Defined.

Lemma do_remove_correct_witness : exists st' t', do_remove (Some 2%Z) demo_rb = Ret 0%Z st' /\ rep st' t' /\ nodes t' = [1; 3; 4]%Z.
Proof.
  destruct (do_remove_correct demo_rb (plug demo_ctx (T RB_BLACK E 4%Z E)) [1%Z] [3; 4]%Z 2%Z) as (st' & t' & E1 & R & En & _).
  - exact (proj2 (rep_plug _ _ _) demo_focus).
  - reflexivity.
  - exists st', t'. exact (conj E1 (conj R En)).
Defined.
