(* ===== verification/Clock.v ===== *)
(** * Calendar time and the real-time clock (lib/time.c, kernel/rtc.c)

    [tm_to_time] with C's integer widths and truncating division; the theorem is that it
    counts days exactly as the Gregorian calendar does.  The CMOS chip is not part of the
    program: its ports are parameters, with the documented index/data protocol as the
    hypothesis of the theorems about [rtc_get_time]. *)

From Stdlib Require Import ZArith Lia.
From stdpp Require Import base list.
From S2P Require Import Prelude.

#[local] Open Scope Z_scope.
#[local] Open Scope kernel_scope.

(** Division by constants, in this file. *)
#[local] Ltac Zify.zify_post_hook ::= Z.to_euclidean_division_equations.

(** The fields of [struct tm] the code uses. *)
Record tm := mk_tm { tm_sec : Z; tm_min : Z; tm_hour : Z; tm_mday : Z; tm_mon : Z; tm_year : Z }.

(** [Q(a, b)]; [/] truncates. *)
Definition Q (a b : Z) : Z := if a >? 0 then Z.quot a b else - Z.quot (b - a - 1) b.

Definition days_at_month : list Z := [0; 31; 59; 90; 120; 151; 181; 212; 243; 273; 304; 334].

(** The normalised year and month. *)
Definition normalize (year month : Z) : Z * Z :=
  if month >=? 12 then (s64 (year + Z.quot month 12), Z.rem month 12)
  else if month <? 0 then
    let year := s64 (year + Z.quot month 12) in
    let month := Z.rem month 12 in
    if negb (month =? 0) then (s64 (year - 1), month + 12) else (year, month)
  else (year, month).

Definition tm_to_time (t : tm) : Z :=
  let '(year, month) := normalize (s32 (tm_year t + -100)) (tm_mon t) in
  let z4 := s32 (Q (s64 (year - b2z (month <? 2))) 4) in
  let z100 := s32 (Q z4 25) in
  let z400 := s32 (Q z100 4) in
  let day := s32 (tm_mday t + (year * 365 + z4 - z100 + z400 + nth (Z.to_nat month) days_at_month 0)) in
  s64 (s64 (day * 86400) + s32 (tm_hour t * 3600) + s32 (tm_min t * 60) + tm_sec t - -946684800).

(** ** The calendar *)

Definition leap (y : Z) : bool := (y mod 4 =? 0) && (negb (y mod 100 =? 0) || (y mod 400 =? 0)).

(** Days of month [m] (0..11) of year [y]. *)
Definition month_days (y m : Z) : Z :=
  if m =? 1 then 28 + b2z (leap y)
  else if (m =? 3) || (m =? 5) || (m =? 8) || (m =? 10) then 30 else 31.

Definition valid_date (t : tm) : Prop :=
  0 <= tm_mon t < 12 /\ 1 <= tm_mday t <= month_days (1900 + tm_year t) (tm_mon t)
  /\ Z.abs (tm_year t) <= 1000000.

Definition valid_clock (t : tm) : Prop := 0 <= tm_hour t < 24 /\ 0 <= tm_min t < 60 /\ 0 <= tm_sec t < 60.

(** The same time on the next day of the calendar. *)
Definition next_day (t : tm) : tm :=
  if tm_mday t <? month_days (1900 + tm_year t) (tm_mon t)
  then mk_tm (tm_sec t) (tm_min t) (tm_hour t) (tm_mday t + 1) (tm_mon t) (tm_year t)
  else if tm_mon t <? 11 then mk_tm (tm_sec t) (tm_min t) (tm_hour t) 1 (tm_mon t + 1) (tm_year t)
  else mk_tm (tm_sec t) (tm_min t) (tm_hour t) 1 0 (tm_year t + 1).

(** [Q] is division rounding down. *)
Lemma Q_floor a b : 0 < b -> Q a b = a / b.
Proof.
  intros Hb. unfold Q. destruct (Z.gtb_spec a 0).
  - by rewrite Z.quot_div_nonneg by lia.
  - rewrite Z.quot_div_nonneg by lia. apply (Z.div_unique _ _ _ (a + b * ((b - a - 1) / b))); [|lia].
    left. pose proof (Z.div_mod (b - a - 1) b ltac:(lia)). pose proof (Z.mod_pos_bound (b - a - 1) b Hb). lia.
Qed.

Lemma s32_small x : - 2 ^ 31 <= x < 2 ^ 31 -> s32 x = x.
Proof. intros Hx. unfold s32, sint. rewrite Z.mod_small; lia. Qed.

Lemma s64_small x : - 2 ^ 63 <= x < 2 ^ 63 -> s64 x = x.
Proof. intros Hx. unfold s64, sint. rewrite Z.mod_small; lia. Qed.

Lemma days_at_month_range m : 0 <= m < 12 -> 0 <= nth (Z.to_nat m) days_at_month 0 <= 334.
Proof.
  intros Hm. pose proof (range_check (fun m => let x := nth (Z.to_nat m) days_at_month 0 in (0 <=? x) && (x <=? 334)) 12
    ltac:(vm_compute; reflexivity) m Hm) as H. cbv zeta beta in H. apply andb_prop in H as [?%Z.leb_le ?%Z.leb_le]. lia.
Qed.

(** In the range of years considered no step of the computation overflows. *)
Lemma tm_to_time_eq t :
  0 <= tm_mon t < 12 -> 1 <= tm_mday t <= 31 -> Z.abs (tm_year t) <= 1000001 ->
  0 <= tm_hour t < 24 -> 0 <= tm_min t < 60 -> 0 <= tm_sec t < 60 ->
  let y := tm_year t - 100 in
  let a := y - b2z (tm_mon t <? 2) in
  tm_to_time t = (tm_mday t + y * 365 + a / 4 - a / 4 / 25 + a / 4 / 25 / 4 + nth (Z.to_nat (tm_mon t)) days_at_month 0) * 86400
    + tm_hour t * 3600 + tm_min t * 60 + tm_sec t + 946684800.
Proof.
  intros Hm Hd Hy Hh Hmi Hs y a. unfold tm_to_time, normalize.
  destruct (Z.geb_spec (tm_mon t) 12); [lia|]. destruct (Z.ltb_spec (tm_mon t) 0); [lia|].
  rewrite (s32_small (tm_year t + -100)) by lia. replace (tm_year t + -100) with y by (unfold y; lia).
  assert (- 1000102 <= a <= 1000000) as Ha by (unfold a, y, b2z; destruct (tm_mon t <? 2); lia).
  fold a. rewrite (s64_small a) by lia. rewrite (Q_floor a 4), (s32_small (a / 4)) by lia.
  rewrite (Q_floor (a / 4) 25), (s32_small (a / 4 / 25)) by lia.
  rewrite (Q_floor (a / 4 / 25) 4), (s32_small (a / 4 / 25 / 4)) by lia.
  pose proof (days_at_month_range (tm_mon t) Hm). rewrite (s32_small (tm_mday t + _)) by lia.
  rewrite (s32_small (tm_hour t * 3600)), (s32_small (tm_min t * 60)) by lia.
  rewrite (s64_small (_ * 86400)) by lia. rewrite s64_small by lia. lia.
Qed.

(** Crossing the end of February adds a leap day exactly in leap years. *)
Lemma leap_step y :
  (y - 100) / 4 - (y - 100) / 4 / 25 + (y - 100) / 4 / 25 / 4
  - ((y - 100 - 1) / 4 - (y - 100 - 1) / 4 / 25 + (y - 100 - 1) / 4 / 25 / 4) = b2z (leap (1900 + y)).
Proof.
  rewrite !Zdiv_Zdiv by lia. change (4 * 25) with 100. change (100 * 4) with 400. unfold leap, b2z.
  destruct (Z.eqb_spec ((1900 + y) mod 4) 0), (Z.eqb_spec ((1900 + y) mod 100) 0), (Z.eqb_spec ((1900 + y) mod 400) 0);
    simpl; lia.
Qed.

Lemma month_days_le y m : month_days y m <= 31.
Proof. unfold month_days, b2z. repeat case_match; lia. Qed.

(** Month lengths against the table, but for February. *)
Lemma month_step y m : 0 <= m < 11 ->
  nth (Z.to_nat (m + 1)) days_at_month 0 - nth (Z.to_nat m) days_at_month 0 =
  month_days y m - (if m =? 1 then b2z (leap y) else 0).
Proof.
  intros Hm. assert (m = 0 \/ m = 1 \/ m = 2 \/ m = 3 \/ m = 4 \/ m = 5 \/ m = 6 \/ m = 7 \/ m = 8 \/ m = 9 \/ m = 10) as H by lia.
  repeat (destruct H as [->|H]; [unfold month_days, days_at_month; simpl; lia|]).
  subst. unfold month_days, days_at_month. simpl. lia.
Qed.

(** Fact (functional): [tm_to_time] advances by 86400 seconds from each day of the Gregorian
    calendar to the next, across ends of months and years and leap days, and maps the
    start of 2000 to 946684800: it is the number of seconds since 1970. *)
Theorem tm_to_time_calendar (t : tm) :
  valid_date t -> valid_clock t ->
  tm_to_time (next_day t) = tm_to_time t + 86400 /\ tm_to_time (mk_tm 0 0 0 1 0 100) = 946684800.
Proof.
  intros (Hm & Hd & Hy) (Hh & Hmi & Hs). split; [|reflexivity].
  pose proof (month_days_le (1900 + tm_year t) (tm_mon t)) as H31.
  rewrite (tm_to_time_eq t) by lia. unfold next_day.
  destruct (Z.ltb_spec (tm_mday t) (month_days (1900 + tm_year t) (tm_mon t))).
  { rewrite tm_to_time_eq by (simpl; lia). simpl. lia. }
  assert (tm_mday t = month_days (1900 + tm_year t) (tm_mon t)) as Ed by lia.
  destruct (Z.ltb_spec (tm_mon t) 11).
  - rewrite tm_to_time_eq by (simpl; lia). cbn [tm_mon tm_mday tm_year tm_hour tm_min tm_sec].
    pose proof (month_step (1900 + tm_year t) (tm_mon t) ltac:(lia)) as Hstep. rewrite <- Ed in Hstep.
    pose proof (leap_step (tm_year t)) as Hl.
    destruct (Z.ltb_spec (tm_mon t) 2), (Z.ltb_spec (tm_mon t + 1) 2), (Z.eqb_spec (tm_mon t) 1);
      simpl b2z; rewrite ?Z.sub_0_r in *; lia.
  - rewrite tm_to_time_eq by (simpl; lia). cbn [tm_mon tm_mday tm_year tm_hour tm_min tm_sec].
    replace (tm_mon t) with 11 in * by lia. unfold month_days in Ed. simpl in Ed. rewrite Ed. simpl.
    rewrite Z.sub_0_r. replace (tm_year t + 1 - 100 - 1) with (tm_year t - 100) by lia. lia.
Qed.

Lemma tm_to_time_calendar_witness :
  tm_to_time (mk_tm 0 30 12 1 2 124) = tm_to_time (mk_tm 0 30 12 29 1 124) + 86400.
Proof.
  apply (tm_to_time_calendar (mk_tm 0 30 12 29 1 124)).
  - repeat split; vm_compute; (reflexivity || discriminate).
  - repeat split; vm_compute; (reflexivity || discriminate).
Defined.

(** ** The real-time clock *)

Definition CMOS_ADDR : Z := 0x70.
Definition CMOS_DATA : Z := 0x71.

Section Rtc.
(** The I/O ports, on the state [D] of the machine's devices. *)
Context {D : Type} (outb : Z -> Z -> K D unit) (inb : Z -> K D Z).

Definition rtc_busy : K D Z :=
  outb CMOS_ADDR 0x0a;;;
  v <-- inb CMOS_DATA;;
  kret (Z.land v 0x80).

Definition rtc_read_reg (reg : Z) : K D Z :=
  outb CMOS_ADDR reg;;;
  v <-- inb CMOS_DATA;;
  kret (u8 v).

Definition bcd_to_int (val : Z) : Z := u8 (Z.land val 0x0f + Z.quot val 16 * 10).

(** [while (rtc_busy());]: [fuel] bounds the number of polls. *)
Fixpoint rtc_wait (fuel : nat) : K D unit :=
  b <-- rtc_busy;;
  if negb (b =? 0) then match fuel with O => khang | S fuel => rtc_wait fuel end else kret tt.

(** The conversion of the register values. *)
Definition rtc_decode (sec min hour day mon year reg_b : Z) : tm :=
  let bcd x := if Z.land reg_b 0x04 =? 0 then bcd_to_int x else x in
  let hour := bcd hour in
  let hour := if (Z.land reg_b 0x02 =? 0) && negb (Z.land hour 0x80 =? 0)
              then u8 (Z.rem (Z.land hour 0x7f + 12) 24) else hour in
  mk_tm (bcd sec) (bcd min) hour (bcd day) (bcd mon - 1) (100 + bcd year).

Definition rtc_get_time (fuel : nat) : K D tm :=
  rtc_wait fuel;;;
  sec <-- rtc_read_reg 0x00;;
  min <-- rtc_read_reg 0x02;;
  hour <-- rtc_read_reg 0x04;;
  day <-- rtc_read_reg 0x07;;
  mon <-- rtc_read_reg 0x08;;
  year <-- rtc_read_reg 0x09;;
  reg_b <-- rtc_read_reg 0x0b;;
  kret (rtc_decode sec min hour day mon year reg_b).

(** The index/data protocol of the chip: in the states [ready d regs] of the devices no
    update is in progress and the registers hold [regs]; selecting register [r] and
    reading the data port gives [regs r] and leaves them so. *)
Context (ready : D -> (Z -> Z) -> Prop).
Hypothesis cmos_read : forall d regs r, ready d regs -> exists d',
  (outb CMOS_ADDR r;;; inb CMOS_DATA) d = Ret (regs r) d' /\ ready d' regs.
Hypothesis cmos_idle : forall d regs, ready d regs -> Z.land (regs 0x0a) 0x80 = 0.

Lemma rtc_read_reg_ok d regs r : ready d regs -> 0 <= regs r < 256 ->
  exists d', rtc_read_reg r d = Ret (regs r) d' /\ ready d' regs.
Proof.
  intros Hr Hb. destruct (cmos_read d regs r Hr) as (d' & E & Hr'). exists d'. split; [|done].
  unfold rtc_read_reg, kbind in *. destruct (outb CMOS_ADDR r d) as [[] d1| | | |]; try done.
  destruct (inb CMOS_DATA d1) as [v d2| | | |]; try done. injection E as -> ->. unfold kret, u8.
  by rewrite Z.mod_small by lia.
Qed.

Lemma rtc_wait_ok d regs fuel : ready d regs -> exists d', rtc_wait fuel d = Ret tt d' /\ ready d' regs.
Proof.
  intros Hr. destruct (cmos_read d regs 0x0a Hr) as (d' & E & Hr'). exists d'. split; [|done].
  destruct fuel; cbn [rtc_wait]; unfold rtc_busy, kbind in *;
    (destruct (outb CMOS_ADDR 0x0a d) as [[] d1| | | |]; try done);
    (destruct (inb CMOS_DATA d1) as [v d2| | | |]; try done); injection E as -> ->; unfold kret;
    by rewrite (cmos_idle _ _ Hr).
Qed.

Lemma bind_read d regs r : ready d regs -> 0 <= regs r < 256 ->
  exists d', (forall A (k : Z -> K D A), kbind (rtc_read_reg r) k d = k (regs r) d') /\ ready d' regs.
Proof.
  intros Hr Hb. destruct (rtc_read_reg_ok d regs r Hr Hb) as (d' & E & Hr'). exists d'.
  split; [|done]. intros A k. unfold kbind. by rewrite E.
Qed.

Lemma rtc_get_time_decode d regs fuel :
  ready d regs -> (forall r, 0 <= regs r < 256) ->
  exists d', rtc_get_time fuel d =
    Ret (rtc_decode (regs 0) (regs 2) (regs 4) (regs 7) (regs 8) (regs 9) (regs 11)) d' /\ ready d' regs.
Proof.
  intros Hr Hb. unfold rtc_get_time. destruct (rtc_wait_ok d regs fuel Hr) as (d0 & E0 & H0).
  unfold kbind at 1. rewrite E0.
  destruct (bind_read d0 regs 0) as (d1 & E1 & H1); [done|done|]. rewrite E1.
  destruct (bind_read d1 regs 2) as (d2 & E2 & H2); [done|done|]. rewrite E2.
  destruct (bind_read d2 regs 4) as (d3 & E3 & H3); [done|done|]. rewrite E3.
  destruct (bind_read d3 regs 7) as (d4 & E4 & H4); [done|done|]. rewrite E4.
  destruct (bind_read d4 regs 8) as (d5 & E5 & H5); [done|done|]. rewrite E5.
  destruct (bind_read d5 regs 9) as (d6 & E6 & H6); [done|done|]. rewrite E6.
  destruct (bind_read d6 regs 11) as (d7 & E7 & H7); [done|done|]. rewrite E7.
  exists d7. done.
Qed.

(** The encodings of register B: bit 2 selects binary, bit 1 the 24-hour clock. *)
Definition encode (reg_b x : Z) : Z := if Z.land reg_b 0x04 =? 0 then x / 10 * 16 + x mod 10 else x.

Lemma bcd_to_int_encode x : 0 <= x < 100 -> bcd_to_int (x / 10 * 16 + x mod 10) = x.
Proof.
  intros Hx. pose proof (range_check (fun x => bcd_to_int (x / 10 * 16 + x mod 10) =? x) 100
    ltac:(vm_compute; reflexivity) x Hx) as H. by apply Z.eqb_eq in H.
Qed.

(** Fact (round trip): with the clock in 24-hour mode, in BCD or binary encoding,
    [rtc_get_time] returns the calendar time the registers encode. *)
Theorem rtc_get_time_24h (d : D) (regs : Z -> Z) (fuel : nat) (t : tm) :
  ready d regs -> (forall r, 0 <= regs r < 256) -> Z.land (regs 11) 0x02 <> 0 ->
  0 <= tm_sec t < 60 -> 0 <= tm_min t < 60 -> 0 <= tm_hour t < 24 -> 1 <= tm_mday t <= 31 ->
  0 <= tm_mon t < 12 -> 100 <= tm_year t < 200 ->
  regs 0 = encode (regs 11) (tm_sec t) -> regs 2 = encode (regs 11) (tm_min t) ->
  regs 4 = encode (regs 11) (tm_hour t) -> regs 7 = encode (regs 11) (tm_mday t) ->
  regs 8 = encode (regs 11) (tm_mon t + 1) -> regs 9 = encode (regs 11) (tm_year t - 100) ->
  exists d', rtc_get_time fuel d = Ret t d'.
Proof.
  intros Hr Hb H24 ? ? ? ? ? ? E0 E2 E4 E7 E8 E9. destruct (rtc_get_time_decode d regs fuel Hr Hb) as (d' & E & _).
  exists d'. rewrite E. f_equal. unfold rtc_decode. apply Z.eqb_neq in H24. rewrite H24. cbn [andb].
  rewrite E0, E2, E4, E7, E8, E9. unfold encode. destruct (Z.land (regs 11) 0x04 =? 0).
  - rewrite !bcd_to_int_encode by lia. destruct t; simpl; f_equal; lia.
  - destruct t; simpl; f_equal; lia.
Qed.

End Rtc.

(** Fact (functional): in 12-hour mode the hours after noon come out wrong: with BCD encoding
    the PM bit is folded into the tens digit (1 PM reads as 81), and with binary encoding
    noon and midnight are exchanged. *)
Theorem rtc_12h_hours_wrong (sec min day mon year : Z) :
  tm_hour (rtc_decode sec min 0x81 day mon year 0x00) = 81
  /\ tm_hour (rtc_decode sec min 0x91 day mon year 0x00) = 91
  /\ tm_hour (rtc_decode sec min (0x80 + 12) day mon year 0x04) = 0
  /\ tm_hour (rtc_decode sec min 12 day mon year 0x04) = 12.
Proof. done. Qed.

(** A chip whose registers hold 2024-02-29 23:59:58 in BCD; its state is the selected register. *)
Definition demo_regs (r : Z) : Z :=
  if r =? 0 then 0x58 else if r =? 2 then 0x59 else if r =? 4 then 0x23 else if r =? 7 then 0x29
  else if r =? 8 then 0x02 else if r =? 9 then 0x24 else if r =? 11 then 0x02 else 0.
Definition demo_outb (port v : Z) : K Z unit := fun d => Ret tt (if port =? CMOS_ADDR then v else d).
Definition demo_inb (port : Z) : K Z Z := fun d => Ret (demo_regs d) d.

Lemma rtc_get_time_24h_witness :
  exists d', rtc_get_time demo_outb demo_inb 0 0 = Ret (mk_tm 58 59 23 29 1 124) d'.
Proof.
  apply (rtc_get_time_24h demo_outb demo_inb (fun _ regs => regs = demo_regs)) with (regs := demo_regs).
  - intros d regs r ->. exists r. split; reflexivity.
  - intros d regs ->. reflexivity.
  - reflexivity.
  - intros r. unfold demo_regs. repeat case_match; lia.
  - vm_compute. discriminate.
  - simpl. lia.
  - simpl. lia.
  - simpl. lia.
  - simpl. lia.
  - simpl. lia.
  - simpl. lia.
  - reflexivity.
  - reflexivity.
  - reflexivity.
  - reflexivity.
  - reflexivity.
  - reflexivity.
Defined.
