(* ===== verification/Console.v ===== *)
(** * The console (kernel/console.c, lib/readline.c)

    Serial line, parallel port, text screen and keyboard, the buffer of typed
    characters, and the line editor.  The devices are an argument: what a port gives
    when it is read, from the history of accesses to all ports.  The screen is the
    list of its cells, the input buffer the list of its bytes. *)

From Stdlib Require Import ZArith Lia.
From stdpp Require Import strings base list.
From S2P Require Import Prelude.

#[local] Open Scope Z_scope.
#[local] Open Scope kernel_scope.

(** ** Constants *)

Definition COM1 : Z := 0x3F8.
Definition COM_RX : Z := 0.
Definition COM_TX : Z := 0.
Definition COM_DLL : Z := 0.
Definition COM_DLM : Z := 1.
Definition COM_IER : Z := 1.
Definition COM_IER_RDI : Z := 0x01.
Definition COM_IIR : Z := 2.
Definition COM_FCR : Z := 2.
Definition COM_LCR : Z := 3.
Definition COM_LCR_DLAB : Z := 0x80.
Definition COM_LCR_WLEN8 : Z := 0x03.
Definition COM_MCR : Z := 4.
Definition COM_LSR : Z := 5.
Definition COM_LSR_DATA : Z := 0x01.
Definition COM_LSR_TXRDY : Z := 0x20.
Definition MONO_BASE : Z := 0x3B4.
Definition CGA_BASE : Z := 0x3D4.
Definition CRT_COLS : Z := 80.
Definition CRT_SIZE : Z := 25 * CRT_COLS.
Definition KBSTATP : Z := 0x64.
Definition KBS_DIB : Z := 0x01.
Definition KBDATAP : Z := 0x60.
Definition CONSBUFSIZE : Z := 512.
Definition PIC1_DATA : Z := 0x21.
Definition PIC2_DATA : Z := 0xA1.

Definition SHIFT : Z := 1.
Definition CTL : Z := 2.
Definition ALT : Z := 4.
Definition CAPSLOCK : Z := 8.
Definition NUMLOCK : Z := 16.
Definition SCROLLLOCK : Z := 32.
Definition E0ESC : Z := 64.
Definition KEY_HOME : Z := 0xE0.
Definition KEY_DEL : Z := 0xE9.

(** ** Keyboard tables: indexed by scan code, [NO] (0) elsewhere *)

Definition shiftcode (d : Z) : Z :=
  if (d =? 0x1D) || (d =? 0x9D) then CTL else if (d =? 0x2A) || (d =? 0x36) then SHIFT
  else if (d =? 0x38) || (d =? 0xB8) then ALT else 0.
Definition togglecode (d : Z) : Z :=
  if d =? 0x3A then CAPSLOCK else if d =? 0x45 then NUMLOCK else if d =? 0x46 then SCROLLLOCK else 0.

Definition cursor_keys : list (Z * Z) :=
  [(0xC8, 0xE2); (0xC9, 0xE6); (0xCB, 0xE4); (0xCD, 0xE5); (0xCF, 0xE1); (0xD0, 0xE3); (0xD1, 0xE7); (0xD2, 0xE8); (0xD3, 0xE9)].
Fixpoint assoc (d : Z) (l : list (Z * Z)) : Z :=
  match l with [] => 0 | (k, v) :: l => if k =? d then v else assoc d l end.
Definition key (keys : list Z) (special : list (Z * Z)) (d : Z) : Z :=
  match (if d <? 128 then keys !! Z.to_nat d else None) with Some c => c | None => assoc d special end.

Definition normalmap : Z -> Z := key
  [0; 27; 49; 50; 51; 52; 53; 54; 55; 56; 57; 48; 45; 61; 8; 9;
   113; 119; 101; 114; 116; 121; 117; 105; 111; 112; 91; 93; 10; 0; 97; 115;
   100; 102; 103; 104; 106; 107; 108; 59; 39; 96; 0; 92; 122; 120; 99; 118;
   98; 110; 109; 44; 46; 47; 0; 42; 0; 32; 0; 0; 0; 0; 0; 0;
   0; 0; 0; 0; 0; 0; 0; 55; 56; 57; 45; 52; 53; 54; 43; 49;
   50; 51; 48; 46; 0; 0; 0; 0]
  ((0xC7, KEY_HOME) :: (0x9C, 10) :: (0xB5, 47) :: cursor_keys).
Definition shiftmap : Z -> Z := key
  [0; 27; 33; 64; 35; 36; 37; 94; 38; 42; 40; 41; 95; 43; 8; 9;
   81; 87; 69; 82; 84; 89; 85; 73; 79; 80; 123; 125; 10; 0; 65; 83;
   68; 70; 71; 72; 74; 75; 76; 58; 34; 126; 0; 124; 90; 88; 67; 86;
   66; 78; 77; 60; 62; 63; 0; 42; 0; 32; 0; 0; 0; 0; 0; 0;
   0; 0; 0; 0; 0; 0; 0; 55; 56; 57; 45; 52; 53; 54; 43; 49;
   50; 51; 48; 46; 0; 0; 0; 0]
  ((0xC7, KEY_HOME) :: (0x9C, 10) :: (0xB5, 47) :: cursor_keys).
(** [C(x)] is [x - '@'] as a byte. *)
Definition ctlmap : Z -> Z := key
  [0; 0; 0; 0; 0; 0; 0; 0; 0; 0; 0; 0; 0; 0; 0; 0;
   17; 23; 5; 18; 20; 25; 21; 9; 15; 16; 0; 0; 13; 0; 1; 19;
   4; 6; 7; 8; 10; 11; 12; 0; 0; 0; 0; 28; 26; 24; 3; 22;
   2; 14; 13; 0; 0; 239; 0; 0]
  ((0x97, KEY_HOME) :: (0xB5, 239) :: cursor_keys).
Definition charcode (m : Z) : Z -> Z := if m =? 0 then normalmap else if m =? 1 then shiftmap else ctlmap.

(** ** State *)

Inductive io_event := In (port : Z) | Out (port v : Z).

Record console := mk_con {
  crt_buf : list Z;
  crt_pos : Z;
  addr_6845 : Z;
  shift : Z;
  buf : list Z;
  rpos : Z;
  wpos : Z;
  serial_exists : bool;
  (** Accesses to ports, latest first. *)
  io : list io_event
}.

Definition with_crt b p s := mk_con b p (addr_6845 s) (shift s) (buf s) (rpos s) (wpos s) (serial_exists s) (io s).
Definition with_addr x s := mk_con (crt_buf s) (crt_pos s) x (shift s) (buf s) (rpos s) (wpos s) (serial_exists s) (io s).
Definition with_shift x s := mk_con (crt_buf s) (crt_pos s) (addr_6845 s) x (buf s) (rpos s) (wpos s) (serial_exists s) (io s).
Definition with_ring b r w s := mk_con (crt_buf s) (crt_pos s) (addr_6845 s) (shift s) b r w (serial_exists s) (io s).
Definition with_serial x s := mk_con (crt_buf s) (crt_pos s) (addr_6845 s) (shift s) (buf s) (rpos s) (wpos s) x (io s).
Definition with_io x s := mk_con (crt_buf s) (crt_pos s) (addr_6845 s) (shift s) (buf s) (rpos s) (wpos s) (serial_exists s) x.

Section Ops.
Context (device : list io_event -> Z -> Z).

Definition inb (port : Z) : K console Z := fun s => Ret (u8 (device (io s) port)) (with_io (In port :: io s) s).
Definition outb (port v : Z) : K console unit := kmodify (fun s => with_io (Out port (u8 v) :: io s) s).

Definition delay : K console unit := inb 0x84;;; inb 0x84;;; inb 0x84;;; inb 0x84;;; kret tt.

(** ** Serial line and parallel port *)

Definition serial_proc_data : K console Z :=
  v <-- inb (COM1 + COM_LSR);;
  if negb (flag v COM_LSR_DATA) then kret (-1) else inb (COM1 + COM_RX).

(** [for (i = 0; !(inb(port) & mask) && i < n; i++) delay();] *)
Fixpoint wait_for (n : nat) (port mask : Z) : K console unit :=
  v <-- inb port;;
  if flag v mask then kret tt else
  match n with O => kret tt | S n => delay;;; wait_for n port mask end.
Definition waits : nat := Z.to_nat 12800.

Definition serial_putc (c : Z) : K console unit :=
  wait_for waits (COM1 + COM_LSR) COM_LSR_TXRDY;;;
  outb (COM1 + COM_TX) c.

Definition serial_init : K console unit :=
  outb (COM1 + COM_FCR) 0;;;
  outb (COM1 + COM_LCR) COM_LCR_DLAB;;;
  outb (COM1 + COM_DLL) (115200 / 9600);;;
  outb (COM1 + COM_DLM) 0;;;
  outb (COM1 + COM_LCR) (Z.ldiff COM_LCR_WLEN8 COM_LCR_DLAB);;;
  outb (COM1 + COM_MCR) 0;;;
  outb (COM1 + COM_IER) COM_IER_RDI;;;
  v <-- inb (COM1 + COM_LSR);;
  kmodify (with_serial (negb (v =? 0xFF)));;;
  inb (COM1 + COM_IIR);;;
  inb (COM1 + COM_RX);;;
  kret tt.

Definition lpt_putc (c : Z) : K console unit :=
  wait_for waits (0x378 + 1) 0x80;;;
  outb (0x378 + 0) c;;;
  outb (0x378 + 2) (Z.lor (Z.lor 0x08 0x04) 0x01);;;
  outb (0x378 + 2) 0x08.

(** ** Text screen *)

(** The CGA memory, when it holds what is written to it, and the monochrome one. *)
Definition cga_init (cga : option (list Z)) (mono : list Z) : K console unit :=
  let '(cells, addr) := match cga with Some cells => (cells, CGA_BASE) | None => (mono, MONO_BASE) end in
  kmodify (with_addr addr);;;
  outb addr 14;;;
  hi <-- inb (addr + 1);;
  outb addr 15;;;
  lo <-- inb (addr + 1);;
  kmodify (with_crt cells (u16 (Z.lor (Z.shiftl hi 8) lo))).

(** A store outside the screen is out of bounds. *)
Definition put_cell (i c : Z) : K console unit := fun s =>
  if (0 <=? i) && (i <? CRT_SIZE) then Ret tt (with_crt (<[Z.to_nat i := u16 c]> (crt_buf s)) (crt_pos s) s) else Fault.
Definition set_pos (p : Z) : K console unit := kmodify (fun s => with_crt (crt_buf s) (u16 p) s).

Definition blank_cell : Z := Z.lor 0x0700 32.
Definition scrolled (b : list Z) : list Z :=
  foldl (fun b i => <[Z.to_nat i := blank_cell]> b)
    (take (Z.to_nat (CRT_SIZE - CRT_COLS)) (drop (Z.to_nat CRT_COLS) b) ++ drop (Z.to_nat (CRT_SIZE - CRT_COLS)) b)
    (seqZ (CRT_SIZE - CRT_COLS) CRT_COLS).

(** [tab]: what a tabulator does. *)
Definition cga_char (tab : K console unit) (c : Z) : K console unit :=
  let c := if Z.ldiff c 0xFF =? 0 then Z.lor c 0x0700 else c in
  s <-- kget;;
  (let k := Z.land c 0xff in
   if k =? 8 then
     if crt_pos s >? 0 then set_pos (crt_pos s - 1);;; put_cell (crt_pos s - 1) (Z.lor (Z.ldiff c 0xff) 32) else kret tt
   else if k =? 10 then let p := u16 (crt_pos s + CRT_COLS) in set_pos (p - p mod CRT_COLS)
   else if k =? 13 then set_pos (crt_pos s - crt_pos s mod CRT_COLS)
   else if k =? 9 then tab
   else put_cell (crt_pos s) c;;; set_pos (crt_pos s + 1));;;
  s <-- kget;;
  (if crt_pos s >=? CRT_SIZE then kmodify (fun s => with_crt (scrolled (crt_buf s)) (u16 (crt_pos s - CRT_COLS)) s) else kret tt);;;
  s <-- kget;;
  outb (addr_6845 s) 14;;;
  outb (addr_6845 s + 1) (Z.shiftr (crt_pos s) 8);;;
  outb (addr_6845 s) 15;;;
  outb (addr_6845 s + 1) (crt_pos s).

(** Five times [cons_putc(' ')], which is no tabulator. *)
Definition put_blank : K console unit := serial_putc 32;;; lpt_putc 32;;; cga_char kfault 32.
Definition cga_putc (c : Z) : K console unit :=
  cga_char (put_blank;;; put_blank;;; put_blank;;; put_blank;;; put_blank) c.

Definition cons_putc (c : Z) : K console unit := serial_putc c;;; lpt_putc c;;; cga_putc c.
Definition cputchar (c : Z) : K console unit := cons_putc c.
Fixpoint put_text (l : list Z) : K console unit :=
  match l with [] => kret tt | c :: l => cons_putc c;;; put_text l end.

(** ** Keyboard *)

(** [cprintf] of the text "Rebooting!" and a newline. *)
Definition reboot : K console unit :=
  put_text [82; 101; 98; 111; 111; 116; 105; 110; 103; 33; 10];;; outb 0x92 0x3.

Definition in_range (a c b : Z) : bool := (a <=? c) && (c <=? b).
Definition swap_case (sh c : Z) : Z :=
  if flag sh CAPSLOCK then
    if in_range 97 c 122 then c - 32 else if in_range 65 c 90 then c + 32 else c
  else c.

Definition kbd_proc_data : K console Z :=
  v <-- inb KBSTATP;;
  if Z.land v KBS_DIB =? 0 then kret (-1) else
  data <-- inb KBDATAP;;
  s <-- kget;;
  if data =? 0xE0 then kmodify (with_shift (Z.lor (shift s) E0ESC));;; kret 0
  else if flag data 0x80 then
    let data := if flag (shift s) E0ESC then data else Z.land data 0x7F in
    kmodify (with_shift (Z.ldiff (shift s) (Z.lor (shiftcode data) E0ESC)));;; kret 0
  else
    let '(data, sh) := if flag (shift s) E0ESC then (Z.lor data 0x80, Z.ldiff (shift s) E0ESC) else (data, shift s) in
    let sh := Z.lxor (Z.lor sh (shiftcode data)) (togglecode data) in
    kmodify (with_shift sh);;;
    let c := swap_case sh (charcode (Z.land sh (Z.lor CTL SHIFT)) data) in
    (if (Z.land sh (Z.lor CTL ALT) =? Z.lor CTL ALT) && (c =? KEY_DEL) then reboot else kret tt);;;
    kret c.

(** ** Input buffer *)

Definition cons_store (c : Z) : K console unit := fun s =>
  if wpos s <? CONSBUFSIZE then
    Ret tt (with_ring (<[Z.to_nat (wpos s) := u8 c]> (buf s)) (rpos s) (if wpos s + 1 =? CONSBUFSIZE then 0 else wpos s + 1) s)
  else Fault.

(** [while ((c = ( *proc)()) != -1)] *)
Fixpoint cons_intr (fuel : nat) (proc : K console Z) : K console unit :=
  match fuel with
  | O => khang
  | S fuel =>
      c <-- proc;;
      if c =? -1 then kret tt else
      (if c =? 0 then kret tt else cons_store c);;;
      cons_intr fuel proc
  end.

Definition serial_intr (fuel : nat) : K console unit :=
  s <-- kget;; if serial_exists s then cons_intr fuel serial_proc_data else kret tt.
Definition kbd_intr (fuel : nat) : K console unit := cons_intr fuel kbd_proc_data.

(** [pic_enable_irq(1)] of kernel/pic.c. *)
Definition pic_enable_irq (irq : Z) : K console unit :=
  let '(port, irq) := if irq <? 8 then (PIC1_DATA, irq) else (PIC2_DATA, irq - 8) in
  v <-- inb port;; outb port (Z.ldiff v (Z.shiftl 1 irq)).
Definition kbd_init (fuel : nat) : K console unit := kbd_intr fuel;;; pic_enable_irq 1.

(** The buffer, after the devices have been asked. *)
Definition cons_take : K console Z := fun s =>
  if negb (rpos s =? wpos s) then
    match (if rpos s <? CONSBUFSIZE then buf s !! Z.to_nat (rpos s) else None) with
    | Some c => Ret c (with_ring (buf s) (if rpos s + 1 =? CONSBUFSIZE then 0 else rpos s + 1) (wpos s) s)
    | None => Fault
    end
  else Ret 0 s.
Definition cons_getc (fuel : nat) : K console Z := serial_intr fuel;;; kbd_intr fuel;;; cons_take.

(** The message is "Serial port does not exist!" and a newline. *)
Definition cons_init (fuel : nat) (cga : option (list Z)) (mono : list Z) : K console unit :=
  cga_init cga mono;;;
  kbd_init fuel;;;
  serial_init;;;
  s <-- kget;;
  if negb (serial_exists s) then
    put_text [83; 101; 114; 105; 97; 108; 32; 112; 111; 114; 116; 32; 100; 111; 101; 115; 32; 110; 111; 116; 32; 101; 120; 105; 115; 116; 33; 10]
  else kret tt.

(** [getchar] waits; [fuel] also bounds its patience. *)
Fixpoint getchar_loop (patience fuel : nat) : K console Z :=
  match patience with
  | O => khang
  | S patience => c <-- cons_getc fuel;; if c =? 0 then getchar_loop patience fuel else kret c
  end.
Definition getchar (fuel : nat) : K console Z := getchar_loop fuel fuel.

End Ops.

(** ** The line editor (lib/readline.c)

    For any source of characters and any echo; [iscons] is 1.  [line] is [buf[0..i-1]]. *)
Section Readline.
Context {S : Type} (getchar : K S Z) (cputchar : Z -> K S unit).
Definition BUFLEN : Z := 1024.

(** [None]: a read error. *)
Fixpoint readline_loop (fuel : nat) (line : list Z) : K S (option (list Z)) :=
  match fuel with
  | O => khang
  | Datatypes.S fuel =>
      c <-- getchar;;
      let i := Z.of_nat (length line) in
      if c <? 0 then kret None
      else if ((c =? 8) || (c =? 127)) && (i >? 0) then cputchar 8;;; readline_loop fuel (take (length line - 1) line)
      else if (c >=? 32) && (i <? BUFLEN - 1) then cputchar c;;; readline_loop fuel (line ++ [u8 c])
      else if (c =? 10) || (c =? 13) then cputchar 10;;; kret (Some line)
      else readline_loop fuel line
  end.
Definition readline (fuel : nat) : K S (option (list Z)) := readline_loop fuel [].
End Readline.
