(* ===== verification/ConsoleThm.v ===== *)
(** * The console: what the operations of Console.v compute

    The screen always shows what a reference typewriter shows and is never written
    outside; typed characters come out in the order they went in, as long as fewer than
    512 are waiting; the line editor applies its rules to a bounded line. *)

From Stdlib Require Import ZArith Lia.
From stdpp Require Import strings base list.
From S2P Require Import Prelude Console.

#[local] Open Scope Z_scope.
#[local] Open Scope kernel_scope.

(** ** The screen *)

Lemma fill_tail {A} (x : A) l1 l2 :
  foldl (fun b i => <[Z.to_nat i := x]> b) (l1 ++ l2) (seqZ (Z.of_nat (length l1)) (Z.of_nat (length l2))) = l1 ++ replicate (length l2) x.
Proof.
  revert l1. induction l2 as [|y l2 IH]; intros l1; [done|]. cbn [length]. rewrite seqZ_cons by lia. cbn [foldl].
  rewrite Nat2Z.id, insert_app_r_alt, Nat.sub_diag by lia. cbn [insert list_insert].
  replace (l1 ++ x :: l2) with ((l1 ++ [x]) ++ l2) by (by rewrite <- app_assoc).
  replace (Z.succ (Z.of_nat (length l1))) with (Z.of_nat (length (l1 ++ [x]))) by (rewrite length_app; simpl; lia).
  replace (Z.pred (Z.of_nat (Datatypes.S (length l2)))) with (Z.of_nat (length l2)) by lia. rewrite IH, <- app_assoc. done.
Qed.

Lemma scrolled_spec b : length b = 2000%nat -> scrolled b = drop 80 b ++ replicate 80 blank_cell.
Proof.
  intros Hb. unfold scrolled. change (Z.to_nat (CRT_SIZE - CRT_COLS)) with 1920%nat. change (Z.to_nat CRT_COLS) with 80%nat.
  rewrite take_ge by (rewrite length_drop; lia).
  assert (length (drop 80 b) = 1920%nat) as H1 by (rewrite length_drop; lia).
  assert (length (drop 1920 b) = 80%nat) as H2 by (rewrite length_drop; lia).
  change (CRT_SIZE - CRT_COLS) with 1920. change CRT_COLS with 80. pose proof (fill_tail blank_cell (drop 80 b) (drop 1920 b)) as Hf.
  rewrite H1, H2 in Hf. exact Hf.
Qed.

(** The typewriter: cells and cursor. *)
Definition page : Type := list Z * Z.
Definition colour (c : Z) : Z := if Z.ldiff c 0xFF =? 0 then Z.lor c 0x0700 else c.
Definition scroll (t : page) : page :=
  if snd t >=? CRT_SIZE then (drop 80 (fst t) ++ replicate 80 blank_cell, snd t - CRT_COLS) else t.
Definition type_char (c : Z) (t : page) : page :=
  let c := colour c in
  let '(b, p) := t in
  let k := Z.land c 0xff in
  scroll (if k =? 8 then if p >? 0 then (<[Z.to_nat (p - 1) := u16 (Z.lor (Z.ldiff c 0xff) 32)]> b, p - 1) else (b, p)
    else if k =? 10 then (b, p + CRT_COLS - (p + CRT_COLS) mod CRT_COLS)
    else if k =? 13 then (b, p - p mod CRT_COLS)
    else (<[Z.to_nat p := u16 c]> b, p + 1)).
Definition type (c : Z) (t : page) : page :=
  if Z.land (colour c) 0xff =? 9 then scroll (Nat.iter 5 (type_char 32) t) else type_char c t.

Definition page_of (s : console) : page := (crt_buf s, crt_pos s).
Definition page_ok (t : page) : Prop := length (fst t) = 2000%nat /\ 0 <= snd t < CRT_SIZE.

Lemma scroll_ok b p : length b = 2000%nat -> 0 <= p < CRT_SIZE + CRT_COLS -> page_ok (scroll (b, p)).
Proof.
  intros Hb Hp. unfold scroll, page_ok. change CRT_SIZE with 2000 in *. change CRT_COLS with 80 in *. cbn [fst snd].
  destruct (p >=? 2000) eqn:Hg; cbn [fst snd]; (split; [|lia]); [|done]. rewrite length_app, length_drop, length_replicate. lia.
Qed.

Lemma type_char_ok c t : page_ok t -> page_ok (type_char c t).
Proof.
  destruct t as [b p]. intros [Hb Hp]. simpl in Hb, Hp. unfold type_char.
  assert (0 < CRT_COLS) as Hc by (unfold CRT_COLS; lia). assert (0 <= p + CRT_COLS) as Hpc by lia.
  pose proof (Z.mod_pos_bound (p + CRT_COLS) CRT_COLS Hc). pose proof (Z.mod_pos_bound p CRT_COLS Hc).
  pose proof (Z.mod_le p CRT_COLS (proj1 Hp) Hc). pose proof (Z.mod_le (p + CRT_COLS) CRT_COLS Hpc Hc).
  destruct (_ =? 8); [destruct (Z.gtb_spec p 0)|destruct (_ =? 10); [|destruct (_ =? 13)]]; apply scroll_ok; rewrite ?length_insert; try done; lia.
Qed.

(** Nothing but the screen and the record of port accesses changes. *)
Record same_input (s s' : console) : Prop := {
  si_buf : buf s' = buf s; si_rpos : rpos s' = rpos s; si_wpos : wpos s' = wpos s;
  si_shift : shift s' = shift s; si_serial : serial_exists s' = serial_exists s; si_addr : addr_6845 s' = addr_6845 s
}.
Lemma same_input_refl s : same_input s s.
Proof. by constructor. Qed.
Lemma same_input_trans s s' s'' : same_input s s' -> same_input s' s'' -> same_input s s''.
Proof. intros [] []. constructor; congruence. Qed.

Section Screen.
Context (device : list io_event -> Z -> Z).

(** Port traffic only. *)
Definition quiet {A} (m : K console A) : Prop :=
  forall s, exists a s', m s = Ret a s' /\ page_of s' = page_of s /\ same_input s s'.

Lemma quiet_bind {A B} (m : K console A) (f : A -> K console B) : quiet m -> (forall a, quiet (f a)) -> quiet (kbind m f).
Proof.
  intros Hm Hf s. destruct (Hm s) as (a & s1 & E1 & P1 & I1). destruct (Hf a s1) as (b & s2 & E2 & P2 & I2).
  exists b, s2. rewrite (krun _ _ _ _ _ E1). split; [done|]. split; [congruence|]. by eapply same_input_trans.
Qed.
Lemma quiet_ret {A} (a : A) : quiet (kret a).
Proof. intros s. exists a, s. split; [done|]. split; [done|apply same_input_refl]. Qed.
Lemma quiet_inb p : quiet (inb device p).
Proof. intros s. eexists _, _. split; [reflexivity|]. by split. Qed.
Lemma quiet_outb p v : quiet (outb p v).
Proof. intros s. eexists _, _. split; [reflexivity|]. by split. Qed.
Lemma quiet_delay : quiet (delay device).
Proof. unfold delay. repeat (apply quiet_bind; [apply quiet_inb|intros _]). apply quiet_ret. Qed.
Lemma quiet_wait n p m : quiet (wait_for device n p m).
Proof.
  induction n as [|n IH]; simpl; (apply quiet_bind; [apply quiet_inb|intros v]); (destruct (flag v m); [apply quiet_ret|]); [apply quiet_ret|].
  apply quiet_bind; [apply quiet_delay|intros _; apply IH].
Qed.
Lemma quiet_serial c : quiet (serial_putc device c).
Proof. unfold serial_putc. apply quiet_bind; [apply quiet_wait|intros _; apply quiet_outb]. Qed.
Lemma quiet_lpt c : quiet (lpt_putc device c).
Proof. unfold lpt_putc. apply quiet_bind; [apply quiet_wait|intros _]. repeat (apply quiet_bind; [apply quiet_outb|intros _]). apply quiet_outb. Qed.

(** [types m f]: on a good page, [m] returns and does [f] to the page. *)
Definition types {A} (m : K console A) (f : page -> page) : Prop :=
  forall s, page_ok (page_of s) -> exists a s', m s = Ret a s' /\ page_of s' = f (page_of s) /\ page_ok (page_of s') /\ same_input s s'.

Lemma types_quiet {A} (m : K console A) : quiet m -> types m id.
Proof. intros Hm s Hs. destruct (Hm s) as (a & s' & E & P & I). exists a, s'. rewrite P. split; [done|]. split; [done|]. by split. Qed.
Lemma types_bind {A B} (m : K console A) (g : K console B) f1 f2 : types m f1 -> types g f2 -> types (m;;; g) (fun t => f2 (f1 t)).
Proof.
  intros Hm Hg s Hs. destruct (Hm s Hs) as (a & s1 & E1 & P1 & O1 & I1). destruct (Hg s1 O1) as (b & s2 & E2 & P2 & O2 & I2).
  exists b, s2. rewrite (krun _ _ _ _ _ E1). split; [done|]. split; [by rewrite P2, P1|]. split; [done|]. by eapply same_input_trans.
Qed.

(** What follows the switch: scrolling and moving the cursor. *)
Definition finish : K console unit :=
  s <-- kget;;
  (if crt_pos s >=? CRT_SIZE then kmodify (fun s => with_crt (scrolled (crt_buf s)) (u16 (crt_pos s - CRT_COLS)) s) else kret tt);;;
  s <-- kget;;
  outb (addr_6845 s) 14;;;
  outb (addr_6845 s + 1) (Z.shiftr (crt_pos s) 8);;;
  outb (addr_6845 s) 15;;;
  outb (addr_6845 s + 1) (crt_pos s).

Lemma u16_small x : 0 <= x < 65536 -> u16 x = x.
Proof. intros H. unfold u16. by apply Z.mod_small. Qed.

Lemma finish_ok s : length (crt_buf s) = 2000%nat -> 0 <= crt_pos s < CRT_SIZE + CRT_COLS ->
  exists s', finish s = Ret tt s' /\ page_of s' = scroll (page_of s) /\ same_input s s'.
Proof.
  intros Hl Hp. unfold finish, kget. unfold kbind at 1. change CRT_SIZE with 2000 in *. change CRT_COLS with 80 in *.
  assert (exists s1, (if crt_pos s >=? 2000 then kmodify (fun s => with_crt (scrolled (crt_buf s)) (u16 (crt_pos s - 80)) s) else kret tt) s = Ret tt s1
    /\ page_of s1 = scroll (page_of s) /\ same_input s s1) as (s1 & E1 & P1 & I1).
  { unfold scroll, page_of. change CRT_SIZE with 2000. change CRT_COLS with 80. cbn [fst snd]. destruct (crt_pos s >=? 2000) eqn:Hg.
    - eexists. split; [reflexivity|]. split; [|by split]. cbn. by rewrite scrolled_spec, u16_small by (try done; lia).
    - exists s. split; [done|]. split; [done|apply same_input_refl]. }
  rewrite (krun _ _ _ _ _ E1). unfold kbind at 1.
  destruct (quiet_bind _ _ (quiet_outb (addr_6845 s1) 14) (fun _ => quiet_bind _ _ (quiet_outb (addr_6845 s1 + 1) (Z.shiftr (crt_pos s1) 8))
    (fun _ => quiet_bind _ _ (quiet_outb (addr_6845 s1) 15) (fun _ => quiet_outb (addr_6845 s1 + 1) (crt_pos s1)))) s1) as ([] & s2 & E2 & P2 & I2).
  exists s2. split; [exact E2|]. split; [congruence|]. by eapply same_input_trans.
Qed.

(** The characters that are no tabulator. *)
Lemma cga_char_ok tab c : (Z.land (colour c) 0xff =? 9) = false -> types (cga_char tab c) (type_char c).
Proof.
  intros Ht s Hs. pose proof (type_char_ok c _ Hs) as Hok. destruct Hs as [Hl Hp]. cbn [page_of fst snd] in Hl, Hp.
  assert (exists t s1, page_of s1 = t /\ length (fst t) = 2000%nat /\ 0 <= snd t < CRT_SIZE + CRT_COLS /\ same_input s s1
    /\ cga_char tab c s = finish s1 /\ type_char c (page_of s) = scroll t) as (t & s1 & P1 & Hl1 & Hp1 & I1 & E1 & Et).
  { unfold type_char, cga_char, kget, page_of. unfold kbind at 1. fold (colour c). rewrite Ht.
    change CRT_SIZE with 2000 in *. change CRT_COLS with 80 in *.
    pose proof (Z.mod_pos_bound (crt_pos s + 80) 80 ltac:(lia)). pose proof (Z.mod_pos_bound (crt_pos s) 80 ltac:(lia)).
    pose proof (Z.mod_le (crt_pos s) 80 ltac:(lia) ltac:(lia)). pose proof (Z.mod_le (crt_pos s + 80) 80 ltac:(lia) ltac:(lia)).
    destruct (Z.land (colour c) 255 =? 8).
    - destruct (crt_pos s >? 0) eqn:Hg.
      + eexists (_, _), (with_crt (<[Z.to_nat (crt_pos s - 1) := u16 (Z.lor (Z.ldiff (colour c) 255) 32)]> (crt_buf s)) (crt_pos s - 1) s).
        split; [reflexivity|]. cbn [fst snd with_crt crt_buf crt_pos]. rewrite length_insert.
        split; [done|]. split; [lia|]. split; [by split|]. split; [|done].
        unfold kbind at 1, set_pos at 1, kmodify at 1, put_cell at 1. unfold kbind at 1. cbn [with_crt crt_buf crt_pos].
        change CRT_SIZE with 2000. rewrite (u16_small (crt_pos s - 1)) by lia.
        destruct ((0 <=? crt_pos s - 1) && (crt_pos s - 1 <? 2000)) eqn:Hb; [done|lia].
      + exists (crt_buf s, crt_pos s), s. split; [done|]. split; [done|]. split; [cbn; lia|]. split; [apply same_input_refl|]. by split.
    - destruct (Z.land (colour c) 255 =? 10).
      + exists (crt_buf s, crt_pos s + 80 - (crt_pos s + 80) mod 80), (with_crt (crt_buf s) (crt_pos s + 80 - (crt_pos s + 80) mod 80) s).
        split; [done|]. split; [done|]. split; [cbn; lia|]. split; [by split|]. split; [|done]. unfold kbind at 1, set_pos at 1, kmodify at 1. 
        rewrite (u16_small (crt_pos s + 80)) by lia. rewrite u16_small by lia. done.
      + destruct (Z.land (colour c) 255 =? 13).
        * exists (crt_buf s, crt_pos s - crt_pos s mod 80), (with_crt (crt_buf s) (crt_pos s - crt_pos s mod 80) s).
          split; [done|]. split; [done|]. split; [cbn; lia|]. split; [by split|]. split; [|done]. unfold kbind at 1, set_pos at 1, kmodify at 1. by rewrite u16_small by lia.
        * exists (<[Z.to_nat (crt_pos s) := u16 (colour c)]> (crt_buf s), crt_pos s + 1),
            (with_crt (<[Z.to_nat (crt_pos s) := u16 (colour c)]> (crt_buf s)) (crt_pos s + 1) s).
          split; [done|]. cbn [fst snd]. rewrite length_insert. split; [done|]. split; [lia|]. split; [by split|]. split; [|done].
          unfold kbind at 1, put_cell at 1. unfold kbind at 1, set_pos at 1, kmodify at 1. change CRT_SIZE with 2000.
          destruct ((0 <=? crt_pos s) && (crt_pos s <? 2000)) eqn:Hb; [|lia]. cbn [with_crt crt_buf crt_pos]. by rewrite (u16_small (crt_pos s + 1)) by lia. }
  destruct (finish_ok s1) as (s2 & E2 & P2 & I2); [by rewrite <- P1 in Hl1|by rewrite <- P1 in Hp1|].
  exists tt, s2. rewrite E1, P2, P1, <- Et. split; [done|]. split; [done|]. split; [done|]. by eapply same_input_trans.
Qed.

Lemma put_blank_ok : types (put_blank device) (type_char 32).
Proof.
  unfold put_blank. apply (types_bind _ _ id); [apply types_quiet, quiet_serial|].
  apply (types_bind _ _ id); [apply types_quiet, quiet_lpt|]. by apply cga_char_ok.
Qed.

Lemma cga_putc_ok c : types (cga_putc device c) (type c).
Proof.
  unfold cga_putc, type. destruct (Z.land (colour c) 0xff =? 9) eqn:Ht; [|by apply cga_char_ok]. apply Z.eqb_eq in Ht. set (tab := put_blank device;;; _).
  assert (types tab (Nat.iter 5 (type_char 32))) as Htab.
  { pose proof put_blank_ok as Hb.
    exact (types_bind _ _ _ _ Hb (types_bind _ _ _ _ Hb (types_bind _ _ _ _ Hb (types_bind _ _ _ _ Hb Hb)))). }
  intros s Hs. destruct (Htab s Hs) as (a & s1 & E1 & P1 & O1 & I1). destruct (finish_ok s1) as (s2 & E2 & P2 & I2).
  { apply O1. }
  { destruct O1 as [_ O1]. unfold CRT_SIZE, CRT_COLS in *. cbn in O1. lia. }
  exists tt, s2. split; [|split; [by rewrite P2, P1|split; [|by eapply same_input_trans]]].
  - unfold cga_char, kget. unfold kbind at 1. fold (colour c). rewrite Ht. change (9 =? 8) with false. change (9 =? 10) with false.
    change (9 =? 13) with false. change (9 =? 9) with true. cbn iota. rewrite (krun _ _ _ _ _ E1). exact E2.
  - rewrite P2. destruct (page_of s1) as [b p] eqn:Ep, O1 as [O1 O2]. apply scroll_ok; [exact O1|]. cbn in O2. unfold CRT_SIZE, CRT_COLS in *. lia.
Qed.

Lemma cons_putc_ok c : types (cons_putc device c) (type c).
Proof.
  unfold cons_putc. apply (types_bind _ _ id); [apply types_quiet, quiet_serial|].
  apply (types_bind _ _ id); [apply types_quiet, quiet_lpt|]. apply cga_putc_ok.
Qed.

(** C31 (equivalence): printing a character does to the screen exactly what the reference
    typewriter does (write and advance, backspace, line feed, carriage return, five blanks
    for a tabulator, scrolling by one row at the end); it always returns, whatever the
    devices answer, the cursor stays on the screen, no store is outside it, and the state
    of the input side is untouched. *)
Theorem cons_putc_correct (c : Z) (s : console) : page_ok (page_of s) ->
  exists s', cons_putc device c s = Ret tt s' /\ page_of s' = type c (page_of s) /\ page_ok (page_of s') /\ same_input s s'.
Proof. intros Hs. destruct (cons_putc_ok c s Hs) as ([] & s' & H). by exists s'. Qed.

End Screen.

(** The last cell of the screen is written: everything moves up. *)
Definition demo_console : console := mk_con (replicate 2000 blank_cell) 1999 CGA_BASE 0 (replicate 512 0) 510 510 true [].
Lemma cons_putc_correct_witness : exists s', cons_putc (fun _ _ => 255) 65 demo_console = Ret tt s'
  /\ page_of s' = type 65 (page_of demo_console) /\ page_ok (page_of s').
Proof.
  destruct (cons_putc_correct (fun _ _ => 255) 65 demo_console) as (s' & E & P & O & _); [by split|]. exists s'. exact (conj E (conj P O)).
Defined.

Example demo_type : snd (type 65 (page_of demo_console)) = 1920 /\ fst (type 65 (page_of demo_console)) !! 1919%nat = Some 0x741.
Proof. vm_compute. by split. Qed.

(** ** The input buffer as a queue *)

(** The characters waiting, oldest first: at most 511, between the two positions. *)
Record ring_ok (s : console) (q : list Z) : Prop := {
  rg_length : length (buf s) = 512%nat;
  rg_rpos : 0 <= rpos s < 512;
  rg_wpos : wpos s = (rpos s + Z.of_nat (length q)) mod 512;
  rg_small : (length q < 512)%nat;
  rg_elems : forall i c, q !! i = Some c -> buf s !! Z.to_nat ((rpos s + Z.of_nat i) mod 512) = Some c
}.

Lemma next_pos p : 0 <= p < 512 -> (if p + 1 =? 512 then 0 else p + 1) = (p + 1) mod 512.
Proof. intros Hp. destruct (Z.eqb_spec (p + 1) 512) as [->|]; [done|]. rewrite Z.mod_small; lia. Qed.

Lemma cons_store_ok s q c : ring_ok s q -> (length q < 511)%nat ->
  exists s', cons_store c s = Ret tt s' /\ ring_ok s' (q ++ [u8 c])
    /\ s' = with_ring (<[Z.to_nat (wpos s) := u8 c]> (buf s)) (rpos s) (wpos s') s.
Proof.
  intros [Hl Hr Hw Hs He] Hq. unfold cons_store. change CONSBUFSIZE with 512.
  pose proof (Z.mod_pos_bound (rpos s + Z.of_nat (length q)) 512 ltac:(lia)) as Hwb.
  destruct (wpos s <? 512) eqn:Hlt; [|lia]. eexists. split; [reflexivity|]. split; [|done]. constructor; cbn [with_ring buf rpos wpos].
  - by rewrite length_insert.
  - done.
  - rewrite next_pos by lia. rewrite Hw, Zplus_mod_idemp_l, length_app. f_equal. simpl. lia.
  - rewrite length_app. simpl. lia.
  - intros i d Hi. destruct (decide (i = length q)) as [->|Hne].
    + rewrite lookup_app_r, Nat.sub_diag in Hi by lia. injection Hi as <-. rewrite <- Hw. apply list_lookup_insert_eq. lia.
    + assert (i < length q)%nat as Hi'. { apply lookup_lt_Some in Hi. rewrite length_app in Hi. simpl in Hi. lia. }
      rewrite lookup_app_l in Hi by done. rewrite list_lookup_insert_ne; [by apply He|].
      rewrite Hw. pose proof (Z.mod_pos_bound (rpos s + Z.of_nat i) 512 ltac:(lia)). intros E0.
      apply Z2Nat.inj in E0; [|lia|lia]. pose proof (Z.div_mod (rpos s + Z.of_nat i) 512 ltac:(lia)).
      pose proof (Z.div_mod (rpos s + Z.of_nat (length q)) 512 ltac:(lia)). lia.
Qed.

Lemma cons_take_nil s : ring_ok s [] -> cons_take s = Ret 0 s.
Proof.
  intros [_ Hr Hw _ _]. unfold cons_take. rewrite Hw. simpl. rewrite Z.add_0_r, Z.mod_small by lia. by rewrite Z.eqb_refl.
Qed.

Lemma cons_take_cons s c q : ring_ok s (c :: q) -> exists s', cons_take s = Ret c s' /\ ring_ok s' q.
Proof.
  intros [Hl Hr Hw Hs He]. unfold cons_take. change CONSBUFSIZE with 512. cbn [length] in *.
  destruct (Z.eqb_spec (rpos s) (wpos s)) as [E0|E0]; cbn [negb].
  { pose proof (Z.div_mod (rpos s + Z.of_nat (S (length q))) 512 ltac:(lia)). lia. }
  destruct (rpos s <? 512) eqn:Hlt; [|lia]. pose proof (He O c eq_refl) as H0. rewrite Z.add_0_r, Z.mod_small in H0 by lia. rewrite H0.
  eexists. split; [reflexivity|]. rewrite next_pos by done. constructor; cbn [with_ring buf rpos wpos].
  - done.
  - apply Z.mod_pos_bound. lia.
  - rewrite Hw, Zplus_mod_idemp_l. f_equal. lia.
  - lia.
  - intros i d Hi. rewrite Zplus_mod_idemp_l. specialize (He (S i) d Hi).
    replace (rpos s + 1 + Z.of_nat i) with (rpos s + Z.of_nat (S i)) by lia. done.
Qed.

(** A computation that does not look at the buffer. *)
Definition put_ring (r : console) (s : console) : console := with_ring (buf r) (rpos r) (wpos r) s.
Definition blind {A} (m : K console A) : Prop :=
  forall r s, m (put_ring r s) = match m s with
    | Ret a s' => Ret a (put_ring r s')
    | NoReturn s' => NoReturn (put_ring r s')
    | Panic => Panic | Fault => Fault | Hang => Hang
    end.

Lemma blind_bind {A B} (m : K console A) (f : A -> K console B) : blind m -> (forall a, blind (f a)) -> blind (kbind m f).
Proof. intros Hm Hf r s. unfold kbind. rewrite Hm. destruct (m s); try done. apply Hf. Qed.
Lemma blind_get {B} (g : console -> K console B) : (forall r s, g (put_ring r s) = g s) -> (forall s, blind (g s)) -> blind (kbind kget g).
Proof. intros Hg Hb r s. unfold kbind, kget. rewrite Hg. apply Hb. Qed.
Lemma blind_ret {A} (a : A) : blind (kret a).
Proof. done. Qed.
Lemma blind_if {A} (b : bool) (m m' : K console A) : blind m -> blind m' -> blind (if b then m else m').
Proof. by destruct b. Qed.

Lemma ring_put r s s' q : ring_ok (put_ring r s) q -> ring_ok (put_ring r s') q.
Proof. intros [A B C D E]. exact (Build_ring_ok (put_ring r s') q A B C D E). Qed.

Section Input.
Context (device : list io_event -> Z -> Z).

Ltac blind := repeat first
  [ assumption | apply blind_ret | (intros; reflexivity) | apply blind_bind | apply blind_if | apply blind_get | progress intros | done ].

Lemma blind_inb p : blind (inb device p).
Proof. done. Qed.
Lemma blind_outb p v : blind (outb p v).
Proof. done. Qed.
Lemma blind_modify f : (forall r s, f (put_ring r s) = put_ring r (f s)) -> blind (kmodify f).
Proof. intros Hf r s. unfold kmodify. by rewrite Hf. Qed.
Lemma blind_serial_data : blind (serial_proc_data device).
Proof. unfold serial_proc_data. blind. Qed.
Lemma blind_wait n p m : blind (wait_for device n p m).
Proof. induction n as [|n IH]; simpl; unfold delay; blind. Qed.
Lemma blind_cell i c : blind (put_cell i c).
Proof. intros r s. unfold put_cell. by destruct ((0 <=? i) && (i <? CRT_SIZE)). Qed.
Lemma blind_serial c : blind (serial_putc device c).
Proof. apply blind_bind; [apply blind_wait|blind]. Qed.
Lemma blind_lpt c : blind (lpt_putc device c).
Proof. apply blind_bind; [apply blind_wait|blind]. Qed.
Lemma blind_cga_char tab c : blind tab -> blind (cga_char tab c).
Proof.
  intros Ht. unfold cga_char. apply blind_get; [done|]. intros s. apply blind_bind.
  - cbv zeta. repeat (apply blind_if); repeat (apply blind_bind; [|intros _]); first [done | apply blind_cell | apply blind_ret].
  - intros _. apply blind_get; [done|]. intros s'. apply blind_bind; [by apply blind_if|]. intros _. apply blind_get; [done|]. intros s''.
    repeat (apply blind_bind; [apply blind_outb|intros _]). apply blind_outb.
Qed.
Lemma blind_putc c : blind (cons_putc device c).
Proof.
  assert (blind (put_blank device)) as Hb.
  { unfold put_blank. apply blind_bind; [apply blind_serial|intros _]. apply blind_bind; [apply blind_lpt|intros _]. by apply blind_cga_char. }
  unfold cons_putc. apply blind_bind; [apply blind_serial|intros _]. apply blind_bind; [apply blind_lpt|intros _].
  apply blind_cga_char. repeat (apply blind_bind; [exact Hb|intros _]). exact Hb.
Qed.
Lemma blind_text l : blind (put_text device l).
Proof. induction l as [|c l IH]; simpl; [apply blind_ret|]. apply blind_bind; [apply blind_putc|intros _; exact IH]. Qed.
Lemma blind_kbd_data : blind (kbd_proc_data device).
Proof.
  unfold kbd_proc_data. apply blind_bind; [done|]. intros v. apply blind_if; [done|]. apply blind_bind; [done|]. intros d.
  apply blind_get; [done|]. intros s. repeat apply blind_if; try (apply blind_bind; [done|intros _; apply blind_ret]).
  destruct (if flag (shift s) E0ESC then _ else _) as [d' sh]. apply blind_bind; [done|]. intros _. apply blind_bind; [|intros _; apply blind_ret].
  apply blind_if; [|apply blind_ret]. unfold reboot. apply blind_bind; [apply blind_text|intros _; apply blind_outb].
Qed.

(** What a device has to say, until it has nothing; 0 is no character. *)
Fixpoint drain (fuel : nat) (proc : K console Z) (s : console) : option (list Z * console) :=
  match fuel with
  | O => None
  | Datatypes.S fuel =>
      match proc s with
      | Ret c s' => if c =? -1 then Some ([], s') else '(cs, s'') ← drain fuel proc s'; Some (c :: cs, s'')
      | _ => None
      end
  end.
Definition typed (cs : list Z) : list Z := u8 <$> filter (fun c => c <> 0) cs.

Lemma cons_intr_ok proc : blind proc -> forall fuel s cs s1 q r, drain fuel proc s = Some (cs, s1) -> ring_ok (put_ring r s) q ->
  (length q + length (typed cs) < 512)%nat ->
  exists r', cons_intr fuel proc (put_ring r s) = Ret tt (put_ring r' s1) /\ ring_ok (put_ring r' s1) (q ++ typed cs).
Proof.
  intros Hb. induction fuel as [|fuel IH]; intros s cs s1 q r Hd Hr Hl; [done|]. cbn [drain] in Hd. cbn [cons_intr].
  unfold kbind at 1. rewrite Hb. destruct (proc s) as [c s'| | | |]; try done. destruct (c =? -1).
  - injection Hd as <- <-. exists r. split; [done|]. rewrite app_nil_r. by eapply ring_put.
  - destruct (drain fuel proc s') as [[cs' s'']|] eqn:Hd'; [|done]. injection Hd as <- <-.
    assert (ring_ok (put_ring r s') q) as Hr' by (by eapply ring_put).
    unfold typed in *. rewrite filter_cons in *. destruct (Z.eqb_spec c 0) as [->|Hc].
    + rewrite decide_False in * by tauto. rewrite kret_run. by apply (IH s').
    + rewrite decide_True in * by done. cbn [fmap list_fmap length] in *.
      destruct (cons_store_ok _ _ c Hr') as (t & E1 & R1 & Et); [lia|]. rewrite (krun _ _ _ _ _ E1).
      assert (t = put_ring t s') as Ht by (rewrite Et; reflexivity).
      destruct (IH s' cs' s'' (q ++ [u8 c]) t Hd') as (r' & E2 & R2).
      * by rewrite <- Ht.
      * rewrite length_app. simpl. unfold fmap in *. lia.
      * rewrite <- Ht in E2. exists r'. split; [exact E2|]. by rewrite <- app_assoc in R2.
Qed.

Lemma put_ring_self s : put_ring s s = s.
Proof. by destruct s. Qed.

(** What the serial line and the keyboard have to say when [cons_getc] asks them. *)
Definition arrivals (fuel : nat) (s : console) : option (list Z * console) :=
  '(cs1, s1) ← if serial_exists s then drain fuel (serial_proc_data device) s else Some ([], s);
  '(cs2, s2) ← drain fuel (kbd_proc_data device) s1;
  Some (typed cs1 ++ typed cs2, s2).

(** Fact (refinement): the input buffer refines a queue of at most 511 characters.  [cons_getc]
    appends what the serial line and then the keyboard have to say, less zeroes, and
    returns the oldest character waiting, or 0 when there is none; as long as fewer than
    512 characters are waiting none is lost and their order is kept. *)
Theorem cons_getc_fifo (fuel : nat) (s s2 : console) (q new : list Z) :
  ring_ok s q -> arrivals fuel s = Some (new, s2) -> (length (q ++ new) < 512)%nat ->
  exists s', cons_getc device fuel s = Ret (default 0 (head (q ++ new))) s' /\ ring_ok s' (tail (q ++ new)).
Proof.
  intros Hr Ha Hl. unfold arrivals in Ha. unfold cons_getc, serial_intr.
  destruct (if serial_exists s then _ else _) as [[cs1 s1]|] eqn:E1; [|done]. cbn [mbind option_bind] in Ha.
  destruct (drain fuel (kbd_proc_data device) s1) as [[cs2 s2']|] eqn:E2; [|done]. cbn [mbind option_bind] in Ha. injection Ha as <- <-.
  rewrite !length_app in Hl.
  assert (exists r1, (s <-- kget;; if serial_exists s then cons_intr fuel (serial_proc_data device) else kret tt) s = Ret tt (put_ring r1 s1)
    /\ ring_ok (put_ring r1 s1) (q ++ typed cs1)) as (r1 & F1 & R1).
  { unfold kget. unfold kbind at 1. destruct (serial_exists s).
    - destruct (cons_intr_ok _ (blind_serial_data) fuel s cs1 s1 q s E1) as (r1 & F1 & R1); [by rewrite put_ring_self|lia|].
      rewrite put_ring_self in F1. by exists r1.
    - injection E1 as <- <-. exists s. rewrite put_ring_self, app_nil_r. done. }
  rewrite (krun _ _ _ _ _ F1).
  destruct (cons_intr_ok _ (blind_kbd_data) fuel s1 cs2 s2' (q ++ typed cs1) r1 E2 R1) as (r2 & F2 & R2); [rewrite length_app; lia|].
  unfold kbd_intr. rewrite (krun _ _ _ _ _ F2). rewrite <- app_assoc in R2. destruct (q ++ typed cs1 ++ typed cs2) as [|c rest].
  - exists (put_ring r2 s2'). by rewrite cons_take_nil.
  - destruct (cons_take_cons _ _ _ R2) as (s' & F3 & R3). by exists s'.
Qed.

(** Fact: a character more and the whole buffer is lost. *)
Lemma cons_overflow_loses_all (s : console) (q : list Z) (c : Z) : ring_ok s q -> length q = 511%nat ->
  exists s', cons_store c s = Ret tt s' /\ ring_ok s' [].
Proof.
  intros [Hl Hr Hw Hs He] Hq. unfold cons_store. change CONSBUFSIZE with 512.
  pose proof (Z.mod_pos_bound (rpos s + Z.of_nat (length q)) 512 ltac:(lia)) as Hwb.
  destruct (wpos s <? 512) eqn:Hlt; [|lia]. eexists. split; [reflexivity|]. constructor; cbn [with_ring buf rpos wpos]; try done.
  - by rewrite length_insert.
  - rewrite next_pos by lia. rewrite Hw, Zplus_mod_idemp_l, Hq. cbn [length].
    replace (rpos s + Z.of_nat 511 + 1) with (rpos s + Z.of_nat 0 + 1 * 512) by lia. apply Z_mod_plus_full.
  - simpl. lia.
Qed.

End Input.

(** The serial line says [A], then nothing; the buffer holds two characters across its end. *)
Definition demo_line (io : list io_event) (port : Z) : Z :=
  let said := existsb (fun e => match e with In p => p =? COM1 + COM_RX | _ => false end) io in
  if port =? COM1 + COM_LSR then (if said then 0 else 1) else if port =? COM1 + COM_RX then 65 else 0.
Definition demo_typed : console :=
  mk_con (replicate 2000 blank_cell) 0 CGA_BASE 0 (<[511%nat := 88]> (<[0%nat := 89]> (replicate 512 0))) 511 1 true [].

Lemma cons_getc_fifo_witness : exists s', cons_getc demo_line 9 demo_typed = Ret 88 s' /\ ring_ok s' [89; 65].
Proof.
  destruct (arrivals demo_line 9 demo_typed) as [[new s2]|] eqn:E; [|vm_compute in E; discriminate].
  assert (new = [65]) as -> by (vm_compute in E; congruence).
  destruct (cons_getc_fifo demo_line 9 demo_typed s2 [88; 89] [65]) as (s' & E1 & R).
  - constructor; [reflexivity|simpl; lia|reflexivity|simpl; lia|].
    intros [|[|i]] c Hi; [by injection Hi as <-|by injection Hi as <-|done].
  - exact E.
  - simpl. lia.
  - exists s'. exact (conj E1 R).
Defined.

(** ** The line editor *)

(** One typed character, other than the end of the line. *)
Definition edit (line : list Z) (c : Z) : list Z :=
  if ((c =? 8) || (c =? 127)) && (Z.of_nat (length line) >? 0) then take (length line - 1) line
  else if (c >=? 32) && (Z.of_nat (length line) <? BUFLEN - 1) then line ++ [u8 c] else line.

(** Characters typed ahead. *)
Definition next_typed : K (list Z) Z := fun s => match s with [] => Hang | c :: s => Ret c s end.

Lemma edit_bound line c : (length line < 1024)%nat -> (length (edit line c) < 1024)%nat.
Proof.
  intros Hl. unfold edit. change (BUFLEN - 1) with 1023. destruct (_ && _); [rewrite length_take; lia|].
  destruct (Z.ltb_spec (Z.of_nat (length line)) 1023); [|by rewrite andb_false_r].
  destruct (c >=? 32); simpl; [rewrite length_app; simpl; lia|done].
Qed.

Lemma readline_loop_ok cs : forall line rest, Forall (fun c => 0 <= c /\ c <> 10 /\ c <> 13) cs -> (length line < 1024)%nat ->
  readline_loop next_typed (fun _ => kret tt) (S (length cs)) line (cs ++ 10 :: rest) = Ret (Some (foldl edit line cs)) rest
  /\ (length (foldl edit line cs) < 1024)%nat.
Proof.
  induction cs as [|c cs IH]; intros line rest Hc Hl.
  - cbn [readline_loop app foldl]. unfold next_typed, kbind. by rewrite andb_false_l.
  - apply Forall_cons in Hc as [(H0 & H10 & H13) Hc]. cbn [readline_loop app foldl length]. unfold next_typed at 1. unfold kbind at 1.
    pose proof (edit_bound line c Hl) as Hb. destruct (IH (edit line c) rest Hc Hb) as [E1 E2]. cbn [length] in E1. split; [|exact E2].
    rewrite <- E1. unfold edit. cbv zeta. destruct (Z.ltb_spec c 0); [lia|].
    destruct (((c =? 8) || (c =? 127)) && (Z.of_nat (length line) >? 0)); [done|].
    destruct ((c >=? 32) && (Z.of_nat (length line) <? BUFLEN - 1)); [done|].
    destruct (Z.eqb_spec c 10); [done|]. by destruct (Z.eqb_spec c 13).
Qed.

(** Fact (bounds): [readline] returns the line as edited: printable characters are appended
    while fewer than 1023 are stored, backspace and delete remove the last one, other
    controls are ignored; the line with its terminator always fits the buffer of 1024
    bytes, and typing after the end of the line is left for the next call. *)
Theorem readline_edits (cs rest : list Z) : Forall (fun c => 0 <= c /\ c <> 10 /\ c <> 13) cs ->
  readline next_typed (fun _ => kret tt) (S (length cs)) (cs ++ 10 :: rest) = Ret (Some (foldl edit [] cs)) rest
  /\ (length (foldl edit [] cs) < 1024)%nat.
Proof. intros Hc. apply readline_loop_ok; [done|simpl; lia]. Qed.

Lemma readline_edits_witness :
  readline next_typed (fun _ => kret tt) 5 [104; 120; 8; 105; 10; 33] = Ret (Some [104; 105]) [33].
Proof. apply (readline_edits [104; 120; 8; 105] [33]). by_eval. Defined.
