(* ===== verification/MemState.v ===== *)
(** * The state of the memory subsystem (include/paging.h, include/kernel/mem/buddy.h)

    The state the code under kernel/mem works on, as one CPU sees it: the array of
    [struct page_info], the list nodes embedded in it and the list heads of the
    allocator, the contents of the physical frames, the two locks, the current task
    and the page-table root.  A page frame is named by its index; [pages + i] is [i].
    List nodes are named by the object they are embedded in, so that [container_of]
    is the inverse of taking the address of the member. *)

From Stdlib Require Import ZArith Lia.
From stdpp Require Import strings base gmap fin_maps list.
From S2P Require Import Prelude ListHeap Spinlock.

#[local] Open Scope Z_scope.
#[local] Open Scope kernel_scope.
Import Spinlock.

(** ** Constants of include/x86-64/paging.h and include/x86-64/memory.h *)

Definition PAGE_SIZE : Z := 4096.
Definition PAGE_TABLE_SHIFT : Z := 12.
Definition PAGE_DIR_SHIFT : Z := PAGE_TABLE_SHIFT + 9.
Definition PDPT_SHIFT : Z := PAGE_DIR_SHIFT + 9.
Definition PML4_SHIFT : Z := PDPT_SHIFT + 9.
Definition HPAGE_SIZE : Z := Z.shiftl 1 PAGE_DIR_SHIFT.
Definition PAGE_TABLE_SPAN : Z := Z.shiftl 1 PAGE_DIR_SHIFT.
Definition PAGE_DIR_SPAN : Z := Z.shiftl 1 PDPT_SHIFT.
Definition PDPT_SPAN : Z := Z.shiftl 1 PML4_SHIFT.
Definition PAGE_TABLE_MASK : Z := Z.shiftl 1 9 - 1.
Definition PAGE_INDEX (x : Z) : Z := Z.shiftr x PAGE_TABLE_SHIFT.
Definition PAGE_MASK : Z := 0xFFFF000000000FFF.
(** [PAGE_ADDR(x)]: [x & ~PAGE_MASK] on 64 bits. *)
Definition PAGE_ADDR (x : Z) : Z := Z.land x (2 ^ 64 - 1 - PAGE_MASK).
Definition PAGE_TABLE_ENTRIES : Z := 512.

Definition KERNEL_VMA : Z := 0xFFFF800000000000.
Definition KERNEL_LMA : Z := 0x100000.
Definition KERNEL_LIM : Z := 0xffffffffffffffff.
Definition USER_LIM : Z := 0x800000000000.
Definition BOOT_MAP_LIM : Z := 8 * 1024 * 1024.
Definition MPENTRY_PADDR : Z := 0x7000.
Definition IO_PHYS_MEM : Z := 0x0A0000.
Definition EXT_PHYS_MEM : Z := 0x100000.

(** Buddy orders of the known page sizes, [BUDDY_MAX_ORDER], allocation flags. *)
Definition BUDDY_4K_PAGE : Z := 0.
Definition BUDDY_2M_PAGE : Z := 9.
Definition BUDDY_MAX_ORDER : Z := BUDDY_2M_PAGE + 1.
Definition ALLOC_ZERO : Z := 1.
Definition ALLOC_HUGE : Z := 2.

(** ** Objects *)

(** [struct page_info], less its two list nodes, which live in the store of nodes.
    [pp_ref] has 16 bits, [pp_order] 6, [pp_free] and [pp_avail] one. *)
Record page_info := mk_page {
  pp_ref : Z;
  pp_order : Z;
  pp_free : Z;
  pp_avail : Z;
  pp_zero : Z;
  virt_addr : Z;
  owner : option Z
}.

Definition set_pp_ref (r : Z) (p : page_info) :=
  mk_page r (pp_order p) (pp_free p) (pp_avail p) (pp_zero p) (virt_addr p) (owner p).
Definition set_pp_order (o : Z) (p : page_info) :=
  mk_page (pp_ref p) o (pp_free p) (pp_avail p) (pp_zero p) (virt_addr p) (owner p).
Definition set_pp_free (f : Z) (p : page_info) :=
  mk_page (pp_ref p) (pp_order p) f (pp_avail p) (pp_zero p) (virt_addr p) (owner p).
Definition set_pp_avail (a : Z) (p : page_info) :=
  mk_page (pp_ref p) (pp_order p) (pp_free p) a (pp_zero p) (virt_addr p) (owner p).
Definition set_virt_addr (v : Z) (p : page_info) :=
  mk_page (pp_ref p) (pp_order p) (pp_free p) (pp_avail p) (pp_zero p) v (owner p).
Definition set_owner (o : option Z) (p : page_info) :=
  mk_page (pp_ref p) (pp_order p) (pp_free p) (pp_avail p) (pp_zero p) (virt_addr p) o.

(** Addresses of list nodes: [buddy_free_list + k], [&pages[i].pp_node],
    [&pages[i].active_node], [&active_pages], [&inactive_pages], [&zeroq]; and any other address,
    NULL (0) among them, which is that of no node. *)
Inductive mloc := FreeList (k : Z) | PpNode (i : Z) | ActiveNode (i : Z) | ActivePages | InactivePages | Zeroq | Wild (a : Z).

#[global] Instance mloc_eq_dec : EqDecision mloc.
Proof. solve_decision. Defined.

#[global] Instance mloc_countable : Countable mloc.
Proof.
  refine (inj_countable'
    (fun l => match l with FreeList k => inl (inl k) | PpNode i => inl (inr i)
                         | ActiveNode i => inr (inl (inl i)) | Wild a => inr (inl (inr a))
                         | ActivePages => inr (inr 0%nat) | InactivePages => inr (inr 1%nat) | Zeroq => inr (inr 2%nat) end)
    (fun s => match s with inl (inl k) => FreeList k | inl (inr i) => PpNode i
                         | inr (inl (inl i)) => ActiveNode i | inr (inl (inr a)) => Wild a
                         | inr (inr 0%nat) => ActivePages | inr (inr 1%nat) => InactivePages | inr (inr _) => Zeroq end) _).
  by intros [].
Defined.

(** What the memory code uses of the current task: its address, [task_pml4] (as the
    index of its frame) and [task_rss]. *)
Record task_ref := mk_task_ref { task_id : Z; task_pml4 : Z; task_rss : Z }.

Record mstate := mk_mstate {
  pages : gmap Z page_info;
  npages : Z;
  lists : gmap mloc (list_node mloc);
  (** 64-bit words of a frame by index; a word never written reads as 0. *)
  frames : gmap Z (gmap Z Z);
  buddy_lock : spinlock;
  active_pages_lock : spinlock;
  spinlock_rank : Z;
  cur_task : option task_ref;
  (** The frame of the PML4 loaded in CR3, and the addresses passed to [invlpg]. *)
  cr3 : Z;
  flushed : list Z
}.

Definition set_pages p s := mk_mstate p (npages s) (lists s) (frames s) (buddy_lock s)
  (active_pages_lock s) (spinlock_rank s) (cur_task s) (cr3 s) (flushed s).
Definition set_npages n s := mk_mstate (pages s) n (lists s) (frames s) (buddy_lock s)
  (active_pages_lock s) (spinlock_rank s) (cur_task s) (cr3 s) (flushed s).
Definition set_lists h s := mk_mstate (pages s) (npages s) h (frames s) (buddy_lock s)
  (active_pages_lock s) (spinlock_rank s) (cur_task s) (cr3 s) (flushed s).
Definition set_frames f s := mk_mstate (pages s) (npages s) (lists s) f (buddy_lock s)
  (active_pages_lock s) (spinlock_rank s) (cur_task s) (cr3 s) (flushed s).
Definition set_buddy_lock l r s := mk_mstate (pages s) (npages s) (lists s) (frames s) l
  (active_pages_lock s) r (cur_task s) (cr3 s) (flushed s).
Definition set_active_pages_lock l r s := mk_mstate (pages s) (npages s) (lists s) (frames s) (buddy_lock s)
  l r (cur_task s) (cr3 s) (flushed s).
Definition set_cur_task t s := mk_mstate (pages s) (npages s) (lists s) (frames s) (buddy_lock s)
  (active_pages_lock s) (spinlock_rank s) t (cr3 s) (flushed s).
Definition set_flushed l s := mk_mstate (pages s) (npages s) (lists s) (frames s) (buddy_lock s)
  (active_pages_lock s) (spinlock_rank s) (cur_task s) (cr3 s) l.

(** ** Access *)

(** [*(pages + i)]: an index outside the array is no object. *)
Definition get_page (i : Z) : K mstate page_info := fun s => kderef (pages s !! i) s.
Definition mod_page (i : Z) (f : page_info -> page_info) : K mstate unit := fun s =>
  match pages s !! i with
  | Some p => Ret tt (set_pages (<[i := f p]> (pages s)) s)
  | None => Fault
  end.

(** Running a list operation of list.c on the node store. *)
Definition list_op (f : gmap mloc (list_node mloc) -> option (gmap mloc (list_node mloc))) : K mstate unit :=
  fun s => match f (lists s) with Some h => Ret tt (set_lists h s) | None => Fault end.
Definition list_run {A} (f : gmap mloc (list_node mloc) -> option (A * gmap mloc (list_node mloc))) : K mstate A :=
  fun s => match f (lists s) with Some (a, h) => Ret a (set_lists h s) | None => Fault end.
Definition list_get {A} (f : gmap mloc (list_node mloc) -> option A) : K mstate A :=
  fun s => kderef (f (lists s)) s.

(** [pp_node] of which page ([container_of]); another address is no page. *)
Definition page_of_node (n : mloc) : option Z := match n with PpNode i => Some i | _ => None end.

(** The locks. *)
Definition lock_buddy (this_cpu : Z) (file : string) (line : Z) : K mstate unit := fun s =>
  match spin_lock this_cpu file line (buddy_lock s, spinlock_rank s) with
  | Ret _ (l, r) => Ret tt (set_buddy_lock l r s)
  | Panic => Panic | Fault => Fault | Hang => Hang | NoReturn _ => Fault
  end.
Definition unlock_buddy (this_cpu : Z) : K mstate unit := fun s =>
  match spin_unlock this_cpu (buddy_lock s, spinlock_rank s) with
  | Ret _ (l, r) => Ret tt (set_buddy_lock l r s)
  | Panic => Panic | Fault => Fault | Hang => Hang | NoReturn _ => Fault
  end.
Definition lock_active (this_cpu : Z) (file : string) (line : Z) : K mstate unit := fun s =>
  match spin_lock this_cpu file line (active_pages_lock s, spinlock_rank s) with
  | Ret _ (l, r) => Ret tt (set_active_pages_lock l r s)
  | Panic => Panic | Fault => Fault | Hang => Hang | NoReturn _ => Fault
  end.
Definition unlock_active (this_cpu : Z) : K mstate unit := fun s =>
  match spin_unlock this_cpu (active_pages_lock s, spinlock_rank s) with
  | Ret _ (l, r) => Ret tt (set_active_pages_lock l r s)
  | Panic => Panic | Fault => Fault | Hang => Hang | NoReturn _ => Fault
  end.

(** ** Address conversions of buddy.h *)

Definition page2pa (i : Z) : Z := u64 (Z.shiftl i PAGE_TABLE_SHIFT).

Definition pa2page (pa : Z) : K mstate Z := fun s =>
  if npages s <=? PAGE_INDEX pa then Panic else Ret (PAGE_INDEX pa) s.

(** [KADDR]/[PADDR] on frames: the kernel maps physical memory at [KERNEL_VMA]. *)
Definition KADDR (pa : Z) : K mstate Z := fun s =>
  if npages s <=? PAGE_INDEX pa then Panic else Ret (u64 (pa + KERNEL_VMA)) s.

Definition PADDR {S} (kva : Z) : K S Z := fun s =>
  if kva <? KERNEL_VMA then Panic else Ret (u64 (kva - KERNEL_VMA)) s.

Definition page2kva (i : Z) : K mstate Z := KADDR (page2pa i).

(** [memset(kva, 0, n * PAGE_SIZE)] on the [n] frames from [i] on. *)
Fixpoint zero_frames (n : nat) (i : Z) (f : gmap Z (gmap Z Z)) : gmap Z (gmap Z Z) :=
  match n with O => f | S n => zero_frames n (i + 1) (<[i := ∅]> f) end.

Definition memset_zero (i : Z) (n : nat) : K mstate unit := fun s =>
  Ret tt (set_frames (zero_frames n i (frames s)) s).

(** Word [w] of frame [i]. *)
Definition frame_word (f : gmap Z (gmap Z Z)) (i w : Z) : Z := default 0 (default ∅ (f !! i) !! w).
