(* ===== verification/Buddy.v ===== *)
(** * The buddy allocator (kernel/mem/buddy.c): operations

    The operations of buddy.c on the state of MemState.v; BuddyInv.v holds the
    invariant and the theorems.  The two optional checks of the file
    (DOUBLE_FREE_DETECTION, INVALID_FREE_DETECTION) are the fields of a
    configuration, both off in the repository as it stands. *)

From Stdlib Require Import ZArith Lia.
From stdpp Require Import strings base gmap fin_maps list.
From S2P Require Import Prelude ListHeap Spinlock MemState.

#[local] Open Scope Z_scope.
#[local] Open Scope kernel_scope.
Import Spinlock.

Record config := mk_config { DOUBLE_FREE_DETECTION : bool; INVALID_FREE_DETECTION : bool }.

(** The [#define]s are commented out at the top of buddy.c. *)
Definition default_config : config := mk_config false false.

Definition ORDER_SENTINEL : Z := 0x3F.

Section Ops.
Context (cfg : config) (this_cpu : Z).

(** [for (i = 1; i < n; i++) { p = &pages[idx + i]; ... }]. *)
Fixpoint mark_interior_from (n : nat) (idx i : Z) : K mstate unit :=
  match n with
  | O => kret tt
  | S n =>
      mod_page (idx + i) (fun p => set_pp_free 0 (set_pp_order ORDER_SENTINEL p));;;
      mark_interior_from n idx (i + 1)
  end.

Definition mark_interior_on_alloc (head order : Z) : K mstate unit :=
  if order =? 0 then kret tt
  else mark_interior_from (Z.to_nat (Z.shiftl 1 order) - 1) head 1.

(** The number of nodes visited by [list_foreach]; a ring never has more nodes than
    the store. *)
Definition count_free_pages (order : Z) : K mstate Z := fun s =>
  if BUDDY_MAX_ORDER <=? order then Ret 0 s
  else match list_foreach (lists s) (FreeList order) (size (lists s)) with
       | Some ns => Ret (Z.of_nat (length ns)) s
       | None => Fault
       end.

(** The loop over the orders from [order] on. *)
Fixpoint count_total_from (n : nat) (order nfree : Z) : K mstate Z :=
  match n with
  | O => kret nfree
  | S n =>
      c <-- count_free_pages order;;
      count_total_from n (order + 1) (u64 (nfree + c * Z.shiftl 1 order))
  end.

Definition count_total_free_pages : K mstate Z :=
  count_total_from (Z.to_nat BUDDY_MAX_ORDER) 0 0.

(** The loop of [buddy_split]; [pp_order] has 6 bits, so 64 rounds are enough. *)
Fixpoint buddy_split_loop (fuel : nat) (lhs req_order : Z) : K mstate unit :=
  p <-- get_page lhs;;
  if pp_order p >? req_order then
    match fuel with
    | O => khang
    | S fuel =>
        let buddy := Z.lxor lhs (u64 (Z.shiftl 1 (pp_order p - 1))) in
        mod_page lhs (fun p => set_pp_order ((pp_order p - 1) mod 64) p);;;
        p <-- get_page lhs;;
        mod_page buddy (set_pp_order (pp_order p));;;
        mod_page buddy (set_pp_free 1);;;
        b <-- get_page buddy;;
        list_op (fun h => list_add_tail h (FreeList (pp_order b)) (PpNode buddy));;;
        buddy_split_loop fuel lhs req_order
    end
  else kret tt.

Definition buddy_split (lhs req_order : Z) : K mstate Z :=
  buddy_split_loop 64 lhs req_order;;;
  mod_page lhs (set_pp_free 0);;;
  kret lhs.

(** The loop of [buddy_merge]; each round raises the order, at most to 9. *)
Fixpoint buddy_merge_loop (fuel : nat) (page : Z) : K mstate Z :=
  p <-- get_page page;;
  if pp_order p <? BUDDY_MAX_ORDER - 1 then
    match fuel with
    | O => khang
    | S fuel =>
        let buddy := Z.lxor page (u64 (Z.shiftl 1 (pp_order p))) in
        b <-- get_page buddy;;
        if (pp_avail b =? 0) || (pp_ref b >? 0) then kret page else
        if (pp_free b =? 0) || negb (pp_order b =? pp_order p) then kret page else
        list_op (fun h => list_del h (PpNode buddy));;;
        let '(page, buddy) := if page >? buddy then (buddy, page) else (page, buddy) in
        mod_page buddy (set_pp_free 0);;;
        mod_page page (fun p => set_pp_order ((pp_order p + 1) mod 64) p);;;
        buddy_merge_loop fuel page
    end
  else kret page.

Definition buddy_merge (page : Z) : K mstate Z := buddy_merge_loop 64 page.

Fixpoint buddy_find_from (n : nat) (order req_order : Z) : K mstate (option Z) :=
  match n with
  | O => kret None
  | S n =>
      e <-- list_get (fun h => list_is_empty h (FreeList order));;
      if negb e then
        node <-- list_run (fun h => list_pop h (FreeList order));;
        page <-- kderef (n ← node; page_of_node n);;
        page <-- buddy_split page req_order;;
        kret (Some page)
      else buddy_find_from n (order + 1) req_order
  end.

Definition buddy_find (req_order : Z) : K mstate (option Z) :=
  buddy_find_from (Z.to_nat (BUDDY_MAX_ORDER - req_order)) req_order req_order.

Definition haslock_buddy : K mstate bool := fun s => Ret (spin_haslock this_cpu (buddy_lock s)) s.

Definition page_alloc (alloc_flags : Z) : K mstate (option Z) :=
  has <-- haslock_buddy;;
  (if negb has then lock_buddy this_cpu "kernel/mem/buddy.c" 248 else kret tt);;;
  let req_order := if flag alloc_flags ALLOC_HUGE then BUDDY_2M_PAGE else 0 in
  if BUDDY_MAX_ORDER <=? req_order then kret None else
  r <-- buddy_find req_order;;
  match r with
  | None =>
      has <-- haslock_buddy;;
      (if has then unlock_buddy this_cpu else kret tt);;;
      kret None
  | Some page =>
      (if INVALID_FREE_DETECTION cfg then mark_interior_on_alloc page req_order else kret tt);;;
      (if flag alloc_flags ALLOC_ZERO then
         page2kva page;;;
         memset_zero page (Z.to_nat (Z.shiftl 1 req_order))
       else kret tt);;;
      mod_page page (set_virt_addr 0);;;
      mod_page page (set_owner None);;;
      has <-- haslock_buddy;;
      (if has then unlock_buddy this_cpu else kret tt);;;
      kret (Some page)
  end.

Definition page_free (pp : Z) : K mstate unit :=
  lock_buddy this_cpu "kernel/mem/buddy.c" 301;;;
  (if DOUBLE_FREE_DETECTION cfg then
     p <-- get_page pp;;
     kassert (pp_avail p =? 1);;;
     kassert (pp_ref p =? 0);;;
     (if pp_free p =? 1 then kpanic else kret tt);;;
     mod_page pp (set_pp_free 0)
   else kret tt);;;
  (if INVALID_FREE_DETECTION cfg then
     p <-- get_page pp;;
     (if pp_order p =? ORDER_SENTINEL then kpanic else kret tt)
   else kret tt);;;
  lock_active this_cpu "kernel/mem/buddy.c" 324;;;
  an <-- list_get (fun h => get_next h (ActiveNode pp));;
  (if bool_decide (an <> ActiveNode pp) then list_op (fun h => list_del h (ActiveNode pp)) else kret tt);;;
  unlock_active this_cpu;;;
  pp <-- buddy_merge pp;;
  mod_page pp (set_pp_free 1);;;
  p <-- get_page pp;;
  list_op (fun h => list_add_tail h (FreeList (pp_order p)) (PpNode pp));;;
  unlock_buddy this_cpu.

Definition page_decref (pp : Z) : K mstate unit :=
  p <-- get_page pp;;
  kassert (pp_ref p >? 0);;;
  mod_page pp (fun p => set_pp_ref (u16 (pp_ref p - 1)) p);;;
  p <-- get_page pp;;
  if pp_ref p =? 0 then page_free pp else kret tt.

End Ops.
