(* ===== verification/BuddyInv.v ===== *)
(** * The buddy allocator: invariant and theorems

    [chunks_ok] is the invariant of the page array, for the sequences [fl k] of chunks
    on the free list of each order: chunks are aligned and inside the array, do not
    overlap, are exactly the pages marked free (but for a list [ex] of pages a running
    operation has in hand), and no two buddies are both free.  [lists_ok] relates the
    sequences to the rings in the node store.  The theorems show that each operation
    keeps both and what it does to the set of free frames. *)

From Stdlib Require Import ZArith Lia.
From stdpp Require Import strings functions base gmap fin_maps list.
From S2P Require Import Prelude ListHeap Spinlock MemState Buddy.

#[local] Open Scope Z_scope.
#[local] Open Scope kernel_scope.
Import Spinlock.

(** ** Arithmetic of buddies *)

Lemma pow2_pos k : 0 <= k -> 0 < 2 ^ k.
Proof. intros. by apply Z.pow_pos_nonneg. Qed.

Lemma pow2_succ k : 0 <= k -> 2 ^ (k + 1) = 2 * 2 ^ k.
Proof. intros. rewrite Z.pow_add_r by lia. lia. Qed.

Lemma pow2_divides_512 k : 0 <= k <= 9 -> 512 = 2 ^ (9 - k) * 2 ^ k.
Proof. intros. rewrite <- Z.pow_add_r by lia. by replace (9 - k + k) with 9 by lia. Qed.

Lemma aligned_bit i k n : 0 <= n < k -> i mod 2 ^ k = 0 -> Z.testbit i n = false.
Proof.
  intros Hn Hal. rewrite <- (Z.mod_pow2_bits_low i k n) by lia. rewrite Hal. apply Z.bits_0.
Qed.

(** The buddy of an aligned chunk lies just above or just below it. *)
Lemma buddy_lxor i k :
  0 <= i -> 0 <= k -> i mod 2 ^ k = 0 ->
  (i mod 2 ^ (k + 1) = 0 /\ Z.lxor i (2 ^ k) = i + 2 ^ k) \/
  ((i - 2 ^ k) mod 2 ^ (k + 1) = 0 /\ 2 ^ k <= i /\ Z.lxor i (2 ^ k) = i - 2 ^ k).
Proof.
  intros Hi Hk Hal. pose proof (pow2_pos k Hk). pose proof (pow2_succ k Hk) as Hs.
  apply Z.mod_divide in Hal as [q Hq]; [|lia].
  assert (forall r, r mod 2 = 0 -> Z.lxor (r * 2 ^ k) (2 ^ k) = r * 2 ^ k + 2 ^ k) as Hev.
  { intros r Hr. symmetry. apply Z.add_nocarry_lxor. apply Z.bits_inj'. intros n Hn.
    rewrite Z.land_spec, Z.bits_0, Z.pow2_bits_eqb by done.
    destruct (Z.eqb_spec k n) as [<-|]; [|by rewrite andb_false_r].
    rewrite andb_true_r, Z.mul_pow2_bits, Z.sub_diag by lia.
    rewrite Z.bit0_odd. apply Z.mod_divide in Hr as [t ->]; [|lia].
    by rewrite Z.odd_mul, andb_false_r. }
  destruct (Z.eq_dec (q mod 2) 0) as [E|E].
  - left. split; [|by subst i; apply Hev]. subst i. apply Z.mod_divide in E as [t ->]; [|lia].
    apply Z.mod_divide; [lia|]. exists t. lia.
  - right. assert ((q - 1) mod 2 = 0) as E1.
    { assert (q mod 2 = 1) by (pose proof (Z.mod_pos_bound q 2); lia).
      rewrite Zminus_mod. rewrite H0. reflexivity. }
    pose proof (Hev (q - 1) E1) as Hx.
    assert (0 < q) as Hq0. { destruct (Z.eq_dec q 0); [by subst|]. nia. }
    replace ((q - 1) * 2 ^ k + 2 ^ k) with i in Hx by lia.
    split; [|split].
    + apply Z.mod_divide in E1 as [t Ht]; [|lia]. apply Z.mod_divide; [lia|]. exists t. nia.
    + nia.
    + rewrite <- Hx. rewrite Z.lxor_assoc, Z.lxor_nilpotent, Z.lxor_0_r. nia.
Qed.

Lemma buddy_involutive i k : Z.lxor (Z.lxor i (2 ^ k)) (2 ^ k) = i.
Proof. by rewrite Z.lxor_assoc, Z.lxor_nilpotent, Z.lxor_0_r. Qed.

Lemma aligned_weaken i k : 0 <= k -> i mod 2 ^ (k + 1) = 0 -> i mod 2 ^ k = 0.
Proof.
  intros Hk Hal. pose proof (pow2_pos k Hk). rewrite pow2_succ in Hal by lia.
  apply Z.mod_divide in Hal as [q ->]; [|lia]. apply Z.mod_divide; [lia|]. exists (q * 2). lia.
Qed.

(** A chunk whose first frame is in the array lies in it: the array has a multiple of
    512 pages. *)
Lemma chunk_in_range i k np :
  0 <= k <= 9 -> i mod 2 ^ k = 0 -> np mod 512 = 0 -> 0 <= i < np -> i + 2 ^ k <= np.
Proof.
  intros Hk Hal Hnp Hi. pose proof (pow2_pos k ltac:(lia)).
  apply Z.mod_divide in Hal as [q ->]; [|lia]. apply Z.mod_divide in Hnp as [n Hn]; [|lia].
  rewrite (pow2_divides_512 k Hk) in Hn. set (m := 2 ^ (9 - k)) in *. set (p := 2 ^ k) in *.
  assert (np = (n * m) * p) as E by lia. clearbody m p. clear Hn. subst np.
  assert (q < n * m) by nia. nia.
Qed.

Lemma buddy_pow_u64 k : 0 <= k < 64 -> u64 (Z.shiftl 1 k) = 2 ^ k.
Proof.
  intros Hk. rewrite Z.shiftl_1_l. apply u64_id. split; [apply Z.pow_nonneg; lia|].
  apply Z.pow_lt_mono_r; lia.
Qed.

(** ** Chunks *)

(** Two chunks without a common frame. *)
Definition disj (i k i' k' : Z) : Prop := i + 2 ^ k <= i' \/ i' + 2 ^ k' <= i.

(** Frame [j] is one of the frames of the chunk of order [k] at [i]. *)
Definition in_chunk (i k j : Z) : Prop := i <= j < i + 2 ^ k.

Definition frames_ok (pm : gmap Z page_info) (i k : Z) : Prop := forall j, in_chunk i k j ->
  exists p, pm !! j = Some p /\ pp_avail p = 1 /\ pp_ref p = 0 /\ (j <> i -> pp_free p = 0).

Record chunk (np : Z) (pm : gmap Z page_info) (i k : Z) : Prop := {
  ch_order : 0 <= k <= 9;
  ch_pos : 0 <= i;
  ch_aligned : i mod 2 ^ k = 0;
  ch_range : i + 2 ^ k <= np;
  ch_frames : frames_ok pm i k;
  ch_head : exists p, pm !! i = Some p /\ pp_order p = k
}.

Record chunks_ok (np : Z) (pm : gmap Z page_info) (ex : list Z) (fl : Z -> list Z) : Prop := {
  co_np : np mod 512 = 0;
  co_dom : forall i, is_Some (pm !! i) <-> 0 <= i < np;
  co_chunk : forall k i, i ∈ fl k -> chunk np pm i k;
  co_free : forall k i p, i ∈ fl k -> pm !! i = Some p -> pp_free p = 1;
  co_nodup : forall k, NoDup (fl k);
  co_disj : forall k i k' i', i ∈ fl k -> i' ∈ fl k' -> i <> i' -> disj i k i' k';
  co_only : forall i p, pm !! i = Some p -> pp_free p <> 0 -> i ∉ ex -> i ∈ fl (pp_order p);
  co_merged : forall k i, k < 9 -> i ∈ fl k -> Z.lxor i (2 ^ k) ∉ fl k
}.

(** A chunk in the hands of an operation: on no list, sharing no frame with a free one. *)
Record loose (np : Z) (pm : gmap Z page_info) (fl : Z -> list Z) (p o : Z) : Prop := {
  lo_chunk : chunk np pm p o;
  lo_disj : forall k i, i ∈ fl k -> disj i k p o
}.

Section Pure.
Implicit Types (np : Z) (pm : gmap Z page_info) (ex : list Z) (fl : Z -> list Z).

Lemma co_key np pm ex fl k k' i : chunks_ok np pm ex fl -> i ∈ fl k -> i ∈ fl k' -> k = k'.
Proof.
  intros C H1 H2. destruct (ch_head _ _ _ _ (co_chunk _ _ _ _ C _ _ H1)) as (p & E & <-).
  destruct (ch_head _ _ _ _ (co_chunk _ _ _ _ C _ _ H2)) as (p' & E' & <-). congruence.
Qed.

Lemma chunks_ok_weaken np pm ex ex' fl : chunks_ok np pm ex fl -> ex ⊆ ex' -> chunks_ok np pm ex' fl.
Proof. intros [] Hs. split; eauto. Qed.

(** Dropping a page that is not marked free from the exceptions. *)
Lemma chunks_ok_settled np pm ex fl q p :
  chunks_ok np pm (q :: ex) fl -> pm !! q = Some p -> pp_free p = 0 -> chunks_ok np pm ex fl.
Proof.
  intros C Hq Hf. split; try apply C. intros i p' Hi Hne Hex.
  eapply co_only; [done|done|done|]. intros [->|]%elem_of_cons; [|done]. congruence.
Qed.

Lemma lookup_fl fl k xs k' : (<[k := xs]> fl) k' = if decide (k = k') then xs else fl k'.
Proof. case_decide; [subst; apply fn_lookup_insert|by apply fn_lookup_insert_ne]. Qed.

(** Taking a chunk off its list. *)
Lemma chunks_take np pm ex fl k xs i ys :
  chunks_ok np pm ex fl -> fl k = xs ++ i :: ys ->
  chunks_ok np pm (i :: ex) (<[k := xs ++ ys]> fl) /\ loose np pm (<[k := xs ++ ys]> fl) i k.
Proof.
  intros C Hfl. assert (i ∈ fl k) as Hin by (rewrite Hfl; set_solver).
  pose proof (co_nodup _ _ _ _ C k) as Hnd. rewrite Hfl in Hnd.
  apply NoDup_app in Hnd as (N1 & N2 & N3). apply NoDup_cons in N3 as [N3 N4].
  assert (forall k' j, j ∈ (<[k := xs ++ ys]> fl) k' -> j ∈ fl k' /\ j <> i) as Hsub.
  { intros k' j. rewrite lookup_fl. case_decide as E.
    - subst. rewrite Hfl. set_solver.
    - intros Hj. split; [done|]. intros ->. by apply E, (co_key _ _ _ _ _ _ _ C Hin Hj). }
  split; [split; try apply C|].
  - intros k' j Hj. apply C. by apply Hsub.
  - intros k' j p [Hj _]%Hsub. by eapply (co_free _ _ _ _ C).
  - intros k'. rewrite lookup_fl. case_decide; [|apply C]. apply NoDup_app. split; [done|]. split; [|done]. set_solver.
  - intros k1 j1 k2 j2 [? _]%Hsub [? _]%Hsub. by apply (co_disj _ _ _ _ C).
  - intros j p Hj Hf Hex. rewrite lookup_fl.
    assert (j ∈ fl (pp_order p)) as Hj' by (eapply co_only; [done|done|done|set_solver]).
    case_decide; [|done]. subst. rewrite Hfl in Hj'. set_solver.
  - intros k' j Hk Hj Hb. apply Hsub in Hj as [Hj _], Hb as [Hb _].
    by apply (co_merged _ _ _ _ C k' j).
  - split; [by apply C|]. intros k' j [Hj Hne]%Hsub. by apply C.
Qed.

(** Changing the record of a page outside every free chunk. *)
Lemma chunk_update np pm i k q g :
  chunk np pm i k -> ~ in_chunk i k q -> chunk np (<[q := g]> pm) i k.
Proof.
  intros [? ? ? ? Hf Hh] Hq. split; try done.
  - intros j Hj. rewrite lookup_insert_ne by (intros ->; done). by apply Hf.
  - rewrite lookup_insert_ne; [done|]. intros ->. apply Hq.
    unfold in_chunk. pose proof (pow2_pos k). lia.
Qed.

Lemma chunks_update np pm ex fl q g :
  chunks_ok np pm ex fl -> is_Some (pm !! q) ->
  (forall k i, i ∈ fl k -> ~ in_chunk i k q) ->
  (pp_free g = 0 \/ q ∈ ex) ->
  chunks_ok np (<[q := g]> pm) ex fl.
Proof.
  intros C Hq Hout Hg.
  assert (forall k i, i ∈ fl k -> i <> q) as Hne.
  { intros k i Hi ->. apply (Hout k q Hi). pose proof (ch_order _ _ _ _ (co_chunk _ _ _ _ C _ _ Hi)).
    unfold in_chunk. pose proof (pow2_pos k). lia. }
  split; try apply C.
  - intros i. rewrite lookup_insert. case_decide as E; [|apply C]. rewrite <- E.
    rewrite <- (co_dom _ _ _ _ C q). split; [done|eauto].
  - intros k i Hi. apply chunk_update; [by apply C|eauto].
  - intros k i p Hi. rewrite lookup_insert_ne by (intros ->; by eapply Hne). by eapply C.
  - intros i p. rewrite lookup_insert. case_decide as E; [|apply C]. rewrite <- E.
    intros [= <-] Hf Hex. by destruct Hg.
Qed.

Lemma loose_outside np pm fl p o j k i :
  loose np pm fl p o -> in_chunk p o j -> i ∈ fl k -> ~ in_chunk i k j.
Proof. intros [_ Hd] Hj Hi Hij. specialize (Hd k i Hi). unfold disj, in_chunk in *. lia. Qed.

Lemma in_chunk_head i k : 0 <= k -> in_chunk i k i.
Proof. intros. unfold in_chunk. pose proof (pow2_pos k). lia. Qed.

(** Putting a loose chunk whose buddy is not free on the list of its order. *)
Lemma chunks_put np pm ex fl p o g :
  chunks_ok np pm (p :: ex) fl -> loose np pm fl p o -> pm !! p = Some g ->
  (o = 9 \/ Z.lxor p (2 ^ o) ∉ fl o) ->
  chunks_ok np (<[p := set_pp_free 1 g]> pm) ex (<[o := fl o ++ [p]]> fl).
Proof.
  intros C Lo Hp Hbud. pose proof Lo as [Hch Hdis]. pose proof (ch_order _ _ _ _ Hch) as Ho.
  set (pm' := <[p := set_pp_free 1 g]> pm).
  assert (chunks_ok np pm' (p :: ex) fl) as C'.
  { apply chunks_update; [done|eauto| |right; left].
    intros k i Hi. eapply loose_outside; [done|apply in_chunk_head; lia|done]. }
  assert (forall k, p ∉ fl k) as Hpn.
  { intros k Hk. specialize (Hdis k p Hk). pose proof (ch_order _ _ _ _ (co_chunk _ _ _ _ C _ _ Hk)).
    unfold disj in Hdis. pose proof (pow2_pos k). pose proof (pow2_pos o). lia. }
  assert (chunk np pm' p o) as Hch'.
  { destruct Hch as [? ? ? ? Hf (g' & Hg & Hgo)]. split; try done.
    - intros j Hj. destruct (Hf j Hj) as (pj & Ej & ? & ? & ?).
      destruct (decide (j = p)) as [->|]; [|exists pj; unfold pm'; by rewrite lookup_insert_ne].
      exists (set_pp_free 1 g). unfold pm'. rewrite lookup_insert_eq. simplify_eq. done.
    - exists (set_pp_free 1 g). unfold pm'. rewrite lookup_insert_eq. simplify_eq. done. }
  assert (forall k i, i ∈ (<[o := fl o ++ [p]]> fl) k -> i ∈ fl k \/ (i = p /\ k = o)) as Hsub.
  { intros k i. rewrite lookup_fl. case_decide; set_solver. }
  split; try apply C'.
  - intros k i [Hi|[-> ->]]%Hsub; [by apply C'|done].
  - intros k i q [Hi|[-> ->]]%Hsub; [by eapply C'|]. unfold pm'. rewrite lookup_insert_eq. by intros [= <-].
  - intros k. rewrite lookup_fl. case_decide; [|apply C]. apply NoDup_app.
    split; [apply C|]. split; [set_solver|apply NoDup_singleton].
  - intros k i k' i' [Hi|[-> ->]]%Hsub [Hi'|[-> ->]]%Hsub Hne; [by apply C| by apply Hdis| |done].
    specialize (Hdis _ _ Hi'). unfold disj in *. lia.
  - intros i q Hi Hf Hex. rewrite lookup_fl. destruct (decide (i = p)) as [->|Hne].
    + unfold pm' in Hi. rewrite lookup_insert_eq in Hi. simplify_eq. destruct (ch_head _ _ _ _ Hch) as (g' & ? & <-).
      simplify_eq. simpl. rewrite decide_True by done. set_solver.
    + assert (i ∈ fl (pp_order q)) by (eapply co_only; [exact C'|done|done|set_solver]).
      case_decide; [|done]. subst. set_solver.
  - intros k i Hk [Hi|[Ei Ek]]%Hsub [Hb|[Hb Ek']]%Hsub.
    + by apply (co_merged _ _ _ _ C k i).
    + rewrite Ek' in *. destruct Hbud as [->|Hbud]; [lia|]. apply Hbud.
      rewrite <- Hb, buddy_involutive. done.
    + rewrite Ei, Ek in *. destruct Hbud as [->|Hbud]; [lia|]. by apply Hbud.
    + rewrite Ei, Ek in *. pose proof (ch_aligned _ _ _ _ Hch). pose proof (ch_pos _ _ _ _ Hch).
      pose proof (pow2_pos o). destruct (buddy_lxor p o); lia.
Qed.

(** Changing the order of the head keeps the frames. *)
Lemma frames_update pm i k q g g0 :
  frames_ok pm i k -> pm !! q = Some g0 ->
  pp_avail g = pp_avail g0 -> pp_ref g = pp_ref g0 -> (pp_free g = 0 \/ pp_free g = pp_free g0 \/ q = i) ->
  frames_ok (<[q := g]> pm) i k.
Proof.
  intros Hf Hq Ha Hr Hfr j Hj. destruct (Hf j Hj) as (pj & Ej & ? & ? & Hz).
  rewrite lookup_insert. case_decide as E; [|eauto 10]. rewrite <- E in *. simplify_eq.
  exists g. split; [done|]. rewrite Ha, Hr. split; [done|]. split; [done|].
  intros Hne. specialize (Hz Hne). destruct Hfr as [->|[->|]]; done.
Qed.

Lemma frames_sub pm i k i' k' :
  frames_ok pm i k -> (forall j, in_chunk i' k' j -> in_chunk i k j /\ (j = i -> j = i')) ->
  frames_ok pm i' k'.
Proof.
  intros Hf Hs j Hj. destruct (Hs j Hj) as [Hin Hh]. destruct (Hf j Hin) as (p & ? & ? & ? & ?).
  exists p. repeat (split; [done|]). intros Hne. naive_solver.
Qed.

(** Splitting a loose chunk of order [o] into two of order [o - 1]. *)
Lemma chunks_halve np pm ex fl p o gp gb :
  let b := Z.lxor p (2 ^ (o - 1)) in
  let pm' := <[b := set_pp_order (o - 1) gb]> (<[p := set_pp_order (o - 1) gp]> pm) in
  chunks_ok np pm (p :: ex) fl -> loose np pm fl p o -> 1 <= o ->
  pm !! p = Some gp -> pm !! b = Some gb ->
  b = p + 2 ^ (o - 1) /\ chunks_ok np pm' (b :: p :: ex) fl
  /\ loose np pm' fl p (o - 1) /\ loose np pm' fl b (o - 1).
Proof.
  intros b pm' C [Hch Hdis] Ho Hp Hb. pose proof Hch as [Hor Hpos Hal Hrng Hfr Hhd].
  pose proof (pow2_pos (o - 1) ltac:(lia)) as Hpow.
  pose proof (pow2_succ (o - 1) ltac:(lia)) as Hs. replace (o - 1 + 1) with o in Hs by lia.
  assert (b = p + 2 ^ (o - 1)) as Eb.
  { destruct (buddy_lxor p (o - 1)) as [[_ ?]|[Hm _]]; [done|lia| |done|].
    - apply aligned_weaken; [lia|]. by replace (o - 1 + 1) with o by lia.
    - exfalso. replace (o - 1 + 1) with o in Hm by lia. rewrite Zminus_mod, Hal, Hs in Hm.
      rewrite (Z.mod_small (2 ^ (o - 1))) in Hm by lia. rewrite Z.sub_0_l in Hm.
      rewrite Z_mod_nz_opp_full, Z.mod_small in Hm; [lia|lia|]. rewrite Z.mod_small; lia. }
  assert (b <> p) as Hbp by lia.
  assert (chunks_ok np pm' (b :: p :: ex) fl) as C'.
  { unfold pm'. apply chunks_update; [apply chunks_update| | |].
    - eapply chunks_ok_weaken; [done|]. set_solver.
    - eauto.
    - intros k i Hi. eapply (loose_outside _ _ _ p o); [by split|apply in_chunk_head; lia|done].
    - right; set_solver.
    - rewrite lookup_insert_ne by done. eauto.
    - intros k i Hi. eapply (loose_outside _ _ _ p o); [by split|unfold in_chunk; lia|done].
    - right; set_solver. }
  assert (frames_ok pm' p o) as Hfr'.
  { unfold pm'. eapply (frames_update _ _ _ _ _ gb); [eapply (frames_update _ _ _ _ _ gp)| | | |]; eauto.
    by rewrite lookup_insert_ne. }
  split; [done|]. split; [done|]. split; split.
  - split; [lia|lia| |lia| |].
    + apply aligned_weaken; [lia|]. by replace (o - 1 + 1) with o by lia.
    + eapply frames_sub; [done|]. unfold in_chunk. intros j ?. split; [lia|done].
    + exists (set_pp_order (o - 1) gp). unfold pm'. rewrite lookup_insert_ne, lookup_insert_eq by done. done.
  - intros k i Hi. specialize (Hdis k i Hi). unfold disj in *. lia.
  - split; [lia|lia| |lia| |].
    + rewrite Eb. apply Z.mod_divide in Hal as [q ->]; [|lia]. apply Z.mod_divide; [lia|].
      rewrite Hs. exists (2 * q + 1). lia.
    + eapply frames_sub; [done|]. unfold in_chunk. intros j ?. split; lia.
    + exists (set_pp_order (o - 1) gb). unfold pm'. by rewrite lookup_insert_eq.
  - intros k i Hi. specialize (Hdis k i Hi). unfold disj in *. lia.
Qed.

(** Joining two loose buddies of order [o]. *)
Lemma chunks_join np pm ex fl m x o gm gx :
  let pm' := <[m := set_pp_order (o + 1) gm]> (<[x := set_pp_free 0 gx]> pm) in
  chunks_ok np pm (m :: x :: ex) fl -> loose np pm fl m o -> loose np pm fl x o ->
  o < 9 -> x = m + 2 ^ o -> m mod 2 ^ (o + 1) = 0 ->
  pm !! m = Some gm -> pm !! x = Some gx ->
  chunks_ok np pm' (m :: ex) fl /\ loose np pm' fl m (o + 1).
Proof.
  intros pm' C [Hcm Hdm] [Hcx Hdx] Ho9 Ex Hal Hm Hx.
  pose proof Hcm as [Hor Hpos _ _ Hfm _]. pose proof Hcx as [_ _ _ Hrx Hfx _].
  pose proof (pow2_pos o ltac:(lia)) as Hpow. pose proof (pow2_succ o ltac:(lia)) as Hs.
  assert (m <> x) as Hne by lia.
  assert (chunks_ok np pm' (m :: x :: ex) fl) as C'.
  { unfold pm'. apply chunks_update; [apply chunks_update| | |].
    - done.
    - eauto.
    - intros k i Hi. eapply (loose_outside _ _ _ x o); [by split|apply in_chunk_head; lia|done].
    - left; done.
    - rewrite lookup_insert_ne by done. eauto.
    - intros k i Hi. eapply (loose_outside _ _ _ m o); [by split|apply in_chunk_head; lia|done].
    - right; set_solver. }
  split.
  - eapply (chunks_ok_settled _ _ _ _ x).
    + eapply chunks_ok_weaken; [done|]. set_solver.
    + unfold pm'. rewrite lookup_insert_ne, lookup_insert_eq by done. done.
    + done.
  - split.
    + split; [lia|lia|done|lia| |].
      * intros j Hj. assert (in_chunk m o j \/ in_chunk x o j) as Hj'.
        { unfold in_chunk in *. lia. }
        assert (frames_ok pm' m o) as Hfm'.
        { unfold pm'. eapply (frames_update _ _ _ _ _ gm); [eapply (frames_update _ _ _ _ _ gx)| | | |]; eauto.
          by rewrite lookup_insert_ne. }
        assert (frames_ok pm' x o) as Hfx'.
        { unfold pm'. eapply (frames_update _ _ _ _ _ gm); [eapply (frames_update _ _ _ _ _ gx)| | | |]; eauto.
          by rewrite lookup_insert_ne. }
        destruct Hj' as [Hj'|Hj']; [eauto|].
        destruct (Hfx' j Hj') as (pj & Ej & ? & ? & Hz). exists pj. repeat (split; [done|]). intros _.
        destruct (decide (j = x)) as [->|]; [|by apply Hz].
        unfold pm' in Ej. rewrite lookup_insert_ne, lookup_insert_eq in Ej by done. by simplify_eq.
      * exists (set_pp_order (o + 1) gm). unfold pm'. by rewrite lookup_insert_eq.
    + intros k i Hi. specialize (Hdm k i Hi). specialize (Hdx k i Hi). unfold disj in *.
      pose proof (ch_order _ _ _ _ (co_chunk _ _ _ _ C _ _ Hi)) as Hk.
      pose proof (pow2_pos k). lia.
Qed.

(** The buddy of a loose chunk below the top order is in the array. *)
Lemma buddy_in_array np pm ex fl p o :
  chunks_ok np pm ex fl -> loose np pm fl p o -> o < 9 -> is_Some (pm !! Z.lxor p (2 ^ o)).
Proof.
  intros C [[Ho Hp Hal Hr _ _] _] Ho9. apply (co_dom _ _ _ _ C).
  pose proof (pow2_pos o ltac:(lia)). pose proof (pow2_succ o ltac:(lia)).
  destruct (buddy_lxor p o) as [[Hm ->]|(Hm & ? & ->)]; [done|lia|done| |lia].
  pose proof (chunk_in_range p (o + 1) np ltac:(lia) Hm (co_np _ _ _ _ C) ltac:(lia)). lia.
Qed.

End Pure.

(** ** The free lists *)

(** Every page that is on the active list is on it once; the others are on no list. *)
Definition active_ok (np : Z) (h : gmap mloc (list_node mloc)) : Prop :=
  exists act, dlist h ActivePages (ActiveNode <$> act)
    /\ forall i, 0 <= i < np -> i ∉ act -> dlist h (ActiveNode i) [].

Record lists_ok (np : Z) (h : gmap mloc (list_node mloc)) (fl : Z -> list Z) : Prop := {
  ls_list : forall k, 0 <= k <= 9 -> dlist h (FreeList k) (PpNode <$> fl k);
  ls_node : forall i, 0 <= i < np -> is_Some (h !! PpNode i);
  ls_active : active_ok np h
}.

Section Lists.
Implicit Types (np : Z) (h : gmap mloc (list_node mloc)) (fl : Z -> list Z).

Lemma elem_of_PpNode (n : mloc) (l : list Z) : n ∈ PpNode <$> l <-> exists i, n = PpNode i /\ i ∈ l.
Proof. apply list_elem_of_fmap. Qed.

Lemma PpNode_in (i : Z) (l : list Z) : PpNode i ∈ PpNode <$> l <-> i ∈ l.
Proof. rewrite elem_of_PpNode. naive_solver. Qed.

Lemma not_active_free (n : mloc) (l : list Z) : n ∈ PpNode <$> l -> forall i, n <> ActiveNode i.
Proof. rewrite elem_of_PpNode. by intros (i & -> & _). Qed.

(** Operations on nodes of the free lists leave the active list alone. *)
Lemma active_ok_touches np h h' ns :
  active_ok np h -> touches h ns h' -> (forall n, n ∈ ns -> (exists k, n = FreeList k) \/ (exists i, n = PpNode i)) ->
  active_ok np h'.
Proof.
  intros (act & Ha & Hs) Ht Hns. exists act. split.
  - eapply dlist_touches; [done..|]. intros c [[k ->]|[i ->]]%Hns; rewrite elem_of_cons, list_elem_of_fmap; naive_solver.
  - intros i Hi Hia. eapply dlist_touches; [by apply Hs|done|].
    intros c [[k ->]|[j ->]]%Hns; rewrite elem_of_cons; set_solver.
Qed.

(** An operation on the ring of order [k] (and possibly one page on no list) leaves
    the other rings alone. *)
Lemma lists_ok_update np h h' fl k xs ns :
  lists_ok np h fl -> touches h ns h' -> dlist h' (FreeList k) (PpNode <$> xs) ->
  (forall n, n ∈ ns -> n = FreeList k \/ exists i, n = PpNode i /\ forall k', k' <> k -> i ∉ fl k') ->
  lists_ok np h' (<[k := xs]> fl).
Proof.
  intros [Hl Hn Ha] Ht Hd Hns. split.
  - intros k' Hk'. rewrite lookup_fl. case_decide as E; [by subst|].
    eapply dlist_touches; [by apply Hl|done|]. intros n [->|(i & -> & Hi)]%Hns.
    + rewrite elem_of_cons, elem_of_PpNode. naive_solver.
    + rewrite elem_of_cons, PpNode_in. naive_solver.
  - intros i Hi. eapply touches_is_Some; eauto.
  - eapply active_ok_touches; [done..|]. intros n [->|(i & -> & _)]%Hns; eauto.
Qed.

Lemma lists_del np h fl k xs i ys :
  lists_ok np h fl -> 0 <= k <= 9 -> fl k = xs ++ i :: ys ->
  (forall j k', j ∈ fl k -> k' <> k -> j ∉ fl k') ->
  exists h', list_del h (PpNode i) = Some h' /\ lists_ok np h' (<[k := xs ++ ys]> fl).
Proof.
  intros L Hk E Hdis. pose proof (ls_list _ _ _ L k Hk) as Hd. rewrite E, fmap_app, fmap_cons in Hd.
  destruct (list_del_spec _ _ _ _ _ Hd) as (h' & Eh & Hd' & _ & Ht).
  exists h'. split; [done|]. eapply lists_ok_update; [done..|by rewrite fmap_app|].
  intros n. rewrite <- fmap_cons, <- fmap_app, <- E, elem_of_cons, elem_of_PpNode.
  intros [->|(j & -> & Hj)]; [by left|right]. exists j. split; [done|]. intros k' ?. by apply Hdis.
Qed.

Lemma lists_pop np h fl k i ys :
  lists_ok np h fl -> 0 <= k <= 9 -> fl k = i :: ys ->
  (forall j k', j ∈ fl k -> k' <> k -> j ∉ fl k') ->
  exists h', list_pop h (FreeList k) = Some (Some (PpNode i), h') /\ lists_ok np h' (<[k := ys]> fl).
Proof.
  intros L Hk E Hdis. pose proof (ls_list _ _ _ L k Hk) as Hd. rewrite E, fmap_cons in Hd.
  destruct (list_pop_spec _ _ _ Hd) as (h' & Eh & Hd' & _ & Ht).
  exists h'. split; [done|]. eapply lists_ok_update; [done..|].
  intros n. rewrite <- fmap_cons, <- E, elem_of_cons, elem_of_PpNode.
  intros [->|(j & -> & Hj)]; [by left|right]. exists j. split; [done|]. intros k' ?. by apply Hdis.
Qed.

Lemma lists_add np h fl k i :
  lists_ok np h fl -> 0 <= k <= 9 -> 0 <= i < np -> (forall k', i ∉ fl k') ->
  (forall j k', j ∈ fl k -> k' <> k -> j ∉ fl k') ->
  exists h', list_add_tail h (FreeList k) (PpNode i) = Some h' /\ lists_ok np h' (<[k := fl k ++ [i]]> fl).
Proof.
  intros L Hk Hi Hno Hdis. pose proof (ls_list _ _ _ L k Hk) as Hd.
  destruct (list_add_tail_spec _ _ _ (PpNode i) Hd) as (h' & Eh & Hd' & Ht).
  { by apply L. }
  { rewrite elem_of_cons, PpNode_in. specialize (Hno k). naive_solver. }
  exists h'. split; [done|]. eapply lists_ok_update; [done..|by rewrite fmap_app|].
  intros n. rewrite !elem_of_cons, elem_of_PpNode.
  intros [->|[->|(j & -> & Hj)]]; [right; eauto|by left|right]. exists j. split; [done|]. intros k' ?. by apply Hdis.
Qed.

End Lists.

(** ** The loops *)

Definition with_mem pm h s := set_lists h (set_pages pm s).

(** Frame [j] belongs to a free chunk. *)
Definition free_frame (fl : Z -> list Z) (j : Z) : Prop := exists k i, i ∈ fl k /\ in_chunk i k j.

(** The number of free frames. *)
Fixpoint free_count_upto (n : nat) (fl : Z -> list Z) : Z :=
  match n with
  | O => 0
  | S n => free_count_upto n fl + Z.of_nat (length (fl (Z.of_nat n))) * 2 ^ Z.of_nat n
  end.
Definition free_count (fl : Z -> list Z) : Z := free_count_upto 10 fl.

Lemma free_count_upto_other n fl k xs :
  ~ (0 <= k < Z.of_nat n) -> free_count_upto n (<[k := xs]> fl) = free_count_upto n fl.
Proof.
  induction n as [|n IH]; intros Hk; simpl; [done|].
  rewrite lookup_fl, IH by lia. case_decide; [lia|done].
Qed.

Lemma free_count_insert fl k xs :
  0 <= k <= 9 ->
  free_count (<[k := xs]> fl) = free_count fl + (Z.of_nat (length xs) - Z.of_nat (length (fl k))) * 2 ^ k.
Proof.
  intros Hk. unfold free_count.
  assert (forall n, 0 <= k < Z.of_nat n -> free_count_upto n (<[k := xs]> fl) =
    free_count_upto n fl + (Z.of_nat (length xs) - Z.of_nat (length (fl k))) * 2 ^ k) as Hgen; [|apply Hgen; lia].
  induction n as [|n IH]; intros Hn; [lia|]. cbn [free_count_upto]. rewrite lookup_fl.
  destruct (decide (k = Z.of_nat n)) as [->|Hne].
  - rewrite free_count_upto_other by lia. ring.
  - rewrite IH by lia. ring.
Qed.

(** What the loops of the allocator never change in the page array: everything but
    [pp_order] and [pp_free]. *)
Definition page_core (p : page_info) : Z * Z * Z * Z * option Z :=
  (pp_ref p, pp_avail p, pp_zero p, virt_addr p, owner p).
Definition kept (pm pm' : gmap Z page_info) : Prop := page_core <$> pm' = page_core <$> pm.

Lemma kept_refl pm : kept pm pm.
Proof. done. Qed.

Lemma kept_trans pm1 pm2 pm3 : kept pm1 pm2 -> kept pm2 pm3 -> kept pm1 pm3.
Proof. unfold kept. congruence. Qed.

Lemma kept_insert pm pm' i p p' :
  kept pm pm' -> pm' !! i = Some p -> page_core p' = page_core p -> kept pm (<[i := p']> pm').
Proof.
  unfold kept. intros H Hi Hc. rewrite fmap_insert, Hc, <- H. apply insert_id. by rewrite lookup_fmap, Hi.
Qed.

Lemma kept_lookup pm pm' i p : kept pm pm' -> pm !! i = Some p -> exists p', pm' !! i = Some p' /\ page_core p' = page_core p.
Proof.
  intros H Hi. assert ((page_core <$> pm') !! i = Some (page_core p)) as E by (rewrite H, lookup_fmap, Hi; done).
  rewrite lookup_fmap in E. destruct (pm' !! i) as [p'|]; [|done].
  exists p'. split; [done|]. simpl in E. congruence.
Qed.

(** The pages an operation on the chunk at [p] may change: those of free chunks and of
    the chunk itself, and there only [pp_order] and [pp_free]. *)
Record touched (fl : Z -> list Z) (p o : Z) (pm pm' : gmap Z page_info) : Prop := {
  to_core : kept pm pm';
  to_outside : forall j, ~ free_frame fl j -> ~ in_chunk p o j -> pm' !! j = pm !! j
}.

Lemma touched_refl fl p o pm : touched fl p o pm pm.
Proof. done. Qed.

Lemma touched_trans fl p o fl1 p1 o1 pm pm1 pm2 :
  touched fl p o pm pm1 -> touched fl1 p1 o1 pm1 pm2 ->
  (forall j, free_frame fl1 j \/ in_chunk p1 o1 j -> free_frame fl j \/ in_chunk p o j) ->
  touched fl p o pm pm2.
Proof.
  intros [K1 O1] [K2 O2] Hs. split; [by eapply kept_trans|].
  intros j H1 H2. rewrite O2, O1; [done..| |]; intros Hj; destruct (Hs j); tauto.
Qed.

Lemma touched_insert fl p o pm pm' i g g' :
  touched fl p o pm pm' -> pm' !! i = Some g -> page_core g' = page_core g ->
  free_frame fl i \/ in_chunk p o i -> touched fl p o pm (<[i := g']> pm').
Proof.
  intros [K1 O1] Hi Hc Hin. split; [by eapply kept_insert|].
  intros j H1 H2. rewrite lookup_insert_ne by (intros ->; tauto). by apply O1.
Qed.

Lemma free_frame_insert fl k xs j :
  free_frame (<[k := xs]> fl) j <->
  (exists k' i, k' <> k /\ i ∈ fl k' /\ in_chunk i k' j) \/ (exists i, i ∈ xs /\ in_chunk i k j).
Proof.
  unfold free_frame. split.
  - intros (k' & i & Hi & Hj). rewrite lookup_fl in Hi. case_decide as E; [rewrite E|]; eauto 10.
  - intros [(k' & i & Hne & Hi & Hj)|(i & Hi & Hj)].
    + exists k', i. by rewrite lookup_fl, decide_False by done.
    + exists k, i. by rewrite lookup_fl, decide_True by done.
Qed.

Lemma free_frame_add fl k p j :
  free_frame (<[k := fl k ++ [p]]> fl) j <-> free_frame fl j \/ in_chunk p k j.
Proof.
  rewrite free_frame_insert. unfold free_frame. setoid_rewrite elem_of_app. setoid_rewrite list_elem_of_singleton.
  split.
  - intros [(k' & i & _ & Hi & Hj)|(i & [Hi| ->] & Hj)]; eauto.
  - intros [(k' & i & Hi & Hj)|Hj]; [|eauto]. destruct (decide (k' = k)) as [->|]; eauto 10.
Qed.

Lemma free_frame_del fl k xs i ys j :
  fl k = xs ++ i :: ys -> free_frame fl j <-> free_frame (<[k := xs ++ ys]> fl) j \/ in_chunk i k j.
Proof.
  intros E. rewrite free_frame_insert. unfold free_frame. split.
  - intros (k' & i' & Hi & Hj). destruct (decide (k' = k)) as [->|]; [|eauto 10].
    rewrite E, elem_of_app, elem_of_cons in Hi. destruct Hi as [Hi|[->|Hi]]; [| by right|]; left; right;
      exists i'; rewrite elem_of_app; eauto.
  - intros [[(k' & i' & _ & Hi & Hj)|(i' & Hi & Hj)]|Hj]; [eauto| |]; eexists k, _; rewrite E, elem_of_app, elem_of_cons;
      (split; [|done]); [apply elem_of_app in Hi; tauto|tauto].
Qed.

Section Code.
Implicit Types (s : mstate) (fl : Z -> list Z) (ex : list Z).

Lemma bind_get_page {A} i p s (k : page_info -> K mstate A) :
  pages s !! i = Some p -> kbind (get_page i) k s = k p s.
Proof. unfold kbind, get_page, kderef. by intros ->. Qed.

Lemma bind_mod_page {A} i p f s (k : unit -> K mstate A) :
  pages s !! i = Some p -> kbind (mod_page i f) k s = k tt (set_pages (<[i := f p]> (pages s)) s).
Proof. unfold kbind, mod_page. by intros ->. Qed.

Lemma bind_list_op {A} f h s (k : unit -> K mstate A) :
  f (lists s) = Some h -> kbind (list_op f) k s = k tt (set_lists h s).
Proof. unfold kbind, list_op. by intros ->. Qed.

Lemma bind_list_get {A B} (f : gmap mloc (list_node mloc) -> option B) b s (k : B -> K mstate A) :
  f (lists s) = Some b -> kbind (list_get f) k s = k b s.
Proof. unfold kbind, list_get, kderef. by intros ->. Qed.

Lemma bind_list_run {A B} (f : gmap mloc (list_node mloc) -> option (B * gmap mloc (list_node mloc))) b h s
    (k : B -> K mstate A) :
  f (lists s) = Some (b, h) -> kbind (list_run f) k s = k b (set_lists h s).
Proof. unfold kbind, list_run. by intros ->. Qed.

Record buddy_ok ex fl s : Prop := {
  bo_chunks : chunks_ok (npages s) (pages s) ex fl;
  bo_lists : lists_ok (npages s) (lists s) fl
}.

Lemma fl_disjoint np pm ex fl k :
  chunks_ok np pm ex fl -> forall j k', j ∈ fl k -> k' <> k -> j ∉ fl k'.
Proof. intros C j k' Hj Hne Hj'. by apply Hne, (co_key _ _ _ _ _ _ _ C Hj' Hj). Qed.

Lemma loose_not_in np pm ex fl p o : chunks_ok np pm ex fl -> loose np pm fl p o -> forall k, p ∉ fl k.
Proof.
  intros C Lo k Hk. pose proof (ch_order _ _ _ _ (lo_chunk _ _ _ _ _ Lo)).
  pose proof (ch_order _ _ _ _ (co_chunk _ _ _ _ C _ _ Hk)).
  eapply (loose_outside _ _ _ _ _ p k p Lo); [|done|]; apply in_chunk_head; lia.
Qed.

(** One round of a split: the upper half goes to the list of the next lower order. *)
Lemma split_round s fl ex p o gp :
  let b := Z.lxor p (2 ^ (o - 1)) in let fl1 := <[o - 1 := fl (o - 1) ++ [b]]> fl in
  buddy_ok (p :: ex) fl s -> loose (npages s) (pages s) fl p o -> 0 < o -> pages s !! p = Some gp ->
  exists gb h', pages s !! b = Some gb /\ b <> p /\ list_add_tail (lists s) (FreeList (o - 1)) (PpNode b) = Some h'
    /\ let pm1 := <[b := set_pp_free 1 (set_pp_order (o - 1) gb)]> (<[b := set_pp_order (o - 1) gb]> (<[p := set_pp_order (o - 1) gp]> (pages s))) in
       buddy_ok (p :: ex) fl1 (set_lists h' (set_pages pm1 s)) /\ loose (npages s) pm1 fl1 p (o - 1)
       /\ (forall j, free_frame fl1 j \/ in_chunk p (o - 1) j <-> free_frame fl j \/ in_chunk p o j)
       /\ free_count fl1 = free_count fl + 2 ^ (o - 1) /\ touched fl p o (pages s) pm1.
Proof.
  intros b fl1 [C L] Lo Hgt Hp. pose proof (lo_chunk _ _ _ _ _ Lo) as Hch. pose proof (ch_order _ _ _ _ Hch) as Ho.
  pose proof (pow2_succ (o - 1) ltac:(lia)) as Hs. replace (o - 1 + 1) with o in Hs by lia.
  pose proof (pow2_pos (o - 1) ltac:(lia)) as Hpow.
  assert (exists gb, pages s !! b = Some gb) as [gb Hb].
  { destruct (buddy_lxor p (o - 1)) as [[_ E]|[Hm (? & E)]]; try apply Hch; try lia.
    - apply aligned_weaken; [lia|]. replace (o - 1 + 1) with o by lia. apply Hch.
    - fold b in E. apply (co_dom _ _ _ _ C). destruct Hch. lia.
    - fold b in E. apply (co_dom _ _ _ _ C). destruct Hch. lia. }
  destruct (chunks_halve _ _ ex fl p o gp gb C Lo ltac:(lia) Hp Hb) as (Eb & C1 & Lp & Lb).
  fold b in Eb, C1, Lp, Lb. assert (b <> p) as Hbp by lia.
  assert ((pp_order gp - 1) mod 64 = o - 1) as Eo.
  { destruct (ch_head _ _ _ _ Hch) as (g & ? & Hgo). simplify_eq. rewrite Z.mod_small; lia. }
  rewrite ?Eo in *. assert (forall k, b ∉ fl k) as Hbn by (eapply loose_not_in; eauto).
  assert (forall k, p ∉ fl k) as Hpn by (eapply loose_not_in; eauto).
  destruct (lists_add (npages s) (lists s) fl (o - 1) b L) as (h' & Eh & L').
  { lia. } { apply (co_dom _ _ _ _ C). eauto. } { done. } { by eapply fl_disjoint. }
  pose proof (chunks_put _ _ (p :: ex) fl b (o - 1) (set_pp_order (o - 1) gb) C1 Lb ltac:(apply lookup_insert_eq)) as C2.
  specialize (C2 ltac:(right; unfold b; rewrite buddy_involutive; apply Hpn)).
  exists gb, h'. split; [done|]. split; [done|]. split; [done|]. intros pm1. split; [by split|]. split; [split|split; [|split]].
  - apply chunk_update; [apply Lp|]. unfold in_chunk. simpl. lia.
  - intros k i. unfold fl1. rewrite lookup_fl. case_decide as E; [|apply Lp].
    intros [Hi|Hi]%elem_of_app; [subst k; by apply Lp|]. apply list_elem_of_singleton in Hi as ->. subst k. right. lia.
  - intros j. unfold fl1. rewrite free_frame_add. assert (in_chunk p o j <-> in_chunk b (o - 1) j \/ in_chunk p (o - 1) j) as ->; [|tauto].
    unfold in_chunk. lia.
  - unfold fl1. rewrite free_count_insert by lia. rewrite length_app. simpl. lia.
  - eapply touched_insert; [eapply (touched_insert _ _ _ _ _ b gb); [eapply (touched_insert _ _ _ _ _ p gp);
      [apply touched_refl|done|done|right; apply in_chunk_head; lia]| |done|]|apply lookup_insert_eq|done|];
      [by rewrite lookup_insert_ne|right; unfold in_chunk; lia..].
Qed.

Lemma buddy_split_loop_ok fuel s fl ex p o req :
  buddy_ok (p :: ex) fl s -> loose (npages s) (pages s) fl p o -> 0 <= req <= o -> (Z.to_nat (o - req) <= fuel)%nat ->
  exists pm h fl', buddy_split_loop fuel p req s = Ret tt (with_mem pm h s) /\ touched fl p o (pages s) pm
    /\ buddy_ok (p :: ex) fl' (with_mem pm h s) /\ loose (npages s) pm fl' p req
    /\ (forall j, free_frame fl' j \/ in_chunk p req j <-> free_frame fl j \/ in_chunk p o j)
    /\ free_count fl' + 2 ^ req = free_count fl + 2 ^ o.
Proof.
  revert s fl o. induction fuel as [|fuel IH]; intros s fl o B Lo Hreq Hfuel;
    pose proof (lo_chunk _ _ _ _ _ Lo) as Hch; destruct (ch_head _ _ _ _ Hch) as (gp & Hp & Hgo);
    pose proof (ch_order _ _ _ _ Hch) as Ho; cbn [buddy_split_loop];
    rewrite (bind_get_page _ gp) by done; rewrite Hgo.
  - replace (o >? req) with false by (symmetry; rewrite Z.gtb_ltb; apply Z.ltb_ge; lia).
    exists (pages s), (lists s), fl. replace o with req in * by lia. destruct s. split_and!; done.
  - destruct (Z.gtb_spec o req) as [Hgt|Hle].
    2:{ exists (pages s), (lists s), fl. replace o with req in * by lia. destruct s. split_and!; done. }
    rewrite buddy_pow_u64 by lia.
    destruct (split_round s fl ex p o gp B Lo ltac:(lia) Hp) as (gb & h' & Hb & Hbp & Eh & B1 & L1 & Hstep & Hcnt1 & T1).
    rewrite (bind_mod_page _ gp) by done. rewrite Hgo, Z.mod_small by lia.
    rewrite (bind_get_page _ (set_pp_order (o - 1) gp)) by apply lookup_insert_eq.
    rewrite (bind_mod_page _ gb) by (simpl; by rewrite lookup_insert_ne).
    rewrite (bind_mod_page _ (set_pp_order (o - 1) gb)) by apply lookup_insert_eq.
    rewrite (bind_get_page _ (set_pp_free 1 (set_pp_order (o - 1) gb))) by apply lookup_insert_eq.
    rewrite (bind_list_op _ h') by done.
    destruct (IH _ _ (o - 1) B1 L1 ltac:(lia) ltac:(lia)) as (pm & h & fl' & Er & Kp & B' & Lo' & Hfr & Hcnt).
    exists pm, h, fl'. split; [exact Er|]. split; [eapply touched_trans; [exact T1|exact Kp|apply Hstep]|].
    split; [exact B'|]. split; [exact Lo'|]. split; [intros j; by rewrite Hfr, Hstep|].
    pose proof (pow2_succ (o - 1) ltac:(lia)) as Hs. replace (o - 1 + 1) with o in Hs by lia. lia.
Qed.

(** Why a merge stops: the buddy is not on the list of this order. *)
Lemma buddy_not_listed np pm ex fl o b gb :
  chunks_ok np pm ex fl -> 0 <= o <= 9 -> pm !! b = Some gb ->
  (pp_avail gb =? 0) || (pp_ref gb >? 0) || ((pp_free gb =? 0) || negb (pp_order gb =? o)) = true -> b ∉ fl o.
Proof.
  intros C Ho Hb G Hin. pose proof (co_chunk _ _ _ _ C _ _ Hin) as Hcb.
  destruct (ch_frames _ _ _ _ Hcb b) as (g & ? & Ha & Hr & _); [apply in_chunk_head; lia|].
  pose proof (co_free _ _ _ _ C _ _ _ Hin Hb) as Hf. destruct (ch_head _ _ _ _ Hcb) as (g' & ? & Hgo). simplify_eq.
  by rewrite Ha, Hr, Hf, Z.eqb_refl in G.
Qed.

(** One round of a merge: the buddy leaves its list, and both become one chunk at the lower
    of the two addresses. *)
Lemma merge_round s fl p o gb :
  let b := Z.lxor p (2 ^ o) in let m := Z.min p b in let x := Z.max p b in
  buddy_ok [p] fl s -> loose (npages s) (pages s) fl p o -> o < 9 ->
  pages s !! b = Some gb -> pp_free gb <> 0 -> pp_order gb = o ->
  exists h' fl1 gm gx, list_del (lists s) (PpNode b) = Some h' /\ (if p >? b then (b, p) else (p, b)) = (m, x) /\ m <> x
    /\ pages s !! x = Some gx /\ pages s !! m = Some gm /\ pp_order gm = o
    /\ let pm1 := <[m := set_pp_order (o + 1) gm]> (<[x := set_pp_free 0 gx]> (pages s)) in
       buddy_ok [m] fl1 (with_mem pm1 h' s) /\ loose (npages s) pm1 fl1 m (o + 1)
       /\ (forall j, free_frame fl1 j \/ in_chunk m (o + 1) j <-> free_frame fl j \/ in_chunk p o j)
       /\ free_count fl1 + 2 ^ (o + 1) = free_count fl + 2 ^ o /\ touched fl p o (pages s) pm1.
Proof.
  intros b m x [C L] Lo Hlt Hb Hf Hgb. pose proof (lo_chunk _ _ _ _ _ Lo) as Hch. pose proof (ch_order _ _ _ _ Hch) as Ho.
  pose proof (pow2_pos o ltac:(lia)) as Hpow. pose proof (pow2_succ o ltac:(lia)) as Hs.
  assert ((b = p + 2 ^ o /\ p mod 2 ^ (o + 1) = 0) \/ (b = p - 2 ^ o /\ b mod 2 ^ (o + 1) = 0)) as Hcase.
  { destruct (buddy_lxor p o ltac:(apply Hch) ltac:(lia) ltac:(apply Hch)) as [[? E]|(? & _ & E)];
      fold b in E; [by left|right]. by rewrite E. }
  assert (b ∈ fl o) as Hin. { rewrite <- Hgb. eapply co_only; [done|done|done|]. rewrite list_elem_of_singleton. lia. }
  apply list_elem_of_split in Hin as (xs & ys & Hfl).
  destruct (chunks_take _ _ _ _ _ _ _ _ C Hfl) as [C1 Lb].
  destruct (lists_del _ _ _ o xs b ys L ltac:(lia) Hfl) as (h' & Eh & L'); [by eapply fl_disjoint|].
  set (fl1 := <[o := xs ++ ys]> fl) in *.
  assert (forall k i, i ∈ fl1 k -> i ∈ fl k) as Hsub.
  { intros k i. unfold fl1. rewrite lookup_fl. case_decide as E; [rewrite <- E, Hfl; set_solver|done]. }
  assert (loose (npages s) (pages s) fl1 p o) as Lp.
  { split; [done|]. intros k i Hi. apply Lo. by apply Hsub. }
  pose proof (fun j => free_frame_del fl o xs b ys j Hfl) as Hfr1. fold fl1 in Hfr1.
  assert ((m = p /\ x = b) \/ (m = b /\ x = p)) as Hmx by (unfold m, x; lia).
  assert (x = m + 2 ^ o) as Ex by (unfold m, x; lia). assert (m <> x) as Hmx' by lia.
  assert (m mod 2 ^ (o + 1) = 0) as Hal.
  { destruct Hcase as [[E Hm]|[E Hm]], Hmx as [[-> ->]|[-> ->]]; try done; exfalso; lia. }
  assert (chunks_ok (npages s) (pages s) [m; x] fl1) as C2.
  { eapply chunks_ok_weaken; [done|]. destruct Hmx as [[-> ->]|[-> ->]]; set_solver. }
  assert (loose (npages s) (pages s) fl1 m o /\ loose (npages s) (pages s) fl1 x o) as [Lm Lx] by (by destruct Hmx as [[-> ->]|[-> ->]]).
  destruct (ch_head _ _ _ _ (lo_chunk _ _ _ _ _ Lm)) as (gm & Hgm & Hgmo).
  destruct (ch_head _ _ _ _ (lo_chunk _ _ _ _ _ Lx)) as (gx & Hgx & _).
  destruct (chunks_join _ _ [] _ m x o gm gx C2 Lm Lx ltac:(lia) Ex Hal Hgm Hgx) as [C3 L3].
  assert (forall j, free_frame fl1 j \/ in_chunk m (o + 1) j <-> free_frame fl j \/ in_chunk p o j) as Hstep.
  { intros j. rewrite Hfr1. assert (in_chunk m (o + 1) j <-> in_chunk p o j \/ in_chunk b o j) as ->; [|tauto].
    unfold in_chunk. destruct Hmx as [[? ?]|[? ?]]; lia. }
  exists h', fl1, gm, gx. split_and!; try done.
  { unfold m, x. destruct (Z.gtb_spec p b); f_equal; lia. }
  intros pm1. split; [by split|]. split; [done|]. split; [done|]. split.
  - assert (free_count fl1 + 2 ^ o = free_count fl); [|lia]. unfold fl1. rewrite free_count_insert by lia. rewrite Hfl, !length_app. simpl. lia.
  - eapply (touched_insert _ _ _ _ _ m gm); [eapply (touched_insert _ _ _ _ _ x gx); [apply touched_refl|done|done|]| |done|];
      [apply Hstep; right; unfold in_chunk; lia|by rewrite lookup_insert_ne|apply Hstep; right; unfold in_chunk; lia].
Qed.

Lemma buddy_merge_loop_ok fuel s fl p o :
  buddy_ok [p] fl s -> loose (npages s) (pages s) fl p o -> (Z.to_nat (9 - o) <= fuel)%nat ->
  exists q o' pm h fl', buddy_merge_loop fuel p s = Ret q (with_mem pm h s) /\ touched fl p o (pages s) pm
    /\ buddy_ok [q] fl' (with_mem pm h s) /\ loose (npages s) pm fl' q o'
    /\ (o' = 9 \/ Z.lxor q (2 ^ o') ∉ fl' o')
    /\ (forall j, free_frame fl' j \/ in_chunk q o' j <-> free_frame fl j \/ in_chunk p o j)
    /\ free_count fl' + 2 ^ o' = free_count fl + 2 ^ o.
Proof.
  revert s fl p o. induction fuel as [|fuel IH]; intros s fl p o B Lo Hfuel;
    pose proof (lo_chunk _ _ _ _ _ Lo) as Hch; destruct (ch_head _ _ _ _ Hch) as (gp & Hp & Hgo);
    pose proof (ch_order _ _ _ _ Hch) as Ho; cbn [buddy_merge_loop];
    rewrite (bind_get_page _ gp) by done; rewrite Hgo; unfold BUDDY_MAX_ORDER, BUDDY_2M_PAGE.
  - replace (o <? 9 + 1 - 1) with false by (symmetry; apply Z.ltb_ge; lia).
    exists p, o, (pages s), (lists s), fl. destruct s. split_and!; try done. left. lia.
  - destruct (Z.ltb_spec o (9 + 1 - 1)) as [Hlt|Hge].
    2:{ exists p, o, (pages s), (lists s), fl. destruct s. split_and!; try done. left. lia. }
    rewrite buddy_pow_u64 by lia. set (b := Z.lxor p (2 ^ o)).
    destruct (buddy_in_array _ _ _ _ p o (bo_chunks _ _ _ B) Lo ltac:(lia)) as [gb Hb]. fold b in Hb.
    rewrite (bind_get_page _ gb) by done.
    destruct ((pp_avail gb =? 0) || (pp_ref gb >? 0)) eqn:G1; [|destruct ((pp_free gb =? 0) || negb (pp_order gb =? o)) eqn:G2].
    1,2: exists p, o, (pages s), (lists s), fl; destruct s; split_and!; try done; right;
      apply (buddy_not_listed _ _ _ _ o b gb (bo_chunks _ _ _ B)); [lia|done|by rewrite G1, ?G2].
    apply orb_false_elim in G2 as [Hf Hgb]. apply Z.eqb_neq in Hf. apply negb_false_iff, Z.eqb_eq in Hgb.
    destruct (merge_round s fl p o gb B Lo ltac:(lia) Hb Hf Hgb) as (h' & fl1 & gm & gx & Eh & Epb & Hne & Hgx & Hgm & Hgmo & B1 & L1 & Hstep & Hcnt1 & T1).
    fold b in Eh, Epb. rewrite (bind_list_op _ h') by done. rewrite Epb.
    rewrite (bind_mod_page _ gx) by done.
    rewrite (bind_mod_page _ gm) by (simpl; by rewrite lookup_insert_ne).
    replace ((pp_order gm + 1) mod 64) with (o + 1) by (rewrite Hgmo, Z.mod_small; lia).
    destruct (IH _ fl1 _ (o + 1) B1 L1 ltac:(lia)) as (q & o' & pm & h & fl' & Er & Kp & B' & Lo' & Hbud & Hfr & Hcnt).
    exists q, o', pm, h, fl'. split; [exact Er|]. split; [eapply touched_trans; [exact T1|exact Kp|intros j; by rewrite Hstep]|].
    split; [exact B'|]. split; [exact Lo'|]. split; [exact Hbud|]. split; [intros j; by rewrite Hfr, Hstep|]. lia.
Qed.

End Code.
