(* ===== verification/BuddyThm.v ===== *)
(** * The buddy allocator: what page_alloc, page_free and page_decref promise

    The theorems about the operations of Buddy.v, from the invariant and the loop lemmas
    of BuddyInv.v: allocation takes an aligned chunk of the requested order out of the
    free frames and finds one whenever one exists, freeing puts it back and coalesces it,
    the locks are released on every path, and the optional checks catch what they are
    meant to catch. *)

From Stdlib Require Import ZArith Lia.
From stdpp Require Import strings functions base gmap fin_maps list.
From S2P Require Import Prelude ListHeap Spinlock MemState Buddy BuddyInv.

#[local] Open Scope Z_scope.
#[local] Open Scope kernel_scope.
Import Spinlock.

(** ** Locks *)

(** A free, unranked lock, as the two static locks of buddy.c and main.c are. *)
Definition lock_idle (l : spinlock) : Prop := locked l = 0 /\ rank l = 0.

Definition taken (cpu : Z) (file : string) (line : Z) (l : spinlock) : spinlock :=
  mk_spinlock 1 0 (lk_name l) (Some cpu) (Some file) line.
Definition released (l : spinlock) : spinlock := mk_spinlock 0 0 (lk_name l) None None 0.

Lemma spin_lock_idle cpu file line l r :
  lock_idle l -> spin_lock cpu file line (l, r) = Ret tt (taken cpu file line l, r).
Proof.
  intros [Hl Hr]. unfold spin_lock. rewrite acquire_checks_free by (try done; by rewrite Hr).
  rewrite Hl. simpl. unfold acquired, taken. by rewrite Hr, Z.lor_0_r.
Qed.

Lemma spin_unlock_taken cpu file line l r :
  spin_unlock cpu (taken cpu file line l, r) = Ret tt (released l, r).
Proof.
  unfold spin_unlock, release_checks, holding, taken. simpl. rewrite bool_decide_true by done. simpl.
  by rewrite Z.lxor_0_r.
Qed.

Lemma haslock_idle cpu l : lock_idle l -> spin_haslock cpu l = false.
Proof. intros [Hl _]. unfold spin_haslock, holding. by rewrite Hl. Qed.

Lemma haslock_taken cpu file line l : spin_haslock cpu (taken cpu file line l) = true.
Proof. unfold spin_haslock, holding, taken. simpl. by rewrite bool_decide_true. Qed.

Lemma released_idle l : lock_idle (released l).
Proof. done. Qed.

#[export] Hint Resolve released_idle : kernel.

Section Bind.
Context {A : Type}.
Implicit Types (s : mstate) (k : unit -> K mstate A).

Lemma bind_lock_buddy cpu file line s k :
  lock_idle (buddy_lock s) ->
  kbind (lock_buddy cpu file line) k s = k tt (set_buddy_lock (taken cpu file line (buddy_lock s)) (spinlock_rank s) s).
Proof. intros Hl. unfold kbind, lock_buddy. by rewrite spin_lock_idle. Qed.

Lemma unlock_buddy_taken cpu file line l s :
  buddy_lock s = taken cpu file line l -> unlock_buddy cpu s = Ret tt (set_buddy_lock (released l) (spinlock_rank s) s).
Proof. intros Hl. unfold unlock_buddy. by rewrite Hl, spin_unlock_taken. Qed.

Lemma bind_lock_active cpu file line s k :
  lock_idle (active_pages_lock s) ->
  kbind (lock_active cpu file line) k s =
  k tt (set_active_pages_lock (taken cpu file line (active_pages_lock s)) (spinlock_rank s) s).
Proof. intros Hl. unfold kbind, lock_active. by rewrite spin_lock_idle. Qed.

Lemma bind_unlock_active cpu file line l s k :
  active_pages_lock s = taken cpu file line l ->
  kbind (unlock_active cpu) k s = k tt (set_active_pages_lock (released l) (spinlock_rank s) s).
Proof. intros Hl. unfold kbind, unlock_active. by rewrite Hl, spin_unlock_taken. Qed.
End Bind.

(** ** Finding a chunk *)

Section Find.
Implicit Types (s : mstate) (fl : Z -> list Z).

Lemma buddy_split_ok s fl p o req :
  buddy_ok [p] fl s -> loose (npages s) (pages s) fl p o -> 0 <= req <= o ->
  exists pm h fl', buddy_split p req s = Ret p (with_mem pm h s) /\ touched fl p o (pages s) pm
    /\ buddy_ok [] fl' (with_mem pm h s) /\ loose (npages s) pm fl' p req
    /\ (exists g, pm !! p = Some g /\ pp_free g = 0)
    /\ (forall j, free_frame fl' j \/ in_chunk p req j <-> free_frame fl j \/ in_chunk p o j)
    /\ free_count fl' + 2 ^ req = free_count fl + 2 ^ o.
Proof.
  intros B Lo Hreq. pose proof (ch_order _ _ _ _ (lo_chunk _ _ _ _ _ Lo)) as Ho.
  destruct (buddy_split_loop_ok 64 s fl [] p o req B Lo Hreq ltac:(lia))
    as (pm & h & fl' & Er & T & [C L] & Lo' & Hfr & Hc).
  destruct (ch_head _ _ _ _ (lo_chunk _ _ _ _ _ Lo')) as (g & Hg & Hgo).
  unfold buddy_split, kbind at 1. rewrite Er. rewrite (bind_mod_page _ g) by done.
  exists (<[p := set_pp_free 0 g]> pm), h, fl'.
  assert (chunks_ok (npages s) (<[p := set_pp_free 0 g]> pm) [p] fl') as C'.
  { apply chunks_update; [done|eauto| |by left]. intros k i Hi.
    eapply loose_outside; [done|apply in_chunk_head; lia|done]. }
  split; [done|]. split.
  { eapply touched_insert; [done..|]. right. apply in_chunk_head. lia. }
  split. { split; [|done]. eapply chunks_ok_settled; [done|apply lookup_insert_eq|done]. }
  split.
  { destruct Lo' as [[? ? ? ? Hf Hh] Hd]. split; [|done]. split; try done.
    - eapply frames_update; [done|done|done|done|by left].
    - exists (set_pp_free 0 g). by rewrite lookup_insert_eq. }
  split; [exists (set_pp_free 0 g); by rewrite lookup_insert_eq|]. done.
Qed.

(** What a successful search leaves. *)
Definition found s fl p req pm h fl' : Prop :=
  buddy_ok [] fl' (with_mem pm h s) /\ loose (npages s) pm fl' p req
  /\ (exists g, pm !! p = Some g /\ pp_free g = 0)
  /\ kept (pages s) pm /\ (forall j, ~ free_frame fl j -> pm !! j = pages s !! j)
  /\ (forall j, free_frame fl j <-> free_frame fl' j \/ in_chunk p req j)
  /\ free_count fl = free_count fl' + 2 ^ req.

Lemma is_empty_fl s fl k : lists_ok (npages s) (lists s) fl -> 0 <= k <= 9 ->
  list_is_empty (lists s) (FreeList k) = Some (bool_decide (fl k = [])).
Proof.
  intros L Hk. rewrite (list_is_empty_spec _ _ _ (ls_list _ _ _ L k Hk)). f_equal.
  apply bool_decide_ext. destruct (fl k); simpl; naive_solver.
Qed.

Lemma buddy_find_from_ok n s fl order req :
  buddy_ok [] fl s -> 0 <= req <= order -> order + Z.of_nat n = 10 ->
  (buddy_find_from n order req s = Ret None s /\ forall k, order <= k <= 9 -> fl k = []) \/
  (exists p pm h fl', buddy_find_from n order req s = Ret (Some p) (with_mem pm h s) /\ found s fl p req pm h fl').
Proof.
  revert order. induction n as [|n IH]; intros order B Hreq Hn.
  { left. split; [done|]. lia. }
  cbn [buddy_find_from]. pose proof B as [C L].
  rewrite (bind_list_get _ _ _ _ (is_empty_fl s fl order L ltac:(lia))). destruct (fl order) as [|p ys] eqn:E.
  - rewrite bool_decide_true by done. simpl. destruct (IH (order + 1) B ltac:(lia) ltac:(lia)) as [[Er Hnone]|(p & pm & h & fl' & Er & Hf)].
    + left. split; [exact Er|]. intros k Hk. destruct (decide (k = order)) as [->|]; [done|]. apply Hnone. lia.
    + right. exists p, pm, h, fl'. split; [exact Er|exact Hf].
  - right. rewrite bool_decide_false by done. cbn [negb].
    destruct (lists_pop _ _ fl order p ys L ltac:(lia) E ltac:(by eapply fl_disjoint)) as (h' & Eh & L').
    rewrite (bind_list_run _ _ _ _ _ Eh). simpl. unfold kbind at 1, kret at 1.
    destruct (chunks_take _ _ [] fl order [] p ys C E) as [C1 Lo].
    destruct (buddy_split_ok (set_lists h' s) (<[order := ys]> fl) p order req) as
      (pm & h & fl' & Er & [T1 T2] & B' & Lo' & Hg & Hfr & Hc); [by split|done|done|].
    exists p, pm, h, fl'. split; [unfold kbind; rewrite Er; done|].
    pose proof (fun j => free_frame_del fl order [] p ys j E) as Hdel. simpl in Hdel.
    split; [done|]. split; [done|]. split; [done|]. split; [done|]. split; [|split].
    + intros j Hj. rewrite Hdel in Hj. apply T2; tauto.
    + intros j. by rewrite Hdel, Hfr.
    + rewrite Hc, free_count_insert by lia. rewrite E. simpl length. lia.
Qed.

End Find.

(** ** A chunk in use *)

(** The chunk of order [o] at [p] is allocated: it is on no list, marked in use, and
    shares no frame with a free chunk. *)
Record held (np : Z) (pm : gmap Z page_info) (fl : Z -> list Z) (p o : Z) : Prop := {
  he_chunks : chunks_ok np pm [] fl;
  he_loose : loose np pm fl p o;
  he_used : exists g, pm !! p = Some g /\ pp_free g = 0
}.

Section Held.
Implicit Types (np : Z) (pm : gmap Z page_info) (fl : Z -> list Z).

Lemma held_order np pm fl p o : held np pm fl p o -> 0 <= o <= 9.
Proof. intros [_ [[]] _]. done. Qed.

Lemma held_frame np pm fl p o j : held np pm fl p o -> in_chunk p o j ->
  exists g, pm !! j = Some g /\ pp_avail g = 1 /\ pp_ref g = 0 /\ pp_free g = 0.
Proof.
  intros [_ [[_ _ _ _ Hf _] _] (g & Hg & Hu)] Hj. destruct (Hf j Hj) as (gj & Ej & Ha & Hr & Hz).
  exists gj. destruct (decide (j = p)) as [->|]; [simplify_eq|]; eauto.
Qed.

(** Writing fields the allocator does not depend on, or the order of an interior page. *)
Lemma held_update np pm fl p o q g g0 :
  held np pm fl p o -> in_chunk p o q -> pm !! q = Some g0 ->
  pp_avail g = pp_avail g0 -> pp_ref g = pp_ref g0 -> pp_free g = 0 ->
  (q = p -> pp_order g = pp_order g0) -> held np (<[q := g]> pm) fl p o.
Proof.
  intros H Hq E Ha Hr Hf Ho. pose proof H as [C Lo Hu]. split.
  - apply chunks_update; [done|eauto| |by left]. intros k i Hi. by eapply loose_outside.
  - destruct Lo as [[? ? ? ? Hfr (gp & Hp & Hpo)] Hd]. split; [|done]. split; try done.
    + eapply frames_update; [done|exact E|done|done|by left].
    + rewrite lookup_insert. case_decide as E1; [|eauto]. rewrite E1 in *. exists g. split; [done|].
      rewrite Ho by done. by simplify_eq.
  - destruct Hu as (gp & Hp & Hu). rewrite lookup_insert. case_decide; eauto.
Qed.

End Held.

(** The marking of interior pages. *)
Lemma mark_interior_ok n s fl p o i :
  held (npages s) (pages s) fl p o -> 1 <= i -> i + Z.of_nat n = 2 ^ o ->
  exists pm, mark_interior_from n p i s = Ret tt (set_pages pm s) /\ held (npages s) pm fl p o
    /\ (forall j, ~ in_chunk p o j -> pm !! j = pages s !! j)
    /\ (forall j, pp_ref <$> pm !! j = pp_ref <$> pages s !! j).
Proof.
  revert s i. induction n as [|n IH]; intros s i H Hi Hn; cbn [mark_interior_from].
  { exists (pages s). by destruct s. }
  assert (in_chunk p o (p + i)) as Hin by (unfold in_chunk; lia).
  destruct (held_frame _ _ _ _ _ _ H Hin) as (g & Hg & Ha & Hr & Hf).
  rewrite (bind_mod_page _ g) by done.
  edestruct (IH (set_pages (<[p + i := set_pp_free 0 (set_pp_order ORDER_SENTINEL g)]> (pages s)) s) (i + 1))
    as (pm & E & H' & Ho & Hrf); [|lia|lia|].
  { simpl. eapply held_update; [done|done|done|done|done|done|lia]. }
  exists pm. split; [exact E|]. split; [exact H'|]. split.
  - intros j Hj. rewrite Ho by done. simpl. apply lookup_insert_ne. intros <-. done.
  - intros j. rewrite Hrf. simpl. rewrite lookup_insert. case_decide as E1; [|done]. rewrite <- E1, Hg. done.
Qed.

(** ** The state of the allocator between operations *)

Record allocator_ok (fl : Z -> list Z) (s : mstate) : Prop := {
  al_buddy : buddy_ok [] fl s;
  al_lock : lock_idle (buddy_lock s);
  al_active : lock_idle (active_pages_lock s);
  al_np : npages s <= 2 ^ 52
}.

(** What the allocator leaves alone. *)
Record same_rest (s s' : mstate) : Prop := {
  sr_npages : npages s' = npages s;
  sr_rank : spinlock_rank s' = spinlock_rank s;
  sr_task : cur_task s' = cur_task s;
  sr_cr3 : cr3 s' = cr3 s;
  sr_flushed : flushed s' = flushed s
}.

Definition req_order (alloc_flags : Z) : Z := if flag alloc_flags ALLOC_HUGE then BUDDY_2M_PAGE else 0.

(** What a successful allocation of a chunk of order [o] at [p] means. *)
Record allocated (flags : Z) (fl : Z -> list Z) (s : mstate) (p : Z) (fl' : Z -> list Z) (s' : mstate) : Prop := {
  aa_ok : allocator_ok fl' s';
  aa_held : held (npages s') (pages s') fl' p (req_order flags);
  aa_free : forall j, free_frame fl j <-> free_frame fl' j \/ in_chunk p (req_order flags) j;
  aa_count : free_count fl = free_count fl' + 2 ^ req_order flags;
  aa_pages : forall j, ~ free_frame fl j -> pages s' !! j = pages s !! j;
  aa_refs : forall j, pp_ref <$> pages s' !! j = pp_ref <$> pages s !! j;
  aa_frames : frames s' = if flag flags ALLOC_ZERO
    then zero_frames (Z.to_nat (2 ^ req_order flags)) p (frames s) else frames s;
  aa_rest : same_rest s s'
}.

Section Ops.
Context (cfg : config) (cpu : Z).

Lemma page_index_shift p : 0 <= p < 2 ^ 52 -> PAGE_INDEX (page2pa p) = p.
Proof.
  intros Hp. unfold PAGE_INDEX, page2pa, PAGE_TABLE_SHIFT. rewrite Z.shiftl_mul_pow2 by lia.
  rewrite u64_id by lia. rewrite Z.shiftr_div_pow2 by lia. apply Z.div_mul. lia.
Qed.

(** [page2kva] of a page of the array does not panic. *)
Lemma page2kva_ok p s : 0 <= p < npages s -> npages s <= 2 ^ 52 ->
  page2kva p s = Ret (u64 (page2pa p + KERNEL_VMA)) s.
Proof.
  intros Hp Hn. unfold page2kva, KADDR. rewrite page_index_shift by lia.
  by replace (npages s <=? p) with false by (symmetry; apply Z.leb_gt; lia).
Qed.

(** The part of [page_alloc] after the search, up to the release of the lock. *)
Definition page_alloc_init (alloc_flags page : Z) : K mstate unit :=
  (if INVALID_FREE_DETECTION cfg then mark_interior_on_alloc page (req_order alloc_flags) else kret tt);;;
  (if flag alloc_flags ALLOC_ZERO then
     page2kva page;;;
     memset_zero page (Z.to_nat (Z.shiftl 1 (req_order alloc_flags)))
   else kret tt);;;
  mod_page page (set_virt_addr 0);;;
  mod_page page (set_owner None).

Lemma mark_or_skip_ok flags s fl p :
  held (npages s) (pages s) fl p (req_order flags) ->
  exists pm, (if INVALID_FREE_DETECTION cfg then mark_interior_on_alloc p (req_order flags) else kret tt) s
      = Ret tt (set_pages pm s)
    /\ held (npages s) pm fl p (req_order flags)
    /\ (forall j, ~ in_chunk p (req_order flags) j -> pm !! j = pages s !! j)
    /\ (forall j, pp_ref <$> pm !! j = pp_ref <$> pages s !! j).
Proof.
  intros H. set (o := req_order flags) in *. pose proof (held_order _ _ _ _ _ H) as Ho.
  assert (exists pm, @kret mstate unit tt s = Ret tt (set_pages pm s) /\ held (npages s) pm fl p o
    /\ (forall j, ~ in_chunk p o j -> pm !! j = pages s !! j)
    /\ (forall j, pp_ref <$> pm !! j = pp_ref <$> pages s !! j)) as Hskip.
  { exists (pages s). by destruct s. }
  destruct (INVALID_FREE_DETECTION cfg); [|exact Hskip].
  unfold mark_interior_on_alloc. destruct (Z.eqb_spec o 0); [exact Hskip|].
  apply mark_interior_ok; [done|lia|]. rewrite Z.shiftl_1_l. pose proof (pow2_pos o). lia.
Qed.

Lemma page_alloc_init_ok flags s fl p :
  held (npages s) (pages s) fl p (req_order flags) -> npages s <= 2 ^ 52 ->
  exists pm, page_alloc_init flags p s = Ret tt
      (set_frames (if flag flags ALLOC_ZERO then zero_frames (Z.to_nat (2 ^ req_order flags)) p (frames s)
                   else frames s) (set_pages pm s))
    /\ held (npages s) pm fl p (req_order flags)
    /\ (forall j, ~ in_chunk p (req_order flags) j -> pm !! j = pages s !! j)
    /\ (forall j, pp_ref <$> pm !! j = pp_ref <$> pages s !! j).
Proof.
  intros H Hnp. set (o := req_order flags) in *. pose proof (held_order _ _ _ _ _ H) as Ho.
  destruct (mark_or_skip_ok flags s fl p H) as (pm & Em & H1 & Hout & Href). fold o in H1, Hout, Em.
  unfold page_alloc_init, kbind at 1. fold o. rewrite Em.
  assert (in_chunk p o p) as Hin by (apply in_chunk_head; lia).
  destruct (held_frame _ _ _ _ _ p H1 Hin) as (g & Hg & Ha & Hr & Hf).
  assert (0 <= p < npages s) as Hp by (apply (co_dom _ _ _ _ (he_chunks _ _ _ _ _ H1)); eauto).
  set (fr := if flag flags ALLOC_ZERO then zero_frames (Z.to_nat (2 ^ o)) p (frames s) else frames s).
  assert ((if flag flags ALLOC_ZERO then page2kva p;;; memset_zero p (Z.to_nat (Z.shiftl 1 o)) else kret tt)
    (set_pages pm s) = Ret tt (set_frames fr (set_pages pm s))) as Ez.
  { unfold fr. rewrite Z.shiftl_1_l. destruct (flag flags ALLOC_ZERO); [|by destruct s].
    unfold kbind. by rewrite page2kva_ok by (simpl; lia). }
  unfold kbind at 1. rewrite Ez. rewrite (bind_mod_page _ g) by done. unfold mod_page. simpl.
  rewrite lookup_insert_eq, insert_insert_eq.
  exists (<[p := set_owner None (set_virt_addr 0 g)]> pm). split; [by destruct s|]. split; [|split].
  - eapply held_update; [done|done|exact Hg|done..].
  - intros j Hj. rewrite lookup_insert_ne by (intros ->; done). by apply Hout.
  - intros j. rewrite <- Href, lookup_insert. case_decide as E; [|done]. rewrite <- E, Hg. done.
Qed.

(** [page_alloc] is the search followed by the initialisation, under the lock. *)
Lemma page_alloc_unfold flags s :
  page_alloc cfg cpu flags s =
  ((if negb (spin_haslock cpu (buddy_lock s)) then lock_buddy cpu "kernel/mem/buddy.c" 248 else kret tt);;;
   r <-- buddy_find (req_order flags);;
   match r with
   | None => has <-- haslock_buddy cpu;; (if has then unlock_buddy cpu else kret tt);;; kret None
   | Some page =>
       page_alloc_init flags page;;;
       has <-- haslock_buddy cpu;; (if has then unlock_buddy cpu else kret tt);;; kret (Some page)
   end) s.
Proof.
  unfold page_alloc. fold (req_order flags).
  replace (BUDDY_MAX_ORDER <=? req_order flags) with false
    by (unfold req_order; by destruct (flag flags ALLOC_HUGE)).
  unfold page_alloc_init, kbind, haslock_buddy. destruct (spin_haslock cpu (buddy_lock s)); simpl.
  - destruct (buddy_find (req_order flags) s) as [[page|] s2| | | |]; try done.
    repeat (case_match; try done; simplify_eq).
  - destruct (lock_buddy cpu _ _ s) as [[] s1| | | |]; try done.
    destruct (buddy_find (req_order flags) s1) as [[page|] s2| | | |]; try done.
    repeat (case_match; try done; simplify_eq).
Qed.

Lemma release_tail {A} (a : A) s l file line : buddy_lock s = taken cpu file line l ->
  (has <-- haslock_buddy cpu;; (if has then unlock_buddy cpu else kret tt);;; kret a) s
  = Ret a (set_buddy_lock (released l) (spinlock_rank s) s).
Proof.
  intros Hl. unfold kbind, haslock_buddy. rewrite Hl, haslock_taken. by erewrite unlock_buddy_taken.
Qed.

(** [page_alloc], called without the lock, hands out an aligned chunk of the
    requested order whose frames were all free, removes exactly those frames from the free
    frames, zeroes them when asked to, and leaves everything else (reference counts, other
    pages, the rank of the CPU) alone; it fails only when no free chunk is large enough,
    and then changes nothing.  The lock is released in both cases. *)
Lemma page_alloc_ok flags fl s :
  allocator_ok fl s ->
  (exists s', page_alloc cfg cpu flags s = Ret None s' /\ (forall k, req_order flags <= k <= 9 -> fl k = [])
    /\ allocator_ok fl s' /\ pages s' = pages s /\ lists s' = lists s /\ frames s' = frames s /\ same_rest s s')
  \/ (exists p s' fl', page_alloc cfg cpu flags s = Ret (Some p) s' /\ allocated flags fl s p fl' s').
Proof.
  intros [B Hl Ha Hnp]. rewrite page_alloc_unfold, haslock_idle by done. cbn [negb].
  rewrite bind_lock_buddy by done. set (s1 := set_buddy_lock _ _ s).
  assert (0 <= req_order flags <= 9) as Hreq by (unfold req_order; destruct (flag flags ALLOC_HUGE); lia || done).
  destruct (buddy_find_from_ok (Z.to_nat (10 - req_order flags)) s1 fl (req_order flags) (req_order flags))
    as [[E Hnone]|(p & pm & h & fl' & E & B' & Lo & Hu & Kp & Hout & Hfr & Hc)]; [destruct B; by split|lia|lia| |].
  - left. unfold kbind at 1, buddy_find. replace (BUDDY_MAX_ORDER - req_order flags) with (10 - req_order flags) by done.
    rewrite E. erewrite release_tail by reflexivity.
    eexists. split; [reflexivity|]. split; [done|]. split; [|done].
    destruct B. split; [by split|done..].
  - right. unfold kbind at 1, buddy_find. replace (BUDDY_MAX_ORDER - req_order flags) with (10 - req_order flags) by done.
    rewrite E. destruct B' as [C L].
    destruct (page_alloc_init_ok flags (with_mem pm h s1) fl' p) as (pm' & Ei & H' & Hout' & Href'); [by split|done|].
    unfold kbind at 1. rewrite Ei. erewrite release_tail by reflexivity.
    eexists p, _, fl'. split; [reflexivity|]. split; simpl.
    + split; simpl; [|done|done|done]. split; [apply H'|done].
    + exact H'.
    + exact Hfr.
    + exact Hc.
    + intros j Hj. rewrite Hout'; [by apply Hout|]. intros Hin. apply Hj, Hfr. by right.
    + intros j. rewrite Href'. simpl. assert (((page_core <$> pm) !! j) = ((page_core <$> pages s) !! j)) as Ek
        by (by rewrite Kp). rewrite !lookup_fmap in Ek.
      destruct (pm !! j), (pages s !! j); simpl in *; try done. unfold page_core in Ek. simplify_eq. by f_equal.
    + done.
    + done.
Qed.

(** ** Freeing *)

(** Taking the page off the list of active pages, if it is on it. *)
Lemma untrack_ok np h fl p :
  lists_ok np h fl -> 0 <= p < np ->
  exists n, get_next h (ActiveNode p) = Some n
    /\ (n <> ActiveNode p -> exists h', list_del h (ActiveNode p) = Some h' /\ lists_ok np h' fl).
Proof.
  intros [Hl Hn (act & Ha & Hs)] Hp. destruct (decide (p ∈ act)) as [Hin|Hout].
  2:{ destruct (Hs p Hp Hout) as [_ [E _]]. exists (ActiveNode p). done. }
  apply list_elem_of_split in Hin as (xs & ys & ->). rewrite fmap_app, fmap_cons in Ha.
  destruct (list_del_spec _ _ _ _ _ Ha) as (h' & Eh & Ha' & Hp' & Ht).
  assert (is_Some (h !! ActiveNode p)) as [nd Hnd]
    by (eapply dlist_node; [exact Ha|rewrite elem_of_cons, elem_of_app, elem_of_cons; tauto]).
  exists (next nd). split; [unfold get_next; by rewrite Hnd|]. intros _. exists h'. split; [done|].
  assert (forall n, n ∈ ActivePages :: (ActiveNode <$> xs) ++ ActiveNode p :: (ActiveNode <$> ys) ->
    n = ActivePages \/ exists i, n = ActiveNode i /\ i ∈ xs ++ p :: ys) as Hshape.
  { intros n. rewrite <- fmap_cons, <- fmap_app, elem_of_cons, list_elem_of_fmap. naive_solver. }
  split.
  - intros k Hk. eapply dlist_touches; [by apply Hl|done|].
    intros c [->|(i & -> & _)]%Hshape; rewrite elem_of_cons, elem_of_PpNode; naive_solver.
  - intros i Hi. eapply touches_is_Some; eauto.
  - exists (xs ++ ys). rewrite fmap_app. split; [done|]. intros i Hi Hni.
    destruct (decide (i = p)) as [->|Hne]; [done|].
    assert (i ∉ xs ++ p :: ys) as Hni' by (rewrite elem_of_app, elem_of_cons in *; tauto).
    eapply dlist_touches; [by apply Hs|done|].
    intros c [->|(j & -> & Hj)]%Hshape; rewrite elem_of_cons; [set_solver|].
    intros [[= ->]|Hx]; [done|by apply elem_of_nil in Hx].
Qed.

(** What freeing the chunk of order [o] at [p] means. *)
Record freed (fl : Z -> list Z) (s : mstate) (p o : Z) (fl' : Z -> list Z) (s' : mstate) : Prop := {
  fr_ok : allocator_ok fl' s';
  fr_free : forall j, free_frame fl' j <-> free_frame fl j \/ in_chunk p o j;
  fr_count : free_count fl' = free_count fl + 2 ^ o;
  fr_pages : forall j, ~ free_frame fl' j -> pages s' !! j = pages s !! j;
  fr_core : kept (pages s) (pages s');
  fr_frames : frames s' = frames s;
  fr_rest : same_rest s s'
}.

Definition free_checks (pp : Z) : K mstate unit :=
  (if DOUBLE_FREE_DETECTION cfg then
     p <-- get_page pp;;
     kassert (pp_avail p =? 1);;;
     kassert (pp_ref p =? 0);;;
     (if pp_free p =? 1 then kpanic else kret tt);;;
     mod_page pp (set_pp_free 0)
   else kret tt);;;
  (if INVALID_FREE_DETECTION cfg then
     p <-- get_page pp;;
     (if pp_order p =? ORDER_SENTINEL then kpanic else kret tt)
   else kret tt).

Lemma set_pp_free_id g : pp_free g = 0 -> set_pp_free 0 g = g.
Proof. destruct g; simpl; by intros ->. Qed.

Lemma set_pages_id s : set_pages (pages s) s = s.
Proof. by destruct s. Qed.

(** The checks let an allocated chunk through. *)
Lemma free_checks_ok s fl p o : held (npages s) (pages s) fl p o -> free_checks p s = Ret tt s.
Proof.
  intros H. pose proof (held_order _ _ _ _ _ H) as Ho.
  destruct (held_frame _ _ _ _ _ p H ltac:(apply in_chunk_head; lia)) as (g & Hg & Ha & Hr & Hf).
  destruct (ch_head _ _ _ _ (lo_chunk _ _ _ _ _ (he_loose _ _ _ _ _ H))) as (g' & Hg' & Hgo). simplify_eq.
  assert ((if DOUBLE_FREE_DETECTION cfg then
     p0 <-- get_page p;; kassert (pp_avail p0 =? 1);;; kassert (pp_ref p0 =? 0);;;
     (if pp_free p0 =? 1 then kpanic else kret tt);;; mod_page p (set_pp_free 0) else kret tt) s = Ret tt s) as E1.
  { destruct (DOUBLE_FREE_DETECTION cfg); [|done]. rewrite (bind_get_page _ g) by done.
    rewrite Ha, Hr, Hf. simpl. unfold kbind, kret, mod_page. rewrite Hg, set_pp_free_id by done.
    by rewrite insert_id, set_pages_id. }
  unfold free_checks, kbind at 1. rewrite E1. destruct (INVALID_FREE_DETECTION cfg); [|done].
  rewrite (bind_get_page _ g) by done. unfold ORDER_SENTINEL.
  destruct (Z.eqb_spec (pp_order g) 0x3F); [lia|done].
Qed.

(** [page_free] of an allocated chunk puts exactly its frames back among the
    free frames, coalesces it with its buddies as far as possible (no two free buddies
    remain: a part of [allocator_ok]), takes the page off the active list, changes no
    reference count and releases both locks, with the optional checks on or off. *)
Lemma page_free_ok fl s p o :
  allocator_ok fl s -> held (npages s) (pages s) fl p o ->
  exists s' fl', page_free cfg cpu p s = Ret tt s' /\ freed fl s p o fl' s'.
Proof.
  intros [[C L] Hl Ha Hnp] H. pose proof (held_order _ _ _ _ _ H) as Ho.
  assert (0 <= p < npages s) as Hp.
  { destruct (he_used _ _ _ _ _ H) as (g & Hg & _). apply (co_dom _ _ _ _ C). eauto. }
  unfold page_free. rewrite bind_lock_buddy by done. set (s1 := set_buddy_lock _ _ s).
  assert (forall k, (free_checks p;;; k) s1 = (k : K mstate unit) s1) as Hchk.
  { intros k. unfold kbind. by rewrite (free_checks_ok _ fl p o). }
  revert Hchk. unfold free_checks. set (m1 := if DOUBLE_FREE_DETECTION cfg then _ else _).
  set (m2 := if INVALID_FREE_DETECTION cfg then _ else _). intros Hchk.
  assert (forall k, (m1;;; m2;;; k) s1 = (k : K mstate unit) s1) as ->.
  { intros k. rewrite <- (Hchk k). unfold kbind. by destruct (m1 s1) as [[] ?| | | |]. }
  rewrite bind_lock_active by done.
  destruct (untrack_ok _ _ fl p L Hp) as (n & Hn & Hdel).
  rewrite (bind_list_get _ n) by done.
  assert (exists h', (forall k : K mstate unit, ((if bool_decide (n <> ActiveNode p)
      then list_op (fun h => list_del h (ActiveNode p)) else kret tt);;; k)
      (set_active_pages_lock (taken cpu "kernel/mem/buddy.c" 324 (active_pages_lock s1)) (spinlock_rank s1) s1)
    = k (set_lists h' (set_active_pages_lock (taken cpu "kernel/mem/buddy.c" 324 (active_pages_lock s1)) (spinlock_rank s1) s1)))
    /\ lists_ok (npages s) h' fl) as (h' & Eh & L').
  { case_bool_decide as Hne.
    - destruct (Hdel Hne) as (h' & Eh & L'). exists h'. split; [|done]. intros k. by apply bind_list_op.
    - exists (lists s). split; [|done]. intros k. by destruct s. }
  rewrite Eh. rewrite (bind_unlock_active _ "kernel/mem/buddy.c" 324 (active_pages_lock s)) by done.
  set (s2 := set_active_pages_lock _ _ _).
  destruct (buddy_merge_loop_ok 64 s2 fl p o) as (q & o' & pm & h & fl' & Er & [Tk To] & [C' Lq] & Lo' & Hbud & Hfr & Hc).
  { split; [|done]. eapply chunks_ok_weaken; [done|set_solver]. } { apply H. } { lia. }
  pose proof (ch_order _ _ _ _ (lo_chunk _ _ _ _ _ Lo')) as Ho'.
  destruct (ch_head _ _ _ _ (lo_chunk _ _ _ _ _ Lo')) as (g & Hg & Hgo).
  unfold buddy_merge, kbind at 1. rewrite Er.
  rewrite (bind_mod_page _ g) by done.
  rewrite (bind_get_page _ (set_pp_free 1 g)) by apply lookup_insert_eq. simpl pp_order. rewrite Hgo.
  destruct (lists_add (npages s) h fl' o' q Lq) as (h2 & Eh2 & L2).
  { done. } { apply (co_dom _ _ _ _ C'). eauto. } { by eapply loose_not_in. } { by eapply fl_disjoint. }
  rewrite (bind_list_op _ h2) by done. erewrite unlock_buddy_taken by reflexivity.
  eexists _, (<[o' := fl' o' ++ [q]]> fl'). split; [reflexivity|].
  pose proof (chunks_put _ _ [] fl' q o' g C' Lo' Hg Hbud) as C2.
  assert (forall j, free_frame (<[o' := fl' o' ++ [q]]> fl') j <-> free_frame fl j \/ in_chunk p o j) as Hfree.
  { intros j. by rewrite free_frame_add, Hfr. }
  split; simpl; [|exact Hfree| | | |done|done].
  - split; [by split|done..].
  - rewrite free_count_insert by done. rewrite length_app. simpl. lia.
  - intros j Hj. rewrite lookup_insert_ne.
    + apply To; intros Hx; apply Hj, Hfree; tauto.
    + intros ->. apply Hj, Hfree, Hfr. right. apply in_chunk_head. lia.
  - eapply kept_insert; [exact Tk|exact Hg|done].
Qed.


End Ops.

(** ** Counting *)

Section Count.
Implicit Types (s : mstate) (fl : Z -> list Z).

Lemma count_free_pages_ok s fl k : lists_ok (npages s) (lists s) fl -> 0 <= k <= 9 ->
  count_free_pages k s = Ret (Z.of_nat (length (fl k))) s.
Proof.
  intros L Hk. unfold count_free_pages, BUDDY_MAX_ORDER, BUDDY_2M_PAGE.
  destruct (Z.leb_spec (9 + 1) k); [lia|]. pose proof (ls_list _ _ _ L k Hk) as Hd.
  rewrite (list_foreach_spec _ _ (PpNode <$> fl k)); [by rewrite length_fmap|done|].
  pose proof (dlist_size _ _ _ Hd). lia.
Qed.

(** The sum over the orders below [k]. *)
Lemma count_total_from_ok n s fl k :
  lists_ok (npages s) (lists s) fl -> 0 <= k -> k + Z.of_nat n = 10 ->
  count_total_from n k (u64 (free_count_upto (Z.to_nat k) fl)) s = Ret (u64 (free_count fl)) s.
Proof.
  revert k. induction n as [|n IH]; intros k L Hk Hn; cbn [count_total_from].
  { by replace k with 10 by lia. }
  unfold kbind at 1. rewrite (count_free_pages_ok s fl) by (done || lia).
  rewrite <- (IH (k + 1)) by (done || lia). f_equal. replace (Z.to_nat (k + 1)) with (S (Z.to_nat k)) by lia.
  cbn [free_count_upto]. rewrite Z2Nat.id by lia. rewrite u64_add_l, Z.shiftl_1_l. done.
Qed.

(** The free frames one by one. *)
Fixpoint frames_upto (n : nat) fl : list Z :=
  match n with
  | O => []
  | S n => frames_upto n fl ++ (fl (Z.of_nat n) ≫= fun i => seqZ i (2 ^ Z.of_nat n))
  end.

Lemma length_chunks (l : list Z) m : 0 <= m -> Z.of_nat (length (l ≫= fun i => seqZ i m)) = Z.of_nat (length l) * m.
Proof. intros Hm. induction l as [|i l IH]; [simpl; lia|]. rewrite bind_cons, length_app, length_seqZ, length_cons. lia. Qed.

Lemma frames_upto_length n fl : Z.of_nat (length (frames_upto n fl)) = free_count_upto n fl.
Proof.
  induction n as [|n IH]; simpl; [done|]. rewrite length_app, Nat2Z.inj_add, IH, length_chunks; [done|].
  apply Z.pow_nonneg. lia.
Qed.

Lemma frames_upto_in n fl j :
  j ∈ frames_upto n fl <-> exists k i, 0 <= k < Z.of_nat n /\ i ∈ fl k /\ in_chunk i k j.
Proof.
  induction n as [|n IH]; simpl.
  { rewrite elem_of_nil. split; [done|]. intros (k & ? & ? & _). lia. }
  rewrite elem_of_app, IH, list_elem_of_bind. setoid_rewrite elem_of_seqZ. split.
  - intros [(k & i & ? & ? & ?)|(i & Hj & Hi)]; [exists k, i; split; [lia|done]|].
    exists (Z.of_nat n), i. split; [lia|]. split; [done|]. unfold in_chunk. lia.
  - intros (k & i & Hk & Hi & Hj). destruct (decide (k = Z.of_nat n)) as [->|].
    + right. exists i. split; [unfold in_chunk in Hj; lia|done].
    + left. exists k, i. split; [lia|done].
Qed.

Lemma chunks_nodup (l : list Z) k :
  NoDup l -> (forall i i', i ∈ l -> i' ∈ l -> i <> i' -> disj i k i' k) -> NoDup (l ≫= fun i => seqZ i (2 ^ k)).
Proof.
  induction l as [|i l IH]; intros Hnd Hd; simpl; [constructor|]. apply NoDup_cons in Hnd as [Hi Hnd].
  apply NoDup_app. split; [apply NoDup_seqZ|]. split.
  - intros j Hj (i' & Hj' & Hi')%list_elem_of_bind. apply elem_of_seqZ in Hj, Hj'.
    assert (i <> i') as Hne by (intros ->; done).
    specialize (Hd i i' ltac:(left) ltac:(by right) Hne). unfold disj in Hd. lia.
  - apply IH; [done|]. intros x y ? ?. apply Hd; by right.
Qed.

Lemma frames_upto_nodup np pm fl n : chunks_ok np pm [] fl -> NoDup (frames_upto n fl).
Proof.
  intros C. induction n as [|n IH]; simpl; [constructor|]. apply NoDup_app. split; [done|]. split.
  - intros j (k & i & Hk & Hi & Hj)%frames_upto_in (i' & Hj' & Hi')%list_elem_of_bind.
    apply elem_of_seqZ in Hj'.
    assert (i <> i') as Hne by (intros ->; pose proof (co_key _ _ _ _ _ _ _ C Hi Hi'); lia).
    pose proof (co_disj _ _ _ _ C _ _ _ _ Hi Hi' Hne) as Hd. unfold disj, in_chunk in *. lia.
  - apply chunks_nodup; [apply C|]. intros i i' Hi Hi' Hne. by apply (co_disj _ _ _ _ C).
Qed.

Lemma free_frame_list np pm fl j : chunks_ok np pm [] fl -> j ∈ frames_upto 10 fl <-> free_frame fl j.
Proof.
  intros C. rewrite frames_upto_in. unfold free_frame. split.
  - intros (k & i & _ & ? & ?). eauto.
  - intros (k & i & Hi & Hj). exists k, i. pose proof (ch_order _ _ _ _ (co_chunk _ _ _ _ C _ _ Hi)). split; [lia|done].
Qed.

Lemma free_count_bound np pm fl : 0 <= np -> chunks_ok np pm [] fl -> 0 <= free_count fl <= np.
Proof.
  intros Hnp C. unfold free_count. rewrite <- frames_upto_length. split; [lia|].
  assert (length (frames_upto 10 fl) <= length (seqZ 0 np))%nat as Hle.
  { apply submseteq_length, NoDup_submseteq; [by eapply frames_upto_nodup|].
    intros j. rewrite (free_frame_list np pm) by done. intros (k & i & Hi & Hj). apply elem_of_seqZ.
    destruct (co_chunk _ _ _ _ C _ _ Hi). unfold in_chunk in Hj. lia. }
  rewrite length_seqZ in Hle. lia.
Qed.

End Count.

(** ** The allocator as its clients see it *)

(** Frame [j] is free: it lies in the chunk of a page marked free. *)
Definition frame_free (s : mstate) (j : Z) : Prop :=
  exists i g, pages s !! i = Some g /\ pp_free g <> 0 /\ in_chunk i (pp_order g) j.

Lemma frame_free_iff fl s j : buddy_ok [] fl s -> frame_free s j <-> free_frame fl j.
Proof.
  intros [C _]. split.
  - intros (i & g & Hi & Hf & Hj). exists (pp_order g), i. split; [|done].
    eapply co_only; [done|done|done|apply not_elem_of_nil].
  - intros (k & i & Hi & Hj). destruct (ch_head _ _ _ _ (co_chunk _ _ _ _ C _ _ Hi)) as (g & Hg & Ho).
    exists i, g. split; [done|]. rewrite (co_free _ _ _ _ C _ _ _ Hi Hg). by rewrite Ho.
Qed.

(** The allocator is idle and consistent. *)
Definition mem_ok (s : mstate) : Prop := exists fl, allocator_ok fl s.

(** The chunk of order [o] at [p] is in use and unreferenced. *)
Definition in_use (s : mstate) (p o : Z) : Prop :=
  chunk (npages s) (pages s) p o /\ (exists g, pages s !! p = Some g /\ pp_free g = 0)
  /\ forall j, in_chunk p o j -> ~ frame_free s j.

Lemma in_use_held fl s p o : buddy_ok [] fl s -> in_use s p o <-> held (npages s) (pages s) fl p o.
Proof.
  intros B. pose proof B as [C _]. split.
  - intros (Hc & Hu & Hf). split; [done| |done]. split; [done|]. intros k i Hi.
    pose proof (co_chunk _ _ _ _ C _ _ Hi) as Hci.
    assert (forall j, in_chunk i k j -> in_chunk p o j -> False) as Hno.
    { intros j H1 H2. apply (Hf j H2). apply (frame_free_iff fl); [done|]. by exists k, i. }
    pose proof (ch_order _ _ _ _ Hc). pose proof (ch_order _ _ _ _ Hci).
    pose proof (pow2_pos k). pose proof (pow2_pos o). unfold disj.
    pose proof (Hno (Z.max i p)) as Hx. unfold in_chunk in Hx. lia.
  - intros [_ Lo Hu]. split; [apply Lo|]. split; [done|]. intros j Hj Hfr.
    apply (frame_free_iff fl) in Hfr as (k & i & Hi & Hij); [|done].
    by eapply loose_outside.
Qed.

(** The fields of a page in use are not the allocator's business: it is no part of any free
    chunk. *)
Lemma mem_ok_mod s p g g' :
  mem_ok s -> pages s !! p = Some g -> ~ frame_free s p -> pp_free g' = 0 -> mem_ok (set_pages (<[p := g']> (pages s)) s).
Proof.
  intros [fl A] Hg Hn Hf. pose proof (al_buddy _ _ A) as B.
  assert (forall k i, i ∈ fl k -> ~ in_chunk i k p) as Hout.
  { intros k i Hi Hin. apply Hn. apply (frame_free_iff fl); [done|]. by exists k, i. }
  exists fl. destruct A as [[C L] Hl Ha Hnp]. split; simpl; try done. split; [|done]. simpl.
  apply chunks_update; [done|eauto|exact Hout|by left].
Qed.

Lemma mem_ok_unref s p g r :
  mem_ok s -> pages s !! p = Some g -> pp_free g = 0 -> ~ frame_free s p ->
  mem_ok (set_pages (<[p := set_pp_ref r g]> (pages s)) s).
Proof. intros. by eapply mem_ok_mod. Qed.

Lemma mem_ok_ref s p o g r :
  mem_ok s -> in_use s p o -> pages s !! p = Some g -> mem_ok (set_pages (<[p := set_pp_ref r g]> (pages s)) s).
Proof.
  intros M (Hc & (g' & Hg' & Hf) & Hn) Hg. rewrite Hg in Hg'. injection Hg' as <-.
  apply mem_ok_unref; [done..|]. apply Hn, in_chunk_head. apply (ch_order _ _ _ _ Hc).
Qed.

(** Nor does changing them make any frame free. *)
Lemma frame_free_mod s p g g' j :
  pages s !! p = Some g -> pp_free g = 0 -> pp_free g' = 0 ->
  frame_free (set_pages (<[p := g']> (pages s)) s) j <-> frame_free s j.
Proof.
  intros Hg Hf Hf'. split; intros (i & g0 & Hi & Hne & Hj); simpl in *.
  - rewrite lookup_insert in Hi. case_decide as D; [injection Hi as <-; congruence|]. by exists i, g0.
  - exists i, g0. split; [|done]. simpl. rewrite lookup_insert_ne; [done|]. intros ->. congruence.
Qed.
Lemma frame_free_used s p g r j :
  pages s !! p = Some g -> pp_free g = 0 ->
  frame_free (set_pages (<[p := set_pp_ref r g]> (pages s)) s) j <-> frame_free s j.
Proof. intros. by eapply frame_free_mod. Qed.

(** Rewriting frames and the current task leaves the allocator alone. *)
Lemma mem_ok_ext s s' :
  mem_ok s -> pages s' = pages s -> lists s' = lists s -> npages s' = npages s -> buddy_lock s' = buddy_lock s ->
  active_pages_lock s' = active_pages_lock s -> mem_ok s'.
Proof.
  intros [fl [[C L] Hl Ha Hn]] E1 E2 E3 E4 E5. exists fl. split; [split|..]; congruence.
Qed.

(** What a client of the page allocator may rely on. *)
Class PageAllocator := {
  pa_alloc : Z -> K mstate (option Z);
  pa_free : Z -> K mstate unit;
  pa_alloc_spec : forall flags s, mem_ok s ->
    (exists s', pa_alloc flags s = Ret None s' /\ mem_ok s' /\ pages s' = pages s /\ frames s' = frames s /\ same_rest s s')
    \/ (exists p s', pa_alloc flags s = Ret (Some p) s' /\ mem_ok s' /\ in_use s' p (req_order flags)
         /\ (forall j, frame_free s j <-> frame_free s' j \/ in_chunk p (req_order flags) j)
         /\ (forall j, ~ frame_free s j -> pages s' !! j = pages s !! j)
         /\ (forall j, pp_ref <$> pages s' !! j = pp_ref <$> pages s !! j)
         /\ frames s' = (if flag flags ALLOC_ZERO
              then zero_frames (Z.to_nat (2 ^ req_order flags)) p (frames s) else frames s)
         /\ same_rest s s');
  pa_free_spec : forall s p o, mem_ok s -> in_use s p o ->
    exists s', pa_free p s = Ret tt s' /\ mem_ok s'
      /\ (forall j, frame_free s' j <-> frame_free s j \/ in_chunk p o j)
      /\ (forall j, ~ frame_free s' j -> pages s' !! j = pages s !! j)
      /\ kept (pages s) (pages s') /\ frames s' = frames s /\ same_rest s s'
}.

(** The buddy allocator is one. *)
#[export] Instance buddy_page_allocator (cfg : config) (cpu : Z) : PageAllocator.
Proof.
  refine {| pa_alloc := page_alloc cfg cpu; pa_free := page_free cfg cpu |}.
  - intros flags s [fl A].
    destruct (page_alloc_ok cfg cpu flags fl s A) as [(s' & E & _ & A' & Hp & _ & Hf & Hr)|(p & s' & fl' & E & [A' H Hfr _ Ho Hrf Hz Hr])].
    + left. exists s'. split; [done|]. split; [by exists fl|]. done.
    + right. exists p, s'. split; [done|]. split; [by exists fl'|].
      pose proof (al_buddy _ _ A) as B. pose proof (al_buddy _ _ A') as B'.
      split; [by apply (in_use_held fl')|]. split; [|split; [|done]].
      * intros j. by rewrite (frame_free_iff fl s j B), (frame_free_iff fl' s' j B'), Hfr.
      * intros j Hj. apply Ho. by rewrite <- (frame_free_iff fl s).
  - intros s p o [fl A] H. pose proof (al_buddy _ _ A) as B. apply (in_use_held fl) in H; [|done].
    destruct (page_free_ok cfg cpu fl s p o A H) as (s' & fl' & E & [A' Hfr _ Ho Hk Hf Hr]).
    pose proof (al_buddy _ _ A') as B'.
    exists s'. split; [done|]. split; [by exists fl'|]. split; [|split; [|done]].
    + intros j. by rewrite (frame_free_iff fl s j B), (frame_free_iff fl' s' j B'), Hfr.
    + intros j Hj. apply Ho. by rewrite <- (frame_free_iff fl' s').
Defined.

(** ** Properties *)

Section Claims.
Context (cfg : config) (cpu : Z).

(** C1 (functional): [page_alloc], called without the lock, hands out an aligned chunk of the
    requested order whose frames were all free, removes exactly those frames from the free
    frames, zeroes them when asked to, and leaves everything else (reference counts, other
    pages, the rank of the CPU) alone; it fails only when no free chunk is large enough,
    and then changes nothing.  The lock is released in both cases. *)
Theorem page_alloc_correct flags fl s :
  allocator_ok fl s ->
  (exists s', page_alloc cfg cpu flags s = Ret None s' /\ (forall k, req_order flags <= k <= 9 -> fl k = [])
    /\ allocator_ok fl s' /\ pages s' = pages s /\ lists s' = lists s /\ frames s' = frames s /\ same_rest s s')
  \/ (exists p s' fl', page_alloc cfg cpu flags s = Ret (Some p) s' /\ allocated flags fl s p fl' s').
Proof. apply page_alloc_ok. Qed.

(** C2 (functional): [page_free] of an allocated chunk puts exactly its frames back among the
    free frames, coalesces it with its buddies as far as possible (no two free buddies
    remain: a part of [allocator_ok]), takes the page off the active list, changes no
    reference count and releases both locks, with the optional checks on or off. *)
Theorem page_free_correct fl s p o :
  allocator_ok fl s -> held (npages s) (pages s) fl p o ->
  exists s' fl', page_free cfg cpu p s = Ret tt s' /\ freed fl s p o fl' s'.
Proof. apply page_free_ok. Qed.

(** Fact (round trip): freeing the chunk an allocation returned makes the same frames free
    again as before the allocation. *)
Theorem page_alloc_free_roundtrip flags s p s1 :
  mem_ok s -> page_alloc cfg cpu flags s = Ret (Some p) s1 ->
  exists s2, page_free cfg cpu p s1 = Ret tt s2 /\ mem_ok s2 /\ forall j, frame_free s2 j <-> frame_free s j.
Proof.
  intros M E. destruct (pa_alloc_spec (PageAllocator := buddy_page_allocator cfg cpu) flags s M)
    as [(s' & E' & _)|(p' & s' & E' & M' & U & Hfr & _)]; simpl in E'; rewrite E in E'; simplify_eq.
  destruct (pa_free_spec (PageAllocator := buddy_page_allocator cfg cpu) s' p' _ M' U) as (s2 & E2 & M2 & Hfr2 & _).
  exists s2. split; [exact E2|]. split; [done|]. intros j. by rewrite Hfr2, Hfr.
Qed.

(** Fact (functional): [count_total_free_pages] returns the number of free frames. *)
Theorem count_total_free_pages_correct s :
  mem_ok s -> 0 <= npages s ->
  exists l, NoDup l /\ (forall j, j ∈ l <-> frame_free s j) /\
    count_total_free_pages s = Ret (Z.of_nat (length l)) s.
Proof.
  intros [fl A] Hn. pose proof A as [[C L] _ _ Hnp]. exists (frames_upto 10 fl).
  split; [by eapply frames_upto_nodup|]. split.
  { intros j. rewrite (frame_free_iff fl) by (split; done). by apply (free_frame_list (npages s) (pages s)). }
  unfold count_total_free_pages. rewrite frames_upto_length.
  rewrite <- (u64_id (free_count_upto 10 fl)).
  - by apply (count_total_from_ok _ s fl 0).
  - pose proof (free_count_bound _ _ _ Hn C). unfold free_count in *. lia.
Qed.

(** Fact (functional): [page_decref] panics on an unreferenced page, only counts down while
    other references remain, and frees the chunk when the last one goes. *)
Theorem page_decref_correct s p g :
  pages s !! p = Some g -> 0 <= pp_ref g < 2 ^ 16 ->
  (pp_ref g = 0 -> page_decref cfg cpu p s = Panic)
  /\ (1 < pp_ref g -> page_decref cfg cpu p s = Ret tt (set_pages (<[p := set_pp_ref (pp_ref g - 1) g]> (pages s)) s))
  /\ (pp_ref g = 1 -> let s1 := set_pages (<[p := set_pp_ref 0 g]> (pages s)) s in
      forall o, mem_ok s1 -> in_use s1 p o ->
      exists s', page_decref cfg cpu p s = Ret tt s' /\ mem_ok s'
        /\ (forall j, frame_free s' j <-> frame_free s1 j \/ in_chunk p o j)).
Proof.
  intros Hg Hr. unfold page_decref. rewrite (bind_get_page _ g) by done. split; [|split].
  - by intros ->.
  - intros H1. replace (pp_ref g >? 0) with true by (symmetry; apply Z.gtb_lt; lia).
    unfold kbind at 1, kassert, kret at 1. rewrite (bind_mod_page _ g) by done.
    unfold u16. rewrite Z.mod_small by lia.
    rewrite (bind_get_page _ (set_pp_ref (pp_ref g - 1) g)) by apply lookup_insert_eq.
    cbn [pp_ref set_pp_ref]. destruct (Z.eqb_spec (pp_ref g - 1) 0); [lia|done].
  - intros E1 o M U. rewrite E1. unfold kbind at 1, kassert, kret at 1. simpl.
    rewrite (bind_mod_page _ g) by done. rewrite E1.
    rewrite (bind_get_page _ (set_pp_ref 0 g)) by apply lookup_insert_eq. simpl.
    destruct (pa_free_spec (PageAllocator := buddy_page_allocator cfg cpu) _ p o M U) as (s2 & E2 & M2 & Hfr2 & _).
    exists s2. split; [exact E2|]. split; [done|]. exact Hfr2.
Qed.

End Claims.

(** ** A machine with 512 pages, all of them one free chunk of order 9 *)

Definition demo_page (i : Z) : page_info :=
  mk_page 0 (if i =? 0 then 9 else 0) (if i =? 0 then 1 else 0) 1 0 0 None.
Definition demo_pages : gmap Z page_info := list_to_map ((fun i => (i, demo_page i)) <$> seqZ 0 512).
Definition self (n : mloc) : mloc * list_node mloc := (n, mk_node n n).
Definition demo_lists : gmap mloc (list_node mloc) :=
  list_to_map ([(FreeList 9, mk_node (PpNode 0) (PpNode 0)); (PpNode 0, mk_node (FreeList 9) (FreeList 9));
                self ActivePages] ++ ((fun k => self (FreeList k)) <$> seqZ 0 9)
               ++ ((fun i => self (PpNode i)) <$> seqZ 1 511) ++ ((fun i => self (ActiveNode i)) <$> seqZ 0 512)).
Definition demo : mstate :=
  mk_mstate demo_pages 512 demo_lists ∅ (static_lock "buddy_lock") (static_lock "active_pages_lock") 0 None 0 [].
Definition demo_fl (k : Z) : list Z := if k =? 9 then [0] else [].

Lemma demo_pages_lookup i : 0 <= i < 512 -> demo_pages !! i = Some (demo_page i).
Proof.
  intros Hi. apply elem_of_list_to_map_1.
  - rewrite <- list_fmap_compose. rewrite (list_fmap_ext _ id), list_fmap_id; [apply NoDup_seqZ|done].
  - apply list_elem_of_fmap. exists i. split; [done|]. apply elem_of_seqZ. lia.
Qed.

Lemma demo_pages_dom i p : demo_pages !! i = Some p -> 0 <= i < 512.
Proof.
  intros Hp. apply elem_of_list_to_map_2, list_elem_of_fmap in Hp as (j & [= <- _] & Hj%elem_of_seqZ). lia.
Qed.

Lemma demo_fl_in k i : i ∈ demo_fl k -> k = 9 /\ i = 0.
Proof. unfold demo_fl. destruct (Z.eqb_spec k 9); set_solver. Qed.

Definition ring_nil (n : mloc) : bool :=
  bool_decide (get_next demo_lists n = Some n /\ get_prev demo_lists n = Some n).

Definition node_there (n : mloc) : bool := match demo_lists !! n with Some _ => true | None => false end.

Lemma node_there_some n : node_there n = true -> is_Some (demo_lists !! n).
Proof. unfold node_there. destruct (demo_lists !! n); [eauto|done]. Qed.

Lemma ring_nil_dlist n : ring_nil n = true -> dlist demo_lists n [].
Proof. unfold ring_nil. rewrite bool_decide_eq_true. intros H. split; [apply NoDup_singleton|exact H]. Qed.

#[local] Opaque demo_lists demo_pages.

Lemma demo_ok : allocator_ok demo_fl demo.
Proof.
  split; [|done|done|done]. split.
  - assert (chunk 512 demo_pages 0 9) as Hc.
    { split; try (done || lia).
      - intros j Hj. unfold in_chunk in Hj. exists (demo_page j). rewrite demo_pages_lookup by lia.
        split; [done|]. split; [done|]. split; [done|]. intros Hne. unfold demo_page. simpl.
        by destruct (Z.eqb_spec j 0).
      - exists (demo_page 0). by rewrite demo_pages_lookup. }
    split; simpl.
    + done.
    + intros i. split; [|intros Hi; by rewrite demo_pages_lookup].
      intros [p Hp]. by eapply demo_pages_dom.
    + by intros k i [-> ->]%demo_fl_in.
    + intros k i p [-> ->]%demo_fl_in. rewrite demo_pages_lookup by lia. by intros [= <-].
    + intros k. unfold demo_fl. destruct (k =? 9); [apply NoDup_singleton|constructor].
    + intros k i k' i' [-> ->]%demo_fl_in [-> ->]%demo_fl_in. done.
    + intros i p Hi Hf _. pose proof (demo_pages_dom _ _ Hi).
      rewrite demo_pages_lookup in Hi by lia. injection Hi as <-. unfold demo_page in *. simpl in *.
      destruct (Z.eqb_spec i 0) as [E|]; [|done]. rewrite E. left.
    + intros k i Hk [-> _]%demo_fl_in. lia.
  - split; simpl.
    + intros k Hk. unfold demo_fl. destruct (Z.eqb_spec k 9) as [->|Hne].
      * split; [|vm_compute; tauto]. simpl. apply NoDup_cons. split; [|apply NoDup_singleton].
        by intros ?%list_elem_of_singleton.
      * apply ring_nil_dlist. revert k Hk Hne.
        assert (forall k, 0 <= k < 9 -> ring_nil (FreeList k) = true) as H; [|intros; apply H; lia].
        apply (range_check (fun k => ring_nil (FreeList k))). by vm_compute.
    + intros i Hi. apply node_there_some. revert i Hi.
      apply (range_check (fun i => node_there (PpNode i))). by vm_compute.
    + exists []. split; [apply ring_nil_dlist; by vm_compute|]. intros i Hi _. apply ring_nil_dlist.
      revert i Hi. apply (range_check (fun i => ring_nil (ActiveNode i))). by vm_compute.
Qed.

(** ** Witnesses *)

Lemma page_alloc_correct_witness :
  exists p s' fl', page_alloc default_config 0 ALLOC_ZERO demo = Ret (Some p) s'
    /\ allocated ALLOC_ZERO demo_fl demo p fl' s'.
Proof.
  destruct (page_alloc_correct default_config 0 ALLOC_ZERO demo_fl demo demo_ok) as [(s' & _ & Hn & _)|H]; [|exact H].
  specialize (Hn 9 ltac:(vm_compute; split; discriminate)). discriminate Hn.
Defined.

Lemma page_free_correct_witness :
  exists p s1 fl1 s2 fl2, page_alloc default_config 0 ALLOC_HUGE demo = Ret (Some p) s1
    /\ page_free (mk_config true true) 0 p s1 = Ret tt s2 /\ freed fl1 s1 p 9 fl2 s2.
Proof.
  destruct (page_alloc_ok default_config 0 ALLOC_HUGE demo_fl demo demo_ok) as [(s' & _ & Hn & _)|(p & s1 & fl1 & E & A)].
  - specialize (Hn 9 ltac:(vm_compute; split; discriminate)). discriminate Hn.
  - destruct (page_free_correct (mk_config true true) 0 fl1 s1 p 9) as (s2 & fl2 & E2 & F).
    + apply A.
    + apply A.
    + exists p, s1, fl1, s2, fl2. auto.
Defined.

Lemma page_alloc_free_roundtrip_witness :
  exists p s1 s2, page_alloc default_config 0 0 demo = Ret (Some p) s1
    /\ page_free default_config 0 p s1 = Ret tt s2 /\ forall j, frame_free s2 j <-> frame_free demo j.
Proof.
  destruct (page_alloc_ok default_config 0 0 demo_fl demo demo_ok) as [(s' & _ & Hn & _)|(p & s1 & fl1 & E & A)].
  - specialize (Hn 9 ltac:(vm_compute; split; discriminate)). discriminate Hn.
  - destruct (page_alloc_free_roundtrip default_config 0 0 demo p s1) as (s2 & E2 & _ & F).
    + exists demo_fl. exact demo_ok.
    + exact E.
    + exists p, s1, s2. auto.
Defined.


Lemma count_total_free_pages_correct_witness :
  exists l, NoDup l /\ (forall j, j ∈ l <-> frame_free demo j)
    /\ count_total_free_pages demo = Ret (Z.of_nat (length l)) demo.
Proof.
  apply (count_total_free_pages_correct demo).
  - exists demo_fl. exact demo_ok.
  - vm_compute. discriminate.
Defined.

Lemma page_decref_correct_witness : page_decref default_config 0 0 demo = Panic.
Proof.
  apply (page_decref_correct default_config 0 demo 0 (demo_page 0)).
  - apply demo_pages_lookup. lia.
  - simpl. lia.
  - reflexivity.
Defined.
