(* ===== verification/Consistency.v ===== *)
(** * The consistency check of the tests (test/shared/src/buddy_consistency.c)

    A recursion over the halves of a chunk that panics at the first page whose words and
    list node contradict each other.  The theorem says which states it accepts. *)

From Stdlib Require Import ZArith Lia.
From stdpp Require Import strings base gmap fin_maps list.
From S2P Require Import Prelude ListHeap Spinlock MemState Buddy BuddyInv BuddyThm.

#[local] Open Scope Z_scope.
#[local] Open Scope kernel_scope.

Definition node_is_empty (page : Z) : K mstate bool := list_get (fun h => list_is_empty h (PpNode page)).
Definition panic_if (b : bool) : K mstate unit := if b then kpanic else kret tt.
Definition truth (x : Z) : bool := negb (x =? 0).

(** The tests of one page. *)
Definition check_one (page : Z) (parent : option Z) : K mstate (option Z) :=
  g <-- get_page page;;
  e <-- node_is_empty page;;
  (match parent with
   | Some q =>
       if q =? page then kret tt else
       gq <-- get_page q;; panic_if (truth (pp_free g) || negb e || (pp_order g <? pp_order gq))
   | None => kret tt
   end);;;
  panic_if (truth (pp_free g) && e);;;
  panic_if (negb (truth (pp_free g)) && negb e);;;
  panic_if (truth (pp_free g) && (pp_ref g >? 0));;;
  panic_if (negb (truth (pp_avail g)) && (truth (pp_free g) || (pp_ref g >? 0)));;;
  kret (if truth (pp_free g) && e then Some page else parent).

Fixpoint check_buddy_consistency (addr : Z) (order : nat) (parent : option Z) : K mstate unit :=
  page <-- pa2page addr;;
  panic_if (Z.of_nat order >? BUDDY_MAX_ORDER);;;
  parent <-- check_one page parent;;
  match order with
  | O => kret tt
  | S order =>
      check_buddy_consistency addr order parent;;;
      check_buddy_consistency (Z.lor addr (Z.shiftl 1 (Z.of_nat order + 12))) order parent
  end.

(** [fuel]: the chunks below BOOT_MAP_LIM. *)
Fixpoint bootmap_loop (fuel : nat) (addr : Z) : K mstate unit :=
  if addr <? BOOT_MAP_LIM then
    match fuel with
    | O => khang
    | S fuel =>
        check_buddy_consistency addr (Z.to_nat (BUDDY_MAX_ORDER - 1)) None;;;
        bootmap_loop fuel (addr + Z.shiftl 1 (BUDDY_MAX_ORDER + 12 - 1))
    end
  else kret tt.
Definition check_buddy_consistency_bootmap : K mstate unit := bootmap_loop 4 0.

(** ** What it accepts *)

Section Accepts.
Context (s : mstate).

(** A page is on a list exactly if it is free; a free page has no references; an unavailable one
    is neither free nor referenced. *)
Definition page_fine (j : Z) : bool :=
  match pages s !! j, list_is_empty (lists s) (PpNode j) with
  | Some g, Some e =>
      eqb (truth (pp_free g)) (negb e) && implb (truth (pp_free g)) (negb (pp_ref g >? 0))
      && implb (negb (truth (pp_avail g))) (negb (truth (pp_free g)) && negb (pp_ref g >? 0))
  | _, _ => false
  end.
Definition all_fine (i n : Z) : bool := forallb page_fine (seqZ i n).

Definition known (i n : Z) : Prop := forall j, i <= j < i + n -> is_Some (pages s !! j) /\ is_Some (list_is_empty (lists s) (PpNode j)).

Lemma check_one_run j : is_Some (pages s !! j) -> is_Some (list_is_empty (lists s) (PpNode j)) ->
  check_one j None s = if page_fine j then Ret None s else Panic.
Proof.
  intros [g Hg] [e He]. unfold check_one, page_fine. rewrite (bind_get_page _ g) by done. rewrite Hg, He.
  assert (node_is_empty j s = Ret e s) as E by (unfold node_is_empty, list_get, kderef; by rewrite He).
  rewrite (krun _ _ _ _ _ E), kret_run. unfold panic_if.
  destruct (truth (pp_free g)), e, (truth (pp_avail g)), (pp_ref g >? 0); reflexivity.
Qed.

Lemma all_fine_split i n m : 0 <= n -> 0 <= m -> all_fine i (n + m) = all_fine i n && all_fine (i + n) m.
Proof. intros Hn Hm. unfold all_fine. by rewrite seqZ_app, forallb_app. Qed.

Lemma all_fine_head i n : 0 < n -> page_fine i = false -> all_fine i n = false.
Proof. intros Hn H. unfold all_fine. rewrite seqZ_cons by lia. cbn [forallb]. by rewrite H. Qed.

Lemma all_fine_one i : all_fine i 1 = page_fine i.
Proof. unfold all_fine. rewrite seqZ_cons by lia. cbn [forallb]. rewrite (seqZ_nil _ (Z.pred 1)) by lia. apply andb_true_r. Qed.

Lemma pa2page_run i n : 0 < n -> i + n <= npages s -> pa2page (i * 2 ^ 12) s = Ret i s.
Proof. intros Hn Hi. unfold pa2page, PAGE_INDEX, PAGE_TABLE_SHIFT. rewrite Z.shiftr_div_pow2, Z.div_mul by lia. by destruct (Z.leb_spec (npages s) i); [lia|]. Qed.

Lemma upper_half i o : 0 <= i -> i mod 2 ^ Z.of_nat (S o) = 0 ->
  Z.lor (i * 2 ^ 12) (Z.shiftl 1 (Z.of_nat o + 12)) = (i + 2 ^ Z.of_nat o) * 2 ^ 12.
Proof.
  intros Hi Hm. rewrite Nat2Z.inj_succ in Hm. apply Z.mod_divide in Hm as [q ->]; [|pose proof (Z.pow_pos_nonneg 2 (Z.succ (Z.of_nat o))); lia].
  replace (q * 2 ^ Z.succ (Z.of_nat o) * 2 ^ 12) with (Z.shiftl q (Z.succ (Z.of_nat o) + 12)) by (rewrite Z.shiftl_mul_pow2, Z.pow_add_r by lia; lia).
  rewrite (Z.shiftl_mul_pow2 1), Z.mul_1_l by lia. rewrite lor_high; [|lia|split; [lia|apply Z.pow_lt_mono_r; lia]].
  rewrite !Z.pow_add_r by lia. lia.
Qed.

(** Fact (equivalence): the recursion panics exactly if one of the pages of the chunk is not
    fine.  The parent it hands down is never set: the pages that would be one have
    panicked before. *)
Theorem check_buddy_consistency_correct (o : nat) (i : Z) :
  Z.of_nat o <= BUDDY_MAX_ORDER -> 0 <= i -> i mod 2 ^ Z.of_nat o = 0 -> i + 2 ^ Z.of_nat o <= npages s -> known i (2 ^ Z.of_nat o) ->
  check_buddy_consistency (i * 2 ^ 12) o None s = if all_fine i (2 ^ Z.of_nat o) then Ret tt s else Panic.
Proof.
  revert i. induction o as [|o IH]; intros i Ho Hi Hmod Hnp Hk.
  - cbn [check_buddy_consistency]. rewrite (krun _ _ _ _ _ (pa2page_run i 1 ltac:(lia) Hnp)). change (panic_if (Z.of_nat 0 >? BUDDY_MAX_ORDER)) with (kret (S := mstate) tt). rewrite kret_run. change (2 ^ Z.of_nat 0) with 1 in *. rewrite all_fine_one.
    destruct (Hk i ltac:(lia)) as [H1 H2]. unfold kbind. rewrite check_one_run by done. by destruct (page_fine i).
  - cbn [check_buddy_consistency]. assert (0 < 2 ^ Z.of_nat o) as Hpos by (apply Z.pow_pos_nonneg; lia).
    rewrite (krun _ _ _ _ _ (pa2page_run i (2 ^ Z.of_nat (S o)) ltac:(apply Z.pow_pos_nonneg; lia) Hnp)).
    assert (2 ^ Z.of_nat (S o) = 2 ^ Z.of_nat o + 2 ^ Z.of_nat o) as Hdouble by (rewrite Nat2Z.inj_succ, Z.pow_succ_r by lia; lia).
    assert ((Z.of_nat (S o) >? BUDDY_MAX_ORDER) = false) as -> by (rewrite Z.gtb_ltb; apply Z.ltb_ge; lia). cbn [panic_if]. rewrite kret_run.
    destruct (Hk i ltac:(lia)) as [H1 H2]. pose proof (check_one_run i H1 H2) as E1.
    destruct (page_fine i) eqn:Hf; [|rewrite all_fine_head by (done || lia); unfold kbind; by rewrite E1].
    rewrite (krun _ _ _ _ _ E1). rewrite upper_half by done. rewrite Hdouble, all_fine_split by lia.
    assert (i mod 2 ^ Z.of_nat o = 0) as Hm1.
    { rewrite Hdouble in Hmod. apply Z.mod_divide in Hmod as [q ->]; [|lia]. replace (q * (2 ^ Z.of_nat o + 2 ^ Z.of_nat o)) with (2 * q * 2 ^ Z.of_nat o) by lia. by apply Z.mod_mul; lia. }
    assert (known i (2 ^ Z.of_nat o)) as K1 by (intros j Hj; apply Hk; lia).
    assert (known (i + 2 ^ Z.of_nat o) (2 ^ Z.of_nat o)) as K2 by (intros j Hj; apply Hk; lia).
    pose proof (IH i ltac:(lia) Hi Hm1 ltac:(lia) K1) as E2.
    destruct (all_fine i (2 ^ Z.of_nat o)); [|unfold kbind; by rewrite E2]. rewrite (krun _ _ _ _ _ E2).
    apply IH; [lia|lia| |lia|done]. rewrite <- Z.add_mod_idemp_l, Hm1, Z.add_0_l by lia. by apply Z.mod_same; lia.
Qed.

Lemma bootmap_loop_run n : (n <= 4)%nat -> 2048 <= npages s -> known 0 2048 ->
  bootmap_loop n ((2048 - 512 * Z.of_nat n) * 2 ^ 12) s = if all_fine (2048 - 512 * Z.of_nat n) (512 * Z.of_nat n) then Ret tt s else Panic.
Proof.
  intros Hn Hnp Hk. induction n as [|n IH]; [reflexivity|]. cbn [bootmap_loop].
  assert (forall x, 0 <= x < 2048 -> (x * 2 ^ 12 <? BOOT_MAP_LIM) = true) as Hb by (intros x Hx; apply Z.ltb_lt; unfold BOOT_MAP_LIM; lia).
  rewrite Hb by lia. set (i := 2048 - 512 * Z.of_nat (S n)).
  assert (512 * Z.of_nat (S n) = 2 ^ Z.of_nat 9 + 512 * Z.of_nat n) as -> by (change (2 ^ Z.of_nat 9) with 512; lia).
  rewrite all_fine_split by (change (2 ^ Z.of_nat 9) with 512; lia).
  assert (check_buddy_consistency (i * 2 ^ 12) 9 None s = if all_fine i (2 ^ Z.of_nat 9) then Ret tt s else Panic) as E.
  { change (2 ^ Z.of_nat 9) with 512. apply check_buddy_consistency_correct; change (2 ^ Z.of_nat 9) with 512; unfold i; [done|lia| |lia|].
    - replace (2048 - 512 * Z.of_nat (S n)) with ((4 - Z.of_nat (S n)) * 512) by lia. by apply Z.mod_mul.
    - intros j Hj. apply Hk. lia. }
  change (Z.to_nat (BUDDY_MAX_ORDER - 1)) with 9%nat. unfold kbind. rewrite E. destruct (all_fine i (2 ^ Z.of_nat 9)); [|done].
  change (Z.shiftl 1 (BUDDY_MAX_ORDER + 12 - 1)) with (512 * 2 ^ 12). change (2 ^ Z.of_nat 9) with 512.
  replace (i * 2 ^ 12 + 512 * 2 ^ 12) with ((2048 - 512 * Z.of_nat n) * 2 ^ 12) by (unfold i; lia).
  replace (i + 512) with (2048 - 512 * Z.of_nat n) by (unfold i; lia). apply IH. lia.
Qed.

(** Fact (equivalence): the check of all memory below 8 MB returns exactly if all its pages are
    fine. *)
Theorem check_bootmap_correct : 2048 <= npages s -> known 0 2048 ->
  check_buddy_consistency_bootmap s = if all_fine 0 2048 then Ret tt s else Panic.
Proof. intros Hnp Hk. exact (bootmap_loop_run 4 ltac:(lia) Hnp Hk). Qed.
End Accepts.
