(* ===== verification/Slab.v ===== *)
(** * Slabs and kmalloc (kernel/mem/slab.c, kmem.c, include/kernel/mem/slab.h)

    The allocator of small objects: pages from the buddy allocator are cut into objects
    of one size, each behind a header with a list node, and followed by the footer
    [struct slab_info].  One CPU's slabs are modelled, over the memory of MemState.v.

    The object in slot [i] of the page [f] is known by the pair [(f, i)], which stands
    for the header and for the address behind it; its data are words of the frame.  The
    list nodes in headers, footers and slabs form a store of their own. *)

From Stdlib Require Import ZArith Lia.
From stdpp Require Import strings base gmap fin_maps list.
From S2P Require Import Prelude ListHeap MemState Buddy.

#[local] Open Scope Z_scope.
#[local] Open Scope kernel_scope.

Definition SLAB_ALIGN : Z := 32.
Definition sizeof_slab_obj : Z := 24.
Definition sizeof_slab_info : Z := 48.

(** [struct slab], less its lists. *)
Record slab := mk_slab { info_off : Z; obj_size : Z; count : Z }.
(** [struct slab_info], less its lists; the slab by its index. *)
Record slab_info := mk_slab_info { si_slab : Z; free_count : Z }.

(** The list nodes: [partial] and [full] of a slab, [node] and [free_list] of the footer of a page,
    [node] of an object. *)
Inductive sloc := Partial (k : Z) | Full (k : Z) | InfoNode (f : Z) | FreeList (f : Z) | ObjNode (f i : Z).
#[global] Instance sloc_eq_dec : EqDecision sloc.
Proof. solve_decision. Defined.
#[global] Instance sloc_countable : Countable sloc.
Proof.
  refine (inj_countable' (fun l => match l with
      | Partial k => (0, k, 0) | Full k => (1, k, 0) | InfoNode f => (2, f, 0) | FreeList f => (3, f, 0) | ObjNode f i => (4, f, i) end)
    (fun '(t, a, b) => if t =? 0 then Partial a else if t =? 1 then Full a else if t =? 2 then InfoNode a
       else if t =? 3 then FreeList a else ObjNode a b) _).
  by intros [].
Defined.

Record kmem := mk_kmem {
  slabs : gmap Z slab;
  nslabs : Z;
  (** The footer of a page, and the page whose footer the header of an object refers to. *)
  infos : gmap Z slab_info;
  obj_info : gmap (Z * Z) Z;
  nodes : gmap sloc (list_node sloc);
  memory : mstate
}.

Definition with_slabs x n s := mk_kmem x n (infos s) (obj_info s) (nodes s) (memory s).
Definition with_infos x s := mk_kmem (slabs s) (nslabs s) x (obj_info s) (nodes s) (memory s).
Definition with_obj_info x s := mk_kmem (slabs s) (nslabs s) (infos s) x (nodes s) (memory s).
Definition with_nodes x s := mk_kmem (slabs s) (nslabs s) (infos s) (obj_info s) x (memory s).
Definition with_memory x s := mk_kmem (slabs s) (nslabs s) (infos s) (obj_info s) (nodes s) x.

Definition get_slab (k : Z) : K kmem slab := fun s => kderef (slabs s !! k) s.
Definition get_info (f : Z) : K kmem slab_info := fun s => kderef (infos s !! f) s.
Definition put_info (f : Z) (x : slab_info) : K kmem unit := kmodify (fun s => with_infos (<[f := x]> (infos s)) s).
Definition node_op (g : gmap sloc (list_node sloc) -> option (gmap sloc (list_node sloc))) : K kmem unit := fun s =>
  match g (nodes s) with Some h => Ret tt (with_nodes h s) | None => Fault end.
Definition node_get {A} (g : gmap sloc (list_node sloc) -> option A) : K kmem A := fun s => kderef (g (nodes s)) s.
(** [list_init] of a node in memory that holds no list yet. *)
Definition node_init (n : sloc) : K kmem unit := kmodify (fun s => with_nodes (<[n := mk_node n n]> (nodes s)) s).
Definition on_memory {A} (m : K mstate A) : K kmem A := fun s =>
  match m (memory s) with
  | Ret a x => Ret a (with_memory x s)
  | NoReturn x => NoReturn (with_memory x s)
  | Panic => Panic | Fault => Fault | Hang => Hang
  end.

Section Ops.
Context (cfg : config) (cpu : Z).

(** ** slab.c *)

(** The object in slot [i] of page [f], of slab [k]. *)
Definition add_object (f i : Z) : K kmem unit :=
  kmodify (fun s => with_obj_info (<[(f, i) := f]> (obj_info s)) s);;;
  node_init (ObjNode f i);;;
  node_op (fun h => list_add h (FreeList f) (ObjNode f i)).
(** [for (i = 0; i < slab->count; ++i)] *)
Fixpoint add_objects (n : nat) (f i : Z) : K kmem unit :=
  match n with
  | O => kret tt
  | S n => add_object f i;;; add_objects n f (i + 1)
  end.

Definition slab_alloc_chunk (k : Z) : K kmem Z :=
  page <-- on_memory (page_alloc cfg cpu ALLOC_ZERO);;
  match page with
  | None => kret (-1)
  | Some f =>
      on_memory (mod_page f (fun p => set_pp_ref (u16 (pp_ref p + 1)) p));;;
      on_memory (page2kva f);;;
      sl <-- get_slab k;;
      put_info f (mk_slab_info k (count sl));;;
      node_init (InfoNode f);;;
      node_init (FreeList f);;;
      add_objects (Z.to_nat (count sl)) f 0;;;
      node_op (fun h => list_add h (Partial k) (InfoNode f));;;
      kret 0
  end.

Definition slab_free_chunk (f : Z) : K kmem unit :=
  page <-- on_memory (pa2page (page2pa f));;
  node_op (fun h => list_del h (InfoNode f));;;
  on_memory (page_decref cfg cpu page).

Definition slab_setup (k obj_size : Z) : K kmem unit :=
  let obj_size := ROUNDUP (obj_size + sizeof_slab_obj) SLAB_ALIGN in
  let count := (PAGE_SIZE - sizeof_slab_info) / obj_size in
  kmodify (fun s => with_slabs (<[k := mk_slab (obj_size * count) obj_size count]> (slabs s)) (nslabs s) s);;;
  node_init (Full k);;;
  node_init (Partial k).

(** [NULL] is [None]. *)
Definition slab_alloc (k : Z) : K kmem (option (Z * Z)) :=
  e <-- node_get (fun h => list_is_empty h (Partial k));;
  ok <-- (if e then r <-- slab_alloc_chunk k;; kret (negb (r <? 0)) else kret true);;
  if negb ok then kret None else
  first <-- node_get (fun h => get_next h (Partial k));;
  f <-- match first with InfoNode f => kret f | _ => kfault end;;
  first <-- node_get (fun h => get_next h (FreeList f));;
  obj <-- match first with ObjNode g i => kret (g, i) | _ => kfault end;;
  node_op (fun h => list_del h (ObjNode (fst obj) (snd obj)));;;
  x <-- get_info f;;
  put_info f (mk_slab_info (si_slab x) (u64 (free_count x - 1)));;;
  e <-- node_get (fun h => list_is_empty h (FreeList f));;
  (if e : bool then
     node_op (fun h => list_del h (InfoNode f));;;
     node_op (fun h => list_add h (Full k) (InfoNode f))
   else kret tt);;;
  kret (Some obj).

(** [memset(p, 0, slab->obj_size - sizeof *obj)]: the words behind the header. *)
Definition obj_words (sl : slab) (i : Z) : list Z := seqZ ((i * obj_size sl + sizeof_slab_obj) / 8) ((obj_size sl - sizeof_slab_obj) / 8).
Definition clear_words (f : Z) (ws : list Z) (m : gmap Z (gmap Z Z)) : gmap Z (gmap Z Z) :=
  <[f := foldl (fun c w => <[w := 0]> c) (default ∅ (m !! f)) ws]> m.

Definition slab_free (p : option (Z * Z)) : K kmem unit :=
  match p with
  | None => kfault
  | Some (g, i) =>
      f <-- (fun s => kderef (obj_info s !! (g, i)) s);;
      x <-- get_info f;;
      sl <-- get_slab (si_slab x);;
      on_memory (fun m => Ret tt (set_frames (clear_words g (obj_words sl i) (frames m)) m));;;
      e <-- node_get (fun h => list_is_empty h (FreeList f));;
      (if e : bool then
         node_op (fun h => list_del h (InfoNode f));;;
         node_op (fun h => list_add h (Partial (si_slab x)) (InfoNode f))
       else kret tt);;;
      node_op (fun h => list_add h (FreeList f) (ObjNode g i));;;
      put_info f (mk_slab_info (si_slab x) (u64 (free_count x + 1)));;;
      x <-- get_info f;;
      if free_count x >=? count sl then slab_free_chunk f else kret tt
  end.

(** ** kmem.c *)

Fixpoint setup_slabs (n : nat) (i : Z) : K kmem unit :=
  match n with
  | O => kret tt
  | S n => slab_setup i ((i + 1) * SLAB_ALIGN);;; setup_slabs n (i + 1)
  end.
Definition kmem_init : K kmem Z :=
  kmodify (fun s => with_slabs (slabs s) 32 s);;;
  s <-- kget;;
  setup_slabs (Z.to_nat (nslabs s)) 0;;;
  kret 0.
Definition kmem_init_mp : K kmem Z := kmem_init;;; kret 0.

Definition kmalloc (size : Z) : K kmem (option (Z * Z)) :=
  if size =? 0 then kret None else
  let size := ROUNDUP size SLAB_ALIGN in
  let index := u64 (size / SLAB_ALIGN - 1) in
  s <-- kget;;
  if index >=? nslabs s then kret None else slab_alloc index.

Definition kfree (p : option (Z * Z)) : K kmem unit := slab_free p.

End Ops.
