(* ===== verification/SlabInv.v ===== *)
(** * Slabs: the invariant (kernel/mem/slab.c)

    The invariant of the slab allocator of Slab.v: which pages each slab has, which slots of each page are free, and how the
    list nodes, counters, object headers and page frames represent that. *)

From Stdlib Require Import ZArith Lia.
From stdpp Require Import strings functions base gmap fin_maps list.
From S2P Require Import Prelude ListHeap Rings Spinlock MemState Buddy BuddyInv BuddyThm Slab.

#[local] Open Scope Z_scope.
#[local] Open Scope kernel_scope.

(** ** The slabs of kmem_init *)

Definition slab_of (k : Z) : slab :=
  let size := ROUNDUP ((k + 1) * SLAB_ALIGN + sizeof_slab_obj) SLAB_ALIGN in
  let count := (PAGE_SIZE - sizeof_slab_info) / size in
  mk_slab (size * count) size count.
#[local] Abbreviation slots k := (count (slab_of k)).

(** Slots do not overlap, hold what is asked for, and leave room for the footer. *)
Record slab_fits (k : Z) (sl : slab) : Prop := {
  sf_count : 1 <= count sl < 64;
  sf_size : (k + 1) * SLAB_ALIGN + sizeof_slab_obj <= obj_size sl;
  sf_align : obj_size sl mod SLAB_ALIGN = 0;
  sf_info : info_off sl = obj_size sl * count sl;
  sf_page : info_off sl + sizeof_slab_info <= PAGE_SIZE
}.

Lemma slab_of_fits k : 0 <= k < 32 -> slab_fits k (slab_of k).
Proof.
  intros Hk. pose proof (range_check (fun k => (1 <=? slots k) && (slots k <? 64)
    && ((k + 1) * SLAB_ALIGN + sizeof_slab_obj <=? obj_size (slab_of k)) && (obj_size (slab_of k) mod SLAB_ALIGN =? 0)
    && (info_off (slab_of k) + sizeof_slab_info <=? PAGE_SIZE)) 32 ltac:(vm_compute; reflexivity) k Hk) as Hc.
  cbv beta in Hc. rewrite !andb_true_iff in Hc. destruct Hc as ((((H1 & H2) & H3) & H4) & H5). zify_bool. by split.
Qed.

(** ** The invariant *)

(** A frame a slab owns: in use, with the one reference of slab_alloc_chunk. *)
Record slab_page (m : mstate) (f : Z) : Prop := {
  sp_range : 0 <= f < npages m;
  sp_page : exists g, pages m !! f = Some g /\ pp_avail g = 1 /\ pp_ref g = 1 /\ pp_order g = 0 /\ pp_free g = 0;
  sp_used : ~ frame_free m f
}.

(** What the slabs hold: the pages on the two lists of each slab, and each page's slab and
    free slots. *)
Record view := mk_view { partial : Z -> list Z; full : Z -> list Z; chunks : gmap Z (Z * list Z) }.

Definition heads (v : view) (hd : sloc) : option (list sloc) :=
  match hd with
  | Partial k => if bool_decide (0 <= k < 32) then Some (InfoNode <$> partial v k) else None
  | Full k => if bool_decide (0 <= k < 32) then Some (InfoNode <$> full v k) else None
  | FreeList f => match chunks v !! f with Some (_, js) => Some (ObjNode f <$> js) | None => None end
  | _ => None
  end.

Definition words_of (s : kmem) (k f i : Z) : list Z :=
  (fun w => frame_word (frames (memory s)) f w) <$> obj_words (slab_of k) i.

Record chunk_ok (s : kmem) (k f : Z) (free : list Z) : Prop := {
  ck_slab : 0 <= k < 32;
  ck_info : infos s !! f = Some (mk_slab_info k (Z.of_nat (length free)));
  ck_free : forall i, i ∈ free -> 0 <= i < slots k /\ Forall (eq 0) (words_of s k f i);
  ck_objs : forall i, 0 <= i < slots k -> obj_info s !! (f, i) = Some f /\ is_Some (nodes s !! ObjNode f i);
  ck_page : slab_page (memory s) f
}.

Record slabs_ok (v : view) (s : kmem) : Prop := {
  so_mem : mem_ok (memory s);
  so_nslabs : nslabs s = 32;
  so_slabs : forall k, 0 <= k < 32 -> slabs s !! k = Some (slab_of k);
  so_rings : rings (nodes s) (heads v);
  so_partial : forall k f, 0 <= k < 32 -> f ∈ partial v k <-> exists i js, chunks v !! f = Some (k, i :: js);
  so_full : forall k f, 0 <= k < 32 -> f ∈ full v k <-> chunks v !! f = Some (k, []);
  so_chunk : forall f k js, chunks v !! f = Some (k, js) -> chunk_ok s k f js
}.

(** The allocated objects, each with its slab, as the client sees them. *)
Abbreviation objects := (gmap (Z * Z) Z).
Definition live (v : view) (f i k : Z) : Prop := exists js, chunks v !! f = Some (k, js) /\ 0 <= i < slots k /\ i ∉ js.
Definition kmem_ok (A : objects) (s : kmem) : Prop :=
  exists v, slabs_ok v s /\ forall f i k, A !! (f, i) = Some k <-> live v f i k.
