(* ===== verification/SlabThm.v ===== *)
(** * Slabs and kmalloc: theorems

    [kmalloc] and [kfree] over the slabs of Slab.v refine the obvious abstract heap: a
    finite map of the objects handed out.  The lemmas are the steps of slab_alloc and
    slab_free on the invariant of SlabInv.v; the page allocator is used through what
    BuddyThm.v promises of it. *)

From Stdlib Require Import ZArith Lia.
From stdpp Require Import strings functions base gmap fin_maps list.
From S2P Require Import Prelude ListHeap Rings Spinlock MemState Buddy BuddyInv BuddyThm Slab SlabInv.

#[local] Open Scope Z_scope.
#[local] Open Scope kernel_scope.
#[local] Abbreviation slots k := (count (slab_of k)).
#[local] Opaque slab_of.

(** ** Pages *)

Section Pages.
Context (cfg : config) (cpu : Z).
Implicit Types (m : mstate) (f p : Z).

Lemma slab_page_keep m m' f :
  slab_page m f -> npages m' = npages m -> pages m' !! f = pages m !! f -> (frame_free m' f -> frame_free m f) ->
  slab_page m' f.
Proof. intros [? (g & Hg & ?) ?] En Ep Ef. split; [by rewrite En|exists g; by rewrite Ep|auto]. Qed.

Lemma in_chunk_0 p j : in_chunk p 0 j <-> j = p.
Proof. unfold in_chunk. simpl. lia. Qed.

Lemma slab_page_in_use m f g :
  pages m !! f = Some g -> slab_page m f -> in_use (set_pages (<[f := set_pp_ref 0 g]> (pages m)) m) f 0.
Proof.
  intros Hg [Hr (g' & Hg' & Ha & Href & Ho & Hf) Hu]. simplify_eq. split; [|split].
  - split; simpl; try lia. 1: by rewrite Z.mod_1_r.
    + intros j Hj. apply in_chunk_0 in Hj as ->. exists (set_pp_ref 0 g). rewrite lookup_insert_eq. done.
    + exists (set_pp_ref 0 g). by rewrite lookup_insert_eq.
  - exists (set_pp_ref 0 g). simpl. by rewrite lookup_insert_eq.
  - intros j Hj. apply in_chunk_0 in Hj as ->. by rewrite (frame_free_used m f g 0).
Qed.

(** Allocating the page of a slab. *)
Lemma chunk_page m : mem_ok m ->
  (exists m', page_alloc cfg cpu ALLOC_ZERO m = Ret None m' /\ mem_ok m' /\ pages m' = pages m
     /\ frames m' = frames m /\ npages m' = npages m)
  \/ (exists p m1 m', page_alloc cfg cpu ALLOC_ZERO m = Ret (Some p) m1
     /\ mod_page p (fun g => set_pp_ref (u16 (pp_ref g + 1)) g) m1 = Ret tt m' /\ is_ret (page2kva p m') = true
     /\ mem_ok m' /\ slab_page m' p /\ ~ slab_page m p
     /\ (forall f, slab_page m f -> slab_page m' f)
     /\ frames m' = <[p := ∅]> (frames m)).
Proof.
  intros M. destruct (pa_alloc_spec (PageAllocator := buddy_page_allocator cfg cpu) ALLOC_ZERO m M)
    as [(m' & E & M' & Ep & Ef & R)|(p & m1 & E & M1 & U & Hfr & Ho & _ & Hz & R)]; simpl in E.
  { left. exists m'. split; [done|]. split; [done|]. split; [done|]. split; [done|apply R]. }
  right. change (req_order ALLOC_ZERO) with 0 in *. change (flag ALLOC_ZERO ALLOC_ZERO) with true in Hz. cbv iota in Hz.
  change (frames m1 = <[p := ∅]> (frames m)) in Hz.
  pose proof U as (Hc & (g & Hg & Hf) & Hnf).
  destruct (ch_frames _ _ _ _ Hc p) as (g' & Hg' & Ha & Hr & _); [by apply in_chunk_0|].
  destruct (ch_head _ _ _ _ Hc) as (g'' & Hg'' & Hor). simplify_eq.
  assert (frame_free m p) as Hfp by (apply Hfr; right; by apply in_chunk_0).
  set (m' := set_pages (<[p := set_pp_ref 1 g]> (pages m1)) m1).
  assert (forall j, frame_free m' j <-> frame_free m1 j) as Hfree by (intros j; by apply frame_free_used).
  pose proof (ch_pos _ _ _ _ Hc) as Hp0. pose proof (ch_range _ _ _ _ Hc) as Hp1.
  exists p, m1, m'. split; [done|]. split; [unfold mod_page; rewrite Hg, Hr; done|].
  split.
  { assert (npages m' <= 2 ^ 52) as Hn by (destruct M1 as [fl A]; exact (al_np _ _ A)).
    unfold page2kva, KADDR. rewrite page_index_shift by (simpl in *; lia).
    destruct (Z.leb_spec (npages m') p) as [Hle|]; [simpl in *; lia|done]. }
  split; [by eapply mem_ok_ref|].
  split; [split|split; [|split; [|done]]].
  - simpl in *. lia.
  - exists (set_pp_ref 1 g). simpl. rewrite lookup_insert_eq. done.
  - rewrite Hfree. apply Hnf. by apply in_chunk_0.
  - intros [_ _ Hn]. by apply Hn.
  - intros f Hs. assert (f <> p) as Hne by (intros ->; by destruct Hs).
    pose proof Hs as [_ _ Hu]. eapply slab_page_keep; [exact Hs|apply R| |].
    + simpl. rewrite lookup_insert_ne by done. by apply Ho.
    + rewrite Hfree, Hfr. by left.
Qed.

(** Giving it back. *)
Lemma drop_page m f : mem_ok m -> slab_page m f ->
  exists m', page_decref cfg cpu f m = Ret tt m' /\ mem_ok m' /\ frame_free m' f
    /\ (forall f', f' <> f -> slab_page m f' -> slab_page m' f') /\ frames m' = frames m.
Proof.
  intros M S. pose proof S as [Hr (g & Hg & Ha & Href & Ho & Hf) Hu].
  pose proof (slab_page_in_use m f g Hg S) as U. set (m1 := set_pages (<[f := set_pp_ref 0 g]> (pages m)) m) in *.
  assert (mem_ok m1) as M1 by (by apply mem_ok_unref).
  destruct (pa_free_spec (PageAllocator := buddy_page_allocator cfg cpu) m1 f 0 M1 U) as (m' & E & M' & Hfr & Hk & _ & Hfm & R).
  simpl in E. exists m'. split.
  { unfold page_decref. rewrite (bind_get_page _ g) by done. rewrite Href. unfold kbind at 1, kassert, kret at 1. simpl.
    rewrite (bind_mod_page _ g) by done. rewrite Href. change (u16 (1 - 1)) with 0.
    rewrite (bind_get_page _ (set_pp_ref 0 g)) by apply lookup_insert_eq. exact E. }
  split; [done|]. split; [apply Hfr; right; by apply in_chunk_0|]. split; [|done].
  intros f' Hne S'. pose proof S' as [_ _ Hu'].
  assert (~ frame_free m' f') as Hn.
  { rewrite Hfr, in_chunk_0. intros [Hx| ->]; [|done]. apply Hu'. by apply (frame_free_used m f g 0) in Hx. }
  eapply slab_page_keep; [exact S'| | |by intros ?].
  - by rewrite (sr_npages _ _ R).
  - rewrite Hk by done. simpl. by rewrite lookup_insert_ne.
Qed.

End Pages.

(** ** Steps on the state *)

Section Steps.
Implicit Types (s : kmem) (v : view) (k f i : Z).

Lemma node_op_run {A} g s h (c : unit -> K kmem A) : g (nodes s) = Some h -> kbind (node_op g) c s = c tt (with_nodes h s).
Proof. unfold kbind, node_op. by intros ->. Qed.
Lemma node_get_run {A B} (g : gmap sloc (list_node sloc) -> option A) s a (c : A -> K kmem B) :
  g (nodes s) = Some a -> kbind (node_get g) c s = c a s.
Proof. unfold kbind, node_get. by intros ->. Qed.
Lemma get_info_run {A} s f x (c : slab_info -> K kmem A) : infos s !! f = Some x -> kbind (get_info f) c s = c x s.
Proof. unfold kbind, get_info. by intros ->. Qed.
Lemma get_slab_run {A} s k x (c : slab -> K kmem A) : slabs s !! k = Some x -> kbind (get_slab k) c s = c x s.
Proof. unfold kbind, get_slab. by intros ->. Qed.
Lemma on_memory_run {A B} (m : K mstate A) s a x (c : A -> K kmem B) :
  m (memory s) = Ret a x -> kbind (on_memory m) c s = c a (with_memory x s).
Proof. unfold kbind, on_memory. by intros ->. Qed.

Lemma chunk_frame s s' k f free :
  chunk_ok s k f free -> infos s' !! f = infos s !! f -> (forall i, obj_info s' !! (f, i) = obj_info s !! (f, i)) ->
  dom (nodes s) ⊆ dom (nodes s') -> (forall w, frame_word (frames (memory s')) f w = frame_word (frames (memory s)) f w) ->
  slab_page (memory s') f -> chunk_ok s' k f free.
Proof.
  intros [Hk Hi Hf Ho Hp] Ei Eo En Em Hp'. split; [done|by rewrite Ei| | |done].
  - intros i Hin. destruct (Hf i Hin) as [? Hw]. split; [done|].
    unfold words_of in *. erewrite list_fmap_ext; [exact Hw|]. intros. apply Em.
  - intros i Hin. rewrite Eo. destruct (Ho i Hin) as [? Hn]. split; [done|].
    apply elem_of_dom. apply En. by apply elem_of_dom.
Qed.

Lemma heads_partial v k : 0 <= k < 32 -> heads v (Partial k) = Some (InfoNode <$> partial v k).
Proof. intros Hk. simpl. by rewrite bool_decide_true. Qed.
Lemma heads_full v k : 0 <= k < 32 -> heads v (Full k) = Some (InfoNode <$> full v k).
Proof. intros Hk. simpl. by rewrite bool_decide_true. Qed.
Lemma heads_free v f k js : chunks v !! f = Some (k, js) -> heads v (FreeList f) = Some (ObjNode f <$> js).
Proof. intros Hc. simpl. by rewrite Hc. Qed.

(** What a free list is worth: distinct slots, so its length is a counter that never wraps. *)
Lemma free_slots v s f k js : slabs_ok v s -> chunks v !! f = Some (k, js) ->
  NoDup js /\ Z.of_nat (length js) <= slots k < 64.
Proof.
  intros S Hc. pose proof (so_chunk _ _ S _ _ _ Hc) as C.
  pose proof (rg_list _ _ (so_rings _ _ S) _ _ (heads_free _ _ _ _ Hc)) as D.
  apply dlist_nodup in D as [Hn _]. apply NoDup_fmap_1 in Hn. split; [done|].
  destruct (sf_count _ _ (slab_of_fits k (ck_slab _ _ _ _ C))) as [H1 H2]. split; [|done].
  assert (js ⊆+ seqZ 0 (slots k)) as Hs.
  { apply NoDup_submseteq; [done|]. intros i Hi. apply elem_of_seqZ. destruct (ck_free _ _ _ _ C i Hi). lia. }
  apply submseteq_length in Hs. rewrite length_seqZ in Hs. lia.
Qed.

Lemma page_lists_nodup v s k : slabs_ok v s -> 0 <= k < 32 -> NoDup (partial v k) /\ NoDup (full v k).
Proof.
  intros S Hk. split; eapply NoDup_fmap_1; eapply dlist_nodup, rg_list; try apply S; [by apply heads_partial|by apply heads_full].
Qed.

End Steps.

Lemma fn_at {A B} `{EqDecision A} (a : A) (b : B) (g : A -> B) x : (<[a := b]> g) x = if decide (a = x) then b else g x.
Proof. reflexivity. Qed.

(** Two views with the same lists at every head. *)
Ltac same_heads :=
  let hd := fresh "hd" in
  intros hd; destruct hd; cbn [heads partial full chunks]; rewrite ?fn_at; cbn [heads partial full chunks];
  repeat case_decide; simplify_eq; rewrite ?lookup_insert_eq, ?lookup_insert_ne, ?lookup_delete_eq, ?lookup_delete_ne by congruence;
  try done; repeat case_bool_decide; try done.

Section Ops.
Context (cfg : config) (cpu : Z).
Implicit Types (s : kmem) (v : view) (k f i : Z).

(** ** slab_alloc *)

(** From a slab with a partial page on. *)
Definition slab_take (k : Z) : K kmem (option (Z * Z)) :=
  first <-- node_get (fun h => get_next h (Partial k));;
  f <-- match first with InfoNode f => kret f | _ => kfault end;;
  first <-- node_get (fun h => get_next h (FreeList f));;
  obj <-- match first with ObjNode g i => kret (g, i) | _ => kfault end;;
  node_op (fun h => list_del h (ObjNode (fst obj) (snd obj)));;;
  x <-- get_info f;;
  put_info f (mk_slab_info (si_slab x) (u64 (free_count x - 1)));;;
  e <-- node_get (fun h => list_is_empty h (FreeList f));;
  (if e : bool then
     node_op (fun h => list_del h (InfoNode f));;;
     node_op (fun h => list_add h (Full k) (InfoNode f))
   else kret tt);;;
  kret (Some obj).

Lemma slab_alloc_unfold k : slab_alloc cfg cpu k =
  (e <-- node_get (fun h => list_is_empty h (Partial k));;
   ok <-- (if e then r <-- slab_alloc_chunk cfg cpu k;; kret (negb (r <? 0)) else kret true);;
   if negb ok then kret None else slab_take k).
Proof. reflexivity. Qed.

(** The page list entries after taking the last free slot, or not. *)
Definition view_take v k f ps js : view :=
  match js with
  | [] => mk_view (<[k := ps]> (partial v)) (<[k := f :: full v k]> (full v)) (<[f := (k, js)]> (chunks v))
  | _ => mk_view (partial v) (full v) (<[f := (k, js)]> (chunks v))
  end.

(** The page moves to the full list. *)
Lemma retire_ok v h k f ps : rings h (heads v) -> 0 <= k < 32 -> partial v k = f :: ps ->
  exists h1 h2, list_del h (InfoNode f) = Some h1 /\ list_add h1 (Full k) (InfoNode f) = Some h2
    /\ rings h2 (heads (mk_view (<[k := ps]> (partial v)) (<[k := f :: full v k]> (full v)) (chunks v))) /\ dom h2 = dom h.
Proof.
  intros R Hk Hp. pose proof (heads_partial v k Hk) as Xp. rewrite Hp, fmap_cons in Xp.
  destruct (rings_del _ _ _ [] _ _ R Xp) as (h1 & E1 & R1 & D1 & O1). set (X1 := <[Partial k := _]> (heads v)) in *.
  assert (X1 (Full k) = Some (InfoNode <$> full v k)) as Xu by (unfold X1; rewrite fn_lookup_insert_ne by done; by apply heads_full).
  destruct (rings_add _ _ _ _ (InfoNode f) R1 Xu) as (h2 & E2 & R2 & D2); [|done|].
  { apply elem_of_dom. rewrite D1. apply elem_of_dom. eapply rings_is_Some; [exact R|exact Xp|]. right. left. }
  exists h1, h2. split; [done|]. split; [done|]. split; [|congruence]. revert R2. apply rings_proper. unfold X1. same_heads.
Qed.

(** The chunk with one free slot less. *)
Lemma chunk_take s s' k f i js :
  chunk_ok s k f (i :: js) -> infos s' !! f = Some (mk_slab_info k (Z.of_nat (length js))) -> obj_info s' = obj_info s ->
  dom (nodes s') = dom (nodes s) -> memory s' = memory s -> chunk_ok s' k f js.
Proof.
  intros [Ck Ci Cf Co Cp] Ei Eo En Em. split; [done|done| | |by rewrite Em].
  - intros j Hj. unfold words_of. rewrite Em. apply Cf. by right.
  - intros j Hj. rewrite Eo. destruct (Co j Hj) as [? Hx]. split; [done|]. apply elem_of_dom. rewrite En. by apply elem_of_dom.
Qed.

(** The run up to the test of the free list. *)
Lemma slab_take_run v s k f ps i js : slabs_ok v s -> 0 <= k < 32 -> partial v k = f :: ps -> chunks v !! f = Some (k, i :: js) ->
  exists h1, rings h1 (heads (mk_view (partial v) (full v) (<[f := (k, js)]> (chunks v)))) /\ dom h1 = dom (nodes s)
    /\ slab_take k s =
      ((if bool_decide (js = []) then node_op (fun h => list_del h (InfoNode f));;; node_op (fun h => list_add h (Full k) (InfoNode f))
        else kret tt);;; kret (Some (f, i)))
      (with_infos (<[f := mk_slab_info k (Z.of_nat (length js))]> (infos s)) (with_nodes h1 s)).
Proof.
  intros I Hk Hp Hc. pose proof (so_rings _ _ I) as R. destruct (free_slots _ _ _ _ _ I Hc) as [_ Hlen].
  pose proof (heads_partial v k Hk) as Xp. rewrite Hp in Xp. cbn [fmap list_fmap] in Xp.
  pose proof (heads_free _ _ _ _ Hc) as Xf. cbn [fmap list_fmap] in Xf.
  destruct (rings_del _ _ _ [] _ _ R Xf) as (h1 & E1 & R1 & D1 & O1). exists h1.
  assert (rings h1 (heads (mk_view (partial v) (full v) (<[f := (k, js)]> (chunks v))))) as R2.
  { revert R1. apply rings_proper. same_heads. }
  split; [done|]. split; [done|].
  unfold slab_take. rewrite (node_get_run _ s (InfoNode f)) by (by rewrite (rings_next _ _ _ _ R Xp)). rewrite kret_run.
  rewrite (node_get_run _ s (ObjNode f i)) by (by rewrite (rings_next _ _ _ _ R Xf)). rewrite kret_run. cbn [fst snd].
  rewrite (node_op_run _ s h1) by done. rewrite (get_info_run (with_nodes h1 s) f _ _ (ck_info _ _ _ _ (so_chunk _ _ I _ _ _ Hc))).
  cbn [si_slab free_count length]. rewrite u64_id by (cbn [length] in Hlen; lia).
  replace (Z.of_nat (S (length js)) - 1) with (Z.of_nat (length js)) by lia.
  unfold put_info, kmodify, kbind at 1. rewrite (node_get_run _ _ (bool_decide (js = []))); [done|].
  cbn [nodes with_infos with_nodes].
  rewrite (rings_empty _ _ _ _ R2 (heads_free _ f k js (lookup_insert_eq _ _ _))). by destruct js.
Qed.

Lemma slab_take_ok v s k f ps : slabs_ok v s -> 0 <= k < 32 -> partial v k = f :: ps ->
  exists i js s', chunks v !! f = Some (k, i :: js) /\ slab_take k s = Ret (Some (f, i)) s'
    /\ slabs_ok (view_take v k f ps js) s' /\ memory s' = memory s.
Proof.
  intros I Hk Hp. pose proof I as [M Hn Hs R Hpa Hfu Hch].
  destruct (proj1 (Hpa k f Hk) ltac:(rewrite Hp; left)) as (i & js & Hc). exists i, js.
  destruct (page_lists_nodup _ _ _ I Hk) as [Hndp _]. rewrite Hp in Hndp. apply NoDup_cons in Hndp as [Hfp Hndp].
  destruct (slab_take_run v s k f ps i js I Hk Hp Hc) as (h1 & R1 & D1 & ->).
  set (s1 := with_infos _ (with_nodes h1 s)). set (v1 := mk_view _ _ _) in R1.
  assert (exists h2, (if bool_decide (js = []) then node_op (fun h => list_del h (InfoNode f));;; node_op (fun h => list_add h (Full k) (InfoNode f))
        else kret tt) s1 = Ret tt (with_nodes h2 s1) /\ rings h2 (heads (view_take v k f ps js)) /\ dom h2 = dom (nodes s)
    /\ (forall k' f', 0 <= k' < 32 -> (f' ∈ partial (view_take v k f ps js) k' <-> f' ∈ partial v k' /\ ~ (js = [] /\ f' = f))
         /\ (f' ∈ full (view_take v k f ps js) k' <-> f' ∈ full v k' \/ js = [] /\ k' = k /\ f' = f))) as (h2 & E2 & R2 & D2 & Hm).
  { destruct js as [|j js].
    - destruct (retire_ok v1 h1 k f ps R1 Hk Hp) as (h2 & h3 & E2 & E3 & R3 & D3). exists h3.
      split; [rewrite bool_decide_true by done; rewrite (node_op_run _ s1 h2) by exact E2; unfold node_op; cbn [nodes with_nodes]; by rewrite E3|].
      split; [done|]. split; [congruence|]. intros k' f' Hk'. cbn [view_take partial full]. rewrite !fn_at.
      case_decide as Ek; [subst k'; rewrite Hp, !elem_of_cons; naive_solver|].
      split; [|naive_solver]. rewrite (Hpa k' f' Hk'). naive_solver.
    - exists h1. split; [rewrite bool_decide_false by done; by destruct s|]. split; [done|]. split; [done|]. intros k' f' _. cbn [view_take partial full]. naive_solver. }
  assert (chunks (view_take v k f ps js) = <[f := (k, js)]> (chunks v)) as Ec by (by destruct js).
  exists (with_nodes h2 s1). split; [done|]. split; [by rewrite (krun _ _ _ _ _ E2)|]. split; [|done].
  split; [done|done|done|exact R2| | |].
  - intros k' f' Hk'. rewrite Ec, (proj1 (Hm k' f' Hk')), (Hpa k' f' Hk'), lookup_insert. clear - Hc.
    case_decide as Ef; [subst f'; rewrite Hc; destruct js; naive_solver|]. split; [tauto|].
    intros Hx. split; [exact Hx|]. intros [_ ->]. done.
  - intros k' f' Hk'. rewrite Ec, (proj2 (Hm k' f' Hk')), (Hfu k' f' Hk'), lookup_insert. clear - Hc.
    case_decide as Ef; [subst f'; rewrite Hc; naive_solver|]. split; [|tauto]. intros [Hx|(_ & _ & ->)]; done.
  - intros f' k' js'. rewrite Ec. intros Hl. rewrite lookup_insert in Hl. case_decide as Ef.
    + subst f'. injection Hl as <- <-. apply (chunk_take s _ k f i js); [by apply Hch|apply lookup_insert_eq|done|done|done].
    + eapply (chunk_frame s); [by apply Hch|cbn [infos s1 with_infos with_nodes]; by rewrite lookup_insert_ne|done
        |cbn [nodes with_infos with_nodes]; by rewrite D2|done|exact (ck_page _ _ _ _ (Hch _ _ _ Hl))].
Qed.

(** ** slab_alloc_chunk *)

Lemma add_objects_ok n f i s X js :
  rings (nodes s) X -> X (FreeList f) = Some js -> (forall a, i <= a -> outside X (ObjNode f a)) ->
  exists s', add_objects n f i s = Ret tt s'
    /\ rings (nodes s') (<[FreeList f := Some ((ObjNode f <$> rev (seqZ i (Z.of_nat n))) ++ js)]> X)
    /\ dom (nodes s) ⊆ dom (nodes s')
    /\ (forall a, i <= a < i + Z.of_nat n -> obj_info s' !! (f, a) = Some f /\ is_Some (nodes s' !! ObjNode f a))
    /\ (forall g a, g <> f \/ a < i -> obj_info s' !! (g, a) = obj_info s !! (g, a))
    /\ s' = with_nodes (nodes s') (with_obj_info (obj_info s') s).
Proof.
  revert i s X js. induction n as [|n IH]; intros i s X js R Xf Ho; cbn [add_objects].
  - exists s. split; [done|]. split; [|split; [done|split; [lia|split; [done|by destruct s]]]].
    revert R. apply rings_proper. intros hd. rewrite fn_at. by case_decide; subst.
  - set (s1 := with_obj_info (<[(f, i) := f]> (obj_info s)) s).
    set (s2 := with_nodes (<[ObjNode f i := mk_node (ObjNode f i) (ObjNode f i)]> (nodes s1)) s1).
    pose proof (rings_fresh _ _ _ R (Ho i ltac:(lia))) as R2. change (rings (nodes s2) X) in R2.
    destruct (rings_add _ _ _ _ (ObjNode f i) R2 Xf) as (h3 & E3 & R3 & D3); [simpl; by rewrite lookup_insert_eq; eauto|apply Ho; lia|].
    assert (dom h3 = {[ObjNode f i]} ∪ dom (nodes s)) as D3' by (rewrite D3; apply dom_insert_L).
    set (s3 := with_nodes h3 s2).
    assert (forall (c : unit -> K kmem unit), kbind (add_object f i) c s = c tt s3) as Hrun.
    { intros c. unfold add_object, kbind at 1. change (kbind _ _ s) with ((node_op (fun h => list_add h (FreeList f) (ObjNode f i))) s2).
      unfold node_op. by rewrite E3. }
    rewrite Hrun.
    destruct (IH (i + 1) s3 _ (ObjNode f i :: js) R3) as (s' & E & R' & D' & Hn & Ho' & Es').
    { by rewrite fn_lookup_insert. }
    { intros a Ha hd xs. rewrite fn_at. case_decide as E; [|apply Ho; lia]. intros Hx. injection Hx as <-. subst hd.
      specialize (Ho a ltac:(lia) _ _ Xf). rewrite !not_elem_of_cons in *. split; [naive_solver|].
      split; [intros Hx; injection Hx; lia|naive_solver]. }
    exists s'. split; [done|]. split.
    { revert R'. apply rings_proper. intros hd. rewrite !fn_at. case_decide; [|done]. f_equal.
      replace (Z.of_nat (S n)) with (1 + Z.of_nat n) by lia. rewrite seqZ_cons by lia. cbn [rev].
      rewrite fmap_app, <- app_assoc. cbn. by replace (Z.pred (1 + Z.of_nat n)) with (Z.of_nat n) by lia. }
    split.
    { etransitivity; [|exact D']. cbn [nodes s3 with_nodes]. rewrite D3'. set_solver. }
    split.
    { intros a Ha. destruct (decide (a = i)) as [->|]; [|apply Hn; lia]. rewrite Ho' by (right; lia). split.
      - simpl. apply lookup_insert_eq.
      - apply elem_of_dom, D'. cbn [nodes s3 with_nodes]. rewrite D3'. set_solver. }
    split; [|exact Es'].
    intros g a Hg. rewrite Ho' by (destruct Hg; [by left|right; lia]). simpl. apply lookup_insert_ne.
    intros Hx. injection Hx as ? ?. destruct Hg; [congruence|lia].
Qed.

Definition view_grow v k f : view :=
  mk_view (<[k := f :: partial v k]> (partial v)) (full v) (<[f := (k, rev (seqZ 0 (slots k)))]> (chunks v)).

(** A page no slab has: its nodes are on no list. *)
Lemma page_outside v s f n : slabs_ok v s -> chunks v !! f = None ->
  n = InfoNode f \/ n = FreeList f \/ (exists a, n = ObjNode f a) -> outside (heads v) n.
Proof.
  intros I Hc Hns hd xs Hx Hin. apply elem_of_cons in Hin as [->|Hin].
  { destruct Hns as [->|[->|(a & ->)]]; simpl in Hx; rewrite ?Hc in Hx; done. }
  destruct hd; cbn [heads] in Hx; try discriminate Hx; repeat (case_match; try discriminate Hx); injection Hx as <-;
    apply list_elem_of_fmap in Hin as (y & -> & Hy);
    try match goal with Hb : bool_decide _ = true |- _ => apply bool_decide_eq_true in Hb end.
  - destruct Hns as [Hx|[?|(? & ?)]]; [|done..]. injection Hx as ->. apply (so_partial _ _ I) in Hy as (? & ? & ?); [congruence|done].
  - destruct Hns as [Hx|[?|(? & ?)]]; [|done..]. injection Hx as ->. apply (so_full _ _ I) in Hy; [congruence|done].
  - destruct Hns as [?|[?|(a & Hx)]]; [done..|]. injection Hx as -> ->. congruence.
Qed.

(** The nodes of a new page. *)
Lemma grow_nodes_ok v s s1 k f : slabs_ok v s -> nodes s1 = nodes s -> chunks v !! f = None -> 0 <= k < 32 ->
  exists s', (node_init (InfoNode f);;; node_init (FreeList f);;; add_objects (Z.to_nat (slots k)) f 0;;;
      node_op (fun h => list_add h (Partial k) (InfoNode f));;; kret 0) s1 = Ret 0 s'
    /\ rings (nodes s') (heads (view_grow v k f)) /\ dom (nodes s) ⊆ dom (nodes s')
    /\ (forall a, 0 <= a < slots k -> obj_info s' !! (f, a) = Some f /\ is_Some (nodes s' !! ObjNode f a))
    /\ (forall g a, g <> f -> obj_info s' !! (g, a) = obj_info s1 !! (g, a))
    /\ s' = with_nodes (nodes s') (with_obj_info (obj_info s') s1).
Proof.
  intros I En Hc Hk. pose proof (so_rings _ _ I) as R. rewrite <- En in R.
  assert (forall n, n = InfoNode f \/ n = FreeList f \/ (exists a, n = ObjNode f a) -> outside (heads v) n) as Hout by (intros n; by eapply page_outside).
  set (s3 := with_nodes (<[FreeList f := mk_node (FreeList f) (FreeList f)]> (<[InfoNode f := mk_node (InfoNode f) (InfoNode f)]> (nodes s1))) s1).
  assert (rings (nodes s3) (<[FreeList f := Some []]> (heads v))) as R3.
  { apply rings_init; [apply rings_fresh; [done|]|]; apply Hout; auto. }
  assert (InfoNode f ∈ dom (nodes s3) /\ dom (nodes s) ⊆ dom (nodes s3)) as [Hif Hds].
  { unfold s3. cbn [nodes with_nodes]. rewrite En, !dom_insert. set_solver. }
  destruct (add_objects_ok (Z.to_nat (slots k)) f 0 s3 _ [] R3) as (s4 & E4 & R4 & D4 & Hn4 & Ho4 & Es4).
  { by rewrite fn_lookup_insert. }
  { intros a Ha hd xs. rewrite fn_at. case_decide as Eh; [|apply Hout; eauto].
    intros Hx. injection Hx as <-. subst hd. by rewrite list_elem_of_singleton. }
  destruct (slab_of_fits k Hk) as [Hcnt _ _ _ _]. rewrite Z2Nat.id in * by lia.
  set (X4 := <[FreeList f := _]> _) in R4.
  assert (X4 (Partial k) = Some (InfoNode <$> partial v k)) as Xp.
  { unfold X4. rewrite !fn_lookup_insert_ne by done. by apply heads_partial. }
  destruct (rings_add _ _ _ _ (InfoNode f) R4 Xp) as (h5 & E5 & R5 & D5).
  { by apply elem_of_dom, D4. }
  { intros hd xs. unfold X4. rewrite !fn_at. repeat case_decide; [|apply Hout; by left].
    intros Hx. injection Hx as <-. subst hd. rewrite app_nil_r. intros Hin. apply elem_of_cons in Hin as [|Hin]; [done|].
    by apply list_elem_of_fmap in Hin as (? & ? & ?). }
  exists (with_nodes h5 s4). split; [|split; [|split; [|split; [|split]]]].
  - transitivity ((add_objects (Z.to_nat (slots k)) f 0;;;
      node_op (fun h => list_add h (Partial k) (InfoNode f));;; kret 0) s3); [done|].
    by rewrite (krun _ _ _ _ _ E4), (node_op_run _ s4 h5).
  - revert R5. apply rings_proper. unfold X4, view_grow. rewrite app_nil_r. same_heads.
  - cbn [nodes with_nodes]. rewrite D5. by etransitivity.
  - intros a Ha. destruct (Hn4 a ltac:(lia)) as [? Hx]. split; [done|]. apply elem_of_dom. cbn [nodes with_nodes]. rewrite D5. by apply elem_of_dom.
  - intros g a Hg. apply Ho4. by left.
  - by rewrite Es4.
Qed.

Lemma slab_grow_ok v s s1 k f m' : slabs_ok v s -> chunks v !! f = None -> 0 <= k < 32 ->
  s1 = with_infos (<[f := mk_slab_info k (slots k)]> (infos s)) (with_memory m' s) ->
  mem_ok m' -> slab_page m' f -> (forall g, slab_page (memory s) g -> slab_page m' g) -> frames m' = <[f := ∅]> (frames (memory s)) ->
  exists s', (node_init (InfoNode f);;; node_init (FreeList f);;; add_objects (Z.to_nat (slots k)) f 0;;;
      node_op (fun h => list_add h (Partial k) (InfoNode f));;; kret 0) s1 = Ret 0 s'
    /\ slabs_ok (view_grow v k f) s' /\ memory s' = m'.
Proof.
  intros I Hc Hk Es1 M' Sp Hsp Ef. pose proof I as [M Hn Hs R Hpa Hfu Hch].
  destruct (grow_nodes_ok v s s1 k f I ltac:(by rewrite Es1) Hc Hk) as (s' & E & R' & D' & Hn' & Ho' & Es').
  destruct (slab_of_fits k Hk) as [Hcnt _ _ _ _].
  assert (memory s' = m') as Em by (by rewrite Es', Es1).
  assert (infos s' = <[f := mk_slab_info k (slots k)]> (infos s)) as Ei by (by rewrite Es', Es1).
  exists s'. split; [done|]. split; [|done]. split; cbn [chunks partial full view_grow].
  - by rewrite Em.
  - by rewrite Es', Es1.
  - rewrite Es', Es1. exact Hs.
  - done.
  - intros k' f' Hk'. rewrite fn_at. case_decide as Ek; [subst k'|].
    + rewrite elem_of_cons, (Hpa k f' Hk), lookup_insert. case_decide as Ef'; [|naive_solver].
      subst f'. split; [|naive_solver]. intros _. replace (slots k) with (slots k - 1 + 1) by lia.
      rewrite seqZ_app by lia. rewrite rev_app_distr. simpl. naive_solver.
    + rewrite (Hpa k' f' Hk'), lookup_insert. case_decide; naive_solver.
  - intros k' f' Hk'. rewrite (Hfu k' f' Hk'), lookup_insert. case_decide as Ef'; [subst f'|done].
    split; [congruence|]. intros Hx. apply (f_equal (from_option (fun c => length (snd c)) 1%nat)) in Hx.
    change (length (rev (seqZ 0 (slots k))) = 0%nat) in Hx. rewrite length_rev, length_seqZ in Hx. lia.
  - intros f' k' js Hl. rewrite lookup_insert in Hl. case_decide as Ef'.
    + subst f'. injection Hl as <- <-. split; [done| | |exact Hn'|by rewrite Em].
      * rewrite Ei, lookup_insert_eq, length_rev, length_seqZ. by rewrite Z2Nat.id by lia.
      * intros i Hi. apply list_elem_of_In, in_rev, list_elem_of_In, elem_of_seqZ in Hi. split; [lia|].
        unfold words_of. apply Forall_fmap, Forall_true. intros w. cbn [compose]. rewrite Em, Ef.
        unfold frame_word. by rewrite lookup_insert_eq.
    + pose proof (Hch _ _ _ Hl) as C. eapply (chunk_frame s); [exact C| | |done| |].
      * rewrite Ei. by apply lookup_insert_ne.
      * intros i. rewrite Ho' by done. by rewrite Es1.
      * intros w. rewrite Em, Ef. unfold frame_word. by rewrite lookup_insert_ne.
      * rewrite Em. apply Hsp. apply C.
Qed.

Lemma slab_alloc_chunk_ok v s k : slabs_ok v s -> 0 <= k < 32 ->
  (exists m', page_alloc cfg cpu ALLOC_ZERO (memory s) = Ret None m' /\ frames m' = frames (memory s)
     /\ slab_alloc_chunk cfg cpu k s = Ret (-1) (with_memory m' s) /\ slabs_ok v (with_memory m' s))
  \/ (exists f s', slab_alloc_chunk cfg cpu k s = Ret 0 s' /\ chunks v !! f = None
       /\ slabs_ok (view_grow v k f) s' /\ frames (memory s') = <[f := ∅]> (frames (memory s))).
Proof.
  intros I Hk. pose proof I as [M Hn Hs R Hpa Hfu Hch].
  destruct (chunk_page cfg cpu (memory s) M) as [(m' & E & M' & Ep & Ef & En)|(f & m1 & m' & E & E1 & E2 & M' & Sp & Nsp & Hsp & Ef)].
  { left. exists m'. split; [done|]. split; [done|]. split; [unfold slab_alloc_chunk; by rewrite (on_memory_run _ s None m')|].
    split; try done. intros f k' js Hc. specialize (Hch _ _ _ Hc). eapply chunk_frame; [done|done|done|done|intros w; simpl; by rewrite Ef|].
    eapply slab_page_keep; [exact (ck_page _ _ _ _ Hch)|exact En|cbn [memory with_memory]; by rewrite Ep|].
    unfold frame_free. cbn [memory with_memory]. by rewrite Ep. }
  right. destruct (chunks v !! f) as [[k' js]|] eqn:Hc.
  { destruct Nsp. by eapply ck_page, Hch. }
  apply is_ret_true in E2 as (kva & m2 & E2). assert (m2 = m') as -> by (unfold page2kva, KADDR in E2; case_match; congruence).
  destruct (slab_grow_ok v s _ k f m' I Hc Hk eq_refl M' Sp Hsp Ef) as (s' & E3 & I' & Em).
  exists f, s'. split; [|split; [done|split; [done|by rewrite Em]]].
  unfold slab_alloc_chunk. rewrite (on_memory_run _ s (Some f) m1) by done.
  rewrite (on_memory_run _ _ tt m') by done. rewrite (on_memory_run _ _ kva m') by done.
  rewrite (get_slab_run _ k (slab_of k)) by (by apply Hs). exact E3.
Qed.

(** The objects after taking a free slot, and after a new page. *)
Lemma live_take v k f ps i js f' i' k' :
  chunks v !! f = Some (k, i :: js) -> NoDup (i :: js) -> 0 <= i < slots k ->
  live (view_take v k f ps js) f' i' k' <-> live v f' i' k' \/ (f', i') = (f, i) /\ k' = k.
Proof.
  intros Hc Hn Hi. apply NoDup_cons in Hn as [Hij _]. unfold live.
  assert (chunks (view_take v k f ps js) = <[f := (k, js)]> (chunks v)) as -> by (by destruct js).
  rewrite lookup_insert. case_decide as E; [subst f'; rewrite Hc|naive_solver].
  split.
  - intros (? & Hx & Hr & Hnin). simplify_eq. destruct (decide (i' = i)) as [->|]; [by right|].
    left. exists (i :: x). rewrite not_elem_of_cons. done.
  - intros [(? & Hx & Hr & Hnin)|[Hx ->]]; [|simplify_eq; eauto]. simplify_eq.
    rewrite not_elem_of_cons in Hnin. naive_solver.
Qed.

Lemma live_grow v k f f' i' k' : chunks v !! f = None -> live (view_grow v k f) f' i' k' <-> live v f' i' k'.
Proof.
  intros Hc. unfold live, view_grow. cbn [chunks]. rewrite lookup_insert. case_decide as E; [subst f'; rewrite Hc|done].
  split; [|naive_solver]. intros (js & Hx & Hr & Hn). simplify_eq. destruct Hn.
  apply list_elem_of_In. rewrite <- in_rev. apply list_elem_of_In, elem_of_seqZ. lia.
Qed.

Lemma slab_take_kmem A v s k : slabs_ok v s -> (forall f i k, A !! (f, i) = Some k <-> live v f i k) ->
  0 <= k < 32 -> partial v k <> [] ->
  exists o s', slab_take k s = Ret (Some o) s' /\ A !! o = None /\ kmem_ok (<[o := k]> A) s'
    /\ Forall (eq 0) (words_of s' k (fst o) (snd o)) /\ memory s' = memory s.
Proof.
  intros I HA Hk Hp. destruct (partial v k) as [|f ps] eqn:Ep; [done|].
  destruct (slab_take_ok v s k f ps I Hk Ep) as (i & js & s' & Hc & E & I' & Em).
  destruct (free_slots _ _ _ _ _ I Hc) as [Hnd _]. destruct (so_chunk _ _ I _ _ _ Hc) as [_ _ Hf _ _].
  destruct (Hf i ltac:(left)) as [Hi Hz].
  exists (f, i), s'. split; [done|]. split; [|split; [|split; [|done]]].
  - destruct (A !! (f, i)) as [k'|] eqn:Ea; [|done]. apply HA in Ea as (js' & Hx & _ & Hnin). simplify_eq.
    by destruct Hnin; left.
  - exists (view_take v k f ps js). split; [done|]. intros f' i' k'. rewrite (live_take v k f ps i js) by done.
    rewrite lookup_insert, <- HA. case_decide as Ei; [|naive_solver]. split; [naive_solver|].
    intros [Hx|[_ ->]]; [|done]. rewrite <- Ei in Hx. apply HA in Hx as (js' & Hx & _ & Hnin). simplify_eq.
    by destruct Hnin; left.
  - cbn [fst snd]. unfold words_of. by rewrite Em.
Qed.

Lemma slab_alloc_ok A s k : kmem_ok A s -> 0 <= k < 32 ->
  (exists m', page_alloc cfg cpu ALLOC_ZERO (memory s) = Ret None m' /\ frames m' = frames (memory s)
     /\ slab_alloc cfg cpu k s = Ret None (with_memory m' s) /\ kmem_ok A (with_memory m' s))
  \/ (exists o s', slab_alloc cfg cpu k s = Ret (Some o) s' /\ A !! o = None /\ kmem_ok (<[o := k]> A) s'
       /\ Forall (eq 0) (words_of s' k (fst o) (snd o))
       /\ forall f i k', A !! (f, i) = Some k' -> words_of s' k' f i = words_of s k' f i).
Proof.
  intros (v & I & HA) Hk. rewrite slab_alloc_unfold.
  rewrite (node_get_run _ s (bool_decide (InfoNode <$> partial v k = []))) by (eapply rings_empty; [apply I|by apply heads_partial]).
  destruct (partial v k) as [|f ps] eqn:Ep; cbn [fmap list_fmap].
  - rewrite bool_decide_true by done.
    destruct (slab_alloc_chunk_ok v s k I Hk) as [(m' & E & Ef & E' & I')|(f & s1 & E & Hc & I' & Ef)].
    + left. exists m'. split; [done|]. split; [done|]. split; [unfold kbind; rewrite E'; done|]. by exists v.
    + right. destruct (slab_take_kmem A _ s1 k I') as (o & s' & E2 & Hn & K & Hz & Em); [|done| |].
      * intros f' i k'. by rewrite live_grow.
      * unfold view_grow. cbn [partial]. by rewrite fn_lookup_insert.
      * exists o, s'. split; [unfold kbind; rewrite E; exact E2|]. split; [done|]. split; [done|]. split; [done|].
        intros f' i k' Ha. unfold words_of. rewrite Em, Ef. apply list_fmap_ext. intros _ w _. unfold frame_word.
        rewrite lookup_insert_ne; [done|]. intros <-. apply HA in Ha as (js & Hx & _). congruence.
  - rewrite bool_decide_false by done. right.
    destruct (slab_take_kmem A v s k I HA Hk) as (o & s' & E2 & Hn & K & Hz & Em); [by rewrite Ep|].
    exists o, s'. split; [exact E2|]. split; [done|]. split; [done|]. split; [done|].
    intros f' i k' _. unfold words_of. by rewrite Em.
Qed.

(** ** slab_free *)

Lemma clear_words_at g ws m f w :
  frame_word (clear_words g ws m) f w = if decide (f = g /\ w ∈ ws) then 0 else frame_word m f w.
Proof.
  unfold clear_words, frame_word. destruct (decide (f = g)) as [->|Hne].
  2:{ rewrite lookup_insert_ne, decide_False; naive_solver. }
  rewrite lookup_insert_eq. cbn [default from_option id]. generalize (default ∅ (m !! g) : gmap Z Z) as c.
  induction ws as [|x ws IH]; intros c; cbn [foldl]; [rewrite decide_False; set_solver|].
  rewrite IH. destruct (decide (g = g /\ w ∈ ws)) as [Hd|Hd]; [rewrite decide_True; set_solver|].
  destruct (decide (w = x)) as [->|Hx]; [rewrite lookup_insert_eq, decide_True; set_solver|].
  rewrite lookup_insert_ne, decide_False by set_solver. done.
Qed.

(** The objects of one page do not share words. *)
Lemma obj_words_disjoint k i j w : 0 <= k < 32 -> 0 <= i -> 0 <= j -> i <> j ->
  w ∈ obj_words (slab_of k) i -> w ∈ obj_words (slab_of k) j -> False.
Proof.
  intros Hk Hi Hj Hne. unfold obj_words. rewrite !elem_of_seqZ.
  destruct (slab_of_fits k Hk) as [_ Hsz Hal _ _]. unfold SLAB_ALIGN, sizeof_slab_obj in *.
  apply Z.mod_divide in Hal as [q Hq]; [|done]. rewrite Hq.
  assert (forall i, (i * (q * 32) + 24) / 8 = 4 * q * i + 3) as Hd.
  { intros i0. replace (i0 * (q * 32) + 24) with ((4 * q * i0 + 3) * 8) by lia. by apply Z.div_mul. }
  rewrite !Hd. replace (q * 32 - 24) with ((4 * q - 3) * 8) by lia. rewrite Z.div_mul by done. nia.
Qed.

(** The part of slab_free before the page goes back. *)
Definition slab_give (g i : Z) : K kmem (Z * slab * slab_info) :=
  f <-- (fun s => kderef (obj_info s !! (g, i)) s);;
  x <-- get_info f;;
  sl <-- get_slab (si_slab x);;
  on_memory (fun m => Ret tt (set_frames (clear_words g (obj_words sl i) (frames m)) m));;;
  e <-- node_get (fun h => list_is_empty h (FreeList f));;
  (if e : bool then
     node_op (fun h => list_del h (InfoNode f));;;
     node_op (fun h => list_add h (Partial (si_slab x)) (InfoNode f))
   else kret tt);;;
  node_op (fun h => list_add h (FreeList f) (ObjNode g i));;;
  put_info f (mk_slab_info (si_slab x) (u64 (free_count x + 1)));;;
  x <-- get_info f;;
  kret (f, sl, x).

Lemma slab_free_unfold g i s : slab_free cfg cpu (Some (g, i)) s =
  (r <-- slab_give g i;; if free_count r.2 >=? count r.1.2 then slab_free_chunk cfg cpu r.1.1 else kret tt) s.
Proof.
  unfold slab_free, slab_give, kbind, kret. repeat (case_match; try done); simplify_eq; done.
Qed.

Definition view_give v k f i js us : view :=
  match js with
  | [] => mk_view (<[k := f :: partial v k]> (partial v)) (<[k := us]> (full v)) (<[f := (k, [i])]> (chunks v))
  | _ => mk_view (partial v) (full v) (<[f := (k, i :: js)]> (chunks v))
  end.
Lemma relist_ok v h k f us1 us2 :
  rings h (heads v) -> 0 <= k < 32 -> full v k = us1 ++ f :: us2 ->
  exists h1 h2, list_del h (InfoNode f) = Some h1 /\ list_add h1 (Partial k) (InfoNode f) = Some h2
    /\ rings h2 (heads (mk_view (<[k := f :: partial v k]> (partial v)) (<[k := us1 ++ us2]> (full v)) (chunks v)))
    /\ dom h2 = dom h.
Proof.
  intros R Hk Hu. pose proof (heads_full v k Hk) as Xu. rewrite Hu, fmap_app, fmap_cons in Xu.
  destruct (rings_del _ _ _ _ _ _ R Xu) as (h1 & E1 & R1 & D1 & O1). set (X1 := <[Full k := _]> (heads v)) in *.
  assert (X1 (Partial k) = Some (InfoNode <$> partial v k)) as Xp by (unfold X1; rewrite fn_lookup_insert_ne by done; by apply heads_partial).
  destruct (rings_add _ _ _ _ (InfoNode f) R1 Xp) as (h2 & E2 & R2 & D2); [|done|].
  { apply elem_of_dom. rewrite D1. apply elem_of_dom. eapply rings_is_Some; [exact R|exact Xu|]. right. apply elem_of_app. right. left. }
  exists h1, h2. split; [done|]. split; [done|]. split; [|congruence]. revert R2. apply rings_proper. unfold X1.
  rewrite <- fmap_app. same_heads.
Qed.

Lemma obj_outside v f i k js : chunks v !! f = Some (k, js) -> i ∉ js -> outside (heads v) (ObjNode f i).
Proof.
  intros Hc Hi hd xs Hx Hin. apply elem_of_cons in Hin as [<-|Hin]; [done|].
  destruct hd; cbn [heads] in Hx; try discriminate Hx; repeat (case_match; try discriminate Hx); injection Hx as <-;
    apply list_elem_of_fmap in Hin as (y & Hy & Hin); simplify_eq; done.
Qed.

Lemma slabs_ok_clear v s g ws : slabs_ok v s -> slabs_ok v (with_memory (set_frames (clear_words g ws (frames (memory s))) (memory s)) s).
Proof.
  intros [M Hn Hs R Hpa Hfu Hch]. split; try done; [by eapply mem_ok_ext|].
  intros f k js Hc. destruct (Hch f k js Hc) as [Ck Ci Cf Co [? ? ?]]. split; try done.
  intros i Hi. destruct (Cf i Hi) as [? Hw]. split; [done|]. unfold words_of in *. rewrite Forall_fmap in *.
  eapply Forall_impl; [exact Hw|]. intros w Hz. cbn [compose memory frames with_memory set_frames] in *.
  rewrite clear_words_at. by case_decide.
Qed.

(** The chunk with one more free slot. *)
Lemma chunk_give s s' k f i js :
  chunk_ok s k f js -> 0 <= i < slots k -> Forall (eq 0) (words_of s k f i) ->
  infos s' !! f = Some (mk_slab_info k (Z.of_nat (length (i :: js)))) -> obj_info s' = obj_info s ->
  dom (nodes s') = dom (nodes s) -> memory s' = memory s -> chunk_ok s' k f (i :: js).
Proof.
  intros [Ck Ci Cf Co Cp] Hi Hz Ei Eo En Em. split; [done|done| | |by rewrite Em].
  - intros j Hj. unfold words_of. rewrite Em. apply elem_of_cons in Hj as [->|Hj]; [done|]. by apply Cf.
  - intros j Hj. rewrite Eo. destruct (Co j Hj) as [? Hx]. split; [done|]. apply elem_of_dom. rewrite En. by apply elem_of_dom.
Qed.

Definition cleared (s : kmem) (k f i : Z) : kmem :=
  with_memory (set_frames (clear_words f (obj_words (slab_of k) i) (frames (memory s))) (memory s)) s.

(** The end of slab_give, behind the test of the free list. *)
Definition give_tail (k f i : Z) (js : list Z) : K kmem (Z * slab * slab_info) :=
  node_op (fun h => list_add h (FreeList f) (ObjNode f i));;; put_info f (mk_slab_info k (Z.of_nat (length (i :: js))));;;
  x <-- get_info f;; kret (f, slab_of k, x).

Lemma slab_give_run v s k f i js : slabs_ok v s -> chunks v !! f = Some (k, js) -> 0 <= i < slots k ->
  slab_give f i s =
    ((if bool_decide (js = []) then node_op (fun h => list_del h (InfoNode f));;; node_op (fun h => list_add h (Partial k) (InfoNode f))
      else kret tt);;; give_tail k f i js) (cleared s k f i).
Proof.
  intros I Hc Hi. pose proof (so_chunk _ _ I _ _ _ Hc) as C. destruct (free_slots _ _ _ _ _ I Hc) as [_ Hlen].
  unfold slab_give, kbind at 1. destruct (ck_objs _ _ _ _ C i Hi) as [-> _]. unfold kderef, kret at 1.
  rewrite (get_info_run _ f _ _ (ck_info _ _ _ _ C)). cbn [si_slab free_count].
  rewrite (get_slab_run _ k (slab_of k)) by (apply (so_slabs _ _ I); apply C).
  rewrite (on_memory_run _ _ tt (memory (cleared s k f i))) by reflexivity.
  rewrite (node_get_run _ _ (bool_decide (js = []))).
  - rewrite u64_id by lia. unfold give_tail. by replace (Z.of_nat (length js) + 1) with (Z.of_nat (length (i :: js))) by (cbn [length]; lia).
  - cbn [nodes with_memory]. rewrite (rings_empty _ _ _ _ (so_rings _ _ I) (heads_free _ f k js Hc)). by destruct js.
Qed.

(** The page of the object is on the partial list now. *)
Lemma slab_relist v s k f i js : slabs_ok v s -> chunks v !! f = Some (k, js) -> 0 <= k < 32 ->
  exists us h1 v1, view_give v k f i js us = mk_view (partial v1) (full v1) (<[f := (k, i :: js)]> (chunks v1))
    /\ chunks v1 = chunks v /\ rings h1 (heads v1) /\ dom h1 = dom (nodes s)
    /\ (forall k' f', 0 <= k' < 32 -> (f' ∈ partial v1 k' <-> (k' = k /\ f' = f) \/ f' ∈ partial v k')
                    /\ (f' ∈ full v1 k' <-> f' ∈ full v k' /\ f' <> f))
    /\ (if bool_decide (js = []) then node_op (fun h => list_del h (InfoNode f));;; node_op (fun h => list_add h (Partial k) (InfoNode f))
        else kret tt) s = Ret tt (with_nodes h1 s).
Proof.
  intros I Hc Hk. pose proof I as [M Hn Hs R Hpa Hfu Hch]. destruct js as [|j js].
  - assert (f ∈ full v k) as Hfull by (by apply Hfu). apply list_elem_of_split in Hfull as (us1 & us2 & Hu).
    destruct (relist_ok v (nodes s) k f us1 us2 R Hk Hu) as (h1 & h2 & E1 & E2 & R2 & D2).
    destruct (page_lists_nodup _ _ _ I Hk) as [_ Hndu]. rewrite Hu in Hndu.
    exists (us1 ++ us2), h2, (mk_view (<[k := f :: partial v k]> (partial v)) (<[k := us1 ++ us2]> (full v)) (chunks v)).
    do 4 (split; [done|]). split.
    + intros k' f' Hk'. cbn [partial full]. rewrite !fn_at. case_decide as Ek; [subst k'|].
      * split; [rewrite elem_of_cons; naive_solver|]. rewrite Hu, !elem_of_app, elem_of_cons.
        apply NoDup_app in Hndu as (_ & Hu1 & Hu2). apply NoDup_cons in Hu2 as [Hu2 _].
        specialize (Hu1 f'). rewrite elem_of_cons in Hu1. naive_solver.
      * split; [naive_solver|]. rewrite (Hfu k' f' Hk'). naive_solver.
    + rewrite bool_decide_true by done. rewrite (node_op_run _ s h1) by exact E1. unfold node_op. cbn [nodes with_nodes].
      by rewrite E2.
  - exists [], (nodes s), v. split; [by destruct v|]. do 3 (split; [done|]). split.
    + intros k' f' Hk'. split; [|rewrite (Hfu k' f' Hk'); naive_solver]. rewrite (Hpa k' f' Hk'). naive_solver.
    + rewrite bool_decide_false by done. by destruct s.
Qed.

Lemma slab_give_ok v s k f i js : slabs_ok v s -> chunks v !! f = Some (k, js) -> 0 <= i < slots k -> i ∉ js ->
  exists us s', slab_give f i s = Ret (f, slab_of k, mk_slab_info k (Z.of_nat (length (i :: js)))) s'
    /\ slabs_ok (view_give v k f i js us) s'
    /\ memory s' = set_frames (clear_words f (obj_words (slab_of k) i) (frames (memory s))) (memory s).
Proof.
  intros I0 Hc Hi Hij. pose proof (ck_slab _ _ _ _ (so_chunk _ _ I0 _ _ _ Hc)) as Hk.
  rewrite (slab_give_run v s k f i js I0 Hc Hi). set (s1 := cleared s k f i).
  pose proof (slabs_ok_clear v s f (obj_words (slab_of k) i) I0) as I. change (slabs_ok v s1) in I.
  pose proof I as [M Hn Hs R Hpa Hfu Hch]. pose proof (Hch _ _ _ Hc) as C.
  assert (Forall (eq 0) (words_of s1 k f i)) as Hz.
  { apply Forall_fmap, Forall_forall. intros w Hw. cbn [compose s1 cleared memory frames with_memory set_frames].
    rewrite clear_words_at. by rewrite decide_True. }
  destruct (slab_relist v s1 k f i js I Hc Hk) as (us & h1 & v1 & Ev & Ec & R1 & D1 & Hm & E1).
  rewrite (krun _ _ _ _ _ E1). unfold give_tail. rewrite <- Ec in Hc. set (x' := mk_slab_info _ _).
  destruct (rings_add _ _ _ _ (ObjNode f i) R1 (heads_free v1 f k js Hc)) as (h2 & E2 & R2 & D2).
  { apply elem_of_dom. rewrite D1. apply elem_of_dom. by apply C. }
  { by eapply obj_outside. }
  set (s' := with_infos (<[f := x']> (infos s1)) (with_nodes h2 s1)).
  exists us, s'. split.
  { rewrite (node_op_run _ _ h2) by exact E2. unfold put_info, kmodify, kbind at 1.
    rewrite (get_info_run _ f x') by (cbn [infos with_infos with_nodes]; by rewrite lookup_insert_eq). reflexivity. }
  split; [|done]. rewrite Ev. rewrite Ec in *.
  split; [done|done|done| | | |]; cbn [partial full chunks].
  - revert R2. apply rings_proper. same_heads; rewrite Ec; done.
  - intros k' f' Hk'. rewrite (proj1 (Hm k' f' Hk')), (Hpa k' f' Hk'), lookup_insert. case_decide as Ef; [subst f'|]; naive_solver.
  - intros k' f' Hk'. rewrite (proj2 (Hm k' f' Hk')), (Hfu k' f' Hk'), lookup_insert. case_decide as Ef; [subst f'|]; naive_solver.
  - intros f' k' js' Hl. rewrite lookup_insert in Hl. case_decide as Ef.
    + subst f'. injection Hl as <- <-. apply (chunk_give s1); try done; [|cbn [nodes s' with_infos with_nodes]; congruence].
      cbn [infos s' with_infos]. by rewrite lookup_insert_eq.
    + eapply (chunk_frame s1); [by apply Hch|cbn [infos s' with_infos]; by rewrite lookup_insert_ne|done|cbn [nodes s' with_infos with_nodes]; set_solver|done|].
      exact (ck_page _ _ _ _ (Hch _ _ _ Hl)).
Qed.

Definition view_drop v k f ps : view := mk_view (<[k := ps]> (partial v)) (full v) (delete f (chunks v)).

Lemma slab_free_chunk_ok v s k f js : slabs_ok v s -> chunks v !! f = Some (k, js) -> js <> [] ->
  exists ps s', slab_free_chunk cfg cpu f s = Ret tt s' /\ slabs_ok (view_drop v k f ps) s'
    /\ frames (memory s') = frames (memory s) /\ frame_free (memory s') f.
Proof.
  intros I Hc Hjs. pose proof I as [M Hn Hs R Hpa Hfu Hch]. pose proof (Hch _ _ _ Hc) as C.
  pose proof (ck_slab _ _ _ _ C) as Hk. pose proof (ck_page _ _ _ _ C) as Sp.
  destruct js as [|j js]; [done|]. assert (f ∈ partial v k) as Hf by (apply Hpa; eauto).
  apply list_elem_of_split in Hf as (ps1 & ps2 & Hp).
  pose proof (heads_partial v k Hk) as Xp. rewrite Hp, fmap_app, fmap_cons in Xp.
  destruct (rings_del _ _ _ _ _ _ R Xp) as (h1 & E1 & R1 & D1 & _).
  destruct (drop_page cfg cpu (memory s) f M Sp) as (m' & E2 & M' & Hfree & Hsp & Ef).
  destruct (page_lists_nodup _ _ _ I Hk) as [Hnd _]. rewrite Hp in Hnd.
  exists (ps1 ++ ps2), (with_memory m' (with_nodes h1 s)). split; [|split; [|done]].
  { unfold slab_free_chunk. assert (npages (memory s) <= 2 ^ 52) as Hnp by (destruct M as [fl A]; exact (al_np _ _ A)).
    pose proof (sp_range _ _ Sp) as Hr.
    rewrite (on_memory_run _ s f (memory s)) by (unfold pa2page; rewrite page_index_shift by lia; destruct (Z.leb_spec (npages (memory s)) f); [lia|done]).
    rewrite (node_op_run _ _ h1) by exact E1. unfold on_memory. cbn [memory with_nodes with_memory]. by rewrite E2. }
  split; [done|done|done| | | |]; cbn [partial full chunks view_drop].
  - pose proof (rings_forget _ _ (FreeList f) R1) as R2. revert R2. apply rings_proper. unfold view_drop. rewrite <- fmap_app. same_heads.
  - intros k' f' Hk'. rewrite fn_at. case_decide as Ek; [subst k'|].
    + specialize (Hpa k f' Hk). rewrite Hp in Hpa. apply NoDup_app in Hnd as (_ & Hu1 & Hu2). apply NoDup_cons in Hu2 as [Hu2 _].
      specialize (Hu1 f'). rewrite lookup_delete. rewrite elem_of_app, elem_of_cons in *. case_decide; [subst f'|]; naive_solver.
    + rewrite (Hpa k' f' Hk'), lookup_delete. case_decide; naive_solver.
  - intros k' f' Hk'. rewrite (Hfu k' f' Hk'), lookup_delete. case_decide; naive_solver.
  - intros f' k' js' Hl. rewrite lookup_delete in Hl. case_decide as Ef'; [done|].
    eapply (chunk_frame s); [by apply Hch|done|done|cbn [nodes with_memory with_nodes]; set_solver|intros w; cbn [memory with_memory]; by rewrite Ef|].
    cbn [memory with_memory]. apply Hsp; [congruence|]. exact (ck_page _ _ _ _ (Hch _ _ _ Hl)).
Qed.

Lemma live_give v k f i js us f' i' k' : chunks v !! f = Some (k, js) ->
  live (view_give v k f i js us) f' i' k' <-> live v f' i' k' /\ (f', i') <> (f, i).
Proof.
  intros Hc. unfold live.
  assert (chunks (view_give v k f i js us) = <[f := (k, i :: js)]> (chunks v)) as -> by (by destruct js).
  rewrite lookup_insert. case_decide as E; [subst f'; rewrite Hc|naive_solver].
  split.
  - intros (? & Hx & Hr & Hnin). simplify_eq. rewrite not_elem_of_cons in Hnin. split; [naive_solver|]. intros Hx. simplify_eq. naive_solver.
  - intros [(? & Hx & Hr & Hnin) Hne]. simplify_eq. eexists. split; [done|]. split; [done|]. rewrite not_elem_of_cons. naive_solver.
Qed.

Lemma free_all v s f k js : slabs_ok v s -> chunks v !! f = Some (k, js) -> slots k <= Z.of_nat (length js) ->
  forall i, 0 <= i < slots k -> i ∈ js.
Proof.
  intros I Hc Hlen i Hi. destruct (free_slots _ _ _ _ _ I Hc) as [Hnd _].
  destruct (decide (i ∈ js)) as [|Hn]; [done|]. exfalso.
  assert (i :: js ⊆+ seqZ 0 (slots k)) as Hs.
  { apply NoDup_submseteq; [by apply NoDup_cons|]. intros j Hj. apply elem_of_seqZ. apply elem_of_cons in Hj as [->|Hj]; [lia|].
    destruct (ck_free _ _ _ _ (so_chunk _ _ I _ _ _ Hc) j Hj). lia. }
  apply submseteq_length in Hs. rewrite length_seqZ in Hs. cbn [length] in Hs. lia.
Qed.

Lemma slab_free_ok A s f i k : kmem_ok A s -> A !! (f, i) = Some k ->
  exists s', slab_free cfg cpu (Some (f, i)) s = Ret tt s' /\ kmem_ok (delete (f, i) A) s'
    /\ frames (memory s') = clear_words f (obj_words (slab_of k) i) (frames (memory s)).
Proof.
  intros (v & I & HA) Ha. apply HA in Ha as (js & Hc & Hi & Hij).
  destruct (slab_give_ok v s k f i js I Hc Hi Hij) as (us & s1 & E1 & I1 & Em).
  assert (chunks (view_give v k f i js us) !! f = Some (k, i :: js)) as Hc1 by (destruct js; cbn [view_give chunks]; apply lookup_insert_eq).
  assert (forall f' i' k', delete (f, i) A !! (f', i') = Some k' <-> live (view_give v k f i js us) f' i' k') as HA1.
  { intros f' i' k'. rewrite (live_give v k f i js us f' i' k' Hc), <- HA, lookup_delete. case_decide; naive_solver. }
  rewrite slab_free_unfold, (krun _ _ _ _ _ E1). cbn [fst snd free_count].
  destruct (Z.geb_spec (Z.of_nat (length (i :: js))) (slots k)) as [Hge|Hlt].
  - destruct (slab_free_chunk_ok _ s1 k f (i :: js) I1 Hc1) as (ps & s2 & E2 & I2 & Ef & _); [done|].
    exists s2. split; [done|]. split; [|by rewrite Ef, Em]. eexists. split; [exact I2|].
    intros f' i' k'. rewrite HA1. unfold live. cbn [view_drop chunks]. rewrite lookup_delete. case_decide as Ef'; [subst f'|done].
    split; [|naive_solver]. intros (js' & Hx & Hr & Hn). rewrite Hc1 in Hx. injection Hx as <- <-.
    destruct Hn. by eapply (free_all _ s1 f k).
  - exists s1. split; [done|]. split; [by eexists|]. by rewrite Em.
Qed.

(** ** kmem_init *)

Definition empty_view : view := mk_view (fun _ => []) (fun _ => []) ∅.

Lemma slab_setup_run k s : 0 <= k < 32 -> slab_setup k ((k + 1) * SLAB_ALIGN) s =
  Ret tt (with_nodes (<[Partial k := mk_node (Partial k) (Partial k)]> (<[Full k := mk_node (Full k) (Full k)]> (nodes s)))
           (with_slabs (<[k := slab_of k]> (slabs s)) (nslabs s) s)).
Proof. reflexivity. Qed.

Definition first_heads (n : Z) (hd : sloc) : option (list sloc) :=
  match hd with Partial k | Full k => if bool_decide (0 <= k < n) then Some [] else None | _ => None end.

Lemma setup_slabs_ok n i s : 0 <= i -> i + Z.of_nat n = 32 ->
  rings (nodes s) (first_heads i) -> (forall k, 0 <= k < i -> slabs s !! k = Some (slab_of k)) ->
  exists s', setup_slabs n i s = Ret tt s' /\ rings (nodes s') (first_heads 32)
    /\ (forall k, 0 <= k < 32 -> slabs s' !! k = Some (slab_of k)) /\ nslabs s' = nslabs s /\ memory s' = memory s.
Proof.
  revert i s. induction n as [|n IH]; intros i s Hi Hin R Hs; cbn [setup_slabs].
  - exists s. replace i with 32 in * by lia. done.
  - rewrite (krun _ _ _ _ _ (slab_setup_run i s ltac:(lia))). set (s1 := with_nodes _ _).
    destruct (IH (i + 1) s1) as (s' & E & R' & Hs' & Hn & Hm); [lia|lia| | |exists s'; by rewrite Hn, Hm].
    + assert (forall k, ~ (0 <= k < i) -> outside (first_heads i) (Partial k) /\ outside (first_heads i) (Full k)) as Ho.
      { intros k Hk. split; intros [] xs Hx; simpl in Hx; try done; case_bool_decide; simplify_eq;
          rewrite list_elem_of_singleton; congruence. }
      destruct (Ho i ltac:(lia)) as [Hop Hof].
      assert (rings (nodes s1) (<[Partial i := Some []]> (<[Full i := Some []]> (first_heads i)))) as R1.
      { apply rings_init; [by apply rings_init|]. intros hd xs. rewrite fn_at. case_decide; [|apply Hop].
        intros. simplify_eq. by rewrite list_elem_of_singleton. }
      revert R1. apply rings_proper. intros []; rewrite ?fn_at; simpl; repeat case_decide; simplify_eq;
        repeat case_bool_decide; try done; try lia; by destruct (decide (k = i)); simplify_eq; lia.
    + intros k Hk. cbn [slabs s1 with_nodes with_slabs]. rewrite lookup_insert. case_decide; [by subst|]. apply Hs. lia.
Qed.

Lemma kmem_init_unfold s : kmem_init s =
  (setup_slabs (Z.to_nat (nslabs (with_slabs (slabs s) 32 s))) 0;;; kret 0) (with_slabs (slabs s) 32 s).
Proof. reflexivity. Qed.

Lemma kmem_init_run s : exists s', kmem_init s = Ret 0 s' /\ rings (nodes s') (heads empty_view)
  /\ (forall k, 0 <= k < 32 -> slabs s' !! k = Some (slab_of k)) /\ nslabs s' = 32 /\ memory s' = memory s.
Proof.
  rewrite kmem_init_unfold.
  destruct (setup_slabs_ok (Z.to_nat (nslabs (with_slabs (slabs s) 32 s))) 0 (with_slabs (slabs s) 32 s))
    as (s' & E & R & Hs & Hn & Hm); [lia|reflexivity| |lia|].
  { assert (forall hd, first_heads 0 hd = None) as Hno by (intros []; simpl; try done; case_bool_decide; done || lia).
    split; intros *; rewrite Hno; done. }
  rewrite (krun _ _ _ _ _ E). exists s'. split; [reflexivity|]. split; [|exact (conj Hs (conj Hn Hm))].
  revert R. apply rings_proper. by intros [].
Qed.

Lemma kmem_init_ok s : mem_ok (memory s) -> exists s', kmem_init s = Ret 0 s' /\ kmem_ok ∅ s' /\ memory s' = memory s.
Proof.
  intros M. destruct (kmem_init_run s) as (s' & E & R & Hs & Hn & Hm). exists s'. split; [exact E|]. split; [|exact Hm].
  exists empty_view. split.
  - assert (forall f, chunks empty_view !! f = None) as Hno by (intros f; apply lookup_empty).
    split; [rewrite Hm; exact M|exact Hn|exact Hs|exact R|..].
    + intros k f _. rewrite Hno. split; [intros Hx; by apply not_elem_of_nil in Hx|intros (? & ? & Hx); discriminate Hx].
    + intros k f _. rewrite Hno. split; [intros Hx; by apply not_elem_of_nil in Hx|intros Hx; discriminate Hx].
    + intros f k js. rewrite Hno. intros Hx. discriminate Hx.
  - intros f i k. split; [intros Hx; by rewrite lookup_empty in Hx|].
    intros (js & Hx & _). unfold empty_view in Hx. cbn [chunks] in Hx. by rewrite lookup_empty in Hx.
Qed.

(** ** Properties *)

(** The address range of an object's data, page offsets included. *)
Definition data_start (k f i : Z) : Z := f * PAGE_SIZE + i * obj_size (slab_of k) + sizeof_slab_obj.
Definition data_end (k f i : Z) : Z := f * PAGE_SIZE + (i + 1) * obj_size (slab_of k).

(** A size that a slab serves goes to the smallest one that fits it. *)
Lemma kmalloc_small s size : nslabs s = 32 -> 0 < size <= 1024 -> kmalloc cfg cpu size s = slab_alloc cfg cpu ((size - 1) / 32) s.
Proof.
  intros Hn Hs. unfold kmalloc. destruct (Z.eqb_spec size 0); [lia|]. unfold kget, kbind. rewrite Hn.
  pose proof (Z.div_mod (size - 1) 32 ltac:(lia)). pose proof (Z.mod_pos_bound (size - 1) 32 ltac:(lia)).
  replace (u64 (ROUNDUP size SLAB_ALIGN / SLAB_ALIGN - 1)) with ((size - 1) / 32).
  2:{ unfold SLAB_ALIGN, ROUNDUP. rewrite u64_sub_l, (u64_id (size + 32 - 1)), ROUNDDOWN_spec by lia.
      rewrite (Z.mul_comm 32), Z.div_mul by lia. replace (size + 32 - 1) with (size - 1 + 1 * 32) by lia.
      rewrite Z.div_add by lia. rewrite u64_id by lia. lia. }
  destruct (Z.geb_spec ((size - 1) / 32) 32); [lia|done].
Qed.

(** C6 (functional): [kmalloc] returns [NULL] for size 0 and sizes above 1024 (also next to
    2^64, where the rounding wraps), and otherwise, unless the page allocator is exhausted, an
    object not handed out before, all of whose bytes are zero, leaving the contents of all
    others alone; the bookkeeping represents the enlarged set of objects. *)
Theorem kmalloc_correct A s size : kmem_ok A s -> 0 <= size < 2 ^ 64 ->
  (size = 0 \/ 1024 < size -> kmalloc cfg cpu size s = Ret None s)
  /\ (0 < size <= 1024 -> let k := (size - 1) / 32 in
      (exists m', page_alloc cfg cpu ALLOC_ZERO (memory s) = Ret None m'
         /\ kmalloc cfg cpu size s = Ret None (with_memory m' s) /\ kmem_ok A (with_memory m' s))
      \/ (exists o s', kmalloc cfg cpu size s = Ret (Some o) s' /\ A !! o = None /\ kmem_ok (<[o := k]> A) s'
           /\ Forall (eq 0) (words_of s' k (fst o) (snd o))
           /\ size <= data_end k (fst o) (snd o) - data_start k (fst o) (snd o)
           /\ forall f i k', A !! (f, i) = Some k' -> words_of s' k' f i = words_of s k' f i)).
Proof.
  intros K Hsz. pose proof K as (v & I & _). unfold kmalloc. split.
  - intros Hbig. destruct (Z.eqb_spec size 0) as [|Hne]; [done|].
    unfold kget, kbind. rewrite (so_nslabs _ _ I).
    destruct (Z.geb_spec (u64 (ROUNDUP size SLAB_ALIGN / SLAB_ALIGN - 1)) 32) as [|Hlt]; [done|]. exfalso.
    unfold SLAB_ALIGN, ROUNDUP in Hlt. rewrite u64_sub_l in Hlt.
    destruct (Z.le_gt_cases (size + 32) (2 ^ 64)) as [Hno|Hwrap].
    + pose proof (Z.div_mod (size + 32 - 1) 32 ltac:(lia)). pose proof (Z.mod_pos_bound (size + 32 - 1) 32 ltac:(lia)).
      rewrite (u64_id (size + 32 - 1)), ROUNDDOWN_spec in Hlt by lia.
      rewrite (Z.mul_comm 32), Z.div_mul, u64_id in Hlt by lia. lia.
    + replace (u64 (size + 32 - 1)) with (size + 32 - 1 - 2 ^ 64) in Hlt
        by (unfold u64; apply (Z.mod_unique _ _ 1); lia).
      rewrite ROUNDDOWN_spec in Hlt by lia. rewrite (Z.div_small (size + 32 - 1 - 2 ^ 64)) in Hlt by lia. discriminate Hlt.
  - intros Hs. cbv zeta. pose proof (Z.div_mod (size - 1) 32 ltac:(lia)). pose proof (Z.mod_pos_bound (size - 1) 32 ltac:(lia)).
    assert (0 <= (size - 1) / 32 < 32) as Hk by lia.
    fold (kmalloc cfg cpu size s). rewrite (kmalloc_small s size (so_nslabs _ _ I) Hs).
    destruct (slab_alloc_ok A s _ K Hk) as [(m' & E & _ & E2 & K')|(o & s' & E & Hn & K' & Hz & Hw)]; [left; by exists m'|right].
    exists o, s'. do 4 (split; [done|]). split; [|done].
    destruct (slab_of_fits _ Hk) as [_ Hfit _ _ _]. unfold data_end, data_start, SLAB_ALIGN in *. lia.
Qed.

(** C7 (refinement): [kfree] of an object handed out takes exactly it out of the set of
    objects and clears its bytes; the contents of all others stay, and freeing the last
    object of a page gives the page back. *)
Theorem kfree_correct A s f i k : kmem_ok A s -> A !! (f, i) = Some k ->
  exists s', kfree cfg cpu (Some (f, i)) s = Ret tt s' /\ kmem_ok (delete (f, i) A) s'
    /\ Forall (eq 0) (words_of s' k f i)
    /\ (forall f' i' k', A !! (f', i') = Some k' -> (f', i') <> (f, i) -> words_of s' k' f' i' = words_of s k' f' i').
Proof.
  intros K Ha. destruct (slab_free_ok A s f i k K Ha) as (s' & E & K' & Ef).
  exists s'. split; [exact E|]. split; [done|]. split.
  - apply Forall_fmap, Forall_forall. intros w Hw. cbn [compose]. by rewrite Ef, clear_words_at, decide_True.
  - intros f' i' k' Ha' Hne. apply list_fmap_ext. intros _ w Hw%list_elem_of_lookup_2. rewrite Ef, clear_words_at.
    rewrite decide_False; [done|]. intros [-> Hw2]. destruct K as (v & I & HA).
    apply HA in Ha as (js & Hc & Hi & _). apply HA in Ha' as (js' & Hc' & Hi' & _). rewrite Hc in Hc'. injection Hc' as <- <-.
    eapply (obj_words_disjoint k i' i); [exact (ck_slab _ _ _ _ (so_chunk _ _ I _ _ _ Hc))|lia|lia| |done|done]. congruence.
Qed.

(** Fact (bounds): the data of two different objects handed out never overlap, and lie in pages
    in use, between the object's header and the footer of the page. *)
Theorem objects_disjoint A s f i k f' i' k' : kmem_ok A s -> A !! (f, i) = Some k -> A !! (f', i') = Some k' ->
  ((f, i) <> (f', i') -> data_end k f i <= data_start k' f' i' \/ data_end k' f' i' <= data_start k f i)
  /\ f * PAGE_SIZE + sizeof_slab_obj <= data_start k f i < data_end k f i
  /\ data_end k f i <= f * PAGE_SIZE + info_off (slab_of k)
  /\ f * PAGE_SIZE + info_off (slab_of k) + sizeof_slab_info <= (f + 1) * PAGE_SIZE
  /\ ~ frame_free (memory s) f.
Proof.
  intros (v & I & HA) H1 H2. apply HA in H1 as (js & Hc & Hi & _). apply HA in H2 as (js' & Hc' & Hi' & _).
  pose proof (so_chunk _ _ I _ _ _ Hc) as C. pose proof (so_chunk _ _ I _ _ _ Hc') as C'.
  destruct (slab_of_fits k (ck_slab _ _ _ _ C)) as [Hn Hsz _ Hio Hpg].
  destruct (slab_of_fits k' (ck_slab _ _ _ _ C')) as [Hn' Hsz' _ Hio' Hpg'].
  pose proof (ck_slab _ _ _ _ C). pose proof (ck_slab _ _ _ _ C').
  unfold data_start, data_end, PAGE_SIZE, sizeof_slab_obj, sizeof_slab_info, SLAB_ALIGN in *.
  assert (forall q n j : Z, 0 <= j < n -> 0 <= q -> 0 <= j * q /\ (j + 1) * q = j * q + q /\ j * q + q <= q * n) as Hm by (intros; nia).
  pose proof (Hm (obj_size (slab_of k)) (slots k) i Hi ltac:(lia)).
  pose proof (Hm (obj_size (slab_of k')) (slots k') i' Hi' ltac:(lia)).
  split; [|split; [lia|split; [lia|split; [lia|exact (sp_used _ _ (ck_page _ _ _ _ C))]]]].
  intros Hne. destruct (Z.lt_trichotomy f f') as [|[<-|]]; [lia| |lia].
  rewrite Hc in Hc'. injection Hc' as <- <-.
  destruct (Z.lt_trichotomy i i') as [|[<-|]]; [left|congruence|right]; nia.
Qed.

End Ops.

(** ** Witnesses: the machine of BuddyThm.v after kmem_init *)

Definition demo_kmem0 : kmem := mk_kmem ∅ 0 ∅ ∅ ∅ demo.
Definition demo_kmem : kmem := match kmem_init demo_kmem0 with Ret _ s => s | _ => demo_kmem0 end.

Lemma demo_kmem_ok : kmem_ok ∅ demo_kmem.
Proof.
  destruct (kmem_init_ok demo_kmem0) as (s' & E & K & _); [exists demo_fl; exact demo_ok|].
  unfold demo_kmem. rewrite E. exact K.
Qed.
Lemma demo_kmem_memory : memory demo_kmem = demo.
Proof.
  destruct (kmem_init_ok demo_kmem0) as (s' & E & _ & Em); [exists demo_fl; exact demo_ok|].
  unfold demo_kmem. rewrite E. exact Em.
Qed.

Lemma demo_page_available m : page_alloc default_config 0 ALLOC_ZERO demo <> Ret None m.
Proof.
  intros E. destruct (page_alloc_ok default_config 0 ALLOC_ZERO demo_fl demo demo_ok) as [(s2 & _ & Hn & _)|(p & s2 & fl & E2 & _)].
  - specialize (Hn 9 ltac:(vm_compute; split; discriminate)). discriminate Hn.
  - congruence.
Qed.

(** One object of 96 bytes. *)
Lemma demo_object : exists o s', kmalloc default_config 0 100 demo_kmem = Ret (Some o) s' /\ kmem_ok {[o := 3]} s'.
Proof.
  destruct (slab_alloc_ok default_config 0 ∅ demo_kmem 3 demo_kmem_ok ltac:(lia)) as [(m' & E & _)|(o & s' & E & _ & K & _)].
  - rewrite demo_kmem_memory in E. by destruct (demo_page_available m').
  - exists o, s'. split; [|exact K]. unfold kmalloc, kget, kbind. cbn [Z.eqb].
    destruct demo_kmem_ok as (v & I & _). rewrite (so_nslabs _ _ I). exact E.
Qed.

Lemma kmalloc_correct_witness : kmalloc default_config 0 1025 demo_kmem = Ret None demo_kmem
  /\ exists o s', kmalloc default_config 0 1024 demo_kmem = Ret (Some o) s' /\ kmem_ok {[o := 31]} s'.
Proof.
  destruct (kmalloc_correct default_config 0 ∅ demo_kmem 1025 demo_kmem_ok) as [H _]; [lia|].
  split; [apply H; right; lia|].
  destruct (kmalloc_correct default_config 0 ∅ demo_kmem 1024 demo_kmem_ok) as [_ [(m' & E & _)|(o & s' & E & _ & K & _)]]; [lia|lia| |].
  - rewrite demo_kmem_memory in E. destruct (demo_page_available m' E).
  - exists o, s'. exact (conj E K).
Defined.

Lemma kfree_correct_witness : exists o s s', kmem_ok {[o := 3]} s /\ kfree default_config 0 (Some o) s = Ret tt s' /\ kmem_ok ∅ s'.
Proof.
  destruct demo_object as ((f, i) & s & _ & K).
  destruct (kfree_correct default_config 0 {[(f, i) := 3]} s f i 3 K) as (s' & E & K' & _); [apply lookup_singleton_eq|].
  exists (f, i), s, s'. split; [exact K|]. split; [exact E|]. rewrite delete_singleton_eq in K'. exact K'.
Defined.

Lemma objects_disjoint_witness : exists f i s, kmem_ok {[(f, i) := 3]} s /\ ~ frame_free (memory s) f.
Proof.
  destruct demo_object as ((f, i) & s & _ & K). exists f, i, s. split; [exact K|].
  apply (objects_disjoint {[(f, i) := 3]} s f i 3 f i 3 K); apply lookup_singleton_eq.
Defined.
