(* ===== verification/Walk.v ===== *)
(** * The page-table walker (kernel/mem/walk.c) and its read-only clients
      (kernel/mem/lookup.c, kernel/mem/user.c, kernel/mem/tlb.c)

    A walker is a record of optional callbacks, as in include/kernel/mem/walk.h; the
    state of a walk is the memory and the structure [udata] points to.  A pointer to an
    entry is the frame of its table and its index.  The loops of the four levels share
    their shape ([range_loop]); 513 rounds are enough at every level, since a table has
    512 entries. *)

From Stdlib Require Import ZArith Lia.
From stdpp Require Import strings base gmap fin_maps list.
From S2P Require Import Prelude ListHeap Spinlock MemState.

#[local] Open Scope Z_scope.
#[local] Open Scope kernel_scope.

Definition PAGE_PRESENT : Z := Z.shiftl 1 0.
Definition PAGE_WRITE : Z := Z.shiftl 1 1.
Definition PAGE_USER : Z := Z.shiftl 1 2.
Definition PAGE_WRITE_THROUGH : Z := Z.shiftl 1 3.
Definition PAGE_NO_CACHE : Z := Z.shiftl 1 4.
Definition PAGE_HUGE : Z := Z.shiftl 1 7.
Definition PAGE_NO_EXEC : Z := Z.shiftl 1 63.
Definition PAGE_UMASK : Z := Z.lor (Z.lor (Z.lor PAGE_PRESENT PAGE_WRITE) PAGE_NO_EXEC) PAGE_USER.

Definition PAGE_TABLE_INDEX (x : Z) : Z := Z.land (Z.shiftr x PAGE_TABLE_SHIFT) PAGE_TABLE_MASK.
Definition PAGE_DIR_INDEX (x : Z) : Z := Z.land (Z.shiftr x PAGE_DIR_SHIFT) PAGE_TABLE_MASK.
Definition PDPT_INDEX (x : Z) : Z := Z.land (Z.shiftr x PDPT_SHIFT) PAGE_TABLE_MASK.
Definition PML4_INDEX (x : Z) : Z := Z.land (Z.shiftr x PML4_SHIFT) PAGE_TABLE_MASK.

Definition page_aligned (p : Z) : bool := negb (flag p (PAGE_SIZE - 1)).
Definition hpage_aligned (p : Z) : bool := negb (flag p (HPAGE_SIZE - 1)).

(** ** Boundaries *)

Definition sign_extend (addr : Z) : Z := if addr <? USER_LIM then addr else Z.lor 0xffff000000000000 addr.

(** [~(m)] on 64 bits. *)
Definition not64 (m : Z) : Z := 2 ^ 64 - 1 - m.

Definition ptbl_end (addr : Z) : Z := Z.lor addr (PAGE_SIZE - 1).
Definition ptbl_start (addr : Z) : Z := Z.land addr (not64 (PAGE_SIZE - 1)).
Definition pdir_end (addr : Z) : Z := Z.lor addr (PAGE_TABLE_SPAN - 1).
Definition pdir_start (addr : Z) : Z := Z.land addr (not64 (PAGE_TABLE_SPAN - 1)).
Definition pdpt_end (addr : Z) : Z := Z.lor addr (PAGE_DIR_SPAN - 1).
Definition pdpt_start (addr : Z) : Z := Z.land addr (not64 (PAGE_DIR_SPAN - 1)).
Definition pml4_end (addr : Z) : Z := Z.lor addr (PDPT_SPAN - 1).
Definition pml4_start (addr : Z) : Z := Z.land addr (not64 (PDPT_SPAN - 1)).

(** ** Entries *)

Definition entry : Type := Z * Z.

Definition read_frames (f : gmap Z (gmap Z Z)) (e : entry) : Z := frame_word f (fst e) (snd e).
Definition write_frames (e : entry) (v : Z) (f : gmap Z (gmap Z Z)) : gmap Z (gmap Z Z) :=
  <[fst e := <[snd e := v]> (default ∅ (f !! fst e))]> f.

(** [*entry] and [*entry = v]. *)
Definition get_entry (e : entry) : K mstate Z := fun s => Ret (read_frames (frames s) e) s.
Definition set_entry (e : entry) (v : Z) : K mstate unit := fun s => Ret tt (set_frames (write_frames e v (frames s)) s).

(** [KADDR(PAGE_ADDR(v))] as a table: the frame, if there is one. *)
Definition table_at (v : Z) : K mstate Z := KADDR (PAGE_ADDR v);;; kret (PAGE_INDEX (PAGE_ADDR v)).

(** The kernel address of the table in frame [f]. *)
Definition table_kva (f : Z) : Z := u64 (page2pa f + KERNEL_VMA).

(** ** The walker *)

Section Walker.
Context {U : Type}.

(** The state of a walk: the memory and [*udata]. *)
Definition wstate : Type := mstate * U.

(** A routine of the memory system inside a walk. *)
Definition mem {A} (m : K mstate A) : K wstate A := fun '(s, u) =>
  match m s with
  | Ret a s' => Ret a (s', u)
  | Panic => Panic | Fault => Fault | Hang => Hang
  | NoReturn s' => NoReturn (s', u)
  end.

Definition get_info : K wstate U := fun '(s, u) => Ret u (s, u).
Definition set_info (u : U) : K wstate unit := fun '(s, _) => Ret tt (s, u).

Definition callback : Type := entry -> Z -> Z -> K wstate Z.

Record page_walker := mk_walker {
  pte_callback : option callback;
  pde_callback : option callback;
  pdpte_callback : option callback;
  pml4e_callback : option callback;
  pde_unmap : option callback;
  pdpte_unmap : option callback;
  pml4e_unmap : option callback;
  pt_hole_callback : option (Z -> Z -> K wstate Z)
}.

(** [if (walker->f) { r = walker->f(...); if (r < 0) return r; } k]. *)
Definition call_opt (f : option callback) (e : entry) (b en : Z) (k : K wstate Z) : K wstate Z :=
  match f with
  | Some f => r <-- f e b en;; if r <? 0 then kret r else k
  | None => k
  end.
Definition hole_opt (w : page_walker) (b en : Z) (k : K wstate Z) : K wstate Z :=
  match pt_hole_callback w with
  | Some f => r <-- f b en;; if r <? 0 then kret r else k
  | None => k
  end.

(** The loop shared by the levels: [body] handles the block of [base] and returns a
    negative value to stop; [block_end base] is the last address of the block. *)
Fixpoint range_loop (fuel : nat) (block_end : Z -> Z) (body : Z -> K wstate Z) (base end_ : Z) : K wstate Z :=
  if base <=? end_ then
    match fuel with
    | O => khang
    | S fuel =>
        let base := sign_extend base in
        let next := u64 (block_end base + 1) in
        r <-- body base;;
        if r <? 0 then kret r
        else if next =? 0 then kret 0
        else range_loop fuel block_end body next end_
    end
  else kret 0.

Definition walk_fuel : nat := 513.

Definition ptbl_body (ptbl : Z) (w : page_walker) (base : Z) : K wstate Z :=
  let e := (ptbl, PAGE_TABLE_INDEX base) in
  call_opt (pte_callback w) e (ptbl_start base) (ptbl_end base) (
  v <-- mem (get_entry e);;
  if negb (flag v PAGE_PRESENT) then hole_opt w (ptbl_start base) (ptbl_end base) (kret 0) else kret 0).

Definition ptbl_walk_range (ptbl base end_ : Z) (w : page_walker) : K wstate Z :=
  range_loop walk_fuel ptbl_end (ptbl_body ptbl w) (sign_extend base) (sign_extend end_).

Definition pdir_body (pdir end_ : Z) (w : page_walker) (base : Z) : K wstate Z :=
  let e := (pdir, PAGE_DIR_INDEX base) in
  call_opt (pde_callback w) e (pdir_start base) (pdir_end base) (
  v <-- mem (get_entry e);;
  if flag v PAGE_PRESENT then
    if flag v PAGE_HUGE then call_opt (pde_unmap w) e (pdir_start base) (pdir_end base) (kret 0)
    else
      ptbl <-- mem (table_at v);;
      r <-- ptbl_walk_range ptbl base (Z.min (pdir_end base) end_) w;;
      if r <? 0 then kret r
      else call_opt (pde_unmap w) e (pdir_start base) (pdir_end base) (kret 0)
  else hole_opt w (pdir_start base) (pdir_end base) (kret 0)).

Definition pdir_walk_range (pdir base end_ : Z) (w : page_walker) : K wstate Z :=
  range_loop walk_fuel pdir_end (pdir_body pdir (sign_extend end_) w) (sign_extend base) (sign_extend end_).

Definition pdpt_body (pdpt end_ : Z) (w : page_walker) (base : Z) : K wstate Z :=
  let e := (pdpt, PDPT_INDEX base) in
  call_opt (pdpte_callback w) e (pdpt_start base) (pdpt_end base) (
  v <-- mem (get_entry e);;
  if flag v PAGE_PRESENT then
    pdir <-- mem (table_at v);;
    r <-- pdir_walk_range pdir base (Z.min (pdpt_end base) end_) w;;
    if r <? 0 then kret r
    else call_opt (pdpte_unmap w) e (pdpt_start base) (Z.min (pdpt_end base) end_) (kret 0)
  else hole_opt w (pdpt_start base) (pdpt_end base) (kret 0)).

Definition pdpt_walk_range (pdpt base end_ : Z) (w : page_walker) : K wstate Z :=
  range_loop walk_fuel pdpt_end (pdpt_body pdpt (sign_extend end_) w) (sign_extend base) (sign_extend end_).

Definition pml4_body (pml4 end_ : Z) (w : page_walker) (base : Z) : K wstate Z :=
  let e := (pml4, PML4_INDEX base) in
  call_opt (pml4e_callback w) e (pml4_start base) (pml4_end base) (
  v <-- mem (get_entry e);;
  if flag v PAGE_PRESENT then
    pdpt <-- mem (table_at v);;
    r <-- pdpt_walk_range pdpt base (Z.min (pml4_end base) end_) w;;
    if r <? 0 then kret r
    else call_opt (pml4e_unmap w) e (pml4_start base) (pml4_end base) (kret 0)
  else hole_opt w (pml4_start base) (pml4_end base) (kret 0)).

Definition pml4_walk_range (pml4 base end_ : Z) (w : page_walker) : K wstate Z :=
  range_loop walk_fuel pml4_end (pml4_body pml4 (sign_extend end_) w) (sign_extend base) (sign_extend end_).

Definition walk_page_range (pml4 base end_ : Z) (w : page_walker) : K wstate Z :=
  pml4_walk_range pml4 (ROUNDDOWN base PAGE_SIZE) (u64 (ROUNDUP end_ PAGE_SIZE - 1)) w.

Definition walk_all_pages (pml4 : Z) (w : page_walker) : K wstate Z := pml4_walk_range pml4 0 KERNEL_LIM w.
Definition walk_user_pages (pml4 : Z) (w : page_walker) : K wstate Z := pml4_walk_range pml4 0 USER_LIM w.
Definition walk_kernel_pages (pml4 : Z) (w : page_walker) : K wstate Z := pml4_walk_range pml4 KERNEL_VMA KERNEL_LIM w.

End Walker.
Arguments wstate : clear implicits.
Arguments callback : clear implicits.
Arguments page_walker : clear implicits.

(** Running a walk and dropping [*udata]. *)
Definition run_walk {U} (u : U) (w : K (wstate U) Z) : K mstate (Z * U) := fun s =>
  match w (s, u) with
  | Ret r (s', u') => Ret (r, u') s'
  | Panic => Panic | Fault => Fault | Hang => Hang
  | NoReturn (s', _) => NoReturn s'
  end.

Definition no_callbacks {U} : page_walker U := mk_walker None None None None None None None None.

(** ** TLB (kernel/mem/tlb.c) *)

(** [pml4] is the address the caller passes. *)
Definition tlb_invalidate (pml4 va : Z) : K mstate unit := fun s =>
  (kva <-- KADDR (page2pa (cr3 s));;
   if pml4 =? kva then kmodify (fun s => set_flushed (va :: flushed s) s) else kret tt) s.

(** ** Lookup (kernel/mem/lookup.c) *)

(** [struct lookup_info]. *)
Definition lookup_info : Type := option entry.

Definition lookup_pte : callback lookup_info := fun e _ _ =>
  v <-- mem (get_entry e);;
  (if flag v PAGE_PRESENT then set_info (Some e) else kret tt);;;
  kret 0.

Definition lookup_pde : callback lookup_info := fun e _ _ =>
  v <-- mem (get_entry e);;
  (if flag v PAGE_PRESENT && flag v PAGE_HUGE then set_info (Some e) else kret tt);;;
  kret 0.

Definition lookup_walker : page_walker lookup_info :=
  mk_walker (Some lookup_pte) (Some lookup_pde) None None None None None None.

(** The page and what is stored through [entry_store]. *)
Definition page_lookup (pml4 va : Z) : K mstate (option Z * option entry) :=
  r <-- run_walk None (walk_page_range pml4 va (u64 (va + PAGE_SIZE)) lookup_walker);;
  if fst r <? 0 then kret (None, None)
  else match snd r with
       | Some e => v <-- get_entry e;; p <-- pa2page (PAGE_ADDR v);; kret (Some p, Some e)
       | None => kret (None, None)
       end.

(** ** Checks of user memory (kernel/mem/user.c) *)

(** [struct user_info]. *)
Record user_info := mk_user_info { ui_va : Z; ui_flags : Z }.

Definition fail_at (va : Z) : K (wstate user_info) Z :=
  i <-- get_info;; set_info (mk_user_info va (ui_flags i));;; kret (-1).

Definition check_user_hole (base end_ : Z) : K (wstate user_info) Z := fail_at base.

Definition check_user_pte : callback user_info := fun e base _ =>
  i <-- get_info;;
  v <-- mem (get_entry e);;
  if negb (flag v PAGE_PRESENT) || negb (flag v PAGE_USER) then fail_at base
  else if flag (ui_flags i) PAGE_WRITE && negb (flag v PAGE_WRITE) then fail_at base
  else if negb (flag (ui_flags i) PAGE_NO_EXEC) && flag v PAGE_NO_EXEC then fail_at base
  else kret 0.

Definition check_user_pde : callback user_info := fun e base _ =>
  v <-- mem (get_entry e);;
  if flag v PAGE_HUGE then
    i <-- get_info;;
    if negb (flag v PAGE_PRESENT) || negb (flag v PAGE_USER) then fail_at base
    else if flag (ui_flags i) PAGE_WRITE && negb (flag v PAGE_WRITE) then fail_at base
    else if negb (flag (ui_flags i) PAGE_NO_EXEC) && flag v PAGE_NO_EXEC then fail_at base
    else kret 0
  else kret 0.

Definition check_walker : page_walker user_info :=
  mk_walker (Some check_user_pte) (Some check_user_pde) None None None None None (Some check_user_hole).

(** The result and [*fault_va]. *)
Definition check_user_mem (pml4 va size flags : Z) : K mstate (Z * Z) :=
  r <-- run_walk (mk_user_info 0 (Z.lor (Z.lor flags PAGE_PRESENT) PAGE_USER))
        (walk_page_range pml4 va (u64 (va + size)) check_walker);;
  kret (fst r, ui_va (snd r)).
