(* ===== verification/WalkThm.v ===== *)
(** * The page-table walker against the address translation of the machine

    [leaf4] is the translation the x86-64 MMU performs with four levels of tables and
    2 MB pages; the theorems show that [page_lookup] finds the entry the MMU uses, and
    that [check_user_mem] accepts exactly the ranges all of whose addresses the MMU maps
    with the required permissions. *)

From Stdlib Require Import ZArith Lia.
From stdpp Require Import strings base gmap fin_maps list.
From S2P Require Import Prelude ListHeap Spinlock MemState Walk.

#[local] Open Scope Z_scope.
#[local] Open Scope kernel_scope.

(** ** Blocks of addresses *)

Lemma lor_low a k : 0 <= a -> 0 <= k -> Z.lor a (2 ^ k - 1) = a / 2 ^ k * 2 ^ k + (2 ^ k - 1).
Proof.
  intros Ha Hk. replace (2 ^ k - 1) with (Z.ones k) by (rewrite Z.ones_equiv; lia).
  assert (0 < 2 ^ k) by (by apply Z.pow_pos_nonneg).
  assert (a / 2 ^ k * 2 ^ k + Z.ones k = Z.lor (a / 2 ^ k * 2 ^ k) (Z.ones k)) as ->.
  { assert (Z.land (a / 2 ^ k * 2 ^ k) (Z.ones k) = 0) as Hl.
    { rewrite Z.land_ones by done. apply Z.mod_mul. lia. }
    rewrite Z.add_nocarry_lxor, Z.lxor_lor by done. done. }
  apply Z.bits_inj'. intros n Hn. rewrite !Z.lor_spec. rewrite Z.testbit_ones_nonneg by lia.
  destruct (Z.ltb_spec n k); [by rewrite !orb_true_r|]. rewrite !orb_false_r.
  rewrite Z.mul_pow2_bits by lia. rewrite Z.div_pow2_bits by lia. f_equal. lia.
Qed.

Lemma land_not64 a k : 0 <= a < 2 ^ 64 -> 0 <= k <= 64 -> Z.land a (not64 (2 ^ k - 1)) = a / 2 ^ k * 2 ^ k.
Proof.
  intros Ha Hk. assert (0 < 2 ^ k) by (apply Z.pow_pos_nonneg; lia).
  rewrite <- Z.shiftr_div_pow2, <- Z.shiftl_mul_pow2 by lia. apply Z.bits_inj'. intros n Hn.
  replace (not64 (2 ^ k - 1)) with (Z.shiftl (Z.ones (64 - k)) k).
  2:{ unfold not64. rewrite Z.shiftl_mul_pow2, Z.ones_equiv by lia. replace (2 ^ 64) with (2 ^ (64 - k) * 2 ^ k).
      - lia. - rewrite <- Z.pow_add_r by lia. f_equal. lia. }
  rewrite Z.land_spec, !Z.shiftl_spec by done. destruct (Z.ltb_spec n k).
  - rewrite !(Z.testbit_neg_r _ (n - k)) by lia. by rewrite andb_false_r.
  - rewrite Z.shiftr_spec by lia. replace (n - k + k) with n by lia.
    rewrite Z.testbit_ones_nonneg by lia. destruct (Z.ltb_spec (n - k) (64 - k)); [by rewrite andb_true_r|].
    rewrite andb_false_r. symmetry. destruct (Z.eq_dec a 0) as [->|]; [apply Z.bits_0|].
    apply Z.bits_above_log2; [lia|]. assert (Z.log2 a < 64) by (apply Z.log2_lt_pow2; lia). lia.
Qed.

(** The last address of the block of [2^k] bytes around [a]. *)
Definition bend (k a : Z) : Z := a / 2 ^ k * 2 ^ k + (2 ^ k - 1).

Lemma ptbl_end_bend a : 0 <= a -> ptbl_end a = bend 12 a.
Proof. intros Ha. exact (lor_low a 12 Ha ltac:(lia)). Qed.
Lemma pdir_end_bend a : 0 <= a -> pdir_end a = bend 21 a.
Proof. intros Ha. exact (lor_low a 21 Ha ltac:(lia)). Qed.
Lemma pdpt_end_bend a : 0 <= a -> pdpt_end a = bend 30 a.
Proof. intros Ha. exact (lor_low a 30 Ha ltac:(lia)). Qed.
Lemma pml4_end_bend a : 0 <= a -> pml4_end a = bend 39 a.
Proof. intros Ha. exact (lor_low a 39 Ha ltac:(lia)). Qed.

Lemma bend_spec k a : 0 <= k -> bend k a / 2 ^ k = a / 2 ^ k /\ a <= bend k a < a + 2 ^ k /\ (bend k a + 1) mod 2 ^ k = 0.
Proof.
  intros Hk. unfold bend. assert (0 < 2 ^ k) by (by apply Z.pow_pos_nonneg).
  pose proof (Z.div_mod a (2 ^ k) ltac:(lia)). pose proof (Z.mod_pos_bound a (2 ^ k) ltac:(lia)). split; [|split].
  - rewrite Z.div_add_l by lia. rewrite (Z.div_small (2 ^ k - 1)); lia.
  - lia.
  - replace (a / 2 ^ k * 2 ^ k + (2 ^ k - 1) + 1) with ((a / 2 ^ k + 1) * 2 ^ k) by lia. apply Z.mod_mul. lia.
Qed.

Lemma same_block k a b : 0 <= k -> b <= a <= bend k b -> a / 2 ^ k = b / 2 ^ k.
Proof.
  intros Hk Ha. assert (0 < 2 ^ k) by (by apply Z.pow_pos_nonneg). unfold bend in Ha.
  apply Z.le_antisymm; [|apply Z.div_le_mono; lia].
  assert (a < (b / 2 ^ k + 1) * 2 ^ k) by lia. assert (a / 2 ^ k < b / 2 ^ k + 1); [|lia].
  apply Z.div_lt_upper_bound; lia.
Qed.

(** Blocks of [2^k] bytes nest in those of [2^j] bytes. *)
Lemma bend_nest k j a : 0 <= k <= j -> bend k a <= bend j a.
Proof.
  intros Hk. unfold bend. assert (0 < 2 ^ k) by (apply Z.pow_pos_nonneg; lia).
  assert (2 ^ j = 2 ^ k * 2 ^ (j - k)) as Ej. { rewrite <- Z.pow_add_r by lia. f_equal. lia. }
  assert (0 < 2 ^ (j - k)) by (apply Z.pow_pos_nonneg; lia). set (m := 2 ^ (j - k)) in *. rewrite Ej.
  rewrite <- Z.div_div by lia. set (q := a / 2 ^ k). pose proof (Z.div_mod q m ltac:(lia)).
  pose proof (Z.mod_pos_bound q m ltac:(lia)). nia.
Qed.

(** An index depends on the block only. *)
Lemma index_div x k : 0 <= k -> Z.land (Z.shiftr x k) PAGE_TABLE_MASK = (x / 2 ^ k) mod 512.
Proof.
  intros Hk. rewrite Z.shiftr_div_pow2 by done. change PAGE_TABLE_MASK with (Z.ones 9). by rewrite Z.land_ones by lia.
Qed.

(** ** Canonical addresses *)

(** The range [lo, hi] lies in one half of the address space. *)
Definition one_half (lo hi : Z) : Prop := (0 <= lo /\ hi < USER_LIM) \/ (KERNEL_VMA <= lo /\ hi < 2 ^ 64).

Lemma sign_extend_user a : a < USER_LIM -> sign_extend a = a.
Proof. intros. unfold sign_extend. destruct (Z.ltb_spec a USER_LIM); [done|lia]. Qed.

Lemma sign_extend_kernel a : KERNEL_VMA <= a < 2 ^ 64 -> sign_extend a = a.
Proof.
  intros Ha. unfold sign_extend, KERNEL_VMA, USER_LIM in *. destruct (Z.ltb_spec a 0x800000000000); [lia|].
  change 0xffff000000000000 with (Z.shiftl (Z.ones 16) 48). apply Z.bits_inj'. intros n Hn.
  rewrite Z.lor_spec, Z.shiftl_spec by done. destruct (Z.ltb_spec n 48).
  - by rewrite (Z.testbit_neg_r _ (n - 48)) by lia.
  - rewrite Z.testbit_ones_nonneg by lia. destruct (Z.ltb_spec (n - 48) 16); [|done]. simpl. symmetry.
    (* the top 16 bits of a are set *)
    assert (a = (a / 2 ^ 48) * 2 ^ 48 + a mod 2 ^ 48) as Ea by (pose proof (Z.div_mod a (2 ^ 48)); lia).
    assert (a / 2 ^ 48 = 2 ^ 16 - 1) as Eq.
    { apply Z.le_antisymm; [|apply Z.div_le_lower_bound; lia].
      assert (a / 2 ^ 48 < 2 ^ 16); [|lia]. apply Z.div_lt_upper_bound; lia. }
    replace n with (n - 48 + 48) by lia. rewrite <- (Z.div_pow2_bits a 48) by lia. rewrite Eq.
    change (2 ^ 16 - 1) with (Z.ones 16). rewrite Z.testbit_ones_nonneg by lia. by apply Z.ltb_lt.
Qed.

Lemma sign_extend_half lo hi a : one_half lo hi -> lo <= a <= hi -> sign_extend a = a.
Proof. intros [H|H] Ha; [apply sign_extend_user|apply sign_extend_kernel]; lia. Qed.

Lemma one_half_sub lo hi lo' hi' : one_half lo hi -> lo <= lo' -> hi' <= hi -> one_half lo' hi'.
Proof. unfold one_half. lia. Qed.

Lemma one_half_64 lo hi a : one_half lo hi -> lo <= a <= hi -> 0 <= a < 2 ^ 64.
Proof. unfold one_half, KERNEL_VMA, USER_LIM. lia. Qed.

(** The block of an address of a half ends in the half. *)
Lemma bend_64 k a : 0 <= k <= 64 -> 0 <= a < 2 ^ 64 -> bend k a < 2 ^ 64.
Proof.
  intros Hk Ha. pose proof (bend_nest k 64 a ltac:(lia)) as Hn. unfold bend in Hn at 2.
  rewrite (Z.div_small a) in Hn by lia. lia.
Qed.

(** ** The translation *)

Section Mmu.
Context (fr : gmap Z (gmap Z Z)).

Definition tbl (v : Z) : Z := PAGE_INDEX (PAGE_ADDR v).

Definition leaf1 (t a : Z) : option entry :=
  let e := (t, PAGE_TABLE_INDEX a) in if flag (read_frames fr e) PAGE_PRESENT then Some e else None.
Definition leaf2 (t a : Z) : option entry :=
  let e := (t, PAGE_DIR_INDEX a) in let v := read_frames fr e in
  if flag v PAGE_PRESENT then if flag v PAGE_HUGE then Some e else leaf1 (tbl v) a else None.
Definition leaf3 (t a : Z) : option entry :=
  let v := read_frames fr (t, PDPT_INDEX a) in if flag v PAGE_PRESENT then leaf2 (tbl v) a else None.
Definition leaf4 (t a : Z) : option entry :=
  let v := read_frames fr (t, PML4_INDEX a) in if flag v PAGE_PRESENT then leaf3 (tbl v) a else None.

(** The tables on the way lie in the [np] frames of the machine. *)
Definition in2 (np t a : Z) : Prop :=
  let v := read_frames fr (t, PAGE_DIR_INDEX a) in flag v PAGE_PRESENT = true -> flag v PAGE_HUGE = false -> tbl v < np.
Definition in3 (np t a : Z) : Prop :=
  let v := read_frames fr (t, PDPT_INDEX a) in flag v PAGE_PRESENT = true -> tbl v < np /\ in2 np (tbl v) a.
Definition in4 (np t a : Z) : Prop :=
  let v := read_frames fr (t, PML4_INDEX a) in flag v PAGE_PRESENT = true -> tbl v < np /\ in3 np (tbl v) a.

End Mmu.

Lemma table_at_ok v s : tbl v < npages s -> table_at v s = Ret (tbl v) s.
Proof.
  intros Hv. unfold table_at, KADDR, kbind. fold (tbl v). destruct (Z.leb_spec (npages s) (tbl v)); [lia|done].
Qed.

Section Level.
Context {U : Type}.
Implicit Types (s : mstate) (u : U) (w : page_walker U).

Lemma bind_mem_ok {A B} (m : K mstate A) (k : A -> K (wstate U) B) s u a :
  m s = Ret a s -> kbind (mem m) k (s, u) = k a (s, u).
Proof. intros E. unfold kbind, mem. by rewrite E. Qed.

Lemma bind_get_entry {B} e (k : Z -> K (wstate U) B) s u :
  kbind (mem (get_entry e)) k (s, u) = k (read_frames (frames s) e) (s, u).
Proof. done. Qed.

Lemma bind_table_at {B} v (k : Z -> K (wstate U) B) s u :
  tbl v < npages s -> kbind (mem (table_at v)) k (s, u) = k (tbl v) (s, u).
Proof. intros Hv. apply bind_mem_ok. by apply table_at_ok. Qed.

(** A walk inside one block runs the body once. *)
Lemma range_loop_single fuel be (body : Z -> K (wstate U) Z) b en st :
  sign_extend b = b -> b <= en <= be b -> 0 <= be b < 2 ^ 64 ->
  range_loop (S fuel) be body b en st = (r <-- body b;; if r <? 0 then kret r else kret 0) st.
Proof.
  intros Hs Hb Hbe. cbn [range_loop]. destruct (Z.leb_spec b en); [|lia]. rewrite Hs.
  unfold kbind. destruct (body b st) as [r st'| | | |]; try done. destruct (r <? 0); [done|].
  destruct (Z.eqb_spec (u64 (be b + 1)) 0); [done|].
  assert (be b + 1 < 2 ^ 64) as Hlt.
  { destruct (Z.eq_dec (be b + 1) (2 ^ 64)) as [E|]; [|lia]. rewrite E in *. done. }
  rewrite u64_id in * by lia. destruct fuel; cbn [range_loop]; destruct (Z.leb_spec (be b + 1) en); (lia || done).
Qed.

End Level.

(** ** One page *)

Section One.
Context {U : Type}.
Implicit Types (s : mstate) (u : U) (w : page_walker U).

(** A page of one half: aligned, its last byte included. *)
Definition good_page (va : Z) : Prop := va mod 4096 = 0 /\ one_half va (va + 4095).

Lemma good_page_range va : good_page va -> 0 <= va /\ va + 4095 < 2 ^ 64.
Proof. intros [_ H]. unfold one_half, USER_LIM, KERNEL_VMA in H. lia. Qed.

Lemma walk_page_bounds pml4 va w :
  good_page va -> walk_page_range pml4 va (u64 (va + PAGE_SIZE)) w = pml4_walk_range pml4 va (va + 4095) w.
Proof.
  intros Hg. pose proof (good_page_range va Hg) as Hr. destruct Hg as [Hal _]. unfold walk_page_range, PAGE_SIZE.
  f_equal.
  - rewrite ROUNDDOWN_spec by lia. pose proof (Z.div_mod va 4096). lia.
  - destruct (Z.eq_dec (va + 4096) (2 ^ 64)) as [E|Hne].
    + rewrite E. change (ROUNDUP (u64 (2 ^ 64)) 4096) with 0. replace va with (2 ^ 64 - 4096) by lia. done.
    + assert ((va + 4096) mod 4096 = 0) as Hal'. { rewrite <- Zplus_mod_idemp_l, Hal. done. }
      assert (va + 4096 <= 2 ^ 64 - 4096).
      { apply Z.mod_divide in Hal' as [q Hq]; [|lia]. lia. }
      rewrite (u64_id (va + 4096)) by lia. rewrite ROUNDUP_aligned by lia. rewrite u64_id; lia.
Qed.

Lemma page_in_block k va : 12 <= k <= 64 -> good_page va -> va + 4095 <= bend k va < 2 ^ 64.
Proof.
  intros Hk Hg. pose proof (good_page_range va Hg). destruct Hg as [Hal _]. split; [|apply bend_64; lia].
  pose proof (bend_nest 12 k va ltac:(lia)) as Hn. unfold bend in Hn at 1. change (2 ^ 12) with 4096 in Hn.
  pose proof (Z.div_mod va 4096). lia.
Qed.

Lemma sign_extend_good va a : good_page va -> va <= a <= va + 4095 -> sign_extend a = a.
Proof. intros [_ H] Ha. by eapply sign_extend_half. Qed.

Definition end_result (m : K (wstate U) Z) : K (wstate U) Z := r <-- m;; if r <? 0 then kret r else kret 0.

Lemma pml4_one pml4 va w st :
  good_page va -> pml4_walk_range pml4 va (va + 4095) w st = end_result (pml4_body pml4 (va + 4095) w va) st.
Proof.
  intros Hg. pose proof (good_page_range va Hg). unfold pml4_walk_range, walk_fuel.
  rewrite !(sign_extend_good va) by (done || lia). pose proof (page_in_block 39 va ltac:(lia) Hg).
  apply range_loop_single; [by apply (sign_extend_good va); [|lia]|rewrite pml4_end_bend; lia..].
Qed.

Lemma pdpt_one pdpt va w st :
  good_page va -> pdpt_walk_range pdpt va (va + 4095) w st = end_result (pdpt_body pdpt (va + 4095) w va) st.
Proof.
  intros Hg. pose proof (good_page_range va Hg). unfold pdpt_walk_range, walk_fuel.
  rewrite !(sign_extend_good va) by (done || lia). pose proof (page_in_block 30 va ltac:(lia) Hg).
  apply range_loop_single; [by apply (sign_extend_good va); [|lia]|rewrite pdpt_end_bend; lia..].
Qed.

Lemma pdir_one pdir va w st :
  good_page va -> pdir_walk_range pdir va (va + 4095) w st = end_result (pdir_body pdir (va + 4095) w va) st.
Proof.
  intros Hg. pose proof (good_page_range va Hg). unfold pdir_walk_range, walk_fuel.
  rewrite !(sign_extend_good va) by (done || lia). pose proof (page_in_block 21 va ltac:(lia) Hg).
  apply range_loop_single; [by apply (sign_extend_good va); [|lia]|rewrite pdir_end_bend; lia..].
Qed.

Lemma ptbl_one ptbl va w st :
  good_page va -> ptbl_walk_range ptbl va (va + 4095) w st = end_result (ptbl_body ptbl w va) st.
Proof.
  intros Hg. pose proof (good_page_range va Hg). unfold ptbl_walk_range, walk_fuel.
  rewrite !(sign_extend_good va) by (done || lia). pose proof (page_in_block 12 va ltac:(lia) Hg).
  apply range_loop_single; [by apply (sign_extend_good va); [|lia]|rewrite ptbl_end_bend; lia..].
Qed.

(** The ends passed down are the end of the page. *)
Lemma min_end k va : 12 <= k <= 64 -> good_page va -> Z.min (bend k va) (va + 4095) = va + 4095.
Proof. intros Hk Hg. pose proof (page_in_block k va Hk Hg). lia. Qed.

End One.

Lemma call_opt_0 {U} (f : callback U) e b en (k : K (wstate U) Z) st st' :
  f e b en st = Ret 0 st' -> call_opt (Some f) e b en k st = k st'.
Proof. intros E. unfold call_opt, kbind. by rewrite E. Qed.

Lemma lookup_pde_ok e b en s u : lookup_pde e b en (s, u) =
  Ret 0 (s, if flag (read_frames (frames s) e) PAGE_PRESENT && flag (read_frames (frames s) e) PAGE_HUGE then Some e else u).
Proof. unfold lookup_pde. rewrite bind_get_entry. by destruct (_ && _). Qed.

Lemma lookup_pte_ok e b en s u : lookup_pte e b en (s, u) =
  Ret 0 (s, if flag (read_frames (frames s) e) PAGE_PRESENT then Some e else u).
Proof. unfold lookup_pte. rewrite bind_get_entry. by destruct (flag _ _). Qed.

(** The walk of [page_lookup] finds the leaf. *)
Lemma lookup_walk pml4 va s :
  good_page va -> in4 (frames s) (npages s) pml4 va ->
  walk_page_range pml4 va (u64 (va + PAGE_SIZE)) lookup_walker (s, None) = Ret 0 (s, leaf4 (frames s) pml4 va).
Proof.
  intros Hg Hin. pose proof (good_page_range va Hg). rewrite walk_page_bounds, pml4_one by done.
  unfold end_result, pml4_body, leaf4, in4 in *. cbn [call_opt lookup_walker pml4e_callback pml4e_unmap hole_opt pt_hole_callback].
  set (v4 := read_frames (frames s) (pml4, PML4_INDEX va)) in *.
  unfold kbind at 1. rewrite bind_get_entry. fold v4. destruct (flag v4 PAGE_PRESENT); [|done].
  destruct (Hin eq_refl) as [Ht3 Hin3]. rewrite bind_table_at by done. rewrite pml4_end_bend, min_end by (done || lia).
  unfold kbind at 1. rewrite pdpt_one by done.
  unfold end_result, pdpt_body, leaf3, in3 in *. cbn [call_opt lookup_walker pdpte_callback pdpte_unmap hole_opt pt_hole_callback].
  set (v3 := read_frames (frames s) (tbl v4, PDPT_INDEX va)) in *.
  unfold kbind at 1. rewrite bind_get_entry. fold v3. destruct (flag v3 PAGE_PRESENT); [|done].
  destruct (Hin3 eq_refl) as [Ht2 Hin2]. rewrite bind_table_at by done. rewrite pdpt_end_bend, min_end by (done || lia).
  unfold kbind at 1. rewrite pdir_one by done.
  unfold end_result, pdir_body, leaf2, in2 in *.
  cbn [lookup_walker pde_callback pde_unmap]. unfold kbind at 1. rewrite (call_opt_0 _ _ _ _ _ _ _ (lookup_pde_ok _ _ _ _ _)).
  set (v2 := read_frames (frames s) (tbl v3, PAGE_DIR_INDEX va)) in *. rewrite bind_get_entry. fold v2.
  destruct (flag v2 PAGE_PRESENT) eqn:P2; [|done]. destruct (flag v2 PAGE_HUGE) eqn:H2; [done|].
  rewrite bind_table_at by auto. rewrite pdir_end_bend, min_end by (done || lia).
  unfold kbind at 1. rewrite ptbl_one by done. unfold end_result, ptbl_body, leaf1.
  cbn [lookup_walker pte_callback]. unfold kbind at 1. rewrite (call_opt_0 _ _ _ _ _ _ _ (lookup_pte_ok _ _ _ _ _)).
  rewrite bind_get_entry. destruct (flag (read_frames (frames s) (tbl v2, PAGE_TABLE_INDEX va)) PAGE_PRESENT);
    reflexivity.
Qed.

Lemma page_lookup_ok (pml4 va : Z) (s : mstate) :
  good_page va -> in4 (frames s) (npages s) pml4 va ->
  (forall e, leaf4 (frames s) pml4 va = Some e -> tbl (read_frames (frames s) e) < npages s) ->
  page_lookup pml4 va s =
    Ret (match leaf4 (frames s) pml4 va with
         | Some e => (Some (tbl (read_frames (frames s) e)), Some e)
         | None => (None, None)
         end) s.
Proof.
  intros Hg Hin Hleaf. unfold page_lookup, kbind at 1, run_walk. rewrite lookup_walk by done. simpl.
  destruct (leaf4 (frames s) pml4 va) as [e|]; [|done]. specialize (Hleaf e eq_refl).
  unfold kbind, get_entry, pa2page. fold (tbl (read_frames (frames s) e)).
  destruct (Z.leb_spec (npages s) (tbl (read_frames (frames s) e))); [lia|done].
Qed.

(** C13 (equivalence): for a page-aligned canonical address, [page_lookup] returns the page of
    the entry the MMU uses to translate the address, and that entry (a PTE or the PDE of
    a huge page), or nothing when the address is not mapped. *)
Theorem page_lookup_correct (pml4 va : Z) (s : mstate) :
  good_page va -> in4 (frames s) (npages s) pml4 va ->
  (forall e, leaf4 (frames s) pml4 va = Some e -> tbl (read_frames (frames s) e) < npages s) ->
  page_lookup pml4 va s =
    Ret (match leaf4 (frames s) pml4 va with
         | Some e => (Some (tbl (read_frames (frames s) e)), Some e)
         | None => (None, None)
         end) s.
Proof. apply page_lookup_ok. Qed.

(** ** Ranges *)

(** The permissions [check_user_mem] asks of a leaf entry. *)
Definition user_ok (fl v : Z) : bool :=
  flag v PAGE_USER && (negb (flag fl PAGE_WRITE) || flag v PAGE_WRITE)
  && (flag fl PAGE_NO_EXEC || negb (flag v PAGE_NO_EXEC)).

(** Address [a] is mapped by a leaf with these permissions. *)
Definition accessible (fr : gmap Z (gmap Z Z)) (fl : Z) (leaf : option entry) : bool :=
  match leaf with Some e => user_ok fl (read_frames fr e) | None => false end.

(** [m] succeeds without any change when [ok] holds of all of [lo, hi], and fails with -1
    when it does not. *)
Definition decides (m : K (wstate user_info) Z) (s : mstate) (fl lo hi : Z) (ok : Z -> bool) : Prop :=
  forall u, ui_flags u = fl ->
  (m (s, u) = Ret 0 (s, u) /\ forall a, lo <= a <= hi -> ok a = true)
  \/ (exists va, m (s, u) = Ret (-1) (s, mk_user_info va fl) /\ exists a, lo <= a <= hi /\ ok a = false).

Lemma range_decides fuel k be body s fl base en ok :
  0 <= k <= 64 -> (forall a, 0 <= a -> be a = bend k a) -> base <= en -> one_half base en ->
  en / 2 ^ k - base / 2 ^ k < Z.of_nat fuel ->
  (forall b, base <= b <= en -> decides (body b) s fl b (Z.min (bend k b) en) ok) ->
  decides (range_loop fuel be body base en) s fl base en ok.
Proof.
  intros Hk Hbe. revert base. induction fuel as [|fuel IH]; intros base Hle Hh Hf Hbody.
  { pose proof (Z.pow_pos_nonneg 2 k). pose proof (Z.div_le_mono base en (2 ^ k)). lia. }
  pose proof (one_half_64 _ _ base Hh ltac:(lia)) as Hb64. pose proof (one_half_64 _ _ en Hh ltac:(lia)) as He64.
  pose proof (bend_spec k base ltac:(lia)) as (Hdiv & Hbd & Hmod). pose proof (bend_64 k base ltac:(lia) Hb64) as Hbend.
  intros u Hu. cbn [range_loop]. destruct (Z.leb_spec base en); [|lia].
  rewrite (sign_extend_half base en) by (done || lia). rewrite Hbe by lia.
  unfold kbind. destruct (Hbody base ltac:(lia) u Hu) as [[E Hok]|(va & E & a & Ha & Hok)]; rewrite E; simpl.
  2:{ right. exists va. split; [done|]. exists a. split; [lia|done]. }
  destruct (Z.eqb_spec (u64 (bend k base + 1)) 0) as [E0|Hne].
  { left. split; [done|]. intros a Ha. apply Hok.
    assert (bend k base + 1 = 2 ^ 64); [|lia]. destruct (Z.eq_dec (bend k base + 1) (2 ^ 64)); [done|].
    rewrite u64_id in E0 by lia. lia. }
  assert (bend k base + 1 < 2 ^ 64) as Hlt.
  { destruct (Z.eq_dec (bend k base + 1) (2 ^ 64)) as [Ex|]; [|lia]. by rewrite Ex in Hne. }
  rewrite u64_id by lia. destruct (Z_lt_le_dec en (bend k base + 1)).
  { left. split.
    - destruct fuel; cbn [range_loop]; destruct (Z.leb_spec (bend k base + 1) en); (lia || done).
    - intros a Ha. apply Hok. lia. }
  assert ((bend k base + 1) / 2 ^ k = base / 2 ^ k + 1) as Hnext.
  { unfold bend. assert (0 < 2 ^ k) by (apply Z.pow_pos_nonneg; lia).
    replace (base / 2 ^ k * 2 ^ k + (2 ^ k - 1) + 1) with ((base / 2 ^ k + 1) * 2 ^ k) by lia. apply Z.div_mul. lia. }
  destruct (IH (bend k base + 1) ltac:(lia) ltac:(eapply one_half_sub; [exact Hh|lia|lia]) ltac:(lia)
    ltac:(intros b Hb; apply Hbody; lia) u Hu) as [[E' Hok']|(va & E' & a & Ha & Hok')].
  - left. split; [exact E'|]. intros a Ha. destruct (Z_lt_le_dec a (bend k base + 1)); [apply Hok; lia|apply Hok'; lia].
  - right. exists va. split; [exact E'|]. exists a. split; [lia|done].
Qed.

Section Check.
Context (s : mstate) (fl : Z).
Implicit Types (u : user_info).

Lemma check_pte_cases e b en u : ui_flags u = fl ->
  let v := read_frames (frames s) e in
  check_user_pte e b en (s, u) =
    if flag v PAGE_PRESENT && user_ok fl v then Ret 0 (s, u) else Ret (-1) (s, mk_user_info b fl).
Proof.
  intros Hu v. unfold check_user_pte, fail_at, user_ok. unfold kbind at 1, get_info at 1. rewrite bind_get_entry.
  fold v. destruct u as [va fl']; simpl in Hu; subst fl'. simpl.
  destruct (flag v PAGE_PRESENT), (flag v PAGE_USER), (flag fl PAGE_WRITE), (flag v PAGE_WRITE),
    (flag fl PAGE_NO_EXEC), (flag v PAGE_NO_EXEC); reflexivity.
Qed.

Lemma check_pde_cases e b en u : ui_flags u = fl ->
  let v := read_frames (frames s) e in
  check_user_pde e b en (s, u) =
    if negb (flag v PAGE_HUGE) || (flag v PAGE_PRESENT && user_ok fl v) then Ret 0 (s, u)
    else Ret (-1) (s, mk_user_info b fl).
Proof.
  intros Hu v. unfold check_user_pde, fail_at, user_ok. rewrite bind_get_entry. fold v.
  destruct u as [va fl']; simpl in Hu; subst fl'.
  destruct (flag v PAGE_HUGE); [|done]. unfold kbind at 1, get_info at 1. cbn [ui_flags].
  destruct (flag v PAGE_PRESENT), (flag v PAGE_USER), (flag fl PAGE_WRITE), (flag v PAGE_WRITE),
    (flag fl PAGE_NO_EXEC), (flag v PAGE_NO_EXEC); reflexivity.
Qed.

(** The indices of the addresses of one block. *)
Lemma table_index_block a b : b <= a <= bend 12 b -> PAGE_TABLE_INDEX a = PAGE_TABLE_INDEX b.
Proof. intros H. unfold PAGE_TABLE_INDEX. rewrite !index_div by done. f_equal. by apply (same_block 12); [done|]. Qed.
Lemma dir_index_block a b : b <= a <= bend 21 b -> PAGE_DIR_INDEX a = PAGE_DIR_INDEX b.
Proof. intros H. unfold PAGE_DIR_INDEX. rewrite !index_div by done. f_equal. by apply (same_block 21); [done|]. Qed.
Lemma pdpt_index_block a b : b <= a <= bend 30 b -> PDPT_INDEX a = PDPT_INDEX b.
Proof. intros H. unfold PDPT_INDEX. rewrite !index_div by done. f_equal. by apply (same_block 30); [done|]. Qed.
Lemma pml4_index_block a b : b <= a <= bend 39 b -> PML4_INDEX a = PML4_INDEX b.
Proof. intros H. unfold PML4_INDEX. rewrite !index_div by done. f_equal. by apply (same_block 39); [done|]. Qed.

(** Decisions are uniform on a block whose leaf does not depend on the address. *)
Lemma decides_uniform (m : K (wstate user_info) Z) lo hi (ok : Z -> bool) (b : bool) :
  lo <= hi -> (forall a, lo <= a <= hi -> ok a = b) ->
  (forall u, ui_flags u = fl -> exists va, m (s, u) = if b then Ret 0 (s, u) else Ret (-1) (s, mk_user_info va fl)) ->
  decides m s fl lo hi ok.
Proof.
  intros Hle Hok Hm u Hu. destruct (Hm u Hu) as [va E]. destruct b; [left; auto|]. right. exists va.
  split; [done|]. exists lo. split; [lia|]. apply Hok. lia.
Qed.

Lemma decides_ext m lo hi ok ok' :
  (forall a, lo <= a <= hi -> ok a = ok' a) -> decides m s fl lo hi ok -> decides m s fl lo hi ok'.
Proof.
  intros He Hd u Hu. destruct (Hd u Hu) as [[E H]|(va & E & a & Ha & H)]; [left|right].
  - split; [done|]. intros a Ha. rewrite <- He; auto.
  - exists va. split; [done|]. exists a. by rewrite <- He.
Qed.

(** At most 512 blocks of [2^k] bytes lie in one of [2^(k+9)]. *)
Lemma blocks_512 k base en : 0 <= k -> base <= en <= bend (k + 9) base -> en / 2 ^ k - base / 2 ^ k < Z.of_nat walk_fuel.
Proof.
  intros Hk Hb. pose proof (same_block (k + 9) en base ltac:(lia) ltac:(lia)) as Hs.
  assert (0 < 2 ^ k) by (apply Z.pow_pos_nonneg; lia).
  rewrite Z.pow_add_r in Hs by lia. change (2 ^ 9) with 512 in Hs. rewrite <- !Z.div_div in Hs by lia.
  pose proof (Z.div_mod (en / 2 ^ k) 512). pose proof (Z.div_mod (base / 2 ^ k) 512).
  pose proof (Z.mod_pos_bound (en / 2 ^ k) 512). pose proof (Z.mod_pos_bound (base / 2 ^ k) 512).
  unfold walk_fuel. lia.
Qed.

(** A half of the address space has 256 of the largest blocks. *)
Lemma half_blocks base en : base <= en -> one_half base en -> en / 2 ^ 39 - base / 2 ^ 39 < Z.of_nat walk_fuel.
Proof.
  intros Hle Hh. unfold one_half, USER_LIM, KERNEL_VMA in Hh. unfold walk_fuel.
  assert (0 <= base / 2 ^ 39) by (apply Z.div_pos; lia). destruct Hh as [?|?].
  - assert (en / 2 ^ 39 < 256); [|lia]. apply Z.div_lt_upper_bound; lia.
  - assert (en / 2 ^ 39 < 2 ^ 25) by (apply Z.div_lt_upper_bound; lia).
    assert (2 ^ 25 - 256 <= base / 2 ^ 39) by (apply Z.div_le_lower_bound; lia). lia.
Qed.

Lemma ptbl_decides t base en :
  base <= en -> one_half base en -> en <= bend 21 base ->
  decides (ptbl_walk_range t base en check_walker) s fl base en (fun a => accessible (frames s) fl (leaf1 (frames s) t a)).
Proof.
  intros Hle Hh Hb. unfold ptbl_walk_range. rewrite !(sign_extend_half base en) by (done || lia).
  pose proof (one_half_64 _ _ base Hh ltac:(lia)) as Hb64.
  apply (range_decides _ 12); [lia|apply ptbl_end_bend|done|done|by apply blocks_512; [lia|]|].
  intros b Hbb. pose proof (bend_spec 12 b ltac:(lia)) as (_ & Hbd & _).
  set (e := (t, PAGE_TABLE_INDEX b)). set (v := read_frames (frames s) e).
  apply (decides_uniform _ _ _ _ (flag v PAGE_PRESENT && user_ok fl v)).
  - lia.
  - intros a Ha. unfold leaf1. rewrite (table_index_block a b) by lia. fold e v. by destruct (flag v PAGE_PRESENT).
  - intros u Hu. exists (ptbl_start b). unfold ptbl_body. fold e. cbn [call_opt check_walker pte_callback].
    pose proof (check_pte_cases e (ptbl_start b) (ptbl_end b) u Hu) as Hc. cbv zeta in Hc. fold v in Hc.
    unfold kbind at 1. rewrite Hc. destruct (flag v PAGE_PRESENT) eqn:P; [|done]. simpl.
    destruct (user_ok fl v); [|done]. simpl. unfold kbind. simpl. fold v. by rewrite P.
Qed.

(** A present table entry: the walk of the level below, and nothing after it. *)
Lemma sub_decides (m : K (wstate user_info) Z) lo hi ok :
  decides m s fl lo hi ok ->
  decides (r <-- m;; if r <? 0 then kret r else kret 0) s fl lo hi ok.
Proof.
  intros Hd u Hu. unfold kbind. destruct (Hd u Hu) as [[E H]|(va & E & H)]; rewrite E; [left|right; exists va]; done.
Qed.

Lemma decides_state (m m' : K (wstate user_info) Z) lo hi ok :
  (forall u, ui_flags u = fl -> m (s, u) = m' (s, u)) -> decides m' s fl lo hi ok -> decides m s fl lo hi ok.
Proof. intros He Hd u Hu. rewrite He by done. by apply Hd. Qed.

Lemma pdir_decides t base en :
  base <= en -> one_half base en -> en <= bend 30 base ->
  (forall a, base <= a <= en -> in2 (frames s) (npages s) t a) ->
  decides (pdir_walk_range t base en check_walker) s fl base en (fun a => accessible (frames s) fl (leaf2 (frames s) t a)).
Proof.
  intros Hle Hh Hb Hin. unfold pdir_walk_range. rewrite !(sign_extend_half base en) by (done || lia).
  apply (range_decides _ 21); [lia|apply pdir_end_bend|done|done|by apply blocks_512; [lia|]|].
  intros b Hbb. pose proof (bend_spec 21 b ltac:(lia)) as (_ & Hbd & _).
  pose proof (one_half_64 _ _ b Hh ltac:(lia)) as Hb64. specialize (Hin b Hbb).
  set (e := (t, PAGE_DIR_INDEX b)). unfold in2 in Hin. fold e in Hin. set (v := read_frames (frames s) e) in *.
  assert (forall a, b <= a <= Z.min (bend 21 b) en -> leaf2 (frames s) t a =
    if flag v PAGE_PRESENT then if flag v PAGE_HUGE then Some e else leaf1 (frames s) (tbl v) a else None) as Hleaf.
  { intros a Ha. unfold leaf2. by rewrite (dir_index_block a b) by lia. }
  assert (forall u, ui_flags u = fl -> pdir_body t en check_walker b (s, u) =
    if negb (flag v PAGE_HUGE) || (flag v PAGE_PRESENT && user_ok fl v) then
      (if flag v PAGE_PRESENT then
         if flag v PAGE_HUGE then kret 0
         else ptbl <-- mem (table_at v);; r <-- ptbl_walk_range ptbl b (Z.min (pdir_end b) en) check_walker;;
              if r <? 0 then kret r else kret 0
       else (r <-- check_user_hole (pdir_start b) (pdir_end b);; if r <? 0 then kret r else kret 0)) (s, u)
    else Ret (-1) (s, mk_user_info (pdir_start b) fl)) as Hbody.
  { intros u Hu. unfold pdir_body. fold e. cbn [check_walker pde_callback].
    pose proof (check_pde_cases e (pdir_start b) (pdir_end b) u Hu) as Hc. cbv zeta in Hc. fold v in Hc.
    destruct (negb (flag v PAGE_HUGE) || (flag v PAGE_PRESENT && user_ok fl v)).
    - rewrite (call_opt_0 _ _ _ _ _ _ _ Hc). done.
    - unfold call_opt, kbind at 1. by rewrite Hc. }
  destruct (flag v PAGE_PRESENT) eqn:P; [destruct (flag v PAGE_HUGE) eqn:H|].
  - apply (decides_uniform _ _ _ _ (user_ok fl v)); [lia| |].
    + intros a Ha. by rewrite Hleaf.
    + intros u Hu. exists (pdir_start b). rewrite Hbody by done. simpl. by destruct (user_ok fl v).
  - eapply decides_state; [exact Hbody|]. simpl.
    eapply decides_state; [intros u _; by rewrite bind_table_at by auto|]. rewrite pdir_end_bend by lia.
    apply sub_decides. eapply decides_ext; [|apply ptbl_decides; [lia|eapply one_half_sub; [exact Hh|lia|lia]|lia]].
    intros a Ha. simpl. by rewrite Hleaf.
  - apply (decides_uniform _ _ _ _ false); [lia| |].
    + intros a Ha. by rewrite Hleaf.
    + intros u Hu. rewrite Hbody by done. rewrite andb_false_l, orb_false_r.
      destruct u as [va fl']; simpl in Hu; subst fl'. exists (pdir_start b). by destruct (flag v PAGE_HUGE).
Qed.

Lemma hole_uniform bs be ok lo hi :
  lo <= hi -> (forall a, lo <= a <= hi -> ok a = false) ->
  decides (r <-- check_user_hole bs be;; if r <? 0 then kret r else kret 0) s fl lo hi ok.
Proof.
  intros Hle Hok. apply (decides_uniform _ _ _ _ false); [done|done|]. intros [va fl'] Hu. simpl in Hu. subst fl'.
  by exists bs.
Qed.

Lemma pdpt_decides t base en :
  base <= en -> one_half base en -> en <= bend 39 base ->
  (forall a, base <= a <= en -> in3 (frames s) (npages s) t a) ->
  decides (pdpt_walk_range t base en check_walker) s fl base en (fun a => accessible (frames s) fl (leaf3 (frames s) t a)).
Proof.
  intros Hle Hh Hb Hin. unfold pdpt_walk_range. rewrite !(sign_extend_half base en) by (done || lia).
  apply (range_decides _ 30); [lia|apply pdpt_end_bend|done|done|by apply blocks_512; [lia|]|].
  intros b Hbb. pose proof (bend_spec 30 b ltac:(lia)) as (_ & Hbd & _).
  pose proof (one_half_64 _ _ b Hh ltac:(lia)) as Hb64.
  set (v := read_frames (frames s) (t, PDPT_INDEX b)).
  assert (forall a, b <= a <= Z.min (bend 30 b) en -> leaf3 (frames s) t a =
    if flag v PAGE_PRESENT then leaf2 (frames s) (tbl v) a else None) as Hleaf.
  { intros a Ha. unfold leaf3. by rewrite (pdpt_index_block a b) by lia. }
  assert (forall a, b <= a <= Z.min (bend 30 b) en -> flag v PAGE_PRESENT = true ->
    tbl v < npages s /\ in2 (frames s) (npages s) (tbl v) a) as Hin'.
  { intros a Ha. specialize (Hin a ltac:(lia)). unfold in3 in Hin. by rewrite (pdpt_index_block a b) in Hin by lia. }
  unfold pdpt_body. cbn [call_opt check_walker pdpte_callback pdpte_unmap hole_opt pt_hole_callback].
  eapply decides_state; [intros u _; rewrite bind_get_entry; fold v; reflexivity|].
  destruct (flag v PAGE_PRESENT) eqn:P.
  - destruct (Hin' b ltac:(lia) eq_refl) as [Ht _].
    eapply decides_state; [intros u _; by rewrite bind_table_at|]. rewrite pdpt_end_bend by lia. apply sub_decides.
    eapply decides_ext; [|apply pdir_decides; [lia|eapply one_half_sub; [exact Hh|lia|lia]|lia|]].
    + intros a Ha. simpl. by rewrite Hleaf.
    + intros a Ha. by apply Hin'.
  - apply hole_uniform; [lia|]. intros a Ha. by rewrite Hleaf.
Qed.

Lemma pml4_decides t base en :
  base <= en -> one_half base en -> (forall a, base <= a <= en -> in4 (frames s) (npages s) t a) ->
  decides (pml4_walk_range t base en check_walker) s fl base en (fun a => accessible (frames s) fl (leaf4 (frames s) t a)).
Proof.
  intros Hle Hh Hin. unfold pml4_walk_range. rewrite !(sign_extend_half base en) by (done || lia).
  apply (range_decides _ 39); [lia|apply pml4_end_bend|done|done|by apply half_blocks|].
  intros b Hbb. pose proof (bend_spec 39 b ltac:(lia)) as (_ & Hbd & _).
  pose proof (one_half_64 _ _ b Hh ltac:(lia)) as Hb64.
  set (v := read_frames (frames s) (t, PML4_INDEX b)).
  assert (forall a, b <= a <= Z.min (bend 39 b) en -> leaf4 (frames s) t a =
    if flag v PAGE_PRESENT then leaf3 (frames s) (tbl v) a else None) as Hleaf.
  { intros a Ha. unfold leaf4. by rewrite (pml4_index_block a b) by lia. }
  assert (forall a, b <= a <= Z.min (bend 39 b) en -> flag v PAGE_PRESENT = true ->
    tbl v < npages s /\ in3 (frames s) (npages s) (tbl v) a) as Hin'.
  { intros a Ha. specialize (Hin a ltac:(lia)). unfold in4 in Hin. by rewrite (pml4_index_block a b) in Hin by lia. }
  unfold pml4_body. cbn [call_opt check_walker pml4e_callback pml4e_unmap hole_opt pt_hole_callback].
  eapply decides_state; [intros u _; rewrite bind_get_entry; fold v; reflexivity|].
  destruct (flag v PAGE_PRESENT) eqn:P.
  - destruct (Hin' b ltac:(lia) eq_refl) as [Ht _].
    eapply decides_state; [intros u _; by rewrite bind_table_at|]. rewrite pml4_end_bend by lia. apply sub_decides.
    eapply decides_ext; [|apply pdpt_decides; [lia|eapply one_half_sub; [exact Hh|lia|lia]|lia|]].
    + intros a Ha. simpl. by rewrite Hleaf.
    + intros a Ha. by apply Hin'.
  - apply hole_uniform; [lia|]. intros a Ha. by rewrite Hleaf.
Qed.

End Check.


(** ** A small address space: pages 0 and 1 of the first table map frames 10 and 11 *)

Definition demo_frames : gmap Z (gmap Z Z) :=
  {[ 1 := {[ 0 := 2 * 4096 + 7 ]}; 2 := {[ 0 := 3 * 4096 + 7 ]}; 3 := {[ 0 := 4 * 4096 + 7 ]};
     4 := {[ 0 := 10 * 4096 + 7; 1 := 11 * 4096 + 5 ]} ]}.
Definition demo_space : mstate :=
  mk_mstate ∅ 512 ∅ demo_frames (Spinlock.static_lock "buddy_lock") (Spinlock.static_lock "active_pages_lock") 0 None 1 [].

(** Fact (functional): the requirement that the address be aligned is needed: for an address
    inside a page [page_lookup] also visits the following page and returns that one when
    it is mapped, not the page the MMU uses. *)
Theorem page_lookup_unaligned_next :
  page_lookup 1 8 demo_space = Ret (Some 11, Some (4, 1)) demo_space
  /\ leaf4 (frames demo_space) 1 8 = Some (4, 0).
Proof. vm_compute. done. Qed.

Lemma page_lookup_correct_witness : page_lookup 1 4096 demo_space = Ret (Some 11, Some (4, 1)) demo_space.
Proof.
  apply (page_lookup_correct 1 4096 demo_space).
  - split; [reflexivity|]. left. vm_compute. split; [discriminate|reflexivity].
  - intros _. split; [reflexivity|]. intros _. split; [reflexivity|]. intros _ _. reflexivity.
  - intros e He. vm_compute in He. injection He as <-. reflexivity.
Defined.

