(* ===== verification/Ptbl.v ===== *)
(** * Changing page tables (kernel/mem/ptbl.c, insert.c, remove.c, protect.c, populate.c, map.c)

    The callbacks and the entry points that change an address space, on the walker of
    Walk.v and the allocator of Buddy.v.  [oom_kill_task] (kernel/sched/task.c) is an
    argument: the memory code calls it when an allocation fails and then tries again. *)

From Stdlib Require Import ZArith Lia.
From stdpp Require Import strings base gmap fin_maps list.
From S2P Require Import Prelude ListHeap Spinlock MemState Buddy Walk.

#[local] Open Scope Z_scope.
#[local] Open Scope kernel_scope.

(** [memcpy(page2kva(dst), page2kva(src), PAGE_SIZE)]. *)
Definition copy_frame (dst src : Z) : K mstate unit := fun s =>
  Ret tt (set_frames (<[dst := default ∅ (frames s !! src)]> (frames s)) s).

(** [n] frames in a row. *)
Fixpoint copy_frames (n : nat) (dst src : Z) : K mstate unit :=
  match n with
  | O => kret tt
  | S n => copy_frame dst src;;; copy_frames n (dst + 1) (src + 1)
  end.

(** [if (cur_task) cur_task->task_rss += n]. *)
Definition rss_add (n : Z) : K mstate unit := kmodify (fun s =>
  match cur_task s with
  | Some t => set_cur_task (Some (mk_task_ref (task_id t) (task_pml4 t) (u64 (task_rss t + n)))) s
  | None => s
  end).

Definition ref_inc (p : Z) : K mstate unit := mod_page p (fun g => set_pp_ref (u16 (pp_ref g + 1)) g).

Section Ops.
Context (cfg : config) (cpu : Z) (oom_kill_task : K mstate unit).

(** [page = page_alloc(flags); if (!page) { oom_kill_task(); page = page_alloc(flags); if (!page) return -1; }
    if (cur_task) cur_task->task_rss += n;] and the rest. *)
Definition alloc_or_oom (flags n : Z) (k : Z -> K mstate Z) : K mstate Z :=
  p <-- page_alloc cfg cpu flags;;
  match p with
  | Some p => rss_add n;;; k p
  | None =>
      oom_kill_task;;;
      p <-- page_alloc cfg cpu flags;;
      match p with
      | Some p => rss_add n;;; k p
      | None => kret (-1)
      end
  end.

(** ** ptbl.c *)

Definition ptbl_alloc (e : entry) (base end_ : Z) : K mstate Z :=
  v <-- get_entry e;;
  if flag v PAGE_PRESENT then kret 0 else
  alloc_or_oom ALLOC_ZERO 1 (fun page =>
    ref_inc page;;;
    set_entry e (page2pa page);;;
    v <-- get_entry e;;
    set_entry e (Z.lor (Z.lor (Z.lor v PAGE_PRESENT) PAGE_WRITE) PAGE_USER);;;
    kret 0).

(** The loop that fills the new table of [ptbl_split] from index [i] on. *)
Fixpoint split_fill (n : nat) (i ptbl huge_page flags : Z) (statically_mapped : bool) : K mstate Z :=
  match n with
  | O => kret 0
  | S n =>
      if statically_mapped then
        set_entry (ptbl, i) (Z.lor (Z.lor (page2pa (huge_page + i)) PAGE_PRESENT) flags);;;
        split_fill n (i + 1) ptbl huge_page flags statically_mapped
      else
        alloc_or_oom ALLOC_ZERO 1 (fun page =>
          page2kva huge_page;;;
          page2kva page;;;
          copy_frame page (huge_page + i);;;
          mod_page page (set_pp_ref 1);;;
          set_entry (ptbl, i) (Z.lor (Z.lor (page2pa page) PAGE_PRESENT) flags);;;
          split_fill n (i + 1) ptbl huge_page flags statically_mapped)
  end.

Definition ptbl_split (e : entry) (base end_ : Z) : K mstate Z :=
  v <-- get_entry e;;
  if negb (flag v PAGE_PRESENT) then ptbl_alloc e base end_
  else if negb (flag v PAGE_HUGE) then ptbl_alloc e base end_
  else
    huge_page <-- pa2page (PAGE_ADDR v);;
    alloc_or_oom ALLOC_ZERO 1 (fun new_page =>
      ref_inc new_page;;;
      v <-- get_entry e;;
      let flags := Z.land v PAGE_UMASK in
      set_entry e (page2pa new_page);;;
      v <-- get_entry e;;
      set_entry e (Z.lor (Z.lor (Z.lor v PAGE_PRESENT) PAGE_WRITE) PAGE_USER);;;
      page2kva new_page;;;
      h <-- get_page huge_page;;
      let statically_mapped := (pp_free h =? 0) && (pp_ref h =? 0) in
      r <-- split_fill (Z.to_nat PAGE_TABLE_ENTRIES) 0 new_page huge_page flags statically_mapped;;
      if r <? 0 then kret r else
      (if negb statically_mapped then page_decref cfg cpu huge_page;;; rss_add (-512) else kret tt);;;
      kret 0).

(** Are all entries from [i] on present with the flags of entry 0? *)
Fixpoint mergeable (n : nat) (i ptbl : Z) : K mstate bool :=
  match n with
  | O => kret true
  | S n =>
      v <-- get_entry (ptbl, i);;
      if negb (flag v PAGE_PRESENT) then kret false else
      v0 <-- get_entry (ptbl, 0);;
      if negb (Z.land v PAGE_UMASK =? Z.land v0 PAGE_UMASK) then kret false
      else mergeable n (i + 1) ptbl
  end.

Fixpoint merge_copy (n : nat) (i ptbl huge_page : Z) : K mstate unit :=
  match n with
  | O => kret tt
  | S n =>
      v <-- get_entry (ptbl, i);;
      page <-- pa2page (PAGE_ADDR v);;
      page2kva huge_page;;;
      page2kva page;;;
      copy_frame (huge_page + i) page;;;
      merge_copy n (i + 1) ptbl huge_page
  end.

(** [tlb_invalidate] on the value of [read_cr3()]: the physical address of the PML4. *)
Definition invalidate_cr3 (va : Z) : K mstate unit :=
  s <-- kget;; tlb_invalidate (page2pa (cr3 s)) va.

Fixpoint merge_invalidate (n : nat) (i base : Z) : K mstate unit :=
  match n with
  | O => kret tt
  | S n => invalidate_cr3 (u64 (base + i * PAGE_SIZE));;; merge_invalidate n (i + 1) base
  end.

Fixpoint merge_release (n : nat) (i ptbl : Z) : K mstate unit :=
  match n with
  | O => kret tt
  | S n =>
      v <-- get_entry (ptbl, i);;
      page <-- pa2page (PAGE_ADDR v);;
      page_decref cfg cpu page;;;
      rss_add (-1);;;
      merge_release n (i + 1) ptbl
  end.

Definition ptbl_merge (e : entry) (base end_ : Z) : K mstate Z :=
  v <-- get_entry e;;
  if negb (flag v PAGE_PRESENT) || flag v PAGE_HUGE then kret 0 else
  ptbl <-- table_at v;;
  pt <-- pa2page (PAGE_ADDR v);;
  ok <-- mergeable (Z.to_nat PAGE_TABLE_ENTRIES) 0 ptbl;;
  if negb ok then kret 0 else
  alloc_or_oom (Z.lor ALLOC_HUGE ALLOC_ZERO) 512 (fun huge_page =>
    ref_inc huge_page;;;
    v0 <-- get_entry (ptbl, 0);;
    let flags := Z.land v0 PAGE_UMASK in
    merge_copy (Z.to_nat PAGE_TABLE_ENTRIES) 0 ptbl huge_page;;;
    set_entry e (Z.lor (Z.lor (Z.lor (page2pa huge_page) flags) PAGE_HUGE) PAGE_PRESENT);;;
    merge_invalidate (Z.to_nat PAGE_TABLE_ENTRIES) 0 base;;;
    merge_release (Z.to_nat PAGE_TABLE_ENTRIES) 0 ptbl;;;
    page_decref cfg cpu pt;;;
    kret 0).

Fixpoint table_empty (n : nat) (i ptbl : Z) : K mstate bool :=
  match n with
  | O => kret true
  | S n =>
      v <-- get_entry (ptbl, i);;
      if flag v PAGE_PRESENT then kret false else table_empty n (i + 1) ptbl
  end.

Definition ptbl_free (e : entry) (base end_ : Z) : K mstate Z :=
  v <-- get_entry e;;
  if flag v PAGE_HUGE && negb (flag v PAGE_PRESENT) then kret 0 else
  page <-- pa2page (PAGE_ADDR v);;
  page2kva page;;;
  empty <-- table_empty (Z.to_nat PAGE_TABLE_ENTRIES) 0 page;;
  if negb empty then kret 0 else
  rss_add (-1);;;
  v <-- get_entry e;;
  p <-- pa2page (PAGE_ADDR v);;
  page_decref cfg cpu p;;;
  set_entry e 0;;;
  kret 0.

(** A callback that does not look at [udata]. *)
Definition plain {U} (f : entry -> Z -> Z -> K mstate Z) : option (callback U) := Some (fun e b en => mem (f e b en)).

(** ** insert.c: [info.page] and [info.flags] *)

Definition insert_pte (page flags : Z) (e : entry) (base end_ : Z) : K mstate Z :=
  g <-- get_page page;;
  if negb (pp_order g =? 0) then kret (-1) else
  ref_inc page;;;
  v <-- get_entry e;;
  (if flag v PAGE_PRESENT then
     old <-- pa2page (PAGE_ADDR v);;
     page_decref cfg cpu old;;;
     set_entry e 0;;;
     invalidate_cr3 base
   else kret tt);;;
  mod_page page (set_pp_free 0);;;
  set_entry e (Z.lor (page2pa page) (Z.lor flags PAGE_PRESENT));;;
  kret 0.

Definition insert_pde (page flags : Z) (e : entry) (base end_ : Z) : K mstate Z :=
  v <-- get_entry e;;
  if flag v PAGE_PRESENT && flag v PAGE_HUGE then
    if flag flags PAGE_HUGE then
      ref_inc page;;;
      v <-- get_entry e;;
      old <-- pa2page (PAGE_ADDR v);;
      page_decref cfg cpu old;;;
      set_entry e 0;;;
      invalidate_cr3 base;;;
      mod_page page (set_pp_free 0);;;
      set_entry e (Z.lor (page2pa page) flags);;;
      kret 0
    else
      r <-- ptbl_alloc e base end_;; if r <? 0 then kret r else kret 0
  else
    if flag flags PAGE_HUGE then
      ref_inc page;;;
      mod_page page (set_pp_free 0);;;
      set_entry e (Z.lor (page2pa page) flags);;;
      kret 0
    else
      r <-- ptbl_alloc e base end_;; if r <? 0 then kret r else kret 0.

Definition insert_walker (page flags : Z) : page_walker unit :=
  mk_walker (plain (insert_pte page flags)) (plain (insert_pde page flags)) (plain ptbl_alloc) (plain ptbl_alloc)
    (plain ptbl_merge) None None None.

Definition page_insert (pml4 page va flags : Z) : K mstate Z :=
  if negb (page_aligned va) then kret (-1) else
  g <-- get_page page;;
  let flags := if pp_order g =? BUDDY_2M_PAGE then Z.lor flags PAGE_HUGE else flags in
  if flag flags PAGE_HUGE && negb (hpage_aligned va) then kret (-1) else
  let size := if flag flags PAGE_HUGE then HPAGE_SIZE else PAGE_SIZE in
  r <-- run_walk tt (walk_page_range pml4 va (u64 (va + size)) (insert_walker page (Z.lor flags PAGE_PRESENT)));;
  if fst r <? 0 then kret (-1) else kret 0.

(** ** remove.c: [info.pml4], [info.base_remove], [info.end_remove] *)

Definition remove_pte (pml4 : Z) (e : entry) (base end_ : Z) : K mstate Z :=
  v <-- get_entry e;;
  (if flag v PAGE_PRESENT then
     page <-- pa2page (PAGE_ADDR v);;
     page_decref cfg cpu page;;;
     set_entry e 0;;;
     tlb_invalidate pml4 base
   else kret tt);;;
  kret 0.

Definition remove_pde (pml4 base_remove end_remove : Z) (e : entry) (base end_ : Z) : K mstate Z :=
  v <-- get_entry e;;
  if flag v PAGE_PRESENT && flag v PAGE_HUGE then
    old_page <-- pa2page (PAGE_ADDR v);;
    (if (base_remove >? base) || (end_remove <? end_) then
       ptbl_split e (Z.land base (not64 (PAGE_TABLE_SPAN - 1))) (Z.lor end_ (PAGE_TABLE_SPAN - 1));;; kret tt
     else
       set_entry e 0;;;
       page_decref cfg cpu old_page);;;
    tlb_invalidate pml4 (Z.land base (not64 (PAGE_TABLE_SPAN - 1)));;;
    kret 0
  else kret 0.

Definition remove_walker (pml4 base_remove end_remove : Z) : page_walker unit :=
  mk_walker (plain (remove_pte pml4)) (plain (remove_pde pml4 base_remove end_remove)) None None
    (plain ptbl_free) (plain ptbl_free) (plain ptbl_free) None.

Definition unmap_page_range (pml4 va size : Z) : K mstate unit :=
  run_walk tt (walk_page_range pml4 va (u64 (va + size)) (remove_walker (table_kva pml4) va (u64 (va + size))));;;
  kret tt.

Definition unmap_user_pages (pml4 : Z) : K mstate unit := unmap_page_range pml4 0 USER_LIM.

Definition page_remove (pml4 va : Z) : K mstate unit :=
  r <-- page_lookup pml4 va;;
  match fst r with
  | None => kret tt
  | Some page =>
      g <-- get_page page;;
      if pp_order g =? BUDDY_2M_PAGE then unmap_page_range pml4 va HPAGE_SIZE
      else unmap_page_range pml4 va PAGE_SIZE
  end.

(** ** protect.c *)

(** The entry with the permissions replaced. *)
Definition protected (v flags : Z) : Z := Z.lor (Z.land v (not64 PAGE_UMASK)) flags.

Definition protect_pte (pml4 flags : Z) (e : entry) (base end_ : Z) : K mstate Z :=
  v <-- get_entry e;;
  if flag v PAGE_PRESENT then
    if Z.land v PAGE_UMASK =? flags then kret 0 else
    set_entry e (protected v flags);;;
    tlb_invalidate pml4 base;;;
    kret 0
  else kret 0.

Definition protect_pde (pml4 flags ibase iend : Z) (e : entry) (base end_ : Z) : K mstate Z :=
  v <-- get_entry e;;
  if flag v PAGE_HUGE && flag v PAGE_PRESENT then
    if (base =? ibase) && (end_ =? iend) then
      if Z.land v PAGE_UMASK =? flags then kret 0 else
      set_entry e (protected v flags);;;
      tlb_invalidate pml4 base;;;
      kret 0
    else
      ptbl_split e (Z.land base (not64 (PAGE_TABLE_SPAN - 1))) (Z.lor end_ (PAGE_TABLE_SPAN - 1));;;
      tlb_invalidate pml4 base;;;
      kret 0
  else kret 0.

Definition protect_region (pml4 va size flags : Z) : K mstate unit :=
  let ibase := ROUNDDOWN va PAGE_SIZE in
  let iend := u64 (ROUNDUP (u64 (va + size)) PAGE_SIZE - 1) in
  run_walk tt (walk_page_range pml4 va (u64 (va + size))
    (mk_walker (plain (protect_pte (table_kva pml4) flags)) (plain (protect_pde (table_kva pml4) flags ibase iend))
       None None None None None None));;;
  kret tt.

(** ** populate.c *)

(** The new page is recorded on the list of active pages. *)
Definition track (page base line : Z) : K mstate unit :=
  mod_page page (set_virt_addr (ROUNDDOWN base PAGE_SIZE));;;
  s <-- kget;;
  mod_page page (set_owner (task_id <$> cur_task s));;;
  lock_active cpu "kernel/mem/populate.c" line;;;
  list_op (fun h => list_init h (ActiveNode page));;;
  list_op (fun h => list_add_tail h ActivePages (ActiveNode page));;;
  unlock_active cpu.

(** [cur_task->task_pml4]. *)
Definition cur_pml4 : K mstate Z := fun s => kderef (table_kva ∘ task_pml4 <$> cur_task s) s.

Definition populate_pte (flags : Z) (e : entry) (base end_ : Z) : K mstate Z :=
  v <-- get_entry e;;
  page <-- pa2page (PAGE_ADDR v);;
  g <-- (if flag v PAGE_PRESENT then get_page page else kret (mk_page 0 0 0 0 0 0 None));;
  if flag v PAGE_PRESENT && (pp_ref g >? 1) then
    alloc_or_oom ALLOC_ZERO 1 (fun new_page =>
      page_decref cfg cpu page;;;
      ref_inc new_page;;;
      set_entry e (Z.lor (Z.lor (page2pa new_page) PAGE_PRESENT) flags);;;
      page2kva new_page;;;
      page2kva page;;;
      copy_frame new_page page;;;
      track new_page base 49;;;
      pml4 <-- cur_pml4;;
      tlb_invalidate pml4 base;;;
      kret 0)
  else if flag v PAGE_PRESENT && (pp_ref g =? 1) then kret 0
  else
    alloc_or_oom ALLOC_ZERO 1 (fun page =>
      ref_inc page;;;
      set_entry e (Z.lor (Z.lor (page2pa page) flags) PAGE_PRESENT);;;
      track page base 73;;;
      kret 0).

Definition populate_pde (flags ibase iend : Z) (e : entry) (base end_ : Z) : K mstate Z :=
  v <-- get_entry e;;
  page <-- pa2page (PAGE_ADDR v);;
  g <-- (if flag v PAGE_PRESENT then get_page page else kret (mk_page 0 0 0 0 0 0 None));;
  if flag v PAGE_PRESENT && (flag v PAGE_HUGE && (pp_ref g >? 1)) then
    alloc_or_oom (Z.lor ALLOC_ZERO ALLOC_HUGE) 512 (fun new_page =>
      set_entry e (Z.lor (Z.lor (Z.lor (page2pa new_page) PAGE_PRESENT) PAGE_HUGE) flags);;;
      page_decref cfg cpu page;;;
      ref_inc new_page;;;
      page2kva new_page;;;
      page2kva page;;;
      copy_frames (Z.to_nat 512) new_page page;;;
      pml4 <-- cur_pml4;;
      tlb_invalidate pml4 base;;;
      kret 0)
  else if flag v PAGE_PRESENT && (pp_ref g =? 1) then kret 0
  else if (ibase <=? base) && (iend >=? end_) then
    alloc_or_oom (Z.lor ALLOC_ZERO ALLOC_HUGE) 512 (fun page =>
      ref_inc page;;;
      set_entry e (Z.lor (Z.lor (Z.lor (page2pa page) flags) PAGE_PRESENT) PAGE_HUGE);;;
      kret 0)
  else ptbl_split e base end_.

Definition populate_region (pml4 va size flags : Z) : K mstate unit :=
  let ibase := ROUNDDOWN va PAGE_SIZE in
  let iend := u64 (ROUNDUP (u64 (va + size)) PAGE_SIZE - 1) in
  if flag flags PAGE_HUGE && negb (hpage_aligned va) then kret tt else
  run_walk tt (walk_page_range pml4 va (u64 (va + size))
    (mk_walker (plain (populate_pte flags)) (plain (populate_pde flags ibase iend)) (plain ptbl_alloc) (plain ptbl_alloc)
       (plain ptbl_merge) None None None));;;
  kret tt.

(** ** map.c: [info.pa] moves along, the rest of [struct boot_map_info] is fixed *)

Definition boot_map_pte (flags : Z) : callback Z := fun e _ _ =>
  pa <-- get_info;;
  mem (set_entry e (Z.lor (Z.lor (PAGE_ADDR pa) flags) PAGE_PRESENT));;;
  set_info (u64 (pa + PAGE_SIZE));;;
  kret 0.

Definition boot_map_pde (flags ibase iend : Z) : callback Z := fun e base end_ =>
  pa <-- get_info;;
  if (base >=? ibase) && (end_ <=? iend) && hpage_aligned pa then
    mem (set_entry e (Z.lor (Z.lor (Z.lor pa flags) PAGE_HUGE) PAGE_PRESENT));;;
    set_info (u64 (pa + HPAGE_SIZE));;;
    kret 0
  else mem (ptbl_split e (Z.land base (not64 (HPAGE_SIZE - 1))) (Z.lor base (HPAGE_SIZE - 1))).

Definition boot_map_region (pml4 va size pa flags : Z) : K mstate unit :=
  let ibase := ROUNDDOWN va PAGE_SIZE in
  let iend := u64 (ROUNDUP (u64 (va + size)) PAGE_SIZE - 1) in
  run_walk (ROUNDDOWN pa PAGE_SIZE) (walk_page_range pml4 ibase iend
    (mk_walker (Some (boot_map_pte flags)) (Some (boot_map_pde flags ibase iend)) (plain ptbl_alloc) (plain ptbl_alloc)
       None None None None));;;
  kret tt.

(** The static [base] of [mmio_map_region] is passed in and its new value returned. *)
Definition KPAGES : Z := 0xFFFFFF8000000000.
Definition MMIO_LIM : Z := KPAGES.
Definition MMIO_BASE : Z := MMIO_LIM - PDPT_SPAN.
Definition PIDMAP_BASE : Z := MMIO_BASE - PDPT_SPAN.
Definition KSTACK_TOP : Z := PIDMAP_BASE.

Definition mmio_map_region (kernel_pml4 base pa size : Z) : K mstate (Z * Z) :=
  let size := ROUNDUP size PAGE_SIZE in
  kassert (u64 (base + size) <? MMIO_LIM);;;
  boot_map_region kernel_pml4 base size pa
    (Z.lor (Z.lor (Z.lor (Z.lor PAGE_PRESENT PAGE_WRITE) PAGE_NO_EXEC) PAGE_WRITE_THROUGH) PAGE_NO_CACHE);;;
  kret (base, u64 (base + size)).

(** [struct mmap_entry] and the loop over the memory map. *)
Definition MMAP_FREE : Z := 1.
Definition MMAP_BAD : Z := 5.
Record mmap_entry := mk_mmap { mm_addr : Z; mm_len : Z; mm_type : Z }.

Fixpoint boot_map_mmap (pml4 : Z) (l : list mmap_entry) : K mstate unit :=
  match l with
  | [] => kret tt
  | m :: l =>
      if mm_type m =? MMAP_BAD then boot_map_mmap pml4 l else
      boot_map_region pml4 (u64 (KERNEL_VMA + mm_addr m)) (mm_len m) (mm_addr m)
        (if mm_type m =? MMAP_FREE then Z.lor (Z.lor PAGE_PRESENT PAGE_WRITE) PAGE_NO_EXEC
         else Z.lor PAGE_PRESENT PAGE_NO_EXEC);;;
      boot_map_mmap pml4 l
  end.

(** The fields of a program header that [boot_map_elf] reads. *)
Definition ELF_PROG_FLAG_EXEC : Z := 1.
Definition ELF_PROG_FLAG_WRITE : Z := 2.
Record proghdr := mk_proghdr { p_va : Z; p_memsz : Z; p_flags : Z }.

Fixpoint boot_map_elf (pml4 : Z) (l : list proghdr) : K mstate unit :=
  match l with
  | [] => kret tt
  | ph :: l =>
      if p_va ph <? KERNEL_VMA then boot_map_elf pml4 l else
      let perm := PAGE_PRESENT in
      let perm := if negb (flag (p_flags ph) ELF_PROG_FLAG_EXEC) then Z.lor perm PAGE_NO_EXEC else perm in
      let perm := if flag (p_flags ph) ELF_PROG_FLAG_WRITE then Z.lor perm PAGE_WRITE else perm in
      pa <-- PADDR (p_va ph);;
      boot_map_region pml4 (p_va ph) (p_memsz ph) pa perm;;;
      boot_map_elf pml4 l
  end.

End Ops.
