(* ===== verification/Init.v ===== *)
(** * Memory initialisation (kernel/mem/boot.c, init.c; the end of buddy.c)

    The allocator used before the buddy allocator exists, the preparation of the memory
    map, the array of [struct page_info] and its growth, and the order of it all in
    [mem_init].  Memory that boot_alloc hands out holds arbitrary values ([junk]); the
    linker symbols [end] and [bootstack] are arguments. *)

From Stdlib Require Import ZArith Lia.
From stdpp Require Import strings base gmap fin_maps list.
From S2P Require Import Prelude ListHeap Spinlock MemState Buddy Walk Ptbl.

#[local] Open Scope Z_scope.
#[local] Open Scope kernel_scope.

Definition KSTACK_SIZE : Z := 31 * PAGE_SIZE.
Definition KSTACK_GAP : Z := PAGE_SIZE.
Definition sizeof_page_info : Z := 64.
Definition sizeof_boot_info : Z := 16.
Definition sizeof_elf : Z := 64.

(** [struct boot_info] with what its pointers lead to: the address of the structure itself, the
    entries of the memory map, the address of the ELF header and its program headers. *)
Record boot_info := mk_boot {
  bi_va : Z;
  mmap_addr : Z;
  mmap : list mmap_entry;
  elf_hdr : Z;
  phdrs : list proghdr
}.

(** ** boot.c *)

(** The static [next_free] is passed in, 0 at first, and its new value returned. *)
Definition boot_alloc {S} (end_ next_free n : Z) : K S (Z * Z) :=
  let next_free := if next_free =? 0 then ROUNDUP end_ PAGE_SIZE else next_free in
  if u32 n =? 0 then kret (next_free, next_free) else
  let result := next_free in
  let next_free := ROUNDUP (u64 (result + u32 n)) PAGE_SIZE in
  pa <-- PADDR next_free;;
  if pa >? BOOT_MAP_LIM then kpanic else kret (result, next_free).

Definition align_entry (entry : mmap_entry) : mmap_entry :=
  let '(base, end_) :=
    if mm_type entry =? MMAP_FREE then
      let base := ROUNDUP (mm_addr entry) PAGE_SIZE in
      let end_ := u64 (mm_len entry - u64 (base - mm_addr entry)) in
      (base, ROUNDDOWN (u64 (base + end_)) PAGE_SIZE)
    else
      let base := ROUNDDOWN (mm_addr entry) PAGE_SIZE in
      let end_ := u64 (mm_len entry + u64 (mm_addr entry - base)) in
      (base, ROUNDUP (u64 (base + end_)) PAGE_SIZE) in
  mk_mmap base (u64 (end_ - base)) (mm_type entry).
Definition align_boot_info (bi : boot_info) : boot_info :=
  mk_boot (bi_va bi) (mmap_addr bi) (align_entry <$> mmap bi) (elf_hdr bi) (phdrs bi).

(** ** The array of pages *)

Section Init.
Context (cfg : config) (this_cpu : Z) (oom : K mstate unit).

(** [for (i = 0; i < npages; ++i)] of page_init. *)
Fixpoint init_pages (n : nat) (i : Z) : K mstate unit :=
  match n with
  | O => kret tt
  | S n =>
      list_op (fun h => list_init h (PpNode i));;;
      list_op (fun h => list_init h (ActiveNode i));;;
      mod_page i (fun p => set_owner None (set_virt_addr 0 (set_pp_avail 0 (set_pp_order 0 (set_pp_free 0 (set_pp_ref 0 p))))));;;
      init_pages n (i + 1)
  end.
(** [for (p = pages; p < pages + npages; p++)]: the pages that hold the array at [pages_va]. *)
Fixpoint reserve_array (n : nat) (pages_va i : Z) : K mstate unit :=
  match n with
  | O => kret tt
  | S n =>
      pa <-- PADDR (pages_va + i * sizeof_page_info);;
      pi <-- pa2page pa;;
      mod_page pi (set_pp_ref 1);;;
      reserve_array n pages_va (i + 1)
  end.
(** [for (pa = IO_PHYS_MEM; pa < EXT_PHYS_MEM; pa += PAGE_SIZE)] *)
Fixpoint vga_pages (n : nat) (pa : Z) : K mstate unit :=
  match n with
  | O => kret tt
  | S n =>
      pi <-- pa2page pa;;
      mod_page pi (set_pp_avail 1);;;
      vga_pages n (pa + PAGE_SIZE)
  end.

Definition between (lo pa hi : Z) : bool := (lo <=? pa) && (pa <? hi).
Definition reserved (bi_pa elf_hdr end_pa pa : Z) : bool :=
  (pa =? 0) || between (ROUNDDOWN KERNEL_LMA PAGE_SIZE) pa end_pa
  || between (ROUNDDOWN bi_pa PAGE_SIZE) pa (ROUNDUP (u64 (bi_pa + sizeof_boot_info)) PAGE_SIZE)
  || between (ROUNDDOWN elf_hdr PAGE_SIZE) pa (ROUNDUP (u64 (elf_hdr + sizeof_elf)) PAGE_SIZE).

(** The pages of one region; a turn below BOOT_MAP_LIM advances [pa] by a page. *)
Fixpoint free_region (fuel : nat) (bi_pa elf_hdr end_pa pa lim : Z) : K mstate unit :=
  if pa <? lim then
    if pa >=? BOOT_MAP_LIM then kret tt else
    match fuel with
    | O => khang
    | S fuel =>
        page <-- pa2page pa;;
        (if pa =? MPENTRY_PADDR then mod_page page (fun p => set_pp_free 0 (set_pp_ref 1 (set_pp_avail 1 p)))
         else if reserved bi_pa elf_hdr end_pa pa then mod_page page (set_pp_avail 1)
         else mod_page page (set_pp_avail 1);;; page_free cfg this_cpu page);;;
        free_region fuel bi_pa elf_hdr end_pa (u64 (pa + PAGE_SIZE)) lim
    end
  else kret tt.
Definition region_fuel : nat := S (Z.to_nat (BOOT_MAP_LIM / PAGE_SIZE)).
(** The address of [boot_info] is taken for every page; it is the same each time. *)
Fixpoint free_regions (bi : boot_info) (end_pa : Z) (l : list mmap_entry) : K mstate unit :=
  match l with
  | [] => kret tt
  | entry :: l =>
      (if mm_type entry =? MMAP_FREE then
         bi_pa <-- PADDR (bi_va bi);;
         free_region region_fuel bi_pa (elf_hdr bi) end_pa (ROUNDDOWN (mm_addr entry) PAGE_SIZE)
           (ROUNDUP (u64 (mm_addr entry + mm_len entry)) PAGE_SIZE)
       else kret tt);;;
      free_regions bi end_pa l
  end.

Definition page_init (bi : boot_info) (pages_va end_ next_free : Z) : K mstate unit :=
  list_op (fun h => list_init h ActivePages);;;
  s <-- kget;;
  init_pages (Z.to_nat (npages s)) 0;;;
  reserve_array (Z.to_nat (npages s)) pages_va 0;;;
  vga_pages (Z.to_nat ((EXT_PHYS_MEM - IO_PHYS_MEM) / PAGE_SIZE)) IO_PHYS_MEM;;;
  KADDR (mmap_addr bi);;;
  r <-- boot_alloc end_ next_free 0;;
  end_pa <-- PADDR (fst r);;
  free_regions bi end_pa (mmap bi).

(** ** Growing and moving the array *)

(** The pages for 512 more structures, at the end of the array. *)
Fixpoint grow_map (n : nat) (pml4 va : Z) : K mstate Z :=
  match n with
  | O => kret 0
  | S n =>
      page <-- page_alloc cfg this_cpu ALLOC_ZERO;;
      match page with
      | None => kret (-1)
      | Some p =>
          ret <-- page_insert cfg this_cpu oom pml4 p va (Z.lor (Z.lor PAGE_PRESENT PAGE_WRITE) PAGE_NO_EXEC);;
          if ret <? 0 then kret ret else grow_map n pml4 (u64 (va + PAGE_SIZE))
      end
  end.
(** The new structures: zeroed memory, with their nodes and two fields set. *)
Fixpoint grow_init (n : nat) (i : Z) : K mstate unit :=
  match n with
  | O => kret tt
  | S n =>
      kmodify (fun s => set_lists (<[PpNode i := mk_node (PpNode i) (PpNode i)]> (<[ActiveNode i := mk_node (ActiveNode i) (ActiveNode i)]> (lists s)))
                          (set_pages (<[i := mk_page 0 0 0 0 0 0 None]> (pages s)) s));;;
      grow_init n (i + 1)
  end.
Definition increment_structs : Z := Z.shiftl 1 (12 + BUDDY_MAX_ORDER - 1) / PAGE_SIZE.
Definition increment_pages : Z := ROUNDUP (increment_structs * sizeof_page_info) PAGE_SIZE / PAGE_SIZE.
(** [while (npages <= size)]; each turn adds [increment_structs]. *)
Fixpoint grow_loop (fuel : nat) (pages_va pml4 size : Z) : K mstate Z :=
  s <-- kget;;
  if npages s <=? size then
    match fuel with
    | O => khang
    | S fuel =>
        ret <-- grow_map (Z.to_nat increment_pages) pml4 (u64 (pages_va + npages s * sizeof_page_info));;
        if ret <? 0 then kret ret else
        grow_init (Z.to_nat increment_structs) (npages s);;;
        kmodify (fun s' => set_npages (npages s' + increment_structs) s');;;
        grow_loop fuel pages_va pml4 size
    end
  else kret 0.
Definition buddy_grow (pages_va pml4 size : Z) : K mstate Z :=
  s <-- kget;; grow_loop (S (Z.to_nat ((size - npages s) / increment_structs + 1))) pages_va pml4 size.

(** The pages of one region above BOOT_MAP_LIM, [n] in all. *)
Fixpoint ext_region (n : nat) (pages_va pml4 pa : Z) : K mstate unit :=
  match n with
  | O => kret tt
  | S n =>
      if pa <? BOOT_MAP_LIM then ext_region n pages_va pml4 (pa + PAGE_SIZE) else
      s <-- kget;;
      (if PAGE_INDEX pa >=? npages s then
         r <-- buddy_grow pages_va pml4 (PAGE_INDEX pa);;
         if r <? 0 then kpanic else kret tt
       else kret tt);;;
      page <-- pa2page pa;;
      mod_page page (fun p => mk_page 0 0 0 1 0 0 None);;;
      list_op (fun h => list_init h (ActiveNode page));;;
      page_free cfg this_cpu page;;;
      ext_region n pages_va pml4 (pa + PAGE_SIZE)
  end.
Fixpoint ext_regions (pages_va pml4 : Z) (l : list mmap_entry) : K mstate unit :=
  match l with
  | [] => kret tt
  | entry :: l =>
      (if mm_type entry =? MMAP_FREE then
         let region_start := ROUNDUP (mm_addr entry) PAGE_SIZE in
         let region_end := ROUNDDOWN (u64 (mm_addr entry + mm_len entry)) PAGE_SIZE in
         ext_region (Z.to_nat ((region_end - region_start) / PAGE_SIZE)) pages_va pml4 region_start
       else kret tt);;;
      ext_regions pages_va pml4 l
  end.
Definition page_init_ext (bi : boot_info) (pages_va pml4 end_ next_free : Z) : K mstate unit :=
  KADDR (mmap_addr bi);;;
  r <-- boot_alloc end_ next_free 0;;
  PADDR (fst r);;;
  ext_regions pages_va pml4 (mmap bi).

(** ** mem_init *)

(** The frame of the new PML4.  [buddy_migrate] at the end changes addresses only, which this
    state does not hold (its nodes are named by the structure they are in); see [migrate]. *)
Definition pml4_setup (bi : boot_info) (pages_va bootstack : Z) : K mstate Z :=
  page <-- page_alloc cfg this_cpu ALLOC_ZERO;;
  match page with
  | None => kpanic
  | Some pml4 =>
      let rw := Z.lor (Z.lor PAGE_PRESENT PAGE_WRITE) PAGE_NO_EXEC in
      page2kva pml4;;;
      KADDR (mmap_addr bi);;;
      boot_map_mmap cfg this_cpu oom pml4 (mmap bi);;;
      boot_map_elf cfg this_cpu oom pml4 (phdrs bi);;;
      boot_map_region cfg this_cpu oom pml4 (KSTACK_TOP - KSTACK_SIZE) KSTACK_SIZE bootstack rw;;;
      s <-- kget;;
      pa <-- PADDR pages_va;;
      boot_map_region cfg this_cpu oom pml4 KPAGES (u64 (npages s * sizeof_page_info)) pa rw;;;
      boot_map_region cfg this_cpu oom pml4 (u64 (KERNEL_VMA + IO_PHYS_MEM)) (EXT_PHYS_MEM - IO_PHYS_MEM) IO_PHYS_MEM rw;;;
      kret pml4
  end.

(** The last free region of the map decides. *)
Definition highest_addr (l : list mmap_entry) : Z :=
  foldl (fun h entry => if mm_type entry =? MMAP_FREE then u64 (mm_addr entry + mm_len entry) else h) 0 l.
Fixpoint init_free_lists (n : nat) (i : Z) : K mstate unit :=
  match n with
  | O => kret tt
  | S n => list_op (fun h => list_init h (FreeList i));;; init_free_lists n (i + 1)
  end.
(** The array comes into being, with arbitrary contents. *)
Definition array_at (junk : Z -> page_info) (jnode : mloc -> list_node mloc) (n : Z) (s : mstate) : mstate :=
  let ns := ((fun i => PpNode i) <$> seqZ 0 n) ++ ((fun i => ActiveNode i) <$> seqZ 0 n) in
  set_npages n (set_pages (list_to_map ((fun i => (i, junk i)) <$> seqZ 0 n))
    (set_lists (foldr (fun l h => <[l := jnode l]> h) (lists s) ns) s)).

(** Returns [kernel_pml4] and the static [next_free].  The write of EFER sets no part of this
    state; [zeroq] is not used again. *)
Definition mem_init (junk : Z -> page_info) (jnode : mloc -> list_node mloc) (bi : boot_info) (end_ bootstack : Z) : K mstate (Z * Z) :=
  let bi := align_boot_info bi in
  init_free_lists (Z.to_nat BUDDY_MAX_ORDER) 0;;;
  let np := Z.min BOOT_MAP_LIM (highest_addr (mmap bi)) / PAGE_SIZE in
  r <-- boot_alloc end_ 0 (np * sizeof_page_info);;
  let '(pages_va, next_free) := r in
  kmodify (array_at junk jnode np);;;
  page_init bi pages_va end_ next_free;;;
  pml4 <-- pml4_setup bi pages_va bootstack;;
  kmodify (fun s => mk_mstate (pages s) (npages s) (lists s) (frames s) (buddy_lock s) (active_pages_lock s)
                      (spinlock_rank s) (cur_task s) pml4 (flushed s));;;
  page_init_ext bi KPAGES pml4 end_ next_free;;;
  kret (pml4, next_free).

(** The stack of one CPU, and of all but the boot CPU; the tops of the stacks in order. *)
Fixpoint stack_pages (n : nat) (pml4 va : Z) : K mstate unit :=
  match n with
  | O => kret tt
  | S n =>
      page <-- page_alloc cfg this_cpu ALLOC_ZERO;;
      match page with
      | None => kpanic
      | Some p =>
          page_insert cfg this_cpu oom pml4 p va (Z.lor PAGE_WRITE PAGE_NO_EXEC);;;
          stack_pages n pml4 (va + PAGE_SIZE)
      end
  end.
Fixpoint mem_init_mp (n : nat) (kernel_pml4 boot_cpu idx : Z) : K mstate (list (Z * Z)) :=
  match n with
  | O => kret []
  | S n =>
      if idx =? boot_cpu then mem_init_mp n kernel_pml4 boot_cpu (idx + 1) else
      let stack_top := KSTACK_TOP - (idx + 1) * (KSTACK_SIZE + KSTACK_GAP) in
      stack_pages (Z.to_nat (KSTACK_SIZE / PAGE_SIZE)) kernel_pml4 (stack_top - KSTACK_SIZE);;;
      l <-- mem_init_mp n kernel_pml4 boot_cpu (idx + 1);;
      kret ((idx, stack_top) :: l)
  end.

End Init.

(** ** buddy_migrate: the pointers in the list nodes as addresses *)

(** The addresses of the list heads among the static variables, and of a node when the array is
    at [base]. *)
Record statics := mk_statics { va_free_lists : Z; va_active : Z; va_inactive : Z; va_zeroq : Z }.
Definition addr_of (st : statics) (base : Z) (n : mloc) : Z :=
  match n with
  | PpNode i => base + i * sizeof_page_info
  | ActiveNode i => base + i * sizeof_page_info + 48
  | FreeList k => va_free_lists st + k * 16
  | ActivePages => va_active st
  | InactivePages => va_inactive st
  | Zeroq => va_zeroq st
  | Wild a => a
  end.

(** A node's pointers as the machine has them. *)
Record raw_node := mk_raw { raw_next : Z; raw_prev : Z }.

Section Migrate.
Context (pages_va npages_ : Z).

Definition in_page_range (p : Z) : bool := (pages_va <=? p) && (p <? pages_va + npages_ * sizeof_page_info).
Definition update_ptr (p : Z) : Z := if negb (in_page_range p) then p else u64 (p + KPAGES - pages_va).
Definition migrate_node (n : raw_node) : raw_node := mk_raw (update_ptr (raw_next n)) (update_ptr (raw_prev n)).

Fixpoint migrate_pages (n : nat) (i : Z) (h : gmap mloc raw_node) : gmap mloc raw_node :=
  match n with O => h | S n => migrate_pages n (i + 1) (alter migrate_node (PpNode i) h) end.
Fixpoint migrate_heads (n : nat) (i : Z) (h : gmap mloc raw_node) : gmap mloc raw_node :=
  match n with O => h | S n => migrate_heads n (i + 1) (alter migrate_node (FreeList i) h) end.
(** The new store and the new [pages]. *)
Definition buddy_migrate (h : gmap mloc raw_node) : gmap mloc raw_node * Z :=
  (migrate_heads (Z.to_nat BUDDY_MAX_ORDER) 0 (migrate_pages (Z.to_nat npages_) 0 h), KPAGES).
End Migrate.
