(* ===== verification/InitThm.v ===== *)
(** * Memory initialisation: theorems

    page_init sets up the buddy allocator's invariant from memory with arbitrary
    contents, with exactly the usable pages free; the preparation of the memory map and
    the relocation of the allocator's pointers. *)

From Stdlib Require Import ZArith Lia.
From stdpp Require Import strings base gmap fin_maps list.
From S2P Require Import Prelude ListHeap Spinlock MemState Buddy BuddyInv BuddyThm Walk Ptbl Init.

#[local] Open Scope Z_scope.
#[local] Open Scope kernel_scope.
Import Spinlock.

(** ** Lists of their own *)

Lemma dlist_nil_keep (h h' : gmap mloc (list_node mloc)) n m : dlist h m [] -> touches h [n] h' -> m <> n -> dlist h' m [].
Proof. intros D T Hne. eapply dlist_touches; [done|done|]. intros c Hc Hin. set_solver. Qed.

Lemma list_init_run {A} n s (k : unit -> K mstate A) (P : mloc -> Prop) :
  is_Some (lists s !! n) -> (forall m, P m -> dlist (lists s) m []) ->
  exists h, kbind (list_op (fun h => list_init h n)) k s = k tt (set_lists h s) /\ dom h = dom (lists s)
    /\ (forall m, P m \/ m = n -> dlist h m []).
Proof.
  intros Hn HP. destruct (list_init_spec (lists s) n Hn) as (h & E & D & T). exists h.
  split; [unfold kbind, list_op; by rewrite E|]. split; [apply T|].
  intros m Hm. destruct (decide (m = n)) as [->|Hne]; [done|]. eapply dlist_nil_keep; [|done|done].
  apply HP. naive_solver.
Qed.

Section Init.
Context (cfg : config) (cpu : Z).
Implicit Types (s : mstate) (P : mloc -> Prop) (D : Z -> Prop).

(** ** init_pages *)

Record blank (i : Z) (n : nat) (P : mloc -> Prop) (s s' : mstate) : Prop := {
  bl_same : s' = set_lists (lists s') (set_pages (pages s') s);
  bl_dom : dom (lists s') = dom (lists s);
  bl_pages : dom (pages s') = dom (pages s);
  bl_list : forall m, P m \/ (exists j, i <= j < i + Z.of_nat n /\ (m = PpNode j \/ m = ActiveNode j)) -> dlist (lists s') m [];
  bl_page : forall j, i <= j < i + Z.of_nat n -> exists g, pages s' !! j = Some g /\ pp_ref g = 0 /\ pp_order g = 0 /\ pp_free g = 0;
  bl_other : forall j, j < i -> pages s' !! j = pages s !! j
}.

Lemma init_pages_ok n i s P :
  (forall j, i <= j < i + Z.of_nat n -> is_Some (pages s !! j) /\ is_Some (lists s !! PpNode j) /\ is_Some (lists s !! ActiveNode j)) ->
  (forall m, P m -> dlist (lists s) m []) ->
  exists s', init_pages n i s = Ret tt s' /\ blank i n P s s'.
Proof.
  revert i s P. induction n as [|n IH]; intros i s P Hin HP; cbn [init_pages].
  - exists s. split; [done|]. split; [by destruct s|done|done| |lia|done]. intros m [?|(j & ? & _)]; [auto|lia].
  - destruct (Hin i ltac:(lia)) as ((g & Hg) & Hp & Ha).
    destruct (list_init_run (A := unit) (PpNode i) s (fun _ => list_op (fun h => list_init h (ActiveNode i));;;
      mod_page i (fun p => set_owner None (set_virt_addr 0 (set_pp_avail 0 (set_pp_order 0 (set_pp_free 0 (set_pp_ref 0 p))))));;;
      init_pages n (i + 1)) P Hp HP) as (h1 & -> & D1 & HP1). cbv beta.
    destruct (list_init_run (A := unit) (ActiveNode i) (set_lists h1 s) (fun _ =>
      mod_page i (fun p => set_owner None (set_virt_addr 0 (set_pp_avail 0 (set_pp_order 0 (set_pp_free 0 (set_pp_ref 0 p))))));;;
      init_pages n (i + 1)) _ ltac:(by eapply dom_is_Some) HP1) as (h2 & -> & D2 & HP2). cbv beta.
    rewrite (bind_mod_page _ g) by done. set (g' := set_owner _ _). set (s3 := set_pages _ _).
    destruct (IH (i + 1) s3 (fun m => (P m \/ m = PpNode i) \/ m = ActiveNode i)) as (s' & E & [Es Ed Ep El Eg Eo]).
    { intros j Hj. destruct (Hin j ltac:(lia)) as (? & ? & ?). simpl. rewrite lookup_insert_ne by lia. split; [done|].
      assert (forall m, is_Some (lists s !! m) -> is_Some (h2 !! m)) as Hk.
      { intros m Hm. apply elem_of_dom. rewrite D2. cbn [lists set_lists]. rewrite D1. by apply elem_of_dom. }
      split; by apply Hk. }
    { exact HP2. }
    exists s'. split; [done|]. split.
    + etransitivity; [exact Es|reflexivity].
    + transitivity (dom h2); [exact Ed|]. rewrite D2. exact D1.
    + rewrite Ep. simpl. rewrite dom_insert_L. assert (i ∈ dom (pages s)) by (apply elem_of_dom; eauto). set_solver.
    + intros m [Hm|(j & Hj & Hm)]; apply El; [by left; left; left|].
      destruct (decide (j = i)) as [->|]; [left; naive_solver|]. right. exists j. split; [lia|done].
    + intros j Hj. destruct (decide (j = i)) as [->|]; [|apply Eg; lia].
      rewrite Eo by lia. exists g'. simpl. rewrite lookup_insert_eq. done.
    + intros j Hj. rewrite Eo by lia. simpl. by rewrite lookup_insert_ne by lia.
Qed.

(** An array without a free page is a buddy allocator without memory. *)
Lemma no_memory_ok s np :
  npages s = np -> np mod 512 = 0 -> np <= 2 ^ 52 -> lock_idle (buddy_lock s) -> lock_idle (active_pages_lock s) ->
  (forall j, is_Some (pages s !! j) <-> 0 <= j < np) ->
  (forall j g, pages s !! j = Some g -> pp_free g = 0) ->
  (forall k, 0 <= k <= 9 -> dlist (lists s) (FreeList k) []) -> dlist (lists s) ActivePages [] ->
  (forall j, 0 <= j < np -> dlist (lists s) (PpNode j) [] /\ dlist (lists s) (ActiveNode j) []) ->
  mem_ok s /\ forall j, ~ frame_free s j.
Proof.
  intros En Hnp Hlim Hl Ha Hdom Hfree Hk Hact Hn. split.
  - exists (fun _ => []). split; [split|done|done|by rewrite En].
    + rewrite En. assert (forall (i : Z) (Q : Prop), i ∈ ([] : list Z) -> Q) as Hno by (intros i Q Hx; by apply not_elem_of_nil in Hx).
      split; [done|done|intros k i Hx; exact (Hno _ _ Hx)|intros k i p Hx; exact (Hno _ _ Hx)|intros k; apply NoDup_nil_2
        |intros k i k' i' Hx; exact (Hno _ _ Hx)| |intros k i _ Hx; exact (Hno _ _ Hx)].
      intros i p Hi Hf _. destruct Hf. by eapply Hfree.
    + rewrite En. split; [done| |].
      * intros i Hi. destruct (Hn i Hi) as [Hd _]. eapply dlist_node; [done|left].
      * exists []. split; [done|]. intros i Hi _. by apply Hn.
  - intros j (i & g & Hi & Hf & _). destruct Hf. by eapply Hfree.
Qed.

(** ** Releasing the pages *)

(** The state while regions are handed out: the frames of [D] are free, the others blank, and
    those of [R] unreferenced. *)
Record booting (np : Z) (R D : Z -> Prop) (s : mstate) : Prop := {
  bo_mem : mem_ok s;
  bo_np : npages s = np;
  bo_free : forall j, frame_free s j <-> D j;
  bo_page : forall j, 0 <= j < np -> ~ D j ->
    exists g, pages s !! j = Some g /\ pp_order g = 0 /\ pp_free g = 0 /\ (R j -> pp_ref g = 0)
}.

Lemma booting_mod np R D s p f : booting np R D s -> 0 <= p < np -> ~ D p ->
  (forall g, pp_free g = 0 -> pp_free (f g) = 0 /\ pp_order (f g) = pp_order g /\ (R p -> pp_ref (f g) = pp_ref g)) ->
  exists s', (forall A (k : unit -> K mstate A), kbind (mod_page p f) k s = k tt s') /\ booting np R D s' /\ frames s' = frames s
    /\ exists g, pages s !! p = Some g /\ pages s' !! p = Some (f g).
Proof.
  intros [M En Hf Hp] Hin HD Hfg. destruct (Hp p Hin HD) as (g & Hg & Ho & Hfr & Hr). destruct (Hfg g Hfr) as (F1 & F2 & F3).
  exists (set_pages (<[p := f g]> (pages s)) s). split; [intros; by rewrite (bind_mod_page _ g)|]. split; [split|].
  - eapply mem_ok_mod; [done|done|by rewrite Hf|done].
  - done.
  - intros j. rewrite <- Hf. by apply (frame_free_mod s p g).
  - intros j Hj HDj. simpl. rewrite lookup_insert. case_decide as Ej; [subst j|by apply Hp].
    exists (f g). split; [done|]. split; [congruence|]. split; [done|]. intros HR. rewrite F3 by done. auto.
  - split; [done|]. exists g. split; [done|]. simpl. by rewrite lookup_insert_eq.
Qed.

Lemma booting_free np R D s p g : booting np R D s -> 0 <= p < np -> ~ D p -> R p ->
  pages s !! p = Some g -> pp_avail g = 1 ->
  exists s', page_free cfg cpu p s = Ret tt s' /\ booting np R (fun j => D j \/ j = p) s' /\ frames s' = frames s.
Proof.
  intros [M En Hf Hp] Hin HD HR Hg Ha. destruct (Hp p Hin HD) as (g' & Hg' & Ho & Hfr & Hr). rewrite Hg in Hg'. injection Hg' as <-.
  assert (in_use s p 0) as U.
  { split; [|split; [by exists g|]].
    - split; simpl; try lia. 1: by rewrite Z.mod_1_r.
      + intros j Hj. assert (j = p) as -> by (unfold in_chunk in Hj; simpl in Hj; lia). exists g. auto.
      + by exists g.
    - intros j Hj. assert (j = p) as -> by (unfold in_chunk in Hj; simpl in Hj; lia). by rewrite Hf. }
  destruct (pa_free_spec (PageAllocator := buddy_page_allocator cfg cpu) s p 0 M U) as (s' & E & M' & Hfr' & Hk & _ & Hfm & Rs).
  assert (forall j, frame_free s' j <-> D j \/ j = p) as Hff.
  { intros j. rewrite Hfr', Hf. unfold in_chunk. simpl. split; (intros [?|?]; [by left|right; lia]). }
  exists s'. split; [done|]. split; [|done]. split; [done|by rewrite (sr_npages _ _ Rs)|done|].
  intros j Hj Hn. destruct (Hp j Hj) as (gj & Hgj & ?); [naive_solver|]. exists gj. split; [|done].
  rewrite Hk; [done|]. by rewrite Hff.
Qed.

(** Weakening [D] by an equivalent. *)
Lemma booting_iff np R D D' s : booting np R D s -> (forall j, D j <-> D' j) -> booting np R D' s.
Proof.
  intros [M En Hf Hp] Hi. split; [done|done| |].
  - intros j. by rewrite <- Hi.
  - intros j Hj HD. apply Hp; [done|]. by rewrite Hi.
Qed.

Section Boot.
Context (bi_pa elf end_pa : Z).

(** The frames that are never marked referenced: outside kernel image and array, not the start-up
    page of the other CPUs. *)
Definition unmarked (j : Z) : Prop := ~ (KERNEL_LMA <= j * PAGE_SIZE < end_pa) /\ j * PAGE_SIZE <> MPENTRY_PADDR.
(** The frames a free region may give to the allocator. *)
Definition admitted (j : Z) : Prop :=
  0 <= j < 2048 /\ reserved bi_pa elf end_pa (j * PAGE_SIZE) = false /\ j * PAGE_SIZE <> MPENTRY_PADDR.

Lemma admitted_unmarked j : admitted j -> unmarked j.
Proof.
  intros (_ & Hr & Hm). split; [|done]. intros Hin. unfold reserved in Hr.
  assert (between (ROUNDDOWN KERNEL_LMA PAGE_SIZE) (j * PAGE_SIZE) end_pa = true) as Hb.
  { unfold between. change (ROUNDDOWN KERNEL_LMA PAGE_SIZE) with KERNEL_LMA. apply andb_true_iff.
    split; [apply Z.leb_le|apply Z.ltb_lt]; lia. }
  rewrite Hb in Hr. rewrite orb_true_r in Hr. discriminate Hr.
Qed.

(** The struct of a page in the array lies in the kernel's part of memory. *)
Lemma reserve_array_ok pages_va n i s :
  KERNEL_VMA + KERNEL_LMA <= pages_va -> pages_va - KERNEL_VMA + 2048 * sizeof_page_info <= end_pa -> end_pa <= BOOT_MAP_LIM ->
  0 <= i -> i + Z.of_nat n <= 2048 -> booting 2048 unmarked (fun _ => False) s ->
  exists s', reserve_array n pages_va i s = Ret tt s' /\ booting 2048 unmarked (fun _ => False) s' /\ frames s' = frames s.
Proof.
  intros Harr Harr' Hend. revert i s. induction n as [|n IH]; intros i s Hi Hn B; cbn [reserve_array]; [by exists s|].
  unfold sizeof_page_info, KERNEL_LMA, KERNEL_VMA, BOOT_MAP_LIM in *.
  set (pa := pages_va + i * 64 - 0xFFFF800000000000).
  assert (0x100000 <= pa < end_pa) as Hpa by (unfold pa; lia).
  pose proof (Z.div_mod pa 4096 ltac:(lia)) as Hd. pose proof (Z.mod_pos_bound pa 4096 ltac:(lia)) as Hm.
  destruct (booting_mod 2048 unmarked (fun _ => False) s (pa / 4096) (set_pp_ref 1) B) as (s1 & Hrun & B1 & F1 & _); [lia|tauto| |].
  { intros g Hg. split; [done|]. split; [done|]. intros [Hu _]. destruct Hu. unfold KERNEL_LMA, PAGE_SIZE. lia. }
  destruct (IH (i + 1) s1) as (s' & E & B' & F'); [lia|lia|done|]. exists s'. split; [|split; [done|congruence]].
  unfold kbind at 1, PADDR, KERNEL_VMA. destruct (Z.ltb_spec (pages_va + i * 64) 0xFFFF800000000000) as [|_]; [lia|].
  change (pages_va + i * 64 - 0xFFFF800000000000) with pa. rewrite u64_id by lia.
  unfold kbind at 1, pa2page. rewrite (bo_np _ _ _ _ B). unfold PAGE_INDEX, PAGE_TABLE_SHIFT. rewrite Z.shiftr_div_pow2 by lia.
  change (2 ^ 12) with 4096. destruct (Z.leb_spec 2048 (pa / 4096)) as [|_]; [lia|].
  by rewrite Hrun.
Qed.

Lemma vga_pages_ok n q D s :
  0 <= q -> q + Z.of_nat n <= 2048 -> (forall j, q <= j -> ~ D j) -> booting 2048 unmarked D s ->
  exists s', vga_pages n (q * PAGE_SIZE) s = Ret tt s' /\ booting 2048 unmarked D s' /\ frames s' = frames s.
Proof.
  revert q s. induction n as [|n IH]; intros q s Hq Hn HD B; cbn [vga_pages]; [by exists s|].
  destruct (booting_mod 2048 unmarked D s q (set_pp_avail 1) B) as (s1 & Hrun & B1 & F1 & _); [lia|by apply HD|by intros|].
  destruct (IH (q + 1) s1) as (s' & E & B' & F'); [lia|lia|intros j Hj; apply HD; lia|done|].
  exists s'. split; [|split; [done|congruence]].
  unfold kbind at 1, pa2page. rewrite (bo_np _ _ _ _ B). unfold PAGE_INDEX, PAGE_TABLE_SHIFT, PAGE_SIZE in *.
  rewrite Z.shiftr_div_pow2 by lia. change (2 ^ 12) with 4096. rewrite Z.div_mul by lia.
  destruct (Z.leb_spec 2048 q) as [|_]; [lia|]. rewrite Hrun.
  by replace (q * 4096 + 4096) with ((q + 1) * 4096) by lia.
Qed.

(** One region from frame [q] to frame [l]. *)
Lemma free_region_ok fuel q l D s :
  0 <= q -> 2048 <= q + Z.of_nat fuel -> l * PAGE_SIZE < 2 ^ 64 -> booting 2048 unmarked D s ->
  (forall j, q <= j < l -> ~ D j) ->
  exists s', free_region cfg cpu fuel bi_pa elf end_pa (q * PAGE_SIZE) (l * PAGE_SIZE) s = Ret tt s'
    /\ booting 2048 unmarked (fun j => D j \/ admitted j /\ q <= j < l) s' /\ frames s' = frames s.
Proof.
  revert q D s. induction fuel as [|fuel IH]; intros q D s Hq Hf Hl B HD.
  - exists s. split; [|split; [eapply booting_iff; [done|]; intros j; split; [by left|intros [?|[[? _] ?]]; [done|lia]]|done]].
    cbn [free_region]. unfold PAGE_SIZE, BOOT_MAP_LIM in *. destruct (Z.ltb_spec (q * 4096) (l * 4096)); [|done].
    destruct (Z.geb_spec (q * 4096) (8 * 1024 * 1024)); [done|lia].
  - cbn [free_region]. destruct (Z.ltb_spec (q * PAGE_SIZE) (l * PAGE_SIZE)) as [Hql|Hql].
    2:{ exists s. split; [done|]. split; [|done]. eapply booting_iff; [done|]. intros j. split; [by left|].
        unfold PAGE_SIZE in *. intros [?|[_ ?]]; [done|lia]. }
    destruct (Z.geb_spec (q * PAGE_SIZE) BOOT_MAP_LIM) as [Hlim|Hlim].
    { exists s. split; [done|]. split; [|done]. eapply booting_iff; [done|]. intros j. split; [by left|].
      unfold PAGE_SIZE, BOOT_MAP_LIM in *. intros [?|[[? _] ?]]; [done|lia]. }
    assert (q < l /\ q < 2048) as [Hq1 Hq2] by (unfold PAGE_SIZE, BOOT_MAP_LIM in *; lia).
    assert (pa2page (q * PAGE_SIZE) s = Ret q s) as Epg.
    { unfold pa2page. rewrite (bo_np _ _ _ _ B). unfold PAGE_INDEX, PAGE_TABLE_SHIFT, PAGE_SIZE.
      rewrite Z.shiftr_div_pow2 by lia. change (2 ^ 12) with 4096. rewrite Z.div_mul by lia.
      by destruct (Z.leb_spec 2048 q) as [|_]; [lia|]. }
    rewrite (krun _ _ _ _ _ Epg).
    assert (u64 (q * PAGE_SIZE + PAGE_SIZE) = (q + 1) * PAGE_SIZE) as Enext by (unfold PAGE_SIZE in *; rewrite u64_id; lia).
    assert (exists s1, (if q * PAGE_SIZE =? MPENTRY_PADDR then mod_page q (fun p => set_pp_free 0 (set_pp_ref 1 (set_pp_avail 1 p)))
         else if reserved bi_pa elf end_pa (q * PAGE_SIZE) then mod_page q (set_pp_avail 1)
         else mod_page q (set_pp_avail 1);;; page_free cfg cpu q) s = Ret tt s1
      /\ booting 2048 unmarked (fun j => D j \/ admitted j /\ j = q) s1 /\ frames s1 = frames s) as (s1 & E1 & B1 & F1).
    { specialize (HD q ltac:(lia)). destruct (Z.eqb_spec (q * PAGE_SIZE) MPENTRY_PADDR) as [Em|Em].
      - destruct (booting_mod 2048 unmarked D s q (fun p => set_pp_free 0 (set_pp_ref 1 (set_pp_avail 1 p))) B) as (s1 & Hrun & B1 & F1 & _);
          [lia|done|intros g _; split; [done|split; [done|intros [_ Hx]; by destruct Hx]]|].
        exists s1. split; [|split; [|done]].
        + specialize (Hrun unit kret). unfold kbind in Hrun. destruct (mod_page q _ s) as [[] ?| | | |]; try discriminate Hrun. exact Hrun.
        + eapply booting_iff; [done|]. intros j. split; [by left|]. intros [?|[(_ & _ & Hx) ->]]; [done|by destruct Hx].
      - destruct (booting_mod 2048 unmarked D s q (set_pp_avail 1) B) as (s1 & Hrun & B1 & F1 & g & Hg & Hg1); [lia|done|done|].
        destruct (reserved bi_pa elf end_pa (q * PAGE_SIZE)) eqn:Er.
        + exists s1. split; [|split; [|done]].
          * specialize (Hrun unit kret). unfold kbind in Hrun. destruct (mod_page q _ s) as [[] ?| | | |]; try discriminate Hrun. exact Hrun.
          * eapply booting_iff; [done|]. intros j. split; [by left|]. intros [?|[(_ & Hx & _) ->]]; [done|congruence].
        + assert (admitted q) as Hu by (split; [lia|done]).
          destruct (booting_free 2048 unmarked D s1 q _ B1 ltac:(lia) HD (admitted_unmarked q Hu) Hg1 eq_refl) as (s2 & E2 & B2 & F2).
          exists s2. split; [by rewrite Hrun|]. split; [|congruence].
          eapply booting_iff; [exact B2|]. intros j. split; (intros [?|Hx]; [by left|]); [subst j; by right|right; tauto]. }
    rewrite (krun _ _ _ _ _ E1), Enext.
    destruct (IH (q + 1) (fun j => D j \/ admitted j /\ j = q) s1) as (s' & E' & B' & F'); [lia|lia|done|done| |].
    { intros j Hj [Hx|[_ Hx]]; [|lia]. by apply (HD j); [lia|]. }
    exists s'. split; [done|]. split; [|congruence]. eapply booting_iff; [exact B'|]. intros j. split.
    + intros [[?|[? ->]]|[? ?]]; [by left|right; split; [done|lia]|right; split; [done|lia]].
    + intros [?|[? ?]]; [by left; left|]. destruct (decide (j = q)) as [->|]; [by left; right|]. right. split; [done|lia].
Qed.

(** The frames of a free region. *)
Definition region (e : mmap_entry) (j : Z) : Prop :=
  mm_type e = MMAP_FREE /\ mm_addr e <= j * PAGE_SIZE < mm_addr e + mm_len e.
(** An entry as align_boot_info leaves it. *)
Definition entry_ok (e : mmap_entry) : Prop :=
  exists a b, mm_addr e = a * PAGE_SIZE /\ mm_len e = b * PAGE_SIZE /\ 0 <= a /\ 0 <= b /\ (a + b) * PAGE_SIZE < 2 ^ 64.
Definition apart (e e' : mmap_entry) : Prop := forall j, region e j -> ~ region e' j.

Lemma free_regions_ok bi l D s :
  PADDR (S := mstate) (bi_va bi) s = Ret bi_pa s -> KERNEL_VMA <= bi_va bi -> elf_hdr bi = elf ->
  Forall entry_ok l -> ForallOrdPairs apart l -> booting 2048 unmarked D s ->
  (forall j e, D j -> e ∈ l -> ~ region e j) ->
  exists s', free_regions cfg cpu bi end_pa l s = Ret tt s'
    /\ booting 2048 unmarked (fun j => D j \/ admitted j /\ exists e, e ∈ l /\ region e j) s' /\ frames s' = frames s.
Proof.
  intros Hpa Hva Helf. revert D s Hpa. induction l as [|e l IH]; intros D s Hpa Hok Hap B HD.
  - exists s. split; [done|]. split; [|done]. eapply booting_iff; [done|]. intros j. split; [by left|].
    intros [?|(_ & e & Hx & _)]; [done|]. by apply not_elem_of_nil in Hx.
  - apply Forall_cons in Hok as [(a & b & Ha & Hb & Ha0 & Hb0 & Hlim) Hok]. inversion Hap as [|x y Hape Hap' Ex]; subst x y.
    cbn [free_regions].
    assert (exists s1, (if mm_type e =? MMAP_FREE then
         bi_pa <-- PADDR (bi_va bi);;
         free_region cfg cpu region_fuel bi_pa (elf_hdr bi) end_pa (ROUNDDOWN (mm_addr e) PAGE_SIZE)
           (ROUNDUP (u64 (mm_addr e + mm_len e)) PAGE_SIZE)
       else kret tt) s = Ret tt s1 /\ booting 2048 unmarked (fun j => D j \/ admitted j /\ region e j) s1 /\ frames s1 = frames s)
      as (s1 & E1 & B1 & F1).
    { destruct (Z.eqb_spec (mm_type e) MMAP_FREE) as [Et|Et].
      2:{ exists s. split; [done|]. split; [|done]. eapply booting_iff; [done|]. intros j. split; [by left|]. intros [?|[_ [? _]]]; done. }
      rewrite (krun _ _ _ _ _ Hpa), Helf, Ha, Hb. replace (a * PAGE_SIZE + b * PAGE_SIZE) with ((a + b) * PAGE_SIZE) by lia.
      unfold PAGE_SIZE in *. rewrite (u64_id ((a + b) * 4096)) by lia.
      assert (ROUNDDOWN (a * 4096) 4096 = a * 4096) as -> by (rewrite ROUNDDOWN_spec by lia; rewrite Z.div_mul by lia; lia).
      rewrite (ROUNDUP_aligned ((a + b) * 4096)) by (try apply Z.mod_mul; lia).
      destruct (free_region_ok region_fuel a (a + b) D s) as (s1 & E1 & B1 & F1); [lia|change (Z.of_nat region_fuel) with 2049; lia
        |unfold PAGE_SIZE; lia|done| |].
      { intros j Hj HDj. apply (HD j e HDj); [by left|]. split; [done|]. unfold PAGE_SIZE. rewrite Ha, Hb. lia. }
      exists s1. split; [exact E1|]. split; [|done]. eapply booting_iff; [exact B1|]. intros j. unfold region, PAGE_SIZE.
      rewrite Ha, Hb. split; (intros [?|[? ?]]; [by left|right]); (split; [done|]); [split; [done|lia]|lia]. }
    rewrite (krun _ _ _ _ _ E1).
    destruct (IH (fun j => D j \/ admitted j /\ region e j) s1) as (s' & E' & B' & F'); [|done|done|done| |].
    { unfold PADDR in *. destruct (bi_va bi <? KERNEL_VMA); [discriminate Hpa|]. by injection Hpa as ->. }
    { intros j e' [Hx|[_ Hx]] He'; [apply (HD j e' Hx); by right|]. rewrite List.Forall_forall in Hape.
      apply (Hape e'); [by apply list_elem_of_In|done]. }
    exists s'. split; [done|]. split; [|congruence]. eapply booting_iff; [exact B'|]. intros j. split.
    + intros [[?|[? ?]]|(? & e' & ? & ?)]; [by left|right; split; [done|]; exists e; split; [left|done]|right; split; [done|]; exists e'; split; [by right|done]].
    + intros [?|(? & e' & He' & ?)]; [by left; left|]. apply elem_of_cons in He' as [->|?]; [left; by right|]. right. split; [done|]. by exists e'.
Qed.

End Boot.

(** ** Properties *)

(** Page [j] has a byte of [n] bytes at [a]. *)
Definition overlaps (j a n : Z) : Prop := j * PAGE_SIZE < a + n /\ a < (j + 1) * PAGE_SIZE.

(** The pages that are nobody's: not page 0, not the kernel image nor what boot_alloc gave out,
    not boot_info nor the ELF header, not the start-up page of the other CPUs. *)
Definition usable (bi_pa elf end_pa j : Z) : Prop :=
  0 < j < 2048 /\ ~ KERNEL_LMA <= j * PAGE_SIZE < end_pa /\ ~ overlaps j bi_pa sizeof_boot_info /\ ~ overlaps j elf sizeof_elf
  /\ j * PAGE_SIZE <> MPENTRY_PADDR.

Lemma between_overlaps j a n : 0 <= a -> 0 < n -> a + n + PAGE_SIZE <= 2 ^ 64 ->
  between (ROUNDDOWN a PAGE_SIZE) (j * PAGE_SIZE) (ROUNDUP (u64 (a + n)) PAGE_SIZE) = true <-> overlaps j a n.
Proof.
  intros Ha Hn Hlim. unfold between, overlaps. rewrite andb_true_iff, Z.leb_le, Z.ltb_lt. unfold PAGE_SIZE in *. rewrite u64_id by lia.
  destruct (ROUNDDOWN_bounds a 4096 ltac:(lia) ltac:(lia)) as [H1 H2].
  destruct (ROUNDUP_bounds (a + n) 4096 ltac:(lia) ltac:(lia) ltac:(lia)) as [H3 H4].
  apply Z.mod_divide in H2 as [q Hq], H4 as [r Hr]; [|done..]. lia.
Qed.

Lemma admitted_usable bi_pa elf end_pa j :
  0 <= bi_pa -> bi_pa + sizeof_boot_info + PAGE_SIZE <= 2 ^ 64 -> 0 <= elf -> elf + sizeof_elf + PAGE_SIZE <= 2 ^ 64 ->
  admitted bi_pa elf end_pa j <-> usable bi_pa elf end_pa j.
Proof.
  intros Hb Hbl He Hel. unfold admitted, usable, reserved. rewrite !orb_false_iff, Z.eqb_neq.
  rewrite <- (between_overlaps j bi_pa sizeof_boot_info), <- (between_overlaps j elf sizeof_elf) by done.
  rewrite <- !not_true_iff_false.
  assert (between (ROUNDDOWN KERNEL_LMA PAGE_SIZE) (j * PAGE_SIZE) end_pa = true <-> KERNEL_LMA <= j * PAGE_SIZE < end_pa) as ->.
  { unfold between. change (ROUNDDOWN KERNEL_LMA PAGE_SIZE) with KERNEL_LMA. by rewrite andb_true_iff, Z.leb_le, Z.ltb_lt. }
  assert (j * PAGE_SIZE <> 0 <-> j <> 0) as -> by (unfold PAGE_SIZE; lia).
  split; [intros (H1 & (((H2 & H3) & H4) & H5) & H6)|intros (H1 & H2 & H3 & H4 & H5)].
  - split; [lia|auto].
  - split; [lia|]. split; [|done]. split; [|done]. split; [|done]. split; [lia|done].
Qed.

(** What page_init starts from: the free lists are empty, the array and its nodes exist, with
    arbitrary contents, and nobody holds the locks. *)
Record fresh_memory (s : mstate) : Prop := {
  fm_np : npages s = 2048;
  fm_pages : forall j, is_Some (pages s !! j) <-> 0 <= j < 2048;
  fm_free : forall k, 0 <= k <= 9 -> dlist (lists s) (FreeList k) [];
  fm_active : is_Some (lists s !! ActivePages);
  fm_nodes : forall j, 0 <= j < 2048 -> is_Some (lists s !! PpNode j) /\ is_Some (lists s !! ActiveNode j);
  fm_lock : lock_idle (buddy_lock s) /\ lock_idle (active_pages_lock s)
}.

(** The end of page_init, once the pages are marked. *)
Lemma page_init_tail bi end_ next_free pages_va marked freed s :
  booting 2048 marked freed s -> 0 <= mmap_addr bi < BOOT_MAP_LIM ->
  KERNEL_VMA + KERNEL_LMA <= pages_va -> pages_va + 2048 * sizeof_page_info <= next_free -> next_free <= KERNEL_VMA + BOOT_MAP_LIM ->
  (KADDR (mmap_addr bi);;; r <-- boot_alloc end_ next_free 0;; end_pa <-- PADDR (fst r);; free_regions cfg cpu bi end_pa (mmap bi)) s
    = free_regions cfg cpu bi (next_free - KERNEL_VMA) (mmap bi) s.
Proof.
  intros B4 Hmm Harr1 Harr2 Hend.
  assert (exists kva, KADDR (mmap_addr bi) s = Ret kva s) as (kva & E5).
  { unfold KADDR. rewrite (bo_np _ _ _ _ B4). unfold PAGE_INDEX, PAGE_TABLE_SHIFT, BOOT_MAP_LIM in *. rewrite Z.shiftr_div_pow2 by lia.
    pose proof (Z.div_mod (mmap_addr bi) (2 ^ 12) ltac:(lia)). pose proof (Z.mod_pos_bound (mmap_addr bi) (2 ^ 12) ltac:(lia)).
    destruct (Z.leb_spec 2048 (mmap_addr bi / 2 ^ 12)); [lia|]. by eexists. }
  rewrite (krun _ _ _ _ _ E5).
  assert (next_free <> 0) as Hnf by (unfold KERNEL_VMA, KERNEL_LMA, sizeof_page_info in *; lia).
  assert (boot_alloc (S := mstate) end_ next_free 0 s = Ret (next_free, next_free) s) as E6.
  { unfold boot_alloc. destruct (Z.eqb_spec next_free 0); [done|]. done. }
  rewrite (krun _ _ _ _ _ E6). cbn [fst].
  assert (PADDR (S := mstate) next_free s = Ret (next_free - KERNEL_VMA) s) as E7.
  { unfold PADDR. destruct (Z.ltb_spec next_free KERNEL_VMA); [unfold KERNEL_LMA, sizeof_page_info in *; lia|].
    unfold KERNEL_VMA, BOOT_MAP_LIM in *. by rewrite u64_id by lia. }
  by rewrite (krun _ _ _ _ _ E7).
Qed.


End Init.

(** ** The memory map *)

Lemma page_multiple x : x mod PAGE_SIZE = 0 -> exists q, x = q * PAGE_SIZE.
Proof. intros Hx. apply Z.mod_divide in Hx as [q Hq]; [by exists q|done]. Qed.

(** Fact (bounds): [align_boot_info] makes the whole pages of a free region that has any, and no
    byte more, and every page a region of another type touches. *)
Theorem align_entry_correct e :
  0 <= mm_addr e -> 0 <= mm_len e -> mm_addr e + mm_len e + PAGE_SIZE <= 2 ^ 64 ->
  (mm_type e = MMAP_FREE -> ROUNDUP (mm_addr e) PAGE_SIZE <= mm_addr e + mm_len e ->
     entry_ok (align_entry e)
     /\ forall j, region (align_entry e) j <-> mm_addr e <= j * PAGE_SIZE /\ (j + 1) * PAGE_SIZE <= mm_addr e + mm_len e)
  /\ (mm_type e <> MMAP_FREE -> entry_ok (align_entry e)
     /\ forall j, mm_addr (align_entry e) <= j * PAGE_SIZE < mm_addr (align_entry e) + mm_len (align_entry e) <->
          j * PAGE_SIZE < mm_addr e + mm_len e /\ mm_addr e < (j + 1) * PAGE_SIZE
          \/ mm_len e = 0 /\ j * PAGE_SIZE < mm_addr e < (j + 1) * PAGE_SIZE).
Proof.
  destruct e as [addr len ty]. cbn [mm_addr mm_len mm_type]. intros Ha Hl Hlim. unfold align_entry. cbn [mm_addr mm_len mm_type]. split.
  - intros -> Hup. rewrite Z.eqb_refl. cbv zeta.
    destruct (ROUNDUP_bounds addr PAGE_SIZE Ha ltac:(done) ltac:(lia)) as [Hb Hm].
    set (base := ROUNDUP addr PAGE_SIZE) in *. unfold PAGE_SIZE in *.
    rewrite (u64_id (base - addr)), (u64_id (len - (base - addr))) by lia.
    replace (base + (len - (base - addr))) with (addr + len) by lia. rewrite (u64_id (addr + len)) by lia.
    destruct (ROUNDDOWN_bounds (addr + len) 4096 ltac:(lia) ltac:(lia)) as [He Hme].
    set (end_ := ROUNDDOWN (addr + len) 4096) in *.
    apply page_multiple in Hm as (a & Hm), Hme as (b & Hme). unfold PAGE_SIZE in *. rewrite (u64_id (end_ - base)) by lia.
    split; [exists a, (b - a)|intros j]; unfold region, PAGE_SIZE; cbn [mm_addr mm_len mm_type]; lia.
  - intros Hty. destruct (Z.eqb_spec ty MMAP_FREE) as [|_]; [done|]. cbv zeta.
    destruct (ROUNDDOWN_bounds addr PAGE_SIZE ltac:(unfold PAGE_SIZE in *; lia) ltac:(done)) as [Hb Hm].
    set (base := ROUNDDOWN addr PAGE_SIZE) in *.
    apply page_multiple in Hm as (a & Hm). unfold PAGE_SIZE in *.
    rewrite (u64_id (addr - base)), (u64_id (len + (addr - base))) by lia.
    replace (base + (len + (addr - base))) with (addr + len) by lia. rewrite (u64_id (addr + len)) by lia.
    destruct (ROUNDUP_bounds (addr + len) 4096 ltac:(lia) ltac:(lia) ltac:(lia)) as [He Hme].
    set (end_ := ROUNDUP (addr + len) 4096) in *. apply page_multiple in Hme as (b & Hme). unfold PAGE_SIZE in *.
    rewrite (u64_id (end_ - base)) by lia.
    split; [exists a, (b - a)|intros j]; unfold PAGE_SIZE; cbn [mm_addr mm_len mm_type]; lia.
Qed.

(** Fact (bounds): a free region without a page boundary in it gets a length of almost 2^64. *)
Lemma align_small_free_wraps : mm_len (align_entry (mk_mmap 0x1001 0x10 MMAP_FREE)) = 2 ^ 64 - PAGE_SIZE.
Proof. reflexivity. Qed.

(** ** Relocation *)

Section Migrate.
Context (st : statics).

Definition encode (base : Z) (n : list_node mloc) : raw_node := mk_raw (addr_of st base (next n)) (addr_of st base (prev n)).

Lemma migrate_pages_at pages_va np n i h m :
  migrate_pages pages_va np n i h !! m =
  (match m with PpNode j => if decide (i <= j < i + Z.of_nat n) then migrate_node pages_va np <$> h !! m else h !! m | _ => h !! m end).
Proof.
  revert i h. induction n as [|n IH]; intros i h; cbn [migrate_pages].
  - destruct m; try done. by rewrite decide_False by lia.
  - rewrite IH. destruct m as [k|j|j| | | |]; try (by rewrite lookup_alter_ne).
    destruct (decide (j = i)) as [->|Hne].
    + rewrite decide_False by lia. rewrite decide_True by lia. by rewrite lookup_alter_eq.
    + rewrite lookup_alter_ne by congruence. repeat case_decide; try done; lia.
Qed.

Lemma migrate_heads_at pages_va np n i h m :
  migrate_heads pages_va np n i h !! m =
  (match m with FreeList j => if decide (i <= j < i + Z.of_nat n) then migrate_node pages_va np <$> h !! m else h !! m | _ => h !! m end).
Proof.
  revert i h. induction n as [|n IH]; intros i h; cbn [migrate_heads].
  - destruct m; try done. by rewrite decide_False by lia.
  - rewrite IH. destruct m as [j|j|j| | | |]; try (by rewrite lookup_alter_ne).
    destruct (decide (j = i)) as [->|Hne].
    + rewrite decide_False by lia. rewrite decide_True by lia. by rewrite lookup_alter_eq.
    + rewrite lookup_alter_ne by congruence. repeat case_decide; try done; lia.
Qed.

(** The neighbours of a node on a list are on it. *)
Lemma dlist_closed (h : gmap mloc (list_node mloc)) hd xs n nd :
  dlist h hd xs -> n ∈ hd :: xs -> h !! n = Some nd -> next nd ∈ hd :: xs /\ prev nd ∈ hd :: xs.
Proof.
  intros D Hn Hnd.
  assert (exists a b, get_next h n = Some a /\ get_prev h n = Some b /\ a ∈ hd :: xs /\ b ∈ hd :: xs) as (a & b & Ha & Hb & Ha' & Hb').
  { apply elem_of_cons in Hn as [->|Hn].
    - pose proof (dlist_position h hd [] xs D) as (N & _). pose proof (dlist_position h hd xs []) as HP.
      rewrite app_nil_r in HP. destruct (HP D) as (_ & P & _). simpl in *.
      exists (default hd (head xs)), (default hd (last xs)). split; [done|]. split; [done|].
      pose proof (default_head_elem hd xs). pose proof (default_last_elem hd xs). set_solver.
    - apply list_elem_of_split in Hn as (l1 & l2 & ->).
      pose proof (dlist_position h hd l1 (n :: l2) D) as (_ & P & _). simpl in P.
      replace (l1 ++ n :: l2) with ((l1 ++ [n]) ++ l2) in D by by rewrite <- app_assoc.
      pose proof (dlist_position h hd (l1 ++ [n]) l2 D) as (N & _). rewrite last_snoc in N. simpl in N.
      exists (default hd (head l2)), (default hd (last l1)). split; [done|]. split; [done|].
      pose proof (default_head_elem hd l2). pose proof (default_last_elem hd l1). set_solver. }
  unfold get_next, get_prev in *. rewrite Hnd in Ha, Hb. simpl in *. by simplify_eq.
Qed.

(** C21 (refinement): after [buddy_migrate] every node on a free list holds the addresses its
    neighbours have in the array at KPAGES: moving the array is invisible in the lists. *)
Theorem buddy_migrate_relocates fl s pages_va h :
  allocator_ok fl s -> 0 <= pages_va -> pages_va + npages s * sizeof_page_info <= 2 ^ 64 -> npages s * sizeof_page_info <= 2 ^ 39 ->
  (forall k, 0 <= k <= 9 -> ~ pages_va <= va_free_lists st + k * 16 < pages_va + npages s * sizeof_page_info) ->
  (forall n nd, lists s !! n = Some nd -> h !! n = Some (encode pages_va nd)) ->
  let '(h', base) := buddy_migrate pages_va (npages s) h in
  base = KPAGES /\ forall k n nd, 0 <= k <= 9 -> n ∈ FreeList k :: (PpNode <$> fl k) -> lists s !! n = Some nd ->
    h' !! n = Some (encode base nd).
Proof.
  intros [[C L] _ _ _] H0 H1 H2 Hout Hrep. unfold buddy_migrate. split; [done|]. intros k n nd Hk Hn Hnd.
  pose proof (ls_list _ _ _ L k Hk) as D. destruct (dlist_closed _ _ _ _ _ D Hn Hnd) as [Hnx Hpv].
  assert (forall i, i ∈ fl k -> 0 <= i < npages s) as Hfl.
  { intros i Hi. apply (co_dom _ _ _ _ C). destruct (ch_head _ _ _ _ (co_chunk _ _ _ _ C _ _ Hi)) as (g & Hg & _). eauto. }
  assert (forall m, m ∈ FreeList k :: (PpNode <$> fl k) -> update_ptr pages_va (npages s) (addr_of st pages_va m) = addr_of st KPAGES m) as Hup.
  { intros m Hm. unfold update_ptr, in_page_range, sizeof_page_info in *. apply elem_of_cons in Hm as [->|Hm]; cbn [addr_of].
    - specialize (Hout k Hk). destruct (Z.leb_spec pages_va (va_free_lists st + k * 16)), (Z.ltb_spec (va_free_lists st + k * 16) (pages_va + npages s * 64)); try done. lia.
    - apply list_elem_of_fmap in Hm as (i & -> & Hi). specialize (Hfl i Hi). cbn [addr_of]. unfold sizeof_page_info.
      destruct (Z.leb_spec pages_va (pages_va + i * 64)); [|lia]. destruct (Z.ltb_spec (pages_va + i * 64) (pages_va + npages s * 64)); [|lia].
      cbn [andb negb]. rewrite u64_id; [lia|]. unfold KPAGES. lia. }
  rewrite migrate_heads_at, migrate_pages_at.
  assert (migrate_node pages_va (npages s) <$> h !! n = Some (encode KPAGES nd)) as Hmig.
  { rewrite (Hrep n nd Hnd). cbn. unfold migrate_node, encode. cbn [raw_next raw_prev]. by rewrite !Hup. }
  apply elem_of_cons in Hn as [->|Hn].
  - rewrite decide_True by (unfold BUDDY_MAX_ORDER, BUDDY_2M_PAGE; lia). exact Hmig.
  - apply list_elem_of_fmap in Hn as (i & -> & Hi). specialize (Hfl i Hi). rewrite decide_True by lia. exact Hmig.
Qed.

(** Fact (error): the nodes of the list of active pages are not relocated: they keep pointing to
    the old addresses. *)
Lemma buddy_migrate_skips_active pages_va np h i : fst (buddy_migrate pages_va np h) !! ActiveNode i = h !! ActiveNode i.
Proof. unfold buddy_migrate. cbn [fst]. by rewrite migrate_heads_at, migrate_pages_at. Qed.

End Migrate.

(** ** The array comes into being *)

Lemma foldr_nodes (jnode : mloc -> list_node mloc) (ns : list mloc) (h : gmap mloc (list_node mloc)) m :
  foldr (fun l h => <[l := jnode l]> h) h ns !! m = if decide (m ∈ ns) then Some (jnode m) else h !! m.
Proof.
  induction ns as [|n ns IH]; cbn [foldr]; [by rewrite decide_False by apply not_elem_of_nil|].
  destruct (decide (m = n)) as [->|Hne]; [rewrite lookup_insert_eq, decide_True by left; done|].
  rewrite lookup_insert_ne, IH by done. destruct (decide (m ∈ ns)) as [Hin|Hin]; [by rewrite decide_True by by right|].
  by rewrite decide_False by (rewrite not_elem_of_cons; done).
Qed.

(** [boot_alloc] of the array gives what page_init starts from, whatever the memory holds. *)
Lemma array_at_fresh junk jnode s :
  (forall k, 0 <= k <= 9 -> dlist (lists s) (FreeList k) []) -> is_Some (lists s !! ActivePages) ->
  lock_idle (buddy_lock s) -> lock_idle (active_pages_lock s) -> fresh_memory (array_at junk jnode 2048 s).
Proof.
  intros Hf Ha Hl1 Hl2. unfold array_at.
  assert (forall m, (exists j, 0 <= j < 2048 /\ (m = PpNode j \/ m = ActiveNode j)) <->
    m ∈ ((fun i => PpNode i) <$> seqZ 0 2048) ++ ((fun i => ActiveNode i) <$> seqZ 0 2048)) as Hin.
  { intros m. rewrite elem_of_app, !list_elem_of_fmap. split.
    - intros (j & Hj & [->| ->]); [left|right]; exists j; (split; [done|]); apply elem_of_seqZ; lia.
    - intros [(j & -> & Hj)|(j & -> & Hj)]; apply elem_of_seqZ in Hj; exists j; (split; [lia|]); auto. }
  set (ns := _ ++ _) in *. clearbody ns.
  split; cbn [npages pages lists set_npages set_pages set_lists buddy_lock active_pages_lock]; [done| | | | |done].
  - intros j. set (l := (fun i => (i, junk i)) <$> seqZ 0 2048).
    assert (NoDup l.*1) as Hnd.
    { unfold l. rewrite <- list_fmap_compose. rewrite (list_fmap_ext _ id) by done. rewrite list_fmap_id. apply NoDup_seqZ. }
    split.
    + intros [g Hg]. apply elem_of_list_to_map_2, list_elem_of_fmap in Hg as (i & Hx & Hi). injection Hx as -> _.
      apply elem_of_seqZ in Hi. lia.
    + intros Hj. exists (junk j). apply elem_of_list_to_map_1; [done|]. unfold l. apply list_elem_of_fmap. exists j.
      split; [done|]. apply elem_of_seqZ. lia.
  - intros k Hk. eapply dlist_ext; [by apply Hf|]. intros b Hb. apply list_elem_of_singleton in Hb as ->.
    rewrite foldr_nodes, decide_False; [done|]. rewrite <- Hin. intros (j & _ & [?|?]); done.
  - rewrite foldr_nodes, decide_False; [done|]. rewrite <- Hin. intros (j & _ & [?|?]); done.
  - intros j Hj. rewrite !foldr_nodes, !decide_True by (apply Hin; eauto). eauto.
Qed.

(** ** Witnesses: a machine with 8 MB and a hole at 640 KB *)

Definition boot_lists : gmap mloc (list_node mloc) := list_to_map (self ActivePages :: ((fun k => self (FreeList k)) <$> seqZ 0 10)).
Definition demo_boot : mstate :=
  array_at (fun i => mk_page 3 (i mod 64) 1 1 7 5 (Some 9)) (fun _ => mk_node ActivePages (FreeList 0)) 2048
    (mk_mstate ∅ 0 boot_lists ∅ (static_lock "buddy_lock") (static_lock "active_pages_lock") 0 None 0 []).
Definition demo_map : boot_info :=
  mk_boot (KERNEL_VMA + 0x5000) 0x6000
    [mk_mmap 0 0x9f000 MMAP_FREE; mk_mmap 0x9f000 0x61000 2; mk_mmap 0x100000 0x700000 MMAP_FREE] 0x10000 [].

Lemma demo_boot_fresh : fresh_memory demo_boot.
Proof.
  apply array_at_fresh; [|vm_compute; eauto|done|done].
  intros k Hk. split; [apply NoDup_singleton|].
  assert (forallb (fun k => match boot_lists !! FreeList k with Some nd => bool_decide (next nd = FreeList k) && bool_decide (prev nd = FreeList k) | None => false end)
    (seqZ 0 10) = true) as Hall by (vm_compute; reflexivity).
  pose proof (range_check _ 10 Hall k ltac:(lia)) as Hx. cbv beta in Hx. cbn [lists].
  unfold linked, get_next, get_prev. destruct (boot_lists !! FreeList k) as [[nx pv]|]; [|discriminate Hx].
  apply andb_prop in Hx as [Hx1%bool_decide_eq_true Hx2%bool_decide_eq_true]. cbn in *. by subst.
Qed.


Lemma align_entry_correct_witness :
  align_entry (mk_mmap 0x1234 0x5000 MMAP_FREE) = mk_mmap 0x2000 0x4000 MMAP_FREE
  /\ (region (align_entry (mk_mmap 0x1234 0x5000 MMAP_FREE)) 2 <-> 0x1234 <= 2 * PAGE_SIZE /\ (2 + 1) * PAGE_SIZE <= 0x1234 + 0x5000).
Proof.
  split; [reflexivity|].
  destruct (align_entry_correct (mk_mmap 0x1234 0x5000 MMAP_FREE)) as [H _]; [by_eval|by_eval|by_eval|].
  apply H; [reflexivity|by_eval].
Defined.

(** The list nodes of BuddyThm.v's machine at an array at 2 MB. *)
Definition demo_statics : statics := mk_statics 0x900000 0x901000 0x901010 0x901020.
Definition demo_raw : gmap mloc raw_node := encode demo_statics 0x200000 <$> demo_lists.

Lemma buddy_migrate_relocates_witness :
  let '(h', base) := buddy_migrate 0x200000 512 demo_raw in
  h' !! FreeList 9 = Some (encode demo_statics KPAGES (mk_node (PpNode 0) (PpNode 0))).
Proof.
  pose proof (buddy_migrate_relocates demo_statics demo_fl demo 0x200000 demo_raw demo_ok) as H.
  destruct (buddy_migrate 0x200000 512 demo_raw) as [h' base] eqn:E.
  assert (buddy_migrate 0x200000 (npages demo) demo_raw = (h', base)) as E' by exact E. rewrite E' in H.
  destruct H as [-> H].
  - by_eval.
  - by_eval.
  - by_eval.
  - intros k Hk. unfold sizeof_page_info. change (npages demo) with 512. change (va_free_lists demo_statics) with 0x900000. lia.
  - intros n nd Hn. unfold demo_raw. rewrite lookup_fmap. change (lists demo) with demo_lists in Hn. by rewrite Hn.
  - apply (H 9 (FreeList 9)); [by_eval|left|vm_compute; reflexivity].
Defined.
