(* ===== verification/Vma.v ===== *)
(** * Virtual memory areas (kernel/vma)

    A task's areas are objects in a store; each carries the red-black node and the
    list node through which the task finds it, by address and in order.  The
    operations are those of kernel/vma: lookup, insertion, splitting, merging,
    removal, the walk over a range with its callbacks, the page fault handler and
    the system calls.  Page tables, physical pages and the tree and list code are
    those of the other files.

    Arguments: [kmalloc_addr], the address the allocator would return for an area
    or NULL; [oom_kill_task] and [task_destroy] (kernel/sched/task.c). *)

From Stdlib Require Import ZArith Lia.
From stdpp Require Import strings base gmap fin_maps list.
From S2P Require Import Prelude ListHeap RbTree MemState Buddy Walk Ptbl.

#[local] Open Scope Z_scope.
#[local] Open Scope kernel_scope.

(** include/lib.h, include/error.h *)
Definition PROT_READ : Z := Z.shiftl 1 0.
Definition PROT_WRITE : Z := Z.shiftl 1 1.
Definition PROT_EXEC : Z := Z.shiftl 1 2.
Definition MAP_PRIVATE : Z := Z.shiftl 1 0.
Definition MAP_ANONYMOUS : Z := Z.shiftl 1 1.
Definition MAP_POPULATE : Z := Z.shiftl 1 4.
Definition MAP_FIXED : Z := Z.shiftl 1 5.
Definition MAP_FAILED : Z := 0xffffffffffffffff.
Definition MADV_WILLNEED : Z := 1.
Definition MADV_DONTNEED : Z := 2.
Definition PAGE_DIRTY : Z := Z.shiftl 1 6.
Definition E_FAULT : Z := 4.
Definition E_INVAL : Z := 5.
Definition E_NOMEM : Z := 6.

(** [struct vma]: a pointer in C, the name is compared and copied as a string here.  The nodes
    [vm_rb] and [vm_mmap] are in the tree and list stores, under the address of the area. *)
Record vma := mk_vma {
  vm_name : string;
  vm_base : Z;
  vm_end : Z;
  vm_src : option Z;
  vm_len : Z;
  vm_flags : Z
}.
Definition set_vm_end (x : Z) (v : vma) := mk_vma (vm_name v) (vm_base v) x (vm_src v) (vm_len v) (vm_flags v).
Definition set_vm_len (x : Z) (v : vma) := mk_vma (vm_name v) (vm_base v) (vm_end v) (vm_src v) x (vm_flags v).
Definition set_vm_flags (x : Z) (v : vma) := mk_vma (vm_name v) (vm_base v) (vm_end v) (vm_src v) (vm_len v) x.

(** The list [task_mmap] is node [None]; area [p] is node [Some p]. *)
#[local] Abbreviation vloc := (option Z).

(** A copy into user memory through the loaded address space: (pml4, destination, source, bytes). *)
Definition copy_event : Type := Z * Z * Z * Z.

Record vmstate := mk_vm {
  vmas : gmap Z vma;
  task_rb : rb_tree Z;
  task_mmap : gmap vloc (list_node vloc);
  pmem : mstate;
  copies : list copy_event
}.

Definition get_vma (p : Z) : K vmstate vma := fun s => kderef (vmas s !! p) s.
Definition mod_vma (p : Z) (f : vma -> vma) : K vmstate unit := fun s =>
  match vmas s !! p with
  | Some v => Ret tt (mk_vm (<[p := f v]> (vmas s)) (task_rb s) (task_mmap s) (pmem s) (copies s))
  | None => Fault
  end.
(** Running the tree, list and memory code on its part of the state. *)
Definition rb {A} (m : K (rb_tree Z) A) : K vmstate A := fun s =>
  match m (task_rb s) with
  | Ret a t => Ret a (mk_vm (vmas s) t (task_mmap s) (pmem s) (copies s))
  | Panic => Panic | Fault => Fault | Hang => Hang | NoReturn _ => Fault
  end.
Definition mmap_op (f : gmap vloc (list_node vloc) -> option (gmap vloc (list_node vloc))) : K vmstate unit := fun s =>
  match f (task_mmap s) with
  | Some h => Ret tt (mk_vm (vmas s) (task_rb s) h (pmem s) (copies s))
  | None => Fault
  end.
Definition mmap_get {A} (f : gmap vloc (list_node vloc) -> option A) : K vmstate A := fun s => kderef (f (task_mmap s)) s.
Definition pm {A} (m : K mstate A) : K vmstate A := fun s =>
  match m (pmem s) with
  | Ret a x => Ret a (mk_vm (vmas s) (task_rb s) (task_mmap s) x (copies s))
  | Panic => Panic | Fault => Fault | Hang => Hang
  | NoReturn x => NoReturn (mk_vm (vmas s) (task_rb s) (task_mmap s) x (copies s))
  end.
Definition set_cr3 (f : Z) : K mstate unit := kmodify (fun s =>
  mk_mstate (pages s) (npages s) (lists s) (frames s) (buddy_lock s) (active_pages_lock s) (spinlock_rank s) (cur_task s) f (flushed s)).

Section Ops.
Context (cfg : config) (cpu : Z) (oom_kill_task : K mstate unit) (task_destroy : K vmstate unit).
Context (kmalloc_addr : vmstate -> option Z) (task_pml4 : Z).

(** [kmalloc(sizeof(struct vma))] with the fields of [v] stored in it, and [kfree]: freeing NULL
    reads the object header before address 0. *)
Definition vma_alloc (v : vma) : K vmstate (option Z) := fun s =>
  match kmalloc_addr s with
  | None => Ret None s
  | Some p => Ret (Some p) (mk_vm (<[p := v]> (vmas s)) (mk_tree (<[p := rb_node_init]> (rb_heap (task_rb s))) (root (task_rb s)))
      (<[Some p := mk_node (Some p) (Some p)]> (task_mmap s)) (pmem s) (copies s))
  end.
Definition vma_free (p : option Z) : K vmstate unit := fun s =>
  match p with
  | None => Fault
  | Some p =>
      match vmas s !! p with
      | Some _ => Ret tt (mk_vm (delete p (vmas s)) (mk_tree (delete p (rb_heap (task_rb s))) (root (task_rb s)))
                      (delete (Some p) (task_mmap s)) (pmem s) (copies s))
      | None => Fault
      end
  end.

(** ** find.c *)

(** The loop: [vma], [parent] and [dir] are the C variables. *)
Fixpoint find_loop (fuel : nat) (node vma parent : option Z) (dir : rb_dir) (addr : Z) : K vmstate (option Z * option Z * rb_dir) :=
  match fuel with
  | O => khang
  | S fuel =>
      match node with
      | None => kret (vma, parent, dir)
      | Some p =>
          tmp <-- get_vma p;;
          let dir := dir_of (addr >=? vm_end tmp) in
          let vma := match dir with RB_LEFT => Some p | RB_RIGHT => vma end in
          if (match dir with RB_LEFT => vm_base tmp <=? addr | RB_RIGHT => false end) then kret (vma, node, dir) else
          nd <-- rb (rd node);;
          find_loop fuel (child dir nd) vma node dir addr
      end
  end.

(** The result, [*out_parent] and [*out_dir]. *)
Definition find_vma (addr : Z) : K vmstate (option Z * option Z * rb_dir) := fun s =>
  find_loop (rb_fuel (task_rb s)) (root (task_rb s)) None None RB_LEFT addr s.

Definition task_find_vma (addr : Z) : K vmstate (option Z) :=
  r <-- find_vma addr;;
  match fst (fst r) with
  | None => kret None
  | Some p => v <-- get_vma p;; kret (if addr <? vm_base v then None else Some p)
  end.

(** ** insert.c *)

(** [None]: an area in the way; otherwise [parent] and [dir]. *)
Fixpoint insert_loop (fuel : nat) (node parent : option Z) (dir : rb_dir) (v : vma) : K vmstate (option (option Z * rb_dir)) :=
  match fuel with
  | O => khang
  | S fuel =>
      match node with
      | None => kret (Some (parent, dir))
      | Some p =>
          tmp <-- get_vma p;;
          let dir := dir_of (vm_base v >=? vm_end tmp) in
          if (match dir with RB_LEFT => vm_end v >? vm_base tmp | RB_RIGHT => false end) then kret None else
          nd <-- rb (rd node);;
          insert_loop fuel (child dir nd) node dir v
      end
  end.

Definition insert_vma (p : Z) : K vmstate Z :=
  v <-- get_vma p;;
  pos <-- (fun s => insert_loop (rb_fuel (task_rb s)) (root (task_rb s)) None RB_LEFT v s);;
  match pos with
  | None => kret (-1)
  | Some (parent, dir) =>
      (match parent with
       | None => rb (set_root (Some p))
       | Some _ => rb (upd parent (set_child dir (Some p)));;; rb (upd (Some p) (set_parent parent))
       end);;;
      r <-- rb (rb_balance (Some p));;
      if r <? 0 then kret (-1) else
      (match parent with
       | None => mmap_op (fun h => list_insert_after h None (Some p))
       | Some q =>
           match dir with
           | RB_RIGHT => mmap_op (fun h => list_insert_after h (Some q) (Some p))
           | RB_LEFT => mmap_op (fun h => list_insert_before h (Some q) (Some p))
           end
       end);;;
      kret 0
  end.

(** ** remove.c and merge.c *)

Definition remove_vma (p : option Z) : K vmstate unit :=
  match p with
  | None => kret tt
  | Some q =>
      rb (RbTree.rb_remove p);;;
      rb (upd p (fun _ => rb_node_init));;;
      mmap_op (fun h => list_del h p)
  end.

Definition mergeable (l r : vma) : bool :=
  page_aligned (vm_base l) && page_aligned (vm_end l) && page_aligned (vm_base r) && page_aligned (vm_end r)
  && (vm_end l =? vm_base r) && (vm_flags l =? vm_flags r) && String.eqb (vm_name l) (vm_name r)
  && bool_decide (vm_src l = vm_src r) && (vm_len l =? vm_len r).

Definition merge_vma (lhs rhs : Z) : K vmstate (option Z) :=
  l <-- get_vma lhs;;
  r <-- get_vma rhs;;
  if negb (mergeable l r) then kret None else
  mod_vma lhs (set_vm_end (vm_end r));;;
  remove_vma (Some rhs);;;
  vma_free (Some rhs);;;
  kret (Some lhs).

Definition merge_vmas (p : option Z) : K vmstate (option Z) :=
  match p with
  | None => kret None
  | Some q =>
      prev <-- mmap_get (fun h => get_prev h (Some q));;
      vma <-- (match prev with
               | None => kret q
               | Some prev => m <-- merge_vma prev q;; kret (default q m)
               end);;
      next <-- mmap_get (fun h => get_next h (Some vma));;
      match next with
      | None => kret (Some vma)
      | Some next => m <-- merge_vma vma next;; kret (Some (default vma m))
      end
  end.

(** ** insert.c: adding areas *)

Definition add_executable_vma (name : string) (addr size flags : Z) (src : option Z) (len : Z) : K vmstate (option Z) :=
  p <-- vma_alloc (mk_vma name addr (u64 (addr + size)) src len flags);;
  match p with
  | None => vma_free None;;; kret None
  | Some q =>
      r <-- insert_vma q;;
      if r <? 0 then kret None else merge_vmas p
  end.

Definition add_anonymous_vma (name : string) (addr size flags : Z) : K vmstate (option Z) :=
  add_executable_vma name addr size flags None 0.

(** [for (base = ...; cont; base -= size)], up to [fuel] turns. *)
Fixpoint add_below (fuel : nat) (cont : Z -> bool) (name : string) (base size flags : Z) : K vmstate (option Z) :=
  match fuel with
  | O => khang
  | S fuel =>
      if cont base then
        vma <-- add_executable_vma name base size flags None 0;;
        match vma with
        | Some _ => kret vma
        | None => add_below fuel cont name (u64 (base - size)) size flags
        end
      else kret None
  end.

Definition add_vma (fuel : nat) (name : string) (addr size flags : Z) : K vmstate (option Z) :=
  let size := Z.land (u64 (u64 (size + PAGE_SIZE) - 1)) (not64 (PAGE_SIZE - 1)) in
  if negb (addr =? 0) then
    vma <-- add_executable_vma name addr size flags None 0;;
    match vma with
    | Some _ => kret vma
    | None =>
        vma <-- add_below fuel (fun base => base >=? PAGE_SIZE) name addr size flags;;
        match vma with
        | Some _ => kret vma
        | None => add_below fuel (fun base => base >? addr) name (u64 (USER_LIM - size)) size flags
        end
    end
  else add_below fuel (fun base => base >=? PAGE_SIZE) name (u64 (USER_LIM - size)) size flags.

(** ** split.c *)

Definition split_vma (lhs : Z) (addr : Z) : K vmstate (option Z) :=
  l <-- get_vma lhs;;
  if (addr <=? vm_base l) || (addr >=? vm_end l) then kret (Some lhs) else
  rhs <-- vma_alloc (mk_vma (vm_name l) addr (vm_end l) (vm_src l) (u64 (vm_end l - addr)) (vm_flags l));;
  match rhs with
  | None => kret None
  | Some r =>
      mod_vma lhs (set_vm_end addr);;;
      mod_vma lhs (set_vm_len (u64 (addr - vm_base l)));;;
      e <-- insert_vma r;;
      if e <? 0 then vma_free rhs;;; kret None else kret rhs
  end.

Definition split_vmas (p : Z) (base size : Z) : K vmstate (option Z) :=
  v <-- get_vma p;;
  middle <-- (if vm_base v <? base then split_vma p base else kret (Some p));;
  match middle with
  | None => kret None
  | Some m =>
      v <-- get_vma m;;
      if vm_end v >? u64 (base + size) then
        rhs <-- split_vma m (u64 (base + size));;
        match rhs with None => kret None | Some _ => kret (Some m) end
      else kret (Some m)
  end.

(** ** walk.c *)

Section Walk.
(** [udata]; the callback returns its new value with its result. *)
Context {U : Type}.
Definition vma_callback : Type := U -> Z -> Z -> Z -> K vmstate (Z * U).

Fixpoint walk_loop (fuel : nat) (vma : option Z) (base size end_ : Z) (cb : vma_callback) (u : U) : K vmstate (Z * U) :=
  match fuel with
  | O => khang
  | S fuel =>
      match vma with
      | None => kret (0, u)
      | Some p =>
          v <-- get_vma p;;
          if negb (vm_base v <? end_) then kret (0, u) else
          next <-- mmap_get (fun h => list_next h None (Some p));;
          r <-- cb u base size p;;
          if fst r <? 0 then kret r else
          walk_loop fuel (default None next) base size end_ cb (snd r)
      end
  end.

Definition walk_vma_range (base size : Z) (cb : vma_callback) (u : U) : K vmstate (Z * U) :=
  let end_ := u64 (base + size) in
  r <-- find_vma base;;
  match fst (fst r) with
  | None => kret (-1, u)
  | Some p =>
      v <-- get_vma p;;
      if end_ <=? vm_base v then kret (-1, u) else
      fun s => walk_loop (S (base.size (vmas s))) (Some p) base size end_ cb u s
  end.

End Walk.
(** ** remove.c: ranges *)

(** [list_foreach_safe]: the successor is read before the body frees the node. *)
Fixpoint free_loop (fuel : nat) (node : vloc) : K vmstate unit :=
  match fuel with
  | O => khang
  | S fuel =>
      match node with
      | None => kret tt
      | Some p =>
          next <-- mmap_get (fun h => get_next h node);;
          remove_vma (Some p);;;
          vma_free (Some p);;;
          free_loop fuel next
      end
  end.
Definition free_vmas : K vmstate unit :=
  first <-- mmap_get (fun h => get_next h None);;
  fun s => free_loop (S (base.size (vmas s))) first s.

(** [old = KADDR(read_cr3()); load_pml4(PADDR(task->task_pml4)); m; load_pml4(PADDR(old))]. *)
Definition in_task_space (m : K vmstate unit) : K vmstate unit :=
  old_pml4 <-- pm (s <-- kget;; KADDR (page2pa (cr3 s)));;
  pa <-- PADDR (table_kva task_pml4);;
  pm (set_cr3 (PAGE_INDEX pa));;;
  m;;;
  pa <-- PADDR old_pml4;;
  pm (set_cr3 (PAGE_INDEX pa)).

Definition do_remove_vma (u : unit) (base size : Z) (p : Z) : K vmstate (Z * unit) :=
  vma <-- split_vmas p base size;;
  match vma with
  | None => kret (-1, u)
  | Some _ =>
      in_task_space (
        pm (unmap_page_range cfg cpu oom_kill_task task_pml4 base size);;;
        remove_vma vma;;;
        vma_free vma);;;
      kret (0, u)
  end.

Definition remove_vma_range (base size : Z) : K vmstate Z :=
  r <-- walk_vma_range base size do_remove_vma tt;; kret (fst r).

(** [for (va = base; va < base + size; va += PAGE_SIZE)]. *)
Fixpoint unmap_loop (fuel : nat) (va end_ : Z) : K vmstate unit :=
  match fuel with
  | O => khang
  | S fuel =>
      if va <? end_ then
        r <-- pm (page_lookup task_pml4 va);;
        (match r with
         | (Some _, Some e) =>
             v <-- pm (get_entry e);;
             if flag v PAGE_DIRTY then kret tt else pm (page_remove cfg cpu oom_kill_task task_pml4 va)
         | (Some _, None) => kfault
         | (None, _) => kret tt
         end);;;
        unmap_loop fuel (u64 (va + PAGE_SIZE)) end_
      else kret tt
  end.

Definition do_unmap_vma (u : unit) (base size : Z) (p : Z) : K vmstate (Z * unit) :=
  vma <-- split_vmas p base size;;
  match vma with
  | None => kret (-1, u)
  | Some _ => unmap_loop (S (Z.to_nat (size / PAGE_SIZE + 1))) base (u64 (base + size));;; kret (0, u)
  end.

Definition unmap_vma_range (base size : Z) : K vmstate Z :=
  r <-- walk_vma_range base size do_unmap_vma tt;; kret (fst r).

(** ** protect.c *)

Definition page_flags_of (flags : Z) : Z :=
  if flags =? 0 then 0 else
  let f := PAGE_USER in
  let f := if flag flags PROT_READ then Z.lor f PAGE_PRESENT else f in
  let f := if flag flags PROT_WRITE then Z.lor f PAGE_WRITE else f in
  if flag flags PROT_EXEC then f else Z.lor f PAGE_NO_EXEC.

Definition do_protect_vma (flags : Z) (base size : Z) (p : Z) : K vmstate (Z * Z) :=
  v <-- get_vma p;;
  if (flags =? vm_flags v) || (vm_base v =? vm_end v) then kret (0, flags) else
  vma <-- split_vmas p base size;;
  match vma with
  | None => kret (- E_NOMEM, flags)
  | Some q =>
      mod_vma q (set_vm_flags flags);;;
      pm (protect_region cfg cpu oom_kill_task task_pml4 base size (page_flags_of flags));;;
      merge_vmas vma;;;
      kret (0, flags)
  end.

Definition protect_vma_range (base size flags : Z) : K vmstate Z :=
  r <-- walk_vma_range base size do_protect_vma flags;; kret (fst r).

(** ** populate.c *)

(** [memcpy] into the loaded address space. *)
Definition user_copy (dst src n : Z) : K vmstate unit := kmodify (fun s =>
  mk_vm (vmas s) (task_rb s) (task_mmap s) (pmem s) ((cr3 (pmem s), dst, src, n) :: copies s)).

Definition denied (flags : Z) (v : vma) : bool :=
  (flag flags PROT_READ && negb (flag (vm_flags v) PROT_READ))
  || (flag flags PROT_WRITE && negb (flag (vm_flags v) PROT_WRITE))
  || (flag flags PROT_EXEC && negb (flag (vm_flags v) PROT_EXEC)).

Definition populate_flags (v : vma) : Z :=
  let f := Z.lor PAGE_PRESENT PAGE_USER in
  let f := if flag (vm_flags v) PROT_WRITE then Z.lor f PAGE_WRITE else f in
  if flag (vm_flags v) PROT_EXEC then f else Z.lor f PAGE_NO_EXEC.

Definition do_populate_vma (flags : Z) (base size : Z) (p : Z) : K vmstate (Z * Z) :=
  v <-- get_vma p;;
  if denied flags v then kret (-1, flags) else
  let pf := populate_flags v in
  let hbase := Z.land base (not64 (HPAGE_SIZE - 1)) in
  let hend := u64 (hbase + HPAGE_SIZE) in
  match vm_src v with
  | None =>
      if (hbase >=? vm_base v) && (hend <=? vm_end v) then
        pm (populate_region cfg cpu oom_kill_task task_pml4 hbase HPAGE_SIZE (Z.lor pf PAGE_HUGE));;;
        pm (protect_region cfg cpu oom_kill_task task_pml4 base size pf);;;
        kret (0, flags)
      else
        pm (populate_region cfg cpu oom_kill_task task_pml4 base size pf);;;
        pm (protect_region cfg cpu oom_kill_task task_pml4 base size pf);;;
        kret (0, flags)
  | Some src =>
      pm (populate_region cfg cpu oom_kill_task task_pml4 base size pf);;;
      let vma_offset := u64 (base - vm_base v) in
      in_task_space (
        if vma_offset <? vm_len v
        then user_copy base (u64 (src + vma_offset)) (Z.min size (u64 (vm_len v - vma_offset)))
        else kret tt);;;
      pm (protect_region cfg cpu oom_kill_task task_pml4 base size pf);;;
      kret (0, flags)
  end.

Definition populate_vma_range (base size flags : Z) : K vmstate Z :=
  r <-- walk_vma_range base size do_populate_vma flags;; kret (fst r).

(** ** pfault.c *)

Definition task_page_fault_handler (va flags : Z) : K vmstate Z :=
  r <-- task_find_vma va;;
  match r with
  | None => kret (- E_FAULT)
  | Some p =>
      v <-- get_vma p;;
      if va <? vm_base v then kret (- E_FAULT) else
      if flag flags PROT_WRITE && negb (flag (vm_flags v) PROT_WRITE) then kret (- E_FAULT) else
      if flag flags PROT_EXEC && negb (flag (vm_flags v) PROT_EXEC) then kret (- E_FAULT) else
      if negb (flag (vm_flags v) PROT_READ) then kret (- E_FAULT) else
      populate_vma_range (ROUNDDOWN va PAGE_SIZE) PAGE_SIZE flags
  end.

(** ** user.c *)

(** [struct user_info]: the last address covered, and the flags asked for. *)
Record vma_user_info := mk_vma_user_info { last_ : Z; want : Z }.

Definition do_check_user_vma (u : vma_user_info) (base size : Z) (p : Z) : K vmstate (Z * vma_user_info) :=
  v <-- get_vma p;;
  if vm_base v >? last_ u then kret (-1, u) else
  if negb (Z.land (vm_flags v) (want u) =? want u) then kret (-1, u) else
  kret (0, mk_vma_user_info (vm_end v) (want u)).

(** The result and [*fault_va], when it is set. *)
Definition check_user_vma_range (base size flags : Z) : K vmstate (Z * option Z) :=
  r <-- walk_vma_range base size do_check_user_vma (mk_vma_user_info base flags);;
  if negb (fst r =? 0) || (last_ (snd r) <? u64 (base + size)) then kret (-1, Some (last_ (snd r))) else kret (0, None).

(** kernel/sched/task.c *)
Definition assert_user_mem (va size flags : Z) : K vmstate unit :=
  r <-- check_user_vma_range va size flags;;
  if fst r <? 0 then task_destroy else kret tt.

(** ** syscall.c *)

Inductive vma_type := VMA_FREE | VMA_ANONYMOUS | VMA_EXECUTABLE.
Inductive vm_mapped_kind := VM_UNMAPPED | VM_4K_PAGE | VM_2M_PAGE.
Record vma_info := mk_info { vi_name : string; vi_base : Z; vi_end : Z; vi_prot : Z; vi_type : vma_type; vi_mapped : vm_mapped_kind }.
Definition cleared : vma_info := mk_info "" 0 0 0 VMA_FREE VM_UNMAPPED.
Definition sizeof_vma_info : Z := 96.

(** The result and the contents of [*info]; [None] when it was not written. *)
Definition sys_mquery (info addr : Z) : K vmstate (Z * option vma_info) :=
  assert_user_mem info sizeof_vma_info PROT_WRITE;;;
  if addr >=? USER_LIM then kret (-1, None) else
  r <-- find_vma addr;;
  match fst (fst r) with
  | None =>
      node <-- mmap_get (fun h => list_tail h None);;
      match node with
      | Some (Some q) => v <-- get_vma q;; kret (0, Some (mk_info "" (vm_end v) USER_LIM 0 VMA_FREE VM_UNMAPPED))
      | _ => kret (0, Some (mk_info "" 0 USER_LIM 0 VMA_FREE VM_UNMAPPED))
      end
  | Some p =>
      v <-- get_vma p;;
      if addr <? vm_base v then
        node <-- mmap_get (fun h => list_prev h None (Some p));;
        match node with
        | Some (Some q) => w <-- get_vma q;; kret (0, Some (mk_info "" (vm_end w) (vm_base v) 0 VMA_FREE VM_UNMAPPED))
        | _ => kret (0, Some (mk_info "" 0 (vm_base v) 0 VMA_FREE VM_UNMAPPED))
        end
      else
        r <-- pm (page_lookup task_pml4 addr);;
        mapped <-- (match r with
                    | (Some _, Some e) => x <-- pm (get_entry e);; kret (if flag x PAGE_HUGE then VM_2M_PAGE else VM_4K_PAGE)
                    | (Some _, None) => kfault
                    | (None, _) => kret VM_UNMAPPED
                    end);;
        kret (0, Some (mk_info (String.substring 0 64 (vm_name v)) (vm_base v) (vm_end v) (vm_flags v)
                         (if vm_src v then VMA_EXECUTABLE else VMA_ANONYMOUS) mapped))
  end.

Definition aligned_range (addr len : Z) : Z * Z * Z :=
  let a := ROUNDDOWN addr PAGE_SIZE in
  let e := ROUNDUP (u64 (addr + len)) PAGE_SIZE in
  (a, e, u64 (e - a)).

Definition sys_mmap (fuel : nat) (addr len prot flags fd offset : Z) : K vmstate Z :=
  let '(aligned_addr, aligned_end, aligned_size) := aligned_range addr len in
  if flag flags MAP_FIXED && (addr =? 0) then kret MAP_FAILED else
  if negb (flag flags MAP_ANONYMOUS) || negb (flag flags MAP_PRIVATE) then kret MAP_FAILED else
  if flag prot PROT_WRITE && flag prot PROT_EXEC then kret MAP_FAILED else
  if flag prot PROT_WRITE && negb (flag prot PROT_READ) then kret MAP_FAILED else
  if flag prot PROT_EXEC && negb (flag prot PROT_READ) then kret MAP_FAILED else
  if aligned_end >=? USER_LIM then kret MAP_FAILED else
  (if flag flags MAP_FIXED then remove_vma_range aligned_addr aligned_size;;; kret tt else kret tt);;;
  vma <-- add_vma fuel "user" aligned_addr aligned_size prot;;
  match vma with
  | None => kret MAP_FAILED
  | Some p =>
      v <-- get_vma p;;
      if flag flags MAP_POPULATE then
        r <-- populate_vma_range (vm_base v) aligned_size prot;;
        if r <? 0 then remove_vma vma;;; vma_free vma;;; kret MAP_FAILED else
        v <-- get_vma p;; kret (vm_base v)
      else kret (vm_base v)
  end.

Definition sys_munmap (addr len : Z) : K vmstate unit :=
  let aligned_addr := ROUNDDOWN addr PAGE_SIZE in
  let aligned_end := ROUNDDOWN (u64 (addr + len)) PAGE_SIZE in
  remove_vma_range aligned_addr (u64 (aligned_end - aligned_addr));;;
  kret tt.

Definition PROT_ALL : Z := Z.lor (Z.lor PROT_READ PROT_WRITE) PROT_EXEC.

Definition sys_mprotect (addr len prot : Z) : K vmstate Z :=
  let '(aligned_addr, aligned_end, aligned_size) := aligned_range addr len in
  if len =? 0 then kret (- E_INVAL) else
  if negb (Z.ldiff prot PROT_ALL =? 0) then kret (- E_INVAL) else
  if flag prot PROT_WRITE && negb (flag prot PROT_READ) then kret (- E_FAULT) else
  if flag prot PROT_EXEC && negb (flag prot PROT_READ) then kret (- E_FAULT) else
  if flag prot PROT_WRITE && flag prot PROT_EXEC then kret (- E_INVAL) else
  if aligned_end >=? USER_LIM then kret (- E_INVAL) else
  r <-- protect_vma_range aligned_addr aligned_size prot;;
  kret (if r <? 0 then -1 else 0).

(** The failed range check computes [-EFAULT] and goes on. *)
Definition sys_madvise (addr len advise : Z) : K vmstate Z :=
  let '(aligned_addr, aligned_end, aligned_size) := aligned_range addr len in
  if aligned_end >=? USER_LIM then kret (- E_INVAL) else
  vma <-- task_find_vma addr;;
  if advise =? MADV_WILLNEED then
    match vma with
    | None => kfault
    | Some p => v <-- get_vma p;; populate_vma_range aligned_addr aligned_size (vm_flags v)
    end
  else if advise =? MADV_DONTNEED then unmap_vma_range aligned_addr aligned_size
  else kret (- E_INVAL).

End Ops.
