(* ===== verification/VmaThm.v ===== *)
(** * Virtual memory areas: what the operations of Vma.v compute

    [areas_ok s vs]: the areas of the task are [vs], in the order of their addresses
    and disjoint; the tree is red-black over them and the list links them.  Lookup,
    insertion, splitting, the range check and the query are correct on such a state;
    no system call makes an area writable and executable. *)

From Stdlib Require Import ZArith Lia Sorting.Sorted.
From stdpp Require Import strings base gmap fin_maps list.
From S2P Require Import Prelude ListHeap RbTree RbTreeThm MemState Buddy Walk Ptbl Vma.

#[local] Open Scope Z_scope.
#[local] Open Scope kernel_scope.

Definition vbase (s : vmstate) (p : Z) : Z := default 0 (vm_base <$> vmas s !! p).
Definition vend (s : vmstate) (p : Z) : Z := default 0 (vm_end <$> vmas s !! p).

Record ordered (s : vmstate) (vs : list Z) : Prop := {
  or_in : forall p, p ∈ vs -> exists v, vmas s !! p = Some v /\ vm_base v <= vm_end v;
  or_sorted : StronglySorted (fun p q => vend s p <= vbase s q) vs
}.

Record areas_ok (s : vmstate) (vs : list Z) : Prop := {
  ar_tree : exists t, rep (task_rb s) t /\ nodes t = vs /\ red_black t;
  ar_list : dlist (task_mmap s) None (Some <$> vs);
  ar_order : ordered s vs
}.

(** ** Order *)

Lemma sorted_app {A} (R : A -> A -> Prop) (l1 l2 : list A) : StronglySorted R (l1 ++ l2)
  <-> StronglySorted R l1 /\ StronglySorted R l2 /\ forall x y, x ∈ l1 -> y ∈ l2 -> R x y.
Proof.
  induction l1 as [|a l1 IH]; simpl.
  - split; [intros ?; split_and!; [constructor|done|set_solver]|tauto].
  - split.
    + intros Hs. apply StronglySorted_inv in Hs as [Hs Ha]. apply IH in Hs as (H1 & H2 & H3).
      rewrite Forall_app in Ha. destruct Ha as [Ha Hb]. split_and!; [by constructor|done|].
      intros x y [->|Hx]%elem_of_cons Hy; [|by apply H3]. rewrite Forall_forall in Hb. by apply Hb.
    + intros (H1 & H2 & H3). apply StronglySorted_inv in H1 as [H1 Ha]. constructor.
      * apply IH. split_and!; [done..|]. intros; apply H3; set_solver.
      * apply Forall_app. split; [done|]. apply Forall_forall. intros y Hy. apply H3; set_solver.
Qed.

Lemma vbase_eq s p v : vmas s !! p = Some v -> vbase s p = vm_base v.
Proof. unfold vbase. by intros ->. Qed.
Lemma vend_eq s p v : vmas s !! p = Some v -> vend s p = vm_end v.
Proof. unfold vend. by intros ->. Qed.

Lemma ordered_range s vs p : ordered s vs -> p ∈ vs -> vbase s p <= vend s p.
Proof. intros [Hin _] Hp. destruct (Hin p Hp) as (v & Hv & Hr). by rewrite (vbase_eq _ _ _ Hv), (vend_eq _ _ _ Hv). Qed.

Lemma ordered_split s xs p ys : ordered s (xs ++ p :: ys) ->
  (forall q, q ∈ xs -> vend s q <= vbase s p) /\ (forall q, q ∈ ys -> vend s p <= vbase s q).
Proof.
  intros [_ Hs]. apply sorted_app in Hs as (_ & Hp & Hx). apply StronglySorted_inv in Hp as [_ Hp].
  rewrite Forall_forall in Hp. split; [|exact Hp]. intros q Hq. apply Hx; set_solver.
Qed.

Lemma ordered_frame s s' vs : vmas s' = vmas s -> ordered s vs -> ordered s' vs.
Proof.
  intros E1 [I S]. split; [by rewrite E1|].
  replace (fun p q => vend s' p <= vbase s' q) with (fun p q => vend s p <= vbase s q); [done|].
  unfold vend, vbase. by rewrite E1.
Qed.

(** ** The part of the tree code *)

Lemma rb_ret {A} (m : K (rb_tree Z) A) s a : m (task_rb s) = Ret a (task_rb s) -> rb m s = Ret a s.
Proof. unfold rb. intros ->. by destruct s. Qed.

Lemma get_vma_ok s p v : vmas s !! p = Some v -> get_vma p s = Ret v s.
Proof. unfold get_vma, kderef. by intros ->. Qed.

(** The nodes around the focus of a context, by address. *)
Lemma focus_order s (vs : list Z) k c l p r : ordered s vs -> vs = nodes (plug k (T c l p r)) ->
  (forall q, q ∈ before RB_RIGHT k ++ nodes l -> vend s q <= vbase s p)
  /\ (forall q, q ∈ nodes r ++ after RB_RIGHT k -> vend s p <= vbase s q).
Proof.
  intros O E0. apply ordered_split. revert O. rewrite E0. change (nodes (plug k (T c l p r))) with (seq RB_RIGHT (plug k (T c l p r))).
  by rewrite seq_split.
Qed.

Lemma focus_in_list (vs : list Z) k c l p r : vs = nodes (plug k (T c l p r)) -> p ∈ vs /\ (forall q, q ∈ nodes l -> q ∈ vs) /\ (forall q, q ∈ nodes r -> q ∈ vs).
Proof. intros ->. setoid_rewrite plug_nodes. simpl. set_solver. Qed.

(** ** find.c *)

Section Find.
Context (s : vmstate) (vs : list Z) (O : ordered s vs) (addr : Z).

Lemma find_loop_ok fuel : forall k t vma dir, (length (nodes t) < fuel)%nat -> focus (task_rb s) k t -> vs = nodes (plug k t) ->
  vma = head (after RB_RIGHT k) ->
  (forall q, q ∈ before RB_RIGHT k -> vend s q <= addr) -> (forall q, q ∈ after RB_RIGHT k -> addr < vend s q) ->
  exists r xs ys, find_loop fuel (ptr t) vma (cpar k) dir addr s = Ret r s /\ vs = xs ++ ys
    /\ (forall q, q ∈ xs -> vend s q <= addr) /\ (forall q, q ∈ ys -> addr < vend s q) /\ fst (fst r) = head ys.
Proof.
  induction fuel as [|fuel IH]; [lia|]. intros k t vma dir Hf F Ev Hvma Hb Ha. destruct t as [|c l p r].
  - eexists _, (before RB_RIGHT k), (after RB_RIGHT k). split; [reflexivity|]. split_and!; try done.
    rewrite Ev. change (nodes (plug k E)) with (seq RB_RIGHT (plug k E)). by rewrite seq_plug.
  - destruct (focus_in_list _ _ _ _ _ _ Ev) as (Hp & Hl & Hr). destruct (or_in _ _ O p Hp) as (v & Hv & Hbe).
    destruct (focus_order _ _ _ _ _ _ _ O Ev) as [Hxl Hxr].
    rewrite (vbase_eq _ _ _ Hv) in Hxl. rewrite (vend_eq _ _ _ Hv) in Hxr.
    pose proof (f_at _ _ _ F) as (An & _). simpl in Hf. rewrite length_app in Hf. simpl in Hf.
    cbn [ptr find_loop]. unfold kbind at 1. rewrite (get_vma_ok _ _ _ Hv).
    destruct (addr >=? vm_end v) eqn:Hd; cbn [dir_of]; cbv zeta.
    + unfold kbind. rewrite (rb_ret _ _ _ (rd_ok _ _ _ An)). cbn [child child_r].
      apply (IH (Fr RB_RIGHT c p l :: k) r); [lia| | |done| |].
      * by apply (focus_in _ _ RB_RIGHT).
      * exact Ev.
      * simpl. intros q Hq.
        assert (q ∈ before RB_RIGHT k ++ nodes l \/ q = p) as [Hq'| ->] by set_solver; [specialize (Hxl q Hq'); lia|].
        rewrite (vend_eq _ _ _ Hv). lia.
      * done.
    + destruct (vm_base v <=? addr) eqn:Hbd.
      * eexists _, (before RB_RIGHT k ++ nodes l), (p :: nodes r ++ after RB_RIGHT k). split; [reflexivity|].
        split; [rewrite Ev; by apply (seq_split RB_RIGHT)|]. split_and!; [|..|done].
        -- intros q Hq. specialize (Hxl q Hq). lia.
        -- intros q [-> |Hq]%elem_of_cons; [rewrite (vend_eq _ _ _ Hv); lia|]. specialize (Hxr q Hq).
           apply elem_of_app in Hq as [Hq|Hq]; [|by apply Ha]. pose proof (ordered_range _ _ q O (Hr q Hq)). lia.
      * unfold kbind. rewrite (rb_ret _ _ _ (rd_ok _ _ _ An)). cbn [child child_l].
        apply (IH (Fr RB_LEFT c p r :: k) l); [lia| |exact Ev|done| |].
        -- by apply (focus_in _ _ RB_LEFT).
        -- done.
        -- simpl. intros q [-> |Hq]%elem_of_cons; [rewrite (vend_eq _ _ _ Hv); lia|].
           specialize (Hxr q Hq). apply elem_of_app in Hq as [Hq|Hq]; [|by apply Ha].
           pose proof (ordered_range _ _ q O (Hr q Hq)). lia.
Qed.

End Find.

Lemma find_vma_ok s vs addr : areas_ok s vs ->
  exists r xs ys, find_vma addr s = Ret r s /\ vs = xs ++ ys
    /\ (forall q, q ∈ xs -> vend s q <= addr) /\ (forall q, q ∈ ys -> addr < vend s q) /\ fst (fst r) = head ys.
Proof.
  intros [(t & R & Et & _) _ O]. unfold find_vma.
  pose proof (f_root _ _ _ R) as Hr. simpl in Hr. rewrite Hr. pose proof (focus_size _ _ _ R) as Hsz. simpl in Hsz.
  apply (find_loop_ok s vs O addr _ [] t); try done; [unfold rb_fuel; lia|set_solver..].
Qed.

(** ** insert.c *)

Definition overlaps (s : vmstate) (v : vma) (q : Z) : Prop := vm_base v < vend s q /\ vbase s q < vm_end v.

Section Insert.
Context (s : vmstate) (vs : list Z) (O : ordered s vs) (v : vma) (Hv : vm_base v <= vm_end v).

Definition dir_at (k : list (frame Z)) (d : rb_dir) : rb_dir := match k with [] => d | Fr d _ _ _ :: _ => d end.

Lemma insert_loop_ok fuel : forall k t d, (length (nodes t) < fuel)%nat -> focus (task_rb s) k t -> vs = nodes (plug k t) ->
  (forall q, q ∈ before RB_RIGHT k -> vend s q <= vm_base v) -> (forall q, q ∈ after RB_RIGHT k -> vm_end v <= vbase s q) ->
  (exists q, q ∈ vs /\ overlaps s v q /\ insert_loop fuel (ptr t) (cpar k) (dir_at k d) v s = Ret None s)
  \/ (exists k', focus (task_rb s) k' E /\ vs = nodes (plug k' E) /\ plug k t = plug k' E
      /\ (forall q, q ∈ before RB_RIGHT k' -> vend s q <= vm_base v) /\ (forall q, q ∈ after RB_RIGHT k' -> vm_end v <= vbase s q)
      /\ insert_loop fuel (ptr t) (cpar k) (dir_at k d) v s = Ret (Some (cpar k', dir_at k' d)) s).
Proof.
  induction fuel as [|fuel IH]; [lia|]. intros k t d Hf F Ev Hb Ha. destruct t as [|c l p r].
  - right. exists k. by split_and!.
  - destruct (focus_in_list _ _ _ _ _ _ Ev) as (Hp & Hl & Hr). destruct (or_in _ _ O p Hp) as (w & Hw & Hbe).
    destruct (focus_order _ _ _ _ _ _ _ O Ev) as [Hxl Hxr].
    pose proof (vbase_eq _ _ _ Hw) as Eb. pose proof (vend_eq _ _ _ Hw) as Ee.
    pose proof (f_at _ _ _ F) as (An & _). simpl in Hf. rewrite length_app in Hf. simpl in Hf.
    cbn [ptr insert_loop]. unfold kbind. rewrite !(get_vma_ok _ _ _ Hw).
    destruct (vm_base v >=? vm_end w) eqn:Hd; cbn [dir_of]; cbv zeta.
    + rewrite !(rb_ret _ _ _ (rd_ok _ _ _ An)). cbn [child child_r].
      apply (IH (Fr RB_RIGHT c p l :: k) r d); [lia| |exact Ev| |].
      * by apply (focus_in _ _ RB_RIGHT).
      * simpl. intros q Hq.
        assert (q ∈ before RB_RIGHT k ++ nodes l \/ q = p) as [Hq'| ->] by set_solver; [specialize (Hxl q Hq')|]; lia.
      * done.
    + destruct (vm_end v >? vm_base w) eqn:Hbd.
      * left. exists p. split; [done|]. split; [unfold overlaps; lia|done].
      * rewrite !(rb_ret _ _ _ (rd_ok _ _ _ An)). cbn [child child_l].
        apply (IH (Fr RB_LEFT c p r :: k) l d); [lia| |exact Ev| |].
        -- by apply (focus_in _ _ RB_LEFT).
        -- done.
        -- simpl. intros q [-> |Hq]%elem_of_cons; [lia|].
           specialize (Hxr q Hq). lia.
Qed.

End Insert.

(** The heap cells of an area ready to be inserted. *)
Record unlinked (s : vmstate) (p : Z) (v : vma) : Prop := {
  ul_vma : vmas s !! p = Some v;
  ul_rb : rb_heap (task_rb s) !! p = Some rb_node_init;
  ul_list : is_Some (task_mmap s !! Some p)
}.

(** What insertion changes: tree and list, outside the cells of other objects. *)
Record linked_in (s : vmstate) (vs : list Z) (s' : vmstate) : Prop := {
  li_vmas : vmas s' = vmas s;
  li_pmem : pmem s' = pmem s;
  li_copies : copies s' = copies s;
  li_rb : same_outside (task_rb s) vs (task_rb s');
  li_list : touches (task_mmap s) (None :: (Some <$> vs)) (task_mmap s')
}.

Lemma ordered_insert s xs ys p v : ordered s (xs ++ ys) -> vmas s !! p = Some v -> vm_base v <= vm_end v ->
  (forall q, q ∈ xs -> vend s q <= vm_base v) -> (forall q, q ∈ ys -> vm_end v <= vbase s q) -> ordered s (xs ++ p :: ys).
Proof.
  intros [I S] Hp Hv Hx Hy. split.
  - intros q Hq. assert (q = p \/ q ∈ xs ++ ys) as [-> |Hq'] by set_solver; [by exists v|by apply I].
  - apply sorted_app in S as (S1 & S2 & S3). apply sorted_app. split; [done|]. split.
    + constructor; [done|]. apply Forall_forall. intros q Hq. rewrite (vend_eq _ _ _ Hp). by apply Hy.
    + intros q q' Hq [-> |Hq']%elem_of_cons; [rewrite (vbase_eq _ _ _ Hp); by apply Hx|by apply S3].
Qed.

Lemma run_rb {A} (m : K (rb_tree Z) A) s a t : m (task_rb s) = Ret a t ->
  rb m s = Ret a (mk_vm (vmas s) t (task_mmap s) (pmem s) (copies s)).
Proof. unfold rb. by intros ->. Qed.

Lemma insert_vma_ok s vs p v : areas_ok s vs -> unlinked s p v -> p ∉ vs -> vm_base v <= vm_end v ->
  (exists q, q ∈ vs /\ overlaps s v q /\ insert_vma p s = Ret (-1) s)
  \/ (exists s' xs ys, vs = xs ++ ys /\ insert_vma p s = Ret 0 s' /\ areas_ok s' (xs ++ p :: ys) /\ linked_in s (xs ++ p :: ys) s'
      /\ (forall q, q ∈ xs -> vend s q <= vm_base v) /\ (forall q, q ∈ ys -> vm_end v <= vbase s q)).
Proof.
  intros [(t & R & Et & B) D O] [Up Ur Ul] Hp Hv. unfold insert_vma. rewrite !(krun _ _ _ _ _ (get_vma_ok _ _ _ Up)).
  pose proof (f_root _ _ _ R) as Hr. simpl in Hr. pose proof (focus_size _ _ _ R) as Hsz. simpl in Hsz.
  destruct (insert_loop_ok s vs O v Hv (rb_fuel (task_rb s)) [] t RB_LEFT) as [(q & Hq & Hov & E1)|(k & F & Ev & Ek & Hb & Ha & E1)];
    try (unfold rb_fuel; lia); try done; try set_solver.
  { left. exists q. split; [done|]. split; [done|]. by rewrite (krun _ _ s None s) by (by rewrite Hr). }
  right. rewrite (krun _ _ s (Some (cpar k, dir_at k RB_LEFT)) s) by (by rewrite Hr).
  assert (Hseq : vs = before RB_RIGHT k ++ after RB_RIGHT k).
  { rewrite Ev. change (nodes (plug k E)) with (seq RB_RIGHT (plug k E)). by rewrite seq_plug. }
  assert (Hcn : p ∉ cnodes k). { intros Hin. apply Hp. rewrite Ev, plug_nodes. by rewrite elem_of_app; right. }
  destruct (link_ok (task_rb s) k p F Ur Hcn) as (t1 & E2 & F1 & S1).
  destruct (rb_balance_ok t1 k RB_BLACK p F1) as (t2 & t' & E3 & R2 & En & B2 & S2).
  { simpl in Ek. by rewrite <- Ek. }
  assert (Hn : nodes t' = before RB_RIGHT k ++ p :: after RB_RIGHT k).
  { rewrite En. change (nodes (plug k (T RB_BLACK E p E))) with (seq RB_RIGHT (plug k (T RB_BLACK E p E))). by rewrite seq_plug. }
  set (xs := before RB_RIGHT k) in *. set (ys := after RB_RIGHT k) in *.
  assert (exists h', (match k with
     | [] => list_insert_after (task_mmap s) None (Some p)
     | Fr RB_RIGHT _ q _ :: _ => list_insert_after (task_mmap s) (Some q) (Some p)
     | Fr RB_LEFT _ q _ :: _ => list_insert_before (task_mmap s) (Some q) (Some p) end) = Some h'
     /\ dlist h' None (Some <$> (xs ++ p :: ys)) /\ touches (task_mmap s) (Some p :: None :: (Some <$> vs)) h') as (h' & E4 & D' & Th).
  { rewrite Hseq, fmap_app in D. rewrite Hseq, !fmap_app, fmap_cons.
    assert (Some p ∉ None :: (Some <$> xs) ++ (Some <$> ys)) as Hnin.
    { rewrite not_elem_of_cons. split; [done|]. rewrite <- fmap_app, <- Hseq. intros (q & ? & ?)%list_elem_of_fmap. by simplify_eq. }
    destruct (insert_after_spec _ _ _ _ _ D Ul Hnin) as (ha & Ea & Da & Ta).
    destruct (insert_before_spec _ _ _ _ _ D Ul Hnin) as (hb & Eb & Db & Tb).
    destruct k as [|[[] c q sib] k].
    - exists ha. split; [exact Ea|]. by split.
    - exists hb. split; [exact Eb|]. by split.
    - exists ha. split; [|by split]. rewrite <- Ea. f_equal. unfold xs. simpl. rewrite app_assoc, fmap_app. simpl. by rewrite last_snoc. }
  exists (mk_vm (vmas s) t2 h' (pmem s) (copies s)), xs, ys. split; [done|]. split; [|split; [|split]].
  - assert (forall K1 : K vmstate Z, (match cpar k with
       | None => rb (set_root (Some p))
       | Some _ => rb (upd (cpar k) (set_child (dir_at k RB_LEFT) (Some p)));;; rb (upd (Some p) (set_parent (cpar k))) end;;; K1) s
       = K1 (mk_vm (vmas s) t1 (task_mmap s) (pmem s) (copies s))) as Hlink.
    { intros K1. destruct k as [|[d c q sib] k]; simpl in *.
      - unfold rb, kbind. by rewrite E2.
      - unfold rb, kbind in *. destruct (upd (Some q) _ (task_rb s)) as [[] ta| | | |]; try done. simpl in *. by rewrite E2. }
    rewrite Hlink. rewrite (krun _ _ _ _ _ (run_rb (rb_balance (Some p)) (mk_vm _ t1 _ _ _) _ _ E3)). simpl. unfold mmap_op, kbind.
    destruct k as [|[[] c q sib] k]; simpl in *; by rewrite E4.
  - constructor; cbn [task_rb task_mmap].
    + exists t'. split_and!; done.
    + exact D'.
    + apply (ordered_frame s); [done|]. eapply ordered_insert; eauto. by rewrite <- Hseq.
  - assert (Hperm : xs ++ p :: ys ≡ₚ p :: vs) by (rewrite Hseq, <- Permutation_middle; done).
    constructor; try done; cbn [task_rb task_mmap].
    + intros j Hj. rewrite Hperm in Hj. rewrite (S2 j), (S1 j); [done| |].
      * rewrite not_elem_of_cons in Hj |- *. destruct Hj as [Hj1 Hj2]. split; [done|]. intros Hin. apply Hj2.
        rewrite Ev, plug_nodes. by rewrite elem_of_app; right.
      * rewrite Hn, Hperm. exact Hj.
    + eapply touches_weaken; [exact Th|]. intros x Hx. rewrite fmap_app, fmap_cons, elem_of_cons, elem_of_app, elem_of_cons.
      rewrite Hseq, fmap_app, !elem_of_cons, elem_of_app in Hx. tauto.
  - by split.
Qed.

(** ** split.c *)

Lemma rep_ext {L} `{Countable L} (st st' : rb_tree L) (t : tree L) : rep st t -> root st' = root st ->
  (forall j, j ∈ nodes t -> rb_heap st' !! j = rb_heap st !! j) -> rep st' t.
Proof. intros [A C R N] Hr Hh. constructor; [by eapply at_ext|done|by rewrite Hr|done]. Qed.

Lemma split_unique {A} (P : A -> Prop) (l1 l2 l1' l2' : list A) : l1 ++ l2 = l1' ++ l2' ->
  (forall x, x ∈ l1 -> P x) -> (forall x, x ∈ l2 -> ~ P x) -> (forall x, x ∈ l1' -> P x) -> (forall x, x ∈ l2' -> ~ P x) ->
  l1 = l1' /\ l2 = l2'.
Proof.
  revert l1'; induction l1 as [|a l1 IH]; intros [|a' l1'] E0 H1 H2 H3 H4; simpl in *; [done| | |].
  - subst l2. exfalso. apply (H2 a'); [set_solver|apply H3; set_solver].
  - subst l2'. exfalso. apply (H4 a); [set_solver|apply H1; set_solver].
  - injection E0 as -> E0. destruct (IH l1' E0) as [-> ->]; [set_solver..|done].
Qed.

(** Changing the fields of an area, inside its old range. *)
Definition shrink (s : vmstate) (p : Z) (v : vma) : vmstate :=
  mk_vm (<[p := v]> (vmas s)) (task_rb s) (task_mmap s) (pmem s) (copies s).

Lemma ordered_shrink s vs p v w : ordered s vs -> vmas s !! p = Some v -> vm_base w = vm_base v -> vm_base w <= vm_end w <= vm_end v ->
  ordered (shrink s p w) vs.
Proof.
  intros [I S] Hp Hb He. split.
  - intros q Hq. simpl. destruct (decide (q = p)) as [-> |Hne].
    + rewrite lookup_insert_eq. exists w. split; [done|lia].
    + rewrite lookup_insert_ne by done. by apply I.
  - revert S. clear I. induction vs as [|a vs IH]; intros S; [constructor|]. apply StronglySorted_inv in S as [S Ha].
    constructor; [by apply IH|]. rewrite Forall_forall in Ha |- *. intros q Hq. specialize (Ha q Hq).
    unfold vend, vbase in *. simpl. destruct (decide (a = p)) as [-> |Ha1], (decide (q = p)) as [-> |Hq1];
      rewrite ?lookup_insert_eq, ?lookup_insert_ne by done; rewrite ?Hp in *; simpl in *; lia.
Qed.

Section Split.
Context (kmalloc_addr : vmstate -> option Z).

Lemma vma_alloc_ok s vs v r : areas_ok s vs -> kmalloc_addr s = Some r -> vmas s !! r = None ->
  exists s', vma_alloc kmalloc_addr v s = Ret (Some r) s' /\ areas_ok s' vs /\ unlinked s' r v
    /\ r ∉ vs /\ vmas s' = <[r := v]> (vmas s) /\ pmem s' = pmem s.
Proof.
  intros [(t & R & Et & B) D O] Ha Hr. assert (r ∉ vs) as Hrv.
  { intros Hin. destruct (or_in _ _ O r Hin) as (w & Hw & _). congruence. }
  unfold vma_alloc. rewrite Ha. eexists. split; [reflexivity|]. split; [|split; [|by split_and!]].
  - constructor; cbn [task_rb task_mmap].
    + exists t. split; [|done]. eapply rep_ext; [exact R|done|]. intros j Hj. cbn [rb_heap]. rewrite lookup_insert_ne; [done|].
      intros ->. by subst vs.
    + eapply dlist_ext; [exact D|]. intros c Hc. rewrite lookup_insert_ne; [done|]. intros <-.
      apply elem_of_cons in Hc as [?|(q & ? & ?)%list_elem_of_fmap]; [done|]. by simplify_eq.
    + split.
      * intros q Hq. simpl. rewrite lookup_insert_ne by (intros ->; done). by apply O.
      * destruct O as [_ S]. revert S Hrv. clear -Hr. induction vs as [|a vs IH]; intros S Hrv; [constructor|].
        apply StronglySorted_inv in S as [S Hf]. rewrite not_elem_of_cons in Hrv. destruct Hrv as [Hra Hrv].
        constructor; [by apply IH|]. rewrite Forall_forall in Hf |- *. intros q Hq. specialize (Hf q Hq).
        unfold vend, vbase in *. simpl. rewrite !lookup_insert_ne; [done|intros ->; done|done].
  - constructor; cbn [vmas task_rb task_mmap rb_heap]; by rewrite lookup_insert_eq.
Qed.

Lemma run_mod_vma s p v f : vmas s !! p = Some v -> mod_vma p f s = Ret tt (shrink s p (f v)).
Proof. unfold mod_vma. by intros ->. Qed.

Lemma areas_shrink s vs p v w : areas_ok s vs -> vmas s !! p = Some v -> vm_base w = vm_base v -> vm_base w <= vm_end w <= vm_end v ->
  areas_ok (shrink s p w) vs.
Proof. intros [T D O] Hp Hb He. constructor; [exact T|exact D|by eapply ordered_shrink]. Qed.

Lemma split_vma_ok s xs ys p v addr r : areas_ok s (xs ++ p :: ys) -> vmas s !! p = Some v -> vm_base v < addr < vm_end v ->
  kmalloc_addr s = Some r -> vmas s !! r = None ->
  exists s', split_vma kmalloc_addr p addr s = Ret (Some r) s' /\ areas_ok s' (xs ++ p :: r :: ys)
    /\ vmas s' = <[p := mk_vma (vm_name v) (vm_base v) addr (vm_src v) (u64 (addr - vm_base v)) (vm_flags v)]>
                 (<[r := mk_vma (vm_name v) addr (vm_end v) (vm_src v) (u64 (vm_end v - addr)) (vm_flags v)]> (vmas s))
    /\ pmem s' = pmem s.
Proof.
  intros Hok Hp Ha Hk Hr. set (w := mk_vma (vm_name v) addr (vm_end v) (vm_src v) (u64 (vm_end v - addr)) (vm_flags v)).
  destruct (vma_alloc_ok s _ w r Hok Hk Hr) as (s1 & E1 & O1 & U1 & Hrv & Ev1 & Ep1).
  assert (p <> r) as Hpr by (intros ->; congruence).
  assert (vmas s1 !! p = Some v) as Hp1 by (rewrite Ev1, lookup_insert_ne; done).
  set (v1 := set_vm_end addr v). set (s2 := shrink s1 p v1).
  assert (areas_ok s2 (xs ++ p :: ys)) as O2 by (eapply areas_shrink; [exact O1|exact Hp1|done|simpl; lia]).
  assert (vmas s2 !! p = Some v1) as Hp2 by (unfold s2; simpl; by rewrite lookup_insert_eq).
  set (v2 := set_vm_len (u64 (addr - vm_base v)) v1). set (s3 := shrink s2 p v2).
  assert (areas_ok s3 (xs ++ p :: ys)) as O3 by (eapply areas_shrink; [exact O2|exact Hp2|done|simpl; lia]).
  assert (unlinked s3 r w) as U3.
  { destruct U1 as [Ua Ub Uc]. constructor; [simpl; by rewrite !lookup_insert_ne|exact Ub|exact Uc]. }
  assert (vmas s3 !! p = Some v2) as Hp3 by (simpl; by rewrite lookup_insert_eq).
  destruct (ordered_split _ _ _ _ (ar_order _ _ O3)) as [Hx Hy].
  pose proof (ordered_split _ _ _ _ (ar_order _ _ Hok)) as [_ Hy0].
  rewrite (vbase_eq _ _ _ Hp3) in Hx. simpl in Hx.
  assert (forall q, q ∈ ys -> vm_end v <= vbase s3 q) as Hy3.
  { intros q Hq. specialize (Hy0 q Hq). rewrite (vend_eq _ _ _ Hp) in Hy0. assert (q <> p /\ q <> r) as [H1 H2].
    { split; [|intros ->; apply Hrv; set_solver]. intros ->. destruct (ar_tree _ _ O1) as (t & R & Et & _).
      pose proof (f_nodup _ _ _ R) as Nd. rewrite Et in Nd. simpl in Nd. rewrite app_nil_r in Nd.
      apply NoDup_app in Nd as (_ & _ & [Nd _]%NoDup_cons). done. }
    unfold vbase in *. simpl. rewrite Ev1, !lookup_insert_ne by done. done. }
  destruct (insert_vma_ok s3 _ r w O3 U3 Hrv) as [(q & Hq & [Ho1 Ho2] & _)|(s4 & xs' & ys' & Esplit & E4 & O4 & L4 & Hx4 & Hy4)].
  { simpl. lia. }
  - exfalso. simpl in Ho1, Ho2. apply elem_of_app in Hq as [Hq|[-> |Hq]%elem_of_cons].
    + specialize (Hx q Hq). lia.
    + rewrite (vend_eq _ _ _ Hp3) in Ho1. simpl in Ho1. lia.
    + specialize (Hy3 q Hq). lia.
  - assert (xs' = xs ++ [p] /\ ys' = ys) as [-> ->].
    { apply (split_unique (fun q => vend s3 q <= addr)); [by rewrite <- app_assoc; simpl|exact Hx4| | |].
      - intros q Hq Hc. specialize (Hy4 q Hq). simpl in Hy4.
        assert (q ∈ xs ++ p :: ys) as Hin by (rewrite Esplit; set_solver). pose proof (ordered_range _ _ q (ar_order _ _ O3) Hin). lia.
      - intros q [Hq| ->%list_elem_of_singleton]%elem_of_app; [specialize (Hx q Hq); lia|]. rewrite (vend_eq _ _ _ Hp3). simpl. lia.
      - intros q Hq Hc. specialize (Hy3 q Hq).
        assert (q ∈ xs ++ p :: ys) as Hin by set_solver. pose proof (ordered_range _ _ q (ar_order _ _ O3) Hin). lia. }
    exists s4. rewrite <- app_assoc in O4. simpl in O4. split; [|split; [exact O4|split]].
    + unfold split_vma. rewrite (krun _ _ _ _ _ (get_vma_ok _ _ _ Hp)).
      assert ((addr <=? vm_base v) || (addr >=? vm_end v) = false) as -> by lia.
      rewrite (krun _ _ _ _ _ E1). rewrite (krun _ _ _ _ _ (run_mod_vma _ _ _ _ Hp1)).
      rewrite (krun _ _ _ _ _ (run_mod_vma _ _ _ _ Hp2)). by rewrite (krun _ _ _ _ _ E4).
    + rewrite (li_vmas _ _ _ L4). simpl. rewrite Ev1, insert_insert_eq. done.
    + rewrite (li_pmem _ _ _ L4). exact Ep1.
Qed.

End Split.

(** ** user.c *)

Section Check.
Context (s : vmstate) (flags end_ : Z).

Definition vflags (s : vmstate) (p : Z) : Z := default 0 (vm_flags <$> vmas s !! p).
Definition grants (p : Z) : Prop := Z.land (vflags s p) flags = flags.
(** Every address of [[lo, end_)] is in an area of [ys] that grants the access. *)
Definition covered (ys : list Z) (lo : Z) : Prop :=
  forall a, lo <= a < end_ -> exists p, p ∈ ys /\ vbase s p <= a < vend s p /\ grants p.

(** What the walk computes: whether it got through, and the last address covered. *)
Fixpoint check_list (ys : list Z) (last : Z) : bool * Z :=
  match ys with
  | [] => (true, last)
  | p :: ys =>
      if vbase s p <? end_ then
        if vbase s p >? last then (false, last) else
        if Z.land (vflags s p) flags =? flags then check_list ys (vend s p) else (false, last)
      else (true, last)
  end.

Lemma check_loop_ok vs base size fuel : areas_ok s vs -> forall xs ys last, vs = xs ++ ys -> (length ys < fuel)%nat ->
  walk_loop fuel (head ys) base size end_ do_check_user_vma (mk_vma_user_info last flags) s
  = Ret (if (check_list ys last).1 then 0 else -1, mk_vma_user_info (check_list ys last).2 flags) s.
Proof.
  intros Hok. induction fuel as [|fuel IH]; [lia|]. intros xs [|p ys] last Ev Hf; [done|].
  destruct (or_in _ _ (ar_order _ _ Hok) p) as (v & Hv & _); [rewrite Ev; set_solver|].
  unfold check_list; fold check_list. unfold vflags at 1 2. rewrite (vbase_eq _ _ _ Hv), (vend_eq _ _ _ Hv), Hv. cbn [fmap option_fmap option_map default].
  cbn [head walk_loop]. rewrite (krun _ _ _ _ _ (get_vma_ok _ _ _ Hv)).
  destruct (vm_base v <? end_); [|done]. cbn [negb].
  assert (mmap_get (fun h => list_next h None (Some p)) s = Ret (head (Some <$> ys)) s) as En.
  { unfold mmap_get, kderef. pose proof (ar_list _ _ Hok) as D. rewrite Ev, fmap_app, fmap_cons in D.
    by rewrite (list_next_spec _ _ _ _ _ D). }
  rewrite (krun _ _ _ _ _ En). unfold do_check_user_vma. unfold kbind at 1. rewrite (krun _ _ _ _ _ (get_vma_ok _ _ _ Hv)).
  cbn [last_ want]. destruct (vm_base v >? last); [done|]. destruct (_ =? flags); [|done]. cbn [negb fst snd].
  replace (default None (head (Some <$> ys))) with (head ys) by by destruct ys.
  apply (IH (xs ++ [p])); [by rewrite <- app_assoc|]. simpl in Hf. lia.
Qed.

Lemma check_sound ys last : (check_list ys last).1 = true -> end_ <= (check_list ys last).2 -> covered ys last.
Proof.
  revert last; induction ys as [|p ys IH]; intros last; simpl; [intros _ ? a ?; lia|].
  destruct (vbase s p <? end_) eqn:Hb; [|simpl; intros _ ? a ?; lia].
  destruct (vbase s p >? last) eqn:Hl; [done|]. destruct (Z.land (vflags s p) flags =? flags) eqn:Hf; [|done].
  intros H1 H2 a Ha. destruct (decide (a < vend s p)).
  - exists p. split; [set_solver|]. split; [lia|]. unfold grants. lia.
  - destruct (IH _ H1 H2 a) as (q & ? & ?); [lia|]. exists q. split; [set_solver|done].
Qed.

Lemma check_complete ys last : StronglySorted (fun p q => vend s p <= vbase s q) ys ->
  (forall q, q ∈ ys -> vbase s q < vend s q /\ last < vend s q) -> (last < end_ \/ forall q, q ∈ ys -> last <= vbase s q) ->
  covered ys last -> (check_list ys last).1 = true /\ end_ <= (check_list ys last).2 \/ end_ <= last.
Proof.
  revert last; induction ys as [|p ys IH]; intros last Hs Hne Hl Hc; simpl.
  - left. split; [done|]. destruct (decide (end_ <= last)); [done|]. destruct (Hc last) as (q & Hq & _); [lia|set_solver].
  - apply StronglySorted_inv in Hs as [Hs Hp]. rewrite Forall_forall in Hp. destruct (Hne p) as [Hp1 Hp2]; [set_solver|].
    destruct (decide (end_ <= last)) as [|Hend]; [by right|left]. destruct (Hc last) as (q & Hq & Hql & _); [lia|].
    assert (vbase s p <= last) as Hpl.
    { apply elem_of_cons in Hq as [-> |Hq]; [lia|]. specialize (Hp q Hq). lia. }
    destruct (Z.ltb_spec (vbase s p) end_); [|lia].
    destruct (vbase s p >? last) eqn:Hg; [lia|].
    destruct (Hc last) as (q' & Hq' & Hql' & Hg'); [lia|].
    assert (q' = p) as ->. { apply elem_of_cons in Hq' as [-> |Hq']; [done|]. specialize (Hp q' Hq'). lia. }
    unfold grants in Hg'. rewrite (proj2 (Z.eqb_eq _ _) Hg').
    destruct (IH (vend s p)) as [IH1|IH1]; try done.
    + intros q2 Hq2. split; [apply Hne; set_solver|]. specialize (Hp q2 Hq2). destruct (Hne q2); [set_solver|lia].
    + by right.
    + intros a Ha. destruct (Hc a) as (q2 & Hq2 & Hr2 & Hg2); [lia|]. exists q2. split; [|done].
      apply elem_of_cons in Hq2 as [-> |Hq2]; [lia|done].
    + destruct ys as [|p2 ys]; simpl; [by split|]. specialize (Hp p2 ltac:(set_solver)).
      destruct (Z.ltb_spec (vbase s p2) end_); [lia|by split].
Qed.

End Check.

Lemma areas_length s vs : areas_ok s vs -> (length vs <= size (vmas s))%nat.
Proof.
  intros [(t & R & Et & _) _ O]. rewrite <- size_dom. rewrite <- (size_list_to_set (C := gset Z)).
  - apply subseteq_size. intros q. rewrite elem_of_list_to_set, elem_of_dom. intros Hq. destruct (or_in _ _ O q Hq) as (v & -> & _). eauto.
  - subst vs. pose proof (f_nodup _ _ _ R) as Nd. simpl in Nd. by rewrite app_nil_r in Nd.
Qed.

Lemma areas_sorted s xs ys : areas_ok s (xs ++ ys) -> StronglySorted (fun p q => vend s p <= vbase s q) ys.
Proof. intros [_ _ [_ S]]. by apply sorted_app in S as (_ & S & _). Qed.

Lemma check_range_ok s vs base size flags : areas_ok s vs -> 0 <= base -> 0 < size -> base + size < 2 ^ 64 ->
  exists r, check_user_vma_range base size flags s = Ret r s /\ (fst r = 0 \/ fst r = -1)
    /\ (fst r = 0 -> covered s flags (base + size) vs base)
    /\ ((forall q, q ∈ vs -> vbase s q < vend s q) -> covered s flags (base + size) vs base -> fst r = 0).
Proof.
  intros Hok Hb Hs He. unfold check_user_vma_range. rewrite (u64_id (base + size)) by lia.
  destruct (find_vma_ok s vs base Hok) as (r & xs & ys & Ef & Ev & Hx & Hy & Hr). subst vs.
  assert (forall a q, base <= a -> q ∈ xs ++ ys -> vbase s q <= a < vend s q -> q ∈ ys) as Hin.
  { intros a q Ha [Hq|Hq]%elem_of_app Hqa; [|done]. specialize (Hx q Hq). lia. }
  assert (forall u, walk_vma_range base size do_check_user_vma u s =
    match ys with
    | [] => Ret (-1, u) s
    | p :: _ => if base + size <=? vbase s p then Ret (-1, u) s
                else walk_loop (S (base.size (vmas s))) (Some p) base size (base + size) do_check_user_vma u s
    end) as Ew.
  { intros u. unfold walk_vma_range. rewrite (krun _ _ _ _ _ Ef), Hr. rewrite (u64_id (base + size)) by lia.
    destruct ys as [|p ys]; [done|]. simpl.
    destruct (or_in _ _ (ar_order _ _ Hok) p) as (v & Hv & _); [set_solver|]. rewrite (krun _ _ _ _ _ (get_vma_ok _ _ _ Hv)).
    rewrite (vbase_eq _ _ _ Hv). by destruct (base + size <=? vm_base v). }
  unfold kbind. rewrite Ew. destruct ys as [|p ys].
  { eexists. split; [reflexivity|]. split; [by right|]. split; [done|]. intros _ Hc. destruct (Hc base) as (q & Hq & Hqa & _); [lia|].
    by apply (Hin base) in Hq; [set_solver|..]. }
  destruct (Z.leb_spec (base + size) (vbase s p)) as [Hle|Hlt].
  { eexists. split; [reflexivity|]. split; [by right|]. split; [done|]. intros _ Hc. destruct (Hc base) as (q & Hq & Hqa & _); [lia|].
    apply (Hin base) in Hq; [|lia..]. pose proof (ordered_split _ _ _ _ (ar_order _ _ Hok)) as [_ Hp].
    pose proof (ordered_range _ _ p (ar_order _ _ Hok) ltac:(set_solver)).
    apply elem_of_cons in Hq as [-> |Hq]; [lia|]. specialize (Hp q Hq). lia. }
  change (Some p) with (head (p :: ys)). rewrite (check_loop_ok s flags (base + size) _ base size _ Hok xs); [|done|].
  2: { pose proof (areas_length _ _ Hok) as Hl. rewrite length_app in Hl. lia. }
  cbn [fst snd last_]. destruct (check_list s flags (base + size) (p :: ys) base) as [ok lst] eqn:Ec. cbn [fst snd].
  destruct ok; cbn [Z.eqb negb orb].
  - destruct (Z.ltb_spec lst (base + size)).
    + eexists. split; [reflexivity|]. split; [by right|]. split; [done|]. intros Hne Hc.
      destruct (check_complete s flags (base + size) (p :: ys) base) as [[_ Hl]|Hl]; [..|lia].
      * by eapply areas_sorted.
      * intros q Hq. split; [apply Hne; set_solver|by apply Hy].
      * left. lia.
      * intros a Ha. destruct (Hc a Ha) as (q & Hq & Hqa & Hg). exists q. split; [|done]. eapply (Hin a); [lia|exact Hq|lia].
      * rewrite Ec in Hl. simpl in Hl. lia.
    + eexists. split; [reflexivity|]. split; [by left|]. split; [|done]. intros _ a Ha.
      destruct (check_sound s flags (base + size) (p :: ys) base) with (a := a) as (q & Hq & Hqa); [by rewrite Ec|by rewrite Ec|lia|].
      exists q. split; [set_solver|done].
  - eexists. split; [reflexivity|]. split; [by right|]. split; [done|]. intros Hne Hc.
    destruct (check_complete s flags (base + size) (p :: ys) base) as [[Hl _]|Hl]; [..|lia].
    + by eapply areas_sorted.
    + intros q Hq. split; [apply Hne; set_solver|by apply Hy].
    + left. lia.
    + intros a Ha. destruct (Hc a Ha) as (q & Hq & Hqa & Hg). exists q. split; [|done]. eapply (Hin a); [lia|exact Hq|lia].
    + by rewrite Ec in Hl.
Qed.

Definition wx_flags (f : Z) : bool := flag f PROT_WRITE && flag f PROT_EXEC.

(** ** Typings of areas

    A property of single areas that creating an area from addresses that are [whole] and from
    protection bits that are [allowed], splitting, merging and protecting areas respect. *)

(** The protections the system calls accept. *)
Definition prot_ok (f : Z) : bool :=
  negb (flag f PROT_WRITE && flag f PROT_EXEC) && negb (flag f PROT_WRITE && negb (flag f PROT_READ)) && negb (flag f PROT_EXEC && negb (flag f PROT_READ)).

Class typing := {
  good : vma -> Prop;
  whole : Z -> Prop;
  allowed : Z -> Prop;
  ty_new name addr size flags : whole addr -> whole size -> allowed flags -> good (mk_vma name addr (u64 (addr + size)) None 0 flags);
  ty_right v addr : good v -> whole addr -> good (mk_vma (vm_name v) addr (vm_end v) (vm_src v) (u64 (vm_end v - addr)) (vm_flags v));
  ty_left v addr : good v -> whole addr -> good (set_vm_end addr v);
  ty_merge v w : good v -> good w -> good (set_vm_end (vm_end w) v);
  ty_len v x : good v -> good (set_vm_len (u64 x) v);
  ty_flags v flags : good v -> allowed flags -> good (set_vm_flags flags v);
  ty_add a b : whole a -> whole b -> whole (u64 (a + b));
  ty_sub a b : whole a -> whole b -> whole (u64 (a - b));
  ty_pages a : whole (Z.land (u64 a) (not64 (PAGE_SIZE - 1)));
  ty_down a : whole (ROUNDDOWN a PAGE_SIZE);
  ty_up a : whole (ROUNDUP a PAGE_SIZE);
  ty_prot f : prot_ok f = true -> allowed f;
  ty_limit : whole USER_LIM
}.
Definition well_typed `{typing} (s : vmstate) : Prop := map_Forall (fun _ v => good v) (vmas s).
Definition preserves `{typing} {A} (m : K vmstate A) : Prop := forall s a s', well_typed s -> m s = Ret a s' -> well_typed s'.

Create HintDb wx.

Section Typed.
Context `{typing} (cfg : config) (cpu : Z) (oom : K mstate unit) (kmalloc_addr : vmstate -> option Z) (tp : Z).

Lemma pr_ret {A} (a : A) : preserves (kret a).
Proof. intros s b s' Hs E0. by injection E0 as _ <-. Qed.

Lemma pr_bind {A B} (m : K vmstate A) (f : A -> K vmstate B) : preserves m -> (forall a, preserves (f a)) -> preserves (kbind m f).
Proof. intros Hm Hf s b s' Hs. unfold kbind. destruct (m s) as [a s1| | | |] eqn:E1; try done. apply Hf. by eapply Hm. Qed.

(** Code that leaves the areas alone. *)
Lemma pr_same {A} (m : K vmstate A) : (forall s a s', m s = Ret a s' -> vmas s' = vmas s) -> preserves m.
Proof. intros Hm s a s' Hs E0. unfold well_typed. by rewrite (Hm _ _ _ E0). Qed.

Lemma pr_state {A} (f : vmstate -> K vmstate A) : (forall s, preserves (f s)) -> preserves (fun s => f s s).
Proof. intros Hf s. apply (Hf s). Qed.

Lemma pr_rb {A} (m : K (rb_tree Z) A) : preserves (rb m).
Proof. apply pr_same. intros s a s'. unfold rb. destruct (m (task_rb s)); try done. intros E0. by injection E0 as _ <-. Qed.
Lemma pr_pm {A} (m : K mstate A) : preserves (pm m).
Proof. apply pr_same. intros s a s'. unfold pm. destruct (m (pmem s)); try done. intros E0. by injection E0 as _ <-. Qed.
Lemma pr_mmap_op f : preserves (mmap_op f).
Proof. apply pr_same. intros s a s'. unfold mmap_op. destruct (f _); try done. intros E0. by injection E0 as _ <-. Qed.
Lemma pr_deref {A} (f : vmstate -> option A) : preserves (fun s => kderef (f s) s).
Proof. apply pr_same. intros s a s'. unfold kderef. destruct (f s); try done. intros E0. by injection E0 as _ <-. Qed.
Lemma pr_mmap_get {A} (f : _ -> option A) : preserves (mmap_get f).
Proof. apply pr_deref. Qed.
Lemma pr_fault {A} : preserves (kfault (A := A)).
Proof. by intros s a s' _. Qed.
Lemma pr_hang {A} : preserves (khang (A := A)).
Proof. by intros s a s' _. Qed.

Lemma pr_get_vma {A} p (f : vma -> K vmstate A) : (forall v, good v -> preserves (f v)) ->
  preserves (kbind (get_vma p) f).
Proof.
  intros Hf s a s' Hs. unfold kbind, get_vma, kderef. destruct (vmas s !! p) as [v|] eqn:E1; [|done]. simpl.
  intros E0. exact (Hf v (Hs p v E1) s a s' Hs E0).
Qed.

Lemma pr_mod_vma p f : (forall v, good v -> good (f v)) -> preserves (mod_vma p f).
Proof.
  intros Hf s a s' Hs. unfold mod_vma. destruct (vmas s !! p) as [v|] eqn:E1; [|done]. intros E0. injection E0 as _ <-.
  intros q w. simpl. destruct (decide (q = p)) as [-> |Hne].
  - rewrite lookup_insert_eq. intros E0. injection E0 as <-. exact (Hf v (Hs p v E1)).
  - rewrite lookup_insert_ne by done. apply Hs.
Qed.

Lemma pr_vma_alloc v : good v -> preserves (vma_alloc kmalloc_addr v).
Proof.
  intros Hv s a s' Hs. unfold vma_alloc. destruct (kmalloc_addr s) as [p|]; intros E0; injection E0 as _ <-; [|done].
  intros q w. simpl. destruct (decide (q = p)) as [-> |Hne].
  - rewrite lookup_insert_eq. intros E0. by injection E0 as <-.
  - rewrite lookup_insert_ne by done. apply Hs.
Qed.

Lemma pr_vma_free p : preserves (vma_free p).
Proof.
  intros s a s' Hs. unfold vma_free. destruct p as [p|]; [|done]. destruct (vmas s !! p); [|done]. intros E0. injection E0 as _ <-.
  intros q w. simpl. intros [_ Hq]%lookup_delete_Some. by eapply Hs.
Qed.

#[local] Hint Resolve pr_ret pr_rb pr_pm pr_mmap_op pr_mmap_get pr_fault pr_hang pr_vma_free : wx.

(** Case analysis down to the operations. *)
Ltac wx_step :=
  match goal with
  | |- preserves (kbind (get_vma _) _) => apply pr_get_vma; intros ? ?
  | |- preserves (kbind _ _) => apply pr_bind; [|intros ?]
  | |- preserves (match ?x with _ => _ end) => destruct x
  | |- preserves _ => solve [auto with wx]
  | |- preserves (mod_vma _ _) => apply pr_mod_vma; intros; eauto using ty_left, ty_merge, ty_len, ty_flags
  | |- preserves (fun s => _) => apply pr_state; intros ?
  | |- forall _, _ => intros ?
  end.
Ltac wx := repeat wx_step.

Lemma pr_find_loop fuel : forall node v p d addr, preserves (find_loop fuel node v p d addr).
Proof. induction fuel as [|fuel IH]; intros; simpl; wx; apply IH. Qed.
Lemma pr_find_vma addr : preserves (find_vma addr).
Proof. unfold find_vma. apply (pr_state (fun s => find_loop (rb_fuel (task_rb s)) (root (task_rb s)) None None RB_LEFT addr)). intros s. apply pr_find_loop. Qed.
Lemma pr_insert_loop fuel : forall node p d v, preserves (insert_loop fuel node p d v).
Proof. induction fuel as [|fuel IH]; intros; simpl; wx; apply IH. Qed.
Lemma pr_insert_vma p : preserves (insert_vma p).
Proof.
  unfold insert_vma. apply pr_get_vma. intros v _. apply pr_bind; [|intros pos; wx].
  apply (pr_state (fun s => insert_loop (rb_fuel (task_rb s)) (root (task_rb s)) None RB_LEFT v)). intros s. apply pr_insert_loop.
Qed.
Lemma pr_remove_vma p : preserves (remove_vma p).
Proof. unfold remove_vma. wx. Qed.
#[local] Hint Resolve pr_find_vma pr_insert_vma pr_remove_vma : wx.
Lemma pr_merge_vma l r : preserves (merge_vma l r).
Proof. unfold merge_vma. wx. Qed.
#[local] Hint Resolve pr_merge_vma : wx.
Lemma pr_merge_vmas p : preserves (merge_vmas p).
Proof. unfold merge_vmas. wx. Qed.
#[local] Hint Resolve pr_merge_vmas : wx.
Lemma pr_add_executable_vma name addr size flags src len : good (mk_vma name addr (u64 (addr + size)) src len flags) ->
  preserves (add_executable_vma kmalloc_addr name addr size flags src len).
Proof. intros Hf. unfold add_executable_vma. apply pr_bind; [by apply pr_vma_alloc|intros ?]. wx. Qed.
Lemma pr_add_below fuel cont name : forall base size flags, whole base -> whole size -> allowed flags -> preserves (add_below kmalloc_addr fuel cont name base size flags).
Proof.
  induction fuel as [|fuel IH]; intros base size flags Hb Hs Hf; simpl; [wx|]. destruct (cont base); [|wx].
  apply pr_bind; [by apply pr_add_executable_vma, ty_new|]. intros [q|]; [wx|by apply IH; [apply ty_sub|..]].
Qed.
Lemma pr_add_vma fuel name addr size flags : whole addr -> allowed flags -> preserves (add_vma kmalloc_addr fuel name addr size flags).
Proof.
  intros Ha Hf. unfold add_vma. set (sz := Z.land _ _). assert (whole sz) as Hs by apply ty_pages.
  assert (forall cont base, whole base -> preserves (add_below kmalloc_addr fuel cont name base sz flags)) as Hb by (intros; by apply pr_add_below).
  destruct (negb _); [|by apply Hb, ty_sub; [apply ty_limit|]]. apply pr_bind; [by apply pr_add_executable_vma, ty_new|].
  intros [q|]; [wx|]. apply pr_bind; [by apply Hb|]. intros [q|]; [wx|by apply Hb, ty_sub; [apply ty_limit|]].
Qed.
Lemma pr_split_vma p addr : whole addr -> preserves (split_vma kmalloc_addr p addr).
Proof.
  intros Ha. unfold split_vma. apply pr_get_vma. intros v Hv. destruct (_ || _); [wx|]. apply pr_bind; [by apply pr_vma_alloc, ty_right|].
  intros ?. wx.
Qed.
#[local] Hint Resolve pr_split_vma ty_add : wx.
Lemma pr_split_vmas p base size : whole base -> whole size -> preserves (split_vmas kmalloc_addr p base size).
Proof. intros Hb Hs. unfold split_vmas. wx. Qed.
#[local] Hint Resolve pr_split_vmas : wx.

Lemma pr_walk {U} base size (cb : U -> Z -> Z -> Z -> K vmstate (Z * U)) u :
  (forall u p, preserves (cb u base size p)) -> preserves (walk_vma_range base size cb u).
Proof.
  intros Hcb. assert (forall fuel vma end_ u, preserves (walk_loop fuel vma base size end_ cb u)) as Hl.
  { induction fuel as [|fuel IH]; intros vma end_ u0; simpl; [wx|]. destruct vma as [p|]; [|wx]. apply pr_get_vma. intros v _.
    destruct (negb _); [wx|]. apply pr_bind; [wx|]. intros n. apply pr_bind; [apply Hcb|]. intros r. destruct (r.1 <? 0); [wx|apply IH]. }
  unfold walk_vma_range. apply pr_bind; [wx|]. intros r. destruct r.1.1 as [p|]; [|wx]. apply pr_get_vma. intros v _.
  destruct (_ <=? _); [wx|].
  apply (pr_state (fun s => walk_loop (S (base.size (vmas s))) (Some p) base size (u64 (base + size)) cb u)). intros s. apply Hl.
Qed.

Lemma pr_in_task_space m : preserves m -> preserves (in_task_space tp m).
Proof.
  intros Hm. unfold in_task_space. apply pr_bind; [wx|intros o]. apply pr_bind.
  { apply pr_same. intros s a s'. unfold PADDR. destruct (_ <? _); [done|]. intros E0. by injection E0 as _ <-. }
  intros pa. apply pr_bind; [wx|intros _]. apply pr_bind; [done|intros _]. apply pr_bind; [|wx].
  apply pr_same. intros s a s'. unfold PADDR. destruct (_ <? _); [done|]. intros E0. by injection E0 as _ <-.
Qed.

Lemma pr_remove_vma_range base size : whole base -> whole size -> preserves (remove_vma_range cfg cpu oom kmalloc_addr tp base size).
Proof.
  intros Hb Hs. unfold remove_vma_range. apply pr_bind; [|wx]. apply pr_walk. intros. unfold do_remove_vma. apply pr_bind; [wx|].
  intros [q|]; [|wx]. apply pr_bind; [apply pr_in_task_space; wx|wx].
Qed.
Lemma pr_protect_vma_range base size flags : whole base -> whole size -> allowed flags -> preserves (protect_vma_range cfg cpu oom kmalloc_addr tp base size flags).
Proof.
  intros Hb Hs Hf. unfold protect_vma_range. apply pr_bind; [|wx].
  unfold walk_vma_range. apply pr_bind; [wx|]. intros r. destruct r.1.1 as [p|]; [|wx]. apply pr_get_vma. intros v _.
  destruct (_ <=? _); [wx|].
  apply (pr_state (fun s => walk_loop (S (base.size (vmas s))) (Some p) base size (u64 (base + size)) (do_protect_vma cfg cpu oom kmalloc_addr tp) flags)).
  intros s. generalize (Some p). generalize (S (base.size (vmas s))). clear s v p r. intros fuel.
  induction fuel as [|fuel IH]; intros vma; simpl; [wx|]. destruct vma as [p|]; [|wx]. apply pr_get_vma. intros v _.
  destruct (negb _); [wx|]. apply pr_bind; [wx|]. intros n. unfold do_protect_vma.
  intros s a s' Hws. unfold kbind at 1. match goal with |- context[match ?m s with _ => _ end] => destruct (m s) as [r s1| | | |] eqn:E1; try done end.
  assert (well_typed s1 /\ r.2 = flags) as [Hs1 Hr2].
  { revert E1. unfold kbind at 1. unfold get_vma, kderef. destruct (vmas s !! p) as [w|]; [|done]. simpl.
    destruct (_ || _); [intros E0; by injection E0 as <- <-|]. unfold kbind at 1.
    destruct (split_vmas _ _ _ _ s) as [[q|] s2| | | |] eqn:E2; try done;
      [|intros E0; injection E0 as <- <-; split; [by eapply (pr_split_vmas p base size Hb Hs)|done]].
    apply (pr_split_vmas p base size Hb Hs) in E2; [|done]. unfold kbind at 1.
    destruct (mod_vma q _ s2) as [? s3| | | |] eqn:E3; try done. apply pr_mod_vma in E3; [|by intros; apply ty_flags|done]. unfold kbind at 1.
    destruct (pm _ s3) as [? s4| | | |] eqn:E4; try done. apply pr_pm in E4; [|done]. unfold kbind at 1.
    destruct (merge_vmas _ s4) as [? s5| | | |] eqn:E5; try done. apply pr_merge_vmas in E5; [|done].
    intros E0. by injection E0 as <- <-. }
  rewrite Hr2. destruct (r.1 <? 0); [intros E0; by injection E0 as _ <-|by apply IH].
Qed.
Lemma pr_populate_vma_range base size flags : preserves (populate_vma_range cfg cpu oom tp base size flags).
Proof.
  unfold populate_vma_range. apply pr_bind; [|wx]. apply pr_walk. intros. unfold do_populate_vma. apply pr_get_vma. intros v _.
  destruct (denied _ _); [wx|]. cbv zeta. destruct (vm_src v); [|wx]. apply pr_bind; [wx|intros _]. apply pr_bind; [|wx].
  apply pr_in_task_space. destruct (_ <? _); [|wx]. apply pr_same. intros s a s' E0. by injection E0 as _ <-.
Qed.
Lemma pr_unmap_vma_range base size : whole base -> whole size -> preserves (unmap_vma_range cfg cpu oom kmalloc_addr tp base size).
Proof.
  intros Hb Hs. unfold unmap_vma_range. apply pr_bind; [|wx]. apply pr_walk. intros. unfold do_unmap_vma. apply pr_bind; [wx|].
  intros [q|]; [|wx]. apply pr_bind; [|wx]. generalize (S (Z.to_nat (size / PAGE_SIZE + 1))). intros fuel. generalize base at 1.
  induction fuel as [|fuel IH]; intros va; simpl; [wx|]. destruct (_ <? _); [|wx]. apply pr_bind; [wx|intros r].
  apply pr_bind; [wx|intros _]. apply IH.
Qed.
Lemma pr_task_find_vma addr : preserves (task_find_vma addr).
Proof. unfold task_find_vma. wx. Qed.

End Typed.

(** ** The operations *)

(** C23 (invariant): inserting an area: if it overlaps one of the task's areas, [insert_vma]
    returns -1 and changes nothing; otherwise it returns 0 and the areas stay ordered and disjoint,
    with the new one in its place, in the (still red-black) tree and in the list, and no area,
    page table or physical page is changed. *)
Theorem insert_vma_correct (s : vmstate) (vs : list Z) (p : Z) (v : vma) :
  areas_ok s vs -> unlinked s p v -> p ∉ vs -> vm_base v <= vm_end v ->
  ((exists q, q ∈ vs /\ overlaps s v q) -> insert_vma p s = Ret (-1) s)
  /\ (~ (exists q, q ∈ vs /\ overlaps s v q) -> exists s' xs ys, vs = xs ++ ys /\ insert_vma p s = Ret 0 s'
      /\ areas_ok s' (xs ++ p :: ys) /\ vmas s' = vmas s /\ pmem s' = pmem s).
Proof.
  intros Hok U Hp Hv. destruct (insert_vma_ok s vs p v Hok U Hp Hv) as [(q & Hq & Ho & E1)|(s' & xs & ys & Es & E1 & O1 & L1 & Hx & Hy)].
  - split; [done|]. intros Hn. exfalso. apply Hn. by exists q.
  - split.
    + intros (q & Hq & Ho1 & Ho2). exfalso. rewrite Es in Hq. apply elem_of_app in Hq as [Hq|Hq]; [specialize (Hx q Hq)|specialize (Hy q Hq)]; lia.
    + intros _. exists s', xs, ys. split_and!; try done; apply L1.
Qed.

(** Fact (functional): [find_vma] returns the first area that ends after the address, NULL when
    there is none. *)
Theorem find_vma_correct (s : vmstate) (vs : list Z) (addr : Z) : areas_ok s vs ->
  exists r xs ys, find_vma addr s = Ret r s /\ vs = xs ++ ys
    /\ (forall q, q ∈ xs -> vend s q <= addr) /\ (forall q, q ∈ ys -> addr < vend s q) /\ fst (fst r) = head ys.
Proof. apply find_vma_ok. Qed.

(** Fact (functional): splitting an area strictly inside its range leaves the two halves, with the
    name, backing and permissions of the whole, side by side in the order of the areas. *)
Theorem split_vma_correct (kmalloc_addr : vmstate -> option Z) (s : vmstate) (xs ys : list Z) (p r : Z) (v : vma) (addr : Z) :
  areas_ok s (xs ++ p :: ys) -> vmas s !! p = Some v -> vm_base v < addr < vm_end v ->
  kmalloc_addr s = Some r -> vmas s !! r = None ->
  exists s', split_vma kmalloc_addr p addr s = Ret (Some r) s' /\ areas_ok s' (xs ++ p :: r :: ys)
    /\ vmas s' = <[p := mk_vma (vm_name v) (vm_base v) addr (vm_src v) (u64 (addr - vm_base v)) (vm_flags v)]>
                 (<[r := mk_vma (vm_name v) addr (vm_end v) (vm_src v) (u64 (vm_end v - addr)) (vm_flags v)]> (vmas s))
    /\ pmem s' = pmem s.
Proof. apply split_vma_ok. Qed.

(** Fact (safety): [check_user_vma_range] accepts a range only if every address of it lies in an
    area that has all the permissions asked for, and accepts every such range when no area is
    empty. *)
Theorem check_user_vma_range_correct (s : vmstate) (vs : list Z) (base size flags : Z) :
  areas_ok s vs -> 0 <= base -> 0 < size -> base + size < 2 ^ 64 ->
  exists r, check_user_vma_range base size flags s = Ret r s /\ (fst r = 0 \/ fst r = -1)
    /\ (fst r = 0 -> covered s flags (base + size) vs base)
    /\ ((forall q, q ∈ vs -> vbase s q < vend s q) -> covered s flags (base + size) vs base -> fst r = 0).
Proof. apply check_range_ok. Qed.

Lemma area_at s vs addr : areas_ok s vs ->
  (exists p v r, p ∈ vs /\ vmas s !! p = Some v /\ vm_base v <= addr < vm_end v /\ find_vma addr s = Ret r s /\ fst (fst r) = Some p)
  \/ ((forall p, p ∈ vs -> ~ vbase s p <= addr < vend s p) /\ exists r xs ys, find_vma addr s = Ret r s /\ fst (fst r) = head ys
      /\ vs = xs ++ ys /\ (forall q, q ∈ xs -> vend s q <= addr) /\ (forall q, q ∈ ys -> addr < vbase s q)).
Proof.
  intros Hok. destruct (find_vma_ok s vs addr Hok) as (r & xs & ys & Ef & -> & Hx & Hy & Hr).
  pose proof (ar_order _ _ Hok) as O. destruct ys as [|p ys].
  - right. split; [intros p Hp ?; rewrite app_nil_r in Hp; specialize (Hx p Hp); lia|].
    exists r, xs, []. split_and!; try done. set_solver.
  - destruct (or_in _ _ O p) as (v & Hv & Hbe); [set_solver|]. pose proof (ordered_split _ _ _ _ O) as [Hpx Hpy].
    specialize (Hy p ltac:(set_solver)). rewrite (vbase_eq _ _ _ Hv) in Hpx. rewrite (vend_eq _ _ _ Hv) in Hpy, Hy.
    destruct (decide (vm_base v <= addr)).
    + left. exists p, v, r. split_and!; try done; try lia. set_solver.
    + right. assert (forall q, q ∈ p :: ys -> addr < vbase s q) as Hall.
      { intros q [-> |Hq]%elem_of_cons; [rewrite (vbase_eq _ _ _ Hv); lia|]. specialize (Hpy q Hq). lia. }
      split.
      * intros q [Hq|Hq]%elem_of_app ?; [specialize (Hx q Hq)|specialize (Hall q Hq)]; lia.
      * by exists r, xs, (p :: ys).
Qed.

Lemma task_find_ok s vs addr : areas_ok s vs ->
  (exists p v, p ∈ vs /\ vmas s !! p = Some v /\ vm_base v <= addr < vm_end v /\ task_find_vma addr s = Ret (Some p) s)
  \/ ((forall p, p ∈ vs -> ~ vbase s p <= addr < vend s p) /\ task_find_vma addr s = Ret None s).
Proof.
  intros Hok. destruct (area_at s vs addr Hok) as [(p & v & r & Hp & Hv & Ha & Ef & Er)|(Hn & r & xs & ys & Ef & Er & -> & _ & Hy)].
  - left. exists p, v. split_and!; try done; try lia. unfold task_find_vma. rewrite (krun _ _ _ _ _ Ef), Er.
    rewrite (krun _ _ _ _ _ (get_vma_ok _ _ _ Hv)). by assert (addr <? vm_base v = false) as -> by lia.
  - right. split; [done|]. unfold task_find_vma. rewrite (krun _ _ _ _ _ Ef), Er. destruct ys as [|p ys]; [done|]. simpl.
    destruct (or_in _ _ (ar_order _ _ Hok) p) as (v & Hv & _); [set_solver|]. specialize (Hy p ltac:(set_solver)).
    rewrite (vbase_eq _ _ _ Hv) in Hy. rewrite (krun _ _ _ _ _ (get_vma_ok _ _ _ Hv)). by assert (addr <? vm_base v = true) as -> by lia.
Qed.

(** The access a fault asks for is allowed by the area. *)
Definition allows (flags : Z) (v : vma) : bool :=
  negb (flag flags PROT_WRITE && negb (flag (vm_flags v) PROT_WRITE))
  && negb (flag flags PROT_EXEC && negb (flag (vm_flags v) PROT_EXEC)) && flag (vm_flags v) PROT_READ.


Lemma list_tail_spec (h : gmap (option Z) (list_node (option Z))) hd xs : dlist h hd xs -> list_tail h hd = Some (last xs).
Proof.
  intros D. destruct (dlist_nodup _ _ _ D) as [_ Hhd]. rewrite <- (app_nil_r xs) in D.
  destruct (dlist_position _ _ _ _ D) as (_ & Ep & _). simpl in Ep. unfold list_tail. rewrite Ep. simpl.
  destruct (last xs) as [x|] eqn:El; simpl; [|by rewrite decide_True].
  rewrite decide_False; [done|]. intros ->. apply Hhd. by apply last_Some_elem_of.
Qed.

(** Fact (functional): [sys_mquery] at an address outside the areas describes the free gap around
    it: it starts at 0 or at the end of an area, ends at USER_LIM or at the base of an area, contains
    the address and meets no area. *)
Theorem sys_mquery_gap (task_destroy : K vmstate unit) (tp : Z) (s : vmstate) (vs : list Z) (info addr : Z) :
  areas_ok s vs -> check_user_vma_range info sizeof_vma_info PROT_WRITE s = Ret (0, None) s ->
  0 <= addr < USER_LIM -> (forall p, p ∈ vs -> ~ vbase s p <= addr < vend s p) ->
  exists lo hi, sys_mquery task_destroy tp info addr s = Ret (0, Some (mk_info "" lo hi 0 VMA_FREE VM_UNMAPPED)) s
    /\ lo <= addr < hi /\ (forall q, q ∈ vs -> vend s q <= lo \/ hi <= vbase s q)
    /\ (lo = 0 \/ exists q, q ∈ vs /\ lo = vend s q) /\ (hi = USER_LIM \/ exists q, q ∈ vs /\ hi = vbase s q).
Proof.
  intros Hok Hc Ha Hn. destruct (area_at s vs addr Hok) as [(p & v & r & Hp & Hv & Hr & _)|(_ & r & xs & ys & Ef & Er & -> & Hx & Hy)].
  { exfalso. apply (Hn p Hp). by rewrite (vbase_eq _ _ _ Hv), (vend_eq _ _ _ Hv). }
  assert (forall K1, (assert_user_mem task_destroy info sizeof_vma_info PROT_WRITE;;; K1) s = K1 s :> outcome vmstate (Z * option vma_info)) as Hassert.
  { intros K1. unfold assert_user_mem, kbind. by rewrite Hc. }
  unfold sys_mquery. rewrite Hassert. assert (addr >=? USER_LIM = false) as -> by lia. rewrite (krun _ _ _ _ _ Ef), Er.
  assert (Hlast : forall q, q ∈ xs -> vend s q <= default 0 (vend s <$> last xs)).
  { intros q Hq. destruct (last xs) as [z|] eqn:El; [|by apply last_None in El; subst; set_solver]. simpl.
    apply last_Some in El as (xs' & ->). apply elem_of_app in Hq as [Hq| ->%list_elem_of_singleton]; [|lia].
    pose proof (ar_order _ _ Hok) as O. rewrite <- app_assoc in O. pose proof (proj1 (ordered_split _ _ _ _ O) q Hq).
    pose proof (ordered_range _ _ z O ltac:(set_solver)). lia. }
  set (lo := default 0 (vend s <$> last xs)) in *.
  assert (lo <= addr /\ (lo = 0 \/ exists q, q ∈ xs ++ ys /\ lo = vend s q)) as [Hlo1 Hlo2].
  { unfold lo. destruct (last xs) as [z|] eqn:El; simpl; [|split; [lia|by left]]. apply last_Some_elem_of in El.
    split; [by apply Hx|]. right. exists z. split; [set_solver|done]. }
  assert (forall K1 : option (option Z) -> K vmstate (Z * option vma_info), forall d, (match option_map Some (last xs) with
     | Some (Some q) => v <-- get_vma q;; kret (0, Some (mk_info "" (vm_end v) d 0 VMA_FREE VM_UNMAPPED))
     | _ => kret (0, Some (mk_info "" 0 d 0 VMA_FREE VM_UNMAPPED)) end) s = Ret (0, Some (mk_info "" lo d 0 VMA_FREE VM_UNMAPPED)) s) as Hinfo.
  { intros _ d. unfold lo. destruct (last xs) as [z|] eqn:El; [|done]. simpl. apply last_Some_elem_of in El.
    destruct (or_in _ _ (ar_order _ _ Hok) z) as (v & Hv & _); [set_solver|]. rewrite (krun _ _ _ _ _ (get_vma_ok _ _ _ Hv)).
    by rewrite (vend_eq _ _ _ Hv). }
  destruct ys as [|p ys]; simpl.
  - exists lo, USER_LIM. rewrite app_nil_r in *. split; [|split; [lia|split; [|split; [done|by left]]]].
    + assert (mmap_get (fun h => list_tail h None) s = Ret (option_map Some (last xs)) s) as Et.
      { unfold mmap_get, kderef. rewrite (list_tail_spec _ _ _ (ar_list _ _ Hok)), fmap_last. done. }
      rewrite (krun _ _ _ _ _ Et). apply (Hinfo (fun _ => kfault)).
    + intros q Hq. left. by apply Hlast.
  - destruct (or_in _ _ (ar_order _ _ Hok) p) as (v & Hv & _); [set_solver|].
    pose proof (Hy p ltac:(set_solver)) as Hyp. exists lo, (vbase s p). split; [|split; [lia|split; [|split; [done|]]]].
    + rewrite (krun _ _ _ _ _ (get_vma_ok _ _ _ Hv)). rewrite (vbase_eq _ _ _ Hv) in Hyp |- *.
      assert (addr <? vm_base v = true) as -> by lia.
      assert (mmap_get (fun h => list_prev h None (Some p)) s = Ret (option_map Some (last xs)) s) as Et.
      { unfold mmap_get, kderef. pose proof (ar_list _ _ Hok) as D. rewrite fmap_app, fmap_cons in D.
        by rewrite (list_prev_spec _ _ _ _ _ D), fmap_last. }
      rewrite (krun _ _ _ _ _ Et). apply (Hinfo (fun _ => kfault)).
    + intros q [Hq|[-> |Hq]%elem_of_cons]%elem_of_app; [left; by apply Hlast|right; lia|right].
      pose proof (proj2 (ordered_split _ _ _ _ (ar_order _ _ Hok)) q Hq).
      pose proof (ordered_range _ _ p (ar_order _ _ Hok) ltac:(set_solver)). lia.
    + right. exists p. split; [set_solver|done].
Qed.

(** The requests that are refused at once. *)
Ltac refuse := repeat match goal with |- preserves (if ?b then kret _ else _) => destruct b eqn:?; [apply pr_ret|] end.

Section Syscalls.
Context `{typing} (cfg : config) (cpu : Z) (oom : K mstate unit) (kmalloc_addr : vmstate -> option Z) (tp : Z).

Lemma aligned_typed addr len a e n : aligned_range addr len = (a, e, n) -> whole a /\ whole n.
Proof. intros Er. injection Er as <- <- <-. split; [apply ty_down|]. apply ty_sub; [apply ty_up|apply ty_down]. Qed.

(** All system calls on areas, and the page fault handler, respect a typing. *)
Definition syscalls_preserve : Prop :=
  (forall fuel addr len prot flags fd offset, preserves (sys_mmap cfg cpu oom kmalloc_addr tp fuel addr len prot flags fd offset))
  /\ (forall addr len, preserves (sys_munmap cfg cpu oom kmalloc_addr tp addr len))
  /\ (forall addr len prot, preserves (sys_mprotect cfg cpu oom kmalloc_addr tp addr len prot))
  /\ (forall addr len advise, preserves (sys_madvise cfg cpu oom kmalloc_addr tp addr len advise))
  /\ (forall va flags, preserves (task_page_fault_handler cfg cpu oom tp va flags)).

Lemma syscalls_ok : syscalls_preserve.
Proof.
  split_and!.
  - intros. unfold sys_mmap. destruct (aligned_range addr len) as [[a e] n] eqn:Er. destruct (aligned_typed _ _ _ _ _ Er) as [Ha Hn].
    refuse. assert (allowed prot) as Hok by (apply ty_prot; unfold prot_ok; by repeat match goal with H : _ = false |- _ => rewrite H; clear H end).
    apply pr_bind; [destruct (flag flags MAP_FIXED); [apply pr_bind; [by apply pr_remove_vma_range|intros; apply pr_ret]|apply pr_ret]|intros _].
    apply pr_bind; [by apply pr_add_vma|]. intros [p|]; [|apply pr_ret]. apply pr_get_vma. intros v _.
    destruct (flag flags MAP_POPULATE); [|apply pr_ret]. apply pr_bind; [apply pr_populate_vma_range|]. intros r.
    destruct (r <? 0); [|apply pr_get_vma; intros; apply pr_ret]. apply pr_bind; [apply pr_remove_vma|intros _].
    apply pr_bind; [apply pr_vma_free|intros _; apply pr_ret].
  - intros. unfold sys_munmap. apply pr_bind; [apply pr_remove_vma_range; [apply ty_down|apply ty_sub; apply ty_down]|intros; apply pr_ret].
  - intros. unfold sys_mprotect. destruct (aligned_range addr len) as [[a e] n] eqn:Er. destruct (aligned_typed _ _ _ _ _ Er) as [Ha Hn].
    refuse. assert (allowed prot) as Hok by (apply ty_prot; unfold prot_ok; by repeat match goal with H : _ = false |- _ => rewrite H; clear H end). apply pr_bind; [by apply pr_protect_vma_range|intros; apply pr_ret].
  - intros. unfold sys_madvise. destruct (aligned_range addr len) as [[a e] n] eqn:Er. destruct (aligned_typed _ _ _ _ _ Er) as [Ha Hn]. refuse.
    apply pr_bind; [apply pr_task_find_vma|]. intros v. destruct (_ =? _).
    + destruct v; [|apply pr_fault]. apply pr_get_vma. intros; apply pr_populate_vma_range.
    + destruct (_ =? _); [by apply pr_unmap_vma_range|apply pr_ret].
  - intros. unfold task_page_fault_handler. apply pr_bind; [apply pr_task_find_vma|]. intros [p|]; [|apply pr_ret].
    apply pr_get_vma. intros v _. refuse. apply pr_populate_vma_range.
Qed.
End Syscalls.

(** Areas that are not both writable and executable. *)
Program Definition wx_typing : typing := {|
  good v := wx_flags (vm_flags v) = false;
  whole _ := True;
  allowed f := wx_flags f = false
|}.
Solve Obligations with done.
Next Obligation. intros f. unfold prot_ok, wx_flags. by destruct (_ && flag f PROT_EXEC). Qed.

(** C24 (invariant): no system call, nor the page fault handler, ever makes an area writable and
    executable: if none is before, none is after; and [sys_mmap] and [sys_mprotect] refuse a request
    for both at once without changing anything. *)
Theorem wx_invariant (cfg : config) (cpu : Z) (oom : K mstate unit) (kmalloc_addr : vmstate -> option Z) (tp : Z) :
  @syscalls_preserve wx_typing cfg cpu oom kmalloc_addr tp
  /\ (forall s fuel addr len prot flags fd offset, wx_flags prot = true ->
        sys_mmap cfg cpu oom kmalloc_addr tp fuel addr len prot flags fd offset s = Ret MAP_FAILED s
        /\ exists e, e < 0 /\ sys_mprotect cfg cpu oom kmalloc_addr tp addr len prot s = Ret e s).
Proof.
  split; [apply syscalls_ok|].
  intros s fuel addr len prot flags fd offset Hwx. unfold wx_flags in Hwx. unfold sys_mmap, sys_mprotect.
  destruct (aligned_range addr len) as [[a e] n]. rewrite Hwx. apply andb_true_iff in Hwx as [Hw Hx]. rewrite Hw, Hx. split.
- destruct (flag flags MAP_FIXED && _); [done|]. by destruct (negb (flag flags MAP_ANONYMOUS) || _).
- destruct (len =? 0); [by exists (- E_INVAL)|]. destruct (negb (_ =? _)); [by exists (- E_INVAL)|].
    destruct (flag prot PROT_READ); cbn [negb andb]; [by exists (- E_INVAL)|by exists (- E_FAULT)].
Qed.

(** Areas of whole pages, in 64 bits, with a protection that the processor can enforce. *)
Definition whole_pages (a : Z) : Prop := 0 <= a < 2 ^ 64 /\ a mod PAGE_SIZE = 0.
Record area_typed (v : vma) : Prop := {
  at_base : whole_pages (vm_base v);
  at_end : whole_pages (vm_end v);
  at_len : 0 <= vm_len v < 2 ^ 64;
  at_prot : prot_ok (vm_flags v) = true
}.

Lemma whole_u64 a : a mod PAGE_SIZE = 0 -> whole_pages (u64 a).
Proof.
  intros Ha. split; [apply Z.mod_pos_bound; lia|]. unfold u64. change (2 ^ 64) with (PAGE_SIZE * 2 ^ 52).
  rewrite Z.rem_mul_r, Ha by done. rewrite Z.add_0_l, Z.mul_comm. by apply Z.mod_mul.
Qed.
Lemma whole_add a b : whole_pages a -> whole_pages b -> whole_pages (u64 (a + b)).
Proof. intros [_ Ha] [_ Hb]. apply whole_u64. by rewrite Z.add_mod, Ha, Hb by done. Qed.
Lemma whole_sub a b : whole_pages a -> whole_pages b -> whole_pages (u64 (a - b)).
Proof. intros [_ Ha] [_ Hb]. apply whole_u64. by rewrite Zminus_mod, Ha, Hb. Qed.
Lemma whole_down a : whole_pages (ROUNDDOWN a PAGE_SIZE).
Proof. apply whole_u64. rewrite Zminus_mod, Z.mod_mod, Z.sub_diag by done. done. Qed.
Lemma whole_mask a : whole_pages (Z.land (u64 a) (not64 (PAGE_SIZE - 1))).
Proof.
  pose proof (u64_range a) as Ha. change (not64 (PAGE_SIZE - 1)) with (2 ^ (12 + 52) - 2 ^ 12).
  assert (0 <= u64 a / 2 ^ 12 < 2 ^ 52) by (split; [apply Z.div_pos; lia|apply Z.div_lt_upper_bound; lia]).
  pose proof (Z.mod_pos_bound (u64 a) (2 ^ 12) ltac:(lia)).
  rewrite (Z.div_mod (u64 a) (2 ^ 12)), (Z.mul_comm (2 ^ 12)) by done. rewrite (land_high_mask _ _ 12 52) by lia.
  split; [lia|]. by apply Z.mod_mul.
Qed.

Program Definition page_typing : typing := {|
  good := area_typed;
  whole := whole_pages;
  allowed f := prot_ok f = true
|}.
Next Obligation. intros. split; cbn; [done|by apply whole_add|lia|done]. Qed.
Next Obligation. intros v addr [Hb He Hl Hp] Ha. split; cbn; [done|done|apply u64_range|done]. Qed.
Next Obligation. intros v addr [Hb He Hl Hp] Ha. by split. Qed.
Next Obligation. intros v w [Hb He Hl Hp] [_ Hw _ _]. by split. Qed.
Next Obligation. intros v x [Hb He Hl Hp]. split; cbn; [done|done|apply u64_range|done]. Qed.
Next Obligation. intros v f [Hb He Hl Hp] Hf. by split. Qed.
Next Obligation. exact whole_add. Qed.
Next Obligation. exact whole_sub. Qed.
Next Obligation. exact whole_mask. Qed.
Next Obligation. exact whole_down. Qed.
Next Obligation. intros. apply whole_down. Qed.
Next Obligation. done. Qed.
Next Obligation. done. Qed.

(** C25 (type): the memory areas of a task stay well typed: every area is a number of whole pages with addresses
    and a length of 64 bits, and its protection is none, readable, readable and writable, or readable and
    executable.  Every system call on areas, with any arguments, and the page fault handler keep it so, also when
    they fail half way. *)
Theorem areas_well_typed (cfg : config) (cpu : Z) (oom : K mstate unit) (kmalloc_addr : vmstate -> option Z) (tp : Z) :
  @syscalls_preserve page_typing cfg cpu oom kmalloc_addr tp.
Proof. apply syscalls_ok. Qed.

(** Fact (error): [sys_madvise] with MADV_WILLNEED at an address outside every area dereferences a
    NULL area in the kernel: the error of the range check is computed but not returned. *)
Theorem sys_madvise_faults (cfg : config) (cpu : Z) (oom : K mstate unit) (kmalloc_addr : vmstate -> option Z) (tp : Z)
  (s : vmstate) (vs : list Z) (addr len : Z) :
  areas_ok s vs -> ROUNDUP (u64 (addr + len)) PAGE_SIZE < USER_LIM -> (forall p, p ∈ vs -> ~ vbase s p <= addr < vend s p) ->
  sys_madvise cfg cpu oom kmalloc_addr tp addr len MADV_WILLNEED s = Fault.
Proof.
  intros Hok Hl Hn. unfold sys_madvise, aligned_range. assert (ROUNDUP (u64 (addr + len)) PAGE_SIZE >=? USER_LIM = false) as -> by lia.
  destruct (task_find_ok s vs addr Hok) as [(p & v & Hp & Hv & Ha & _)|(_ & E1)].
  - exfalso. apply (Hn p Hp). by rewrite (vbase_eq _ _ _ Hv), (vend_eq _ _ _ Hv).
  - by rewrite (krun _ _ _ _ _ E1).
Qed.

(** A failed attempt leaves the areas as they are, and leaks the new one. *)
Lemma add_inside kmalloc_addr s vs p name addr flags : areas_ok s vs -> (forall s r, kmalloc_addr s = Some r -> vmas s !! r = None) ->
  p ∈ vs -> vbase s p < addr < vend s p -> 0 <= addr < 2 ^ 64 ->
  add_executable_vma kmalloc_addr name addr 0 flags None 0 s = Fault
  \/ exists s', add_executable_vma kmalloc_addr name addr 0 flags None 0 s = Ret None s' /\ areas_ok s' vs /\ vbase s' p < addr < vend s' p.
Proof.
  intros Hok Hfresh Hp Ha Hu. unfold add_executable_vma. rewrite Z.add_0_r, u64_id by done.
  destruct (kmalloc_addr s) as [r|] eqn:Ek.
  - right. set (v := mk_vma name addr addr None 0 flags).
    destruct (vma_alloc_ok kmalloc_addr s vs v r Hok Ek (Hfresh _ _ Ek)) as (s1 & E1 & O1 & U1 & Hr & Ev & _).
    rewrite (krun _ _ _ _ _ E1). assert (p <> r) as Hpr by (intros ->; done).
    assert (vbase s1 p = vbase s p /\ vend s1 p = vend s p) as [Eb Ee] by (unfold vbase, vend; rewrite Ev, lookup_insert_ne by done; done).
    exists s1. split; [|split; [done|lia]].
    destruct (insert_vma_ok s1 vs r v O1 U1 Hr) as [(q & _ & _ & E2)|(s' & xs & ys & -> & _ & _ & _ & Hx & Hy)]; [simpl; lia| |].
    + by rewrite (krun _ _ _ _ _ E2).
    + exfalso. simpl in Hx, Hy. apply elem_of_app in Hp as [Hp|Hp]; [specialize (Hx p Hp)|specialize (Hy p Hp)]; lia.
  - left. unfold vma_alloc, kbind. by rewrite Ek.
Qed.

(** C30 (liveness): [add_vma], and so [sys_mmap], never returns for a length of 0 at an address
    inside an area: the step of the search is 0.  However long it runs, it is still searching, or
    the leaked areas have exhausted the memory and freeing NULL has faulted. *)
Theorem add_vma_zero_never_returns (kmalloc_addr : vmstate -> option Z) (s : vmstate) (vs : list Z) (p : Z) (fuel : nat)
  (name : string) (addr flags : Z) :
  areas_ok s vs -> (forall s r, kmalloc_addr s = Some r -> vmas s !! r = None) ->
  p ∈ vs -> vbase s p < addr < vend s p -> PAGE_SIZE <= addr < 2 ^ 64 ->
  add_vma kmalloc_addr fuel name addr 0 flags s = Hang \/ add_vma kmalloc_addr fuel name addr 0 flags s = Fault.
Proof.
  intros Hok Hfresh Hp Ha Hu. unfold PAGE_SIZE in Hu.
  assert (forall fuel s, areas_ok s vs -> vbase s p < addr < vend s p ->
    add_below kmalloc_addr fuel (fun base => base >=? PAGE_SIZE) name addr 0 flags s = Hang
    \/ add_below kmalloc_addr fuel (fun base => base >=? PAGE_SIZE) name addr 0 flags s = Fault) as Hloop.
  { clear s Hok Ha. intros f. induction f as [|f IH]; intros s Hok Ha; [by left|]. cbn [add_below].
    assert (addr >=? PAGE_SIZE = true) as -> by (unfold PAGE_SIZE; lia).
    destruct (add_inside kmalloc_addr s vs p name addr flags Hok Hfresh Hp Ha) as [E1|(s' & E1 & O1 & A1)]; [lia| |].
    - right. unfold kbind. by rewrite E1.
    - rewrite !(krun _ _ _ _ _ E1). rewrite Z.sub_0_r, u64_id by lia. by apply IH. }
  unfold add_vma. replace (Z.land (u64 (u64 (0 + PAGE_SIZE) - 1)) (not64 (PAGE_SIZE - 1))) with 0 by reflexivity.
  assert (addr =? 0 = false) as -> by lia. cbn [negb].
  destruct (add_inside kmalloc_addr s vs p name addr flags Hok Hfresh Hp Ha) as [E1|(s' & E1 & O1 & A1)]; [lia| |].
  - right. unfold kbind. by rewrite E1.
  - rewrite !(krun _ _ _ _ _ E1). destruct (Hloop fuel s' O1 A1) as [E2|E2]; unfold kbind; rewrite E2; [by left|by right].
Qed.

(** ** Witnesses *)

(** Two areas: [0x1000, 0x3000), readable and writable, and [0x5000, 0x6000), readable. *)
Definition demo_area1 : vma := mk_vma "user" 0x1000 0x3000 None 0 3.
Definition demo_area2 : vma := mk_vma "user" 0x5000 0x6000 None 0 1.
Definition demo_area3 : vma := mk_vma "user" 0x3000 0x4000 None 0 1.
Definition demo_pmem : mstate :=
  mk_mstate ∅ 0 ∅ ∅ (Spinlock.Spinlock.static_lock "buddy_lock") (Spinlock.Spinlock.static_lock "active_pages_lock") 0 None 0 [].
Definition demo_vmas : vmstate := mk_vm
  (list_to_map [(1, demo_area1); (2, demo_area2); (3, demo_area3)])
  (mk_tree (list_to_map [(1, mk_rb None None (Some 2) RB_BLACK); (2, mk_rb (Some 1) None None RB_RED); (3, rb_node_init)]) (Some 1))
  (list_to_map [(None, mk_node (Some 1) (Some 2)); (Some 1, mk_node (Some 2) None); (Some 2, mk_node None (Some 1)); (Some 3, mk_node (Some 3) (Some 3))])
  demo_pmem [].
Definition demo_kmalloc (s : vmstate) : option Z := match vmas s !! 4 with None => Some 4 | Some _ => None end.

Lemma demo_areas : areas_ok demo_vmas [1; 2].
Proof.
  constructor.
  - exists (T RB_BLACK E 1 (T RB_RED E 2 E)). split; [|split; [done|]].
    + constructor; [vm_compute; repeat split..|]. simpl. repeat (apply NoDup_cons; split; [set_solver|]). by apply NoDup_nil.
    + constructor; [done|vm_compute; repeat split; try discriminate|exists 1%nat; vm_compute; repeat split].
  - split; [|vm_compute; repeat split]. simpl. repeat (apply NoDup_cons; split; [set_solver|]). by apply NoDup_nil.
  - split.
    + intros p Hp. apply elem_of_cons in Hp as [-> |Hp]; [exists demo_area1; split; [reflexivity|vm_compute; discriminate]|].
      apply elem_of_cons in Hp as [-> |Hp]; [exists demo_area2; split; [reflexivity|vm_compute; discriminate]|set_solver].
    + constructor; [constructor; [constructor|apply Forall_nil; exact I]|]. apply Forall_cons. split; [vm_compute; discriminate|apply Forall_nil; exact I].
Qed.

Lemma demo_outside a : 0x3000 <= a < 0x5000 -> forall p, p ∈ [1; 2] -> ~ vbase demo_vmas p <= a < vend demo_vmas p.
Proof.
  intros Ha p Hp. apply elem_of_cons in Hp as [-> |Hp]; [change (~ 0x1000 <= a < 0x3000); lia|].
  apply elem_of_cons in Hp as [-> |Hp]; [change (~ 0x5000 <= a < 0x6000); lia|set_solver].
Qed.

Lemma insert_vma_correct_witness : exists s', insert_vma 3 demo_vmas = Ret 0 s' /\ exists vs, areas_ok s' vs.
Proof.
  destruct (insert_vma_correct demo_vmas [1; 2] 3 demo_area3 demo_areas) as [_ H].
  - constructor; [reflexivity|reflexivity|eexists; reflexivity].
  - set_solver.
  - vm_compute. discriminate.
  - destruct H as (s' & xs & ys & _ & E1 & O1 & _).
    + intros (q & Hq & Ho). apply elem_of_cons in Hq as [-> |Hq].
      * destruct Ho as [Ho _]. vm_compute in Ho. discriminate Ho.
      * apply elem_of_cons in Hq as [-> |Hq]; [|set_solver]. destruct Ho as [_ Ho]. vm_compute in Ho. discriminate Ho.
    + exists s'. split; [exact E1|exists (xs ++ 3 :: ys); exact O1].
Defined.

Lemma find_vma_correct_witness : exists r, find_vma 0x4000 demo_vmas = Ret r demo_vmas /\ exists ys, fst (fst r) = head ys.
Proof. destruct (find_vma_correct demo_vmas [1; 2] 0x4000 demo_areas) as (r & xs & ys & E1 & _ & _ & _ & Er). exists r. split; [exact E1|by exists ys]. Defined.

Lemma split_vma_correct_witness : exists s', split_vma demo_kmalloc 1 0x2000 demo_vmas = Ret (Some 4) s' /\ areas_ok s' [1; 4; 2].
Proof.
  destruct (split_vma_correct demo_kmalloc demo_vmas [] [2] 1 4 demo_area1 0x2000 demo_areas) as (s' & E1 & O1 & _).
  - reflexivity.
  - split; reflexivity.
  - reflexivity.
  - reflexivity.
  - exists s'. exact (conj E1 O1).
Defined.

Lemma check_user_vma_range_correct_witness : exists r, check_user_vma_range 0x1000 0x10 PROT_READ demo_vmas = Ret r demo_vmas.
Proof.
  destruct (check_user_vma_range_correct demo_vmas [1; 2] 0x1000 0x10 PROT_READ demo_areas) as (r & E1 & _).
  - discriminate.
  - reflexivity.
  - reflexivity.
  - by exists r.
Defined.


Lemma sys_mquery_gap_witness : exists lo hi,
  sys_mquery (kret tt) 0 0x1000 0x4000 demo_vmas = Ret (0, Some (mk_info "" lo hi 0 VMA_FREE VM_UNMAPPED)) demo_vmas /\ lo <= 0x4000 < hi.
Proof.
  destruct (sys_mquery_gap (kret tt) 0 demo_vmas [1; 2] 0x1000 0x4000 demo_areas) as (lo & hi & E1 & Hr & _).
  - vm_compute. reflexivity.
  - vm_compute. split; [discriminate|reflexivity].
  - apply demo_outside. lia.
  - exists lo, hi. exact (conj E1 Hr).
Defined.

Lemma sys_madvise_faults_witness : sys_madvise default_config 0 (kret tt) demo_kmalloc 0 0x4000 0x100 MADV_WILLNEED demo_vmas = Fault.
Proof.
  apply (sys_madvise_faults default_config 0 (kret tt) demo_kmalloc 0 demo_vmas [1; 2] 0x4000 0x100 demo_areas).
  - vm_compute. reflexivity.
  - apply demo_outside. lia.
Defined.

Lemma add_vma_zero_never_returns_witness :
  add_vma demo_kmalloc 1000 "user" 0x2000 0 PROT_READ demo_vmas = Hang \/ add_vma demo_kmalloc 1000 "user" 0x2000 0 PROT_READ demo_vmas = Fault.
Proof.
  apply (add_vma_zero_never_returns demo_kmalloc demo_vmas [1; 2] 1 1000 "user" 0x2000 PROT_READ demo_areas).
  - intros s r. unfold demo_kmalloc. destruct (vmas s !! 4) eqn:E1; [discriminate|]. intros [= <-]. exact E1.
  - set_solver.
  - split; reflexivity.
  - split; [discriminate|reflexivity].
Defined.

(** An allocator that hands out the addresses in order. *)
Definition counting_kmalloc (s : vmstate) : option Z := Some (Z.of_nat (size (vmas s)) + 1).

(** A hint that is taken: the search downwards wraps below address 0, and the new area is placed at
    the top of the kernel's half of the address space. *)
Lemma mmap_hint_wraps : is_ret (sys_mmap default_config 0 (kret tt) counting_kmalloc 0 10 0x1000 0x3000 PROT_READ (Z.lor MAP_PRIVATE MAP_ANONYMOUS) 0 0 demo_vmas) = true
  /\ forall a s', sys_mmap default_config 0 (kret tt) counting_kmalloc 0 10 0x1000 0x3000 PROT_READ (Z.lor MAP_PRIVATE MAP_ANONYMOUS) 0 0 demo_vmas = Ret a s' ->
     a = 2 ^ 64 - 0x2000.
Proof.
  split; [vm_compute; reflexivity|]. intros a s' E1.
  assert (match sys_mmap default_config 0 (kret tt) counting_kmalloc 0 10 0x1000 0x3000 PROT_READ (Z.lor MAP_PRIVATE MAP_ANONYMOUS) 0 0 demo_vmas with
          | Ret a _ => a =? 2 ^ 64 - 0x2000 | _ => false end = true) as H by (vm_compute; reflexivity).
  rewrite E1 in H. by apply Z.eqb_eq.
Qed.
