(* ===== verification/Task.v ===== *)
(** * Task structures (include/task.h, include/cpu.h; kernel/sched/task.c)

    What the process code works on, as one CPU sees it: the task structures, the PID
    map, the lists that link tasks, the areas of each task with the shared memory of
    the machine, and the local APIC.  The memory operations of Ptbl.v and Vma.v run on
    their part of this state through [on_mem] and [on_space].

    An address space is named by the frame of its PML4, a task by the address of its
    structure.  Structures come from a slab, whose free objects are cleared. *)

From Stdlib Require Import ZArith Lia.
From stdpp Require Import strings base gmap fin_maps list.
From S2P Require Import Prelude ListHeap Spinlock RbTree MemState Buddy Vma.
Import Spinlock.

#[local] Open Scope Z_scope.
#[local] Open Scope kernel_scope.

(** include/task.h *)
Inductive status := TASK_DYING | TASK_RUNNABLE | TASK_RUNNING | TASK_NOT_RUNNABLE.
Inductive kind := TASK_TYPE_USER | TASK_TYPE_KERNEL.
#[global] Instance status_eq_dec : EqDecision status.
Proof. solve_decision. Defined.
#[global] Instance kind_eq_dec : EqDecision kind.
Proof. solve_decision. Defined.
Definition TIMESLICE : Z := 100000000.
Definition pid_max : Z := Z.shiftl 1 16.
Definition E_CHILD : Z := 2.
Definition E_NOSYS : Z := 7.

(** [struct int_frame]: the registers saved at an interrupt. *)
Record int_frame := mk_frame {
  ds : Z; r15 : Z; r14 : Z; r13 : Z; r12 : Z; r11 : Z;
  r10 : Z; r9 : Z; r8 : Z; rdi : Z; rsi : Z; rbp : Z;
  rbx : Z; rdx : Z; rcx : Z; rax : Z; int_no : Z; err_code : Z;
  rip : Z; cs : Z; rflags : Z; rsp : Z; ss : Z
}.
Definition zero_frame : int_frame := mk_frame 0 0 0 0 0 0 0 0 0 0 0 0 0 0 0 0 0 0 0 0 0 0 0.
Definition set_ds x f := mk_frame x (r15 f) (r14 f) (r13 f) (r12 f) (r11 f) (r10 f) (r9 f) (r8 f) (rdi f) (rsi f) (rbp f) (rbx f) (rdx f) (rcx f) (rax f) (int_no f) (err_code f) (rip f) (cs f) (rflags f) (rsp f) (ss f).
Definition set_rdi x f := mk_frame (ds f) (r15 f) (r14 f) (r13 f) (r12 f) (r11 f) (r10 f) (r9 f) (r8 f) x (rsi f) (rbp f) (rbx f) (rdx f) (rcx f) (rax f) (int_no f) (err_code f) (rip f) (cs f) (rflags f) (rsp f) (ss f).
Definition set_rax x f := mk_frame (ds f) (r15 f) (r14 f) (r13 f) (r12 f) (r11 f) (r10 f) (r9 f) (r8 f) (rdi f) (rsi f) (rbp f) (rbx f) (rdx f) (rcx f) x (int_no f) (err_code f) (rip f) (cs f) (rflags f) (rsp f) (ss f).
Definition set_rip x f := mk_frame (ds f) (r15 f) (r14 f) (r13 f) (r12 f) (r11 f) (r10 f) (r9 f) (r8 f) (rdi f) (rsi f) (rbp f) (rbx f) (rdx f) (rcx f) (rax f) (int_no f) (err_code f) x (cs f) (rflags f) (rsp f) (ss f).
Definition set_cs x f := mk_frame (ds f) (r15 f) (r14 f) (r13 f) (r12 f) (r11 f) (r10 f) (r9 f) (r8 f) (rdi f) (rsi f) (rbp f) (rbx f) (rdx f) (rcx f) (rax f) (int_no f) (err_code f) (rip f) x (rflags f) (rsp f) (ss f).
Definition set_rflags x f := mk_frame (ds f) (r15 f) (r14 f) (r13 f) (r12 f) (r11 f) (r10 f) (r9 f) (r8 f) (rdi f) (rsi f) (rbp f) (rbx f) (rdx f) (rcx f) (rax f) (int_no f) (err_code f) (rip f) (cs f) x (rsp f) (ss f).
Definition set_rsp x f := mk_frame (ds f) (r15 f) (r14 f) (r13 f) (r12 f) (r11 f) (r10 f) (r9 f) (r8 f) (rdi f) (rsi f) (rbp f) (rbx f) (rdx f) (rcx f) (rax f) (int_no f) (err_code f) (rip f) (cs f) (rflags f) x (ss f).
Definition set_ss x f := mk_frame (ds f) (r15 f) (r14 f) (r13 f) (r12 f) (r11 f) (r10 f) (r9 f) (r8 f) (rdi f) (rsi f) (rbp f) (rbx f) (rdx f) (rcx f) (rax f) (int_no f) (err_code f) (rip f) (cs f) (rflags f) (rsp f) x.

Record task := mk_task {
  t_pid : Z;
  t_ppid : Z;
  t_type : kind;
  t_status : status;
  t_runs : Z;
  t_exit_status : Z;
  t_cpunum : Z;
  t_wait : option Z;
  t_wait_exit_status : option Z;
  t_budget : Z;
  t_stamp : Z;
  t_frame : int_frame;
  t_pml4 : Z;
  t_rss : Z
}.
(** Cleared memory as a task. *)
Definition blank : task := mk_task 0 0 TASK_TYPE_USER TASK_DYING 0 0 0 None None 0 0 zero_frame 0 0.

Definition set_ids pid ppid t := mk_task pid ppid (t_type t) (t_status t) (t_runs t) (t_exit_status t) (t_cpunum t) (t_wait t) (t_wait_exit_status t) (t_budget t) (t_stamp t) (t_frame t) (t_pml4 t) (t_rss t).
Definition set_status x t := mk_task (t_pid t) (t_ppid t) (t_type t) x (t_runs t) (t_exit_status t) (t_cpunum t) (t_wait t) (t_wait_exit_status t) (t_budget t) (t_stamp t) (t_frame t) (t_pml4 t) (t_rss t).
Definition set_type x t := mk_task (t_pid t) (t_ppid t) x (t_status t) (t_runs t) (t_exit_status t) (t_cpunum t) (t_wait t) (t_wait_exit_status t) (t_budget t) (t_stamp t) (t_frame t) (t_pml4 t) (t_rss t).
Definition set_runs x t := mk_task (t_pid t) (t_ppid t) (t_type t) (t_status t) x (t_exit_status t) (t_cpunum t) (t_wait t) (t_wait_exit_status t) (t_budget t) (t_stamp t) (t_frame t) (t_pml4 t) (t_rss t).
Definition set_exit x t := mk_task (t_pid t) (t_ppid t) (t_type t) (t_status t) (t_runs t) x (t_cpunum t) (t_wait t) (t_wait_exit_status t) (t_budget t) (t_stamp t) (t_frame t) (t_pml4 t) (t_rss t).
Definition set_cpunum x t := mk_task (t_pid t) (t_ppid t) (t_type t) (t_status t) (t_runs t) (t_exit_status t) x (t_wait t) (t_wait_exit_status t) (t_budget t) (t_stamp t) (t_frame t) (t_pml4 t) (t_rss t).
Definition set_wait w x t := mk_task (t_pid t) (t_ppid t) (t_type t) (t_status t) (t_runs t) (t_exit_status t) (t_cpunum t) w x (t_budget t) (t_stamp t) (t_frame t) (t_pml4 t) (t_rss t).
Definition set_time b x t := mk_task (t_pid t) (t_ppid t) (t_type t) (t_status t) (t_runs t) (t_exit_status t) (t_cpunum t) (t_wait t) (t_wait_exit_status t) b x (t_frame t) (t_pml4 t) (t_rss t).
Definition set_frame x t := mk_task (t_pid t) (t_ppid t) (t_type t) (t_status t) (t_runs t) (t_exit_status t) (t_cpunum t) (t_wait t) (t_wait_exit_status t) (t_budget t) (t_stamp t) x (t_pml4 t) (t_rss t).
Definition set_pml4 x t := mk_task (t_pid t) (t_ppid t) (t_type t) (t_status t) (t_runs t) (t_exit_status t) (t_cpunum t) (t_wait t) (t_wait_exit_status t) (t_budget t) (t_stamp t) (t_frame t) x (t_rss t).
Definition set_rss x t := mk_task (t_pid t) (t_ppid t) (t_type t) (t_status t) (t_runs t) (t_exit_status t) (t_cpunum t) (t_wait t) (t_wait_exit_status t) (t_budget t) (t_stamp t) (t_frame t) (t_pml4 t) x.
Definition t_rax (t : task) : Z := rax (t_frame t).
Definition set_t_rax (x : Z) (t : task) : task := set_frame (set_rax x (t_frame t)) t.

(** The list nodes: the global run queue, this CPU's [runq] and [nextq], and per task its
    [task_children], [task_zombies], [task_node] and [task_child]. *)
Inductive qloc := Runq | MyRunq | MyNextq | Children (t : Z) | Zombies (t : Z) | TaskNode (t : Z) | ChildNode (t : Z).
#[global] Instance qloc_eq_dec : EqDecision qloc.
Proof. solve_decision. Defined.
#[global] Instance qloc_countable : Countable qloc.
Proof.
  refine (inj_countable' (fun q => match q with
      | Runq => (0, 0) | MyRunq => (1, 0) | MyNextq => (2, 0)
      | Children t => (3, t) | Zombies t => (4, t) | TaskNode t => (5, t) | ChildNode t => (6, t) end)
    (fun '(k, t) => if k =? 0 then Runq else if k =? 1 then MyRunq else if k =? 2 then MyNextq
       else if k =? 3 then Children t else if k =? 4 then Zombies t else if k =? 5 then TaskNode t else ChildNode t) _).
  by intros [].
Defined.

(** [task_rb], [task_mmap] and the areas they link. *)
Record areas := mk_areas { a_vmas : gmap Z vma; a_rb : rb_tree Z; a_mmap : gmap (option Z) (list_node (option Z)) }.
Definition no_areas : areas := mk_areas ∅ (mk_tree ∅ None) {[None := mk_node None None]}.

Record pstate := mk_ps {
  objs : gmap Z task;
  pidmap : gmap Z Z;
  qs : gmap qloc (list_node qloc);
  (** [cpu_task] of this CPU. *)
  cur_task : option Z;
  (** [runq_len] of this CPU. *)
  runq_len : Z;
  nuser_tasks : Z;
  nkernel_tasks : Z;
  (** Whether [cpus[0].cpu_status] is [CPU_HALTED]. *)
  cpu0_halted : bool;
  reschedule : bool;
  runq_lock : spinlock;
  kthread_lock : spinlock;
  (** The areas of each task. *)
  spaces : gmap Z areas;
  (** The memory; its [cr3] and lock ranks are this CPU's. *)
  phys : mstate;
  (** Copies into user memory while an area is populated. *)
  copied : list copy_event;
  (** Writes through user pointers: (address space, address, value). *)
  uwrites : list (Z * Z * Z);
  (** Writes to the local APIC, latest first. *)
  lapic : list (Z * Z);
  (** How often the time stamp counter was read. *)
  ticks : nat
}.

Definition with_objs x s := mk_ps x (pidmap s) (qs s) (cur_task s) (runq_len s) (nuser_tasks s) (nkernel_tasks s) (cpu0_halted s) (reschedule s) (runq_lock s) (kthread_lock s) (spaces s) (phys s) (copied s) (uwrites s) (lapic s) (ticks s).
Definition with_pidmap x s := mk_ps (objs s) x (qs s) (cur_task s) (runq_len s) (nuser_tasks s) (nkernel_tasks s) (cpu0_halted s) (reschedule s) (runq_lock s) (kthread_lock s) (spaces s) (phys s) (copied s) (uwrites s) (lapic s) (ticks s).
Definition with_qs x s := mk_ps (objs s) (pidmap s) x (cur_task s) (runq_len s) (nuser_tasks s) (nkernel_tasks s) (cpu0_halted s) (reschedule s) (runq_lock s) (kthread_lock s) (spaces s) (phys s) (copied s) (uwrites s) (lapic s) (ticks s).
Definition with_cur x s := mk_ps (objs s) (pidmap s) (qs s) x (runq_len s) (nuser_tasks s) (nkernel_tasks s) (cpu0_halted s) (reschedule s) (runq_lock s) (kthread_lock s) (spaces s) (phys s) (copied s) (uwrites s) (lapic s) (ticks s).
Definition with_len x s := mk_ps (objs s) (pidmap s) (qs s) (cur_task s) x (nuser_tasks s) (nkernel_tasks s) (cpu0_halted s) (reschedule s) (runq_lock s) (kthread_lock s) (spaces s) (phys s) (copied s) (uwrites s) (lapic s) (ticks s).
Definition with_users x s := mk_ps (objs s) (pidmap s) (qs s) (cur_task s) (runq_len s) x (nkernel_tasks s) (cpu0_halted s) (reschedule s) (runq_lock s) (kthread_lock s) (spaces s) (phys s) (copied s) (uwrites s) (lapic s) (ticks s).
Definition with_kernels x s := mk_ps (objs s) (pidmap s) (qs s) (cur_task s) (runq_len s) (nuser_tasks s) x (cpu0_halted s) (reschedule s) (runq_lock s) (kthread_lock s) (spaces s) (phys s) (copied s) (uwrites s) (lapic s) (ticks s).
Definition with_halted x s := mk_ps (objs s) (pidmap s) (qs s) (cur_task s) (runq_len s) (nuser_tasks s) (nkernel_tasks s) x (reschedule s) (runq_lock s) (kthread_lock s) (spaces s) (phys s) (copied s) (uwrites s) (lapic s) (ticks s).
Definition with_reschedule x s := mk_ps (objs s) (pidmap s) (qs s) (cur_task s) (runq_len s) (nuser_tasks s) (nkernel_tasks s) (cpu0_halted s) x (runq_lock s) (kthread_lock s) (spaces s) (phys s) (copied s) (uwrites s) (lapic s) (ticks s).
Definition with_runq_lock x s := mk_ps (objs s) (pidmap s) (qs s) (cur_task s) (runq_len s) (nuser_tasks s) (nkernel_tasks s) (cpu0_halted s) (reschedule s) x (kthread_lock s) (spaces s) (phys s) (copied s) (uwrites s) (lapic s) (ticks s).
Definition with_kthread_lock x s := mk_ps (objs s) (pidmap s) (qs s) (cur_task s) (runq_len s) (nuser_tasks s) (nkernel_tasks s) (cpu0_halted s) (reschedule s) (runq_lock s) x (spaces s) (phys s) (copied s) (uwrites s) (lapic s) (ticks s).
Definition with_spaces x s := mk_ps (objs s) (pidmap s) (qs s) (cur_task s) (runq_len s) (nuser_tasks s) (nkernel_tasks s) (cpu0_halted s) (reschedule s) (runq_lock s) (kthread_lock s) x (phys s) (copied s) (uwrites s) (lapic s) (ticks s).
Definition with_phys x s := mk_ps (objs s) (pidmap s) (qs s) (cur_task s) (runq_len s) (nuser_tasks s) (nkernel_tasks s) (cpu0_halted s) (reschedule s) (runq_lock s) (kthread_lock s) (spaces s) x (copied s) (uwrites s) (lapic s) (ticks s).
Definition with_copied x s := mk_ps (objs s) (pidmap s) (qs s) (cur_task s) (runq_len s) (nuser_tasks s) (nkernel_tasks s) (cpu0_halted s) (reschedule s) (runq_lock s) (kthread_lock s) (spaces s) (phys s) x (uwrites s) (lapic s) (ticks s).
Definition with_uwrites x s := mk_ps (objs s) (pidmap s) (qs s) (cur_task s) (runq_len s) (nuser_tasks s) (nkernel_tasks s) (cpu0_halted s) (reschedule s) (runq_lock s) (kthread_lock s) (spaces s) (phys s) (copied s) x (lapic s) (ticks s).
Definition with_lapic x s := mk_ps (objs s) (pidmap s) (qs s) (cur_task s) (runq_len s) (nuser_tasks s) (nkernel_tasks s) (cpu0_halted s) (reschedule s) (runq_lock s) (kthread_lock s) (spaces s) (phys s) (copied s) (uwrites s) x (ticks s).
Definition with_ticks x s := mk_ps (objs s) (pidmap s) (qs s) (cur_task s) (runq_len s) (nuser_tasks s) (nkernel_tasks s) (cpu0_halted s) (reschedule s) (runq_lock s) (kthread_lock s) (spaces s) (phys s) (copied s) (uwrites s) (lapic s) x.
Definition cr3 (s : pstate) : Z := MemState.cr3 (phys s).
Definition with_cr3 (f : Z) (s : pstate) : pstate := with_phys (mk_mstate (pages (phys s)) (npages (phys s)) (lists (phys s)) (frames (phys s))
  (buddy_lock (phys s)) (active_pages_lock (phys s)) (spinlock_rank (phys s)) (MemState.cur_task (phys s)) f (flushed (phys s))) s.
(** A lock together with the rank of this CPU. *)
Definition with_rank (r : Z) (s : pstate) : pstate := with_phys (set_buddy_lock (buddy_lock (phys s)) r (phys s)) s.

Definition get_task (t : Z) : K pstate task := fun s => kderef (objs s !! t) s.
Definition mod_task (t : Z) (f : task -> task) : K pstate unit := fun s =>
  match objs s !! t with Some x => Ret tt (with_objs (<[t := f x]> (objs s)) s) | None => Fault end.
Definition q_op (f : gmap qloc (list_node qloc) -> option (gmap qloc (list_node qloc))) : K pstate unit := fun s =>
  match f (qs s) with Some h => Ret tt (with_qs h s) | None => Fault end.
Definition q_run {A} (f : gmap qloc (list_node qloc) -> option (A * gmap qloc (list_node qloc))) : K pstate A := fun s =>
  match f (qs s) with Some (a, h) => Ret a (with_qs h s) | None => Fault end.
Definition q_get {A} (f : gmap qloc (list_node qloc) -> option A) : K pstate A := fun s => kderef (f (qs s)) s.
(** [cur_task->...]. *)
Definition current : K pstate Z := fun s => kderef (cur_task s) s.

(** [container_of] on a node of a list of tasks. *)
Definition task_of_node (q : qloc) : K pstate Z := match q with TaskNode t | ChildNode t => kret t | _ => kfault end.

(** ** The memory of the machine

    The memory code sees the current task through [task_ref] and updates its resident
    set. *)

Definition task_ref_of (s : pstate) : option task_ref :=
  c ← cur_task s; x ← objs s !! c; Some (mk_task_ref c (t_pml4 x) (t_rss x)).
Definition mem_in (s : pstate) : mstate := set_cur_task (task_ref_of s) (phys s).
Definition mem_out (m : mstate) (s : pstate) : pstate :=
  with_phys (set_cur_task None m)
    (match MemState.cur_task m with
     | Some r => with_objs (alter (set_rss (task_rss r)) (task_id r) (objs s)) s
     | None => s
     end).

(** A memory operation stops for good only where it calls [oom_kill_task] or [task_destroy], which
    run another task; [stop] is that call. *)
Definition on_mem {A} (stop : K pstate unit) (m : K mstate A) : K pstate A := fun s =>
  match m (mem_in s) with
  | Ret a x => Ret a (mem_out x s)
  | NoReturn x => (stop;;; (fun s => NoReturn s)) (mem_out x s)
  | Panic => Panic | Fault => Fault | Hang => Hang
  end.
Definition on_space {A} (stop : K pstate unit) (t : Z) (m : K vmstate A) : K pstate A := fun s =>
  match spaces s !! t with
  | None => Fault
  | Some a =>
      let out x := mem_out (pmem x) (with_copied (copies x) (with_spaces (<[t := mk_areas (vmas x) (task_rb x) (task_mmap x)]> (spaces s)) s)) in
      match m (mk_vm (a_vmas a) (a_rb a) (a_mmap a) (mem_in s) (copied s)) with
      | Ret v x => Ret v (out x)
      | NoReturn x => (stop;;; (fun s => NoReturn s)) (out x)
      | Panic => Panic | Fault => Fault | Hang => Hang
      end
  end.

(** ** The machine

    What the code takes from outside: the build options, the number of this CPU, the
    values of its time stamp counter, the reset values of its local APIC's registers and
    where lapic_init has mapped them,
    the frame of the kernel's PML4, the addresses the allocator gives to task structures
    and areas, the fuel for the search of [add_vma] and for the passes of the scheduler,
    and what an uninitialised pointer of the out-of-memory killer holds. *)
Class machine := Machine {
  cfg : config;
  this_cpu : Z;
  tsc : nat -> Z;
  lapic_reset : Z -> Z;
  lapic_base : Z;
  lapic_mapped : lapic_base <> 0;
  kernel_pml4 : Z;
  kmalloc_task : pstate -> option Z;
  kmalloc_vma : vmstate -> option Z;
  vma_fuel : nat;
  yields : nat;
  garbage : option Z
}.

(** ** The local APIC (kernel/acpi/lapic.c)

    A register holds what was last written to it, at first what the hardware put there. *)

Definition LAPIC_EOI : Z := 0xb0.
Definition LAPIC_TIMER : Z := 0x320.
Definition LAPIC_MASKED : Z := 0x10000.

Section Ops.
Context {M : machine}.

Fixpoint last_write (addr : Z) (l : list (Z * Z)) : Z :=
  match l with [] => lapic_reset addr | (a, v) :: l => if a =? addr then v else last_write addr l end.
Definition lapic_read (addr : Z) : K pstate Z := fun s => Ret (last_write addr (lapic s)) s.
Definition lapic_write (addr value : Z) : K pstate unit := kmodify (fun s => with_lapic ((addr, value) :: lapic s) s).
Definition lapic_eoi : K pstate unit := if lapic_base =? 0 then kret tt else lapic_write LAPIC_EOI 0.
Definition lapic_timer_off : K pstate unit := val <-- lapic_read LAPIC_TIMER;; lapic_write LAPIC_TIMER (Z.lor val LAPIC_MASKED).
Definition lapic_timer_on : K pstate unit := val <-- lapic_read LAPIC_TIMER;; lapic_write LAPIC_TIMER (Z.land val (2 ^ 32 - 1 - LAPIC_MASKED)).

Definition read_tsc : K pstate Z := fun s => Ret (tsc (ticks s)) (with_ticks (S (ticks s)) s).

(** ** task.c: the PID map *)

(** An index below the array is outside it. *)
Definition pid2task (pid : Z) (check_perm : bool) : K pstate (option Z) :=
  s <-- kget;;
  if pid =? 0 then kret (cur_task s) else
  if pid >=? pid_max then kret None else
  if pid <? 0 then kfault else
  match pidmap s !! pid with
  | None => kret None
  | Some t =>
      if negb check_perm then kret (Some t) else
      if bool_decide (Some t = cur_task s) then kret (Some t) else
      x <-- get_task t;;
      c <-- current;;
      c <-- get_task c;;
      kret (if t_ppid x =? t_pid c then Some t else None)
  end.

(** ** task.c: running *)

(** Back to user mode, with the timer running. *)
Definition task_pop_frame : K pstate unit := lapic_timer_on;;; (fun s => NoReturn s).
Definition task_run (t : Z) : K pstate unit :=
  kmodify (with_cur (Some t));;;
  mod_task t (set_status TASK_RUNNING);;;
  mod_task t (fun x => set_runs (u32 (t_runs x + 1)) x);;;
  x <-- get_task t;;
  kmodify (with_cr3 (t_pml4 x));;;
  task_pop_frame.

End Ops.
