(* ===== verification/Proc.v ===== *)
(** * Tasks and scheduling (kernel/sched: task.c, sched.c, wait.c, fork.c)

    What one CPU does to the tasks: scheduling, freeing and the out-of-memory killer,
    creating, forking and waiting.  Entering user mode does not come back
    ([NoReturn]); fuel bounds the passes of the scheduler, which otherwise ends only
    by entering user mode or halting. *)

From Stdlib Require Import ZArith Lia.
From stdpp Require Import strings base gmap fin_maps list.
From S2P Require Import Prelude ListHeap Spinlock RbTree MemState Buddy Walk Ptbl Vma Task.
Import Spinlock.

#[local] Open Scope Z_scope.
#[local] Open Scope kernel_scope.

Section Ops.
Context {M : machine}.

(** ** sched.c *)

Definition haslock_runq : K pstate bool := fun s => Ret (spin_haslock this_cpu (runq_lock s)) s.
Definition unlock_runq : K pstate unit := fun s =>
  match spin_unlock this_cpu (runq_lock s, spinlock_rank (phys s)) with
  | Ret _ (l, r) => Ret tt (with_runq_lock l (with_rank r s))
  | Panic => Panic | Fault => Fault | Hang => Hang | NoReturn _ => Fault
  end.
Definition trylock_runq : K pstate Z := fun s =>
  match spin_trylock this_cpu "kernel/sched/sched.c" 111 (runq_lock s, spinlock_rank (phys s)) with
  | Ret a (l, r) => Ret a (with_runq_lock l (with_rank r s))
  | Panic => Panic | Fault => Fault | Hang => Hang | NoReturn _ => Fault
  end.

Definition sched_halt : K pstate unit := fun s => NoReturn s.

(** The current task goes to [nextq]. *)
Definition save_current : K pstate unit :=
  s <-- kget;;
  match cur_task s with
  | None => kret tt
  | Some t =>
      x <-- get_task t;;
      if bool_decide (t_status x = TASK_RUNNING) then
        now <-- read_tsc;;
        mod_task t (fun x => set_time (s64 (t_budget x - s64 (u64 (now - t_stamp x)))) now x);;;
        mod_task t (set_status TASK_RUNNABLE);;;
        (if (t_cpunum x =? this_cpu) && (runq_len s >? 0) then kmodify (fun s => with_len (runq_len s - 1) s) else kret tt);;;
        q_op (fun h => list_add h MyNextq (TaskNode t));;;
        kmodify (with_cur None)
      else kret tt
  end.

Definition halt_check : K pstate unit :=
  s <-- kget;;
  (if (this_cpu =? 0) && (nuser_tasks s =? 0) then kmodify (with_halted true);;; sched_halt else kret tt);;;
  s <-- kget;;
  (if negb (this_cpu =? 0) && cpu0_halted s then sched_halt else kret tt).

(** [while (!list_is_empty(&this_cpu->runq))]. *)
Fixpoint run_loop (fuel : nat) : K pstate unit :=
  match fuel with
  | O => khang
  | S fuel =>
      e <-- q_get (fun h => list_is_empty h MyRunq);;
      if e : bool then kret tt else
      n <-- q_run (fun h => list_pop_tail h MyRunq);;
      next_task <-- match n with Some q => task_of_node q | None => kfault end;;
      x <-- get_task next_task;;
      if negb (bool_decide (t_status x = TASK_RUNNABLE)) then run_loop fuel else
      mod_task next_task (set_cpunum this_cpu);;;
      kmodify (fun s => with_len (u64 (runq_len s + 1)) s);;;
      now <-- read_tsc;;
      mod_task next_task (fun x => set_time (t_budget x) now x);;;
      mod_task next_task (fun x => if t_budget x <=? 0 then set_time TIMESLICE (t_stamp x) x else x);;;
      task_run next_task
  end.

(** [for (i = 0; i < n && !list_is_empty(from); i++)]: the tail of [from] goes to the head of [to],
    with [step] after each; the number moved. *)
Fixpoint move_loop (fuel : nat) (n : option Z) (from to : qloc) (step : K pstate unit) (i : Z) : K pstate Z :=
  match fuel with
  | O => khang
  | S fuel =>
      if (match n with Some n => i <? n | None => true end) then
        e <-- q_get (fun h => list_is_empty h from);;
        if e : bool then kret i else
        node <-- q_run (fun h => list_pop_tail h from);;
        match node with
        | Some q => q_op (fun h => list_add h to q);;; step;;; move_loop fuel n from to step (i + 1)
        | None => kfault
        end
      else kret i
  end.
Definition move (n : option Z) (from to : qloc) (step : K pstate unit) : K pstate Z := fun s =>
  move_loop (S (size (qs s))) n from to step 0 s.

(** One pass from [try_again] to the next [goto]; [true]: the short pause comes before it. *)
Definition sched_pass : K pstate bool :=
  save_current;;;
  halt_check;;;
  (fun s => run_loop (S (size (qs s))) s);;;
  has <-- haslock_runq;;
  (if has : bool then unlock_runq else kret tt);;;
  got <-- trylock_runq;;
  if got =? 0 then
    e <-- q_get (fun h => list_is_empty h Runq);;
    s <-- kget;;
    (if e && (runq_len s >? 0) then
       move (Some (s32 (runq_len s / 2))) MyNextq Runq (kmodify (fun s => with_len (u64 (runq_len s - 1)) s))
     else move (Some 1) Runq MyRunq (kret tt));;;
    has <-- haslock_runq;;
    (if has : bool then unlock_runq else kret tt);;;
    kret false
  else
    e <-- q_get (fun h => list_is_empty h MyNextq);;
    if negb e then
      moved <-- move None MyNextq MyRunq (kret tt);;
      kmodify (with_len moved);;;
      kret false
    else
      halt_check;;;
      kret true.

Fixpoint sched_yield (fuel : nat) : K pstate unit :=
  match fuel with
  | O => khang
  | S fuel => sched_pass;;; sched_yield fuel
  end.

Definition sched_init : K pstate unit :=
  q_op (fun h => list_init h Runq);;;
  q_op (fun h => list_init h MyRunq);;;
  q_op (fun h => list_init h MyNextq);;;
  kmodify (with_len 0).
Definition sched_init_mp : K pstate unit :=
  kmodify (with_cur None);;;
  q_op (fun h => list_init h MyRunq);;;
  q_op (fun h => list_init h MyNextq);;;
  kmodify (with_len 0).

(** ** task.c: freeing *)

(** A write through a user pointer in the address space of another task. *)
Definition user_write (pml4 addr v : Z) : K pstate unit := kmodify (fun s => with_uwrites ((pml4, addr, v) :: uwrites s) s).

Definition kfree_task (t : Z) : K pstate unit := fun s =>
  match objs s !! t with
  | Some _ => Ret tt (with_qs (delete (Children t) (delete (Zombies t) (delete (TaskNode t) (delete (ChildNode t) (qs s)))))
                        (with_spaces (delete t (spaces s)) (with_objs (delete t (objs s)) s)))
  | None => Fault
  end.

(** The bookkeeping message about the parent of task 2 follows [parent->task_wait]. *)
Definition note_parent (pid : Z) (parent : option Z) : K pstate unit :=
  if pid =? 2 then
    match parent with
    | Some q => p <-- get_task q;; match t_wait p with Some w => get_task w;;; kret tt | None => kret tt end
    | None => kret tt
    end
  else kret tt.

(** The child loops; [free] is the recursive call. *)
Fixpoint orphan_loop (fuel : nat) (t : Z) (node : qloc) : K pstate unit :=
  match fuel with
  | O => khang
  | S fuel =>
      if bool_decide (node = Children t) then kret tt else
      next <-- q_get (fun h => get_next h node);;
      child <-- task_of_node node;;
      q_op (fun h => list_del h (ChildNode child));;;
      q_op (fun h => list_init h (ChildNode child));;;
      mod_task child (fun x => set_ids (t_pid x) 0 x);;;
      orphan_loop fuel t next
  end.
Fixpoint zombie_loop (fuel : nat) (free : Z -> K pstate unit) (t : Z) (node : qloc) : K pstate unit :=
  match fuel with
  | O => khang
  | S fuel =>
      if bool_decide (node = Zombies t) then kret tt else
      next <-- q_get (fun h => get_next h node);;
      child <-- task_of_node node;;
      q_op (fun h => list_del h (TaskNode child));;;
      mod_task child (fun x => set_ids (t_pid x) 0 x);;;
      free child;;;
      zombie_loop fuel free t next
  end.

(** [true]: the task became a zombie of its parent and [task_free] returns. *)
Definition notify_parent (t : Z) : K pstate bool :=
  x <-- get_task t;;
  if t_ppid x =? 0 then kret false else
  parent <-- pid2task (t_ppid x) false;;
  note_parent (t_pid x) parent;;;
  match parent with
  | None => kret false
  | Some p =>
      px <-- get_task p;;
      s <-- kget;;
      if bool_decide (t_status px = TASK_NOT_RUNNABLE) && (bool_decide (t_wait px = None) || bool_decide (t_wait px = Some t)) then
        (match t_wait_exit_status px with
         | Some a =>
             let old_pml4 := cr3 s in
             kmodify (with_cr3 (t_pml4 px));;;
             user_write (t_pml4 px) a (t_exit_status x);;;
             kmodify (with_cr3 old_pml4)
         | None => kret tt
         end);;;
        mod_task p (set_t_rax (t_pid x));;;
        mod_task p (set_status TASK_RUNNABLE);;;
        q_op (fun h => list_del h (ChildNode t));;;
        q_op (fun h => list_add h MyRunq (TaskNode p));;;
        kret false
      else if bool_decide (Some t = cur_task s) then
        q_op (fun h => list_del h (TaskNode t));;;
        q_op (fun h => list_del h (ChildNode t));;;
        q_op (fun h => list_add_tail h (Zombies p) (TaskNode t));;;
        kret true
      else kret false
  end.

(** The areas, the user pages and the page table of a task.  An out-of-memory kill in here is not
    followed further: it ends in another task. *)
Definition free_space (t : Z) : K pstate unit :=
  let stop : K pstate unit := fun s => NoReturn s in
  on_space stop t free_vmas;;;
  x <-- get_task t;;
  on_mem stop (unmap_user_pages cfg this_cpu (fun m => NoReturn m) (t_pml4 x));;;
  on_mem stop (page <-- pa2page (page2pa (t_pml4 x));; page_decref cfg this_cpu page).

(** The rest of [task_free], for a task that did not become a zombie; [free] is the recursive call. *)
Definition teardown (free : Z -> K pstate unit) (t : Z) : K pstate unit :=
  first <-- q_get (fun h => get_next h (Children t));;
  (fun s => orphan_loop (S (size (qs s))) t first s);;;
  first <-- q_get (fun h => get_next h (Zombies t));;
  (fun s => zombie_loop (S (size (qs s))) free t first s);;;
  q_op (fun h => list_del h (TaskNode t));;;
  x <-- get_task t;;
  kmodify (fun s => with_pidmap (delete (t_pid x) (pidmap s)) s);;;
  (if bool_decide (t_type x = TASK_TYPE_USER) then kmodify (fun s => with_users (u64 (nuser_tasks s - 1)) s) else kret tt);;;
  free_space t;;;
  kfree_task t.

Fixpoint task_free (fuel : nat) (t : Z) : K pstate unit :=
  match fuel with
  | O => khang
  | S fuel =>
      mod_task t (set_status TASK_DYING);;;
      s <-- kget;;
      (if bool_decide (Some t = cur_task s) then kmodify (with_cr3 kernel_pml4) else kret tt);;;
      zombie <-- notify_parent t;;
      if zombie : bool then kret tt else teardown (task_free fuel) t
  end.
Definition free_fuel (s : pstate) : nat := S (size (objs s)).

Definition task_destroy (t : Z) : K pstate unit :=
  (fun s => task_free (free_fuel s) t s);;;
  s <-- kget;;
  (if bool_decide (Some t = cur_task s) then kmodify (with_cur None) else kret tt);;;
  sched_yield yields.

(** The task with the largest resident set; [garbage] is the uninitialised variable. *)
Fixpoint oom_loop (fuel : nat) (pid max_rss : Z) (candidate : option Z) : K pstate (option Z) :=
  match fuel with
  | O => kret candidate
  | S fuel =>
      s <-- kget;;
      match pidmap s !! pid with
      | None => oom_loop fuel (pid + 1) max_rss candidate
      | Some t =>
          x <-- get_task t;;
          if bool_decide (t_status x = TASK_DYING) || bool_decide (t_type x = TASK_TYPE_KERNEL) then oom_loop fuel (pid + 1) max_rss candidate
          else if max_rss <? t_rss x then oom_loop fuel (pid + 1) (t_rss x) (Some t)
          else oom_loop fuel (pid + 1) max_rss candidate
      end
  end.
Definition oom_kill_task : K pstate unit :=
  candidate <-- oom_loop (Z.to_nat (pid_max - 1)) 1 0 garbage;;
  match candidate with
  | Some t => get_task t;;; task_destroy t
  | None =>
      s <-- kget;;
      match cur_task s with
      | Some t => x <-- get_task t;; if t_pid x =? 0 then kpanic else task_destroy t
      | None => kpanic
      end
  end.

(** ** task.c: creating *)

Fixpoint pid_loop (fuel : nat) (pid : Z) (t : Z) : K pstate (option Z) :=
  match fuel with
  | O => kret None
  | S fuel =>
      s <-- kget;;
      match pidmap s !! pid with
      | None => kmodify (fun s => with_pidmap (<[pid := t]> (pidmap s)) s);;; kret (Some pid)
      | Some _ => pid_loop fuel (pid + 1) t
      end
  end.

(** Out of memory: inside the memory code the kill is a stop, which [on_mem] and [on_space] then follow. *)
#[local] Abbreviation oom := oom_kill_task.
Definition oom_stop : K mstate unit := fun m => NoReturn m.

(** [memcpy(&dst[half], &src[half], PAGE_SIZE / 2)]. *)
Definition copy_kernel_half (dst src : Z) : K mstate unit := fun m =>
  Ret tt (set_frames (foldl (fun f w => write_frames (dst, w) (read_frames f (src, w)) f) (frames m) (seqZ 256 256)) m).

Definition task_setup_vas (t : Z) : K pstate Z :=
  page <-- on_mem oom (page_alloc cfg this_cpu ALLOC_ZERO);;
  match page with
  | None => kret (- E_NOMEM)
  | Some page =>
      on_mem oom (mod_page page (fun p => set_pp_ref (u16 (pp_ref p + 1)) p);;; page2kva page);;;
      mod_task t (set_pml4 page);;;
      on_mem oom (copy_kernel_half page kernel_pml4);;;
      kret 0
  end.

(** [kmalloc(sizeof *task)]. *)
Definition new_task : K pstate (option Z) := fun s =>
  match kmalloc_task s with
  | None => Ret None s
  | Some t => Ret (Some t) (with_spaces (<[t := no_areas]> (spaces s)) (with_objs (<[t := blank]> (objs s)) s))
  end.

Definition USTACK_TOP : Z := USER_LIM - 2 * PAGE_SIZE.
Definition init_frame : int_frame :=
  set_ds (0x18 + 3) (set_ss (0x18 + 3) (set_rsp USTACK_TOP (set_cs (0x20 + 3) (set_rflags (Z.lor (Z.shiftl 1 9) 2) zero_frame)))).

Definition task_alloc (ppid : Z) : K pstate (option Z) :=
  new <-- new_task;;
  match new with
  | None => kret None
  | Some t =>
      mod_task t (set_rss 0);;;
      r <-- task_setup_vas t;;
      if r <? 0 then kfree_task t;;; kret None else
      pid <-- pid_loop (Z.to_nat (pid_max - 1)) 1 t;;
      match pid with
      | None =>
          x <-- get_task t;;
          on_mem oom (page <-- pa2page (page2pa (t_pml4 x));; page_decref cfg this_cpu page);;;
          kfree_task t;;; kret None
      | Some pid =>
          mod_task t (set_ids pid ppid);;;
          mod_task t (set_type TASK_TYPE_USER);;;
          mod_task t (set_status TASK_RUNNABLE);;;
          mod_task t (set_runs 0);;;
          mod_task t (set_cpunum this_cpu);;;
          mod_task t (set_frame init_frame);;;
          now <-- read_tsc;;
          mod_task t (set_time TIMESLICE now);;;
          kret (Some t)
      end
  end.

(** [list_init] of nodes inside the structure, and [rb_init] and [list_init] of its areas. *)
Definition init_node (q : qloc) : K pstate unit := kmodify (fun s => with_qs (<[q := mk_node q q]> (qs s)) s).
Definition init_areas (t : Z) : K pstate unit := kmodify (fun s => with_spaces (<[t := no_areas]> (spaces s)) s).
Definition init_lists (t : Z) : K pstate unit :=
  init_areas t;;; init_node (Children t);;; init_node (Zombies t);;; init_node (TaskNode t).

(** ** fork.c *)

(** The page of the parent at [va], if there is one, becomes read-only and is shared. *)
Definition share_page (parent child va : Z) : K mstate unit :=
  r <-- page_lookup parent va;;
  match r with
  | (Some page, Some e) =>
      v <-- get_entry e;;
      set_entry e (Z.land v (not64 PAGE_WRITE));;;
      tlb_invalidate (table_kva parent) va;;;
      v <-- get_entry e;;
      page_insert cfg this_cpu oom_stop child page va (Z.land v PAGE_UMASK);;;
      kret tt
  | (Some _, None) => kfault
  | (None, _) => kret tt
  end.
Fixpoint share_pages (fuel : nat) (parent child va vend : Z) : K pstate unit :=
  match fuel with
  | O => khang
  | S fuel =>
      if va <? vend then on_mem oom (share_page parent child va);;; share_pages fuel parent child (u64 (va + PAGE_SIZE)) vend
      else kret tt
  end.

(** One area and its pages. *)
Definition clone_vma (t c p : Z) : K pstate unit :=
  v <-- on_space oom t (get_vma p);;
  new <-- on_space oom c (add_vma kmalloc_vma vma_fuel (vm_name v) (vm_base v) (u64 (vm_end v - vm_base v)) (vm_flags v));;
  match new with
  | None => kfault
  | Some q =>
      on_space oom c (mod_vma q (fun w => mk_vma (vm_name w) (vm_base w) (vm_end w) (vm_src v) (vm_len v) (vm_flags w)));;;
      x <-- get_task t;;
      y <-- get_task c;;
      share_pages (S (S (Z.to_nat ((vm_end v - vm_base v) / PAGE_SIZE)))) (t_pml4 x) (t_pml4 y) (vm_base v) (vm_end v)
  end.
Fixpoint clone_vmas (nodes : list (option Z)) (t c : Z) : K pstate unit :=
  match nodes with
  | [] => kret tt
  | Some p :: nodes => clone_vma t c p;;; clone_vmas nodes t c
  | None :: _ => kfault
  end.
Definition mmap_nodes : K vmstate (list (option Z)) := fun s => mmap_get (fun h => list_foreach h None (base.size h)) s.

Definition task_clone (t : Z) : K pstate (option Z) :=
  x <-- get_task t;;
  child <-- task_alloc (t_pid x);;
  match child with
  | None => kret None
  | Some c =>
      x <-- get_task t;;
      mod_task c (set_frame (t_frame x));;;
      init_lists c;;; init_node (ChildNode c);;;
      nodes <-- on_space oom t mmap_nodes;;
      clone_vmas nodes t c;;;
      cx <-- get_task c;;
      (if bool_decide (t_type cx = TASK_TYPE_USER) then kmodify (fun s => with_users (u64 (nuser_tasks s + 1)) s) else kret tt);;;
      mod_task c (set_t_rax 0);;;
      mod_task t (set_t_rax (t_pid cx));;;
      q_op (fun h => list_add h MyRunq (TaskNode c));;;
      q_op (fun h => list_add h (Children t) (ChildNode c));;;
      kret child
  end.

Definition sys_fork : K pstate Z :=
  c <-- current;;
  child <-- task_clone c;;
  match child with Some k => x <-- get_task k;; kret (t_pid x) | None => kret (-1) end.

(** ** task.c: the first tasks *)

(** The headers of a program in memory. *)
Definition ELF_MAGIC : Z := 0x464C457F.
Definition ELF_PROG_LOAD : Z := 1.
Record elf_proghdr := mk_elf_proghdr { p_type : Z; p_elf_flags : Z; p_offset : Z; p_elf_va : Z; p_filesz : Z; p_elf_memsz : Z }.
Record elf := mk_elf { e_magic : Z; e_entry : Z; e_phdrs : list elf_proghdr }.

Definition segment_prot (f : Z) : Z :=
  let prot := Z.lor PROT_READ MAP_POPULATE in
  let prot := if flag f ELF_PROG_FLAG_WRITE then Z.lor prot PROT_WRITE else prot in
  if flag f ELF_PROG_FLAG_EXEC then Z.lor prot PROT_EXEC else prot.
Definition segment_name (f : Z) : string :=
  if flag f ELF_PROG_FLAG_EXEC then ".text" else if flag f ELF_PROG_FLAG_WRITE then ".data" else ".rodata".

Fixpoint load_segments (t binary : Z) (phs : list elf_proghdr) : K pstate unit :=
  match phs with
  | [] => kret tt
  | ph :: phs =>
      if negb (p_type ph =? ELF_PROG_LOAD) then load_segments t binary phs else
      if p_elf_memsz ph <? p_filesz ph then kpanic else
      let va := p_elf_va ph in
      let diff := u64 (va - ROUNDDOWN va PAGE_SIZE) in
      on_space oom t (add_executable_vma kmalloc_vma (segment_name (p_elf_flags ph)) (u64 (va - diff))
        (u64 (ROUNDUP (u64 (va + p_elf_memsz ph)) PAGE_SIZE - u64 (va - diff))) (segment_prot (p_elf_flags ph))
        (Some (u64 (u64 (binary + p_offset ph) - diff))) (u64 (p_filesz ph + diff)));;;
      load_segments t binary phs
  end.

Definition task_load_elf (t binary : Z) (e : elf) : K pstate unit :=
  x <-- get_task t;;
  kmodify (with_cr3 (t_pml4 x));;;
  (if negb (e_magic e =? ELF_MAGIC) then kpanic else kret tt);;;
  load_segments t binary (e_phdrs e);;;
  on_space oom t (add_anonymous_vma kmalloc_vma "stack" (USTACK_TOP - PAGE_SIZE) PAGE_SIZE (Z.lor PROT_READ PROT_WRITE));;;
  kmodify (with_cr3 kernel_pml4);;;
  mod_task t (fun x => set_frame (set_rip (e_entry e) (t_frame x)) x).

Definition task_create (binary : Z) (e : elf) (type : kind) : K pstate unit :=
  new <-- task_alloc 0;;
  match new with
  | None => kpanic
  | Some t =>
      init_lists t;;;
      mod_task t (fun x => set_wait None (t_wait_exit_status x) x);;;
      task_load_elf t binary e;;;
      mod_task t (set_type type);;;
      (if bool_decide (type = TASK_TYPE_USER) then kmodify (fun s => with_users (u64 (nuser_tasks s + 1)) s) else kret tt);;;
      mod_task t (fun x => set_ids (t_pid x) 0 x);;;
      x <-- get_task t;;
      kmodify (fun s => with_pidmap (<[t_pid x := t]> (pidmap s)) s);;;
      q_op (fun h => list_add h MyRunq (TaskNode t))
  end.

(** Kernel threads; their stacks lie one above the other. *)
Definition lock_kthread : K pstate unit := fun s =>
  match spin_lock this_cpu "kernel/sched/task.c" 421 (kthread_lock s, spinlock_rank (phys s)) with
  | Ret _ (l, r) => Ret tt (with_kthread_lock l (with_rank r s))
  | Panic => Panic | Fault => Fault | Hang => Hang | NoReturn _ => Fault
  end.
Definition unlock_kthread : K pstate unit := fun s =>
  match spin_unlock this_cpu (kthread_lock s, spinlock_rank (phys s)) with
  | Ret _ (l, r) => Ret tt (with_kthread_lock l (with_rank r s))
  | Panic => Panic | Fault => Fault | Hang => Hang | NoReturn _ => Fault
  end.
Definition kthread_frame (entry arg stack_top : Z) : int_frame :=
  set_rip entry (set_rsp stack_top (set_rdi arg (set_rflags 0 (set_ds 0x10 (set_ss 0x10 (set_cs 0x08 zero_frame)))))).

Definition kthread_create (entry arg : Z) : K pstate unit :=
  lock_kthread;;;
  new <-- new_task;;
  match new with
  | None => kpanic
  | Some t =>
      mod_task t (set_type TASK_TYPE_KERNEL);;;
      mod_task t (set_rss 0);;;
      pid <-- pid_loop (Z.to_nat (pid_max - 1)) 1 t;;
      match pid with
      | None => kfree_task t;;; kpanic
      | Some pid =>
          kmodify (fun s => with_kernels (u64 (nkernel_tasks s + 1)) s);;;
          s <-- kget;;
          let nkernel_number := u64 (nkernel_tasks s + 1) in
          mod_task t (set_pml4 kernel_pml4);;;
          mod_task t (set_type TASK_TYPE_KERNEL);;;
          mod_task t (set_status TASK_RUNNABLE);;;
          mod_task t (set_runs 0);;;
          mod_task t (set_ids pid 0);;;
          mod_task t (set_cpunum this_cpu);;;
          mod_task t (set_exit 0);;;
          init_lists t;;; init_node (ChildNode t);;;
          mod_task t (set_wait None None);;;
          let stack_top := u64 (KSTACK_TOP + nkernel_number * PAGE_SIZE) in
          page <-- on_mem oom (page_alloc cfg this_cpu ALLOC_ZERO);;
          match page with
          | None => kpanic
          | Some page =>
              on_mem oom (page_insert cfg this_cpu oom_stop kernel_pml4 page (u64 (stack_top - PAGE_SIZE))
                            (Z.lor (Z.lor PAGE_PRESENT PAGE_WRITE) PAGE_NO_EXEC));;;
              on_mem oom (page2kva page);;;
              mod_task t (set_frame (kthread_frame entry arg stack_top));;;
              now <-- read_tsc;;
              mod_task t (set_time TIMESLICE now);;;
              q_op (fun h => list_add h MyRunq (TaskNode t));;;
              unlock_kthread
          end
      end
  end.

(** ** wait.c *)

(** [*rstatus = child->task_exit_status] in the current address space. *)
Definition store_status (rstatus : option Z) (child : Z) : K pstate unit :=
  match rstatus with
  | None => kret tt
  | Some a => x <-- get_task child;; s <-- kget;; user_write (cr3 s) a (t_exit_status x)
  end.

(** The child is unlinked and freed; its PID is returned. *)
Definition reap (rstatus : option Z) (child : Z) : K pstate Z :=
  store_status rstatus child;;;
  x <-- get_task child;;
  q_op (fun h => list_del h (TaskNode child));;;
  (fun s => task_free (free_fuel s) child s);;;
  kret (t_pid x).

(** The current task sleeps until a child ends; coming back is an error. *)
Definition sleep_on (c : Z) (child rstatus : option Z) : K pstate Z :=
  mod_task c (fun x => set_wait child (t_wait_exit_status x) x);;;
  mod_task c (set_status TASK_NOT_RUNNABLE);;;
  mod_task c (fun x => set_wait (t_wait x) rstatus x);;;
  kmodify (with_cur None);;;
  sched_yield yields;;;
  kpanic.

Definition childless (c : Z) : K pstate bool :=
  e1 <-- q_get (fun h => list_is_empty h (Children c));;
  if negb e1 then kret false else q_get (fun h => list_is_empty h (Zombies c)).

Definition sys_wait (rstatus : option Z) : K pstate Z :=
  c <-- current;;
  none <-- childless c;;
  if none : bool then kret (- E_CHILD) else
  first <-- q_get (fun h => get_next h (Zombies c));;
  if bool_decide (first = Zombies c) then sleep_on c None rstatus else
  child <-- task_of_node first;;
  reap rstatus child.

Fixpoint find_zombie (nodes : list qloc) (pid : Z) : K pstate (option Z) :=
  match nodes with
  | [] => kret None
  | q :: nodes =>
      child <-- task_of_node q;;
      x <-- get_task child;;
      if t_pid x =? pid then kret (Some child) else find_zombie nodes pid
  end.

Definition sys_waitpid (pid : Z) (rstatus : option Z) (opts : Z) : K pstate Z :=
  c <-- current;;
  none <-- childless c;;
  if none : bool then kret (- E_CHILD) else
  if (pid =? -1) || (pid =? 0) then sys_wait rstatus else
  child <-- pid2task pid true;;
  match child with
  | None => kret (- E_CHILD)
  | Some k =>
      if bool_decide (k = c) then kret (- E_CHILD) else
      zs <-- (fun s => q_get (fun h => list_foreach h (Zombies c) (size (qs s))) s);;
      z <-- find_zombie zs pid;;
      match z with
      | Some z => reap rstatus z;;; kret pid
      | None => sleep_on c child rstatus
      end
  end.

End Ops.
