(* ===== verification/Trap.v ===== *)
(** * Entering the kernel (kernel/sched: syscall.c, idt.c)

    The system calls of syscall.c, their dispatch, and the interrupt handlers: what the
    kernel does from the interrupt until another task, or the same one, is started. *)

From Stdlib Require Import ZArith Lia.
From stdpp Require Import strings base gmap fin_maps list.
From S2P Require Import Prelude ListHeap Spinlock RbTree MemState Buddy Walk Ptbl Vma Task Proc.

#[local] Open Scope Z_scope.
#[local] Open Scope kernel_scope.

Section Ops.
Context {M : machine}.
(** The console (kernel/console.c), the monitor (kernel/monitor.c), and CR2 at the interrupt. *)
Context (put_user_text : Z -> Z -> K pstate unit) (cons_getc : K pstate Z) (monitor : K pstate unit) (cr2 : Z).

(** ** syscall.c *)

(** The current task, its areas and its page table; a NULL [cur_task] is dereferenced. *)
Definition on_current {A} (stop : Z -> K pstate unit) (m : Z -> K vmstate A) : K pstate A :=
  c <-- current;;
  x <-- get_task c;;
  on_space (stop c) c (m (t_pml4 x)).
(** [assert_user_mem] destroys the task; the memory code kills for memory. *)
Definition refused : K vmstate unit := fun v => NoReturn v.
Definition killed (c : Z) : K pstate unit := oom_kill_task.

Definition sys_cputs (text len : Z) : K pstate unit :=
  on_current task_destroy (fun _ => assert_user_mem refused text len PROT_READ);;;
  put_user_text text len.
Definition sys_cgetc : K pstate Z := cons_getc.
Definition sys_getpid : K pstate Z := c <-- current;; x <-- get_task c;; kret (t_pid x).
Definition sys_getcpuid : K pstate Z := kret this_cpu.

Definition sys_kill (pid : Z) : K pstate Z :=
  t <-- pid2task pid true;;
  match t with
  | None => kret (-1)
  | Some t =>
      mod_task t (set_status TASK_DYING);;;
      x <-- get_task t;;
      parent <-- pid2task (t_ppid x) false;;
      (match parent with
       | Some p =>
           q_op (fun h => list_del h (TaskNode t));;;
           q_op (fun h => list_del h (ChildNode t));;;
           q_op (fun h => list_add_tail h (Zombies p) (TaskNode t))
       | None => kret tt
       end);;;
      kret 0
  end.

Definition sys_exit (rcode : Z) : K pstate Z :=
  s <-- kget;;
  match cur_task s with
  | None => kret (-1)
  | Some t =>
      mod_task t (set_exit rcode);;;
      mod_task t (set_status TASK_DYING);;;
      task_destroy t;;;
      kret 0
  end.

(** include/syscall.h *)
Inductive sysno := SYS_cputs | SYS_cgetc | SYS_getpid | SYS_kill | SYS_exit | SYS_mquery | SYS_mmap | SYS_munmap | SYS_mprotect
  | SYS_madvise | SYS_yield | SYS_wait | SYS_waitpid | SYS_fork | SYS_getcpuid.
Definition syscalls : list sysno := [SYS_cputs; SYS_cgetc; SYS_getpid; SYS_kill; SYS_exit; SYS_mquery; SYS_mmap; SYS_munmap;
  SYS_mprotect; SYS_madvise; SYS_yield; SYS_wait; SYS_waitpid; SYS_fork; SYS_getcpuid].
Definition NSYSCALLS : Z := 15.
Definition user_ptr (a : Z) : option Z := if a =? 0 then None else Some a.

(** The bound is checked on the low 32 bits, the selection on all 64. *)
Definition syscall (syscallno a1 a2 a3 a4 a5 a6 : Z) : K pstate Z :=
  if u32 syscallno >=? NSYSCALLS then kret (- E_NOSYS) else
  match (if syscallno <? NSYSCALLS then syscalls !! Z.to_nat syscallno else None) with
  | Some SYS_cputs => sys_cputs a1 a2;;; kret 0
  | Some SYS_cgetc => sys_cgetc
  | Some SYS_getpid => sys_getpid
  | Some SYS_kill => sys_kill (s32 a1)
  | Some SYS_exit => sys_exit (s32 a1)
  | Some SYS_mquery =>
      r <-- on_current task_destroy (fun pml4 => sys_mquery refused pml4 a1 a2);;
      kret (fst r)
  | Some SYS_mmap => on_current killed (fun pml4 => sys_mmap cfg this_cpu oom_stop kmalloc_vma pml4 vma_fuel a1 a2 (s32 a3) (s32 a4) (s32 a5) a6)
  | Some SYS_munmap => on_current killed (fun pml4 => sys_munmap cfg this_cpu oom_stop kmalloc_vma pml4 a1 a2);;; kret 0
  | Some SYS_mprotect => on_current killed (fun pml4 => sys_mprotect cfg this_cpu oom_stop kmalloc_vma pml4 a1 a2 (s32 a3))
  | Some SYS_madvise => on_current killed (fun pml4 => sys_madvise cfg this_cpu oom_stop kmalloc_vma pml4 a1 a2 (s32 a3))
  | Some SYS_yield => sched_yield yields;;; kret 0
  | Some SYS_wait => sys_wait (user_ptr a1)
  | Some SYS_waitpid => sys_waitpid (s32 a1) (user_ptr a2) (s32 a3)
  | Some SYS_fork => sys_fork
  | Some SYS_getcpuid => sys_getcpuid
  | None => kret (- E_NOSYS)
  end.

Definition syscall_handler (a1 a2 a3 a4 a5 a6 syscallno : Z) : K pstate unit :=
  s <-- kget;;
  kassert (bool_decide (is_Some (cur_task s)));;;
  c <-- current;;
  ret <-- syscall syscallno a1 a2 a3 a4 a5 a6;;
  mod_task c (set_t_rax (u64 ret));;;
  c <-- current;;
  task_run c.

(** ** idt.c *)

Definition INT_DIVIDE : Z := 0.
Definition INT_BREAK : Z := 3.
Definition INT_GPF : Z := 13.
Definition INT_PAGE_FAULT : Z := 14.
Definition IRQ_TIMER : Z := 32.
Definition INT_PANIC : Z := 127.
Definition INT_SYSCALL : Z := 128.
Definition GDT_KCODE : Z := 0x08.
Definition PF_PRESENT : Z := 1.
Definition PF_WRITE : Z := 2.
Definition PF_IFETCH : Z := 16.

(** The interrupt frame: on the stack, or the one saved in a task. *)
Inductive frame_loc := OnStack (f : int_frame) | InTask (t : Z).
Definition read_frame (l : frame_loc) : K pstate int_frame :=
  match l with OnStack f => kret f | InTask t => x <-- get_task t;; kret (t_frame x) end.
(** The handler never goes back to a frame on the stack. *)
Definition write_rax (l : frame_loc) (v : Z) : K pstate unit :=
  match l with OnStack _ => kret tt | InTask t => mod_task t (set_t_rax v) end.

Definition destroy_current : K pstate unit := c <-- current;; get_task c;;; task_destroy c.
Definition gpf_handler (l : frame_loc) : K pstate unit := destroy_current.
Definition divide_handler (l : frame_loc) : K pstate unit := destroy_current.

Definition irq_handler (l : frame_loc) : K pstate unit :=
  now <-- read_tsc;;
  s <-- kget;;
  match cur_task s with
  | None => kret tt
  | Some c =>
      x <-- get_task c;;
      mod_task c (set_time (if t_budget x >? 0 then s64 (t_budget x - s64 (u64 (now - t_stamp x))) else t_budget x) now);;;
      x <-- get_task c;;
      (if t_budget x <=? 0 then kmodify (with_reschedule true) else kret tt);;;
      lapic_eoi
  end.

Definition fault_perm (err : Z) : Z :=
  let perm := 0 in
  let perm := if flag err PF_PRESENT then Z.lor perm PROT_READ else perm in
  let perm := if flag err PF_WRITE then Z.lor perm PROT_WRITE else perm in
  if flag err PF_IFETCH then Z.lor perm PROT_EXEC else perm.

Definition page_fault_handler (l : frame_loc) : K pstate unit :=
  f <-- read_frame l;;
  ret <-- on_current killed (fun pml4 => task_page_fault_handler cfg this_cpu oom_stop pml4 cr2 (fault_perm (err_code f)));;
  if ret =? 0 then kret tt else
  f <-- read_frame l;;
  if cs f =? GDT_KCODE then kpanic else destroy_current.

Definition int_dispatch (l : frame_loc) : K pstate unit :=
  f <-- read_frame l;;
  if int_no f =? INT_BREAK then monitor else
  if int_no f =? INT_PANIC then sched_halt else
  if int_no f =? INT_PAGE_FAULT then page_fault_handler l else
  if int_no f =? INT_SYSCALL then
    ret <-- syscall (rax f) (rdi f) (rsi f) (rdx f) (rcx f) (r8 f) (r9 f);;
    write_rax l (u64 ret)
  else if int_no f =? INT_GPF then gpf_handler l else
  if int_no f =? INT_DIVIDE then divide_handler l else
  if int_no f =? IRQ_TIMER then irq_handler l else
  if cs f =? GDT_KCODE then kpanic else
  c <-- current;; task_destroy c.

(** [rflags] is the flags register in the handler. *)
Definition int_handler (rflags : Z) (f : int_frame) : K pstate unit :=
  lapic_timer_off;;;
  kassert (negb (flag rflags (Z.shiftl 1 9)));;;
  (if Z.land (cs f) 3 =? 3 then
     s <-- kget;;
     match cur_task s with
     | None => kpanic
     | Some c => mod_task c (set_frame f);;; int_dispatch (InTask c)
     end
   else int_dispatch (OnStack f));;;
  s <-- kget;;
  (if reschedule s then kmodify (with_reschedule false);;; sched_yield yields else kret tt);;;
  s <-- kget;;
  match cur_task s with
  | Some c => task_run c
  | None => sched_yield yields
  end.

End Ops.
