(* ===== verification/ProcThm.v ===== *)
(** * Tasks and scheduling: what the operations of Proc.v compute

    The scheduler serves the run queue and then the next queue of its CPU in the order
    of arrival; the PID map answers only for the caller's own children when asked to
    check; an ended child becomes a zombie until its parent waits for it, and its exit
    status reaches the parent. *)

From Stdlib Require Import ZArith Lia.
From stdpp Require Import strings base gmap fin_maps list.
From S2P Require Import Prelude ListHeap Spinlock RbTree MemState Buddy Walk Ptbl Vma Task Proc.
Import Spinlock.

#[local] Open Scope Z_scope.
#[local] Open Scope kernel_scope.



Lemma get_task_ok s t x : objs s !! t = Some x -> get_task t s = Ret x s.
Proof. unfold get_task, kderef. by intros ->. Qed.

Lemma mod_task_ok s t x f : objs s !! t = Some x -> mod_task t f s = Ret tt (with_objs (<[t := f x]> (objs s)) s).
Proof. unfold mod_task. by intros ->. Qed.

Lemma q_op_ok s f h : f (qs s) = Some h -> q_op f s = Ret tt (with_qs h s).
Proof. unfold q_op. by intros ->. Qed.

Lemma q_run_ok {A} s f (a : A) h : f (qs s) = Some (a, h) -> q_run f s = Ret a (with_qs h s).
Proof. unfold q_run. by intros ->. Qed.

Lemma q_get_ok {A} s f (a : A) : f (qs s) = Some a -> q_get f s = Ret a s.
Proof. unfold q_get, kderef. by intros ->. Qed.

Lemma elem_of_rev {A} (x : A) l : x ∈ rev l <-> x ∈ l.
Proof. by rewrite !list_elem_of_In, <- in_rev. Qed.

Lemma rev_elem {A} (x : A) l : x ∈ rev l -> x ∈ l.
Proof. apply elem_of_rev. Qed.

(** ** The PID map *)

(** The PID map names live tasks, and the current task is one. *)
Record pids_ok (s : pstate) : Prop := {
  po_map : forall pid t, pidmap s !! pid = Some t -> is_Some (objs s !! t);
  po_cur : exists c, cur_task s = Some c /\ is_Some (objs s !! c)
}.

(** What the caller may name: itself or a child of its own. *)
Definition own (s : pstate) (t : Z) : Prop :=
  exists c cx x, cur_task s = Some c /\ objs s !! c = Some cx /\ objs s !! t = Some x /\ (t = c \/ t_ppid x = t_pid cx).

Lemma pid2task_ok s pid : pids_ok s -> 0 < pid -> exists r, pid2task pid true s = Ret r s
  /\ forall t, r = Some t <-> pid < pid_max /\ pidmap s !! pid = Some t /\ own s t.
Proof.
  intros [Hm (c & Hc & [cx Hcx])] Hp. unfold pid2task, kget, kbind.
  destruct (Z.eqb_spec pid 0); [lia|]. destruct (pid >=? pid_max) eqn:Hg.
  { eexists. split; [reflexivity|]. intros t. split; [done|lia]. }
  destruct (Z.ltb_spec pid 0); [lia|]. destruct (pidmap s !! pid) as [t|] eqn:Et.
  2: { eexists. split; [reflexivity|]. intros t. split; [done|naive_solver]. }
  simpl. destruct (Hm _ _ Et) as [x Hx]. case_bool_decide as Hcur.
  - eexists. split; [reflexivity|]. intros t'. rewrite Hc in Hcur. injection Hcur as ->. split.
    + intros [= <-]. split; [lia|]. split; [done|]. exists c, cx, x. split_and!; try done. by left.
    + naive_solver.
  - rewrite (get_task_ok _ _ _ Hx). unfold current, kderef. rewrite Hc. simpl. rewrite (get_task_ok _ _ _ Hcx).
    eexists. split; [reflexivity|]. intros t'. destruct (Z.eqb_spec (t_ppid x) (t_pid cx)) as [E0|E0]; split; try done.
    + intros [= <-]. split; [lia|]. split; [done|]. exists c, cx, x. split_and!; try done. by right.
    + intros (_ & [= <-] & _). done.
    + intros (_ & [= <-] & (c' & cx' & x' & Hc' & Hcx' & Hx' & Ho)). simplify_eq. destruct Ho as [->|Ho]; [|done]. congruence.
Qed.

(** ** Queues *)

Definition has_status (s : pstate) (st : status) (t : Z) : Prop := exists x, objs s !! t = Some x /\ t_status x = st.
Definition runnable s t := has_status s TASK_RUNNABLE t.
(** A task in a queue that the scheduler skips. *)
Definition skipped s t : Prop := exists x, objs s !! t = Some x /\ t_status x <> TASK_RUNNABLE.

(** The run queue and the next queue of the CPU, newest first. *)
Record queues_ok (s : pstate) (xs ys : list Z) : Prop := {
  qo_run : dlist (qs s) MyRunq (TaskNode <$> xs);
  qo_next : dlist (qs s) MyNextq (TaskNode <$> ys);
  qo_nodup : NoDup (xs ++ ys)
}.

Lemma fmap_snoc_inv (xs : list Z) (q : qloc) l : TaskNode <$> xs = l ++ [q] -> exists xs' t, xs = xs' ++ [t] /\ q = TaskNode t /\ l = TaskNode <$> xs'.
Proof.
  intros E0. destruct xs as [|t xs' _] using rev_ind; [by destruct l|]. rewrite fmap_app in E0. simpl in E0.
  apply app_inj_tail in E0 as [<- <-]. by exists xs', t.
Qed.

Lemma notin_node (xs : list Z) t : t ∉ xs -> TaskNode t ∉ TaskNode <$> xs.
Proof. intros Ht (u & E0 & Hu)%list_elem_of_fmap. by simplify_eq. Qed.

(** Work on one queue leaves the other as it is. *)
Lemma queue_apart h h' (hd hd' : qloc) (xs ys : list Z) (ns : list qloc) : dlist h hd (TaskNode <$> xs) -> touches h ns h' ->
  ns ⊆ hd' :: (TaskNode <$> ys) -> hd ∉ hd' :: (TaskNode <$> ys) -> (forall u, hd' <> TaskNode u) -> (forall u, u ∈ xs -> u ∉ ys) ->
  dlist h' hd (TaskNode <$> xs).
Proof.
  intros Hd Ht Hns Hhd Hn Hxy. eapply dlist_touches; [exact Hd|exact Ht|]. intros q Hq Hin. apply Hns in Hq.
  apply elem_of_cons in Hin as [->|(u & -> & Hu)%list_elem_of_fmap]; [done|].
  apply elem_of_cons in Hq as [Hq|(w & [= <-] & Hw)%list_elem_of_fmap]; [by apply (Hn u)|]. by apply (Hxy u).
Qed.

Lemma head_apart hd (ys : list Z) q : (forall u, q <> TaskNode u) -> q <> hd -> q ∉ hd :: (TaskNode <$> ys).
Proof. intros Hq Hne [?|(u & E0 & _)%list_elem_of_fmap]%elem_of_cons; [done|]. by apply (Hq u). Qed.

Section Sched.
Context {M : machine}.

(** The task that is started: its new state, and the machine's. *)
Record started (s : pstate) (t : Z) (s' : pstate) : Prop := {
  st_cur : cur_task s' = Some t;
  st_self : exists x y, objs s !! t = Some x /\ objs s' !! t = Some y /\ t_status y = TASK_RUNNING /\ t_cpunum y = this_cpu
            /\ t_pid y = t_pid x /\ t_frame y = t_frame x /\ cr3 s' = t_pml4 x /\ 0 < t_budget y;
  st_others : forall u, u <> t -> objs s' !! u = objs s !! u;
  st_pids : pidmap s' = pidmap s;
  st_lock : runq_lock s' = runq_lock s
}.

Lemma pop_run s xs t ys : queues_ok s (xs ++ [t]) ys ->
  exists h, list_is_empty (qs s) MyRunq = Some false /\ list_pop_tail (qs s) MyRunq = Some (Some (TaskNode t), h)
    /\ queues_ok (with_qs h s) xs ys.
Proof.
  intros [R N D]. pose proof (list_is_empty_spec _ _ _ R) as He. pose proof (list_pop_tail_spec _ _ _ R) as Hp.
  rewrite bool_decide_false in He by (rewrite fmap_app; by destruct (TaskNode <$> xs)).
  rewrite fmap_app in Hp. simpl in Hp. rewrite last_snoc in Hp. destruct Hp as (h & l & E1 & E2 & D1 & D2 & T1).
  apply app_inj_tail in E1 as [<- _]. exists h. split_and!; [done|done|]. rewrite <- app_assoc in D. simpl in D.
  constructor; cbn [with_qs qs].
  - exact D1.
  - apply (queue_apart _ _ _ MyRunq _ (xs ++ [t]) _ N T1); [by rewrite fmap_app|by apply head_apart|done|].
    apply NoDup_app in D as (_ & D & [D' _]%NoDup_cons). intros u Hu [Hw|Hw%list_elem_of_singleton]%elem_of_app; [|by subst].
    apply (D u Hw). by right.
  - apply NoDup_app in D as (D1' & D & [_ D']%NoDup_cons). apply NoDup_app. split; [done|]. split; [|done].
    intros u Hu Hu'. apply (D u Hu). set_solver.
Qed.

Lemma started_qs s h t s' : started (with_qs h s) t s' -> started s t s'.
Proof. intros []. by constructor. Qed.

Lemma queues_frame s s' xs ys : queues_ok s xs ys -> qs s' = qs s -> queues_ok s' xs ys.
Proof. intros [R N D] E0. constructor; by rewrite ?E0. Qed.

(** Starting a runnable task, already taken off the queue. *)
Lemma start_ok s t x : objs s !! t = Some x -> exists s',
  (mod_task t (set_cpunum this_cpu);;;
   kmodify (fun s => with_len (u64 (runq_len s + 1)) s);;;
   now <-- read_tsc;;
   mod_task t (fun x => set_time (t_budget x) now x);;;
   mod_task t (fun x => if t_budget x <=? 0 then set_time TIMESLICE (t_stamp x) x else x);;;
   task_run t) s = NoReturn s' /\ started s t s' /\ qs s' = qs s.
Proof.
  intros Hx. rewrite (krun _ _ _ _ _ (mod_task_ok _ _ _ _ Hx)). unfold kmodify at 1, read_tsc. unfold kbind at 1. unfold kbind at 1.
  cbn [with_len with_objs with_ticks objs ticks].
  erewrite krun; [|eapply mod_task_ok; cbn [with_len with_objs with_ticks objs ticks]; apply lookup_insert_eq].
  erewrite krun; [|eapply mod_task_ok; cbn [with_len with_objs with_ticks objs ticks]; apply lookup_insert_eq].
  unfold task_run, kmodify. unfold kbind at 1. cbn [with_cur with_objs with_ticks with_len].
  erewrite krun; [|eapply mod_task_ok; cbn [with_cur with_len with_objs with_ticks objs]; apply lookup_insert_eq].
  erewrite krun; [|eapply mod_task_ok; cbn [with_cur with_len with_objs with_ticks objs]; apply lookup_insert_eq].
  erewrite krun; [|eapply get_task_ok; cbn [with_cur with_len with_objs with_ticks objs]; apply lookup_insert_eq].
  unfold task_pop_frame, lapic_timer_on, lapic_read, lapic_write, kbind, kmodify. eexists. split; [reflexivity|]. split; [|done].
  constructor; unfold cr3; cbn [with_lapic with_cr3 with_phys with_cur with_len with_objs with_ticks objs cur_task pidmap runq_lock phys MemState.cr3];
    try done.
  - exists x. rewrite lookup_insert_eq. eexists. split; [done|]. split; [reflexivity|]. simpl.
    destruct (Z.leb_spec (t_budget x) 0); simpl; split_and!; try done; lia.
  - intros u Hu. by rewrite !lookup_insert_ne.
Qed.

Lemma run_loop_start zs : forall fuel s xs t ys, (length zs < fuel)%nat -> queues_ok s (xs ++ t :: zs) ys -> runnable s t -> Forall (skipped s) zs ->
  exists s', run_loop fuel s = NoReturn s' /\ started s t s' /\ queues_ok s' xs ys.
Proof.
  induction zs as [|z zs IH] using rev_ind; intros fuel s xs t ys Hf Q (x & Hx & Hrun) Hz; (destruct fuel as [|fuel]; [simpl in Hf; lia|]); cbn [run_loop].
  - destruct (pop_run _ _ _ _ Q) as (h & He & Hp & Q'). rewrite (krun _ _ _ _ _ (q_get_ok _ _ _ He)). cbn iota.
    rewrite (krun _ _ _ _ _ (q_run_ok _ _ _ _ Hp)). cbn [task_of_node]. unfold kbind at 1, kret at 1.
    rewrite (krun _ _ _ _ _ (get_task_ok (with_qs h s) t x Hx)). rewrite bool_decide_true by done. cbn [negb].
    destruct (start_ok (with_qs h s) t x Hx) as (s' & E1 & S1 & Eq). exists s'. split; [exact E1|]. split; [by eapply started_qs|].
    by eapply queues_frame.
  - rewrite app_comm_cons, app_assoc in Q. destruct (pop_run _ _ _ _ Q) as (h & He & Hp & Q').
    rewrite (krun _ _ _ _ _ (q_get_ok _ _ _ He)). cbn iota. rewrite (krun _ _ _ _ _ (q_run_ok _ _ _ _ Hp)).
    cbn [task_of_node]. unfold kbind at 1, kret at 1. apply Forall_app in Hz as [Hz (y & Hy & Hst)%Forall_singleton].
    rewrite (krun _ _ _ _ _ (get_task_ok (with_qs h s) z y Hy)). rewrite bool_decide_false by done. cbn [negb].
    destruct (IH fuel (with_qs h s) xs t ys) as (s' & E1 & S1 & Q1); try done.
    + rewrite length_app in Hf. simpl in Hf. lia.
    + by exists x.
    + exists s'. split; [exact E1|]. split; [by eapply started_qs|done].
Qed.

Lemma run_loop_drain xs : forall fuel s ys, (length xs < fuel)%nat -> queues_ok s xs ys -> Forall (skipped s) xs ->
  exists h, run_loop fuel s = Ret tt (with_qs h s) /\ queues_ok (with_qs h s) [] ys.
Proof.
  induction xs as [|z xs IH] using rev_ind; intros fuel s ys Hf Q Hz; (destruct fuel as [|fuel]; [simpl in Hf; lia|]); cbn [run_loop].
  - pose proof (list_is_empty_spec _ _ _ (qo_run _ _ _ Q)) as He. simpl in He.
    exists (qs s). rewrite (krun _ _ _ _ _ (q_get_ok _ _ _ He)). cbn iota. destruct s. by split.
  - destruct (pop_run _ _ _ _ Q) as (h & He & Hp & Q').
    rewrite (krun _ _ _ _ _ (q_get_ok _ _ _ He)). cbn iota. rewrite (krun _ _ _ _ _ (q_run_ok _ _ _ _ Hp)).
    cbn [task_of_node]. unfold kbind at 1, kret at 1. apply Forall_app in Hz as [Hz (y & Hy & Hst)%Forall_singleton].
    rewrite (krun _ _ _ _ _ (get_task_ok (with_qs h s) z y Hy)). rewrite bool_decide_false by done. cbn [negb].
    destruct (IH fuel (with_qs h s) ys) as (h' & E1 & Q1); try done.
    + rewrite length_app in Hf. simpl in Hf. lia.
    + by exists h'.
Qed.

Lemma queue_length h hd (zs : list Z) : dlist h hd (TaskNode <$> zs) -> (length zs < S (size h))%nat.
Proof. intros Hd%dlist_size. rewrite length_fmap in Hd. lia. Qed.

(** ** One yield *)

(** The machine need not halt, and no other CPU holds the lock of the global queue. *)
Record may_run (s : pstate) : Prop := {
  mr_users : this_cpu = 0 -> nuser_tasks s <> 0;
  mr_cpu0 : this_cpu <> 0 -> cpu0_halted s = false;
  mr_rank : rank (runq_lock s) = 0;
  mr_lock : locked (runq_lock s) = 0 \/ lk_cpu (runq_lock s) = Some this_cpu
}.

Lemma may_run_frame s s' : may_run s -> nuser_tasks s' = nuser_tasks s -> cpu0_halted s' = cpu0_halted s -> runq_lock s' = runq_lock s -> may_run s'.
Proof. intros [] E1 E2 E3. constructor; by rewrite ?E1, ?E2, ?E3. Qed.

Lemma halt_check_ok s : may_run s -> halt_check s = Ret tt s.
Proof.
  intros [Hu H0 _ _]. unfold halt_check, kget, kbind, kret. destruct (Z.eqb_spec this_cpu 0) as [E0|E0]; simpl.
  - destruct (Z.eqb_spec (nuser_tasks s) 0); [by destruct Hu|]. by destruct (this_cpu =? 0).
  - destruct (Z.eqb_spec this_cpu 0); [done|]. simpl. by rewrite H0.
Qed.

Definition saved (cx : task) (now : Z) : task := set_status TASK_RUNNABLE (set_time (s64 (t_budget cx - s64 (u64 (now - t_stamp cx)))) now cx).

Lemma save_current_ok s c cx xs ys : queues_ok s xs ys -> cur_task s = Some c -> objs s !! c = Some cx -> t_status cx = TASK_RUNNING ->
  c ∉ xs ++ ys -> is_Some (qs s !! TaskNode c) ->
  exists s1, save_current s = Ret tt s1 /\ queues_ok s1 xs (c :: ys) /\ objs s1 = <[c := saved cx (tsc (ticks s))]> (objs s)
    /\ cur_task s1 = None /\ pidmap s1 = pidmap s /\ (may_run s -> may_run s1).
Proof.
  intros [R N D] Hc Hx Hst Hn Hnode. unfold save_current, kget. unfold kbind at 1. rewrite Hc. cbn iota.
  rewrite (krun _ _ _ _ _ (get_task_ok _ _ _ Hx)). rewrite bool_decide_true by done. unfold read_tsc at 1. unfold kbind at 1.
  erewrite krun; [|eapply mod_task_ok; exact Hx]. cbn [with_objs with_ticks objs ticks].
  erewrite krun; [|eapply mod_task_ok; apply lookup_insert_eq]. cbn [with_objs with_ticks objs ticks].
  destruct (list_add_spec (qs s) MyNextq (TaskNode <$> ys) (TaskNode c) N Hnode) as (h & E1 & N1 & T1).
  { rewrite not_elem_of_cons. split; [done|]. apply notin_node. set_solver. }
  assert (queues_ok (with_qs h s) xs (c :: ys)) as Q.
  { constructor; [|exact N1|].
    - apply (queue_apart _ _ _ MyNextq _ (c :: ys) _ R T1); [simpl; set_solver|by apply head_apart|done|].
      apply NoDup_app in D as (_ & D & _). set_solver.
    - apply NoDup_app in D as (D1 & D2 & D3). apply NoDup_app. split; [done|]. split; [|apply NoDup_cons; set_solver]. set_solver. }
  destruct ((t_cpunum cx =? this_cpu) && (runq_len s >? 0)); unfold kmodify, kret, q_op; unfold kbind;
    cbn [with_len with_objs with_ticks with_qs with_cur objs qs]; rewrite E1; (eexists; split; [reflexivity|]);
    (split; [by eapply queues_frame|]); (split; [by rewrite insert_insert_eq|]); (split; [done|]); (split; [done|]); intros H; by eapply may_run_frame.
Qed.

(** Moving the whole next queue to the run queue keeps its order. *)
Lemma move_all_ok ys : forall fuel s zs i, (length ys < fuel)%nat -> queues_ok s zs ys ->
  exists h, move_loop fuel None MyNextq MyRunq (kret tt) i s = Ret (i + Z.of_nat (length ys)) (with_qs h s) /\ queues_ok (with_qs h s) (ys ++ zs) [].
Proof.
  induction ys as [|y ys IH] using rev_ind; intros fuel s zs i Hf Q; (destruct fuel as [|fuel]; [simpl in Hf; lia|]); cbn [move_loop];
    destruct Q as [R N D]; pose proof (list_is_empty_spec _ _ _ N) as He.
  - simpl in He. exists (qs s). rewrite (krun _ _ _ _ _ (q_get_ok _ _ _ He)). cbn iota. simpl. rewrite Z.add_0_r. destruct s. split; [done|].
    by constructor.
  - rewrite bool_decide_false in He by (rewrite fmap_app; by destruct (TaskNode <$> ys)).
    pose proof (list_pop_tail_spec _ _ _ N) as Hp. rewrite fmap_app in Hp. simpl in Hp. rewrite last_snoc in Hp.
    destruct Hp as (h & l & E1 & E2 & D1 & D2 & T1). apply app_inj_tail in E1 as [<- _].
    apply NoDup_app in D as (Dz & Dd & (Dy & Dyy & _)%NoDup_app).
    assert (y ∉ zs /\ y ∉ ys) as [Hyz Hyy]. { split; [intros Hin; apply (Dd y Hin); set_solver|intros Hin; apply (Dyy y Hin); set_solver]. }
    assert (dlist h MyRunq (TaskNode <$> zs)) as R1.
    { apply (queue_apart _ _ _ MyNextq _ (ys ++ [y]) _ R T1); [by rewrite fmap_app|by apply head_apart|done|]. set_solver. }
    destruct (list_add_spec h MyRunq (TaskNode <$> zs) (TaskNode y) R1) as (h2 & E3 & R2 & T2).
    { eapply touches_is_Some; [exact T1|]. eapply dlist_node; [exact N|]. rewrite fmap_app. simpl. set_solver. }
    { rewrite not_elem_of_cons. split; [done|]. by apply notin_node. }
    assert (dlist h2 MyNextq (TaskNode <$> ys)) as N2.
    { apply (queue_apart _ _ _ MyRunq _ (y :: zs) _ D1 T2); [simpl; set_solver|by apply head_apart|done|]. set_solver. }
    destruct (IH fuel (with_qs h2 s) (y :: zs) (i + 1)) as (h3 & E4 & Q3).
    { rewrite length_app in Hf. simpl in Hf. lia. }
    { constructor; [exact R2|exact N2|]. simpl. apply NoDup_cons. split; [rewrite elem_of_app; tauto|]. apply NoDup_app.
      split; [done|]. split; [|done]. intros u Hu Hu'. apply (Dd u Hu). set_solver. }
    exists h3. rewrite (krun _ _ _ _ _ (q_get_ok _ _ _ He)). cbn iota.
    rewrite (krun _ _ _ _ _ (q_run_ok _ _ _ _ E2)). rewrite (krun _ _ _ _ _ (q_op_ok (with_qs h s) _ h2 E3)).
    unfold kbind at 1, kret at 1. split; [|by rewrite <- app_assoc]. change (with_qs h2 (with_qs h s)) with (with_qs h2 s).
    rewrite E4. rewrite length_app. simpl. f_equal. lia.
Qed.

(** Taking the lock of the global queue, after giving it up if this CPU holds it. *)
Lemma relock_ok {A} s (f : Z -> K pstate A) : may_run s -> exists l r,
  (has <-- haslock_runq;; (if has : bool then unlock_runq else kret tt);;; got <-- trylock_runq;; f got) s
    = f 1 (with_runq_lock l (with_rank r s))
  /\ rank l = 0 /\ lk_cpu l = Some this_cpu.
Proof.
  intros [_ _ Hr Hl]. unfold haslock_runq, spin_haslock, trylock_runq, spin_trylock, acquire_checks.
  unfold kbind at 1. destruct (holding this_cpu (runq_lock s)) eqn:Hh.
  - unfold unlock_runq, spin_unlock, release_checks, kbind. rewrite Hh, Hr. unfold holding in Hh. apply andb_prop in Hh as [Hh _].
    rewrite Hh. simpl. eexists _, _. split; [reflexivity|]. by split.
  - assert (locked (runq_lock s) = 0) as Hz.
    { destruct Hl as [?|Hl]; [done|]. unfold holding in Hh. rewrite Hl, bool_decide_true, andb_true_r in Hh by done.
      apply negb_false_iff, Z.eqb_eq in Hh. done. }
    unfold kbind, kret. rewrite Hh, Hr, Hz. simpl. eexists _, _. split; [reflexivity|]. by split.
Qed.

(** What the current task becomes when it yields. *)
Definition yielded (s : pstate) (c : Z) : gmap Z task :=
  match objs s !! c with Some cx => <[c := saved cx (tsc (ticks s))]> (objs s) | None => objs s end.

(** The next task in a queue in order of service, and the queue behind it. *)
Fixpoint serve (o : gmap Z task) (q : list Z) : option (Z * list Z) :=
  match q with
  | [] => None
  | t :: q => match o !! t with
      | Some x => if bool_decide (t_status x = TASK_RUNNABLE) then Some (t, q) else serve o q
      | None => None
      end
  end.

(** Every queued task exists. *)
Definition queued_ok (s : pstate) (q : list Z) : Prop := forall t, t ∈ q -> is_Some (objs s !! t).

Lemma serve_split o q : (forall t, t ∈ q -> is_Some (o !! t)) -> 
  match serve o q with
  | Some (t, post) => exists pre x, q = pre ++ t :: post /\ o !! t = Some x /\ t_status x = TASK_RUNNABLE
      /\ Forall (fun u => exists y, o !! u = Some y /\ t_status y <> TASK_RUNNABLE) pre
  | None => Forall (fun u => exists y, o !! u = Some y /\ t_status y <> TASK_RUNNABLE) q
  end.
Proof.
  induction q as [|t q IH]; intros Hq; simpl; [done|]. destruct (Hq t) as [x Hx]; [by left|]. rewrite Hx. case_bool_decide as Hr.
  - exists [], x. by split_and!.
  - specialize (IH ltac:(intros; apply Hq; by right)). destruct (serve o q) as [[t' post]|].
    + destruct IH as (pre & y & -> & Hy & Hs & Hp). exists (t :: pre), y. split_and!; try done. constructor; [by exists x|done].
    + constructor; [by exists x|done].
Qed.

Lemma serve_app o p q : serve o (p ++ q) = match serve o p with
  | Some (t, post) => Some (t, post ++ q)
  | None => if bool_decide (Forall (fun t => is_Some (o !! t)) p) then serve o q else None
  end.
Proof.
  induction p as [|t p IH]; simpl; [done|]. destruct (o !! t) as [x|] eqn:Ht.
  - destruct (bool_decide (t_status x = TASK_RUNNABLE)); [done|]. rewrite IH. destruct (serve o p) as [[]|]; [done|].
    erewrite bool_decide_ext; [done|]. rewrite Forall_cons, Ht. naive_solver.
  - rewrite bool_decide_false; [done|]. intros [[x Hx] _]%Forall_cons. congruence.
Qed.

Lemma run_phase s xs ys : queues_ok s xs ys -> queued_ok s (rev xs) ->
  match serve (objs s) (rev xs) with
  | Some (t, post) => exists s', run_loop (S (size (qs s))) s = NoReturn s' /\ started s t s' /\ queues_ok s' (rev post) ys
  | None => exists h, run_loop (S (size (qs s))) s = Ret tt (with_qs h s) /\ queues_ok (with_qs h s) [] ys
  end.
Proof.
  intros Q Hq. pose proof (queue_length _ _ _ (qo_run _ _ _ Q)) as Hl. pose proof (serve_split _ _ Hq) as Hs.
  destruct (serve (objs s) (rev xs)) as [[t post]|].
  - destruct Hs as (pre & x & E1 & Hx & Hst & Hp). apply (f_equal (@rev Z)) in E1. rewrite rev_involutive, rev_app_distr in E1. simpl in E1.
    rewrite <- app_assoc in E1. simpl in E1. rewrite E1 in *. apply (run_loop_start (rev pre)); [|done|by exists x|].
    + rewrite length_app in Hl. simpl in Hl. lia.
    + apply Forall_rev. done.
  - apply (run_loop_drain xs); [done|done|]. apply Forall_rev in Hs. by rewrite rev_involutive in Hs.
Qed.

Lemma pass_run s s1 xs ys t post : save_current s = Ret tt s1 -> may_run s1 -> queues_ok s1 xs ys -> queued_ok s1 (rev xs) ->
  serve (objs s1) (rev xs) = Some (t, post) ->
  exists s', sched_pass s = NoReturn s' /\ started s1 t s' /\ queues_ok s' (rev post) ys.
Proof.
  intros E1 Hm Q Hq Hs. pose proof (run_phase _ _ _ Q Hq) as H1. rewrite Hs in H1. destruct H1 as (s' & E2 & S1 & Q1).
  exists s'. split; [|done]. unfold sched_pass. rewrite (krun _ _ _ _ _ E1), (krun _ _ _ _ _ (halt_check_ok _ Hm)).
  unfold kbind at 1. by rewrite E2.
Qed.

Lemma pass_move s s1 xs ys : save_current s = Ret tt s1 -> may_run s1 -> queues_ok s1 xs ys -> queued_ok s1 (rev xs) ->
  serve (objs s1) (rev xs) = None -> ys <> [] ->
  exists s', sched_pass s = Ret false s' /\ queues_ok s' ys [] /\ objs s' = objs s1 /\ cur_task s' = cur_task s1
    /\ pidmap s' = pidmap s1 /\ may_run s'.
Proof.
  intros E1 Hm Q Hq Hs Hys. pose proof (run_phase _ _ _ Q Hq) as H1. rewrite Hs in H1. destruct H1 as (h & E2 & Q1).
  unfold sched_pass. rewrite (krun _ _ _ _ _ E1), (krun _ _ _ _ _ (halt_check_ok _ Hm)).
  unfold kbind at 1. rewrite E2. 
  edestruct (relock_ok (A := bool) (with_qs h s1)) as (l & r & E3 & Hr & Hl); [by eapply may_run_frame|]. rewrite E3. clear E3. cbv beta. change (1 =? 0) with false. cbn iota.
  set (s2 := with_runq_lock l (with_rank r (with_qs h s1))).
  assert (queues_ok s2 [] ys) as Q2 by (by eapply queues_frame).
  pose proof (list_is_empty_spec _ _ _ (qo_next _ _ _ Q2)) as He. rewrite bool_decide_false in He by (by destruct ys).
  rewrite (krun _ _ _ _ _ (q_get_ok s2 _ _ He)). cbn [negb].
  destruct (move_all_ok ys (S (size (qs s2))) s2 [] 0) as (h3 & E4 & Q3); [apply (queue_length _ _ _ (qo_next _ _ _ Q2))|done|].
  unfold move. unfold kbind at 1. rewrite E4. rewrite app_nil_r in Q3. unfold kmodify, kret, kbind. eexists. split; [reflexivity|].
  split; [by eapply queues_frame|]. do 3 (split; [done|]). destruct Hm. constructor; try done. by right.
Qed.

Lemma sched_yield_ok n s c cx xs ys : queues_ok s xs ys -> cur_task s = Some c -> objs s !! c = Some cx -> t_status cx = TASK_RUNNING ->
  c ∉ xs ++ ys -> is_Some (qs s !! TaskNode c) -> queued_ok s (xs ++ ys) -> may_run s ->
  exists t post s' s1 xs' ys', serve (yielded s c) (rev xs ++ rev ys ++ [c]) = Some (t, post)
    /\ sched_yield (S (S n)) s = NoReturn s' /\ started s1 t s' /\ objs s1 = yielded s c /\ pidmap s1 = pidmap s
    /\ queues_ok s' xs' ys' /\ post = rev xs' ++ rev ys'.
Proof.
  intros Q Hc Hx Hst Hn Hnode Hq Hm.
  destruct (save_current_ok _ _ _ _ _ Q Hc Hx Hst Hn Hnode) as (s1 & E1 & Q1 & Ho & Hc1 & Hp & Hm1). specialize (Hm1 Hm).
  assert (objs s1 = yielded s c) as Hy by (unfold yielded; by rewrite Hx).
  assert (forall u, u ∈ xs ++ c :: ys -> is_Some (objs s1 !! u)) as Hin.
  { intros u Hu. rewrite Ho. apply lookup_insert_is_Some. destruct (decide (c = u)); [by left|]. right. split; [done|]. apply Hq. set_solver. }
  assert (queued_ok s1 (rev xs)) as Hq1 by (intros u Hu%rev_elem; apply Hin; apply elem_of_app; by left).
  rewrite <- Hy. cbn [sched_yield]. destruct (serve (objs s1) (rev xs)) as [[t post]|] eqn:Hs.
  - destruct (pass_run _ _ _ _ _ _ E1 Hm1 Q1 Hq1 Hs) as (s' & E2 & S1 & Q2).
    exists t, (post ++ rev ys ++ [c]), s', s1, (rev post), (c :: ys). rewrite serve_app, Hs. split_and!; try done.
    + unfold kbind at 1. by rewrite E2.
    + by rewrite rev_involutive.
  - destruct (pass_move _ _ _ _ E1 Hm1 Q1 Hq1 Hs ltac:(done)) as (s2 & E2 & Q2 & Ho2 & Hc2 & Hp2 & Hm2).
    rewrite (krun _ _ _ _ _ E2). assert (save_current s2 = Ret tt s2) as E3.
    { unfold save_current, kget, kbind. by rewrite Hc2, Hc1. }
    assert (queued_ok s2 (rev (c :: ys))) as Hq2 by (intros u Hu%rev_elem; rewrite Ho2; apply Hin; apply elem_of_app; by right).
    pose proof (serve_split _ _ Hq2) as Hsv. change (rev ys ++ [c]) with (rev (c :: ys)).
    destruct (serve (objs s2) (rev (c :: ys))) as [[t post]|] eqn:Hs2.
    + destruct (pass_run _ _ _ _ _ _ E3 Hm2 Q2 Hq2 Hs2) as (s' & E4 & S1 & Q3).
      exists t, post, s', s2, (rev post), []. rewrite serve_app, Hs, bool_decide_true by (apply Forall_forall; exact Hq1).
      rewrite <- Ho2, Hs2. split_and!; try done.
      * cbn [sched_yield]. unfold kbind at 1. by rewrite E4.
      * congruence.
      * simpl. by rewrite app_nil_r, rev_involutive.
    + exfalso. rewrite Forall_forall in Hsv. destruct (Hsv c) as (y & Hy' & Hne); [apply elem_of_rev; by left|].
      rewrite Ho2, Ho, lookup_insert_eq in Hy'. injection Hy' as <-. by destruct Hne.
Qed.

End Sched.

(** ** Properties *)

Section Scheduler.
Context {M : machine}.

(** C5 (refinement): yielding refines a first-in first-out scheduler. With the queues in
    order of service (the run queue oldest first, then the next queue oldest first, then the
    yielding task, now runnable and charged for its time), [sched_yield] never returns but
    starts the first runnable task, skipping the others; that task runs on this CPU in its own
    address space with a positive time budget and its registers intact, no other task
    changes, and the queues left hold the rest in the same order. *)
Theorem sched_yield_fifo (s : pstate) (c : Z) (cx : task) (xs ys : list Z) (n : nat) :
  queues_ok s xs ys -> queued_ok s (xs ++ ys) -> may_run s ->
  cur_task s = Some c -> objs s !! c = Some cx -> t_status cx = TASK_RUNNING -> c ∉ xs ++ ys -> is_Some (qs s !! TaskNode c) ->
  exists t post s' xs' ys', serve (yielded s c) (rev xs ++ rev ys ++ [c]) = Some (t, post)
    /\ sched_yield (S (S n)) s = NoReturn s'
    /\ cur_task s' = Some t
    /\ (exists x y, yielded s c !! t = Some x /\ objs s' !! t = Some y /\ t_status y = TASK_RUNNING /\ t_cpunum y = this_cpu
          /\ t_pid y = t_pid x /\ t_frame y = t_frame x /\ cr3 s' = t_pml4 x /\ 0 < t_budget y)
    /\ (forall u, u <> t -> objs s' !! u = yielded s c !! u)
    /\ queues_ok s' xs' ys' /\ post = rev xs' ++ rev ys'.
Proof.
  intros Q Hq Hm Hc Hx Hst Hn Hnode.
  destruct (sched_yield_ok n s c cx xs ys) as (t & post & s' & s1 & xs' & ys' & E1 & E2 & S1 & Ho & Hp & Q' & E3); try done.
  exists t, post, s', xs', ys'. destruct S1 as [Hcur Hself Hoth _ _]. rewrite Ho in Hself, Hoth. by split_and!.
Qed.

End Scheduler.

(** Four tasks: 100 runs, 200 (runnable) and 300 (waiting) are in the run queue, 300 for
    longer, and 400 is in the next queue. *)
Definition demo_task (pid ppid : Z) (st : status) : task := mk_task pid ppid TASK_TYPE_USER st 0 0 0 None None 10 0 zero_frame pid 0.
Definition demo_nodes : gmap qloc (list_node qloc) :=
  list_to_map ((fun q => (q, mk_node q q)) <$> ([Runq; MyRunq; MyNextq]
    ++ concat ((fun t => [Children t; Zombies t; TaskNode t; ChildNode t]) <$> [100; 200; 300; 400]))).
(** Sixteen frames; those of the page tables, 1 to 4 and the kernel's 5, are in use and empty. *)
Definition demo_phys : mstate :=
  mk_mstate (list_to_map ((fun i => (i, mk_page (if i <=? 5 then 1 else 0) 0 0 1 0 0 None)) <$> seqZ 0 16)) 16
    (list_to_map ((fun l => (l, mk_node l l)) <$> (ActivePages :: (FreeList <$> seqZ 0 11) ++ (PpNode <$> seqZ 0 16) ++ (ActiveNode <$> seqZ 0 16))))
    ∅ (static_lock "buddy_lock") (static_lock "active_pages_lock") 0 None 5 [].
Definition demo_sched : pstate :=
  let h := default demo_nodes (list_add demo_nodes MyRunq (TaskNode 300) ≫= fun h => list_add h MyRunq (TaskNode 200)
             ≫= fun h => list_add h MyNextq (TaskNode 400) ≫= fun h => list_add h (Children 100) (ChildNode 200)
             ≫= fun h => list_add h (Children 100) (ChildNode 300)) in
  mk_ps (list_to_map [(100, demo_task 1 0 TASK_RUNNING); (200, demo_task 2 1 TASK_RUNNABLE); (300, demo_task 3 1 TASK_NOT_RUNNABLE);
                      (400, demo_task 4 2 TASK_RUNNABLE)])
    (list_to_map [(1, 100); (2, 200); (3, 300); (4, 400)]) h (Some 100) 1 4 0 false false (static_lock "runq_lock") (static_lock "kthread_lock")
    (list_to_map [(100, no_areas); (200, no_areas); (300, no_areas); (400, no_areas)]) demo_phys [] [] [] 0.
#[local] Instance demo_machine : machine :=
  Machine default_config 0 (fun n => Z.of_nat n) (fun _ => 0) 0xFFFFFE0000000000 ltac:(discriminate) 5 (fun _ => None) (fun _ => None) 9 9 None.

Lemma demo_queues : queues_ok demo_sched [200; 300] [400].
Proof.
  constructor.
  - split; [by_eval|]. by repeat split.
  - split; [by_eval|]. by repeat split.
  - by_eval.
Qed.

Lemma sched_yield_fifo_witness : exists t post s' xs' ys',
  serve (yielded demo_sched 100) [300; 200; 400; 100] = Some (t, post)
    /\ sched_yield 2 demo_sched = NoReturn s' /\ cur_task s' = Some t
    /\ queues_ok s' xs' ys' /\ post = rev xs' ++ rev ys'.
Proof.
  destruct (sched_yield_fifo demo_sched 100 (demo_task 1 0 TASK_RUNNING) [200; 300] [400] 0)
    as (t & post & s' & xs' & ys' & E1 & E2 & E3 & _ & _ & Q & E4).
  - exact demo_queues.
  - intros t Ht. repeat (apply elem_of_cons in Ht as [->|Ht]; [vm_compute; eauto|]). by apply not_elem_of_nil in Ht.
  - constructor; [done|done|done|by left].
  - reflexivity.
  - reflexivity.
  - reflexivity.
  - by_eval.
  - vm_compute; eauto.
  - exists t, post, s', xs', ys'. by split_and!.
Defined.

(** The run it describes: 300 is skipped and 200 starts, 400 and 100 wait in that order. *)
Example demo_yield : match sched_yield 2 demo_sched with
  | NoReturn s' => cur_task s' = Some 200 /\ list_foreach (qs s') MyNextq 9 = Some [TaskNode 100; TaskNode 400]
  | _ => False
  end.
Proof. vm_compute. by split. Qed.

(** C11 (safety): with the permission check, [pid2task] of a positive PID gives a task only
    when the PID map has it and it is the caller or one of the caller's children, and then
    it gives that task; it changes nothing. *)
Theorem pid2task_permission (s : pstate) (pid : Z) : pids_ok s -> 0 < pid ->
  exists r, pid2task pid true s = Ret r s
    /\ forall t, r = Some t <-> pid < pid_max /\ pidmap s !! pid = Some t /\ own s t.
Proof. apply pid2task_ok. Qed.

Lemma demo_pids : pids_ok demo_sched.
Proof.
  constructor.
  - assert (map_Forall (fun _ t => is_Some (objs demo_sched !! t)) (pidmap demo_sched)) as Hm.
    { by_eval. } exact Hm.
  - exists 100. split; [done|]. vm_compute. eauto.
Qed.

Lemma pid2task_permission_witness : exists r, pid2task 4 true demo_sched = Ret r demo_sched
    /\ forall t, r = Some t <-> 4 < pid_max /\ pidmap demo_sched !! 4 = Some t /\ own demo_sched t.
Proof. apply (pid2task_permission demo_sched 4); [exact demo_pids|lia]. Defined.

(** The grandchild is refused, the child is given. *)
Example demo_pid2task : pid2task 4 true demo_sched = Ret None demo_sched /\ pid2task 2 true demo_sched = Ret (Some 200) demo_sched.
Proof. by split. Qed.
