(* ===== verification/ExitThm.v ===== *)
(** * The end of a task: what the operations of Proc.v compute

    Freeing a task orphans its children, gives up its PID and its memory, and tells its
    parent: a parent that waits for it is woken with the exit status, and otherwise the
    task stays a zombie until the parent waits. *)

From Stdlib Require Import ZArith Lia.
From stdpp Require Import strings base gmap fin_maps list.
From S2P Require Import Prelude ListHeap Spinlock RbTree MemState Buddy Walk Ptbl Vma Task Proc ProcThm.

#[local] Open Scope Z_scope.
#[local] Open Scope kernel_scope.

(** ** Memory operations and the rest of the state *)

(** What the memory code can see of the tasks. *)
Definition mem_view (x : task) : Z * Z := (t_pml4 x, t_rss x).
Record same_mem (s s' : pstate) : Prop := {
  sm_phys : phys s' = phys s;
  sm_spaces : spaces s' = spaces s;
  sm_copied : copied s' = copied s;
  sm_cur : cur_task s' = cur_task s;
  sm_objs : forall t, mem_view <$> objs s' !! t = mem_view <$> objs s !! t
}.

(** What the memory code leaves: everything but memory and resident sets. *)
Record same_proc (s s' : pstate) : Prop := {
  sp_objs : set_rss 0 <$> objs s' = set_rss 0 <$> objs s;
  sp_pids : pidmap s' = pidmap s;
  sp_qs : qs s' = qs s;
  sp_cur : cur_task s' = cur_task s;
  sp_len : runq_len s' = runq_len s;
  sp_users : nuser_tasks s' = nuser_tasks s;
  sp_uwrites : uwrites s' = uwrites s
}.

Lemma same_proc_refl s : same_proc s s.
Proof. by constructor. Qed.
Lemma same_proc_trans s s' s'' : same_proc s s' -> same_proc s' s'' -> same_proc s s''.
Proof. intros [] []. constructor; congruence. Qed.
Lemma same_mem_refl s : same_mem s s.
Proof. by constructor. Qed.
Lemma same_mem_sym s s' : same_mem s s' -> same_mem s' s.
Proof. intros []. by constructor. Qed.
Lemma same_mem_trans s s' s'' : same_mem s s' -> same_mem s' s'' -> same_mem s s''.
Proof. intros [A1 A2 A3 A4 A5] [B1 B2 B3 B4 B5]. constructor; try congruence. Qed.

Lemma task_ref_same s s' : same_mem s s' -> task_ref_of s' = task_ref_of s.
Proof.
  intros [_ _ _ Hc Ho]. unfold task_ref_of. rewrite Hc. destruct (cur_task s) as [c|]; [|done]. simpl.
  specialize (Ho c). destruct (objs s' !! c) as [x|], (objs s !! c) as [y|]; try done. injection Ho as E1 E2. simpl. by rewrite E1, E2.
Qed.
Lemma mem_in_same s s' : same_mem s s' -> mem_in s' = mem_in s.
Proof. intros Hs. unfold mem_in. by rewrite (task_ref_same _ _ Hs), (sm_phys _ _ Hs). Qed.

Lemma mem_out_same m s s' : same_mem s s' -> same_mem (mem_out m s) (mem_out m s').
Proof.
  intros []. unfold mem_out. destruct (MemState.cur_task m) as [r|]; constructor; cbn; try done. intros t.
  rewrite !lookup_alter. case_decide as Ht; [|done]. subst t. rewrite <- !option_fmap_compose. specialize (sm_objs0 (task_id r)).
  destruct (objs s' !! _) as [x|], (objs s !! _) as [y|]; try done. injection sm_objs0 as E1 E2. unfold compose, mem_view; simpl. by rewrite E1.
Qed.
Lemma mem_out_proc m s : same_proc s (mem_out m s).
Proof.
  unfold mem_out. destruct (MemState.cur_task m) as [r|]; constructor; cbn; try done. apply map_eq. intros t.
  rewrite !lookup_fmap, lookup_alter. case_decide as Ht; [|done]. subst t. by destruct (objs s !! _).
Qed.

(** A computation that works on the memory only: it does the same to every state with this memory,
    and leaves the rest. *)
Definition memory_only {A} (f : K pstate A) : Prop := forall s a s1 s', f s = Ret a s1 -> same_mem s s' ->
  exists s1', f s' = Ret a s1' /\ same_mem s1 s1' /\ same_proc s' s1'.

Lemma mo_bind {A B} (f : K pstate A) (g : A -> K pstate B) : memory_only f -> (forall a, memory_only (g a)) -> memory_only (kbind f g).
Proof.
  intros Hf Hg s b s2 s' E1 Hs. unfold kbind in E1. destruct (f s) as [a s1| | | |] eqn:Ef; try done.
  destruct (Hf _ _ _ _ Ef Hs) as (s1' & E2 & Hm & Hp). destruct (Hg a _ _ _ _ E1 Hm) as (s2' & E3 & Hm2 & Hp2).
  exists s2'. rewrite (krun _ _ _ _ _ E2). split; [done|]. split; [done|]. by eapply same_proc_trans.
Qed.

Lemma mo_on_mem {A} stop (m : K mstate A) : memory_only (on_mem stop m).
Proof.
  intros s a s1 s' E1 Hs. unfold on_mem in *. rewrite (mem_in_same _ _ Hs). destruct (m (mem_in s)) as [v x| | | |x]; try done.
  - injection E1 as <- <-. eexists. split; [done|]. split; [by apply mem_out_same|apply mem_out_proc].
  - unfold kbind in E1. by destruct (stop _).
Qed.

Lemma mo_on_space {A} stop t (m : K vmstate A) : memory_only (on_space stop t m).
Proof.
  intros s a s1 s' E1 Hs. unfold on_space in *. rewrite (mem_in_same _ _ Hs), (sm_spaces _ _ Hs), (sm_copied _ _ Hs).
  destruct (spaces s !! t) as [ar|]; [|done]. destruct (m _) as [v x| | | |x]; try done.
  - injection E1 as <- <-. eexists. split; [done|]. split.
    + apply mem_out_same. destruct Hs. constructor; cbn; congruence.
    + eapply same_proc_trans; [|apply mem_out_proc]. by constructor.
  - unfold kbind in E1. by destruct (stop _).
Qed.

Lemma mo_pml4 {A} t (g : Z -> K pstate A) : (forall f, memory_only (g f)) -> memory_only (x <-- get_task t;; g (t_pml4 x)).
Proof.
  intros Hg s a s1 s' E1 Hs. unfold kbind, get_task, kderef, kret in *. pose proof (sm_objs _ _ Hs t) as Ho.
  destruct (objs s !! t) as [x|]; [|done]. destruct (objs s' !! t) as [y|]; [|done]. injection Ho as E2 _. rewrite E2. by eapply (Hg (t_pml4 x)).
Qed.

Section Exit.
Context {M : machine}.

Lemma mo_free_space t : memory_only (free_space t).
Proof.
  apply mo_bind; [apply mo_on_space|]. intros _.
  apply (mo_pml4 t (fun f => on_mem _ (unmap_user_pages cfg this_cpu (fun m => NoReturn m) f);;;
    on_mem _ (page <-- pa2page (page2pa f);; page_decref cfg this_cpu page))).
  intros f. apply mo_bind; [apply mo_on_mem|]. intros _. apply mo_on_mem.
Qed.

(** ** Orphans *)

(** The children lose their parent. *)
Definition orphan (x : task) : task := set_ids (t_pid x) 0 x.
Definition orphaned (cs : list Z) (o : gmap Z task) : gmap Z task := foldl (fun o u => alter orphan u o) o cs.

Lemma orphaned_lookup cs o u : orphaned cs o !! u = if bool_decide (u ∈ cs) then orphan <$> o !! u else o !! u.
Proof.
  revert o. induction cs as [|c cs IH]; intros o; simpl; [done|]. rewrite IH, lookup_alter.
  assert (forall z : option task, orphan <$> (orphan <$> z) = orphan <$> z) as Hi by (by intros [[]|]).
  repeat case_bool_decide; repeat case_decide; subst; rewrite ?Hi; try done; set_solver.
Qed.

Lemma orphan_loop_ok t cs : forall fuel s, (length cs < fuel)%nat -> dlist (qs s) (Children t) (ChildNode <$> cs) ->
  Forall (fun u => is_Some (objs s !! u)) cs ->
  exists h, orphan_loop fuel t (default (Children t) (head (ChildNode <$> cs))) s = Ret tt (with_objs (orphaned cs (objs s)) (with_qs h s))
    /\ dlist h (Children t) [] /\ touches (qs s) (Children t :: (ChildNode <$> cs)) h.
Proof.
  induction cs as [|c cs IH]; intros fuel s Hf D Hex; (destruct fuel as [|fuel]; [simpl in Hf; lia|]); cbn [orphan_loop].
  - simpl. rewrite bool_decide_true by done. exists (qs s). split; [by destruct s|]. by split.
  - change (default (Children t) (head (ChildNode <$> c :: cs))) with (ChildNode c). rewrite bool_decide_false by done. apply Forall_cons in Hex as [[x Hx] Hex].
    pose proof (dlist_position (qs s) (Children t) [ChildNode c] _ D) as (Hn & _ & _ & _). simpl in Hn.
    rewrite (krun _ _ _ _ _ (q_get_ok s _ _ Hn)). cbn [task_of_node]. rewrite kret_run.
    destruct (list_del_spec (qs s) (Children t) [] (ChildNode c) _ D) as (h1 & E1 & D1 & D2 & T1). simpl in D1, T1.
    rewrite (krun _ _ _ _ _ (q_op_ok s (fun h => list_del h (ChildNode c)) _ E1)).
    destruct (list_init_spec h1 (ChildNode c)) as (h2 & E2 & D3 & T2). { eapply dlist_node; [exact D2|]. by left. }
    rewrite (krun _ _ _ _ _ (q_op_ok (with_qs h1 s) (fun h => list_init h (ChildNode c)) _ E2)).
    rewrite (krun _ _ _ _ _ (mod_task_ok (with_qs h2 (with_qs h1 s)) c x _ Hx)).
    destruct (IH fuel (with_objs (<[c := orphan x]> (objs s)) (with_qs h2 s))) as (h & E3 & D4 & T3).
    { simpl in Hf. lia. }
    { cbn. eapply dlist_touches; [exact D1|exact T2|]. intros q ->%list_elem_of_singleton. apply dlist_nodup in D as [Hnd Hhd].
      apply NoDup_cons in Hnd as [Hnd _]. rewrite not_elem_of_cons. split; [done|exact Hnd]. }
    { cbn. eapply Forall_impl; [exact Hex|]. intros u Hu. apply lookup_insert_is_Some. destruct (decide (c = u)); [by left|by right]. }
    exists h. split; [|split; [exact D4|]].
    + assert (orphaned (c :: cs) (objs s) = orphaned cs (<[c := orphan x]> (objs s))) as ->.
      { unfold orphaned. cbn [foldl]. f_equal. apply map_eq. intros u. rewrite lookup_alter, lookup_insert.
        case_decide as Hu; [subst u; by rewrite Hx|done]. }
      exact E3.
    + eapply touches_weaken; [exact (touches_trans _ _ _ _ _ T1 (touches_trans _ _ _ _ _ T2 T3))|]. set_solver.
Qed.

(** ** Tearing a task down *)

Definition own_nodes (t : Z) : list qloc := [Children t; Zombies t; TaskNode t; ChildNode t].

(** The state after the task [t] with the children [cs] is gone; [m] is the memory after its own is freed. *)
Record gone (t : Z) (x : task) (cs : list Z) (m : mstate) (s s' : pstate) : Prop := {
  go_objs : set_rss 0 <$> objs s' = set_rss 0 <$> delete t (orphaned cs (objs s));
  go_pids : pidmap s' = delete (t_pid x) (pidmap s);
  go_cur : cur_task s' = cur_task s;
  go_users : nuser_tasks s' = if bool_decide (t_type x = TASK_TYPE_USER) then u64 (nuser_tasks s - 1) else nuser_tasks s;
  go_uwrites : uwrites s' = uwrites s;
  go_phys : phys s' = m;
  go_qs : forall q, q ∉ own_nodes t ++ (ChildNode <$> cs) -> qs s' !! q = qs s !! q
}.

Lemma dlist_first (h : gmap qloc (list_node qloc)) hd xs : dlist h hd xs -> get_next h hd = Some (default hd (head xs)).
Proof. intros D. by destruct (dlist_position h hd [] xs D) as (Hn & _). Qed.

Lemma kfree_task_ok s t x : objs s !! t = Some x -> exists s', kfree_task t s = Ret tt s' /\ objs s' = delete t (objs s)
  /\ pidmap s' = pidmap s /\ cur_task s' = cur_task s /\ nuser_tasks s' = nuser_tasks s /\ uwrites s' = uwrites s /\ phys s' = phys s
  /\ (forall q, q ∉ own_nodes t -> qs s' !! q = qs s !! q).
Proof.
  intros Hx. unfold kfree_task. rewrite Hx. eexists. split; [reflexivity|]. do 6 (split; [done|]). intros q Hq. cbn.
  unfold own_nodes in Hq. rewrite !lookup_delete_ne; set_solver.
Qed.

Lemma teardown_ok free s t x cs s1 : objs s !! t = Some x -> t ∉ cs -> Forall (fun u => is_Some (objs s !! u)) cs ->
  dlist (qs s) (Children t) (ChildNode <$> cs) -> dlist (qs s) (Zombies t) [] -> dlist (qs s) (TaskNode t) [] ->
  free_space t s = Ret tt s1 ->
  exists s', teardown free t s = Ret tt s' /\ gone t x cs (phys s1) s s'.
Proof.
  intros Hx Ht Hex DC DZ DT Hfree. unfold teardown. rewrite (krun _ _ _ _ _ (q_get_ok s _ _ (dlist_first _ _ _ DC))).
  destruct (orphan_loop_ok t cs (S (size (qs s))) s) as (h & E1 & D1 & T1); try done.
  { apply dlist_size in DC. rewrite length_fmap in DC. lia. }
  rewrite (krun (fun s => orphan_loop (S (size (qs s))) t _ s) _ s _ _ E1). set (sA := with_objs (orphaned cs (objs s)) (with_qs h s)).
  assert (dlist (qs sA) (Zombies t) []) as DZ1.
  { eapply dlist_touches; [exact DZ|exact T1|]. intros q Hq ->%list_elem_of_singleton. set_solver. }
  rewrite (krun _ _ _ _ _ (q_get_ok sA _ _ (dlist_first _ _ _ DZ1))). cbn [head default from_option zombie_loop].
  rewrite bool_decide_true by done. rewrite kret_run.
  assert (dlist (qs sA) (TaskNode t) []) as DT1.
  { eapply dlist_touches; [exact DT|exact T1|]. intros q Hq ->%list_elem_of_singleton. set_solver. }
  destruct (list_del_self _ _ DT1) as (h2 & E2 & T2 & _). rewrite (krun _ _ _ _ _ (q_op_ok sA (fun h => list_del h (TaskNode t)) _ E2)).
  assert (objs sA !! t = Some x) as HxA by (cbn; by rewrite orphaned_lookup, bool_decide_false).
  rewrite (krun _ _ _ _ _ (get_task_ok (with_qs h2 sA) t x HxA)). unfold kmodify at 1. unfold kbind at 1.
  set (sB := with_pidmap (delete (t_pid x) (pidmap (with_qs h2 sA))) (with_qs h2 sA)).
  set (n := if bool_decide (t_type x = TASK_TYPE_USER) then u64 (nuser_tasks s - 1) else nuser_tasks s).
  assert ((if bool_decide (t_type x = TASK_TYPE_USER) then kmodify (fun s => with_users (u64 (nuser_tasks s - 1)) s) else kret tt) sB
    = Ret tt (with_users n sB)) as E3.
  { subst n. by case_bool_decide. }
  rewrite (krun _ _ _ _ _ E3). destruct (mo_free_space t s tt s1 (with_users n sB) Hfree) as (sC & E4 & Hm & Hp).
  { constructor; try done. intros u. cbn. rewrite orphaned_lookup. destruct (bool_decide (u ∈ cs)); [|done]. by destruct (objs s !! u). }
  rewrite (krun _ _ _ _ _ E4). destruct Hp as [Po Pp Pq Pc Pl Pu Pw].
  assert (is_Some (objs sC !! t)) as [y Hy].
  { apply (f_equal (fun m => m !! t)) in Po. rewrite !lookup_fmap in Po. cbn in Po. rewrite orphaned_lookup, bool_decide_false, Hx in Po by done.
    destruct (objs sC !! t); [by eexists|done]. }
  destruct (kfree_task_ok sC t y Hy) as (s' & E5 & K1 & K2 & K3 & K4 & K5 & K6 & K7). exists s'. split; [exact E5|]. constructor.
  - rewrite K1, !fmap_delete, Po. done.
  - by rewrite K2, Pp.
  - by rewrite K3, Pc.
  - by rewrite K4, Pu.
  - by rewrite K5, Pw.
  - by rewrite K6, (sm_phys _ _ Hm).
  - intros q Hq. rewrite K7, Pq by set_solver. cbn. rewrite (proj1 T2), (proj1 T1); [done|set_solver|set_solver].
Qed.

(** ** The parent *)

(** The parent of [t], as [task_free] finds it; whom it waits for exists. *)
Record has_parent (s : pstate) (x : task) (p : Z) (px : task) : Prop := {
  hp_pid : 0 < t_ppid x < pid_max;
  hp_map : pidmap s !! t_ppid x = Some p;
  hp_obj : objs s !! p = Some px;
  hp_wait : forall w, t_wait px = Some w -> is_Some (objs s !! w)
}.
(** The parent waits for any child or for [t]. *)
Definition waits_for (px : task) (t : Z) : bool :=
  bool_decide (t_status px = TASK_NOT_RUNNABLE) && (bool_decide (t_wait px = None) || bool_decide (t_wait px = Some t)).

Lemma note_parent_ok s x p px : has_parent s x p px -> note_parent (t_pid x) (Some p) s = Ret tt s.
Proof.
  intros [_ _ Hp Hw]. unfold note_parent. destruct (t_pid x =? 2); [|done]. rewrite (krun _ _ _ _ _ (get_task_ok _ _ _ Hp)).
  destruct (t_wait px) as [w|]; [|done]. destruct (Hw w eq_refl) as [y Hy]. by rewrite (krun _ _ _ _ _ (get_task_ok _ _ _ Hy)).
Qed.

Lemma pid2task_parent s x p px : has_parent s x p px -> (t_ppid x =? 0) = false /\ pid2task (t_ppid x) false s = Ret (Some p) s.
Proof.
  intros [Hp Hm _ _]. split; [by apply Z.eqb_neq; lia|]. unfold pid2task, kget, kbind. destruct (Z.eqb_spec (t_ppid x) 0); [lia|].
  destruct (t_ppid x >=? pid_max) eqn:Hg; [lia|]. destruct (Z.ltb_spec (t_ppid x) 0); [lia|]. by rewrite Hm.
Qed.

Lemma notify_skip s t x p px : objs s !! t = Some x -> has_parent s x p px -> waits_for px t = false -> cur_task s <> Some t ->
  notify_parent t s = Ret false s.
Proof.
  intros Hx Hp Hw Hc. unfold notify_parent. rewrite (krun _ _ _ _ _ (get_task_ok _ _ _ Hx)).
  destruct (pid2task_parent _ _ _ _ Hp) as [E1 E2]. rewrite E1, (krun _ _ _ _ _ E2), (krun _ _ _ _ _ (note_parent_ok _ _ _ _ Hp)).
  rewrite (krun _ _ _ _ _ (get_task_ok _ _ _ (hp_obj _ _ _ _ Hp))). unfold kget, kbind. unfold waits_for in Hw. rewrite Hw.
  rewrite bool_decide_false by congruence. done.
Qed.

(** The family of a task: its children, who exist and are other tasks, and no zombies of its own. *)
Record family (s : pstate) (t : Z) (cs : list Z) : Prop := {
  fa_children : dlist (qs s) (Children t) (ChildNode <$> cs);
  fa_zombies : dlist (qs s) (Zombies t) [];
  fa_exist : Forall (fun u => is_Some (objs s !! u)) cs;
  fa_other : t ∉ cs
}.

(** Freeing a task that neither runs here nor is waited for. *)
Lemma task_free_other s fuel t x p px cs s1 : objs s !! t = Some x -> has_parent s x p px -> waits_for px t = false -> p <> t ->
  cur_task s <> Some t -> family s t cs -> dlist (qs s) (TaskNode t) [] -> free_space t s = Ret tt s1 ->
  exists s', task_free (S fuel) t s = Ret tt s' /\ gone t (set_status TASK_DYING x) cs (phys s1) (with_objs (<[t := set_status TASK_DYING x]> (objs s)) s) s'.
Proof.
  intros Hx Hp Hw Hpt Hc [FC FZ FE FO] DT Hfree. cbn [task_free]. rewrite (krun _ _ _ _ _ (mod_task_ok s t x _ Hx)). unfold kget. unfold kbind at 1.
  set (sd := with_objs _ s). change (cur_task sd) with (cur_task s). rewrite bool_decide_false by congruence. rewrite kret_run.
  rewrite (krun _ _ _ _ _ (notify_skip sd t (set_status TASK_DYING x) p px (lookup_insert_eq _ _ _) ltac:(destruct Hp; constructor; try done;
    [by cbn; rewrite lookup_insert_ne|intros w Hw'; cbn; apply lookup_insert_is_Some; destruct (decide (t = w)); [by left|right; auto]]) Hw Hc)).
  destruct (mo_free_space t s tt s1 sd Hfree) as (s1' & E1 & Hm & _).
  { constructor; try done. intros u. cbn. rewrite lookup_insert. case_decide as Hu; [subst u; by rewrite Hx|done]. }
  destruct (teardown_ok (task_free fuel) sd t (set_status TASK_DYING x) cs s1') as (s' & E2 & G); try done.
  - apply lookup_insert_eq.
  - eapply Forall_impl; [exact FE|]. intros u Hu. cbn. apply lookup_insert_is_Some. destruct (decide (t = u)); [by left|by right].
  - exists s'. split; [exact E2|]. by rewrite (sm_phys _ _ Hm) in G.
Qed.

(** ** Waiting *)

Lemma store_status_ok s rstatus z zx : objs s !! z = Some zx ->
  store_status rstatus z s = Ret tt (with_uwrites (match rstatus with Some a => (cr3 s, a, t_exit_status zx) :: uwrites s | None => uwrites s end) s).
Proof.
  intros Hz. unfold store_status. destruct rstatus as [a|]; [|by destruct s].
  by rewrite (krun _ _ _ _ _ (get_task_ok _ _ _ Hz)).
Qed.

Lemma childless_ok s c cs zs : dlist (qs s) (Children c) (ChildNode <$> cs) -> dlist (qs s) (Zombies c) (TaskNode <$> zs) ->
  childless c s = Ret (bool_decide (cs = []) && bool_decide (zs = [])) s.
Proof.
  intros DC DZ. unfold childless. rewrite (krun _ _ _ _ _ (q_get_ok s _ _ (list_is_empty_spec _ _ _ DC))).
  destruct cs as [|u cs]; [|done]. simpl. rewrite (q_get_ok s _ _ (list_is_empty_spec _ _ _ DZ)). by destruct zs.
Qed.

Lemma sys_wait_ok s c cx z zx zs ccs cs s1 rstatus : cur_task s = Some c -> objs s !! c = Some cx -> t_status cx = TASK_RUNNING ->
  dlist (qs s) (Children c) (ChildNode <$> ccs) -> dlist (qs s) (Zombies c) (TaskNode <$> z :: zs) ->
  objs s !! z = Some zx -> z <> c -> has_parent s zx c cx -> family s z cs -> free_space z s = Ret tt s1 ->
  exists s', sys_wait rstatus s = Ret (t_pid zx) s'
    /\ set_rss 0 <$> objs s' = set_rss 0 <$> delete z (orphaned cs (objs s))
    /\ pidmap s' = delete (t_pid zx) (pidmap s)
    /\ uwrites s' = match rstatus with Some a => (cr3 s, a, t_exit_status zx) :: uwrites s | None => uwrites s end
    /\ dlist (qs s') (Zombies c) (TaskNode <$> zs) /\ cur_task s' = Some c /\ phys s' = phys s1.
Proof.
  intros Hc Hcx Hst DC DZ Hz Hzc Hp Hfam Hfree. unfold sys_wait, current. unfold kbind at 1. unfold kderef at 1. rewrite Hc. unfold kret at 1.
  rewrite (krun _ _ _ _ _ (childless_ok _ _ _ _ DC DZ)), andb_false_r.
  rewrite (krun _ _ _ _ _ (q_get_ok s _ _ (dlist_first _ _ _ DZ))). change (default (Zombies c) (head (TaskNode <$> z :: zs))) with (TaskNode z).
  rewrite bool_decide_false by done. cbn [task_of_node]. rewrite kret_run. unfold reap.
  rewrite (krun _ _ _ _ _ (store_status_ok s rstatus z zx Hz)). set (w := match rstatus with Some a => _ | None => _ end).
  rewrite (krun _ _ _ _ _ (get_task_ok (with_uwrites w s) z zx Hz)).
  destruct (list_del_spec (qs s) (Zombies c) [] (TaskNode z) _ DZ) as (h & E1 & D1 & D2 & T1). simpl in D1, T1.
  rewrite (krun _ _ _ _ _ (q_op_ok (with_uwrites w s) (fun h => list_del h (TaskNode z)) _ E1)).
  set (s2 := with_qs h (with_uwrites w s)). pose proof DZ as [Hnd _]%dlist_nodup. apply NoDup_cons in Hnd as [Hzz _].
  assert (forall hd xs, hd <> Zombies c -> (forall u, hd <> TaskNode u) -> (forall q, q ∈ xs -> exists u, q = ChildNode u) -> dlist (qs s) hd xs -> dlist (qs s2) hd xs) as Hfr.
  { intros hd xs H1 H2 H3 D. eapply dlist_touches; [exact D|exact T1|]. intros q Hq Hin.
    apply elem_of_cons in Hin as [->|(u & ->)%H3].
    - apply elem_of_cons in Hq as [?|Hq]; [done|]. apply elem_of_cons in Hq as [Hq|(v & Hq & _)%list_elem_of_fmap]; by eapply H2.
    - apply elem_of_cons in Hq as [?|Hq]; [done|]. apply elem_of_cons in Hq as [Hq|(v & Hq & _)%list_elem_of_fmap]; done. }
  destruct Hfam as [FC FZ FE FO].
  destruct (mo_free_space z s tt s1 s2 Hfree ltac:(by constructor)) as (s1' & E2 & Hm & _).
  destruct (task_free_other s2 (size (objs s2)) z zx c cx cs s1') as (s' & E3 & G); try done.
  - destruct Hp. by constructor.
  - unfold waits_for. by rewrite Hst.
  - change (cur_task s <> Some z). congruence.
  - constructor; [apply (Hfr _ _); [done|done| |exact FC]|apply (Hfr _ _); [congruence|done|set_solver|exact FZ]|done|done].
    intros q (u & -> & _)%list_elem_of_fmap. by exists u.
  - change (task_free (free_fuel s2) z s2 = Ret tt s') in E3. exists s'. rewrite (krun (fun s => task_free (free_fuel s) z s) _ s2 _ _ E3).
    destruct G as [G1 G2 G3 G4 G5 G6 G7]. split; [done|]. change (cur_task s2) with (cur_task s) in G3. cbn [with_objs cur_task] in G3.
    split; [|split; [exact G2|split; [exact G5|split; [|split; [etransitivity; [exact G3|exact Hc]|]]]]].
    + rewrite G1. cbn. f_equal. apply map_eq. intros u. destruct (decide (z = u)) as [->|Hu]; [by rewrite !lookup_delete_eq|].
      by rewrite !lookup_delete_ne, !orphaned_lookup, lookup_insert_ne.
    + eapply dlist_ext; [exact D1|]. intros q Hq. apply G7. unfold own_nodes. apply elem_of_cons in Hq as [->|(u & -> & Hu)%list_elem_of_fmap].
      * intros Hin. repeat (apply elem_of_cons in Hin as [Hin|Hin]; [by simplify_eq|]). by apply list_elem_of_fmap in Hin as (? & ? & _).
      * intros Hin. repeat (apply elem_of_cons in Hin as [Hin|Hin]; [simplify_eq; try done; by apply Hzz, (list_elem_of_fmap_2 TaskNode)|]).
        by apply list_elem_of_fmap in Hin as (? & ? & _).
    + by rewrite G6, (sm_phys _ _ Hm).
Qed.

(** ** Ending the current task *)

(** The current task [c] with its parent [p]: off the queues, among the children of [p]. *)
Record ending (s : pstate) (c : Z) (cx : task) (p : Z) (px : task) (l1 l2 zs : list Z) : Prop := {
  en_cur : cur_task s = Some c;
  en_obj : objs s !! c = Some cx;
  en_parent : has_parent s cx p px;
  en_ne : p <> c;
  en_node : dlist (qs s) (TaskNode c) [];
  en_children : dlist (qs s) (Children p) (ChildNode <$> l1 ++ c :: l2);
  en_zombies : dlist (qs s) (Zombies p) (TaskNode <$> zs);
  en_not_zombie : c ∉ zs
}.

(** The state in which [notify_parent] runs. *)
Definition dying (s : pstate) (c : Z) (cx : task) : pstate := with_cr3 kernel_pml4 (with_objs (<[c := set_status TASK_DYING cx]> (objs s)) s).

Lemma has_parent_frame s s' t x p px : has_parent s x p px -> pidmap s' = pidmap s -> p <> t ->
  (forall u, u <> t -> objs s' !! u = objs s !! u) -> is_Some (objs s' !! t) -> has_parent s' (set_status TASK_DYING x) p px.
Proof.
  intros [H1 H2 H3 H4] Ep Hne Ho Ht. constructor; [done|by rewrite Ep|by rewrite Ho|].
  intros w Hw. destruct (decide (w = t)) as [->|Hwt]; [done|]. rewrite Ho by done. by apply H4.
Qed.

Lemma dying_parent s c cx p px l1 l2 zs : ending s c cx p px l1 l2 zs -> has_parent (dying s c cx) (set_status TASK_DYING cx) p px.
Proof.
  intros []. eapply has_parent_frame; [done|done|done| |].
  - intros u Hu. cbn. by rewrite lookup_insert_ne.
  - cbn. rewrite lookup_insert_eq. by eexists.
Qed.

(** What [task_free] does first, when the task is the current one. *)
Lemma task_free_current s fuel c cx p px l1 l2 zs : ending s c cx p px l1 l2 zs ->
  task_free (S fuel) c s = (zombie <-- notify_parent c;; if zombie : bool then kret tt else teardown (task_free fuel) c) (dying s c cx).
Proof.
  intros []. cbn [task_free]. rewrite (krun _ _ _ _ _ (mod_task_ok s c cx _ en_obj0)). unfold kget. unfold kbind at 1.
  match goal with |- context [cur_task ?s'] => change (cur_task s') with (cur_task s) end. rewrite en_cur0. by rewrite bool_decide_true.
Qed.

Lemma notify_start s c cx p px l1 l2 zs : ending s c cx p px l1 l2 zs -> notify_parent c (dying s c cx) =
  (s <-- kget;;
   if waits_for px c then
     (match t_wait_exit_status px with
      | Some a => let old_pml4 := cr3 s in kmodify (with_cr3 (t_pml4 px));;; user_write (t_pml4 px) a (t_exit_status cx);;; kmodify (with_cr3 old_pml4)
      | None => kret tt
      end);;;
     mod_task p (set_t_rax (t_pid cx));;;
     mod_task p (set_status TASK_RUNNABLE);;;
     q_op (fun h => list_del h (ChildNode c));;;
     q_op (fun h => list_add h MyRunq (TaskNode p));;;
     kret false
   else
     q_op (fun h => list_del h (TaskNode c));;;
     q_op (fun h => list_del h (ChildNode c));;;
     q_op (fun h => list_add_tail h (Zombies p) (TaskNode c));;;
     kret true) (dying s c cx).
Proof.
  intros E. pose proof (dying_parent _ _ _ _ _ _ _ _ E) as Hp. destruct E. unfold notify_parent.
  rewrite (krun _ _ _ _ _ (get_task_ok (dying s c cx) c (set_status TASK_DYING cx) (lookup_insert_eq _ _ _))).
  destruct (pid2task_parent _ _ _ _ Hp) as [E1 E2]. rewrite E1, (krun _ _ _ _ _ E2), (krun _ _ _ _ _ (note_parent_ok _ _ _ _ Hp)).
  rewrite (krun _ _ _ _ _ (get_task_ok _ _ _ (hp_obj _ _ _ _ Hp))). unfold kget, kbind at 1 3. cbv beta iota. fold (waits_for px c).
  destruct (waits_for px c); [done|]. change (cur_task (dying s c cx)) with (cur_task s). rewrite en_cur0. by rewrite bool_decide_true.
Qed.

Lemma children_split (l1 : list Z) c l2 : ChildNode <$> l1 ++ c :: l2 = (ChildNode <$> l1) ++ ChildNode c :: (ChildNode <$> l2).
Proof. by rewrite fmap_app. Qed.

Lemma become_zombie_ok s c cx p px l1 l2 zs : ending s c cx p px l1 l2 zs -> waits_for px c = false ->
  exists h, notify_parent c (dying s c cx) = Ret true (with_qs h (dying s c cx))
    /\ dlist h (Zombies p) (TaskNode <$> zs ++ [c]) /\ dlist h (Children p) (ChildNode <$> l1 ++ l2).
Proof.
  intros E Hw. rewrite (notify_start _ _ _ _ _ _ _ _ E), Hw. destruct E. unfold kget. unfold kbind at 1.
  set (s0 := dying s c cx). destruct (list_del_self (qs s0) (TaskNode c) en_node0) as (h1 & E1 & T1 & D1).
  rewrite (krun _ _ _ _ _ (q_op_ok s0 (fun h => list_del h (TaskNode c)) _ E1)).
  assert (dlist h1 (Children p) (ChildNode <$> l1 ++ c :: l2)) as DC1.
  { eapply dlist_touches; [exact en_children0|exact T1|]. intros q ->%list_elem_of_singleton. set_solver. }
  assert (dlist h1 (Zombies p) (TaskNode <$> zs)) as DZ1.
  { eapply dlist_touches; [exact en_zombies0|exact T1|]. intros q ->%list_elem_of_singleton. rewrite not_elem_of_cons.
    split; [done|by apply notin_node]. }
  rewrite children_split in DC1. destruct (list_del_spec h1 (Children p) _ (ChildNode c) _ DC1) as (h2 & E2 & DC2 & _ & T2).
  rewrite (krun _ _ _ _ _ (q_op_ok (with_qs h1 s0) (fun h => list_del h (ChildNode c)) _ E2)).
  assert (forall q, (forall u, q <> ChildNode u) -> q <> Children p -> q ∉ Children p :: (ChildNode <$> l1) ++ ChildNode c :: (ChildNode <$> l2)) as Hno.
  { intros q H1 H2. rewrite not_elem_of_cons. split; [done|]. rewrite <- children_split. intros (u & -> & _)%list_elem_of_fmap. by eapply H1. }
  assert (dlist h2 (Zombies p) (TaskNode <$> zs)) as DZ2.
  { eapply dlist_touches; [exact DZ1|exact T2|]. intros q Hq Hin. revert Hq. apply Hno.
    - intros u ->. apply elem_of_cons in Hin as [?|(v & ? & _)%list_elem_of_fmap]; done.
    - intros ->. apply elem_of_cons in Hin as [?|(v & ? & _)%list_elem_of_fmap]; done. }
  destruct (list_add_tail_spec h2 (Zombies p) _ (TaskNode c) DZ2) as (h3 & E3 & DZ3 & T3).
  { eapply touches_is_Some; [exact T2|]. eapply touches_is_Some; [exact T1|]. eapply dlist_node; [exact en_node0|by left]. }
  { rewrite not_elem_of_cons. split; [done|by apply notin_node]. }
  rewrite (krun _ _ _ _ _ (q_op_ok (with_qs h2 s0) (fun h => list_add_tail h (Zombies p) (TaskNode c)) _ E3)).
  exists h3. split; [done|]. rewrite !fmap_app. split; [exact DZ3|]. eapply dlist_touches; [exact DC2|exact T3|]. 
  intros q Hq Hin. apply elem_of_cons in Hin as [->|Hin].
  - apply elem_of_cons in Hq as [?|Hq]; [done|]. apply elem_of_cons in Hq as [?|(v & ? & _)%list_elem_of_fmap]; done.
  - rewrite <- fmap_app in Hin. apply list_elem_of_fmap in Hin as (u & -> & _). apply elem_of_cons in Hq as [?|Hq]; [done|].
    apply elem_of_cons in Hq as [?|(v & ? & _)%list_elem_of_fmap]; done.
Qed.

(** The parent, woken with the exit status of [c]. *)
Definition woken (cx px : task) : task := set_status TASK_RUNNABLE (set_t_rax (t_pid cx) px).
Definition delivered (s : pstate) (cx px : task) : list (Z * Z * Z) :=
  match t_wait_exit_status px with Some a => (t_pml4 px, a, t_exit_status cx) :: uwrites s | None => uwrites s end.

Lemma wake_parent_ok s c cx p px l1 l2 zs rs : ending s c cx p px l1 l2 zs -> waits_for px c = true ->
  dlist (qs s) MyRunq (TaskNode <$> rs) -> p ∉ rs -> is_Some (qs s !! TaskNode p) ->
  exists h, notify_parent c (dying s c cx) =
      Ret false (with_qs h (with_objs (<[p := woken cx px]> (objs (dying s c cx))) (with_uwrites (delivered s cx px) (dying s c cx))))
    /\ dlist h MyRunq (TaskNode <$> p :: rs) /\ dlist h (Children p) (ChildNode <$> l1 ++ l2)
    /\ touches (qs s) (Children p :: MyRunq :: TaskNode p :: (ChildNode <$> l1 ++ c :: l2) ++ (TaskNode <$> rs)) h.
Proof.
  intros E Hw DR Hpr Hpn. pose proof (dying_parent _ _ _ _ _ _ _ _ E) as Hp. rewrite (notify_start _ _ _ _ _ _ _ _ E), Hw. destruct E.
  unfold kget. unfold kbind at 1. set (s0 := dying s c cx).
  assert ((match t_wait_exit_status px with
      | Some a => let old_pml4 := cr3 s0 in kmodify (with_cr3 (t_pml4 px));;; user_write (t_pml4 px) a (t_exit_status cx);;; kmodify (with_cr3 old_pml4)
      | None => kret tt end) s0 = Ret tt (with_uwrites (delivered s cx px) s0)) as E0.
  { unfold delivered. by destruct (t_wait_exit_status px). }
  rewrite (krun _ _ _ _ _ E0). set (s1 := with_uwrites (delivered s cx px) s0).
  rewrite (krun _ _ _ _ _ (mod_task_ok s1 p px _ (hp_obj _ _ _ _ Hp))).
  rewrite (krun _ _ _ _ _ (mod_task_ok (with_objs (<[p := set_t_rax (t_pid cx) px]> (objs s1)) s1) p _ _ (lookup_insert_eq _ _ _))).
  rewrite children_split in en_children0. destruct (list_del_spec (qs s) (Children p) _ (ChildNode c) _ en_children0) as (h1 & E1 & DC1 & _ & T1).
  match goal with |- context [kbind (q_op _) _ ?x] => set (s2 := x) end.
  rewrite (krun _ _ _ _ _ (q_op_ok s2 (fun h => list_del h (ChildNode c)) _ E1)).
  rewrite <- children_split in T1.
  assert (dlist h1 MyRunq (TaskNode <$> rs)) as DR1.
  { eapply dlist_touches; [exact DR|exact T1|]. intros q Hq Hin.
    apply elem_of_cons in Hq as [->|(u & -> & _)%list_elem_of_fmap]; apply elem_of_cons in Hin as [?|(v & ? & _)%list_elem_of_fmap]; done. }
  destruct (list_add_spec h1 MyRunq _ (TaskNode p) DR1) as (h2 & E2 & DR2 & T2).
  { by eapply touches_is_Some. }
  { rewrite not_elem_of_cons. split; [done|by apply notin_node]. }
  rewrite (krun _ _ _ _ _ (q_op_ok (with_qs h1 s2) (fun h => list_add h MyRunq (TaskNode p)) _ E2)).
  exists h2. split; [|split; [exact DR2|split]].
  - unfold kret. f_equal. subst s2 s1. cbn. by rewrite insert_insert_eq.
  - rewrite fmap_app. eapply dlist_touches; [exact DC1|exact T2|]. intros q Hq Hin. rewrite <- fmap_app in Hin.
    apply elem_of_cons in Hin as [->|(u & -> & _)%list_elem_of_fmap].
    + apply elem_of_cons in Hq as [?|Hq]; [done|]. apply elem_of_cons in Hq as [?|(v & ? & _)%list_elem_of_fmap]; done.
    + apply elem_of_cons in Hq as [?|Hq]; [done|]. apply elem_of_cons in Hq as [?|(v & ? & _)%list_elem_of_fmap]; done.
  - eapply touches_weaken; [exact (touches_trans _ _ _ _ _ T1 T2)|]. set_solver.
Qed.

Lemma exit_wakes_ok s fuel c cx p px l1 l2 zs rs cs s1 : ending s c cx p px l1 l2 zs -> waits_for px c = true ->
  dlist (qs s) MyRunq (TaskNode <$> rs) -> p ∉ rs -> c ∉ rs -> is_Some (qs s !! TaskNode p) ->
  family s c cs -> (forall u, u ∈ cs -> u ∉ l1 ++ c :: l2) -> free_space c (with_cr3 kernel_pml4 s) = Ret tt s1 ->
  exists s', task_free (S fuel) c s = Ret tt s'
    /\ set_rss 0 <$> objs s' = set_rss 0 <$> delete c (orphaned cs (<[p := woken cx px]> (objs s)))
    /\ pidmap s' = delete (t_pid cx) (pidmap s) /\ uwrites s' = delivered s cx px
    /\ dlist (qs s') MyRunq (TaskNode <$> p :: rs) /\ phys s' = phys s1.
Proof.
  intros E Hw DR Hpr Hcr Hpn [FC FZ FE FO] Hdis Hfree.
  destruct (wake_parent_ok s c cx p px l1 l2 zs rs E Hw DR Hpr Hpn) as (h & E1 & DR1 & DC1 & T).
  pose proof (hp_obj _ _ _ _ (en_parent _ _ _ _ _ _ _ _ E)) as Hpo.
  rewrite (task_free_current _ _ _ _ _ _ _ _ _ E), (krun _ _ _ _ _ E1). cbv beta iota. destruct E.
  set (s2 := with_qs h _).
  assert (forall hd xs, hd ∉ [MyRunq; Children p] -> (forall u, hd = TaskNode u -> u = c) -> (forall q, q ∈ xs -> exists u, u ∈ cs /\ q = ChildNode u) ->
    (forall u, hd <> ChildNode u) -> dlist (qs s) hd xs -> dlist h hd xs) as Hfr.
  { intros hd xs H1 H2 H3 H4 D. eapply dlist_touches; [exact D|exact T|]. intros q Hq Hin.
    apply elem_of_cons in Hin as [->|(u & Hu & ->)%H3].
    - repeat (apply elem_of_cons in Hq as [Hq|Hq]; [set_solver|]). apply elem_of_app in Hq as [(v & -> & _)%list_elem_of_fmap|(v & -> & Hv)%list_elem_of_fmap].
      + by eapply H4.
      + by rewrite (H2 v eq_refl) in Hv.
    - repeat (apply elem_of_cons in Hq as [Hq|Hq]; [done|]). apply elem_of_app in Hq as [(v & [= <-] & Hv)%list_elem_of_fmap|(v & ? & _)%list_elem_of_fmap]; [|done].
      by apply (Hdis u Hu). }
  destruct (mo_free_space c (with_cr3 kernel_pml4 s) tt s1 s2 Hfree) as (s1' & E2 & Hm & _).
  { constructor; try done. intros u. cbn. rewrite !lookup_insert. repeat case_decide; subst; rewrite ?en_obj0, ?Hpo; done. }
  destruct (teardown_ok (task_free fuel) s2 c (set_status TASK_DYING cx) cs s1') as (s' & E3 & [G1 G2 G3 G4 G5 G6 G7]).
  - cbn. by rewrite lookup_insert_ne, lookup_insert_eq.
  - exact FO.
  - eapply Forall_impl; [exact FE|]. intros u Hu. cbn. rewrite !lookup_insert_is_Some. destruct (decide (p = u)), (decide (c = u)); tauto.
  - apply Hfr; [set_solver|done| |done|exact FC]. intros q (u & -> & Hu)%list_elem_of_fmap. by exists u.
  - apply Hfr; [set_solver|done|set_solver|done|exact FZ].
  - apply Hfr; [set_solver|by intros u [= ->]|set_solver|done|exact en_node0].
  - exact E2.
  - exists s'. split; [exact E3|]. split; [|split; [exact G2|split; [exact G5|split]]].
    + rewrite G1. f_equal. apply map_eq. intros u. destruct (decide (c = u)) as [->|Hu]; [by rewrite !lookup_delete_eq|].
      rewrite !lookup_delete_ne, !orphaned_lookup by done. cbn. rewrite !lookup_insert. repeat case_decide; subst; done.
    + eapply dlist_ext; [exact DR1|]. intros q Hq. apply G7. intros Hin. unfold own_nodes in Hin.
      apply elem_of_app in Hin as [Hin|(u & -> & _)%list_elem_of_fmap]; [|by apply elem_of_cons in Hq as [?|(v & ? & _)%list_elem_of_fmap]].
      apply elem_of_cons in Hq as [->|(v & -> & Hv)%list_elem_of_fmap]; [set_solver|].
      assert (v = c) as -> by set_solver. apply elem_of_cons in Hv as [?|?]; [congruence|done].
    + by rewrite G6, (sm_phys _ _ Hm).
Qed.

End Exit.

(** ** Properties *)

Section Claims.
Context {M : machine}.


(** Fact (functional): a task that ends while its parent does not wait for it becomes a zombie:
    it is dying but keeps its PID, its exit status and its memory, it moves from the
    parent's children to the end of the parent's zombies, and the CPU leaves its address
    space. *)
Theorem exit_becomes_zombie (s : pstate) (fuel : nat) (c : Z) (cx : task) (p : Z) (px : task) (l1 l2 zs : list Z) :
  ending s c cx p px l1 l2 zs -> waits_for px c = false ->
  exists s', task_free (S fuel) c s = Ret tt s'
    /\ objs s' = <[c := set_status TASK_DYING cx]> (objs s) /\ pidmap s' = pidmap s /\ spaces s' = spaces s
    /\ frames (phys s') = frames (phys s) /\ pages (phys s') = pages (phys s) /\ cr3 s' = kernel_pml4
    /\ dlist (qs s') (Zombies p) (TaskNode <$> zs ++ [c]) /\ dlist (qs s') (Children p) (ChildNode <$> l1 ++ l2).
Proof.
  intros E Hw. destruct (become_zombie_ok _ _ _ _ _ _ _ _ E Hw) as (h & E1 & DZ & DC).
  rewrite (task_free_current _ _ _ _ _ _ _ _ _ E), (krun _ _ _ _ _ E1). eexists. split; [reflexivity|]. by split_and!.
Qed.


End Claims.

(** ** Three generations: 100, its child 200 that ended with 7, and that one's child 300 *)

#[local] Existing Instance demo_machine.
Definition demo_family (parent child : task) (links : gmap qloc (list_node qloc) -> option (gmap qloc (list_node qloc))) (cur : Z) : pstate :=
  mk_ps (list_to_map [(100, parent); (200, child); (300, demo_task 3 2 TASK_RUNNABLE)])
    (list_to_map [(1, 100); (2, 200); (3, 300)]) (default demo_nodes (links demo_nodes)) (Some cur) 1 3 0 false false
    (Spinlock.static_lock "runq_lock") (Spinlock.static_lock "kthread_lock")
    (list_to_map [(100, no_areas); (200, no_areas); (300, no_areas)]) demo_phys [] [] [] 0.

Definition demo_ended : task := set_exit 7 (demo_task 2 1 TASK_DYING).
Definition demo_wait : pstate := demo_family (demo_task 1 0 TASK_RUNNING) demo_ended
  (fun h => list_add h (Zombies 100) (TaskNode 200) ≫= fun h => list_add h (Children 200) (ChildNode 300)) 100.

Ltac queue := split; [by_eval|by repeat split].


(** 200 ends: its parent runs, or is asleep and waits for any child, to be told at 4096. *)
Definition demo_running : task := set_exit 7 (demo_task 2 1 TASK_RUNNING).
Definition demo_sleeper : task := set_wait None (Some 4096) (demo_task 1 0 TASK_NOT_RUNNABLE).
Definition demo_links (h : gmap qloc (list_node qloc)) : option (gmap qloc (list_node qloc)) :=
  list_add h (Children 100) (ChildNode 200) ≫= fun h => list_add h (Children 200) (ChildNode 300).
Definition demo_exit (parent : task) : pstate := demo_family parent demo_running demo_links 200.

Lemma demo_ending parent : parent = demo_task 1 0 TASK_RUNNABLE \/ parent = demo_sleeper ->
  ending (demo_exit parent) 200 demo_running 100 parent [] [] [].
Proof.
  intros Hp. constructor; try done; try (destruct Hp as [-> | ->]; queue); [|by apply not_elem_of_nil].
  constructor; [done|done|done|]. by destruct Hp as [-> | ->].
Qed.

Lemma exit_becomes_zombie_witness : exists s', task_free 1 200 (demo_exit (demo_task 1 0 TASK_RUNNABLE)) = Ret tt s'
    /\ dlist (qs s') (Zombies 100) [TaskNode 200] /\ cr3 s' = 5.
Proof.
  destruct (exit_becomes_zombie (demo_exit (demo_task 1 0 TASK_RUNNABLE)) 0 200 demo_running 100 (demo_task 1 0 TASK_RUNNABLE) [] [] [])
    as (s' & E & _ & _ & _ & _ & _ & C & D & _); [apply demo_ending; by left|reflexivity|exists s'; exact (conj E (conj D C))].
Defined.

