(* ===== verification/TrapThm.v ===== *)
(** * Entering the kernel: what the handlers of Trap.v compute *)

From Stdlib Require Import ZArith Lia.
From stdpp Require Import strings base gmap fin_maps list.
From S2P Require Import Prelude ListHeap Spinlock RbTree MemState Buddy Walk Ptbl Vma Task Proc ProcThm Trap.

#[local] Open Scope Z_scope.
#[local] Open Scope kernel_scope.

Section Timer.
Context {M : machine}.
Context (put_user_text : Z -> Z -> K pstate unit) (cons_getc : K pstate Z) (monitor : K pstate unit) (cr2 : Z).
#[local] Abbreviation handle := (int_handler put_user_text cons_getc monitor cr2).
#[local] Abbreviation dispatch := (int_dispatch put_user_text cons_getc monitor cr2).

(** The interrupted task: its registers saved, its budget charged. *)
Definition charge (cx : task) (now : Z) : Z :=
  if t_budget cx >? 0 then s64 (t_budget cx - s64 (u64 (now - t_stamp cx))) else t_budget cx.
Definition interrupted (f : int_frame) (cx : task) (now : Z) : task := set_time (charge cx now) now (set_frame f cx).

(** A timer interrupt in user mode, up to the choice of the next task. *)
Definition ticked (s : pstate) (f : int_frame) (c : Z) (cx : task) : pstate :=
  with_lapic ((LAPIC_EOI, 0) :: (LAPIC_TIMER, Z.lor (last_write LAPIC_TIMER (lapic s)) LAPIC_MASKED) :: lapic s)
    (with_objs (<[c := interrupted f cx (tsc (ticks s))]> (objs s)) (with_ticks (S (ticks s)) s)).

Lemma lapic_eoi_run s : lapic_eoi s = Ret tt (with_lapic ((LAPIC_EOI, 0) :: lapic s) s).
Proof. unfold lapic_eoi. destruct (Z.eqb_spec lapic_base 0) as [E|]; [by destruct lapic_mapped|done]. Qed.

Lemma irq_handler_ok s c x : cur_task s = Some c -> objs s !! c = Some x -> let now := tsc (ticks s) in
  irq_handler (InTask c) s = Ret tt
    (with_lapic ((LAPIC_EOI, 0) :: lapic s) ((if charge x now <=? 0 then with_reschedule true else id)
       (with_objs (<[c := set_time (charge x now) now x]> (objs s)) (with_ticks (S (ticks s)) s)))).
Proof.
  intros Hc Hx now. unfold irq_handler, read_tsc, kget. unfold kbind at 1 2. cbn [with_ticks cur_task]. rewrite Hc.
  rewrite (krun _ _ _ _ _ (get_task_ok (with_ticks (S (ticks s)) s) c x Hx)).
  rewrite (krun _ _ _ _ _ (mod_task_ok (with_ticks (S (ticks s)) s) c x _ Hx)).
  match goal with |- context [kbind (get_task c) _ ?s1] => rewrite (krun _ _ _ _ _ (get_task_ok s1 c _ (lookup_insert_eq _ _ _))) end.
  cbn [set_time t_budget]. change (if t_budget x >? 0 then _ else _) with (charge x now).
  destruct (charge x now <=? 0); unfold kbind, kret, kmodify; by rewrite lapic_eoi_run.
Qed.

Lemma int_dispatch_timer s c x : objs s !! c = Some x -> int_no (t_frame x) = IRQ_TIMER -> dispatch (InTask c) s = irq_handler (InTask c) s.
Proof.
  intros Hx Hn. unfold int_dispatch, read_frame. rewrite (krun _ _ s (t_frame x) s); [|by rewrite (krun _ _ _ _ _ (get_task_ok _ _ _ Hx))].
  by rewrite Hn.
Qed.

(** The handler up to the choice of the next task. *)
Lemma int_handler_timer rfl s f c cx : cur_task s = Some c -> objs s !! c = Some cx -> Z.land (cs f) 3 = 3 -> int_no f = IRQ_TIMER ->
  flag rfl (Z.shiftl 1 9) = false ->
  handle rfl f s = (s <-- kget;;
    (if reschedule s then kmodify (with_reschedule false);;; sched_yield yields else kret tt);;;
    s <-- kget;;
    match cur_task s with Some c => task_run c | None => sched_yield yields end)
    ((if charge cx (tsc (ticks s)) <=? 0 then with_reschedule true else id) (ticked s f c cx)).
Proof.
  intros Hc Hx Hcs Hn Hrf. unfold int_handler, lapic_timer_off, lapic_read, lapic_write, kassert. rewrite Hrf, Hcs.
  cbn [negb Z.eqb Pos.eqb]. unfold kbind at 1 2. unfold kmodify at 1. rewrite kret_run.
  set (s1 := with_lapic _ s). unfold kbind at 1. unfold kget at 1. unfold kbind at 1. change (cur_task s1) with (cur_task s). rewrite Hc.
  rewrite (krun _ _ _ _ _ (mod_task_ok s1 c cx (set_frame f) Hx)).
  rewrite (int_dispatch_timer _ c (set_frame f cx) (lookup_insert_eq _ _ _) Hn).
  set (s2 := with_objs _ s1). unfold kbind at 1. rewrite (irq_handler_ok s2 c (set_frame f cx) Hc (lookup_insert_eq _ _ _)). f_equal. subst s2. subst s1. unfold ticked, interrupted. change (charge (set_frame f cx)) with (charge cx). cbn.
  destruct (charge cx (tsc (ticks s)) <=? 0); cbn; by rewrite insert_insert_eq.
Qed.

Lemma task_run_ok s t x : objs s !! t = Some x -> exists s', task_run t s = NoReturn s' /\ cur_task s' = Some t
  /\ objs s' = <[t := set_runs (u32 (t_runs x + 1)) (set_status TASK_RUNNING x)]> (objs s) /\ cr3 s' = t_pml4 x /\ qs s' = qs s.
Proof.
  intros Hx. unfold task_run. unfold kmodify at 1. unfold kbind at 1.
  rewrite (krun _ _ _ _ _ (mod_task_ok (with_cur (Some t) s) t x _ Hx)).
  match goal with |- context [kbind (mod_task t ?f) _ ?s1] => rewrite (krun _ _ _ _ _ (mod_task_ok s1 t _ f (lookup_insert_eq _ _ _))) end.
  match goal with |- context [kbind (get_task t) _ ?s1] => rewrite (krun _ _ _ _ _ (get_task_ok s1 t _ (lookup_insert_eq _ _ _))) end.
  unfold task_pop_frame, lapic_timer_on, lapic_read, lapic_write, kmodify, kbind. eexists. split; [reflexivity|]. split; [done|].
  split; [cbn; by rewrite insert_insert_eq|]. by split.
Qed.

(** C8 (functional): a timer interrupt in user mode saves the registers of the running task
    and charges it for its time.  While budget is left, that task goes on with exactly the
    registers it was interrupted with; once the budget is used up it is preempted: the
    first runnable task in the order of service starts, and the interrupted one is queued
    behind all others. *)
Theorem timer_interrupt (rfl : Z) (f : int_frame) (s : pstate) (c : Z) (cx : task) (xs ys : list Z) (n : nat) :
  queues_ok s xs ys -> queued_ok s (xs ++ ys) -> may_run s -> reschedule s = false -> yields = S (S n) ->
  cur_task s = Some c -> objs s !! c = Some cx -> t_status cx = TASK_RUNNING -> c ∉ xs ++ ys -> is_Some (qs s !! TaskNode c) ->
  Z.land (cs f) 3 = 3 -> int_no f = IRQ_TIMER -> flag rfl (Z.shiftl 1 9) = false ->
  exists s', handle rfl f s = NoReturn s' /\
    if charge cx (tsc (ticks s)) <=? 0 then
      exists t post xs' ys', serve (yielded (ticked s f c cx) c) (rev xs ++ rev ys ++ [c]) = Some (t, post)
        /\ cur_task s' = Some t /\ (forall u, u <> t -> objs s' !! u = yielded (ticked s f c cx) c !! u)
        /\ queues_ok s' xs' ys' /\ post = rev xs' ++ rev ys'
    else cur_task s' = Some c /\ qs s' = qs s /\ cr3 s' = t_pml4 cx
      /\ objs s' = <[c := set_runs (u32 (t_runs cx + 1)) (set_status TASK_RUNNING (interrupted f cx (tsc (ticks s))))]> (objs s).
Proof.
  intros Q Hq Hm Hre Hy Hc Hx Hst Hn Hnode Hcs Hno Hrf. rewrite (int_handler_timer rfl s f c cx) by done.
  set (s0 := ticked s f c cx). assert (objs s0 !! c = Some (interrupted f cx (tsc (ticks s)))) as H0 by apply lookup_insert_eq.
  destruct (charge cx (tsc (ticks s)) <=? 0).
  - unfold kget at 1. unfold kbind at 1. cbn [with_reschedule reschedule]. unfold kmodify at 1.
    set (s1 := with_reschedule false (with_reschedule true s0)).
    destruct (sched_yield_ok n s1 c (interrupted f cx (tsc (ticks s))) xs ys) as (t & post & s' & s2 & xs' & ys' & E1 & E2 & S1 & Ho & _ & Q' & E3); try done.
    + by eapply queues_frame.
    + intros u Hu. cbn. apply lookup_insert_is_Some. destruct (decide (c = u)); [by left|right]. split; [done|by apply Hq].
    + by eapply may_run_frame.
    + exists s'. split; [rewrite Hy; unfold kbind; change (with_reschedule false _) with s1; by rewrite E2|]. exists t, post, xs', ys'. split; [exact E1|]. destruct S1 as [Hcur _ Hoth _ _].
      split; [done|]. split; [|by split]. intros u Hu. by rewrite (Hoth u Hu), Ho.
  - unfold kget at 1. unfold kbind at 1. cbn [id]. change (reschedule s0) with (reschedule s). rewrite Hre, kret_run.
    unfold kget, kbind at 1. change (cur_task s0) with (cur_task s). rewrite Hc.
    destruct (task_run_ok s0 c _ H0) as (s' & E1 & E2 & E3 & E4 & E5). exists s'. split; [exact E1|]. split; [done|]. split; [done|].
    split; [done|]. rewrite E3. subst s0. cbn. by rewrite insert_insert_eq.
Qed.

End Timer.

#[local] Existing Instance demo_machine.
(** The interrupt finds 100 with 10 cycles of budget and 3 since its time stamp: it goes on. *)
Definition demo_frame : int_frame := mk_frame 0x1b 0 0 0 0 0 0 0 0 0 0 0 0 0 0 42 32 0 4096 0x23 0x202 8192 0x1b.
Lemma timer_interrupt_witness : exists s', int_handler (fun _ _ => kret tt) (kret 0) (kret tt) 0 0 demo_frame (with_ticks 3 demo_sched) = NoReturn s'
  /\ cur_task s' = Some 100 /\ qs s' = qs demo_sched.
Proof.
  destruct (timer_interrupt (fun _ _ => kret tt) (kret 0) (kret tt) 0 0 demo_frame (with_ticks 3 demo_sched) 100
    (demo_task 1 0 TASK_RUNNING) [200; 300] [400] 7) as (s' & E & H).
  - exact (queues_frame demo_sched (with_ticks 3 demo_sched) _ _ demo_queues eq_refl).
  - intros t Ht. repeat (apply elem_of_cons in Ht as [->|Ht]; [vm_compute; eauto|]). by apply not_elem_of_nil in Ht.
  - constructor; [discriminate|reflexivity|reflexivity|by left].
  - reflexivity.
  - reflexivity.
  - reflexivity.
  - reflexivity.
  - reflexivity.
  - by_eval.
  - vm_compute; eauto.
  - reflexivity.
  - reflexivity.
  - reflexivity.
  - exists s'. split; [exact E|]. destruct H as (H1 & H2 & _). exact (conj H1 H2).
Defined.
