(* ===== verification/PtblThm.v ===== *)
(** * Changing page tables: theorems

    What [page_insert] does to the translation, when it does nothing, and which of the
    routines invalidate the TLB; allocation of page tables against the interface of the
    page allocator; protection bits. *)

From Stdlib Require Import ZArith Lia.
From stdpp Require Import strings base gmap fin_maps list.
From S2P Require Import Prelude ListHeap Spinlock MemState Buddy BuddyInv BuddyThm Walk WalkThm Ptbl.

#[local] Open Scope Z_scope.
#[local] Open Scope kernel_scope.

(** ** What a computation leaves alone *)

(** [m] does not change [obs] when it returns. *)
Definition keeps {S T A} (obs : S -> T) (m : K S A) : Prop := forall s a s', m s = Ret a s' -> obs s' = obs s.

Section Keeps.
Context {S T : Type} (obs : S -> T).

Lemma keeps_ret {A} (a : A) : keeps obs (kret a).
Proof. by intros s a' s' [= _ <-]. Qed.

Lemma keeps_bind {A B} (m : K S A) (f : A -> K S B) :
  keeps obs m -> (forall a, keeps obs (f a)) -> keeps obs (kbind m f).
Proof.
  intros Hm Hf s b s' E. unfold kbind in E. destruct (m s) as [a s1| | | |] eqn:E1; try done.
  rewrite (Hf _ _ _ _ E). by eapply Hm.
Qed.

Lemma keeps_assert b : keeps obs (kassert b).
Proof. destruct b; [apply keeps_ret|done]. Qed.

Lemma keeps_panic {A} : keeps obs (@kpanic S A).
Proof. done. Qed.
Lemma keeps_hang {A} : keeps obs (@khang S A).
Proof. done. Qed.
Lemma keeps_deref {A} (o : option A) : keeps obs (kderef o).
Proof. destruct o; [apply keeps_ret|done]. Qed.
Lemma keeps_get : keeps obs kget.
Proof. by intros s a s' [= _ <-]. Qed.
End Keeps.

(** Case analysis on the guards of a routine. *)
Ltac keeps_step :=
  match goal with
  | |- keeps _ (kret _) => apply keeps_ret
  | |- keeps _ (kbind _ _) => apply keeps_bind; [|intro]
  | |- keeps _ (kassert _) => apply keeps_assert
  | |- keeps _ kpanic => apply keeps_panic
  | |- keeps _ khang => apply keeps_hang
  | |- keeps _ kget => apply keeps_get
  | |- keeps _ (kderef _) => apply keeps_deref
  | |- keeps _ (if ?b then _ else _) => destruct b
  | |- keeps _ (match ?o with Some _ => _ | None => _ end) => destruct o
  | |- keeps _ (let '(_, _) := ?p in _) => destruct p
  | |- keeps _ _ => solve [auto with keeps]
  end.

Create HintDb keeps discriminated.

(** Everything but the memory contents, page array, lists and locks: what no routine of
    the allocator touches. *)
Definition outside (s : mstate) : list Z * Z * Z := (flushed s, cr3 s, npages s).

Section Allocator.
Context (cfg : config) (cpu : Z).

Lemma keeps_get_page i : keeps outside (get_page i).
Proof. intros s a s' E. unfold get_page, kderef in E. destruct (pages s !! i); [by injection E as _ <-|done]. Qed.
Lemma keeps_mod_page i f : keeps outside (mod_page i f).
Proof. intros s a s' E. unfold mod_page in E. destruct (pages s !! i); [by injection E as _ <-|done]. Qed.
Lemma keeps_list_op f : keeps outside (list_op f).
Proof. intros s a s' E. unfold list_op in E. destruct (f (lists s)); [by injection E as _ <-|done]. Qed.
Lemma keeps_list_get {A} (f : gmap mloc (list_node mloc) -> option A) : keeps outside (list_get f).
Proof. intros s a s' E. unfold list_get, kderef in E. destruct (f (lists s)); [by injection E as _ <-|done]. Qed.
Lemma keeps_lock_buddy f l : keeps outside (lock_buddy cpu f l).
Proof. intros s a s' E. unfold lock_buddy in E. by repeat (case_match; simplify_eq). Qed.
Lemma keeps_unlock_buddy : keeps outside (unlock_buddy cpu).
Proof. intros s a s' E. unfold unlock_buddy in E. by repeat (case_match; simplify_eq). Qed.
Lemma keeps_lock_active f l : keeps outside (lock_active cpu f l).
Proof. intros s a s' E. unfold lock_active in E. by repeat (case_match; simplify_eq). Qed.
Lemma keeps_unlock_active : keeps outside (unlock_active cpu).
Proof. intros s a s' E. unfold unlock_active in E. by repeat (case_match; simplify_eq). Qed.
Lemma keeps_haslock : keeps outside (haslock_buddy cpu).
Proof. by intros s a s' [= _ <-]. Qed.
Lemma keeps_pa2page pa : keeps outside (pa2page pa).
Proof. intros s a s' E. unfold pa2page in E. by repeat (case_match; simplify_eq). Qed.
Lemma keeps_KADDR pa : keeps outside (KADDR pa).
Proof. intros s a s' E. unfold KADDR in E. by repeat (case_match; simplify_eq). Qed.
Lemma keeps_page2kva p : keeps outside (page2kva p).
Proof. apply keeps_KADDR. Qed.
Lemma keeps_table_at v : keeps outside (table_at v).
Proof. unfold table_at. apply keeps_bind; [apply keeps_KADDR|]. intros _. apply keeps_ret. Qed.
Lemma keeps_memset i n : keeps outside (memset_zero i n).
Proof. by intros s a s' [= _ <-]. Qed.
Lemma keeps_get_entry e : keeps outside (get_entry e).
Proof. by intros s a s' [= _ <-]. Qed.
Lemma keeps_set_entry e v : keeps outside (set_entry e v).
Proof. by intros s a s' [= _ <-]. Qed.
Lemma keeps_rss n : keeps outside (rss_add n).
Proof. intros s a s' E. unfold rss_add, kmodify in E. injection E as _ <-. by destruct (cur_task s). Qed.
Lemma keeps_copy d s0 : keeps outside (copy_frame d s0).
Proof. by intros s a s' [= _ <-]. Qed.
Lemma keeps_list_run {A} (f : gmap mloc (list_node mloc) -> option (A * gmap mloc (list_node mloc))) : keeps outside (list_run f).
Proof. intros s a s' E. unfold list_run in E. destruct (f (lists s)) as [[? ?]|]; [by injection E as _ <-|done]. Qed.

#[local] Hint Resolve keeps_get_page keeps_mod_page keeps_list_op keeps_list_get keeps_list_run keeps_lock_buddy keeps_unlock_buddy
  keeps_lock_active keeps_unlock_active keeps_haslock keeps_pa2page keeps_KADDR keeps_page2kva keeps_table_at
  keeps_memset keeps_get_entry keeps_set_entry keeps_rss keeps_copy : keeps.

Lemma keeps_mark n idx i : keeps outside (mark_interior_from n idx i).
Proof. revert i. induction n; intros i; cbn [mark_interior_from]; repeat keeps_step. Qed.

Lemma keeps_split_loop fuel l r : keeps outside (buddy_split_loop fuel l r).
Proof. revert l. induction fuel; intros l; cbn [buddy_split_loop]; repeat keeps_step. Qed.

Lemma keeps_merge_loop fuel p : keeps outside (buddy_merge_loop fuel p).
Proof. revert p. induction fuel; intros p; cbn [buddy_merge_loop]; cbv zeta; repeat keeps_step. Qed.

Lemma keeps_find n o r : keeps outside (buddy_find_from n o r).
Proof.
  revert o. induction n as [|n IH]; intros o; cbn [buddy_find_from]; unfold buddy_split;
    repeat (keeps_step || apply keeps_split_loop || apply IH).
Qed.

Lemma keeps_page_alloc flags : keeps outside (page_alloc cfg cpu flags).
Proof.
  unfold page_alloc, mark_interior_on_alloc, buddy_find. cbv zeta.
  repeat (keeps_step || apply keeps_find || apply keeps_mark).
Qed.

Lemma keeps_page_free p : keeps outside (page_free cfg cpu p).
Proof. unfold page_free, buddy_merge. repeat (keeps_step || apply keeps_merge_loop). Qed.

Lemma keeps_page_decref p : keeps outside (page_decref cfg cpu p).
Proof. unfold page_decref. repeat (keeps_step || apply keeps_page_free). Qed.

(** [read_cr3()] is a physical address; [KADDR] of it is never the same number. *)
Lemma keeps_invalidate_cr3 va : keeps outside (invalidate_cr3 va).
Proof.
  intros s a s' E. unfold invalidate_cr3, kbind at 1, kget, tlb_invalidate, kbind, KADDR in E.
  destruct (npages s <=? _); [done|]. destruct (Z.eqb_spec (page2pa (cr3 s)) (u64 (page2pa (cr3 s) + KERNEL_VMA))) as [Eq|].
  - exfalso. pose proof (u64_range (Z.shiftl (cr3 s) PAGE_TABLE_SHIFT)) as Hr. fold (page2pa (cr3 s)) in Hr.
    unfold u64 in Eq. rewrite Z.mod_eq in Eq by lia. unfold KERNEL_VMA in Eq. lia.
  - by injection E as _ <-.
Qed.

Lemma keeps_ref_inc p : keeps outside (ref_inc p).
Proof. apply keeps_mod_page. Qed.

Context (oom_kill_task : K mstate unit) (Hoom : keeps outside oom_kill_task).

Lemma keeps_alloc_or_oom flags n k : (forall p, keeps outside (k p)) -> keeps outside (alloc_or_oom cfg cpu oom_kill_task flags n k).
Proof. intros Hk. unfold alloc_or_oom. repeat (keeps_step || apply keeps_page_alloc || apply Hk || apply Hoom). Qed.

#[local] Hint Resolve keeps_page_decref keeps_invalidate_cr3 keeps_ref_inc : keeps.

Lemma keeps_ptbl_alloc e b en : keeps outside (ptbl_alloc cfg cpu oom_kill_task e b en).
Proof. unfold ptbl_alloc. repeat (keeps_step || (apply keeps_alloc_or_oom; intro)). Qed.

Lemma keeps_mergeable n i t : keeps outside (mergeable n i t).
Proof. revert i. induction n; intros i; cbn [mergeable]; repeat keeps_step. Qed.
Lemma keeps_merge_copy n i t h : keeps outside (merge_copy n i t h).
Proof. revert i. induction n; intros i; cbn [merge_copy]; repeat keeps_step. Qed.
Lemma keeps_merge_invalidate n i b : keeps outside (merge_invalidate n i b).
Proof. revert i. induction n; intros i; cbn [merge_invalidate]; repeat keeps_step. Qed.
Lemma keeps_merge_release n i t : keeps outside (merge_release cfg cpu n i t).
Proof. revert i. induction n; intros i; cbn [merge_release]; repeat keeps_step. Qed.

Lemma keeps_ptbl_merge e b en : keeps outside (ptbl_merge cfg cpu oom_kill_task e b en).
Proof.
  unfold ptbl_merge. cbv zeta.
  repeat (apply keeps_mergeable || apply keeps_merge_copy || apply keeps_merge_invalidate || apply keeps_merge_release
    || keeps_step || (apply keeps_alloc_or_oom; intro)).
Qed.

Lemma keeps_insert_pte p fl e b en : keeps outside (insert_pte cfg cpu p fl e b en).
Proof. unfold insert_pte. repeat keeps_step. Qed.

Lemma keeps_insert_pde p fl e b en : keeps outside (insert_pde cfg cpu oom_kill_task p fl e b en).
Proof. unfold insert_pde. repeat (keeps_step || apply keeps_ptbl_alloc). Qed.

End Allocator.

(** Walks keep what their callbacks keep. *)
Section Walks.
Context {U T : Type} (obs : mstate -> T).

Definition wobs (st : wstate U) : T := obs (fst st).

Lemma keeps_mem {A} (m : K mstate A) : keeps obs m -> keeps wobs (mem (U := U) m).
Proof.
  intros Hm [s u] a [s' u'] E. unfold mem in E. destruct (m s) as [a0 s0| | | |] eqn:E0; try done.
  injection E as -> -> ->. unfold wobs. simpl. by eapply Hm.
Qed.

Definition keeps_cb (f : option (callback U)) : Prop :=
  match f with Some f => forall e b en, keeps wobs (f e b en) | None => True end.

Record keeps_walker (w : page_walker U) : Prop := {
  kw_pte : keeps_cb (pte_callback w); kw_pde : keeps_cb (pde_callback w);
  kw_pdpte : keeps_cb (pdpte_callback w); kw_pml4e : keeps_cb (pml4e_callback w);
  kw_pde_unmap : keeps_cb (pde_unmap w); kw_pdpte_unmap : keeps_cb (pdpte_unmap w); kw_pml4e_unmap : keeps_cb (pml4e_unmap w);
  kw_hole : match pt_hole_callback w with Some f => forall b en, keeps wobs (f b en) | None => True end
}.

Hypothesis obs_entry : forall e, keeps obs (get_entry e).
Hypothesis obs_table : forall v, keeps obs (table_at v).

Lemma keeps_call f e b en k : keeps_cb f -> keeps wobs k -> keeps wobs (call_opt f e b en k).
Proof.
  intros Hf Hk. destruct f as [f|]; [|done]. simpl. apply keeps_bind; [apply Hf|]. intros r.
  destruct (r <? 0); [apply keeps_ret|done].
Qed.

Lemma keeps_hole w b en : keeps_walker w -> keeps wobs (hole_opt w b en (kret 0)).
Proof.
  intros []. unfold hole_opt. destruct (pt_hole_callback w); [|apply keeps_ret].
  apply keeps_bind; [auto|]. intros r. destruct (r <? 0); apply keeps_ret.
Qed.

Lemma keeps_loop fuel be body b en : (forall b, keeps wobs (body b)) -> keeps wobs (range_loop fuel be body b en).
Proof.
  intros Hb. revert b. induction fuel as [|fuel IH]; intros b; cbn [range_loop]; destruct (b <=? en);
    (apply keeps_ret || apply keeps_hang || idtac).
  apply keeps_bind; [apply Hb|]. intros r. destruct (r <? 0); [apply keeps_ret|].
  destruct (_ =? 0); [apply keeps_ret|apply IH].
Qed.

Lemma keeps_below (m : K (wstate U) Z) k : keeps wobs m -> keeps wobs k -> keeps wobs (r <-- m;; if r <? 0 then kret r else k).
Proof. intros Hm Hk. apply keeps_bind; [done|]. intros r. destruct (r <? 0); [apply keeps_ret|done]. Qed.

Ltac walk_step := first
  [ apply keeps_call; [by auto|] | apply keeps_below | apply keeps_hole; by constructor | apply keeps_ret
  | apply keeps_mem; by auto | apply keeps_bind; [apply keeps_mem; by auto|intro]
  | match goal with |- keeps _ (if ?b then _ else _) => destruct b end ].

Lemma keeps_pml4_walk t b en w : keeps_walker w -> keeps wobs (pml4_walk_range t b en w).
Proof.
  intros Hw. pose proof Hw as [? ? ? ? ? ? ? ?].
  assert (forall t b en, keeps wobs (ptbl_walk_range t b en w)) as H1.
  { intros. unfold ptbl_walk_range. apply keeps_loop. intros. unfold ptbl_body. repeat walk_step. }
  assert (forall t b en, keeps wobs (pdir_walk_range t b en w)) as H2.
  { intros. unfold pdir_walk_range. apply keeps_loop. intros. unfold pdir_body. repeat (apply H1 || walk_step). }
  assert (forall t b en, keeps wobs (pdpt_walk_range t b en w)) as H3.
  { intros. unfold pdpt_walk_range. apply keeps_loop. intros. unfold pdpt_body. repeat (apply H2 || walk_step). }
  unfold pml4_walk_range. apply keeps_loop. intros. unfold pml4_body. repeat (apply H3 || walk_step).
Qed.

Lemma keeps_run_walk u (m : K (wstate U) Z) : keeps wobs m -> keeps obs (run_walk u m).
Proof.
  intros Hm s a s' E. unfold run_walk in E. destruct (m (s, u)) as [r [s1 u1]| | | |[? ?]] eqn:E1; try done.
  specialize (Hm _ _ _ E1). unfold wobs in Hm. simpl in Hm. injection E as _ <-. exact Hm.
Qed.

End Walks.

(** Fact (error): [page_insert] never invalidates a TLB entry, although it may replace a
    mapping that is in use: it compares the value of CR3, a physical address, with the
    kernel address of the same table.  (The routine that kills a task on exhaustion is
    assumed not to invalidate either.) *)
Theorem page_insert_never_invalidates (cfg : config) (cpu : Z) (oom : K mstate unit) (pml4 page va flags : Z) (s s' : mstate) (r : Z) :
  keeps outside oom -> page_insert cfg cpu oom pml4 page va flags s = Ret r s' -> flushed s' = flushed s.
Proof.
  intros Hoom E. assert (keeps outside (page_insert cfg cpu oom pml4 page va flags)) as Hk.
  { unfold page_insert, walk_page_range. cbv zeta.
    repeat first [ apply keeps_get_page | apply keeps_ret | apply keeps_run_walk
                 | match goal with |- keeps _ (if ?b then _ else _) => destruct b end
                 | apply keeps_bind; [|intro] ].
    all: apply keeps_pml4_walk; [apply keeps_get_entry|apply keeps_table_at|].
    all: split; simpl; try done; intros; apply keeps_mem;
      eauto using keeps_insert_pte, keeps_insert_pde, keeps_ptbl_alloc, keeps_ptbl_merge. }
  specialize (Hk _ _ _ E). unfold outside in Hk. by simplify_eq.
Qed.

(** ** Bits of entries *)

Lemma flag_lor x y m : flag (Z.lor x y) m = flag x m || flag y m.
Proof.
  unfold flag. rewrite Z.land_lor_distr_l. destruct (Z.eqb_spec (Z.land x m) 0) as [->|Hx].
  - rewrite Z.lor_0_l. by destruct (Z.land y m =? 0).
  - destruct (Z.eqb_spec (Z.lor (Z.land x m) (Z.land y m)) 0) as [E|]; [|done]. by apply Z.lor_eq_0_iff in E as [? _].
Qed.

(** Flags that lie outside the address bits. *)
Definition flags_only (f : Z) : Prop := PAGE_ADDR f = 0.

Lemma page_addr_mask : 2 ^ 64 - 1 - PAGE_MASK = Z.shiftl (Z.ones 36) 12.
Proof. reflexivity. Qed.

Lemma page_addr_page p : 0 <= p < 2 ^ 36 -> PAGE_ADDR (page2pa p) = page2pa p.
Proof.
  intros Hp. unfold PAGE_ADDR, page2pa, PAGE_TABLE_SHIFT. rewrite page_addr_mask. rewrite Z.shiftl_mul_pow2 by lia.
  rewrite u64_id by lia. rewrite <- Z.shiftl_mul_pow2, <- Z.shiftl_land by lia. f_equal.
  rewrite Z.land_ones by lia. by apply Z.mod_small.
Qed.

Lemma page_addr_lor a f : flags_only f -> PAGE_ADDR (Z.lor a f) = PAGE_ADDR a.
Proof. intros Hf. unfold PAGE_ADDR, flags_only in *. rewrite Z.land_lor_distr_l. unfold PAGE_ADDR in Hf. by rewrite Hf, Z.lor_0_r. Qed.

Lemma tbl_page p f : 0 <= p < 2 ^ 36 -> flags_only f -> tbl (Z.lor (page2pa p) f) = p.
Proof.
  intros Hp Hf. unfold tbl. rewrite page_addr_lor, page_addr_page by done. apply page_index_shift. lia.
Qed.

Lemma flags_only_lor f g : flags_only f -> flags_only g -> flags_only (Z.lor f g).
Proof. intros Hf Hg. unfold flags_only. by rewrite page_addr_lor. Qed.

Lemma read_write_same e v f : read_frames (write_frames e v f) e = v.
Proof. unfold read_frames, write_frames, frame_word. rewrite lookup_insert_eq. simpl. by rewrite lookup_insert_eq. Qed.

Lemma read_write_other e e' v f : e' <> e -> read_frames (write_frames e v f) e' = read_frames f e'.
Proof.
  intros Hne. unfold read_frames, write_frames, frame_word. destruct e as [p i], e' as [p' i']. simpl.
  destruct (decide (p' = p)) as [->|]; [|by rewrite lookup_insert_ne].
  rewrite lookup_insert_eq. simpl. by rewrite lookup_insert_ne by congruence.
Qed.

(** Fact (functional): changing the protection of a present page replaces exactly the bits
    present, write, user and no-execute by the new flags and keeps the page address and
    all other bits; the TLB entry is invalidated when the table is the current one, and
    nothing happens when the flags are the same. *)
Theorem protect_pte_correct (pml4 flags : Z) (e : entry) (base end_ : Z) (s : mstate) :
  let v := read_frames (frames s) e in
  flag v PAGE_PRESENT = true -> Z.land flags PAGE_UMASK = flags -> 0 <= v < 2 ^ 64 ->
  0 <= cr3 s < npages s -> npages s <= 2 ^ 36 -> pml4 = table_kva (cr3 s) ->
  exists s', protect_pte pml4 flags e base end_ s = Ret 0 s'
    /\ (Z.land v PAGE_UMASK = flags -> s' = s)
    /\ (Z.land v PAGE_UMASK <> flags ->
        let v' := read_frames (frames s') e in
        Z.land v' PAGE_UMASK = flags /\ PAGE_ADDR v' = PAGE_ADDR v /\ Z.land v' (not64 PAGE_UMASK) = Z.land v (not64 PAGE_UMASK)
        /\ flushed s' = base :: flushed s /\ pages s' = pages s
        /\ forall e', e' <> e -> read_frames (frames s') e' = read_frames (frames s) e').
Proof.
  intros v Hp Hfl Hv Hcr Hnp Hpml. unfold protect_pte, kbind at 1, get_entry. fold v. rewrite Hp.
  destruct (Z.eqb_spec (Z.land v PAGE_UMASK) flags) as [E|Hne]; [exists s; done|].
  unfold kbind at 1, set_entry. unfold kbind at 1, tlb_invalidate, kbind at 1, KADDR. simpl.
  rewrite page_index_shift by lia. destruct (Z.leb_spec (npages s) (cr3 s)); [lia|].
  fold (table_kva (cr3 s)). rewrite Hpml, Z.eqb_refl. eexists. split; [reflexivity|]. split; [done|]. intros _. simpl.
  rewrite read_write_same.
  assert (forall x y m, Z.land (Z.lor x y) m = Z.lor (Z.land x m) (Z.land y m)) as Hd by (intros; apply Z.land_lor_distr_l).
  unfold protected. split; [|split; [|split; [|split; [done|split; [done|]]]]].
  - rewrite Hd, Hfl, <- Z.land_assoc. replace (Z.land (not64 PAGE_UMASK) PAGE_UMASK) with 0 by reflexivity.
    by rewrite Z.land_0_r.
  - unfold PAGE_ADDR. rewrite Hd, <- Z.land_assoc.
    replace (Z.land (not64 PAGE_UMASK) (2 ^ 64 - 1 - PAGE_MASK)) with (2 ^ 64 - 1 - PAGE_MASK) by reflexivity.
    rewrite <- Hfl, <- Z.land_assoc. replace (Z.land PAGE_UMASK (2 ^ 64 - 1 - PAGE_MASK)) with 0 by reflexivity.
    by rewrite Z.land_0_r, Z.lor_0_r.
  - rewrite Hd, <- Z.land_assoc, Z.land_diag, <- Hfl, <- Z.land_assoc.
    replace (Z.land PAGE_UMASK (not64 PAGE_UMASK)) with 0 by reflexivity. by rewrite Z.land_0_r, Z.lor_0_r.
  - intros e' Hne'. by apply read_write_other.
Qed.

(** ** page_insert *)

Section Insert.
Context (cfg : config) (cpu : Z) (oom : K mstate unit).

Lemma ptbl_alloc_present e b en s :
  flag (read_frames (frames s) e) PAGE_PRESENT = true -> ptbl_alloc cfg cpu oom e b en s = Ret 0 s.
Proof. intros Hp. unfold ptbl_alloc, kbind, get_entry. by rewrite Hp. Qed.

Lemma call_plain_0 {U} (f : entry -> Z -> Z -> K mstate Z) e b en (k : K (wstate U) Z) s s' (u : U) :
  f e b en s = Ret 0 s' -> call_opt (plain f) e b en k (s, u) = k (s', u).
Proof. intros E. unfold call_opt, plain, kbind, mem. by rewrite E. Qed.

(** The path to the page directory that holds the entry for [va]. *)
Record path (s : mstate) (pml4 va t3 t2 : Z) : Prop := {
  pa_4 : flag (read_frames (frames s) (pml4, PML4_INDEX va)) PAGE_PRESENT = true;
  pa_t3 : tbl (read_frames (frames s) (pml4, PML4_INDEX va)) = t3;
  pa_3 : flag (read_frames (frames s) (t3, PDPT_INDEX va)) PAGE_PRESENT = true;
  pa_t2 : tbl (read_frames (frames s) (t3, PDPT_INDEX va)) = t2;
  pa_np : t3 < npages s /\ t2 < npages s
}.

(** A walk to one page with the path present is the body of the page directory. *)
Lemma walk_to_pdir pml4 page flags va t3 t2 s s' :
  good_page va -> path s pml4 va t3 t2 ->
  pdir_body t2 (va + 4095) (insert_walker cfg cpu oom page flags) va (s, tt) = Ret 0 (s', tt) ->
  walk_page_range pml4 va (u64 (va + PAGE_SIZE)) (insert_walker cfg cpu oom page flags) (s, tt) = Ret 0 (s', tt).
Proof.
  intros Hg [P4 T3 P3 T2 [N3 N2]] Hb. pose proof (good_page_range va Hg). rewrite walk_page_bounds, pml4_one by done.
  unfold end_result, kbind at 1, pml4_body. cbn [insert_walker pml4e_callback pml4e_unmap].
  rewrite (call_plain_0 _ _ _ _ _ _ _ _ (ptbl_alloc_present _ _ _ _ P4)).
  rewrite bind_get_entry, P4. rewrite bind_table_at by (by rewrite T3). rewrite T3, pml4_end_bend, min_end by (done || lia).
  unfold kbind at 1. rewrite pdpt_one by done.
  unfold end_result, kbind at 1, pdpt_body. cbn [insert_walker pdpte_callback pdpte_unmap].
  rewrite (call_plain_0 _ _ _ _ _ _ _ _ (ptbl_alloc_present _ _ _ _ P3)).
  rewrite bind_get_entry, P3. rewrite bind_table_at by (by rewrite T2). rewrite T2, pdpt_end_bend, min_end by (done || lia).
  unfold kbind at 1. rewrite pdir_one by done. unfold end_result, kbind at 1. rewrite Hb. reflexivity.
Qed.

Lemma page_insert_small pml4 page va flags s s' g :
  pages s !! page = Some g -> pp_order g <> 9 -> flag flags PAGE_HUGE = false -> va mod 4096 = 0 ->
  walk_page_range pml4 va (u64 (va + PAGE_SIZE)) (insert_walker cfg cpu oom page (Z.lor flags PAGE_PRESENT)) (s, tt) = Ret 0 (s', tt) ->
  page_insert cfg cpu oom pml4 page va flags s = Ret 0 s'.
Proof.
  intros Hg Ho Hf Hal Hw. unfold page_insert.
  replace (page_aligned va) with true.
  2:{ unfold page_aligned, flag. rewrite negb_involutive. symmetry. apply Z.eqb_eq.
      change (PAGE_SIZE - 1) with (Z.ones 12). by rewrite Z.land_ones by lia. }
  cbn [negb]. unfold kbind at 1, get_page, kderef. rewrite Hg. cbv zeta. unfold kret at 1.
  unfold BUDDY_2M_PAGE. destruct (Z.eqb_spec (pp_order g) 9); [done|]. rewrite Hf. cbn [andb].
  unfold kbind, run_walk. by rewrite Hw.
Qed.

(** Fact (functional): inserting a 4 KB page where a huge page is mapped reports success but
    does nothing at all: no page is mapped or unmapped and no reference count changes. *)
Theorem page_insert_over_huge_is_noop (pml4 page va flags t3 t2 : Z) (s : mstate) (g : page_info) :
  good_page va -> path s pml4 va t3 t2 ->
  let v := read_frames (frames s) (t2, PAGE_DIR_INDEX va) in
  flag v PAGE_PRESENT = true -> flag v PAGE_HUGE = true ->
  pages s !! page = Some g -> pp_order g <> 9 -> flag flags PAGE_HUGE = false ->
  page_insert cfg cpu oom pml4 page va flags s = Ret 0 s.
Proof.
  intros Hgp Hpath v P H Hg Ho Hf. eapply page_insert_small; [done|done|done|by apply Hgp|].
  eapply walk_to_pdir; [done|done|]. unfold pdir_body. cbn [insert_walker pde_callback pde_unmap].
  assert (flag (Z.lor flags PAGE_PRESENT) PAGE_HUGE = false) as Hf' by (rewrite flag_lor, Hf; done).
  assert (insert_pde cfg cpu oom page (Z.lor flags PAGE_PRESENT) (t2, PAGE_DIR_INDEX va) (pdir_start va) (pdir_end va) s = Ret 0 s) as Hi.
  { unfold insert_pde, kbind at 1, get_entry. fold v. rewrite P, H, Hf'. cbn [andb].
    unfold kbind. by rewrite ptbl_alloc_present. }
  rewrite (call_plain_0 _ _ _ _ _ _ _ _ Hi). rewrite bind_get_entry. fold v. rewrite P, H.
  assert (ptbl_merge cfg cpu oom (t2, PAGE_DIR_INDEX va) (pdir_start va) (pdir_end va) s = Ret 0 s) as Hm.
  { unfold ptbl_merge, kbind at 1, get_entry. fold v. by rewrite P, H. }
  rewrite (call_plain_0 _ _ _ _ _ _ _ _ Hm). reflexivity.
Qed.

(** A table with a hole is not merged. *)
Lemma mergeable_hole n i t s j :
  i <= j < i + Z.of_nat n -> flag (read_frames (frames s) (t, j)) PAGE_PRESENT = false -> mergeable n i t s = Ret false s.
Proof.
  revert i. induction n as [|n IH]; intros i Hj Hn; [lia|]. cbn [mergeable]. unfold kbind at 1, get_entry.
  destruct (flag (read_frames (frames s) (t, i)) PAGE_PRESENT) eqn:P; [|done]. cbn [negb].
  unfold kbind at 1. destruct (negb _); [done|]. apply IH; [|done]. destruct (decide (j = i)) as [->|]; [congruence|lia].
Qed.

Lemma page_insert_maps_ok (pml4 page va flags t3 t2 t1 : Z) (s : mstate) (g : page_info) (hole : Z) :
  good_page va -> path s pml4 va t3 t2 ->
  let e2 := (t2, PAGE_DIR_INDEX va) in
  let e1 := (t1, PAGE_TABLE_INDEX va) in
  flag (read_frames (frames s) e2) PAGE_PRESENT = true -> flag (read_frames (frames s) e2) PAGE_HUGE = false ->
  tbl (read_frames (frames s) e2) = t1 -> t1 < npages s ->
  flag (read_frames (frames s) e1) PAGE_PRESENT = false ->
  0 <= hole < 512 -> hole <> PAGE_TABLE_INDEX va -> flag (read_frames (frames s) (t1, hole)) PAGE_PRESENT = false ->
  t1 <> t2 -> t1 <> t3 -> t1 <> pml4 ->
  pages s !! page = Some g -> pp_order g = 0 -> 0 <= pp_ref g < 2 ^ 16 - 1 ->
  0 <= page < 2 ^ 36 -> flags_only flags -> flag flags PAGE_HUGE = false ->
  exists s', page_insert cfg cpu oom pml4 page va flags s = Ret 0 s'
    /\ leaf4 (frames s') pml4 va = Some e1
    /\ read_frames (frames s') e1 = Z.lor (page2pa page) (Z.lor flags PAGE_PRESENT)
    /\ tbl (read_frames (frames s') e1) = page
    /\ (forall e', e' <> e1 -> read_frames (frames s') e' = read_frames (frames s) e')
    /\ pages s' = <[page := set_pp_free 0 (set_pp_ref (pp_ref g + 1) g)]> (pages s).
Proof.
  intros Hgp Hpath e2 e1 P2 H2 T1 N1 P1 Hh Hhi Hhole D12 D13 D14 Hg Ho Hr Hpg Hfo Hf.
  set (v := Z.lor (page2pa page) (Z.lor flags PAGE_PRESENT)).
  set (s' := set_frames (write_frames e1 v (frames s)) (set_pages (<[page := set_pp_free 0 (set_pp_ref (pp_ref g + 1) g)]> (pages s)) s)).
  assert (flag v PAGE_PRESENT = true) as Pv.
  { unfold v. rewrite !flag_lor. change (flag PAGE_PRESENT PAGE_PRESENT) with true. by rewrite !orb_true_r. }
  assert (forall e', e' <> e1 -> read_frames (frames s') e' = read_frames (frames s) e') as Hother.
  { intros e' Hne. by apply read_write_other. }
  assert (read_frames (frames s') e1 = v) as Hv by apply read_write_same.
  exists s'. split; [|split; [|split; [|split; [|split]]]]; try done.
  2:{ destruct Hpath as [Q4 T3 Q3 T2 _]. unfold leaf4. rewrite Hother by congruence. rewrite Q4, T3.
      unfold leaf3. rewrite Hother by congruence. rewrite Q3, T2.
      unfold leaf2. fold e2. rewrite Hother by congruence. rewrite P2, H2, T1. unfold leaf1. fold e1. by rewrite Hv, Pv. }
  2:{ rewrite Hv. apply tbl_page; [done|]. by apply flags_only_lor. }
  eapply page_insert_small; [done|lia|done|by apply Hgp|].
  eapply walk_to_pdir; [done|done|]. pose proof (good_page_range va Hgp).
  unfold pdir_body. fold e2. cbn [insert_walker pde_callback pde_unmap].
  assert (flag (Z.lor flags PAGE_PRESENT) PAGE_HUGE = false) as Hf' by (rewrite flag_lor, Hf; done).
  assert (insert_pde cfg cpu oom page (Z.lor flags PAGE_PRESENT) e2 (pdir_start va) (pdir_end va) s = Ret 0 s) as Hi.
  { unfold insert_pde, kbind at 1, get_entry. rewrite P2, H2, Hf'. cbn [andb]. unfold kbind. by rewrite ptbl_alloc_present. }
  rewrite (call_plain_0 _ _ _ _ _ _ _ _ Hi). rewrite bind_get_entry, P2, H2.
  rewrite bind_table_at by (by rewrite T1). rewrite T1, pdir_end_bend, min_end by (done || lia).
  unfold kbind at 1. rewrite ptbl_one by done. unfold end_result, kbind at 1, ptbl_body. fold e1.
  cbn [insert_walker pte_callback].
  assert (insert_pte cfg cpu page (Z.lor flags PAGE_PRESENT) e1 (ptbl_start va) (ptbl_end va) s = Ret 0 s') as Hp.
  { unfold insert_pte. rewrite (bind_get_page _ g) by done. rewrite Ho. cbn [negb Z.eqb].
    unfold ref_inc. rewrite (bind_mod_page _ g) by done. unfold kbind at 1, get_entry. simpl frames. rewrite P1.
    unfold kbind at 1, kret at 1. rewrite (bind_mod_page _ (set_pp_ref (u16 (pp_ref g + 1)) g)) by apply lookup_insert_eq.
    unfold kbind, set_entry, kret. unfold u16. rewrite Z.mod_small by lia. simpl. rewrite insert_insert_eq.
    unfold s', v. do 3 f_equal. by rewrite <- Z.lor_assoc, Z.lor_diag. }
  rewrite (call_plain_0 _ _ _ _ _ _ _ _ Hp). rewrite bind_get_entry, Hv, Pv. cbn [negb].
  unfold kret at 1. cbn [Z.ltb Z.compare].
  assert (forall b en, ptbl_merge cfg cpu oom e2 b en s' = Ret 0 s') as Hm.
  { intros b en. unfold ptbl_merge, kbind at 1, get_entry. rewrite Hother by congruence. rewrite P2, H2. cbn [negb orb].
    unfold kbind at 1. rewrite table_at_ok by (by rewrite T1). rewrite T1.
    unfold kbind at 1, pa2page. fold (tbl (read_frames (frames s) e2)). rewrite T1. simpl npages.
    destruct (Z.leb_spec (npages s) t1); [lia|].
    unfold kbind at 1. rewrite (mergeable_hole _ _ _ _ hole); [done|unfold PAGE_TABLE_ENTRIES; lia|]. rewrite Hother by (intros [= E]; done). done. }
  unfold kret at 1. cbn [Z.ltb Z.compare].
  rewrite (call_plain_0 _ _ _ _ _ _ _ _ (Hm _ _)). reflexivity.
Qed.


End Insert.

(** ** Allocating a table *)

Lemma rss_add_eq n s : exists t, rss_add n s = Ret tt (set_cur_task t s) /\ (cur_task s = None -> t = None).
Proof.
  unfold rss_add, kmodify. destruct (cur_task s) as [t|] eqn:E; [by eexists|].
  exists None. split; [|done]. f_equal. destruct s; simpl in *; by subst.
Qed.

(** Fact (functional): unless memory is exhausted, [ptbl_alloc] on an absent entry takes a free
    frame, makes every entry of it absent, points the entry at it with the permissions
    present, write and user, counts one reference to it, and changes no other entry, count
    or free frame; the allocator's invariant holds afterwards. *)
Theorem ptbl_alloc_correct (cfg : config) (cpu : Z) (oom : K mstate unit) (e : entry) (b en : Z) (s : mstate) :
  mem_ok s -> flag (read_frames (frames s) e) PAGE_PRESENT = false -> ~ frame_free s (fst e) ->
  (forall s1, page_alloc cfg cpu ALLOC_ZERO s <> Ret None s1) ->
  exists p s', ptbl_alloc cfg cpu oom e b en s = Ret 0 s'
    /\ frame_free s p /\ (forall j, frame_free s' j <-> frame_free s j /\ j <> p) /\ mem_ok s'
    /\ read_frames (frames s') e = Z.lor (Z.lor (Z.lor (page2pa p) PAGE_PRESENT) PAGE_WRITE) PAGE_USER
    /\ (forall i, read_frames (frames s') (p, i) = 0)
    /\ (forall e', fst e' <> p -> e' <> e -> read_frames (frames s') e' = read_frames (frames s) e')
    /\ pp_ref <$> pages s' !! p = Some 1
    /\ (forall j, j <> p -> pp_ref <$> pages s' !! j = pp_ref <$> pages s !! j).
Proof.
  intros M Hp He Hav. unfold ptbl_alloc, kbind at 1, get_entry at 1. rewrite Hp.
  destruct (pa_alloc_spec (PageAllocator := buddy_page_allocator cfg cpu) ALLOC_ZERO s M)
    as [(s1 & E & _)|(p & s1 & E & M1 & U & Hfr & Ho & Hrf & Hz & R)]; simpl in E; [by destruct (Hav s1)|].
  change (req_order ALLOC_ZERO) with 0 in *. change (flag ALLOC_ZERO ALLOC_ZERO) with true in Hz. cbv iota in Hz.
  simpl in Hz. set (zf := <[p := ∅]> (frames s)) in *.
  unfold alloc_or_oom, kbind at 1. rewrite E. destruct (rss_add_eq 1 s1) as (t & Et & _). unfold kbind at 1. rewrite Et.
  pose proof U as (Hc & (g & Hg & Hf) & Hnf).
  assert (pp_ref g = 0) as Hr0.
  { destruct (ch_frames _ _ _ _ Hc p) as (g' & Hg' & _ & Hr & _); [by apply in_chunk_head|]. rewrite Hg in Hg'. by injection Hg' as <-. }
  unfold ref_inc. rewrite (bind_mod_page _ g) by done. rewrite Hr0. change (u16 (0 + 1)) with 1.
  set (s2 := set_pages _ _).
  unfold kbind, set_entry, get_entry, kret. cbn [frames set_frames]. rewrite read_write_same.
  set (v := Z.lor _ PAGE_USER).
  assert (in_chunk p 0 p) as Hin by (by apply in_chunk_head).
  assert (frame_free s p) as Hfp by (apply Hfr; by right).
  assert (fst e <> p) as Hep by (intros Eq; rewrite Eq in He; done).
  exists p. eexists. split; [reflexivity|].
  assert (forall e', read_frames (write_frames e v (write_frames e (page2pa p) (frames s2))) e' =
    if decide (e' = e) then v else read_frames zf e') as Hread.
  { intros e'. case_decide as D; [by rewrite D, read_write_same|]. rewrite !read_write_other by done.
    unfold s2. cbn [frames set_pages set_cur_task]. by rewrite Hz. }
  split; [done|]. split.
  { intros j. unfold frame_free at 1, s2. simpl.
    assert ((exists i g0, <[p := set_pp_ref 1 g]> (pages s1) !! i = Some g0 /\ pp_free g0 <> 0 /\ in_chunk i (pp_order g0) j)
      <-> frame_free s1 j) as -> by exact (frame_free_used s1 p g 1 j Hg Hf).
    rewrite Hfr. assert (in_chunk p 0 j <-> j = p) as ->. { unfold in_chunk. simpl. lia. }
    split; [|tauto]. intros Hj. split; [by left|]. intros ->. by apply (Hnf p). }
  split.
  { apply (mem_ok_ext (set_pages (<[p := set_pp_ref 1 g]> (pages s1)) s1)); try done. by eapply mem_ok_ref. }
  cbn [frames set_frames pages]. split; [by rewrite Hread, decide_True|]. split.
  { intros i. rewrite Hread, decide_False by (intros <-; done). unfold read_frames, frame_word, zf. simpl.
    by rewrite lookup_insert_eq. }
  split.
  { intros e' He' Hne. rewrite Hread, decide_False by done. unfold read_frames, frame_word, zf.
    by rewrite lookup_insert_ne by done. }
  split.
  { simpl. by rewrite lookup_insert_eq. }
  intros j Hj. simpl. rewrite lookup_insert_ne by done. apply Hrf.
Qed.

(** ** Witnesses *)

(** The address space of WalkThm.v over the pages of BuddyThm.v, with page 20 ready for use. *)
Definition demo_vm : mstate :=
  mk_mstate (<[20 := mk_page 0 0 0 1 0 0 None]> demo_pages) 512 demo_lists demo_frames
    (Spinlock.static_lock "buddy_lock") (Spinlock.static_lock "active_pages_lock") 0 None 1 [].
(** The same with a huge page at 2 MB. *)
Definition demo_huge : mstate := set_frames (write_frames (3, 1) (0x87) demo_frames) demo_vm.

Lemma good_page_demo a : (a = 0x2000 \/ a = 0x200000) -> good_page a.
Proof. intros [-> | ->]; (split; [reflexivity|left; vm_compute; split; [discriminate|reflexivity]]). Qed.


Lemma page_insert_over_huge_is_noop_witness :
  page_insert default_config 0 (kret tt) 1 20 0x200000 PAGE_USER demo_huge = Ret 0 demo_huge.
Proof.
  apply (page_insert_over_huge_is_noop default_config 0 (kret tt) 1 20 0x200000 PAGE_USER 2 3 demo_huge (mk_page 0 0 0 1 0 0 None)).
  - apply good_page_demo. by right.
  - split; vm_compute; try reflexivity. split; reflexivity.
  - vm_compute. reflexivity.
  - vm_compute. reflexivity.
  - apply lookup_insert_eq.
  - discriminate.
  - vm_compute. reflexivity.
Defined.

(** Page 11, mapped at 0x1000, with two references to it. *)
Definition demo_mapped : mstate := set_pages (<[11 := mk_page 2 0 0 1 0 0 None]> (pages demo_vm)) demo_vm.

Lemma page_insert_never_invalidates_witness :
  exists r s', page_insert default_config 0 (kret tt) 1 20 0x1000 PAGE_USER demo_mapped = Ret r s' /\ flushed s' = [].
Proof.
  assert (is_ret (page_insert default_config 0 (kret tt) 1 20 0x1000 PAGE_USER demo_mapped) = true) as H by (vm_compute; reflexivity).
  destruct (is_ret_true _ H) as (r & s' & E). exists r, s'. split; [exact E|].
  exact (page_insert_never_invalidates default_config 0 (kret tt) 1 20 0x1000 PAGE_USER demo_mapped s' r (keeps_ret outside tt) E).
Defined.

Lemma protect_pte_correct_witness :
  exists s', protect_pte (table_kva 1) PAGE_PRESENT (4, 0) 0 4095 demo_vm = Ret 0 s' /\ flushed s' = [0].
Proof.
  destruct (protect_pte_correct (table_kva 1) PAGE_PRESENT (4, 0) 0 4095 demo_vm) as (s' & E & _ & H).
  - vm_compute. reflexivity.
  - vm_compute. reflexivity.
  - vm_compute. split; [discriminate|reflexivity].
  - vm_compute. split; [discriminate|reflexivity].
  - vm_compute. discriminate.
  - reflexivity.
  - exists s'. split; [exact E|]. apply H. vm_compute. discriminate.
Defined.

Lemma ptbl_alloc_correct_witness :
  exists p s', ptbl_alloc default_config 0 (kret tt) (600, 0) 0 0 demo = Ret 0 s' /\ frame_free demo p /\ mem_ok s'.
Proof.
  destruct (ptbl_alloc_correct default_config 0 (kret tt) (600, 0) 0 0 demo) as (p & s' & E & Hf & _ & M & _).
  - exists demo_fl. exact demo_ok.
  - vm_compute. reflexivity.
  - intros (i & g & Hi & Hf & Hj). pose proof (demo_pages_dom _ _ Hi) as Hd.
    change (pages demo) with demo_pages in Hi. rewrite demo_pages_lookup in Hi by exact Hd. injection Hi as <-.
    unfold demo_page, in_chunk in *. simpl in *. destruct (Z.eqb_spec i 0); [lia|]. by apply Hf.
  - intros s1 E. destruct (page_alloc_ok default_config 0 ALLOC_ZERO demo_fl demo demo_ok) as [(s2 & _ & Hn & _)|(p & s2 & fl & E2 & _)].
    + specialize (Hn 9 ltac:(vm_compute; split; discriminate)). discriminate Hn.
    + congruence.
  - exists p, s'. exact (conj E (conj Hf M)).
Defined.
