(* ===== verification/Cow.v ===== *)
(** * Copy on write

    How fork.c shares the pages of a task and populate.c takes a private copy when one of
    the tasks writes. *)

From Stdlib Require Import ZArith Lia.
From stdpp Require Import strings base gmap fin_maps list.
From S2P Require Import Prelude Vma Task Proc ProcThm ListHeap Spinlock MemState Buddy BuddyInv BuddyThm Walk WalkThm Ptbl PtblThm.

#[local] Open Scope Z_scope.
#[local] Open Scope kernel_scope.

(** ** Translations that stay *)

(** An entry that is present still leads to the same frame. *)
Definition leads_on (v v' : Z) : Prop :=
  flag v PAGE_PRESENT = true -> flag v' PAGE_PRESENT = true /\ flag v' PAGE_HUGE = flag v PAGE_HUGE /\ tbl v' = tbl v.

Lemma leaf4_leads_on fr fr' t a e : (forall e', leads_on (read_frames fr e') (read_frames fr' e')) ->
  leaf4 fr t a = Some e -> leaf4 fr' t a = Some e.
Proof.
  intros Hl. unfold leaf4. destruct (flag _ _) eqn:P4; [|done]. destruct (Hl _ P4) as (-> & _ & ->).
  unfold leaf3. destruct (flag (read_frames fr (_, PDPT_INDEX a)) _) eqn:P3; [|done]. destruct (Hl _ P3) as (-> & _ & ->).
  unfold leaf2. destruct (flag (read_frames fr (_, PAGE_DIR_INDEX a)) _) eqn:P2; [|done]. destruct (Hl _ P2) as (-> & -> & ->).
  destruct (flag _ PAGE_HUGE); [done|].
  unfold leaf1. destruct (flag (read_frames fr (_, PAGE_TABLE_INDEX a)) _) eqn:P1; [|done]. by destruct (Hl _ P1) as (-> & _ & _).
Qed.

Lemma leads_on_refl v : leads_on v v.
Proof. done. Qed.
Lemma leads_on_absent v v' : flag v PAGE_PRESENT = false -> leads_on v v'.
Proof. unfold leads_on. congruence. Qed.

(** Taking the right to write away. *)
Definition read_only (v : Z) : Z := Z.land v (not64 PAGE_WRITE).

Lemma flag_read_only v m : Z.land (not64 PAGE_WRITE) m = m -> flag (read_only v) m = flag v m.
Proof. intros Hm. unfold flag, read_only. by rewrite <- Z.land_assoc, Hm. Qed.
Lemma read_only_write v : flag (read_only v) PAGE_WRITE = false.
Proof. unfold flag, read_only. rewrite <- Z.land_assoc. change (Z.land (not64 PAGE_WRITE) PAGE_WRITE) with 0. by rewrite Z.land_0_r. Qed.
Lemma tbl_read_only v : tbl (read_only v) = tbl v.
Proof. unfold tbl, PAGE_ADDR, read_only. rewrite <- Z.land_assoc. done. Qed.
Lemma read_only_leads v : leads_on v (read_only v).
Proof. intros Hv. by rewrite !flag_read_only, tbl_read_only. Qed.

Lemma tbl_nonneg v : 0 <= tbl v.
Proof. unfold tbl, PAGE_INDEX, PAGE_ADDR. apply Z.shiftr_nonneg, Z.land_nonneg. by right. Qed.

(** ** Sharing *)

(** The page table of [pml4] for [va] exists and has no entry for [va]; it has another hole. *)
Record room (s : mstate) (pml4 va t3 t2 t1 : Z) : Prop := {
  rm_path : path s pml4 va t3 t2;
  rm_present : flag (read_frames (frames s) (t2, PAGE_DIR_INDEX va)) PAGE_PRESENT = true;
  rm_small : flag (read_frames (frames s) (t2, PAGE_DIR_INDEX va)) PAGE_HUGE = false;
  rm_table : tbl (read_frames (frames s) (t2, PAGE_DIR_INDEX va)) = t1;
  rm_np : t1 < npages s;
  rm_absent : flag (read_frames (frames s) (t1, PAGE_TABLE_INDEX va)) PAGE_PRESENT = false;
  rm_hole : exists hole, 0 <= hole < 512 /\ hole <> PAGE_TABLE_INDEX va /\ flag (read_frames (frames s) (t1, hole)) PAGE_PRESENT = false;
  rm_distinct : t1 <> t2 /\ t1 <> t3 /\ t1 <> pml4
}.

(** Nothing in these tables has changed. *)
Lemma room_same s s' pml4 va t3 t2 t1 : room s pml4 va t3 t2 t1 -> npages s' = npages s ->
  (forall e, fst e ∈ [pml4; t3; t2; t1] -> read_frames (frames s') e = read_frames (frames s) e) -> room s' pml4 va t3 t2 t1.
Proof.
  intros [[Q4 Q3 P3 Q2 [N3 N2]] P H T N A (hole & Hh & Hne & Ha) D] Hnp Hs.
  assert (forall t i, t ∈ [pml4; t3; t2; t1] -> read_frames (frames s') (t, i) = read_frames (frames s) (t, i)) as R by (intros; by apply Hs).
  assert (pml4 ∈ [pml4; t3; t2; t1] /\ t3 ∈ [pml4; t3; t2; t1] /\ t2 ∈ [pml4; t3; t2; t1] /\ t1 ∈ [pml4; t3; t2; t1]) as (I4 & I3 & I2 & I1).
  { split_and!; [left|do 1 right; left|do 2 right; left|do 3 right; left]. }
  split; rewrite ?Hnp; rewrite ?(R _ _ I2), ?(R _ _ I1); try done.
  - split; rewrite ?Hnp; rewrite ?(R _ _ I4), ?(R _ _ I3); done.
  - exists hole. by rewrite (R _ _ I1).
Qed.

(** [tlb_invalidate] does no more than invalidate. *)
Lemma tlb_invalidate_run pml4 va (s : mstate) : PAGE_INDEX (page2pa (cr3 s)) < npages s -> exists l, tlb_invalidate pml4 va s = Ret tt (set_flushed l s).
Proof.
  intros Hc. unfold tlb_invalidate, KADDR, kbind. destruct (Z.leb_spec (npages s) (PAGE_INDEX (page2pa (cr3 s)))); [lia|].
  destruct (_ =? _); [by eexists|]. exists (flushed s). by destruct s.
Qed.

Section Share.
Context {M : machine}.

End Share.

(** ** Taking a copy *)

Section Copy.
Context (cfg : config) (cpu : Z) (oom : K mstate unit).

(** [track] on a page that is on no list: the page's bookkeeping and the list of active
    pages change, nothing else. *)
Lemma track_run page base line s g act :
  pages s !! page = Some g -> lock_idle (active_pages_lock s) ->
  dlist (lists s) ActivePages (ActiveNode <$> act) -> page ∉ act -> dlist (lists s) (ActiveNode page) [] ->
  exists h l r, track cpu page base line s =
      Ret tt (set_active_pages_lock l r (set_lists h (set_pages
           (<[page := set_owner (task_id <$> cur_task s) (set_virt_addr (ROUNDDOWN base PAGE_SIZE) g)]> (pages s)) s)))
    /\ dlist h ActivePages (ActiveNode <$> (act ++ [page])).
Proof.
  intros Hg Hl Hact Hno Hself.
  assert (is_Some (lists s !! ActiveNode page)) as Hn by (eapply dlist_node; [exact Hself|left]).
  destruct (list_init_spec (lists s) (ActiveNode page) Hn) as (h1 & E1 & D1 & T1).
  assert (ActiveNode page ∉ ActivePages :: (ActiveNode <$> act)) as Hnot.
  { intros [?|(i & [= <-] & Hi)%list_elem_of_fmap]%elem_of_cons; [done|by apply Hno]. }
  assert (dlist h1 ActivePages (ActiveNode <$> act)) as Hact1.
  { eapply dlist_touches; [exact Hact|exact T1|]. by intros n ->%list_elem_of_singleton. }
  destruct (list_add_tail_spec h1 ActivePages (ActiveNode <$> act) (ActiveNode page) Hact1) as (h2 & E2 & D2 & T2); [|done|].
  { eapply dlist_node; [exact D1|left]. }
  exists h2. do 2 eexists. split; [|by rewrite fmap_app].
  unfold track. rewrite (bind_mod_page _ g) by done. unfold kbind at 1, kget.
  rewrite (bind_mod_page _ (set_virt_addr (ROUNDDOWN base PAGE_SIZE) g)) by apply lookup_insert_eq.
  rewrite bind_lock_active by done. rewrite (bind_list_op _ h1) by done. rewrite (bind_list_op _ h2) by done.
  unfold unlock_active. cbn [active_pages_lock set_lists set_active_pages_lock spinlock_rank]. rewrite spin_unlock_taken.
  cbn [set_pages pages]. rewrite insert_insert_eq. reflexivity.
Qed.

Lemma page_decref_shared page s g : pages s !! page = Some g -> 2 <= pp_ref g < 2 ^ 16 ->
  page_decref cfg cpu page s = Ret tt (set_pages (<[page := set_pp_ref (pp_ref g - 1) g]> (pages s)) s).
Proof.
  intros Hg Hr. unfold page_decref. rewrite (bind_get_page _ g) by done.
  assert ((pp_ref g >? 0) = true) as -> by lia. unfold kbind at 1, kassert, kret.
  rewrite (bind_mod_page _ g), (bind_get_page _ (set_pp_ref (u16 (pp_ref g - 1)) g)) by (done || apply lookup_insert_eq).
  unfold u16. rewrite Z.mod_small by lia. cbn [pp_ref set_pp_ref]. assert ((pp_ref g - 1 =? 0) = false) as -> by lia. done.
Qed.

Lemma page2kva_run p s : 0 <= p < npages s -> npages s <= 2 ^ 52 -> exists a, page2kva p s = Ret a s.
Proof.
  intros Hp Hn. unfold page2kva, KADDR. assert (PAGE_INDEX (page2pa p) = p) as ->.
  { unfold PAGE_INDEX, page2pa, PAGE_TABLE_SHIFT. rewrite Z.shiftl_mul_pow2, u64_id, Z.shiftr_div_pow2 by lia. by apply Z.div_mul. }
  destruct (Z.leb_spec (npages s) p); [lia|by eexists].
Qed.

(** The frames when [p] has been cleared, [e] written, and [page] copied to [p]. *)
Lemma copied_words (fr : gmap Z (gmap Z Z)) (e : entry) (v p page : Z) :
  fst e <> p -> fst e <> page -> p <> page ->
  let fr1 := write_frames e v (zero_frames 1 p fr) in
  let fr2 := <[p := default ∅ (fr1 !! page)]> fr1 in
  read_frames fr2 e = v /\ (forall i, read_frames fr2 (p, i) = read_frames fr (page, i))
  /\ (forall e', fst e' <> p -> e' <> e -> read_frames fr2 e' = read_frames fr e').
Proof.
  intros Hep Hne Hpp fr1 fr2.
  assert (forall e', e' <> e -> fst e' <> p -> read_frames fr1 e' = read_frames fr e') as Hoth.
  { intros e' Hn Hn'. unfold fr1. rewrite read_write_other by done. cbn [zero_frames]. unfold read_frames, frame_word. by rewrite lookup_insert_ne by done. }
  assert (forall e', fst e' <> p -> read_frames fr2 e' = read_frames fr1 e') as Hcopy.
  { intros e' Hn'. unfold fr2, read_frames, frame_word. by rewrite lookup_insert_ne by done. }
  split_and!.
  - rewrite Hcopy by done. apply read_write_same.
  - intros i. rewrite <- (Hoth (page, i)); [|intros Eq; apply Hne; by rewrite <- Eq|by apply not_eq_sym].
    unfold fr2, read_frames, frame_word. cbn [fst snd]. rewrite lookup_insert_eq. by destruct (fr1 !! page).
  - intros e' Hn Hn'. by rewrite Hcopy, Hoth.
Qed.

(** C15 (functional): the write to a shared page.  When the entry of a present page with more than one
    reference is populated, and memory is not exhausted, a free frame takes the page's place in this entry, with the
    permissions asked for; it holds the contents of the shared page, one reference, and is
    recorded as active.  The shared page keeps its contents and loses one reference; no other entry or
    frame changes. *)
Theorem populate_pte_copies (flags : Z) (e : entry) (b en : Z) (s s1 : mstate) (g : page_info) (act : list Z) (p : Z) (t : task_ref) :
  let v := read_frames (frames s) e in
  let page := tbl v in
  mem_ok s -> flag v PAGE_PRESENT = true -> page < npages s -> pages s !! page = Some g -> 2 <= pp_ref g < 2 ^ 16 ->
  ~ frame_free s page -> ~ frame_free s (fst e) -> fst e <> page ->
  page_alloc cfg cpu ALLOC_ZERO s = Ret (Some p) s1 ->
  dlist (lists s1) ActivePages (ActiveNode <$> act) -> p ∉ act -> dlist (lists s1) (ActiveNode p) [] ->
  cur_task s = Some t -> PAGE_INDEX (page2pa (cr3 s)) < npages s ->
  exists s', populate_pte cfg cpu oom flags e b en s = Ret 0 s'
    /\ frame_free s p /\ p <> page
    /\ read_frames (frames s') e = Z.lor (Z.lor (page2pa p) PAGE_PRESENT) flags
    /\ (forall i, read_frames (frames s') (p, i) = read_frames (frames s) (page, i))
    /\ (forall e', fst e' <> p -> e' <> e -> read_frames (frames s') e' = read_frames (frames s) e')
    /\ pp_ref <$> pages s' !! page = Some (pp_ref g - 1) /\ pp_ref <$> pages s' !! p = Some 1
    /\ (forall j, j <> p -> j <> page -> pp_ref <$> pages s' !! j = pp_ref <$> pages s !! j)
    /\ dlist (lists s') ActivePages (ActiveNode <$> (act ++ [p])).
Proof.
  intros v page Hok Hp Hpg Hg Hr Hnf Hnfe Hne E Hact Hno Hself Ht Hcr3.
  destruct (pa_alloc_spec (PageAllocator := buddy_page_allocator cfg cpu) ALLOC_ZERO s Hok)
    as [(s1' & E' & _)|(p' & s1' & E' & M1 & U & Hfr & Ho & Hrf & Hz & [R1 R2 R3 R4 R5])]; cbn [pa_alloc buddy_page_allocator] in E';
    rewrite E in E'; [discriminate E'|]. injection E' as <- <-.
  change (req_order ALLOC_ZERO) with 0 in *. change (flag ALLOC_ZERO ALLOC_ZERO) with true in Hz. cbv iota in Hz.
  assert (frame_free s p) as Hfp by (apply Hfr; right; by apply in_chunk_head).
  assert (p <> page) as Hpp by (intros ->; done). assert (fst e <> p) as Hep by (intros Eq; rewrite Eq in Hnfe; done).
  destruct U as (Hc & (gp & Hgp & _) & _).
  destruct (ch_frames _ _ _ _ Hc p) as (g' & Hg' & _ & Hr0 & _); [by apply in_chunk_head|]. rewrite Hgp in Hg'. injection Hg' as <-.
  assert (0 <= page) as Hpos by apply tbl_nonneg. pose proof (ch_range _ _ _ _ Hc). pose proof (ch_pos _ _ _ _ Hc).
  assert (npages s <= 2 ^ 52) as Hnp by (destruct Hok as [fl A]; apply A).
  assert (pages s1 !! page = Some g) as Hg1 by (by rewrite Ho).
  set (t2 := mk_task_ref (task_id t) (task_pml4 t) (u64 (task_rss t + 1))). set (s2 := set_cur_task (Some t2) s1).
  assert (rss_add 1 s1 = Ret tt s2) as Et by (unfold rss_add, kmodify; by rewrite R3, Ht).
  pose proof (page_decref_shared page s2 g Hg1 Hr) as Ed. set (s3 := set_pages _ s2) in *.
  assert (pages s3 !! p = Some gp) as Hgp3 by (cbn; by rewrite lookup_insert_ne).
  set (v' := Z.lor (Z.lor (page2pa p) PAGE_PRESENT) flags).
  set (s4 := set_pages (<[p := set_pp_ref 1 gp]> (pages s3)) s3). set (s5 := set_frames (write_frames e v' (frames s4)) s4).
  destruct (page2kva_run p s5) as (a1 & Ea1); [change (npages s5) with (npages s1); lia|change (npages s5) with (npages s1); lia|].
  destruct (page2kva_run page s5) as (a2 & Ea2); [change (npages s5) with (npages s1); lia|change (npages s5) with (npages s1); lia|].
  set (s6 := set_frames (<[p := default ∅ (frames s5 !! page)]> (frames s5)) s5).
  destruct (track_run p b 49 s6 (set_pp_ref 1 gp) act) as (h & l & r & Etr & Hact').
  { apply lookup_insert_eq. }
  { destruct M1 as [fl A]. apply (al_active _ _ A). }
  { done. } { done. } { done. }
  set (s7 := set_active_pages_lock l r _) in *.
  assert (cur_pml4 s7 = Ret (table_kva (task_pml4 t2)) s7) as Ep by done.
  destruct (tlb_invalidate_run (table_kva (task_pml4 t2)) b s7) as (fl & Efl); [by change (cr3 s7) with (cr3 s1); change (npages s7) with (npages s1); rewrite R4, R1|].
  exists (set_flushed fl s7). split.
  { unfold populate_pte. unfold kbind at 1, get_entry. fold v. unfold kbind at 1, pa2page. change (PAGE_INDEX (PAGE_ADDR v)) with page.
    destruct (Z.leb_spec (npages s) page); [lia|]. rewrite Hp, (bind_get_page _ g) by done. assert ((pp_ref g >? 1) = true) as -> by lia. cbn [andb].
    unfold alloc_or_oom. rewrite (krun _ _ _ _ _ E), (krun _ _ _ _ _ Et), (krun _ _ _ _ _ Ed).
    unfold ref_inc. rewrite (bind_mod_page _ gp) by done. rewrite Hr0. change (u16 (0 + 1)) with 1. fold s4.
    unfold kbind at 1, set_entry. fold v' s5. rewrite (krun _ _ _ _ _ Ea1), (krun _ _ _ _ _ Ea2). unfold kbind at 1, copy_frame. fold s6.
    rewrite (krun _ _ _ _ _ Etr). rewrite (krun _ _ _ _ _ Ep).
    by rewrite (krun _ _ _ _ _ Efl). }
  assert (frames s1 = zero_frames 1 p (frames s)) as Hz1 by exact Hz.
  destruct (copied_words (frames s) e v' p page) as (W1 & W2 & W3); [done..|]. rewrite <- Hz1 in W1, W2, W3.
  split_and!; try done.
  - cbn. rewrite !lookup_insert_ne by done. by rewrite lookup_insert_eq.
  - cbn. by rewrite lookup_insert_eq.
  - intros j Hj1 Hj2. cbn. rewrite !lookup_insert_ne by done. apply Hrf.
Qed.
End Copy.

(** ** Witnesses *)

Lemma frame_free_range s j : mem_ok s -> frame_free s j -> 0 <= j < npages s.
Proof.
  intros [fl A] Hj. pose proof (al_buddy _ _ A) as B. apply (frame_free_iff fl s j B) in Hj as (k & i & Hi & Hin).
  destruct B as [C _]. destruct (co_chunk _ _ _ _ C k i Hi) as [? ? _ ? _ _]. unfold in_chunk in Hin. lia.
Qed.

Module Demo.
(** Page 0, allocated and referenced twice, mapped by entry 0 of the table in frame 600. *)
Definition page0 : page_info := mk_page 2 0 0 1 0 0 None.
Definition allocd : mstate := match page_alloc default_config 0 0 demo with Ret _ s => s | _ => demo end.
Definition mapped_twice : mstate :=
  set_cur_task (Some (mk_task_ref 1 5 0)) (set_frames {[ 600 := {[ 0 := 1 ]} ]} (set_pages (<[0 := page0]> (pages allocd)) allocd)).

Definition lonely (n : mloc) (s : mstate) : bool := bool_decide (get_next (lists s) n = Some n /\ get_prev (lists s) n = Some n).
Lemma lonely_dlist n s : lonely n s = true -> dlist (lists s) n [].
Proof. unfold lonely. rewrite bool_decide_eq_true. intros H. split; [apply NoDup_singleton|exact H]. Qed.

Lemma allocd_ok : mem_ok mapped_twice /\ pages mapped_twice !! 0 = Some page0 /\ npages mapped_twice = 512 /\ cr3 mapped_twice = 0
  /\ ~ frame_free mapped_twice 0.
Proof.
  destruct (page_alloc_ok default_config 0 0 demo_fl demo demo_ok) as [(s' & _ & Hn & _)|(p & s' & fl' & E & A)].
  { specialize (Hn 9 ltac:(vm_compute; split; discriminate)). discriminate Hn. }
  assert (p = 0) as ->.
  { assert (match page_alloc default_config 0 0 demo with Ret (Some p) _ => p =? 0 | _ => false end = true) as H by (vm_compute; reflexivity).
    rewrite E in H. by apply Z.eqb_eq. }
  assert (mem_ok s') as Mok by (exists fl'; apply A).
  pose proof (aa_held _ _ _ _ _ _ A) as Hheld. apply (in_use_held fl' s') in Hheld; [|apply (aa_ok _ _ _ _ _ _ A)].
  destruct Hheld as (Hc & (g & Hg & Hf) & Hn).
  assert (~ frame_free s' 0) as Hnf by (apply Hn, in_chunk_head; done).
  assert (mapped_twice = set_cur_task (Some (mk_task_ref 1 5 0)) (set_frames {[ 600 := {[ 0 := 1 ]} ]} (set_pages (<[0 := page0]> (pages s')) s'))) as ->
    by (unfold mapped_twice, allocd; by rewrite E).
  assert (mem_ok (set_pages (<[0 := page0]> (pages s')) s')) as Mok' by (eapply mem_ok_mod; [done|exact Hg|done|done]).
  split; [by apply (mem_ok_ext (set_pages (<[0 := page0]> (pages s')) s'))|]. split; [apply lookup_insert_eq|].
  split; [exact (sr_npages _ _ (aa_rest _ _ _ _ _ _ A))|]. split; [exact (sr_cr3 _ _ (aa_rest _ _ _ _ _ _ A))|].
  intros Hfr. apply Hnf. by apply (frame_free_mod s' 0 g page0 0 Hg Hf eq_refl).
Qed.
End Demo.

Lemma populate_pte_copies_witness : exists s' p, populate_pte default_config 0 (kret tt) 6 (600, 0) 0 0 Demo.mapped_twice = Ret 0 s' /\ p <> 0
  /\ read_frames (frames s') (600, 0) = Z.lor (Z.lor (page2pa p) PAGE_PRESENT) 6.
Proof.
  destruct Demo.allocd_ok as (Mok & Hg & Hnp & Hcr3 & Hnf).
  assert (match page_alloc default_config 0 ALLOC_ZERO Demo.mapped_twice with
          | Ret (Some p) s => Demo.lonely ActivePages s && Demo.lonely (ActiveNode p) s | _ => false end = true) as H by (vm_compute; reflexivity).
  destruct (page_alloc default_config 0 ALLOC_ZERO Demo.mapped_twice) as [[p|] s1| | | |] eqn:E; try discriminate H.
  apply andb_true_iff in H as [H1 H2].
  destruct (populate_pte_copies default_config 0 (kret tt) 6 (600, 0) 0 0 Demo.mapped_twice s1 Demo.page0 [] p (mk_task_ref 1 5 0))
    as (s' & Ep & _ & Hp & Hr & _).
  - exact Mok.
  - vm_compute. reflexivity.
  - rewrite Hnp. vm_compute. reflexivity.
  - exact Hg.
  - vm_compute. split; [discriminate|reflexivity].
  - exact Hnf.
  - intros Hf. apply (frame_free_range _ _ Mok) in Hf. rewrite Hnp in Hf. cbn in Hf. lia.
  - vm_compute. discriminate.
  - exact E.
  - exact (Demo.lonely_dlist _ _ H1).
  - intros Hin. inversion Hin.
  - exact (Demo.lonely_dlist _ _ H2).
  - reflexivity.
  - rewrite Hcr3, Hnp. vm_compute. reflexivity.
  - exists s', p. exact (conj Ep (conj Hp Hr)).
Defined.

(** The address space of WalkThm.v and a child at frame 5 whose tables are empty. *)
Module DemoShare.
Definition both : gmap Z (gmap Z Z) :=
  demo_frames ∪ {[ 5 := {[ 0 := 6 * 4096 + 7 ]}; 6 := {[ 0 := 7 * 4096 + 7 ]}; 7 := {[ 0 := 8 * 4096 + 7 ]} ]}.
Definition parent_page : page_info := mk_page 1 0 0 1 0 0 None.
Definition state : mstate :=
  mk_mstate {[ 10 := parent_page ]} 512 ∅ both (Spinlock.static_lock "buddy_lock") (Spinlock.static_lock "active_pages_lock") 0 None 1 [].
End DemoShare.

