(* ===== verification/DevMem.v ===== *)
(** * The kernel memory device drivers use

    Drivers allocate small objects and pages and map device registers.  The class
    [DevMem] is what they see of the memory code (kernel/mem/kmem.c, buddy.c, map.c); the
    instance is that code. *)

From Stdlib Require Import ZArith Lia.
From stdpp Require Import strings base gmap fin_maps list.
From S2P Require Import Prelude MemState Buddy BuddyInv BuddyThm Slab SlabInv SlabThm Walk WalkThm Ptbl.

#[local] Open Scope Z_scope.
#[local] Open Scope kernel_scope.

(** [dm_npages m]: the number of page frames; [dm_phys m va]: where the kernel's page tables
    map [va]. *)
Class DevMem (M : Type) := {
  dm_kmalloc : Z -> K M (option (Z * Z));
  dm_kfree : option (Z * Z) -> K M unit;
  dm_page_alloc : Z -> K M (option Z);
  dm_page_free : Z -> K M unit;
  dm_mmio_map_region : Z -> Z -> K M Z;
  dm_npages : M -> Z;
  dm_phys : M -> Z -> option Z;
  (** [dm_ok A m]: the objects of [A] are those handed out. *)
  dm_ok : gset (Z * Z) -> M -> Prop;
  dm_kmalloc_ok A m size : dm_ok A m -> 0 < size <= 1024 ->
    exists r m', dm_kmalloc size m = Ret r m'
    /\ match r with None => dm_ok A m' | Some o => o ∉ A /\ dm_ok ({[o]} ∪ A) m' end;
  dm_kfree_ok A m o : dm_ok A m -> o ∈ A -> exists m', dm_kfree (Some o) m = Ret tt m' /\ dm_ok (A ∖ {[o]}) m'
}.

(** ** The memory code as an instance

    The memory of the machine and the next address mmio_map_region hands out, a static
    variable of that function. *)

Record kernel_memory := mk_km { kmem_of : kmem; mmio_next : Z }.

Section Instance.
Context (cfg : config) (cpu : Z) (oom_kill_task : K mstate unit) (kernel_pml4 : Z).

Definition on_kmem {A} (k : K kmem A) : K kernel_memory A := fun s =>
  match k (kmem_of s) with
  | Ret a m => Ret a (mk_km m (mmio_next s))
  | Panic => Panic | Fault => Fault | Hang => Hang
  | NoReturn m => NoReturn (mk_km m (mmio_next s))
  end.

Definition map_registers (pa sz : Z) : K kernel_memory Z := fun s =>
  (r <-- on_kmem (on_memory (mmio_map_region cfg cpu oom_kill_task kernel_pml4 (mmio_next s) pa sz));;
   kmodify (fun s => mk_km (kmem_of s) (snd r));;; kret (fst r)) s.

(** The address a word of a page table and the offset in its page give. *)
Definition translate (s : kernel_memory) (va : Z) : option Z :=
  let fr := frames (memory (kmem_of s)) in
  (fun e => let v := read_frames fr e in
    if flag v PAGE_HUGE then PAGE_ADDR v + va mod HPAGE_SIZE else PAGE_ADDR v + va mod PAGE_SIZE) <$> leaf4 fr kernel_pml4 va.

Definition objects_ok (A : gset (Z * Z)) (s : kernel_memory) : Prop := exists O : objects, dom O = A /\ kmem_ok O (kmem_of s).

Lemma on_kmem_run {A} (k : K kmem A) s a m : k (kmem_of s) = Ret a m -> on_kmem k s = Ret a (mk_km m (mmio_next s)).
Proof. unfold on_kmem. by intros ->. Qed.

Lemma kmalloc_objects A s sz : objects_ok A s -> 0 < sz <= 1024 ->
  exists r s', on_kmem (kmalloc cfg cpu sz) s = Ret r s'
  /\ match r with None => objects_ok A s' | Some o => o ∉ A /\ objects_ok ({[o]} ∪ A) s' end.
Proof.
  intros (O & <- & K) Hsz. pose proof K as (v & I & _).
  pose proof (kmalloc_small cfg cpu _ _ (so_nslabs _ _ I) Hsz) as E0.
  assert (0 <= (sz - 1) / 32 < 32) as Hk by (split; [apply Z.div_pos; lia|apply Z.div_lt_upper_bound; lia]).
  destruct (slab_alloc_ok cfg cpu O _ _ K Hk) as [(m' & _ & _ & E & K')|(o & s' & E & Hn & K' & _)];
    rewrite <- E0 in E; eexists _, _; (split; [exact (on_kmem_run _ _ _ _ E)|]).
  - by exists O.
  - split; [by apply not_elem_of_dom|]. eexists. split; [|exact K']. by rewrite dom_insert_L.
Qed.

Lemma kfree_objects A s o : objects_ok A s -> o ∈ A ->
  exists s', on_kmem (kfree cfg cpu (Some o)) s = Ret tt s' /\ objects_ok (A ∖ {[o]}) s'.
Proof.
  intros (O & <- & K) [k Hk]%elem_of_dom. destruct o as [f i].
  destruct (slab_free_ok cfg cpu O _ f i k K Hk) as (s' & E & K' & _).
  eexists. split; [exact (on_kmem_run _ _ _ _ E)|]. exists (delete (f, i) O). split; [by rewrite dom_delete_L|done].
Qed.

#[export] Instance kernel_dev_mem : DevMem kernel_memory := {
  dm_kmalloc sz := on_kmem (kmalloc cfg cpu sz);
  dm_kfree o := on_kmem (kfree cfg cpu o);
  dm_page_alloc flags := on_kmem (on_memory (page_alloc cfg cpu flags));
  dm_page_free p := on_kmem (on_memory (page_free cfg cpu p));
  dm_mmio_map_region := map_registers;
  dm_npages s := npages (memory (kmem_of s));
  dm_phys := translate;
  dm_ok := objects_ok;
  dm_kmalloc_ok := kmalloc_objects;
  dm_kfree_ok := kfree_objects
}.

End Instance.

(** ** A simple memory, for examples

    Objects are numbered, mapped regions are kept in a list, and pages are handed out
    once. *)

Record simple := mk_simple { next : Z; live : gset (Z * Z); regions : list (Z * Z * Z) }.

Definition simple_kmalloc (sz : Z) : K simple (option (Z * Z)) := fun s =>
  if (0 <? sz) && (sz <=? 1024) then Ret (Some (next s, 0)) (mk_simple (next s + 1) ({[(next s, 0)]} ∪ live s) (regions s)) else Ret None s.
Definition simple_kfree (o : option (Z * Z)) : K simple unit := fun s =>
  match o with Some o => Ret tt (mk_simple (next s) (live s ∖ {[o]}) (regions s)) | None => Fault end.
Definition simple_page_alloc (flags : Z) : K simple (option Z) := fun s =>
  Ret (Some (next s)) (mk_simple (next s + 1) (live s) (regions s)).
Definition simple_map (pa sz : Z) : K simple Z := fun s =>
  let va := MMIO_BASE + 0x1000000 * Z.of_nat (length (regions s)) in
  Ret va (mk_simple (next s) (live s) ((va, pa, sz) :: regions s)).
Fixpoint region_of (va : Z) (l : list (Z * Z * Z)) : option Z :=
  match l with
  | [] => None
  | (v, pa, sz) :: l => if (v <=? va) && (va <? v + sz) then Some (pa + (va - v)) else region_of va l
  end.
Definition simple_ok (A : gset (Z * Z)) (s : simple) : Prop := live s = A /\ forall o, o ∈ A -> o.1 < next s.

#[export] Program Instance simple_dev_mem : DevMem simple := {
  dm_kmalloc := simple_kmalloc;
  dm_kfree := simple_kfree;
  dm_page_alloc := simple_page_alloc;
  dm_page_free _ := kret tt;
  dm_mmio_map_region := simple_map;
  dm_npages _ := 0x100000;
  dm_phys s va := region_of va (regions s);
  dm_ok := simple_ok
}.
Next Obligation.
  intros A s sz [<- Hlt] [H0 H1]. unfold simple_kmalloc. apply Z.ltb_lt in H0 as ->. apply Z.leb_le in H1 as ->. cbn [andb].
  eexists _, _. split; [reflexivity|]. cbn. split; [intros Hin; specialize (Hlt _ Hin); cbn in Hlt; lia|].
  split; [done|]. intros o [->%elem_of_singleton|Hin]%elem_of_union; cbn; [lia|]. specialize (Hlt o Hin). lia.
Qed.
Next Obligation.
  intros A s o [<- Hlt] Hin. eexists. split; [reflexivity|]. split; [done|]. cbn. intros o' [? _]%elem_of_difference. by apply Hlt.
Qed.

Definition simple0 : simple := mk_simple 0 ∅ [].

Lemma simple0_ok : simple_ok ∅ simple0.
Proof. split; [done|]. intros o Ho. by apply not_elem_of_empty in Ho. Qed.
