(* ===== verification/Devices.v ===== *)
(** * Ports, device registers and firmware memory (include/x86-64/asm.h)

    What the processor sees of the machine outside the kernel: byte memory that firmware
    and devices share with it ([ram]; Strings.v has its loads and stores), and a trace of
    the accesses to ports and device registers, latest first.  What a device answers and
    what it writes into memory is an argument, a function of that trace and of the memory
    (class [devices]). *)

From Stdlib Require Import ZArith Lia.
From stdpp Require Import strings base gmap fin_maps list.
From S2P Require Import Prelude Strings.

#[local] Open Scope Z_scope.
#[local] Open Scope kernel_scope.

(** ** Little-endian numbers in memory *)

Fixpoint le_combine (bs : list Z) : Z := match bs with [] => 0 | b :: bs => b + 256 * le_combine bs end.
Fixpoint le_split (n : nat) (v : Z) : list Z := match n with O => [] | S n => u8 v :: le_split n (v / 256) end.

Lemma le_split_length n v : length (le_split n v) = n.
Proof. revert v. induction n as [|n IH]; intros v; cbn [le_split length]; [done|by rewrite IH]. Qed.

Lemma le_combine_split n v : 0 <= v < 256 ^ Z.of_nat n -> le_combine (le_split n v) = v.
Proof.
  revert v. induction n as [|n IH]; intros v Hv; cbn [le_split le_combine].
  - change (256 ^ Z.of_nat 0) with 1 in Hv. lia.
  - rewrite Nat2Z.inj_succ, Z.pow_succ_r in Hv by lia. pose proof (Z.div_mod v 256 ltac:(lia)).
    unfold u8. change (2 ^ 8) with 256. rewrite IH; [lia|].
    split; [apply Z.div_pos; lia|]. apply Z.div_lt_upper_bound; lia.
Qed.

Lemma le_split_range n v : Forall (fun b => 0 <= b < 256) (le_split n v).
Proof. revert v. induction n as [|n IH]; intros v; constructor; [apply Z.mod_pos_bound; lia|apply IH]. Qed.

Lemma le_combine_bound bs : Forall (fun b => 0 <= b < 256) bs -> 0 <= le_combine bs < 256 ^ Z.of_nat (length bs).
Proof.
  induction 1 as [|b bs Hb _ IH]; cbn [le_combine length]; [change (256 ^ Z.of_nat 0) with 1; lia|].
  rewrite Nat2Z.inj_succ, Z.pow_succ_r by lia. lia.
Qed.

(** The [n] bytes at [p], and the number they spell. *)
Fixpoint peek (m : mem) (n : nat) (p : Z) : option (list Z) :=
  match n with
  | O => Some []
  | S n => match m !! p, peek m n (p + 1) with Some b, Some bs => Some (b :: bs) | _, _ => None end
  end.
Definition load_le (n : nat) (p : Z) : K mem Z := fun m => kderef (le_combine <$> peek m n p) m.
Definition store_le (n : nat) (p v : Z) : K mem unit := write_unit p (le_split n v).

Lemma peek_bytes_at m n p bs : peek m n p = Some bs <-> length bs = n /\ bytes_at m p bs.
Proof.
  revert p bs. induction n as [|n IH]; intros p bs; cbn [peek].
  - split; [intros [= <-]; done|]. intros [H _]. by apply nil_length_inv in H as ->.
  - destruct bs as [|b bs].
    + split; [|by intros [? _]]. by destruct (m !! p), (peek m n (p + 1)).
    + cbn [length bytes_at]. destruct (m !! p) as [c|] eqn:E; [|by split; [|intros (_ & ? & _)]].
      destruct (peek m n (p + 1)) as [cs|] eqn:Ep.
      * split; [intros [= -> ->]; apply IH in Ep as [-> ?]; done|].
        intros (Hl & [= ->] & H). f_equal. f_equal.
        assert (peek m n (p + 1) = Some bs) as E2 by (apply IH; split; [lia|done]). congruence.
      * split; [done|]. intros (Hl & _ & H).
        assert (peek m n (p + 1) = Some bs) as E2 by (apply IH; split; [lia|done]). congruence.
Qed.

Lemma load_le_run n p m bs : length bs = n -> bytes_at m p bs -> load_le n p m = Ret (le_combine bs) m.
Proof. intros Hl H. unfold load_le. by rewrite (proj2 (peek_bytes_at m n p bs)). Qed.

(** ** Masks *)

Lemma lor_15 x : 0 <= x -> Z.lor x 15 = x - x mod 16 + 15.
Proof.
  intros Hx. pose proof (Z.div_mod x 16 ltac:(lia)) as Hd. pose proof (Z.mod_pos_bound x 16 ltac:(lia)) as Hm.
  assert (forall a b, 0 <= b < 2 ^ 4 -> a * 16 + b = Z.lor (Z.shiftl a 4) b) as Hl by (intros; symmetry; apply (lor_high _ _ 4); lia).
  replace x with (x / 16 * 16 + x mod 16) at 1 by lia. rewrite Hl by lia. rewrite <- Z.lor_assoc.
  assert (Z.lor (x mod 16) 15 = 15) as ->.
  { pose proof (range_check (fun r => Z.lor r 15 =? 15) 16 ltac:(vm_compute; reflexivity) _ Hm) as H. by apply Z.eqb_eq. }
  rewrite <- Hl by lia. lia.
Qed.

(** ** Computations that only read memory *)

Definition reads {A} (k : K mem A) : Prop := forall m a m', k m = Ret a m' -> m' = m.

Lemma reads_ret {A} (a : A) : reads (kret a).
Proof. by intros m ? ? [= _ ->]. Qed.
Lemma reads_bind {A B} (k : K mem A) (f : A -> K mem B) : reads k -> (forall a, reads (f a)) -> reads (kbind k f).
Proof. intros Hk Hf m a m'. unfold kbind. destruct (k m) as [x m1| | | |] eqn:E; [|done..]. intros E2. apply Hf in E2. apply Hk in E. congruence. Qed.
Lemma reads_deref {A} (o : option A) : reads (kderef o).
Proof. destruct o; [apply reads_ret|done]. Qed.
Lemma reads_load p : reads (load p).
Proof. intros m a m'. unfold load. destruct (m !! p); [by intros [= _ ->]|done]. Qed.
Lemma reads_load_le n p : reads (load_le n p).
Proof. intros m a m'. unfold load_le. destruct (peek m n p); [by intros [= _ ->]|done]. Qed.
Lemma reads_if {A} (b : bool) (k1 k2 : K mem A) : reads k1 -> reads k2 -> reads (if b then k1 else k2).
Proof. by destruct b. Qed.
Lemma reads_hang {A} : reads (@khang mem A).
Proof. done. Qed.

#[export] Hint Resolve reads_ret reads_bind reads_deref reads_load reads_load_le reads_if reads_hang : kernel.

(** ** The machine *)

Inductive access :=
  | PortIn (width port : Z)
  | PortOut (width port v : Z)
  | RegIn (width addr : Z)
  | RegOut (width addr v : Z).

(** The value a port was last given. *)
Fixpoint last_out (p : Z) (tr : list access) : Z :=
  match tr with
  | [] => 0
  | PortOut _ q v :: tr => if q =? p then v else last_out p tr
  | _ :: tr => last_out p tr
  end.

(** What an access to a port or a register (at a physical address) gives, from the
    accesses before it, and the memory after an access. *)
Class devices := {
  answer : list access -> mem -> access -> Z;
  dma : list access -> mem -> mem
}.

Record hw := mk_hw { ram : mem; trace : list access }.

Definition on_ram {A} (k : K mem A) : K hw A := fun s =>
  match k (ram s) with
  | Ret a m => Ret a (mk_hw m (trace s))
  | Panic => Panic | Fault => Fault | Hang => Hang
  | NoReturn m => NoReturn (mk_hw m (trace s))
  end.

Section Ops.
Context {D : devices}.

Definition occurs (a : access) : K hw Z := fun s =>
  let v := answer (trace s) (ram s) a in
  Ret v (mk_hw (dma (a :: trace s) (ram s)) (a :: trace s)).

Definition inb (port : Z) : K hw Z := v <-- occurs (PortIn 1 (u16 port));; kret (u8 v).
Definition inw (port : Z) : K hw Z := v <-- occurs (PortIn 2 (u16 port));; kret (u16 v).
Definition inl (port : Z) : K hw Z := v <-- occurs (PortIn 4 (u16 port));; kret (u32 v).
Definition outb (port v : Z) : K hw unit := occurs (PortOut 1 (u16 port) (u8 v));;; kret tt.
Definition outw (port v : Z) : K hw unit := occurs (PortOut 2 (u16 port) (u16 v));;; kret tt.
Definition outl (port v : Z) : K hw unit := occurs (PortOut 4 (u16 port) (u32 v));;; kret tt.

(** [rep insl] and [rep outsl] of [n] words, upwards. *)
Fixpoint insl (n : nat) (port addr : Z) : K hw unit :=
  match n with
  | O => kret tt
  | S n => v <-- inl port;; on_ram (store_le 4 addr v);;; insl n port (addr + 4)
  end.
Fixpoint outsl (n : nat) (port addr : Z) : K hw unit :=
  match n with
  | O => kret tt
  | S n => v <-- on_ram (load_le 4 addr);; outl port v;;; outsl n port (addr + 4)
  end.

(** A register of [w] bytes at a physical address. *)
Definition reg_in (w addr : Z) : K hw Z := v <-- occurs (RegIn w addr);; kret (v mod 2 ^ (8 * w)).
Definition reg_out (w addr v : Z) : K hw unit := occurs (RegOut w addr (v mod 2 ^ (8 * w)));;; kret tt.

End Ops.

Lemma on_ram_run {A} (k : K mem A) s a m : k (ram s) = Ret a m -> on_ram k s = Ret a (mk_hw m (trace s)).
Proof. unfold on_ram. by intros ->. Qed.
