(* ===== verification/Acpi.v ===== *)
(** * Firmware tables (kernel/acpi/acpi.c)

    The search for the root pointer and for a table by its signature, over the bytes
    firmware left in memory.  Pointers are kernel virtual addresses; a string literal is
    the list of its bytes. *)

From Stdlib Require Import ZArith Lia.
From stdpp Require Import strings base gmap fin_maps list.
From S2P Require Import Prelude Strings Printfmt MemState Devices.

#[local] Open Scope Z_scope.
#[local] Open Scope kernel_scope.

(** ** The tables of include/acpi.h: offsets of the fields that are read *)

Definition rsdp_revision : Z := 15.
Definition rsdp_rsdt_base : Z := 16.
Definition rsdp20_xsdt_base : Z := 24.
Definition hdr_len : Z := 4.
Definition sizeof_acpi_hdr : Z := 36.

(** [(void * )(KERNEL_VMA + pa)]. *)
Definition kva (pa : Z) : Z := u64 (KERNEL_VMA + pa).

(** ** Sums and signatures *)

Fixpoint memsum_loop (n : nat) (p sum : Z) : K mem Z :=
  match n with
  | O => kret sum
  | S n => c <-- load p;; memsum_loop n (p + 1) (u8 (sum + schar c))
  end.
Definition memsum (s len : Z) : K mem Z := memsum_loop (Z.to_nat len) s 0.

(** [memcmp] against a literal. *)
Fixpoint memcmp_lit (p : Z) (lit : list Z) : K mem Z :=
  match lit with
  | [] => kret 0
  | b :: lit => a <-- load p;; if negb (a =? b) then kret (a - b) else memcmp_lit (p + 1) lit
  end.

Definition acpi_check (hdr : Z) (signature : list Z) : K mem Z :=
  c <-- memcmp_lit hdr (take 4 signature);;
  if negb (c =? 0) then kret 0 else
  len <-- load_le 4 (hdr + hdr_len);;
  sum <-- memsum hdr len;;
  kret (b2z (sum =? 0)).

(** ** The root pointer *)

Fixpoint rsdp_loop (fuel : nat) (p end_ : Z) : K mem (option Z) :=
  if p <? end_ then
    match fuel with
    | O => khang
    | S fuel =>
        c <-- memcmp_lit p (codes "RSD PTR ");;
        if c =? 0 then kret (Some p) else rsdp_loop fuel (p + 16) end_
    end
  else kret None.
Definition rsdp_find_range (start end_ : Z) : K mem (option Z) :=
  rsdp_loop (Z.to_nat (end_ - start)) start end_.
Definition rsdp_find : K mem (option Z) := rsdp_find_range (KERNEL_VMA + 0xe0000) (KERNEL_VMA + 0xfffff).

(** ** Tables by signature *)

(** The loop over [n] pointers of [w] bytes each. *)
Fixpoint sdt_loop (w n : nat) (sdtp : Z) (signature : list Z) : K mem (option Z) :=
  match n with
  | O => kret None
  | S n =>
      pa <-- load_le w sdtp;;
      let hdr := kva pa in
      c <-- acpi_check hdr signature;;
      if c =? 0 then sdt_loop w n (sdtp + Z.of_nat w) signature else kret (Some hdr)
  end.
Definition xsdt_find_table (hdr : Z) (signature : list Z) : K mem (option Z) :=
  len <-- load_le 4 (hdr + hdr_len);;
  sdt_loop 8 (Z.to_nat (len / 8)) (hdr + sizeof_acpi_hdr) signature.
Definition rsdt_find_table (hdr : Z) (signature : list Z) : K mem (option Z) :=
  len <-- load_le 4 (hdr + hdr_len);;
  sdt_loop 4 (Z.to_nat (len / 4)) (hdr + sizeof_acpi_hdr) signature.

Definition acpi_find_table (rsdp : option Z) (signature : list Z) : K mem (option Z) :=
  rsdp <-- kderef rsdp;;
  revision <-- load (rsdp + rsdp_revision);;
  xsdt <-- (if revision >? 0 then
              pa <-- load_le 8 (rsdp + rsdp20_xsdt_base);;
              c <-- acpi_check (kva pa) (codes "XSDT");;
              kret (if c =? 0 then None else Some (kva pa))
            else kret None);;
  match xsdt with
  | Some hdr => xsdt_find_table hdr signature
  | None =>
      pa <-- load_le 4 (rsdp + rsdp_rsdt_base);;
      c <-- acpi_check (kva pa) (codes "RSDT");;
      if c =? 0 then kret None else rsdt_find_table (kva pa) signature
  end.

(** ** Printing the tables: the signatures that are printed *)

Fixpoint sdt_dump_loop (w n : nat) (sdtp : Z) : K mem (list (list Z)) :=
  match n with
  | O => kret []
  | S n =>
      pa <-- load_le w sdtp;;
      if pa =? 0 then sdt_dump_loop w n (sdtp + Z.of_nat w) else
      sg <-- read_unit 4 (kva pa);;
      rest <-- sdt_dump_loop w n (sdtp + Z.of_nat w);;
      kret (sg :: rest)
  end.
Definition xsdt_dump_tables (hdr : Z) : K mem (list (list Z)) :=
  len <-- load_le 4 (hdr + hdr_len);;
  sdt_dump_loop 8 (Z.to_nat (len / 8)) (hdr + sizeof_acpi_hdr).
Definition rsdt_dump_tables (hdr : Z) : K mem (list (list Z)) :=
  len <-- load_le 4 (hdr + hdr_len);;
  sdt_dump_loop 4 (Z.to_nat (len / 4)) (hdr + sizeof_acpi_hdr).

Definition acpi_dump_tables (rsdp : Z) : K mem (list (list Z)) :=
  revision <-- load (rsdp + rsdp_revision);;
  out <-- (if revision >? 0 then
             pa <-- load_le 8 (rsdp + rsdp20_xsdt_base);;
             c <-- acpi_check (kva pa) (codes "XSDT");;
             if c =? 0 then kret [] else xsdt_dump_tables (kva pa)
           else kret []);;
  pa <-- load_le 4 (rsdp + rsdp_rsdt_base);;
  c <-- acpi_check (kva pa) (codes "RSDT");;
  out' <-- (if c =? 0 then kret [] else rsdt_dump_tables (kva pa));;
  kret (out ++ out').

(** ** What the tables are

    [table_at m hdr bs]: the table at [hdr] is the bytes [bs], as its length field says;
    it is genuine for a signature when it carries it and its bytes sum up to 0. *)

Definition sum (bs : list Z) : Z := foldr Z.add 0 bs.
Definition table_at (m : mem) (hdr : Z) (bs : list Z) : Prop :=
  bytes_at m hdr bs /\ (8 <= length bs)%nat /\ Forall (fun b => 0 <= b < 256) bs
  /\ le_combine (take 4 (drop 4 bs)) = Z.of_nat (length bs).
Definition genuine (signature bs : list Z) : bool :=
  bool_decide (take 4 bs = take 4 signature) && (sum bs mod 256 =? 0).

(** The body of a root table: [w]-byte pointers. *)
Definition pointers (w : nat) (pas : list Z) : list Z := concat (le_split w <$> pas).

(** The first of the tables that is genuine. *)
Fixpoint first_genuine (signature : list Z) (l : list (Z * list Z)) : option Z :=
  match l with
  | [] => None
  | (pa, bs) :: l => if genuine signature bs then Some (kva pa) else first_genuine signature l
  end.

(** ** Lemmas *)

Lemma bytes_at_app m p xs ys : bytes_at m p (xs ++ ys) <-> bytes_at m p xs /\ bytes_at m (p + Z.of_nat (length xs)) ys.
Proof.
  revert p. induction xs as [|x xs IH]; intros p; cbn [app bytes_at length].
  - rewrite Z.add_0_r. tauto.
  - rewrite IH. replace (p + 1 + Z.of_nat (length xs)) with (p + Z.of_nat (S (length xs))) by lia. tauto.
Qed.

Lemma bytes_at_slice m p xs i n : bytes_at m p xs -> bytes_at m (p + Z.of_nat i) (take n (drop i xs)).
Proof.
  intros H. destruct (Nat.le_gt_cases i (length xs)) as [Hi|Hi].
  - rewrite <- (take_drop i xs), <- (take_drop n (drop i xs)) in H.
    apply bytes_at_app in H as [_ H]. rewrite length_take, Nat.min_l in H by lia. by apply bytes_at_app in H as [? _].
  - rewrite (drop_ge xs) by lia. by rewrite take_nil.
Qed.

Lemma mapped_bytes m n p : mapped m p (Z.of_nat n) -> exists bs, bytes_at m p bs /\ length bs = n.
Proof.
  revert p. induction n as [|n IH]; intros p H; [by exists []|].
  destruct (IH (p + 1)) as (bs & ? & ?); [intros a ?; apply H; lia|]. destruct (H p) as [b Hb]; [lia|].
  exists (b :: bs). cbn. repeat split; [done|done|lia].
Qed.

Lemma memcmp_lit_ok lit p bs m : bytes_at m p bs -> length bs = length lit ->
  exists c, memcmp_lit p lit m = Ret c m /\ (c = 0 <-> bs = lit).
Proof.
  revert p bs. induction lit as [|b lit IH]; intros p bs H Hl.
  - apply nil_length_inv in Hl as ->. by exists 0.
  - destruct bs as [|a bs]; [done|]. destruct H as [Ha H]. cbn [memcmp_lit]. rewrite (bind_load p a) by done.
    destruct (Z.eqb_spec a b) as [->|Hne]; cbn [negb].
    + destruct (IH (p + 1) bs H ltac:(cbn in Hl; lia)) as (c & E & Hc). exists c. split; [done|].
      rewrite Hc. split; [by intros ->|congruence].
    + exists (a - b). split; [done|]. split; [lia|congruence].
Qed.

Lemma u8_add_schar a c : u8 (u8 a + schar c) = u8 (a + c).
Proof.
  unfold u8, schar, sint. change (8 - 1) with 7. rewrite Zplus_mod_idemp_l.
  replace (a + ((c + 2 ^ 7) mod 2 ^ 8 - 2 ^ 7)) with (a - 2 ^ 7 + (c + 2 ^ 7) mod 2 ^ 8) by lia.
  rewrite Zplus_mod_idemp_r. f_equal. lia.
Qed.

Lemma memsum_loop_ok bs p a m : bytes_at m p bs -> memsum_loop (length bs) p (u8 a) m = Ret (u8 (a + sum bs)) m.
Proof.
  revert p a. induction bs as [|b bs IH]; intros p a; cbn [length memsum_loop bytes_at sum foldr].
  - intros _. by rewrite Z.add_0_r.
  - intros [Hb H]. rewrite (bind_load p b) by done. rewrite u8_add_schar, IH by done. f_equal. f_equal. unfold sum. lia.
Qed.

Lemma memsum_ok bs p m : bytes_at m p bs -> memsum p (Z.of_nat (length bs)) m = Ret (sum bs mod 256) m.
Proof. intros H. unfold memsum. rewrite Nat2Z.id. exact (memsum_loop_ok bs p 0 m H). Qed.

Lemma table_len m hdr bs : table_at m hdr bs -> load_le 4 (hdr + hdr_len) m = Ret (Z.of_nat (length bs)) m.
Proof.
  intros (H & Hlen & _ & Hl). rewrite <- Hl. apply load_le_run.
  - rewrite length_take, length_drop. lia.
  - change hdr_len with (Z.of_nat 4). by apply bytes_at_slice.
Qed.

Lemma acpi_check_ok m hdr bs signature : table_at m hdr bs -> (4 <= length signature)%nat ->
  acpi_check hdr signature m = Ret (b2z (genuine signature bs)) m.
Proof.
  intros T Hs. pose proof T as (H & Hlen & _ & _). unfold acpi_check.
  pose proof (bytes_at_slice m hdr bs 0 4 H) as Hsig. rewrite Z.add_0_r, drop_0 in Hsig.
  destruct (memcmp_lit_ok (take 4 signature) hdr (take 4 bs) m Hsig) as (c & E & Hc).
  { rewrite !length_take. lia. }
  rewrite (krun _ _ _ _ _ E). unfold genuine.
  destruct (Z.eqb_spec c 0) as [->|Hne]; cbn [negb].
  - rewrite bool_decide_true by tauto. rewrite (krun _ _ _ _ _ (table_len m hdr bs T)), (krun _ _ _ _ _ (memsum_ok bs hdr m H)). done.
  - rewrite bool_decide_false by tauto. done.
Qed.

Lemma pointers_length w pas : length (pointers w pas) = (w * length pas)%nat.
Proof.
  unfold pointers. induction pas as [|pa pas IH]; cbn [fmap list_fmap concat length]; [lia|].
  rewrite length_app, le_split_length, IH. lia.
Qed.

Lemma sdt_loop_ok w m signature l n p : (4 <= length signature)%nat ->
  bytes_at m p (pointers w l.*1) -> Forall (fun x => 0 <= x.1 < 256 ^ Z.of_nat w /\ table_at m (kva x.1) x.2) l ->
  sdt_loop w (length l + n) p signature m
  = match first_genuine signature l with
    | Some hdr => Ret (Some hdr) m
    | None => sdt_loop w n (p + Z.of_nat (w * length l)) signature m
    end.
Proof.
  intros Hs. revert p. induction l as [|[pa bs] l IH]; intros p H Hl.
  - cbn [first_genuine length Nat.add]. f_equal. lia.
  - apply Forall_cons in Hl as [[Hpa HT] Hl]. cbn [fst snd] in *.
    unfold pointers in H. cbn [fmap list_fmap concat fst] in H. apply bytes_at_app in H as [Hp H].
    rewrite le_split_length in H. cbn [length Nat.add sdt_loop first_genuine].
    rewrite (krun _ _ _ _ _ (load_le_run w p m _ (le_split_length w pa) Hp)), le_combine_split by done.
    rewrite (krun _ _ _ _ _ (acpi_check_ok m _ bs signature HT Hs)).
    destruct (genuine signature bs); cbn [b2z Z.eqb]; [done|]. rewrite (IH _ H Hl).
    destruct (first_genuine signature l); [done|]. f_equal. lia.
Qed.

(** A genuine root table with the pointers of [l] after its header, [sz] bytes long. *)
Definition root_at (m : mem) (w : nat) (hdr : Z) (signature bs : list Z) (l : list (Z * list Z)) : Prop :=
  table_at m hdr bs /\ genuine signature bs = true /\ (36 <= length bs)%nat /\ drop 36 bs = pointers w l.*1
  /\ Forall (fun x => 0 <= x.1 < 256 ^ Z.of_nat w /\ table_at m (kva x.1) x.2) l.

(** The loops take the length of the whole table for that of its body, and so visit
    [36 / w] words more than the table has. *)
Lemma sdt_find_ok m w hdr root bs l signature : (w = 4 \/ w = 8)%nat -> (4 <= length signature)%nat ->
  root_at m w hdr root bs l ->
  sdt_loop w (Z.to_nat (Z.of_nat (length bs) / Z.of_nat w)) (hdr + sizeof_acpi_hdr) signature m
  = match first_genuine signature l with
    | Some t => Ret (Some t) m
    | None => sdt_loop w (36 / w) (hdr + Z.of_nat (length bs)) signature m
    end.
Proof.
  intros Hw Hs (T & _ & Hlen & Hd & Hl). pose proof T as (H & _).
  assert (length bs = 36 + w * length l)%nat as HL.
  { apply (f_equal length) in Hd. rewrite length_drop, pointers_length, length_fmap in Hd. lia. }
  replace (Z.to_nat (Z.of_nat (length bs) / Z.of_nat w)) with (length l + 36 / w)%nat.
  2: { rewrite <- Nat2Z.inj_div, Nat2Z.id, HL, (Nat.mul_comm w), Nat.div_add by lia. lia. }
  rewrite (sdt_loop_ok w m signature l (36 / w)) by (try done; rewrite <- Hd;
    pose proof (bytes_at_slice m hdr bs 36 (length bs) H) as Hb;
    rewrite take_ge in Hb by (rewrite length_drop; lia); exact Hb).
  destruct (first_genuine signature l); [done|]. f_equal. unfold sizeof_acpi_hdr. lia.
Qed.

(** ** The root pointer and the tables *)

Definition rsdp_signature_at (m : mem) (p : Z) : Prop := bytes_at m p (codes "RSD PTR ").

Lemma rsdp_loop_ok m end_ fuel p : (forall a, p <= a < end_ + 8 -> is_Some (m !! a)) -> end_ - p <= Z.of_nat fuel ->
  exists r, rsdp_loop fuel p end_ m = Ret r m
  /\ match r with
     | Some q => p <= q < end_ /\ (q - p) mod 16 = 0 /\ rsdp_signature_at m q
                 /\ forall q', p <= q' < q -> (q' - p) mod 16 = 0 -> ~ rsdp_signature_at m q'
     | None => forall q, p <= q < end_ -> (q - p) mod 16 = 0 -> ~ rsdp_signature_at m q
     end.
Proof.
  revert p. induction fuel as [|fuel IH]; intros p Hmap Hf; cbn [rsdp_loop].
  - destruct (Z.ltb_spec p end_); [lia|]. exists None. split; [done|]. lia.
  - destruct (Z.ltb_spec p end_) as [Hlt|]; [|exists None; split; [done|lia]].
    assert (exists bs, bytes_at m p bs /\ length bs = 8%nat) as (bs & Hbs & Hl).
    { apply (mapped_bytes m 8). intros a Ha. apply Hmap. lia. }
    destruct (memcmp_lit_ok (codes "RSD PTR ") p bs m Hbs Hl) as (c & E & Hc). rewrite (krun _ _ _ _ _ E).
    destruct (Z.eqb_spec c 0) as [->|Hne].
    + exists (Some p). split; [done|]. rewrite Z.sub_diag. split; [lia|]. split; [done|]. split; [|lia].
      unfold rsdp_signature_at. by rewrite <- (proj1 Hc eq_refl).
    + assert (~ rsdp_signature_at m p) as Hno.
      { intros H. apply Hne, Hc. pose proof (proj2 (peek_bytes_at m 8 p bs) (conj Hl Hbs)) as E1.
        pose proof (proj2 (peek_bytes_at m 8 p (codes "RSD PTR ")) (conj eq_refl H)) as E2. congruence. }
      destruct (IH (p + 16)) as (r & Er & Hr); [intros; apply Hmap; lia|lia|]. exists r. split; [done|].
      assert (forall q, p <= q -> (q - p) mod 16 = 0 -> q = p \/ p + 16 <= q /\ (q - (p + 16)) mod 16 = 0) as Hstep.
      { intros q Hq Hm. pose proof (Z.div_mod (q - p) 16 ltac:(lia)) as Hd. rewrite Hm in Hd.
        destruct (decide (q = p)); [by left|right]. split; [lia|].
        replace (q - (p + 16)) with (((q - p) / 16 - 1) * 16) by lia. apply Z.mod_mul. lia. }
      destruct r as [q|].
      * destruct Hr as (? & Hm & ? & Hr). split; [lia|]. split.
        { replace (q - p) with (q - (p + 16) + 1 * 16) by lia. rewrite Z.mod_add by lia. done. }
        split; [done|]. intros q' Hq' Hm'. destruct (Hstep q' ltac:(lia) Hm') as [->|[? ?]]; [done|]. apply Hr; [lia|done].
      * intros q Hq Hm. destruct (Hstep q ltac:(lia) Hm) as [->|[? ?]]; [done|]. apply Hr; [lia|done].
Qed.

(** Fact (functional): when the BIOS area is mapped, rsdp_find returns, and what it
    returns is the lowest address of the area, on a 16-byte boundary, that carries the
    signature of the root pointer; it returns NULL only if there is none. *)
Theorem rsdp_find_correct (m : mem)
  (Hmap : forall a, KERNEL_VMA + 0xe0000 <= a < KERNEL_VMA + 0xfffff + 8 -> is_Some (m !! a)) :
  exists r, rsdp_find m = Ret r m
  /\ match r with
     | Some q => KERNEL_VMA + 0xe0000 <= q < KERNEL_VMA + 0xfffff /\ (q - KERNEL_VMA) mod 16 = 0 /\ rsdp_signature_at m q
                 /\ forall q', KERNEL_VMA + 0xe0000 <= q' < q -> (q' - KERNEL_VMA) mod 16 = 0 -> ~ rsdp_signature_at m q'
     | None => forall q, KERNEL_VMA + 0xe0000 <= q < KERNEL_VMA + 0xfffff -> (q - KERNEL_VMA) mod 16 = 0 -> ~ rsdp_signature_at m q
     end.
Proof.
  destruct (rsdp_loop_ok m (KERNEL_VMA + 0xfffff) (Z.to_nat (KERNEL_VMA + 0xfffff - (KERNEL_VMA + 0xe0000)))
    (KERNEL_VMA + 0xe0000) Hmap) as (r & E & H); [lia|].
  assert (forall q, (q - (KERNEL_VMA + 0xe0000)) mod 16 = (q - KERNEL_VMA) mod 16) as Hm.
  { intros q. replace (q - KERNEL_VMA) with (q - (KERNEL_VMA + 0xe0000) + 0xe000 * 16) by lia.
    by rewrite Z.mod_add by lia. }
  exists r. split; [exact E|]. destruct r as [q|].
  - destruct H as (? & Hq & ? & H). rewrite Hm in Hq. split; [lia|]. split; [done|]. split; [done|].
    intros q' ? Hq'. apply H; [lia|]. by rewrite Hm.
  - intros q ? Hq. apply H; [lia|]. by rewrite Hm.
Qed.

(** What acpi_find_table reads of the root pointer: revision and the two root tables. *)
Definition rsdp_at (m : mem) (rsdp revision rsdt xsdt : Z) : Prop :=
  m !! (rsdp + rsdp_revision) = Some revision /\ 0 <= rsdt < 2 ^ 32 /\ 0 <= xsdt < 2 ^ 64
  /\ bytes_at m (rsdp + rsdp_rsdt_base) (le_split 4 rsdt)
  /\ (0 < revision -> bytes_at m (rsdp + rsdp20_xsdt_base) (le_split 8 xsdt)).

(** Fact (functional): acpi_find_table returns the first table of the extended root table
    (revision 1 and later) that carries the signature and whose bytes sum up to zero, and
    likewise with the old root table for revision 0.  When the root table has no such
    entry, the search does not end with it: the loops count the bytes of the header as
    entries too, and the result is what four (nine) more words after the table's end,
    taken for pointers, give. *)
Theorem acpi_find_table_correct (m : mem) (rsdp revision rsdt xsdt : Z) (signature bs : list Z) (l : list (Z * list Z))
  (Hp : rsdp_at m rsdp revision rsdt xsdt) (Hs : (4 <= length signature)%nat)
  (Hroot : if revision >? 0 then root_at m 8 (kva xsdt) (codes "XSDT") bs l else root_at m 4 (kva rsdt) (codes "RSDT") bs l) :
  acpi_find_table (Some rsdp) signature m
  = match first_genuine signature l with
    | Some hdr => Ret (Some hdr) m
    | None => if revision >? 0 then sdt_loop 8 4 (kva xsdt + Z.of_nat (length bs)) signature m
              else sdt_loop 4 9 (kva rsdt + Z.of_nat (length bs)) signature m
    end.
Proof.
  destruct Hp as (Hrev & Hr & Hx & Hrsdt & Hxsdt). unfold acpi_find_table. cbn [kderef]. rewrite kret_run.
  rewrite (bind_load _ _ _ _ Hrev). destruct (Z.gtb_spec revision 0) as [Hpos|Hle].
  - pose proof Hroot as (T & G & _).
    erewrite krun; [|erewrite krun by exact (load_le_run 8 _ m _ (le_split_length 8 xsdt) (Hxsdt Hpos));
      rewrite le_combine_split by exact Hx; erewrite krun by exact (acpi_check_ok m _ bs (codes "XSDT") T (le_n 4)); rewrite G; reflexivity].
    cbn [b2z Z.eqb]. unfold xsdt_find_table. rewrite (krun _ _ _ _ _ (table_len _ _ _ T)).
    apply (sdt_find_ok m 8 _ _ bs l signature (or_intror eq_refl) Hs Hroot).
  - rewrite kret_run. pose proof Hroot as (T & G & _).
    rewrite (krun _ _ _ _ _ (load_le_run 4 _ m _ (le_split_length 4 rsdt) Hrsdt)), le_combine_split by exact Hr.
    rewrite (krun _ _ _ _ _ (acpi_check_ok m _ bs (codes "RSDT") T (le_n 4))), G. cbn [b2z Z.eqb].
    unfold rsdt_find_table. rewrite (krun _ _ _ _ _ (table_len _ _ _ T)).
    apply (sdt_find_ok m 4 _ _ bs l signature (or_introl eq_refl) Hs Hroot).
Qed.

(** ** A memory with a root pointer and three tables *)

(** A table with a correct length and checksum. *)
Definition acpi_table (signature body : list Z) : list Z :=
  let raw := take 4 signature ++ le_split 4 (36 + Z.of_nat (length body)) ++ [1; 0] ++ replicate 26 0 ++ body in
  <[9%nat := u8 (- sum raw)]> raw.

Definition demo_xsdt : list Z := acpi_table (codes "XSDT") (pointers 8 [0x2000; 0x3000]).
Definition demo_facp : list Z := acpi_table (codes "FACP") [].
Definition demo_apic : list Z := acpi_table (codes "APIC") [0; 0; 0xe0; 0xfe; 1; 0; 0; 0].
Definition demo_hpet : list Z := acpi_table (codes "HPET") [7].

(** The pointer of demo_hpet stands right after the end of the root table. *)
Definition demo_tables : mem :=
  foldl (fun m x => write_bytes m (KERNEL_VMA + x.1) x.2) ∅
    [(0xe0000, replicate (Z.to_nat 0x20) 0);
     (0xe0010, codes "RSD PTR " ++ [0; 0; 0; 0; 0; 0; 0; 2] ++ le_split 4 0x5000 ++ le_split 4 36 ++ le_split 8 0x1000);
     (0x1000, demo_xsdt ++ pointers 8 [0x4000]); (0x2000, demo_facp); (0x3000, demo_apic); (0x4000, demo_hpet)].

Definition demo_rsdp : Z := KERNEL_VMA + 0xe0010.
Definition demo_entries : list (Z * list Z) := [(0x2000, demo_facp); (0x3000, demo_apic)].

(** Tables at an address, by evaluation. *)
Lemma table_at_eval m hdr bs :
  bool_decide (peek m (length bs) hdr = Some bs) && (8 <=? length bs)%nat && forallb (fun b => (0 <=? b) && (b <? 256)) bs
  && (le_combine (take 4 (drop 4 bs)) =? Z.of_nat (length bs)) = true -> table_at m hdr bs.
Proof.
  intros H. zify_bool. apply bool_decide_eq_true in H. apply peek_bytes_at in H as [_ H].
  split; [done|]. split; [by apply Nat.leb_le|]. split; [|by zify_bool].
  apply Forall_forall. intros b Hb. rewrite forallb_forall in *. match goal with X : forall x, In x bs -> _ |- _ =>
    specialize (X b (proj1 (list_elem_of_In _ _) Hb)) end. zify_bool. lia.
Qed.

Lemma demo_entries_ok : Forall (fun x => 0 <= x.1 < 256 ^ Z.of_nat 8 /\ table_at demo_tables (kva x.1) x.2) demo_entries.
Proof. repeat constructor; try (vm_compute; congruence); apply table_at_eval; vm_compute; reflexivity. Qed.

Lemma demo_root : root_at demo_tables 8 (kva 0x1000) (codes "XSDT") demo_xsdt demo_entries.
Proof.
  split; [apply table_at_eval; vm_compute; reflexivity|]. split; [vm_compute; reflexivity|].
  split; [apply Nat.leb_le; vm_compute; reflexivity|]. split; [vm_compute; reflexivity|]. exact demo_entries_ok.
Qed.

Lemma demo_rsdp_ok : rsdp_at demo_tables demo_rsdp 2 0x5000 0x1000.
Proof. repeat split; vm_compute; congruence. Qed.

Definition returned {S A} (o : outcome S A) : option A := match o with Ret a _ => Some a | _ => None end.

(** The table that is listed is found; one that is not listed is found too, through the
    word after the end of the root table. *)
Lemma acpi_find_table_correct_witness :
  acpi_find_table (Some demo_rsdp) (codes "APIC") demo_tables = Ret (Some (kva 0x3000)) demo_tables
  /\ returned (acpi_find_table (Some demo_rsdp) (codes "HPET") demo_tables) = Some (Some (kva 0x4000)).
Proof.
  split.
  - rewrite (acpi_find_table_correct demo_tables demo_rsdp 2 0x5000 0x1000 (codes "APIC") demo_xsdt demo_entries
      demo_rsdp_ok (le_n 4) demo_root).
    assert (first_genuine (codes "APIC") demo_entries = Some (kva 0x3000)) as -> by (vm_compute; reflexivity). reflexivity.
  - rewrite (acpi_find_table_correct demo_tables demo_rsdp 2 0x5000 0x1000 (codes "HPET") demo_xsdt demo_entries
      demo_rsdp_ok (le_n 4) demo_root). vm_compute. reflexivity.
Defined.

Definition blank (p n : Z) : mem := write_bytes ∅ p (replicate (Z.to_nat n) 32).

Lemma blank_mapped p n a : p <= a < p + n -> is_Some (blank p n !! a).
Proof.
  intros Ha. apply (bytes_at_lookup (blank p n) p (replicate (Z.to_nat n) 32)).
  - apply write_bytes_at.
  - rewrite length_replicate. lia.
Qed.

Lemma rsdp_find_correct_witness :
  exists r, rsdp_find (blank (KERNEL_VMA + 0xe0000) 0x20007) = Ret r (blank (KERNEL_VMA + 0xe0000) 0x20007).
Proof.
  destruct (rsdp_find_correct (blank (KERNEL_VMA + 0xe0000) 0x20007)) as (r & E & _).
  - intros a Ha. apply blank_mapped. lia.
  - exists r. exact E.
Defined.

Lemma reads_memcmp_lit p lit : reads (memcmp_lit p lit).
Proof. revert p. induction lit; intros p; cbn [memcmp_lit]; auto with kernel. Qed.
Lemma reads_memsum n p a : reads (memsum_loop n p a).
Proof. revert p a. induction n; intros p a; cbn [memsum_loop]; auto with kernel. Qed.
#[local] Hint Resolve reads_memcmp_lit reads_memsum : kernel.
Lemma reads_acpi_check hdr signature : reads (acpi_check hdr signature).
Proof. unfold acpi_check, memsum. eauto 10 with kernel. Qed.
#[local] Hint Resolve reads_acpi_check : kernel.
Lemma reads_sdt_loop w n p signature : reads (sdt_loop w n p signature).
Proof. revert p. induction n; intros p; cbn [sdt_loop]; cbv zeta; eauto 10 with kernel. Qed.
#[local] Hint Resolve reads_sdt_loop : kernel.
Lemma acpi_find_table_reads rsdp signature : reads (acpi_find_table rsdp signature).
Proof.
  unfold acpi_find_table, xsdt_find_table, rsdt_find_table. apply reads_bind; [auto with kernel|]. intros r.
  apply reads_bind; [auto with kernel|]. intros rev. apply reads_bind; [apply reads_if; eauto 10 with kernel|].
  intros []; eauto 12 with kernel.
Qed.

(** The search leaves the memory alone, so that its result can be evaluated by itself. *)
Lemma find_eval signature m rsdp r :
  match acpi_find_table (Some rsdp) signature m with Ret x _ => bool_decide (x = Some r) | _ => false end = true ->
  acpi_find_table (Some rsdp) signature m = Ret (Some r) m.
Proof.
  pose proof (acpi_find_table_reads (Some rsdp) signature m) as Hp. destruct (acpi_find_table (Some rsdp) signature m) as [x m'| | | |]; [|done..].
  intros ->%bool_decide_eq_true. by rewrite (Hp _ _ eq_refl).
Qed.
