(* ===== verification/Smp.v ===== *)
(** * Processors, interrupt controllers and the timer (kernel/acpi/madt.c, lapic.c, hpet.c)

    The processors the firmware lists, the registers of the local APIC and of the
    high-precision timer.  State: the machine, the kernel's memory (interface [DevMem]),
    and the variables of the three files. *)

From Stdlib Require Import ZArith Lia.
From stdpp Require Import strings base gmap fin_maps list.
From S2P Require Import Prelude Strings Printfmt MemState Devices Acpi DevMem.

#[local] Open Scope Z_scope.
#[local] Open Scope kernel_scope.

(** ** Constants of include/lapic.h, include/x86-64/idt.h, include/acpi.h, include/cpu.h *)

Definition LAPIC_ID : Z := 0x20.
Definition LAPIC_VERSION : Z := 0x30.
Definition LAPIC_TPR : Z := 0x80.
Definition LAPIC_EOI : Z := 0xb0.
Definition LAPIC_SIVR : Z := 0xf0.
Definition LAPIC_ESR : Z := 0x280.
Definition LAPIC_ICR_LO : Z := 0x300.
Definition LAPIC_ICR_HI : Z := 0x310.
Definition LAPIC_TIMER : Z := 0x320.
Definition LAPIC_PMCR : Z := 0x340.
Definition LAPIC_LINT0 : Z := 0x350.
Definition LAPIC_LINT1 : Z := 0x360.
Definition LAPIC_ERROR : Z := 0x370.
Definition LAPIC_TICR : Z := 0x380.
Definition LAPIC_TDCR : Z := 0x3e0.
Definition LAPIC_ENABLE : Z := 0x100.
Definition LAPIC_INIT : Z := 0x500.
Definition LAPIC_STARTUP : Z := 0x600.
Definition LAPIC_DELIVERY : Z := 0x1000.
Definition LAPIC_ASSERT : Z := 0x4000.
Definition LAPIC_LEVEL : Z := 0x8000.
Definition LAPIC_BROADCAST : Z := 0x80000.
Definition LAPIC_OTHERS : Z := 0xc0000.
Definition LAPIC_FIXED : Z := 0.
Definition LAPIC_X1 : Z := 0xb.
Definition LAPIC_PERIODIC : Z := 0x20000.
Definition LAPIC_MASKED : Z := 0x10000.
Definition CMOS_ADDR : Z := 0x70.
Definition CMOS_DATA : Z := 0x71.

Definition IRQ_TIMER : Z := 32.
Definition IRQ_SPURIOUS : Z := 39.
Definition IRQ_ERROR : Z := 51.

Definition MADT_LAPIC : Z := 0.
Definition MADT_IOAPIC : Z := 1.
Definition sizeof_madt : Z := 44.
Definition madt_lapic_base : Z := 36.
Definition madt_flags : Z := 40.
Definition hpet_addr : Z := 44.

Definition NCPUS : Z := 64.
Definition CPU_UNUSED : Z := 0.
Definition CPU_STARTED : Z := 1.

(** ** State *)

Record cpuinfo := mk_cpuinfo { cpu_id : Z; cpu_status : Z }.

(** The variables of madt.c: the array cpus, ncpus, and boot_cpu as an index of cpus. *)
Record processors := mk_procs { cpus : list cpuinfo; ncpus : Z; boot_cpu : Z }.

Record platform (M : Type) := mk_platform {
  machine : hw;
  kernel : M;
  procs : processors;
  lapic_addr : Z;
  lapic_base : Z;
  hpet_regs : Z;
  hpet_freq : Z
}.
Arguments mk_platform {M}.
Arguments machine {M}.
Arguments kernel {M}.
Arguments procs {M}.
Arguments lapic_addr {M}.
Arguments lapic_base {M}.
Arguments hpet_regs {M}.
Arguments hpet_freq {M}.

Section Platform.
Context {M : Type}.

Definition with_machine x (s : platform M) := mk_platform x (kernel s) (procs s) (lapic_addr s) (lapic_base s) (hpet_regs s) (hpet_freq s).
Definition with_kernel (x : M) (s : platform M) := mk_platform (machine s) x (procs s) (lapic_addr s) (lapic_base s) (hpet_regs s) (hpet_freq s).
Definition with_procs x (s : platform M) := mk_platform (machine s) (kernel s) x (lapic_addr s) (lapic_base s) (hpet_regs s) (hpet_freq s).
Definition with_lapic_addr x (s : platform M) := mk_platform (machine s) (kernel s) (procs s) x (lapic_base s) (hpet_regs s) (hpet_freq s).
Definition with_lapic_base x (s : platform M) := mk_platform (machine s) (kernel s) (procs s) (lapic_addr s) x (hpet_regs s) (hpet_freq s).
Definition with_hpet x y (s : platform M) := mk_platform (machine s) (kernel s) (procs s) (lapic_addr s) (lapic_base s) x y.

Definition on_machine {A} (k : K hw A) : K (platform M) A := fun s =>
  match k (machine s) with
  | Ret a h => Ret a (with_machine h s)
  | Panic => Panic | Fault => Fault | Hang => Hang
  | NoReturn h => NoReturn (with_machine h s)
  end.
Definition on_kernel {A} (k : K M A) : K (platform M) A := fun s =>
  match k (kernel s) with
  | Ret a m => Ret a (with_kernel m s)
  | Panic => Panic | Fault => Fault | Hang => Hang
  | NoReturn m => NoReturn (with_kernel m s)
  end.
Definition reading {A} (k : K mem A) : K (platform M) A := on_machine (on_ram k).

(** [&cpus[i]]: outside the array there is no object. *)
Definition set_cpu (i : Z) (f : cpuinfo -> cpuinfo) : K (platform M) unit := fun s =>
  match cpus (procs s) !! Z.to_nat i with
  | Some c => if 0 <=? i then Ret tt (with_procs (mk_procs (<[Z.to_nat i := f c]> (cpus (procs s))) (ncpus (procs s)) (boot_cpu (procs s))) s) else Fault
  | None => Fault
  end.
Definition set_ncpus (n : Z) : K (platform M) unit :=
  kmodify (fun s => with_procs (mk_procs (cpus (procs s)) n (boot_cpu (procs s))) s).
Definition set_boot_cpu (i : Z) : K (platform M) unit :=
  kmodify (fun s => with_procs (mk_procs (cpus (procs s)) (ncpus (procs s)) i) s).

Context {D : devices} {DM : DevMem M}.

(** A device register through the kernel's mapping. *)
Definition mmio_in (w va : Z) : K (platform M) Z :=
  s <-- kget;; pa <-- kderef (dm_phys (kernel s) va);; on_machine (reg_in w pa).
Definition mmio_out (w va v : Z) : K (platform M) unit :=
  s <-- kget;; pa <-- kderef (dm_phys (kernel s) va);; on_machine (reg_out w pa v).

(** ** lapic.c *)

Definition lapic_read (addr : Z) : K (platform M) Z := s <-- kget;; mmio_in 4 (u64 (lapic_base s + addr)).
Definition lapic_write (addr value : Z) : K (platform M) unit :=
  s <-- kget;; mmio_out 4 (u64 (lapic_base s + addr)) value;;; lapic_read LAPIC_ID;;; kret tt.

Definition lapic_cpunum : K (platform M) Z :=
  s <-- kget;;
  if lapic_base s =? 0 then kret 0 else id <-- lapic_read LAPIC_ID;; kret (Z.shiftr id 24).

Definition lapic_eoi : K (platform M) unit :=
  s <-- kget;; if lapic_base s =? 0 then kret tt else lapic_write LAPIC_EOI 0.

(** [while (lapic_read(LAPIC_ICR_LO) & LAPIC_DELIVERY) ;] *)
Fixpoint wait_delivery (fuel : nat) : K (platform M) unit :=
  match fuel with
  | O => khang
  | S fuel => v <-- lapic_read LAPIC_ICR_LO;; if flag v LAPIC_DELIVERY then wait_delivery fuel else kret tt
  end.

(** [patience]: how often the loop reads the register at most. *)
Context (patience : nat).

Definition lapic_init : K (platform M) unit :=
  s <-- kget;;
  if lapic_addr s =? 0 then kret tt else
  (if lapic_base s =? 0 then
     va <-- on_kernel (dm_mmio_map_region (lapic_addr s) PAGE_SIZE);; kmodify (with_lapic_base va)
   else kret tt);;;
  lapic_write LAPIC_SIVR (Z.lor LAPIC_ENABLE IRQ_SPURIOUS);;;
  lapic_write LAPIC_TDCR LAPIC_X1;;;
  lapic_write LAPIC_TIMER (Z.lor LAPIC_PERIODIC IRQ_TIMER);;;
  lapic_write LAPIC_TICR 10000000;;;
  this_cpu <-- lapic_cpunum;;
  s <-- kget;;
  (if negb (this_cpu =? boot_cpu (procs s)) then lapic_write LAPIC_LINT0 LAPIC_MASKED else kret tt);;;
  lapic_write LAPIC_LINT1 LAPIC_MASKED;;;
  version <-- lapic_read LAPIC_VERSION;;
  (if Z.land (Z.shiftr version 16) 0xff >=? 4 then lapic_write LAPIC_PMCR LAPIC_MASKED else kret tt);;;
  lapic_write LAPIC_ERROR IRQ_ERROR;;;
  lapic_write LAPIC_ESR 0;;;
  lapic_write LAPIC_ESR 0;;;
  lapic_write LAPIC_EOI 0;;;
  lapic_write LAPIC_ICR_HI 0;;;
  lapic_write LAPIC_ICR_LO (Z.lor (Z.lor LAPIC_BROADCAST LAPIC_INIT) LAPIC_LEVEL);;;
  wait_delivery patience;;;
  lapic_write LAPIC_TPR 0.

Definition lapic_ipi (vector : Z) : K (platform M) unit :=
  lapic_write LAPIC_ICR_LO (Z.lor (Z.lor LAPIC_OTHERS LAPIC_FIXED) vector);;; wait_delivery patience.

Fixpoint startup_ipis (n : nat) (apic_id addr : Z) : K (platform M) unit :=
  match n with
  | O => kret tt
  | S n =>
      lapic_write LAPIC_ICR_HI (Z.shiftl apic_id 24);;;
      lapic_write LAPIC_ICR_LO (Z.lor LAPIC_STARTUP (Z.shiftr addr 12));;;
      startup_ipis n apic_id addr
  end.

Definition lapic_startup (apic_id addr : Z) : K (platform M) unit :=
  on_machine (outb CMOS_ADDR 0xf);;;
  on_machine (outb (CMOS_DATA + 1) 0x8a);;;
  let wrv := kva (Z.lor (Z.shiftl 0x40 4) 0x67) in
  reading (store_le 2 wrv 0);;;
  reading (store_le 2 (wrv + 2) (u16 (Z.shiftr addr 4)));;;
  lapic_write LAPIC_ICR_HI (Z.shiftl apic_id 24);;;
  lapic_write LAPIC_ICR_LO (Z.lor (Z.lor LAPIC_INIT LAPIC_LEVEL) LAPIC_ASSERT);;;
  lapic_write LAPIC_ICR_LO (Z.lor LAPIC_INIT LAPIC_LEVEL);;;
  startup_ipis 2 apic_id addr.

(** ** madt.c *)

(** [lapic] points to the entry's [struct madt_lapic]: the processor's number and the
    number of its APIC, a byte each. *)
Definition madt_parse_lapic (lapic : Z) : K (platform M) unit :=
  apic_id <-- reading (load (lapic + 1));;
  if apic_id <? NCPUS then
    cpu_id <-- reading (load lapic);;
    set_cpu apic_id (fun c => mk_cpuinfo cpu_id (cpu_status c));;;
    s <-- kget;; set_ncpus (u64 (ncpus (procs s) + 1))
  else kret tt.

(** The loop over the entries.  An entry of a positive length takes the pointer to
    another byte of memory, so that one round per byte of memory and one more is enough;
    an entry of length 0 is read again for ever. *)
Fixpoint madt_loop (fuel : nat) (i len p : Z) : K (platform M) unit :=
  if i <? len then
    match fuel with
    | O => khang
    | S fuel =>
        type <-- reading (load p);;
        (if type =? MADT_LAPIC then madt_parse_lapic (p + 2)
         else if type =? MADT_IOAPIC then reading (load_le 4 (p + 4));;; kret tt
         else kret tt);;;
        elen <-- reading (load (p + 1));;
        madt_loop fuel (u64 (i + elen)) len (p + elen)
    end
  else kret tt.

Definition madt_init (rsdp : option Z) : K (platform M) Z :=
  madt <-- reading (acpi_find_table rsdp (codes "APIC"));;
  match madt with
  | None => kret (-1)
  | Some madt =>
      base <-- reading (load_le 4 (madt + madt_lapic_base));;
      kmodify (with_lapic_addr base);;;
      hlen <-- reading (load_le 4 (madt + hdr_len));;
      set_ncpus 0;;;
      (fun s => madt_loop (rounds (ram (machine s))) 0 (u64 (hlen - sizeof_madt)) (madt + sizeof_madt) s);;;
      n <-- lapic_cpunum;;
      set_boot_cpu n;;;
      set_cpu n (fun c => mk_cpuinfo (cpu_id c) CPU_STARTED);;;
      flags <-- reading (load_le 4 (madt + madt_flags));;
      (if negb (flags =? 0) then
         on_machine (outb 0x22 0x70);;;
         v <-- on_machine (inb 0x23);;
         on_machine (outb 0x23 (Z.lor v 1))
       else kret tt);;;
      kret 0
  end.

(** ** hpet.c *)

(** Offsets of [struct hpet_regs]. *)
Definition hpet_cfg : Z := 16.
Definition hpet_main_cnt : Z := 240.

Definition set_enable_cnf (regs b : Z) : K (platform M) unit :=
  v <-- mmio_in 8 (regs + hpet_cfg);; mmio_out 8 (regs + hpet_cfg) (Z.lor (Z.ldiff v 1) b).

Definition hpet_init (rsdp : option Z) : K (platform M) Z :=
  hpet <-- reading (acpi_find_table rsdp (codes "HPET"));;
  match hpet with
  | None => kret (-1)
  | Some hpet =>
      s <-- kget;;
      (if hpet_regs s =? 0 then
         pa <-- reading (load_le 8 (hpet + hpet_addr));;
         va <-- on_kernel (dm_mmio_map_region pa PAGE_SIZE);;
         kmodify (fun s => with_hpet va (hpet_freq s) s)
       else kret tt);;;
      s <-- kget;;
      let regs := hpet_regs s in
      if regs =? 0 then kret (-1) else
      set_enable_cnf regs 0;;;
      mmio_out 8 (regs + hpet_main_cnt) 0;;;
      set_enable_cnf regs 1;;;
      caps <-- mmio_in 8 regs;;
      let period := Z.shiftr caps 32 in
      if period =? 0 then kfault else
      kmodify (with_hpet regs (10 ^ 15 / period));;;
      kret 0
  end.

(** Division by 0 is a fault. *)
Definition hpet_get_time : K (platform M) (Z * Z) :=
  s <-- kget;;
  cnt <-- mmio_in 8 (hpet_regs s + hpet_main_cnt);;
  if hpet_freq s =? 0 then kfault else kret (cnt / hpet_freq s, cnt mod hpet_freq s).

End Platform.
