(* ===== verification/SmpThm.v ===== *)
(** * Theorems on the processors the firmware lists and the timer

    What madt_init makes of a table, entry by entry; the entry that stops it; the local
    APIC's registers; the time the high-precision timer gives. *)

From Stdlib Require Import ZArith Lia.
From stdpp Require Import strings base gmap fin_maps list.
From S2P Require Import Prelude Strings Printfmt MemState Devices Acpi DevMem Smp.

#[local] Open Scope Z_scope.
#[local] Open Scope kernel_scope.

(** ** Entries and their bytes *)

Inductive entry :=
  | Lapic (cpu apic flags : Z)
  | Ioapic (id base gsi : Z)
  | Other (type : Z) (payload : list Z).

Definition payload (e : entry) : list Z :=
  match e with
  | Lapic cpu apic flags => cpu :: apic :: le_split 4 flags
  | Ioapic id base gsi => id :: 0 :: le_split 4 base ++ le_split 4 gsi
  | Other _ bs => bs
  end.
Definition type_of (e : entry) : Z := match e with Lapic _ _ _ => 0 | Ioapic _ _ _ => 1 | Other t _ => t end.
Definition entry_len (e : entry) : Z := 2 + Z.of_nat (length (payload e)).
Definition encode (e : entry) : list Z := type_of e :: entry_len e :: payload e.
Definition wf_entry (e : entry) : Prop :=
  match e with
  | Lapic cpu apic _ => 0 <= cpu < 256 /\ 0 <= apic < 256
  | Ioapic _ _ _ => True
  | Other t bs => 2 <= t < 256 /\ Z.of_nat (length bs) <= 253
  end.

(** What an entry means to the kernel. *)
Definition register (ps : processors) (e : entry) : processors :=
  match e with
  | Lapic cpu apic _ =>
      if apic <? NCPUS then
        mk_procs (alter (fun c => mk_cpuinfo cpu (cpu_status c)) (Z.to_nat apic) (cpus ps)) (u64 (ncpus ps + 1)) (boot_cpu ps)
      else ps
  | _ => ps
  end.

Definition all_cpus (ps : processors) : Prop := length (cpus ps) = Z.to_nat NCPUS.

Lemma register_all ps e : all_cpus ps -> all_cpus (register ps e).
Proof. destruct e as [cpu apic flags| |]; [|done..]. unfold register. destruct (apic <? NCPUS); [|done]. unfold all_cpus. cbn [cpus]. by rewrite length_alter. Qed.

Lemma entry_len_range e : wf_entry e -> 2 <= entry_len e < 256.
Proof.
  destruct e; unfold entry_len; cbn [payload wf_entry length]; rewrite ?length_app, ?le_split_length; intros H; lia.
Qed.

Lemma encode_length e : Z.of_nat (length (encode e)) = entry_len e.
Proof. unfold encode, entry_len. cbn [length]. lia. Qed.

Lemma insert_as_alter {A} (f : A -> A) (l : list A) (i : nat) x : l !! i = Some x -> <[i := f x]> l = alter f i l.
Proof.
  revert i. induction l as [|y l IH]; intros [|i] Hx; [done|done|by injection Hx as ->|].
  change (y :: <[i := f x]> l = y :: alter f i l). f_equal. by apply IH.
Qed.

Section Theorems.
Context {M : Type} {D : devices} {DM : DevMem M}.

(** ** Running the steps *)

Lemma reading_run {A} (k : K mem A) (s : platform M) a : k (ram (machine s)) = Ret a (ram (machine s)) -> reading k s = Ret a s.
Proof. intros E. unfold reading, on_machine. rewrite (on_ram_run _ _ _ _ E). by destruct s as [[] ?]. Qed.

Lemma load_run p b m : m !! p = Some b -> load p m = Ret b m.
Proof. unfold load. by intros ->. Qed.

(** The byte at an offset of an object. *)
Lemma byte_at m p bs i b : bytes_at m p bs -> bs !! i = Some b -> m !! (p + Z.of_nat i) = Some b.
Proof.
  intros H Hb. rewrite <- (take_drop_middle bs i b Hb) in H. apply bytes_at_app in H as [_ H].
  rewrite length_take, Nat.min_l in H by (apply lookup_lt_Some in Hb; lia). by destruct H.
Qed.

Lemma set_cpu_run i f (s : platform M) : all_cpus (procs s) -> 0 <= i < NCPUS ->
  set_cpu i f s = Ret tt (with_procs (mk_procs (alter f (Z.to_nat i) (cpus (procs s))) (ncpus (procs s)) (boot_cpu (procs s))) s).
Proof.
  intros Hall Hi. unfold set_cpu. destruct (lookup_lt_is_Some_2 (cpus (procs s)) (Z.to_nat i)) as [c Hc].
  { unfold all_cpus, NCPUS in *. lia. }
  rewrite Hc. destruct (Z.leb_spec 0 i); [|lia]. do 3 f_equal. by apply insert_as_alter.
Qed.

Lemma madt_entry_ok e p (s : platform M) : all_cpus (procs s) -> wf_entry e -> bytes_at (ram (machine s)) p (encode e) ->
  (type <-- reading (load p);;
   (if type =? MADT_LAPIC then madt_parse_lapic (p + 2)
    else if type =? MADT_IOAPIC then reading (load_le 4 (p + 4));;; kret tt else kret tt);;;
   reading (load (p + 1))) s = Ret (entry_len e) (with_procs (register (procs s) e) s).
Proof.
  intros Hall Hw H. pose proof (fun i b => byte_at _ p (encode e) i b H) as Hb.
  pose proof (Hb 0%nat _ eq_refl) as H0. pose proof (Hb 1%nat _ eq_refl) as H1. rewrite Z.add_0_r in H0.
  rewrite (krun _ _ _ _ _ (reading_run _ s _ (load_run _ _ _ H0))).
  destruct e as [cpu apic flags|id base gsi|t bs]; cbn [type_of wf_entry] in *; cbn [Z.eqb MADT_LAPIC MADT_IOAPIC Pos.eqb].
  - pose proof (Hb 2%nat _ eq_refl) as H2. pose proof (Hb 3%nat _ eq_refl) as H3.
    unfold madt_parse_lapic. unfold kbind at 1.
    rewrite (krun _ _ _ _ _ (reading_run _ s _ (load_run (p + 2 + 1) apic _ ltac:(replace (p + 2 + 1) with (p + 3) by lia; exact H3)))).
    unfold register. destruct (Z.ltb_spec apic NCPUS).
    + rewrite (krun _ _ _ _ _ (reading_run _ s _ (load_run (p + 2) cpu _ H2))).
      rewrite (krun _ _ _ _ _ (set_cpu_run apic _ s Hall ltac:(lia))). cbn [kbind kget kmodify set_ncpus].
      unfold reading, on_machine, on_ram. cbn [machine with_procs]. rewrite (load_run (p + 1) _ _ H1). by destruct s as [[] ?].
    + cbn [kret]. rewrite (reading_run _ s _ (load_run (p + 1) _ _ H1)). by destruct s.
  - unfold kbind at 1. rewrite (krun _ _ _ _ _ (reading_run _ s _ (load_le_run 4 (p + 4) _ (le_split 4 base) (le_split_length 4 base)
      ltac:(change 4 with (Z.of_nat 4); change (le_split 4 base) with (take 4 (drop 4 (encode (Ioapic id base gsi)))); by apply bytes_at_slice)))).
    cbn [kret register]. rewrite (reading_run _ s _ (load_run (p + 1) _ _ H1)). by destruct s.
  - destruct (Z.eqb_spec t MADT_LAPIC) as [->|_]; [unfold MADT_LAPIC in Hw; lia|].
    destruct (Z.eqb_spec t MADT_IOAPIC) as [->|_]; [unfold MADT_IOAPIC in Hw; lia|].
    rewrite kret_run. cbn [register]. rewrite (reading_run _ s _ (load_run (p + 1) _ _ H1)). by destruct s.
Qed.

(** A body of three steps, and what follows it. *)
Lemma krun_body {S A B C E} (a : K S A) (b : A -> K S B) (c : K S C) (f : C -> K S E) s r s' :
  (x <-- a;; b x;;; c) s = Ret r s' -> (x <-- a;; b x;;; y <-- c;; f y) s = f r s'.
Proof.
  unfold kbind. destruct (a s) as [x s1| | | |]; try discriminate. destruct (b x s1) as [y s2| | | |]; try discriminate.
  destruct (c s2) as [z s3| | | |]; try discriminate. by intros [= -> ->].
Qed.

Definition entries_len (es : list entry) : Z := foldr (fun e n => entry_len e + n) 0 es.

Lemma entries_len_pos es : Forall wf_entry es -> 0 <= entries_len es.
Proof. induction 1 as [|e es He _ IH]; cbn [entries_len foldr]; [lia|]. pose proof (entry_len_range e He). unfold entries_len in IH. lia. Qed.

Lemma madt_loop_ok es fuel i len p (s : platform M) : all_cpus (procs s) -> Forall wf_entry es ->
  bytes_at (ram (machine s)) p (concat (encode <$> es)) -> 0 <= i -> len = i + entries_len es -> len < 2 ^ 64 -> (length es <= fuel)%nat ->
  madt_loop fuel i len p s = Ret tt (with_procs (foldl register (procs s) es) s).
Proof.
  revert fuel i p s. induction es as [|e es IH]; intros fuel i p s Hall Hw H Hi Hlen Hlim Hfuel.
  - cbn in Hlen. destruct fuel; cbn [madt_loop]; (destruct (Z.ltb_spec i len); [lia|]); by destruct s.
  - apply Forall_cons in Hw as [He Hw]. cbn [fmap list_fmap concat] in H. apply bytes_at_app in H as [Hb H].
    rewrite encode_length in H. destruct fuel as [|fuel]; [cbn in Hfuel; lia|]. cbn [madt_loop length] in *.
    cbn [entries_len foldr] in Hlen. fold (entries_len es) in Hlen.
    pose proof (entry_len_range e He). pose proof (entries_len_pos es Hw).
    destruct (Z.ltb_spec i len); [|lia].
    rewrite (krun_body _ _ _ _ _ _ _ (madt_entry_ok e p s Hall He Hb)), u64_id by lia.
    rewrite (IH fuel); cbn [procs machine with_procs foldl]; try done; try lia. by apply register_all.
Qed.

Lemma on_machine_outb port v (s : platform M) : exists h, on_machine (outb port v) s = Ret tt (with_machine h s)
  /\ trace h = PortOut 1 (u16 port) (u8 v) :: trace (machine s).
Proof. eexists. unfold on_machine, outb, occurs, kbind, kret. split; reflexivity. Qed.

Lemma on_machine_inb port (s : platform M) : exists h, on_machine (inb port) s
  = Ret (u8 (answer (trace (machine s)) (ram (machine s)) (PortIn 1 (u16 port)))) (with_machine h s)
  /\ trace h = PortIn 1 (u16 port) :: trace (machine s).
Proof. eexists. unfold on_machine, inb, occurs, kbind, kret. split; reflexivity. Qed.

(** Switching from the PIC to the local APIC: the register select, and a bit set in what it held. *)
Definition imcr_switched (tr tr' : list access) : Prop :=
  exists v, tr' = PortOut 1 0x23 (u8 (Z.lor (u8 v) 1)) :: PortIn 1 0x23 :: PortOut 1 0x22 0x70 :: tr.

(** The processors after madt_init: those of the entries, and the boot processor started. *)
Definition booted (ps : processors) (i : Z) : processors :=
  mk_procs (alter (fun c => mk_cpuinfo (cpu_id c) CPU_STARTED) (Z.to_nat i) (cpus ps)) (ncpus ps) i.

(** The table madt_init reads. *)
Definition madt_at (m : mem) (madt base flags : Z) (es : list entry) : Prop :=
  exists hdr, length hdr = 36%nat /\ 0 <= base < 2 ^ 32 /\ 0 <= flags < 2 ^ 32 /\ Forall wf_entry es
  /\ table_at m madt (hdr ++ le_split 4 base ++ le_split 4 flags ++ concat (encode <$> es)).

Lemma table_len_bound m hdr bs : table_at m hdr bs -> Z.of_nat (length bs) < 2 ^ 32.
Proof.
  intros (_ & Hl & Hb & <-). assert (length (take 4 (drop 4 bs)) = 4%nat) as H4 by (rewrite length_take, length_drop; lia).
  pose proof (le_combine_bound (take 4 (drop 4 bs)) (Forall_take _ _ _ (Forall_drop _ _ _ Hb))) as [_ H]. rewrite H4 in H. exact H.
Qed.

Lemma fold_register_all es ps : all_cpus ps -> all_cpus (foldl register ps es).
Proof. revert ps. induction es as [|e es IH]; intros ps H; [done|]. cbn [foldl]. by apply IH, register_all. Qed.

Lemma entries_bytes es : Z.of_nat (length (concat (encode <$> es))) = entries_len es.
Proof. induction es as [|e es IH]; [done|]. cbn [fmap list_fmap concat entries_len foldr]. rewrite length_app, Nat2Z.inj_add, IH, encode_length. done. Qed.

Lemma entries_count es : Forall wf_entry es -> (length es <= length (concat (encode <$> es)))%nat.
Proof. induction 1 as [|e es He _ IH]; [done|]. cbn [fmap list_fmap concat length encode app]. rewrite !length_app. cbn [length]. lia. Qed.

(** Fact (roundtrip): madt_init registers exactly the processors a table of entries lists:
    for the bytes of any sequence of entries with their true lengths, the array of
    processors and their number are what folding over the entries gives (a local APIC with
    an identifier below 64 is counted and gets its processor number, all others are
    ignored), the loop ends with the last byte of the table, the address of the local APIC
    is recorded, processor 0 is the boot processor and is marked as started, and the
    switch from the PIC happens if and only if the flags ask for it. *)
Theorem madt_init_correct (rsdp madt base flags : Z) (es : list entry) (s : platform M)
  (Hfind : acpi_find_table (Some rsdp) (codes "APIC") (ram (machine s)) = Ret (Some madt) (ram (machine s)))
  (Hmadt : madt_at (ram (machine s)) madt base flags es) (Hall : all_cpus (procs s)) (Hbase : lapic_base s = 0) :
  exists s', madt_init (Some rsdp) s = Ret 0 s' /\ lapic_addr s' = base
  /\ procs s' = booted (foldl register (mk_procs (cpus (procs s)) 0 (boot_cpu (procs s))) es) 0
  /\ if flags =? 0 then s' = with_procs (procs s') (with_lapic_addr base s)
     else imcr_switched (trace (machine s)) (trace (machine s')).
Proof.
  destruct Hmadt as (hdr & Hh & Hb & Hf & Hw & T). pose proof T as (H & _). unfold madt_init.
  rewrite (krun _ _ _ _ _ (reading_run _ s _ Hfind)).
  apply bytes_at_app in H as [_ H]. rewrite Hh in H. apply bytes_at_app in H as [Hb4 H]. rewrite le_split_length in H.
  apply bytes_at_app in H as [Hf4 He]. rewrite le_split_length in He.
  rewrite (krun _ _ _ _ _ (reading_run _ s _ (load_le_run 4 (madt + madt_lapic_base) _ _ (le_split_length 4 base) Hb4))), le_combine_split by exact Hb.
  erewrite krun by reflexivity. erewrite krun by (apply reading_run, (table_len _ _ _ T)). erewrite krun by reflexivity.
  replace (madt + Z.of_nat 36 + Z.of_nat 4 + Z.of_nat 4) with (madt + sizeof_madt) in He by (unfold sizeof_madt; lia).
  set (s1 := with_procs _ _). pose proof (table_len_bound _ _ _ T) as Hlim. pose proof (entries_len_pos es Hw) as Hpos.
  assert (Z.of_nat (length (hdr ++ le_split 4 base ++ le_split 4 flags ++ concat (encode <$> es))) = sizeof_madt + entries_len es) as Hlen.
  { rewrite !length_app, !le_split_length, Hh, !Nat2Z.inj_add, entries_bytes. unfold sizeof_madt. lia. }
  assert (sizeof_madt = 44) as H44 by reflexivity. rewrite Hlen in Hlim |- *. rewrite u64_id by lia.
  replace (sizeof_madt + entries_len es - sizeof_madt) with (entries_len es) by lia.
  erewrite krun.
  2: { apply (madt_loop_ok es); [done|done|exact He|done|done|lia|].
       pose proof (entries_count es Hw). pose proof (bytes_at_size _ _ _ He) as Hsz. unfold rounds.
       change (ram (machine s1)) with (ram (machine s)). lia. }
  unfold lapic_cpunum. erewrite krun by (unfold kget, kbind; cbn [lapic_base with_procs with_lapic_addr s1]; rewrite Hbase; reflexivity).
  erewrite krun by reflexivity.
  assert (all_cpus (procs (with_procs (foldl register (procs s1) es) s1))) as Hall2 by (cbn [procs with_procs]; by apply fold_register_all).
  erewrite krun by (apply set_cpu_run; [exact Hall2|done]).
  erewrite krun by (apply reading_run; exact (load_le_run 4 (madt + madt_flags) _ _ (le_split_length 4 flags)
    ltac:(replace (madt + madt_flags) with (madt + Z.of_nat 36 + Z.of_nat 4) by (unfold madt_flags; lia); exact Hf4))).
  rewrite le_combine_split by exact Hf. destruct (Z.eqb_spec flags 0) as [Hz|Hnz]; cbn [negb].
  - eexists. split; [reflexivity|]. split; [reflexivity|]. split; [reflexivity|]. reflexivity.
  - eexists. split; [reflexivity|]. split; [reflexivity|]. split; [reflexivity|]. eexists. reflexivity.
Qed.

(** An entry of length 0 is read again for ever, however many rounds are allowed. *)
Lemma madt_loop_stuck fuel i len p t (s : platform M) : 0 <= i < 2 ^ 64 -> i < len -> 2 <= t ->
  ram (machine s) !! p = Some t -> ram (machine s) !! (p + 1) = Some 0 -> madt_loop fuel i len p s = Hang.
Proof.
  intros Hi Hlen Ht H0 H1. induction fuel as [|fuel IH]; cbn [madt_loop]; (destruct (Z.ltb_spec i len); [|lia]); [done|].
  rewrite (krun _ _ _ _ _ (reading_run _ s _ (load_run p t _ H0))).
  destruct (Z.eqb_spec t MADT_LAPIC) as [->|_]; [unfold MADT_LAPIC in Ht; lia|].
  destruct (Z.eqb_spec t MADT_IOAPIC) as [->|_]; [unfold MADT_IOAPIC in Ht; lia|].
  rewrite kret_run, (krun _ _ _ _ _ (reading_run _ s _ (load_run (p + 1) 0 _ H1))), !Z.add_0_r, u64_id by done. exact IH.
Qed.

(** ** The timer *)

Lemma mmio_in_run w va pa (s : platform M) : dm_phys (kernel s) va = Some pa ->
  exists h, mmio_in w va s = Ret (answer (trace (machine s)) (ram (machine s)) (RegIn w pa) mod 2 ^ (8 * w)) (with_machine h s)
  /\ trace h = RegIn w pa :: trace (machine s).
Proof. intros E. eexists. unfold mmio_in, kget, kbind. rewrite E. split; reflexivity. Qed.

Lemma mmio_out_run w va pa v (s : platform M) : dm_phys (kernel s) va = Some pa ->
  exists h, mmio_out w va v s = Ret tt (with_machine h s) /\ trace h = RegOut w pa (v mod 2 ^ (8 * w)) :: trace (machine s).
Proof. intros E. eexists. unfold mmio_out, kget, kbind. rewrite E. split; reflexivity. Qed.

(** Fact (functional): hpet_get_time reads the counter once and divides it by the frequency; the
    second part is the rest of the division, a number of ticks of the counter below the
    frequency, and not a number of nanoseconds. *)
Theorem hpet_get_time_correct (pa : Z) (s : platform M) :
  dm_phys (kernel s) (hpet_regs s + hpet_main_cnt) = Some pa -> 0 < hpet_freq s ->
  let cnt := answer (trace (machine s)) (ram (machine s)) (RegIn 8 pa) mod 2 ^ 64 in
  exists sec ticks s', hpet_get_time s = Ret (sec, ticks) s' /\ sec * hpet_freq s + ticks = cnt /\ 0 <= ticks < hpet_freq s.
Proof.
  intros E Hf cnt. unfold hpet_get_time.
  destruct (mmio_in_run 8 _ pa s E) as (h & Er & _). unfold kget, kbind. rewrite Er.
  destruct (Z.eqb_spec (hpet_freq s) 0); [lia|]. eexists _, _, _. split; [reflexivity|].
  fold cnt. change (2 ^ (8 * 8)) with (2 ^ 64). fold cnt.
  split; [pose proof (Z.div_mod cnt (hpet_freq s) ltac:(lia)); lia|apply Z.mod_pos_bound; lia].
Qed.

End Theorems.

(** ** A machine without devices, with one table *)

#[local] Instance silent : devices := {| answer _ _ _ := 0; dma _ m := m |}.

Definition demo_madt : list entry := [Lapic 0 0 1; Lapic 1 2 1; Ioapic 2 0xfec00000 0; Other 2 [0; 0; 2; 0; 0; 0; 0; 0]; Lapic 7 200 1].
Definition demo_madt_table : list Z :=
  acpi_table (codes "APIC") (le_split 4 0xfee00000 ++ le_split 4 1 ++ concat (encode <$> demo_madt)).
Definition demo_firmware : mem :=
  foldl (fun m x => write_bytes m (KERNEL_VMA + x.1) x.2) ∅
    [(0xe0010, codes "RSD PTR " ++ replicate 8 0 ++ le_split 4 0x1000);
     (0x1000, acpi_table (codes "RSDT") (pointers 4 [0x2000])); (0x2000, demo_madt_table)].
Definition demo_platform : platform simple :=
  mk_platform (mk_hw demo_firmware []) simple0 (mk_procs (replicate 64 (mk_cpuinfo 0 0)) 9 0) 0 0 0 0.

(** Two of the three processors are counted: the identifier of the last is too large. *)
Lemma madt_init_correct_witness : exists s', madt_init (Some demo_rsdp) demo_platform = Ret 0 s' /\ lapic_addr s' = 0xfee00000
  /\ ncpus (procs s') = 2 /\ cpus (procs s') !! 2%nat = Some (mk_cpuinfo 1 0) /\ cpus (procs s') !! 0%nat = Some (mk_cpuinfo 0 1).
Proof.
  destruct (madt_init_correct demo_rsdp (kva 0x2000) 0xfee00000 1 demo_madt demo_platform) as (s' & E & Ha & Hp & _).
  - apply (find_eval (codes "APIC")). vm_compute. reflexivity.
  - exists (take 36 demo_madt_table). split; [vm_compute; reflexivity|]. do 2 (split; [lia|]).
    split; [repeat constructor; cbn; lia|]. apply table_at_eval. vm_compute. reflexivity.
  - vm_compute. reflexivity.
  - reflexivity.
  - exists s'. split; [exact E|]. split; [exact Ha|]. rewrite Hp. split; [|split]; vm_compute; reflexivity.
Defined.
