(* ===== verification/Pci.v ===== *)
(** * The PCI bus (kernel/dev/pci.c, kernel/acpi/mcfg.c)

    Access to the configuration space through ports or through mapped registers, and the
    enumeration of the functions on the buses.  State: the machine, the kernel's memory
    (interface [DevMem]), the [struct pci_dev] objects by the address kmalloc gave, and
    the state of the drivers ([X]), which this file leaves open. *)

From Stdlib Require Import ZArith Lia.
From stdpp Require Import strings base gmap fin_maps list.
From S2P Require Import Prelude Strings Printfmt MemState Devices Acpi DevMem.

#[local] Open Scope Z_scope.
#[local] Open Scope kernel_scope.

(** ** Constants of include/pci.h and offsets of struct pci_regs *)

Definition PCI_CONF_ADDR : Z := 0xcf8.
Definition PCI_CONF_DATA : Z := 0xcfc.
Definition PCI_ANY_ID : Z := 0xffff.
Definition reg_vendor_id : Z := 0.
Definition reg_device_id : Z := 2.
Definition reg_subclass : Z := 10.
Definition reg_class : Z := 11.
Definition reg_bar : Z := 16.
Definition sizeof_pci_dev : Z := 16.

(** ** State *)

Inductive pci_ops := io_ops | mmio_ops.

(** [struct pci_dev]: the union of the address of the mapped registers and the port
    address, and the operations. *)
Record pci_dev := mk_dev { dev_data : Z; dev_ops : pci_ops }.

Record pci_device_id := mk_id { vendor_id : Z; device_id : Z; class : Z; subclass : Z }.
Definition PCI_MATCH_CLASS (class subclass : Z) : pci_device_id := mk_id PCI_ANY_ID PCI_ANY_ID class subclass.
Definition id_end : pci_device_id := mk_id 0 0 0 0.

Record bus_state (M X : Type) := mk_bus {
  machine : hw;
  kernel : M;
  pci_devs : gmap (Z * Z) pci_dev;
  drivers : X
}.
Arguments mk_bus {M X}.
Arguments machine {M X}.
Arguments kernel {M X}.
Arguments pci_devs {M X}.
Arguments drivers {M X}.

(** [struct pci_driver]. *)
Record pci_driver (M X : Type) := mk_driver { compat : list pci_device_id; probe : Z * Z -> K (bus_state M X) Z }.
Arguments mk_driver {M X}.
Arguments compat {M X}.
Arguments probe {M X}.

(** Bit field [width] bits wide at [pos]. *)
Definition set_field (pos width x v : Z) : Z :=
  Z.lor (Z.ldiff v (Z.shiftl (2 ^ width - 1) pos)) (Z.shiftl (x mod 2 ^ width) pos).

Section Pci.
Context {M X : Type}.

Definition with_machine x (s : bus_state M X) := mk_bus x (kernel s) (pci_devs s) (drivers s).
Definition with_kernel (x : M) (s : bus_state M X) := mk_bus (machine s) x (pci_devs s) (drivers s).
Definition with_devs x (s : bus_state M X) := mk_bus (machine s) (kernel s) x (drivers s).
Definition with_drivers (x : X) (s : bus_state M X) := mk_bus (machine s) (kernel s) (pci_devs s) x.

Definition on_machine {A} (k : K hw A) : K (bus_state M X) A := fun s =>
  match k (machine s) with
  | Ret a h => Ret a (with_machine h s)
  | Panic => Panic | Fault => Fault | Hang => Hang
  | NoReturn h => NoReturn (with_machine h s)
  end.
Definition on_kernel {A} (k : K M A) : K (bus_state M X) A := fun s =>
  match k (kernel s) with
  | Ret a m => Ret a (with_kernel m s)
  | Panic => Panic | Fault => Fault | Hang => Hang
  | NoReturn m => NoReturn (with_kernel m s)
  end.
Definition reading {A} (k : K mem A) : K (bus_state M X) A := on_machine (on_ram k).

Context {D : devices} {DM : DevMem M}.

Definition mmio_in (w va : Z) : K (bus_state M X) Z :=
  s <-- kget;; pa <-- kderef (dm_phys (kernel s) va);; on_machine (reg_in w pa).
Definition mmio_out (w va v : Z) : K (bus_state M X) unit :=
  s <-- kget;; pa <-- kderef (dm_phys (kernel s) va);; on_machine (reg_out w pa v).

Definition get_dev (dev : Z * Z) : K (bus_state M X) pci_dev := fun s => kderef (pci_devs s !! dev) s.

(** ** Configuration space through the ports *)

Definition pci_io_read8 (dev : Z * Z) (offset : Z) : K (bus_state M X) Z :=
  d <-- get_dev dev;; on_machine (outl PCI_CONF_ADDR (dev_data d + offset));;; on_machine (inb PCI_CONF_DATA).
Definition pci_io_read16 (dev : Z * Z) (offset : Z) : K (bus_state M X) Z :=
  let offset := Z.ldiff offset 1 in
  d <-- get_dev dev;; on_machine (outl PCI_CONF_ADDR (dev_data d + offset));;; on_machine (inw PCI_CONF_DATA).
Definition pci_io_read32 (dev : Z * Z) (offset : Z) : K (bus_state M X) Z :=
  let offset := Z.ldiff offset 3 in
  d <-- get_dev dev;; on_machine (outl PCI_CONF_ADDR (dev_data d + offset));;; on_machine (inl PCI_CONF_DATA).
Definition pci_io_write8 (dev : Z * Z) (offset val : Z) : K (bus_state M X) unit :=
  d <-- get_dev dev;; on_machine (outl PCI_CONF_ADDR (dev_data d + offset));;; on_machine (outb PCI_CONF_DATA val).
Definition pci_io_write16 (dev : Z * Z) (offset val : Z) : K (bus_state M X) unit :=
  let offset := Z.ldiff offset 1 in
  d <-- get_dev dev;; on_machine (outl PCI_CONF_ADDR (dev_data d + offset));;; on_machine (outw PCI_CONF_DATA val).
Definition pci_io_write32 (dev : Z * Z) (offset val : Z) : K (bus_state M X) unit :=
  let offset := Z.ldiff offset 3 in
  d <-- get_dev dev;; on_machine (outl PCI_CONF_ADDR (dev_data d + offset));;; on_machine (outl PCI_CONF_DATA val).

(** ** Configuration space through mapped registers *)

Definition pci_mmio_read8 (dev : Z * Z) (offset : Z) : K (bus_state M X) Z :=
  d <-- get_dev dev;; mmio_in 1 (dev_data d + offset).
Definition pci_mmio_read16 (dev : Z * Z) (offset : Z) : K (bus_state M X) Z :=
  let offset := Z.ldiff offset 1 in d <-- get_dev dev;; mmio_in 2 (dev_data d + offset).
Definition pci_mmio_read32 (dev : Z * Z) (offset : Z) : K (bus_state M X) Z :=
  let offset := Z.ldiff offset 3 in d <-- get_dev dev;; mmio_in 4 (dev_data d + offset).
Definition pci_mmio_write8 (dev : Z * Z) (offset val : Z) : K (bus_state M X) unit :=
  d <-- get_dev dev;; mmio_out 1 (dev_data d + offset) val.
Definition pci_mmio_write16 (dev : Z * Z) (offset val : Z) : K (bus_state M X) unit :=
  let offset := Z.ldiff offset 1 in d <-- get_dev dev;; mmio_out 2 (dev_data d + offset) val.
Definition pci_mmio_write32 (dev : Z * Z) (offset val : Z) : K (bus_state M X) unit :=
  let offset := Z.ldiff offset 3 in d <-- get_dev dev;; mmio_out 4 (dev_data d + offset) val.

(** ** Dispatch *)

Definition pci_read8 (dev : Z * Z) (offset : Z) : K (bus_state M X) Z :=
  d <-- get_dev dev;; match dev_ops d with io_ops => pci_io_read8 dev offset | mmio_ops => pci_mmio_read8 dev offset end.
Definition pci_read16 (dev : Z * Z) (offset : Z) : K (bus_state M X) Z :=
  d <-- get_dev dev;; match dev_ops d with io_ops => pci_io_read16 dev offset | mmio_ops => pci_mmio_read16 dev offset end.
Definition pci_read32 (dev : Z * Z) (offset : Z) : K (bus_state M X) Z :=
  d <-- get_dev dev;; match dev_ops d with io_ops => pci_io_read32 dev offset | mmio_ops => pci_mmio_read32 dev offset end.
Definition pci_write8 (dev : Z * Z) (offset val : Z) : K (bus_state M X) unit :=
  d <-- get_dev dev;; match dev_ops d with io_ops => pci_io_write8 dev offset val | mmio_ops => pci_mmio_write8 dev offset val end.
Definition pci_write16 (dev : Z * Z) (offset val : Z) : K (bus_state M X) unit :=
  d <-- get_dev dev;; match dev_ops d with io_ops => pci_io_write16 dev offset val | mmio_ops => pci_mmio_write16 dev offset val end.
Definition pci_write32 (dev : Z * Z) (offset val : Z) : K (bus_state M X) unit :=
  d <-- get_dev dev;; match dev_ops d with io_ops => pci_io_write32 dev offset val | mmio_ops => pci_mmio_write32 dev offset val end.

(** What is stored through [base] and, when [size] is not NULL, through [size]. *)
Definition pci_read_bar (size : bool) (dev : Z * Z) (index : Z) : K (bus_state M X) (Z * option Z) :=
  let offset := reg_bar + index * 4 in
  bar <-- pci_read32 dev offset;;
  if size then
    pci_write32 dev offset 0xffffffff;;;
    v <-- pci_read32 dev offset;;
    pci_write32 dev offset bar;;;
    kret (bar, Some (u32 (Z.lor (2 ^ 32 - 1 - v) 0xf + 1)))
  else kret (bar, None).

(** ** Devices *)

Definition mmio_addr (base_addr bus slot func : Z) : Z :=
  set_field 20 8 bus (set_field 15 5 slot (set_field 12 3 func base_addr)).
Definition io_addr (junk bus slot func : Z) : Z :=
  set_field 31 1 1 (set_field 16 8 bus (set_field 11 5 slot (set_field 8 3 func junk))).

Definition put_dev (dev : Z * Z) (d : pci_dev) : K (bus_state M X) unit := kmodify (fun s => with_devs (<[dev := d]> (pci_devs s)) s).
Definition kfree_dev (dev : Z * Z) : K (bus_state M X) unit :=
  on_kernel (dm_kfree (Some dev));;; kmodify (fun s => with_devs (delete dev (pci_devs s)) s).

Definition alloc_mmio_dev (base_addr bus slot func : Z) : K (bus_state M X) (option (Z * Z)) :=
  dev <-- on_kernel (dm_kmalloc sizeof_pci_dev);;
  match dev with
  | None => kret None
  | Some dev =>
      data <-- on_kernel (dm_mmio_map_region (mmio_addr base_addr bus slot func) PAGE_SIZE);;
      if data =? 0 then kfree_dev dev;;; kret None else
      put_dev dev (mk_dev data mmio_ops);;; kret (Some dev)
  end.

(** [junk]: the word on the stack whose fields are set; offset and the reserved bits are not. *)
Definition alloc_io_dev (junk bus slot func : Z) : K (bus_state M X) (option (Z * Z)) :=
  dev <-- on_kernel (dm_kmalloc sizeof_pci_dev);;
  match dev with
  | None => kret None
  | Some dev => put_dev dev (mk_dev (io_addr junk bus slot func) io_ops);;; kret (Some dev)
  end.

(** ** Drivers *)

Fixpoint match_compat (ids : list pci_device_id) (device vendor cls subcls : Z) : bool :=
  match ids with
  | [] => false
  | i :: ids =>
      if vendor_id i =? 0 then false
      else if (device_id i =? device) && (vendor_id i =? vendor) then true
      else if negb (device_id i =? PCI_ANY_ID) || negb (vendor_id i =? PCI_ANY_ID) then match_compat ids device vendor cls subcls
      else if (class i =? cls) && (subclass i =? subcls) then true
      else match_compat ids device vendor cls subcls
  end.
Fixpoint pci_find_driver (ds : list (pci_driver M X)) (device vendor cls subcls : Z) : option (pci_driver M X) :=
  match ds with
  | [] => None
  | d :: ds => if match_compat (compat d) device vendor cls subcls then Some d else pci_find_driver ds device vendor cls subcls
  end.

(** ** Enumeration *)

Context (pci_drivers : list (pci_driver M X)) (junk : Z -> Z -> Z -> Z).

Definition pci_enum_device (base_addr bus slot func : Z) : K (bus_state M X) Z :=
  dev <-- (if negb (base_addr =? 0) then alloc_mmio_dev base_addr bus slot func
           else alloc_io_dev (junk bus slot func) bus slot func);;
  match dev with
  | None => kret (-1)
  | Some dev =>
      device <-- pci_read16 dev reg_device_id;;
      vendor <-- pci_read16 dev reg_vendor_id;;
      if (device =? PCI_ANY_ID) && (vendor =? PCI_ANY_ID) then kfree_dev dev;;; kret (-1) else
      cls <-- pci_read8 dev reg_class;;
      subcls <-- pci_read8 dev reg_subclass;;
      match pci_find_driver pci_drivers device vendor cls subcls with
      | None => kfree_dev dev;;; kret 0
      | Some driver =>
          r <-- probe driver dev;;
          if r <? 0 then kfree_dev dev;;; kret 0 else kret 0
      end
  end.

(** The loops over the functions of a slot, the slots of a bus, and the buses. *)
Fixpoint enum_funcs (n : nat) (base_addr bus slot func : Z) : K (bus_state M X) unit :=
  match n with
  | O => kret tt
  | S n =>
      r <-- pci_enum_device base_addr bus slot func;;
      if negb (r =? 0) then kret tt else enum_funcs n base_addr bus slot (func + 1)
  end.
Fixpoint enum_slots (n : nat) (base_addr bus slot : Z) : K (bus_state M X) unit :=
  match n with O => kret tt | S n => enum_funcs 8 base_addr bus slot 0;;; enum_slots n base_addr bus (slot + 1) end.
Fixpoint enum_buses (n : nat) (base_addr bus : Z) : K (bus_state M X) unit :=
  match n with O => kret tt | S n => enum_slots 32 base_addr bus 0;;; enum_buses n base_addr (bus + 1) end.

Definition pci_enum_devices (base_addr bus_start bus_end : Z) : K (bus_state M X) unit :=
  enum_buses (Z.to_nat (bus_end - bus_start)) base_addr bus_start.

(** ** mcfg.c *)

Definition mcfg_entries : Z := 44.
Definition sizeof_mcfg_entry : Z := 16.

Fixpoint mcfg_loop (n : nat) (entry : Z) : K (bus_state M X) unit :=
  match n with
  | O => kret tt
  | S n =>
      base_addr <-- reading (load_le 8 entry);;
      bus_start <-- reading (load (entry + 10));;
      bus_end <-- reading (load (entry + 11));;
      pci_enum_devices (u32 base_addr) bus_start bus_end;;;
      mcfg_loop n (entry + sizeof_mcfg_entry)
  end.
Definition mcfg_init (rsdp : option Z) : K (bus_state M X) Z :=
  mcfg <-- reading (acpi_find_table rsdp (codes "MCFG"));;
  match mcfg with
  | None => kret (-1)
  | Some mcfg =>
      hlen <-- reading (load_le 4 (mcfg + hdr_len));;
      let len := u64 (hlen - mcfg_entries) in
      mcfg_loop (Z.to_nat (len / sizeof_mcfg_entry)) (mcfg + mcfg_entries);;;
      kret 0
  end.

Definition pci_init (rsdp : option Z) : K (bus_state M X) Z :=
  r <-- mcfg_init rsdp;;
  if r =? 0 then kret 0 else pci_enum_devices 0 0 256;;; kret 0.

End Pci.
