(* ===== verification/PciThm.v ===== *)
(** * Theorems on the PCI bus

    The two ways to the configuration space agree on what they read; the size of a region
    is measured without losing its address; what the enumeration does with a function on
    every branch, and that it ends and frees what no driver takes. *)

From Stdlib Require Import ZArith Lia.
From stdpp Require Import strings base gmap fin_maps list.
From S2P Require Import Prelude Strings Printfmt MemState Devices Acpi DevMem Pci.

#[local] Open Scope Z_scope.
#[local] Open Scope kernel_scope.

(** ** Addresses in the configuration space *)

Lemma clear_bits a c n pos i : 0 <= pos -> 0 <= c < 2 ^ pos -> pos <= i < n -> Z.testbit (a * 2 ^ n + c) i = false.
Proof.
  intros Hp Hc Hi. assert (2 ^ pos <= 2 ^ n) by (apply Z.pow_le_mono_r; lia).
  rewrite <- lor_high, Z.lor_spec, Z.shiftl_spec_low by lia.
  rewrite <- (Z.mod_small c (2 ^ pos)) by done. by rewrite Z.mod_pow2_bits_high by lia.
Qed.

(** Setting a field that is clear. *)
Lemma set_field_clear pos width x v : 0 <= pos -> 0 <= width -> 0 <= x < 2 ^ width ->
  (forall i, pos <= i < pos + width -> Z.testbit v i = false) -> set_field pos width x v = v + x * 2 ^ pos.
Proof.
  intros Hp Hw Hx Hv. unfold set_field. rewrite (Z.mod_small x) by done.
  assert (forall i, width <= i -> Z.testbit x i = false) as Hxh.
  { intros i Hi. rewrite <- (Z.mod_small x (2 ^ width)) by done. by rewrite Z.mod_pow2_bits_high by lia. }
  replace (2 ^ width - 1) with (Z.ones width) by (rewrite Z.ones_equiv; lia).
  replace (Z.ldiff v (Z.shiftl (Z.ones width) pos)) with v.
  - rewrite <- Z.shiftl_mul_pow2 by done. symmetry. apply Z.add_nocarry_lor. apply Z.bits_inj'. intros i Hi.
    rewrite Z.land_spec, Z.bits_0. destruct (Z.lt_ge_cases i pos); [by rewrite Z.shiftl_spec_low, andb_false_r|].
    rewrite Z.shiftl_spec by done. destruct (Z.lt_ge_cases i (pos + width)); [by rewrite Hv by lia|].
    by rewrite (Hxh (i - pos)), andb_false_r by lia.
  - symmetry. apply Z.bits_inj'. intros i Hi. rewrite Z.ldiff_spec.
    destruct (Z.lt_ge_cases i pos); [by rewrite Z.shiftl_spec_low, andb_true_r|]. rewrite Z.shiftl_spec by done.
    destruct (Z.lt_ge_cases i (pos + width)); [by rewrite Hv by lia|].
    by rewrite Z.ones_spec_high, andb_true_r by lia.
Qed.

(** The fields above [pos + width] hold [a], the ones below [pos] hold [c]. *)
Lemma set_field_mid pos width x a c : 0 <= pos -> 0 <= width -> 0 <= x < 2 ^ width -> 0 <= c < 2 ^ pos ->
  set_field pos width x (a * 2 ^ (pos + width) + c) = a * 2 ^ (pos + width) + c + x * 2 ^ pos.
Proof. intros Hp Hw Hx Hc. apply set_field_clear; [done..|]. intros i Hi. apply (clear_bits _ _ _ pos); lia. Qed.

(** The stack word of alloc_io_dev is arbitrary in its lowest byte; above that all fields
    but the reserved bits are set. *)
Definition function (b sl f : Z) : Prop := 0 <= b < 256 /\ 0 <= sl < 32 /\ 0 <= f < 8.

Lemma io_addr_eq j b sl f : 0 <= j < 256 -> function b sl f -> io_addr j b sl f = 2 ^ 31 + b * 2 ^ 16 + sl * 2 ^ 11 + f * 2 ^ 8 + j.
Proof.
  intros Hj (Hb & Hs & Hf). unfold io_addr.
  pose proof (set_field_mid 8 3 f 0 j ltac:(lia) ltac:(lia) ltac:(lia) ltac:(lia)) as E1. rewrite Z.mul_0_l, Z.add_0_l in E1. rewrite E1.
  pose proof (set_field_mid 11 5 sl 0 (j + f * 2 ^ 8) ltac:(lia) ltac:(lia) ltac:(lia) ltac:(lia)) as E2. rewrite Z.mul_0_l, Z.add_0_l in E2. rewrite E2.
  pose proof (set_field_mid 16 8 b 0 (j + f * 2 ^ 8 + sl * 2 ^ 11) ltac:(lia) ltac:(lia) ltac:(lia) ltac:(lia)) as E3. rewrite Z.mul_0_l, Z.add_0_l in E3. rewrite E3.
  pose proof (set_field_mid 31 1 1 0 (j + f * 2 ^ 8 + sl * 2 ^ 11 + b * 2 ^ 16) ltac:(lia) ltac:(lia) ltac:(lia) ltac:(lia)) as E4. rewrite Z.mul_0_l, Z.add_0_l in E4. rewrite E4. lia.
Qed.

(** The configuration space of function [f] in the mapped window at [base]. *)
Lemma mmio_addr_eq a b sl f : function b sl f -> mmio_addr (a * 2 ^ 28) b sl f = a * 2 ^ 28 + b * 2 ^ 20 + sl * 2 ^ 15 + f * 2 ^ 12.
Proof.
  intros (Hb & Hs & Hf). unfold mmio_addr.
  pose proof (set_field_mid 12 3 f (a * 2 ^ 13) 0 ltac:(lia) ltac:(lia) ltac:(lia) ltac:(lia)) as E1.
  replace (a * 2 ^ 13 * 2 ^ (12 + 3) + 0) with (a * 2 ^ 28) in E1 by lia. rewrite E1.
  pose proof (set_field_mid 15 5 sl (a * 2 ^ 8) (f * 2 ^ 12) ltac:(lia) ltac:(lia) ltac:(lia) ltac:(lia)) as E2.
  replace (a * 2 ^ 8 * 2 ^ (15 + 5)) with (a * 2 ^ 28) in E2 by lia. rewrite E2.
  pose proof (set_field_mid 20 8 b a (f * 2 ^ 12 + sl * 2 ^ 15) ltac:(lia) ltac:(lia) ltac:(lia) ltac:(lia)) as E3.
  replace (a * 2 ^ (20 + 8)) with (a * 2 ^ 28) in E3 by lia.
  replace (a * 2 ^ 28 + f * 2 ^ 12 + sl * 2 ^ 15) with (a * 2 ^ 28 + (f * 2 ^ 12 + sl * 2 ^ 15)) by lia. rewrite E3. lia.
Qed.

(** ** The host bridge

    [conf b sl f o]: the byte at offset [o] of the configuration space of a function.  The
    data port gives the bytes from the address last written to the address port on (the
    whole low byte of it, as QEMU's bridge does); the window gives the same bytes at the
    address of the function. *)

Fixpoint latched (tr : list access) : Z :=
  match tr with
  | [] => 0
  | PortOut w p v :: tr => if (w =? 4) && (p =? PCI_CONF_ADDR) then v else latched tr
  | _ :: tr => latched tr
  end.

Definition conf_le (conf : Z -> Z -> Z -> Z -> Z) (b sl f o w : Z) : Z := le_combine ((fun i => conf b sl f (o + i)) <$> seqZ 0 w).
Definition function_at (window b sl f : Z) : Z := window + b * 2 ^ 20 + sl * 2 ^ 15 + f * 2 ^ 12.

Class pci_host {D : devices} (conf : Z -> Z -> Z -> Z -> Z) (window : Z) : Prop := {
  conf_byte b sl f o : 0 <= conf b sl f o < 256;
  data_window tr m w : let A := latched tr in
    answer tr m (PortIn w PCI_CONF_DATA) = conf_le conf (A / 2 ^ 16 mod 256) (A / 2 ^ 11 mod 32) (A / 2 ^ 8 mod 8) (A mod 256) w;
  mapped_window tr m w b sl f o : function b sl f -> 0 <= o < 4096 ->
    answer tr m (RegIn w (function_at window b sl f + o)) = conf_le conf b sl f o w
}.

Section Reads.
Context {M X : Type} {D : devices} {DM : DevMem M} (conf : Z -> Z -> Z -> Z -> Z) (window : Z) {H : pci_host conf window}.

Lemma conf_le_range b sl f o w : 0 <= w -> 0 <= conf_le conf b sl f o w < 2 ^ (8 * w).
Proof.
  intros Hw. unfold conf_le. pose proof (le_combine_bound ((fun i => conf b sl f (o + i)) <$> seqZ 0 w)) as Hb.
  rewrite length_fmap, length_seqZ, Z2Nat.id in Hb by done. change 256 with (2 ^ 8) in Hb. rewrite <- Z.pow_mul_r in Hb by lia.
  apply Hb. apply Forall_fmap, Forall_true. intros i. apply (conf_byte (window := window)).
Qed.

(** [dev] stands for a function; [j] is what the stack word of alloc_io_dev had in its
    lowest byte. *)
Definition designates (s : bus_state M X) (dev : Z * Z) (b sl f j : Z) : Prop :=
  exists d, pci_devs s !! dev = Some d
  /\ match dev_ops d with
     | io_ops => 0 <= j < 256 /\ dev_data d = io_addr j b sl f
     | mmio_ops => j = 0 /\ forall o, 0 <= o < 4096 -> dm_phys (kernel s) (dev_data d + o) = Some (function_at window b sl f + o)
     end.

Lemma latched_function j b sl f o : function b sl f -> 0 <= j -> 0 <= o -> j + o < 256 -> let A := u32 (io_addr j b sl f + o) in
  A / 2 ^ 16 mod 256 = b /\ A / 2 ^ 11 mod 32 = sl /\ A / 2 ^ 8 mod 8 = f /\ A mod 256 = j + o.
Proof.
  intros Hf Hj Ho Hjo A. pose proof Hf as (? & ? & ?). unfold A, u32. rewrite io_addr_eq by (done || lia).
  rewrite (Z.mod_small _ (2 ^ 32)) by lia.
  repeat split; symmetry.
  - rewrite <- (Z.div_unique _ (2 ^ 16) (2 ^ 15 + b) (sl * 2 ^ 11 + f * 2 ^ 8 + j + o)) by lia.
    apply (Z.mod_unique _ _ (2 ^ 7)); lia.
  - rewrite <- (Z.div_unique _ (2 ^ 11) (2 ^ 20 + b * 2 ^ 5 + sl) (f * 2 ^ 8 + j + o)) by lia.
    apply (Z.mod_unique _ _ (2 ^ 15 + b)); lia.
  - rewrite <- (Z.div_unique _ (2 ^ 8) (2 ^ 23 + b * 2 ^ 8 + sl * 2 ^ 3 + f) (j + o)) by lia.
    apply (Z.mod_unique _ _ (2 ^ 20 + b * 2 ^ 5 + sl)); lia.
  - apply (Z.mod_unique _ _ (2 ^ 23 + b * 2 ^ 8 + sl * 2 ^ 3 + f)); lia.
Qed.

(** Selecting an address and reading [w] bytes from the data port. *)
Lemma io_access A w (s : bus_state M X) :
  exists h, (on_machine (outl PCI_CONF_ADDR A);;; on_machine (occurs (PortIn w PCI_CONF_DATA))) s
  = Ret (conf_le conf (u32 A / 2 ^ 16 mod 256) (u32 A / 2 ^ 11 mod 32) (u32 A / 2 ^ 8 mod 8) (u32 A mod 256) w) (with_machine h s).
Proof.
  eexists. unfold on_machine, outl, occurs, kbind, kret. cbn [machine with_machine].
  rewrite (data_window (window := window)). reflexivity.
Qed.

Lemma on_machine_bind {A B} (k : K hw A) (f : A -> B) (s : bus_state M X) a h :
  on_machine k s = Ret a (with_machine h s) -> on_machine (v <-- k;; kret (f v)) s = Ret (f a) (with_machine h s).
Proof.
  unfold on_machine, kbind. destruct (k (machine s)) as [x h'| | | |]; [|done..]. intros E.
  injection E as -> Eh. cbn [kret]. unfold kret, with_machine. by rewrite Eh.
Qed.

(** One access of the [w]-byte operations, for any of the three widths. *)
Lemma read_access (w : Z) (f : Z -> Z) s dev b sl fn j o : 1 <= w -> (forall x, 0 <= x < 2 ^ (8 * w) -> f x = x) ->
  function b sl fn -> designates s dev b sl fn j -> 0 <= o -> o + j < 256 ->
  exists h, (d <-- get_dev dev;;
     match dev_ops d with
     | io_ops => d <-- get_dev dev;; on_machine (outl PCI_CONF_ADDR (dev_data d + o));;;
                 on_machine (v <-- occurs (PortIn w PCI_CONF_DATA);; kret (f v))
     | mmio_ops => d <-- get_dev dev;; mmio_in w (dev_data d + o)
     end) s = Ret (conf_le conf b sl fn (o + j) w) (with_machine h s).
Proof.
  intros Hw Hf Hfn (d & Hd & Hdes) Ho Hoj. pose proof (conf_le_range b sl fn (o + j) w ltac:(lia)) as Hr.
  assert (get_dev dev s = Ret d s) as Eg by (unfold get_dev; by rewrite Hd). rewrite (krun _ _ _ _ _ Eg).
  destruct (dev_ops d); rewrite (krun _ _ _ _ _ Eg).
  - destruct Hdes as [Hj Hdata]. destruct (latched_function j b sl fn o Hfn ltac:(lia) Ho ltac:(lia)) as (E1 & E2 & E3 & E4).
    rewrite <- Hdata in *. destruct (io_access (dev_data d + o) w s) as [h E]. rewrite E1, E2, E3, E4 in E.
    unfold kbind at 1 in E. unfold kbind at 1. destruct (on_machine (outl PCI_CONF_ADDR (dev_data d + o)) s) as [u s1| | | |] eqn:E0; try discriminate.
    assert (exists h0, s1 = with_machine h0 s) as [h0 ->].
    { revert E0. unfold on_machine, outl, occurs, kbind, kret. intros [= _ <-]. by eexists. }
    exists h. rewrite (Z.add_comm o j). rewrite <- (Hf (conf_le conf b sl fn (j + o) w)) by (rewrite (Z.add_comm j o); done).
    change (with_machine h s) with (with_machine h (with_machine h0 s)). apply on_machine_bind. exact E.
  - destruct Hdes as [-> Hphys]. rewrite Z.add_0_r in *. unfold mmio_in. rewrite (krun kget _ s s s eq_refl), (Hphys o ltac:(lia)).
    cbn [kderef]. rewrite kret_run. eexists. unfold on_machine, reg_in, occurs, kbind, kret.
    rewrite (mapped_window (conf := conf)), Z.mod_small by (done || lia). reflexivity.
Qed.

Lemma ldiff_down o k : 0 <= k -> Z.ldiff o (Z.ones k) = o - o mod 2 ^ k.
Proof.
  intros Hk. rewrite Z.ldiff_ones_r, Z.shiftr_div_pow2, Z.shiftl_mul_pow2 by done.
  pose proof (Z.div_mod o (2 ^ k) ltac:(lia)). lia.
Qed.

Lemma pci_reads (s : bus_state M X) (dev : Z * Z) (b sl f j o : Z)
  (Hf : function b sl f) (Hdes : designates s dev b sl f j) (Ho : 0 <= o) (Hoj : o + j < 256) :
  (exists h, pci_read8 dev o s = Ret (conf_le conf b sl f (o + j) 1) (with_machine h s))
  /\ (exists h, pci_read16 dev o s = Ret (conf_le conf b sl f (o - o mod 2 + j) 2) (with_machine h s))
  /\ (exists h, pci_read32 dev o s = Ret (conf_le conf b sl f (o - o mod 4 + j) 4) (with_machine h s)).
Proof.
  pose proof (Z.mod_pos_bound o 2 ltac:(lia)). pose proof (Z.mod_pos_bound o 4 ltac:(lia)).
  pose proof (Z.mod_le o 2 Ho ltac:(lia)). pose proof (Z.mod_le o 4 Ho ltac:(lia)).
  assert (forall k x, 0 <= x < 2 ^ k -> x mod 2 ^ k = x) as Hid by (intros; by apply Z.mod_small).
  split; [|split].
  - apply (read_access 1 u8); [lia|apply Hid|done|done|lia|lia].
  - unfold pci_read16, pci_io_read16, pci_mmio_read16. cbv zeta. change 1 with (Z.ones 1). rewrite ldiff_down by done.
    apply (read_access 2 u16); [lia|apply Hid|done|done|lia|lia].
  - unfold pci_read32, pci_io_read32, pci_mmio_read32. cbv zeta. change 3 with (Z.ones 2). rewrite ldiff_down by done.
    apply (read_access 4 u32); [lia|apply Hid|done|done|lia|lia].
Qed.

(** Fact (equivalence): the two implementations of the configuration space agree.  For a
    device of either kind, pci_read8, pci_read16 and pci_read32 give the bytes of its
    function's configuration space at the offset rounded down to a multiple of the width,
    and change nothing but the trace of the machine.  (For a device reached through the
    ports this is off by [j], what the uninitialised stack word of alloc_io_dev had in its
    lowest byte.) *)
Theorem pci_read_correct (s : bus_state M X) (dev : Z * Z) (b sl f j o : Z)
  (Hf : function b sl f) (Hdes : designates s dev b sl f j) (Ho : 0 <= o) (Hoj : o + j < 256) :
  (exists h, pci_read8 dev o s = Ret (conf_le conf b sl f (o + j) 1) (with_machine h s))
  /\ (exists h, pci_read16 dev o s = Ret (conf_le conf b sl f (o - o mod 2 + j) 2) (with_machine h s))
  /\ (exists h, pci_read32 dev o s = Ret (conf_le conf b sl f (o - o mod 4 + j) 4) (with_machine h s)).
Proof. exact (pci_reads s dev b sl f j o Hf Hdes Ho Hoj). Qed.
End Reads.

(** ** Measuring a region

    A base address register keeps the bits of its address above the size of its region
    and answers with its fixed low bits: a region of [2 ^ k] bytes of memory. *)

Section Bar.
Context {M X : Type} {D : devices} {DM : DevMem M} (A k fixed : Z).

Definition bar_kept (v : Z) : Z := Z.lor (Z.land v (2 ^ 32 - 2 ^ k)) fixed.

(** What the register at configuration address [A] holds after the accesses of a trace. *)
Fixpoint bar_value (init : Z) (tr : list access) : Z :=
  match tr with
  | [] => init
  | PortOut w p v :: tr => if (w =? 4) && (p =? PCI_CONF_DATA) && (latched tr =? A) then bar_kept v else bar_value init tr
  | _ :: tr => bar_value init tr
  end.

Class bar_register (init : Z) : Prop := {
  bar_wide : 4 <= k <= 31;
  bar_fixed : 0 <= fixed < 16;
  bar_answer tr m : latched tr = A -> answer tr m (PortIn 4 PCI_CONF_DATA) = bar_value init tr
}.

Lemma bar_kept_base base : 4 <= k <= 31 -> 0 <= fixed < 16 -> 0 <= base < 2 ^ 32 -> base mod 2 ^ k = 0 -> bar_kept (base + fixed) = base + fixed.
Proof.
  intros Hk Hfx Hb Hm. unfold bar_kept. pose proof (Z.div_mod base (2 ^ k) ltac:(lia)) as Hd. rewrite Hm, Z.add_0_r in Hd.
  assert (2 ^ 4 <= 2 ^ k) by (apply Z.pow_le_mono_r; lia). assert (2 ^ 32 = 2 ^ k * 2 ^ (32 - k)) as E32 by (rewrite <- Z.pow_add_r by lia; f_equal; lia).
  rewrite Hd, Z.mul_comm. pose proof (land_high_mask (base / 2 ^ k) fixed k (32 - k)) as Hl.
  replace (k + (32 - k)) with 32 in Hl by lia. rewrite Hl; [|lia|lia| |lia].
  - rewrite <- (Z.shiftl_mul_pow2 (base / 2 ^ k) k) by lia. rewrite lor_high by lia. rewrite Z.shiftl_mul_pow2 by lia. done.
  - split; [apply Z.div_pos; lia|]. apply Z.div_lt_upper_bound; lia.
Qed.

Lemma bar_kept_ones : 4 <= k <= 31 -> 0 <= fixed < 16 -> bar_kept 0xffffffff = 2 ^ 32 - 2 ^ k + fixed.
Proof.
  intros Hk Hfx. assert (2 ^ 4 <= 2 ^ k) by (apply Z.pow_le_mono_r; lia).
  assert (2 ^ 32 = 2 ^ k * 2 ^ (32 - k)) as E32 by (rewrite <- Z.pow_add_r by lia; f_equal; lia).
  assert (1 <= 2 ^ (32 - k)) by (apply (Z.pow_le_mono_r 2 0); lia). unfold bar_kept.
  pose proof (land_high_mask (2 ^ (32 - k) - 1) (2 ^ k - 1) k (32 - k)) as Hl. replace (k + (32 - k)) with 32 in Hl by lia.
  replace 0xffffffff with ((2 ^ (32 - k) - 1) * 2 ^ k + (2 ^ k - 1)) by lia. rewrite Hl by lia.
  rewrite <- (Z.shiftl_mul_pow2 (2 ^ (32 - k) - 1) k) by lia. rewrite lor_high by lia. lia.
Qed.

Lemma bar_size_of : 4 <= k <= 31 -> 0 <= fixed < 16 -> u32 (Z.lor (2 ^ 32 - 1 - bar_kept 0xffffffff) 0xf + 1) = 2 ^ k.
Proof.
  intros Hk Hfx. rewrite bar_kept_ones by done. assert (2 ^ 4 <= 2 ^ k) by (apply Z.pow_le_mono_r; lia).
  assert (2 ^ k <= 2 ^ 31) by (apply Z.pow_le_mono_r; lia).
  assert (2 ^ k = 2 ^ (k - 4) * 16) as E by (change 16 with (2 ^ 4); rewrite <- Z.pow_add_r by lia; f_equal; lia).
  rewrite lor_15 by lia. replace (2 ^ 32 - 1 - (2 ^ 32 - 2 ^ k + fixed)) with ((15 - fixed) + (2 ^ (k - 4) - 1) * 16) by lia.
  rewrite Z.mod_add, (Z.mod_small (15 - fixed)) by lia. unfold u32. rewrite Z.mod_small by lia. lia.
Qed.

(** Reading and writing the register through the ports. *)
Lemma bar_in (s : bus_state M X) init : bar_register init -> 0 <= bar_value init (trace (machine s)) < 2 ^ 32 -> u32 A = A ->
  exists h, (on_machine (outl PCI_CONF_ADDR A);;; on_machine (inl PCI_CONF_DATA)) s = Ret (bar_value init (trace (machine s))) (with_machine h s)
  /\ bar_value init (trace h) = bar_value init (trace (machine s)).
Proof.
  intros [_ _ Ha] Hr HA. eexists. unfold on_machine, outl, inl, occurs, kbind, kret. cbn [machine with_machine trace ram].
  rewrite HA. change (u16 PCI_CONF_ADDR) with PCI_CONF_ADDR. change (u16 PCI_CONF_DATA) with PCI_CONF_DATA.
  rewrite Ha by reflexivity. cbn [bar_value]. change (PCI_CONF_ADDR =? PCI_CONF_DATA) with false. rewrite andb_false_r. cbn [andb].
  unfold u32. rewrite Z.mod_small by done. split; reflexivity.
Qed.

Lemma bar_out (s : bus_state M X) init v : u32 A = A -> 0 <= v < 2 ^ 32 ->
  exists h, (on_machine (outl PCI_CONF_ADDR A);;; on_machine (outl PCI_CONF_DATA v)) s = Ret tt (with_machine h s)
  /\ bar_value init (trace h) = bar_kept v.
Proof.
  intros HA Hv. eexists. unfold on_machine, outl, inl, occurs, kbind, kret. cbn [machine with_machine trace ram].
  rewrite HA. change (u16 PCI_CONF_ADDR) with PCI_CONF_ADDR. change (u16 PCI_CONF_DATA) with PCI_CONF_DATA.
  split; [reflexivity|]. cbn [trace bar_value latched]. change (PCI_CONF_ADDR =? PCI_CONF_ADDR) with true.
  change (PCI_CONF_DATA =? PCI_CONF_DATA) with true. change (4 =? 4) with true. cbn [andb]. rewrite Z.eqb_refl.
  unfold u32. by rewrite Z.mod_small.
Qed.
End Bar.

Section BarThm.
Context {M X : Type} {D : devices} {DM : DevMem M}.

Lemma bar_offset index : 0 <= index -> Z.ldiff (reg_bar + index * 4) 3 = 16 + index * 4.
Proof.
  intros Hi. change 3 with (Z.ones 2). rewrite Z.ldiff_ones_r, Z.shiftr_div_pow2, Z.shiftl_mul_pow2 by done.
  unfold reg_bar. change (2 ^ 2) with 4. replace (16 + index * 4) with ((4 + index) * 4) by lia. by rewrite Z.div_mul.
Qed.

Lemma read32_io (s : bus_state M X) dev d index : pci_devs s !! dev = Some d -> dev_ops d = io_ops -> 0 <= index ->
  pci_read32 dev (reg_bar + index * 4) s
  = (on_machine (outl PCI_CONF_ADDR (dev_data d + (16 + index * 4)));;; on_machine (inl PCI_CONF_DATA)) s.
Proof.
  intros Hd Ho Hi. assert (get_dev dev s = Ret d s) as Eg by (unfold get_dev; by rewrite Hd).
  unfold pci_read32. rewrite (krun _ _ _ _ _ Eg), Ho. unfold pci_io_read32. cbv zeta. by rewrite bar_offset, (krun _ _ _ _ _ Eg).
Qed.

Lemma write32_io (s : bus_state M X) dev d index v : pci_devs s !! dev = Some d -> dev_ops d = io_ops -> 0 <= index ->
  pci_write32 dev (reg_bar + index * 4) v s
  = (on_machine (outl PCI_CONF_ADDR (dev_data d + (16 + index * 4)));;; on_machine (outl PCI_CONF_DATA v)) s.
Proof.
  intros Hd Ho Hi. assert (get_dev dev s = Ret d s) as Eg by (unfold get_dev; by rewrite Hd).
  unfold pci_write32. rewrite (krun _ _ _ _ _ Eg), Ho. unfold pci_io_write32. cbv zeta. by rewrite bar_offset, (krun _ _ _ _ _ Eg).
Qed.

(** Fact (functional): pci_read_bar measures a region without losing it.  For a device
    reached through the ports whose base address register [index] holds the address [base]
    of a region of [2 ^ k] bytes, it stores the register's value and exactly the size
    [2 ^ k], and leaves the register with the value it had; without a size to store it
    does not write to the device at all. *)
Theorem pci_read_bar_correct (s : bus_state M X) (dev : Z * Z) (d : pci_dev) (index k base fixed : Z)
  (Hd : pci_devs s !! dev = Some d) (Hops : dev_ops d = io_ops) (Hi : 0 <= index < 6) (Hdata : 0 <= dev_data d < 2 ^ 32 - 256)
  (Hbar : bar_register (dev_data d + (16 + index * 4)) k fixed (base + fixed))
  (Hbase : 0 <= base < 2 ^ 32) (Halign : base mod 2 ^ k = 0)
  (Hnow : bar_value (dev_data d + (16 + index * 4)) k fixed (base + fixed) (trace (machine s)) = base + fixed) :
  (exists h, pci_read_bar true dev index s = Ret (base + fixed, Some (2 ^ k)) (with_machine h s)
     /\ bar_value (dev_data d + (16 + index * 4)) k fixed (base + fixed) (trace h) = base + fixed)
  /\ exists h, pci_read_bar false dev index s = Ret (base + fixed, None) (with_machine h s)
     /\ trace h = PortIn 4 PCI_CONF_DATA :: PortOut 4 PCI_CONF_ADDR (dev_data d + (16 + index * 4)) :: trace (machine s).
Proof.
  pose proof Hbar as [Hk Hfx _]. set (A := dev_data d + (16 + index * 4)) in *.
  assert (u32 A = A) as HA by (unfold u32; apply Z.mod_small; unfold A; lia).
  assert (2 ^ 4 <= 2 ^ k) as H16 by (apply Z.pow_le_mono_r; lia).
  assert (base + fixed < 2 ^ 32) as Hlt.
  { assert (2 ^ 32 = 2 ^ k * 2 ^ (32 - k)) as E32 by (rewrite <- Z.pow_add_r by lia; f_equal; lia).
    apply Z.mod_divide in Halign as [q Hq]; [|lia]. subst base. rewrite E32 in Hbase |- *.
    assert (q < 2 ^ (32 - k)) by (apply (Z.mul_lt_mono_pos_r (2 ^ k)); lia).
    assert (q * 2 ^ k <= (2 ^ (32 - k) - 1) * 2 ^ k) by (apply Z.mul_le_mono_nonneg_r; lia). lia. }
  pose proof (bar_in A k fixed s _ Hbar ltac:(rewrite Hnow; lia) HA) as (h1 & E1 & B1). rewrite Hnow in *.
  unfold pci_read_bar. split; cbv zeta.
  - pose proof E1 as E0. unfold A in E0. rewrite <- (read32_io s dev d index Hd Hops) in E0 by lia. clear E1. rename E0 into E1. rewrite (krun _ _ _ _ _ E1).
    destruct (bar_out A k fixed (with_machine h1 s) (base + fixed) 0xffffffff HA ltac:(lia)) as (h2 & E2 & B2).
    unfold A in E2. rewrite <- (write32_io _ dev d index) in E2 by (done || lia). rewrite (krun _ _ _ _ _ E2).
    pose proof (bar_kept_ones k fixed Hk Hfx) as Ho. assert (2 ^ k <= 2 ^ 31) by (apply Z.pow_le_mono_r; lia).
    destruct (bar_in A k fixed (with_machine h2 (with_machine h1 s)) _ Hbar) as (h3 & E3 & B3); [cbn [machine with_machine]; rewrite B2; lia|exact HA|].
    unfold A in E3. rewrite <- (read32_io _ dev d index) in E3 by (done || lia). rewrite (krun _ _ _ _ _ E3).
    destruct (bar_out A k fixed (with_machine h3 (with_machine h2 (with_machine h1 s))) (base + fixed) (base + fixed) HA ltac:(lia)) as (h4 & E4 & B4).
    unfold A in E4. rewrite <- (write32_io _ dev d index) in E4 by (done || lia). rewrite (krun _ _ _ _ _ E4).
    exists h4. split.
    + cbn [machine with_machine]. fold A. rewrite B2, (bar_size_of k fixed Hk Hfx). reflexivity.
    + rewrite B4. by apply bar_kept_base.
  - rewrite (krun _ _ _ _ _ (eq_trans (read32_io s dev d index Hd Hops ltac:(lia)) E1)). exists h1. split; [done|].
    revert E1. unfold on_machine, outl, inl, occurs, kbind, kret. cbn [machine with_machine trace]. rewrite HA.
    intros [= _ <-]. reflexivity.
Qed.
End BarThm.

(** ** Enumeration *)

Section Enumeration.
Context {M X : Type} {D : devices} {DM : DevMem M} (conf : Z -> Z -> Z -> Z -> Z) (window : Z) {PH : pci_host conf window}.
Context (pci_drivers : list (pci_driver M X)).

(** The stack word of alloc_io_dev, taken to be 0. *)
Definition no_junk (b sl f : Z) : Z := 0.
Abbreviation enum := (pci_enum_device pci_drivers no_junk).

(** The objects of [A] are allocated, the devices among them. *)
Definition bus_ok (A : gset (Z * Z)) (s : bus_state M X) : Prop := dm_ok A (kernel s) /\ dom (pci_devs s) ⊆ A.
Definition same_bus (A : gset (Z * Z)) (s s' : bus_state M X) : Prop :=
  bus_ok A s' /\ pci_devs s' = pci_devs s /\ drivers s' = drivers s.

Lemma on_kernel_run {A} (k : K M A) (s : bus_state M X) a m : k (kernel s) = Ret a m -> on_kernel k s = Ret a (with_kernel m s).
Proof. unfold on_kernel. by intros ->. Qed.

Lemma kfree_dev_ok A s s1 o h : bus_ok A s -> o ∉ A -> bus_ok ({[o]} ∪ A) s1 -> drivers s1 = drivers s ->
  delete o (pci_devs s1) = pci_devs s ->
  exists s2, kfree_dev o (with_machine h s1) = Ret tt s2 /\ same_bus A s s2.
Proof.
  intros [_ Hd0] Ho [Hk Hdom] Hdr Hdel. destruct (dm_kfree_ok ({[o]} ∪ A) (kernel s1) o Hk ltac:(set_solver)) as (m' & E & Hk').
  unfold kfree_dev. rewrite (krun _ _ _ _ _ (on_kernel_run (dm_kfree (Some o)) (with_machine h s1) tt m' E)).
  eexists. split; [reflexivity|]. cbn. replace (({[o]} ∪ A) ∖ {[o]}) with A in Hk' by set_solver.
  unfold same_bus, bus_ok. cbn. rewrite Hdel. by repeat split.
Qed.

(** The identification of a function. *)
Definition device_of (b sl f : Z) : Z := conf_le conf b sl f 2 2.
Definition vendor_of (b sl f : Z) : Z := conf_le conf b sl f 0 2.
Definition class_of (b sl f : Z) : Z := conf_le conf b sl f 11 1.
Definition subclass_of (b sl f : Z) : Z := conf_le conf b sl f 10 1.
Definition absent (b sl f : Z) : bool := (device_of b sl f =? PCI_ANY_ID) && (vendor_of b sl f =? PCI_ANY_ID).
Definition driver_of (b sl f : Z) : option (pci_driver M X) :=
  pci_find_driver pci_drivers (device_of b sl f) (vendor_of b sl f) (class_of b sl f) (subclass_of b sl f).

(** What follows the allocation of the device [o]. *)
Definition enumerated (A : gset (Z * Z)) (b sl f : Z) (s : bus_state M X) : Prop :=
  exists o s1, (o ∉ A) /\ bus_ok ({[o]} ∪ A) s1 /\ pci_devs s1 = <[o := mk_dev (io_addr 0 b sl f) io_ops]> (pci_devs s)
  /\ drivers s1 = drivers s
  /\ if absent b sl f then exists s2, enum 0 b sl f s = Ret (-1) s2 /\ same_bus A s s2
     else match driver_of b sl f with
          | None => exists s2, enum 0 b sl f s = Ret 0 s2 /\ same_bus A s s2
          | Some d => enum 0 b sl f s = (r <-- probe d o;; if r <? 0 then kfree_dev o;;; kret 0 else kret 0) s1
          end.

Lemma enum_device_ok A b sl f s : bus_ok A s -> function b sl f ->
  (exists m, dm_kmalloc sizeof_pci_dev (kernel s) = Ret None m /\ enum 0 b sl f s = Ret (-1) (with_kernel m s) /\ bus_ok A (with_kernel m s))
  \/ enumerated A b sl f s.
Proof.
  intros [Hk Hdom] Hf. destruct (dm_kmalloc_ok A (kernel s) sizeof_pci_dev Hk ltac:(done)) as (r & m & E & Hr).
  destruct r as [o|].
  - right. destruct Hr as [Ho Hk']. exists o.
    set (s0 := with_devs (<[o := mk_dev (io_addr 0 b sl f) io_ops]> (pci_devs s)) (with_kernel m s)).
    assert (bus_ok A s) as Hok by done.
    assert (forall h, designates window (with_machine h s0) o b sl f 0) as Hdes.
    { intros h. exists (mk_dev (io_addr 0 b sl f) io_ops). split; [apply lookup_insert_eq|]. cbn. split; [lia|done]. }
    assert (bus_ok ({[o]} ∪ A) s0) as Hok0 by (split; [exact Hk'|]; cbn; rewrite dom_insert_L; set_solver).
    assert (o ∉ dom (pci_devs s)) as Hnew by set_solver.
    destruct (pci_reads conf window s0 o b sl f 0 reg_device_id Hf (Hdes (machine s0)) ltac:(done) ltac:(done)) as (_ & [h1 E1] & _).
    destruct (pci_reads conf window (with_machine h1 s0) o b sl f 0 reg_vendor_id Hf (Hdes h1) ltac:(done) ltac:(done)) as (_ & [h2 E2] & _).
    destruct (pci_reads conf window (with_machine h2 s0) o b sl f 0 reg_class Hf (Hdes h2) ltac:(done) ltac:(done)) as ([h3 E3] & _).
    destruct (pci_reads conf window (with_machine h3 s0) o b sl f 0 reg_subclass Hf (Hdes h3) ltac:(done) ltac:(done)) as ([h4 E4] & _).
    assert (enum 0 b sl f s = (if absent b sl f then (kfree_dev o;;; kret (-1)) (with_machine h2 s0) else
      match driver_of b sl f with
      | None => (kfree_dev o;;; kret 0) (with_machine h4 s0)
      | Some d => (r <-- probe d o;; if r <? 0 then kfree_dev o;;; kret 0 else kret 0) (with_machine h4 s0)
      end)) as Erun.
    { unfold pci_enum_device. cbn [Z.eqb negb]. unfold alloc_io_dev.
      erewrite krun; [|rewrite (krun _ _ _ _ _ (on_kernel_run _ s _ _ E)); reflexivity]. fold s0.
      cbv beta iota. rewrite (krun _ _ _ _ _ E1), (krun _ _ _ _ _ E2).
      change (conf_le conf b sl f (reg_device_id - reg_device_id mod 2 + 0) 2) with (device_of b sl f).
      change (conf_le conf b sl f (reg_vendor_id - reg_vendor_id mod 2 + 0) 2) with (vendor_of b sl f).
      change (with_machine h2 (with_machine h1 s0)) with (with_machine h2 s0).
      fold (absent b sl f). destruct (absent b sl f); [done|]. rewrite (krun _ _ _ _ _ E3).
      change (with_machine h3 (with_machine h2 s0)) with (with_machine h3 s0). rewrite (krun _ _ _ _ _ E4).
      change (with_machine h4 (with_machine h3 s0)) with (with_machine h4 s0).
      change (pci_find_driver pci_drivers (device_of b sl f) (vendor_of b sl f) _ _) with (driver_of b sl f).
      by destruct (driver_of b sl f). }
    assert (forall s1 : bus_state M X, pci_devs s1 = pci_devs s0 -> delete o (pci_devs s1) = pci_devs s) as Hdel.
    { intros s1 ->. cbn. apply delete_insert_id. by apply not_elem_of_dom. }
    exists (with_machine h4 s0). split; [done|]. split; [exact Hok0|]. split; [done|]. split; [done|].
    destruct (kfree_dev_ok A s s0 o h2 Hok Ho Hok0 eq_refl (Hdel _ eq_refl)) as (sa & Ea & Sa).
    destruct (kfree_dev_ok A s s0 o h4 Hok Ho Hok0 eq_refl (Hdel _ eq_refl)) as (sb & Eb & Sb).
    rewrite Erun. destruct (absent b sl f); [exists sa; by rewrite (krun _ _ _ _ _ Ea)|].
    destruct (driver_of b sl f); [done|]. exists sb. by rewrite (krun _ _ _ _ _ Eb).
  - left. exists m. split; [exact E|]. unfold pci_enum_device. cbn [Z.eqb negb]. unfold alloc_io_dev. erewrite krun; [|rewrite (krun _ _ _ _ _ (on_kernel_run _ s _ _ E)); reflexivity].
    split; [reflexivity|]. split; [exact Hr|exact Hdom].
Qed.

(** Fact (functional): what the enumeration does with one function, on every branch (through
    the ports).  Without memory it gives up.  Otherwise a device object, not in use before,
    stands for the function while it is identified by the bytes of its configuration
    space; if they say that there is no function, or if no driver matches them, the object
    is freed again and nothing but the trace of the machine has changed; else the first
    matching driver is called with the object, which is freed if the driver declines. *)
Theorem pci_enum_device_correct (A : gset (Z * Z)) (b sl f : Z) (s : bus_state M X) (Hok : bus_ok A s) (Hf : function b sl f) :
  (exists m, dm_kmalloc sizeof_pci_dev (kernel s) = Ret None m /\ enum 0 b sl f s = Ret (-1) (with_kernel m s) /\ bus_ok A (with_kernel m s))
  \/ enumerated A b sl f s.
Proof. exact (enum_device_ok A b sl f s Hok Hf). Qed.

(** ** The whole bus

    A driver keeps its promise when its probe returns, keeps all objects and the
    devices, and allocates nothing when it declines. *)

Definition keeps_promise (accepting : bool) (d : pci_driver M X) : Prop :=
  forall A s o, bus_ok A s -> o ∈ dom (pci_devs s) ->
  exists r s' A', probe d o s = Ret r s' /\ bus_ok A' s' /\ A ⊆ A' /\ pci_devs s' = pci_devs s
  /\ (r < 0 -> A' = A) /\ (accepting = false -> r < 0).

Context (accepting : bool) (Hpromise : Forall (keeps_promise accepting) pci_drivers).

(** Every object stays; without accepting drivers, exactly the objects there were. *)
Definition grown (A : gset (Z * Z)) (s : bus_state M X) (A' : gset (Z * Z)) (s' : bus_state M X) : Prop :=
  bus_ok A' s' /\ A ⊆ A' /\ pci_devs s ⊆ pci_devs s' /\ (accepting = false -> A' = A /\ pci_devs s' = pci_devs s).

Lemma grown_same A s s' : bus_ok A s' -> pci_devs s' = pci_devs s -> grown A s A s'.
Proof. intros Hok E. split; [done|]. split; [done|]. split; [by rewrite E|done]. Qed.
Lemma grown_refl A s : bus_ok A s -> grown A s A s.
Proof. intros Hok. by apply grown_same. Qed.
Lemma grown_trans A s A1 s1 A2 s2 : grown A s A1 s1 -> grown A1 s1 A2 s2 -> grown A s A2 s2.
Proof.
  intros (_ & H1 & D1 & N1) (H & H2 & D2 & N2). split; [done|]. split; [set_solver|]. split; [by etrans|].
  intros Hacc. destruct (N1 Hacc) as [-> E1], (N2 Hacc) as [-> E2]. split; congruence.
Qed.

Lemma find_driver_in (ds : list (pci_driver M X)) dv ven cl sc d : pci_find_driver ds dv ven cl sc = Some d -> d ∈ ds.
Proof.
  induction ds as [|x ds IH]; cbn; [done|]. case_match; [intros [= ->]; apply list_elem_of_here|].
  intros H0. apply list_elem_of_further. by apply IH.
Qed.

Lemma enum_returns A b sl f s : bus_ok A s -> function b sl f -> exists r A' s', enum 0 b sl f s = Ret r s' /\ grown A s A' s'.
Proof.
  intros Hok Hf. destruct (enum_device_ok A b sl f s Hok Hf) as [(m & _ & E & Hok')|(o & s1 & Ho & Hok1 & Hdev & Hdr & Hcase)].
  { exists (-1), A, (with_kernel m s). split; [exact E|]. by apply grown_same. }
  assert (forall r s2, enum 0 b sl f s = Ret r s2 -> same_bus A s s2 -> exists r A' s', enum 0 b sl f s = Ret r s' /\ grown A s A' s') as Hsame.
  { intros r s2 E (Hok2 & Hd2 & _). exists r, A, s2. split; [exact E|]. by apply grown_same. }
  destruct (absent b sl f); [destruct Hcase as (s2 & E & Hs); by eapply Hsame|].
  destruct (driver_of b sl f) as [d|] eqn:Ed; [|destruct Hcase as (s2 & E & Hs); by eapply Hsame].
  pose proof (proj1 (Forall_forall _ _) Hpromise d (find_driver_in _ _ _ _ _ _ Ed)) as Hd.
  destruct (Hd ({[o]} ∪ A) s1 o Hok1) as (r & s2 & A2 & Ep & Hok2 & Hsub & Hd2 & Hneg & Hacc); [rewrite Hdev, dom_insert_L; set_solver|].
  rewrite (krun _ _ _ _ _ Ep) in Hcase. assert (pci_devs s !! o = None) as Hnone.
  { apply not_elem_of_dom. destruct Hok as [_ Hdom]. set_solver. }
  destruct (Z.ltb_spec r 0) as [Hr|Hr].
  - specialize (Hneg Hr). subst A2. destruct Hok2 as [Hk2 _].
    destruct (dm_kfree_ok ({[o]} ∪ A) (kernel s2) o Hk2 ltac:(set_solver)) as (m' & E & Hk').
    unfold kfree_dev in Hcase. erewrite krun in Hcase by (rewrite (krun _ _ _ _ _ (on_kernel_run (dm_kfree (Some o)) s2 tt m' E)); reflexivity).
    eexists 0, A, _. split; [exact Hcase|]. replace (({[o]} ∪ A) ∖ {[o]}) with A in Hk' by set_solver.
    assert (delete o (pci_devs s2) = pci_devs s) as Hdel by (rewrite Hd2, Hdev; by apply delete_insert_id).
    apply grown_same; [|exact Hdel]. split; [exact Hk'|]. cbn. rewrite Hdel. apply Hok.
  - eexists 0, A2, s2. split; [exact Hcase|]. split; [done|]. split; [set_solver|]. rewrite Hd2, Hdev.
    split; [by apply insert_subseteq|]. intros Ha. specialize (Hacc Ha). lia.
Qed.

Lemma enum_funcs_returns n A b sl f s : bus_ok A s -> 0 <= b < 256 -> 0 <= sl < 32 -> 0 <= f -> f + Z.of_nat n <= 8 ->
  exists A' s', enum_funcs pci_drivers no_junk n 0 b sl f s = Ret tt s' /\ grown A s A' s'.
Proof.
  revert A f s. induction n as [|n IH]; intros A f s Hok Hb Hs Hf Hn; cbn [enum_funcs].
  { exists A, s. split; [done|by apply grown_refl]. }
  destruct (enum_returns A b sl f s Hok) as (r & A1 & s1 & E & G); [unfold function; lia|]. rewrite (krun _ _ _ _ _ E).
  destruct (negb (r =? 0)); [by exists A1, s1|].
  destruct (IH A1 (f + 1) s1 (proj1 G)) as (A2 & s2 & E2 & G2); [done|done|lia|lia|]. exists A2, s2. split; [exact E2|]. by eapply grown_trans.
Qed.

Lemma enum_slots_returns n A b sl s : bus_ok A s -> 0 <= b < 256 -> 0 <= sl -> sl + Z.of_nat n <= 32 ->
  exists A' s', enum_slots pci_drivers no_junk n 0 b sl s = Ret tt s' /\ grown A s A' s'.
Proof.
  revert A sl s. induction n as [|n IH]; intros A sl s Hok Hb Hs Hn; cbn [enum_slots].
  { exists A, s. split; [done|by apply grown_refl]. }
  destruct (enum_funcs_returns 8 A b sl 0 s Hok) as (A1 & s1 & E & G); [lia..|]. rewrite (krun _ _ _ _ _ E).
  destruct (IH A1 (sl + 1) s1 (proj1 G)) as (A2 & s2 & E2 & G2); [done|lia|lia|]. exists A2, s2. split; [exact E2|]. by eapply grown_trans.
Qed.

Lemma enum_buses_returns n A b s : bus_ok A s -> 0 <= b -> b + Z.of_nat n <= 256 ->
  exists A' s', enum_buses pci_drivers no_junk n 0 b s = Ret tt s' /\ grown A s A' s'.
Proof.
  revert A b s. induction n as [|n IH]; intros A b s Hok Hb Hn; cbn [enum_buses].
  { exists A, s. split; [done|by apply grown_refl]. }
  destruct (enum_slots_returns 32 A b 0 s Hok) as (A1 & s1 & E & G); [lia..|]. rewrite (krun _ _ _ _ _ E).
  destruct (IH A1 (b + 1) s1 (proj1 G)) as (A2 & s2 & E2 & G2); [lia|lia|]. exists A2, s2. split; [exact E2|]. by eapply grown_trans.
Qed.

(** Fact (termination): the enumeration of any range of buses returns, whatever the machine
    answers and however much memory there is, provided the drivers keep their promise:
    every object allocated before stays, and if no driver accepts a device, no object is
    left behind. *)
Theorem pci_enum_devices_returns (A : gset (Z * Z)) (bus_start bus_end : Z) (s : bus_state M X) :
  bus_ok A s -> 0 <= bus_start -> bus_end <= 256 ->
  exists A' s', pci_enum_devices pci_drivers no_junk 0 bus_start bus_end s = Ret tt s' /\ grown A s A' s'.
Proof.
  intros Hok H0 H1. unfold pci_enum_devices. destruct (Z.le_gt_cases bus_end bus_start).
  - replace (Z.to_nat (bus_end - bus_start)) with 0%nat by lia. exists A, s. split; [done|by apply grown_refl].
  - apply enum_buses_returns; [done|lia|lia].
Qed.
End Enumeration.

(** ** A machine with one function on its bus *)

Module Demo.
Definition conf (b sl f o : Z) : Z :=
  if (b =? 0) && (sl =? 1) && (f =? 0) then nth (Z.to_nat o) [0x86; 0x80; 0x10; 0x70; 0; 0; 0; 0; 0; 0x80; 1; 1] 0 else 255.
Definition window : Z := 11 * 2 ^ 28.

#[local] Instance host : devices := {|
  answer tr m a :=
    match a with
    | PortIn w _ => let A := latched tr in conf_le conf (A / 2 ^ 16 mod 256) (A / 2 ^ 11 mod 32) (A / 2 ^ 8 mod 8) (A mod 256) w
    | RegIn w x => conf_le conf (x / 2 ^ 20 mod 256) (x / 2 ^ 15 mod 32) (x / 2 ^ 12 mod 8) (x mod 4096) w
    | _ => 0
    end;
  dma tr m := m
|}.

#[local] Instance host_ok : pci_host conf window.
Proof.
  split.
  - intros b sl f o. unfold conf. destruct (_ && _ && _); [|lia].
    match goal with |- 0 <= nth ?n ?l 0 < _ => destruct (nth_in_or_default n l 0) as [Hin| ->]; [|lia];
      assert (Forall (fun b => 0 <= b < 256) l) as Hl by (repeat constructor; lia) end.
    exact (proj1 (Forall_forall _ _) Hl _ (proj2 (list_elem_of_In _ _) Hin)).
  - done.
  - intros tr m w b sl f o (Hb & Hs & Hf) Ho. cbn [answer host]. unfold function_at, window.
    f_equal; symmetry.
    + rewrite <- (Z.div_unique _ (2 ^ 20) (11 * 2 ^ 8 + b) (sl * 2 ^ 15 + f * 2 ^ 12 + o)) by lia. apply (Z.mod_unique _ _ 11); lia.
    + rewrite <- (Z.div_unique _ (2 ^ 15) (11 * 2 ^ 13 + b * 2 ^ 5 + sl) (f * 2 ^ 12 + o)) by lia. apply (Z.mod_unique _ _ (11 * 2 ^ 8 + b)); lia.
    + rewrite <- (Z.div_unique _ (2 ^ 12) (11 * 2 ^ 16 + b * 2 ^ 8 + sl * 2 ^ 3 + f) o) by lia. apply (Z.mod_unique _ _ (11 * 2 ^ 13 + b * 2 ^ 5 + sl)); lia.
    + apply (Z.mod_unique _ _ (11 * 2 ^ 16 + b * 2 ^ 8 + sl * 2 ^ 3 + f)); lia.
Qed.

Definition empty_bus : bus_state simple unit := mk_bus (mk_hw ∅ []) simple0 ∅ tt.
Definition ide : bus_state simple unit := with_devs {[(7, 0) := mk_dev (io_addr 0 0 1 0) io_ops]} empty_bus.
End Demo.

Lemma pci_read_correct_witness : (exists h, @pci_read8 _ _ Demo.host _ (7, 0) 11 Demo.ide = Ret 1 (with_machine h Demo.ide))
  /\ (exists h, @pci_read16 _ _ Demo.host _ (7, 0) 3 Demo.ide = Ret 0x7010 (with_machine h Demo.ide)).
Proof.
  assert (function 0 1 0) as Hf by (unfold function; lia).
  assert (designates Demo.window Demo.ide (7, 0) 0 1 0 0) as Hd.
  { exists (mk_dev (io_addr 0 0 1 0) io_ops). split; [reflexivity|]. cbn. split; [lia|reflexivity]. }
  split.
  - destruct (@pci_read_correct _ _ Demo.host _ Demo.conf Demo.window Demo.host_ok Demo.ide (7, 0) 0 1 0 0 11 Hf Hd ltac:(lia) ltac:(lia)) as (H & _ & _). exact H.
  - destruct (@pci_read_correct _ _ Demo.host _ Demo.conf Demo.window Demo.host_ok Demo.ide (7, 0) 0 1 0 0 3 Hf Hd ltac:(lia) ltac:(lia)) as (_ & H & _). exact H.
Defined.

Lemma pci_enum_device_correct_witness :
  exists s2, @pci_enum_device simple unit Demo.host _ [] no_junk 0 0 2 0 Demo.empty_bus = Ret (-1) s2 /\ pci_devs s2 = ∅.
Proof.
  destruct (@pci_enum_device_correct simple unit Demo.host _ Demo.conf Demo.window Demo.host_ok [] ∅ 0 2 0 Demo.empty_bus)
    as [(m & Hno & _)|(o & s1 & _ & _ & _ & _ & s2 & E & _ & Hd & _)].
  - split; [exact simple0_ok|]. cbn. by rewrite dom_empty_L.
  - unfold function. lia.
  - discriminate Hno.
  - exists s2. split; [exact E|exact Hd].
Defined.

(** A register of a region of 4096 bytes at 0xfebf1000. *)
Module DemoBar.
Definition A : Z := io_addr 0 0 1 0 + (16 + 5 * 4).
#[local] Instance bar_machine : devices := {|
  answer tr m a := if latched tr =? A then bar_value A 12 0 0xfebf1000 tr else 0;
  dma tr m := m
|}.
Lemma bar_ok : bar_register A 12 0 0xfebf1000.
Proof. split; [lia|lia|]. intros tr m E. cbn [answer bar_machine]. by rewrite E, Z.eqb_refl. Qed.
End DemoBar.

Lemma pci_read_bar_correct_witness :
  exists h, @pci_read_bar simple unit DemoBar.bar_machine _ true (7, 0) 5 Demo.ide = Ret (0xfebf1000, Some 4096) (with_machine h Demo.ide).
Proof.
  destruct (@pci_read_bar_correct simple unit DemoBar.bar_machine _ Demo.ide (7, 0) (mk_dev (io_addr 0 0 1 0) io_ops) 5 12 0xfebf1000 0)
    as [(h & E & _) _].
  - reflexivity.
  - reflexivity.
  - lia.
  - vm_compute. split; [discriminate|reflexivity].
  - exact DemoBar.bar_ok.
  - lia.
  - reflexivity.
  - reflexivity.
  - exists h. exact E.
Defined.
