(* ===== verification/Ata.v ===== *)
(** * ATA disks (kernel/dev/ata.c)

    The state of the disk drivers and the driver for parallel ATA: requests in two calls
    (issue, collect), programmed through the ports of a channel.  Loops that poll a
    status register read it [patience] times at most. *)

From Stdlib Require Import ZArith Lia.
From stdpp Require Import strings base gmap fin_maps list.
From S2P Require Import Prelude Strings Printfmt MemState Devices Acpi DevMem Pci.

#[local] Open Scope Z_scope.
#[local] Open Scope kernel_scope.

(** ** Constants of include/ata.h *)

Definition ATA_STAT_ERR : Z := 1.
Definition ATA_STAT_DRQ : Z := Z.shiftl 1 3.
Definition ATA_STAT_DF : Z := Z.shiftl 1 5.
Definition ATA_STAT_READY : Z := Z.shiftl 1 6.
Definition ATA_STAT_BUSY : Z := Z.shiftl 1 7.
Definition ATA_CMD_READ : Z := 0x20.
Definition ATA_CMD_READ_DMA_EX : Z := 0x25.
Definition ATA_CMD_WRITE : Z := 0x30.
Definition ATA_CMD_WRITE_DMA_EX : Z := 0x35.
Definition ATA_CMD_IDENT_PCKT : Z := 0xa1.
Definition ATA_CMD_FLUSH : Z := 0xe7.
Definition ATA_CMD_IDENT : Z := 0xec.
Definition ident_model : Z := 54.
Definition ident_max_lba : Z := 120.
Definition MAX_DISKS : Z := 32.
Definition sizeof_ata_disk : Z := 48.

(** ** State of the disk drivers *)

(** [struct ata_chan]: port numbers; members of a union are one field. *)
Record ata_chan := mk_chan {
  data : Z; err : Z; sector_count : Z; lba_lo : Z; lba_mid : Z; lba_hi : Z; drive_port : Z; cmd : Z; ctrl : Z
}.

Inductive ata_state := ATA_IDLE | ATA_READ | ATA_WRITE.
Inductive ahci_state := AHCI_IDLE | AHCI_READ | AHCI_WRITE.

(** [chan] is an index of the array channels. *)
Record ata_disk := mk_ata { chan : Z; drive : Z; state : ata_state; nsectors : Z; sect_size : Z }.
Record ahci_disk := mk_ahci { port : Z; hstate : ahci_state; hnsectors : Z; hsect_size : Z; slot : Z }.

#[export] Instance ata_state_eq_dec : EqDecision ata_state.
Proof. solve_decision. Defined.
#[export] Instance ahci_state_eq_dec : EqDecision ahci_state.
Proof. solve_decision. Defined.

(** An entry of the array disks: the object its operations work on. *)
Inductive disk := Ata (o : Z * Z) | Ahci (o : Z * Z).

(** The array channels, the objects of the drivers, and the used part of the array
    disks, whose length is ndisks. *)
Record disk_state := mk_disks {
  channels : list ata_chan;
  ata_disks : gmap (Z * Z) ata_disk;
  ahci_disks : gmap (Z * Z) ahci_disk;
  disks : list disk
}.
Definition with_channels x s := mk_disks x (ata_disks s) (ahci_disks s) (disks s).
Definition with_ata x s := mk_disks (channels s) x (ahci_disks s) (disks s).
Definition with_ahci x s := mk_disks (channels s) (ata_disks s) x (disks s).
Definition with_disks x s := mk_disks (channels s) (ata_disks s) (ahci_disks s) x.
Definition ndisks (s : disk_state) : Z := Z.of_nat (length (disks s)).

Section Ata.
Context {M : Type} {D : devices} {DM : DevMem M} (patience : nat).

Abbreviation KD := (K (bus_state M disk_state)).

Definition on_disks (f : disk_state -> disk_state) : KD unit := kmodify (fun s => with_drivers (f (drivers s)) s).
Definition get_chan (c : Z) : KD ata_chan := fun s => kderef (channels (drivers s) !! Z.to_nat c) s.
Definition get_ata (o : Z * Z) : KD ata_disk := fun s => kderef (ata_disks (drivers s) !! o) s.
Definition set_state (o : Z * Z) (st : ata_state) : KD unit :=
  d <-- get_ata o;;
  on_disks (fun x => with_ata (<[o := mk_ata (chan d) (drive d) st (nsectors d) (sect_size d)]> (ata_disks x)) x).
Definition port_in (p : Z) : KD Z := on_machine (inb p).
Definition port_out (p v : Z) : KD unit := on_machine (outb p v).

(** ** Channels *)

Definition ata_wait_400ns (c : Z) : KD unit :=
  ch <-- get_chan c;;
  port_in (ctrl ch);;; port_in (ctrl ch);;; port_in (ctrl ch);;; port_in (ctrl ch);;; kret tt.

Definition ata_reset (c : Z) : KD unit :=
  ch <-- get_chan c;; port_out (ctrl ch) 4;;; ata_wait_400ns c;;; port_out (ctrl ch) 0.

Definition ata_disable_irq : KD unit :=
  c0 <-- get_chan 0;; port_out (ctrl c0) (Z.shiftl 1 1);;;
  c1 <-- get_chan 1;; port_out (ctrl c1) (Z.shiftl 1 1).

Definition ready (status : Z) : bool := Z.land status (Z.lor ATA_STAT_BUSY ATA_STAT_READY) =? ATA_STAT_READY.

Fixpoint wait_ready_loop (fuel : nat) (p : Z) : KD Z :=
  match fuel with
  | O => khang
  | S fuel => status <-- port_in p;; if ready status then kret status else wait_ready_loop fuel p
  end.
Definition ata_wait_ready (ch : ata_chan) (check_err : bool) : KD Z :=
  status <-- wait_ready_loop patience (cmd ch);;
  if check_err && flag status (Z.lor ATA_STAT_DF ATA_STAT_ERR) then kret (-1) else kret 0.

(** ** Operations of a disk *)

Definition ata_poll (o : Z * Z) : KD bool :=
  d <-- get_ata o;; ch <-- get_chan (chan d);; status <-- port_in (cmd ch);; kret (ready status).

(** [stat]: whether the caller passes a structure; what is stored in it. *)
Definition ata_stat (o : Z * Z) (stat : bool) : KD (option (Z * Z)) :=
  if stat then d <-- get_ata o;; kret (Some (nsectors d, sect_size d)) else kret None.

(** The task file of a request, and its command. *)
Definition issue (ch : ata_chan) (d : ata_disk) (count addr command : Z) : KD unit :=
  port_out (sector_count ch) count;;;
  port_out (lba_lo ch) (Z.land addr 0xff);;;
  port_out (lba_mid ch) (Z.land (Z.shiftr addr 8) 0xff);;;
  port_out (lba_hi ch) (Z.land (Z.shiftr addr 16) 0xff);;;
  port_out (drive_port ch) (Z.lor (Z.lor 0xe0 (Z.shiftl (drive d) 4)) (Z.land (Z.shiftr addr 24) 0xf));;;
  port_out (cmd ch) command.

Definition select_drive (ch : ata_chan) (d : ata_disk) : KD unit :=
  port_out (drive_port ch) (Z.lor 0xa0 (Z.shiftl (drive d) 4)).

Definition ata_read (o : Z * Z) (buf count addr : Z) : KD Z :=
  d <-- get_ata o;;
  ch <-- get_chan (chan d);;
  select_drive ch d;;;
  match state d with
  | ATA_IDLE =>
      ata_wait_ready ch false;;;
      issue ch d count addr ATA_CMD_READ;;;
      set_state o ATA_READ;;;
      kret (- EAGAIN)
  | ATA_READ =>
      r <-- ata_poll o;;
      if negb r then kret (- EAGAIN) else
      on_machine (insl (Z.to_nat (sect_size d / 4)) (data ch) buf);;;
      set_state o ATA_IDLE;;;
      kret (s64 (u64 (count * sect_size d)))
  | ATA_WRITE => kret (- EAGAIN)
  end.

Definition ata_write (o : Z * Z) (buf count addr : Z) : KD Z :=
  d <-- get_ata o;;
  ch <-- get_chan (chan d);;
  select_drive ch d;;;
  match state d with
  | ATA_IDLE =>
      ata_wait_ready ch false;;;
      issue ch d count addr ATA_CMD_WRITE;;;
      set_state o ATA_WRITE;;;
      kret (- EAGAIN)
  | ATA_READ => kret (- EAGAIN)
  | ATA_WRITE =>
      r <-- ata_poll o;;
      if negb r then kret (- EAGAIN) else
      select_drive ch d;;;
      ata_wait_ready ch false;;;
      on_machine (outsl (Z.to_nat (u64 (count * sect_size d) / 4)) (data ch) buf);;;
      set_state o ATA_IDLE;;;
      ata_wait_ready ch false;;;
      port_out (cmd ch) ATA_CMD_FLUSH;;;
      ata_wait_ready ch false;;;
      kret (s64 (u64 (count * sect_size d)))
  end.

(** ** Finding the disks *)

(** [insl] into a local array, as its bytes. *)
Fixpoint insl_local (n : nat) (p : Z) : KD (list Z) :=
  match n with O => kret [] | S n => v <-- on_machine (inl p);; rest <-- insl_local n p;; kret (le_split 4 v ++ rest) end.

(** [for (i = 0; i < 40; i += 2)]: the characters of the model exchanged in pairs. *)
Fixpoint swap_pairs (n : nat) (i : nat) (bs : list Z) : list Z :=
  match n with
  | O => bs
  | S n => swap_pairs n (i + 2) (<[S i := default 0 (bs !! i)]> (<[i := default 0 (bs !! S i)]> bs))
  end.

(** [while (!drq && !err)]: the last [err]. *)
Fixpoint wait_drq (fuel : nat) (p : Z) : KD bool :=
  match fuel with
  | O => khang
  | S fuel =>
      s1 <-- port_in p;; s2 <-- port_in p;;
      if flag s1 ATA_STAT_DRQ || flag s2 ATA_STAT_ERR then kret (flag s2 ATA_STAT_ERR) else wait_drq fuel p
  end.

(** The end of ata_enum_device: the identification space and the new disk. *)
Definition ata_add_disk (c drive : Z) (ch : ata_chan) : KD unit :=
  buf <-- insl_local 128 (data ch);;
  let ident := swap_pairs 20 (Z.to_nat ident_model) buf in
  let max_lba := le_combine (take 4 (drop (Z.to_nat ident_max_lba) ident)) in
  s <-- kget;;
  if ndisks (drivers s) >=? MAX_DISKS then kret tt else
  o <-- on_kernel (dm_kmalloc sizeof_ata_disk);;
  match o with
  | None => kret tt
  | Some o =>
      on_disks (fun x => with_ata (<[o := mk_ata c drive ATA_IDLE max_lba 512]> (ata_disks x)) x);;;
      on_disks (fun x => with_disks (disks x ++ [Ata o]) x)
  end.

Definition ata_enum_device (c drive : Z) : KD unit :=
  ch <-- get_chan c;;
  ata_reset c;;;
  ata_wait_400ns c;;;
  port_out (drive_port ch) (Z.lor 0xa0 (Z.shiftl drive 4));;;
  port_out (sector_count ch) 0;;;
  port_out (lba_lo ch) 0;;;
  port_out (lba_mid ch) 0;;;
  port_out (lba_hi ch) 0;;;
  port_out (cmd ch) ATA_CMD_IDENT;;;
  status <-- port_in (cmd ch);;
  if status =? 0 then kret tt else
  lo <-- port_in (lba_lo ch);;
  hi <-- port_in (lba_hi ch);;
  let lba := Z.lor lo (Z.shiftl hi 8) in
  e <-- wait_drq patience (cmd ch);;
  if (e : bool) then
    if (lba =? 0xeb14) || (lba =? 0x9669) then
      port_out (cmd ch) ATA_CMD_IDENT_PCKT;;; ata_wait_400ns c;;; ata_add_disk c drive ch
    else kret tt
  else ata_add_disk c drive ch.

Definition ata_enum_devices : KD unit :=
  ata_enum_device 0 0;;; ata_enum_device 0 1;;; ata_enum_device 1 0;;; ata_enum_device 1 1.

Definition ata_setup_chan (c base ctl : Z) : KD unit :=
  on_disks (fun x => with_channels (<[Z.to_nat c :=
    mk_chan base (u16 (base + 1)) (u16 (base + 2)) (u16 (base + 3)) (u16 (base + 4)) (u16 (base + 5)) (u16 (base + 6)) (u16 (base + 7)) ctl]>
    (channels x)) x).

(** [(bar & 0xfffffffc) + legacy * !bar], passed as a 16-bit port number. *)
Definition port_base (bar legacy : Z) : Z := u16 (u32 (Z.land bar 0xfffffffc + legacy * b2z (bar =? 0))).

Definition ata_probe (dev : Z * Z) : KD Z :=
  b0 <-- pci_read_bar false dev 0;;
  b1 <-- pci_read_bar false dev 1;;
  ata_setup_chan 0 (port_base (fst b0) 0x1f0) (port_base (fst b1) 0x3f6);;;
  b2 <-- pci_read_bar false dev 2;;
  b3 <-- pci_read_bar false dev 3;;
  ata_setup_chan 1 (port_base (fst b2) 0x170) (port_base (fst b3) 0x376);;;
  ata_disable_irq;;;
  ata_enum_devices;;;
  kret 0.

Definition ata_driver : pci_driver M disk_state := mk_driver [PCI_MATCH_CLASS 1 1; id_end] ata_probe.

End Ata.
