(* ===== verification/AtaThm.v ===== *)
(** * Theorems on ATA disks

    The request a controller receives from the driver, and the two calls of a read. *)

From Stdlib Require Import ZArith Lia.
From stdpp Require Import strings base gmap fin_maps list.
From S2P Require Import Prelude Strings Printfmt MemState Devices Acpi DevMem Pci Ata.

#[local] Open Scope Z_scope.
#[local] Open Scope kernel_scope.

(** ** What a controller has received

    The request that the task file of a channel holds: command, drive, number of sectors,
    first sector. *)

Record request := mk_request { rq_cmd : Z; rq_drive : Z; rq_count : Z; rq_lba : Z }.
Definition received (ch : ata_chan) (tr : list access) : request :=
  let dev := last_out (drive_port ch) tr in
  mk_request (last_out (cmd ch) tr) (dev / 16 mod 2) (last_out (sector_count ch) tr)
    (last_out (lba_lo ch) tr + 2 ^ 8 * last_out (lba_mid ch) tr + 2 ^ 16 * last_out (lba_hi ch) tr + 2 ^ 24 * (dev mod 16)).

(** The accesses up to the last command, whose task file the disk works on. *)
Fixpoint last_command (ch : ata_chan) (tr : list access) : list access :=
  match tr with
  | [] => []
  | PortOut w p v :: tr' => if p =? cmd ch then tr else last_command ch tr'
  | _ :: tr' => last_command ch tr'
  end.

(** The ports ata_setup_chan assigns: eight in a row and the control port apart. *)
Definition channel_at (base : Z) (ctl : Z) : ata_chan :=
  mk_chan base (base + 1) (base + 2) (base + 3) (base + 4) (base + 5) (base + 6) (base + 7) ctl.

(** The words read from the data port since the last command. *)
Fixpoint words_read (ch : ata_chan) (tr : list access) : nat :=
  match tr with
  | [] => 0
  | PortIn w p :: tr => if p =? data ch then S (words_read ch tr) else words_read ch tr
  | PortOut _ p _ :: tr => if p =? cmd ch then O else words_read ch tr
  | _ :: tr => words_read ch tr
  end.

Section Ata.
Context {M : Type} {D : devices} {DM : DevMem M} (patience : nat).
Context (no_dma : forall tr m, dma tr m = m).
Implicit Types (s : bus_state M disk_state).

(** The state after further accesses. *)
Definition traced (tr : list access) s : bus_state M disk_state := with_machine (mk_hw (ram (machine s)) (tr ++ trace (machine s))) s.

Lemma port_out_run p v s : port_out p v s = Ret tt (traced [PortOut 1 (u16 p) (u8 v)] s).
Proof. unfold port_out, on_machine, outb, occurs, kbind, kret. by rewrite no_dma. Qed.
Lemma port_in_run p s :
  port_in p s = Ret (u8 (answer (trace (machine s)) (ram (machine s)) (PortIn 1 (u16 p)))) (traced [PortIn 1 (u16 p)] s).
Proof. unfold port_in, on_machine, inb, occurs, kbind, kret. by rewrite no_dma. Qed.
Lemma traced_traced a b s : traced a (traced b s) = traced (a ++ b) s.
Proof. unfold traced. cbn. by rewrite app_assoc. Qed.
Lemma traced_nil s : traced [] s = s.
Proof. by destruct s as [[] ? ? ?]. Qed.

(** [n] polls of the status port find the disk busy, the next one finds it ready. *)
Definition becomes_ready (ch : ata_chan) (n : nat) s : Prop :=
  let status i := u8 (answer (replicate i (PortIn 1 (u16 (cmd ch))) ++ trace (machine s)) (ram (machine s)) (PortIn 1 (u16 (cmd ch)))) in
  (forall i, (i < n)%nat -> ready (status i) = false) /\ ready (status n) = true.

Lemma wait_ready_ok n ch s : becomes_ready ch n s -> (n < patience)%nat ->
  ata_wait_ready patience ch false s = Ret 0 (traced (replicate (S n) (PortIn 1 (u16 (cmd ch)))) s).
Proof.
  intros [Hbusy Hready] Hn. unfold ata_wait_ready.
  assert (forall k, (k <= n)%nat -> exists v, wait_ready_loop (patience - (n - k)) (cmd ch) (traced (replicate (n - k) (PortIn 1 (u16 (cmd ch)))) s)
    = Ret v (traced (replicate (S n) (PortIn 1 (u16 (cmd ch)))) s)) as Hloop.
  { induction k as [|k IH]; intros Hk.
    - destruct (patience - (n - 0))%nat as [|fuel] eqn:Ef; [lia|]. eexists. cbn [wait_ready_loop].
      rewrite (krun _ _ _ _ _ (port_in_run _ _)), traced_traced. cbn [machine traced with_machine trace ram].
      rewrite Nat.sub_0_r, Hready. reflexivity.
    - destruct (IH ltac:(lia)) as [v E]. exists v. rewrite <- E.
      destruct (patience - (n - S k))%nat as [|fuel] eqn:Ef; [lia|]. cbn [wait_ready_loop].
      rewrite (krun _ _ _ _ _ (port_in_run _ _)), traced_traced. cbn [machine traced with_machine trace ram].
      rewrite Hbusy by lia. replace (n - k)%nat with (S (n - S k)) by lia.
      replace (patience - S (n - S k))%nat with fuel by lia. done. }
  destruct (Hloop n (le_n n)) as [v E]. rewrite Nat.sub_diag, Nat.sub_0_r in E. cbn [replicate] in E. rewrite traced_nil in E.
  by rewrite (krun _ _ _ _ _ E).
Qed.

(** The writes of [issue], latest first. *)
Definition issued (ch : ata_chan) (d : ata_disk) (count addr command : Z) : list access :=
  [PortOut 1 (u16 (cmd ch)) (u8 command);
   PortOut 1 (u16 (drive_port ch)) (u8 (Z.lor (Z.lor 0xe0 (Z.shiftl (drive d) 4)) (Z.land (Z.shiftr addr 24) 0xf)));
   PortOut 1 (u16 (lba_hi ch)) (u8 (Z.land (Z.shiftr addr 16) 0xff));
   PortOut 1 (u16 (lba_mid ch)) (u8 (Z.land (Z.shiftr addr 8) 0xff));
   PortOut 1 (u16 (lba_lo ch)) (u8 (Z.land addr 0xff));
   PortOut 1 (u16 (sector_count ch)) (u8 count)].

Lemma issue_run ch d count addr command s : issue ch d count addr command s = Ret tt (traced (issued ch d count addr command) s).
Proof.
  unfold issue. rewrite !(krun _ _ _ _ _ (port_out_run _ _ _)), port_out_run, !traced_traced. done.
Qed.

Lemma land_mod x n : 0 <= n -> Z.land x (2 ^ n - 1) = x mod 2 ^ n.
Proof. intros Hn. rewrite <- Z.land_ones by done. by rewrite Z.ones_equiv, Z.sub_1_r. Qed.

(** The request is the one the driver was asked for. *)
Lemma received_issued base ctl d count addr command tr : 0 <= base < 2 ^ 16 - 8 -> (drive d = 0 \/ drive d = 1) -> 0 <= addr ->
  received (channel_at base ctl) (issued (channel_at base ctl) d count addr command ++ tr)
  = mk_request (u8 command) (drive d) (u8 count) (addr mod 2 ^ 28).
Proof.
  intros Hb Hdr Ha. unfold received, issued, channel_at. cbn [cmd drive_port lba_hi lba_mid lba_lo sector_count app last_out].
  assert (forall i, 0 <= i < 8 -> u16 (base + i) = base + i) as Hp by (intros; unfold u16; apply Z.mod_small; lia).
  rewrite !Hp by lia. assert (forall i j, i <> j -> (base + i =? base + j) = false) as Hne by (intros; apply Z.eqb_neq; lia).
  rewrite !Z.eqb_refl. rewrite !Hne by lia.
  change 0xff with (2 ^ 8 - 1). change 0xf with (2 ^ 4 - 1). rewrite !land_mod, !Z.shiftr_div_pow2 by done. unfold u8.
  set (top := addr / 2 ^ 24 mod 2 ^ 4). assert (0 <= top < 16) as Ht by (apply Z.mod_pos_bound; lia).
  assert (Z.lor (Z.lor 0xe0 (Z.shiftl (drive d) 4)) top = 0xe0 + 16 * drive d + top) as ->.
  { pose proof (range_check (fun t => (Z.lor (Z.lor 0xe0 (Z.shiftl 0 4)) t =? 0xe0 + 16 * 0 + t) && (Z.lor (Z.lor 0xe0 (Z.shiftl 1 4)) t =? 0xe0 + 16 * 1 + t)) 16
      ltac:(vm_compute; reflexivity) top Ht) as Hc. cbv beta in Hc. zify_bool. by destruct Hdr as [-> | ->]. }
  rewrite (Z.mod_small (0xe0 + 16 * drive d + top)) by lia. rewrite !Z.mod_mod by done. f_equal.
  - rewrite <- (Z.div_unique (0xe0 + 16 * drive d + top) 16 (14 + drive d) top) by lia. destruct Hdr as [-> | ->]; reflexivity.
  - rewrite <- (Z.mod_unique (0xe0 + 16 * drive d + top) 16 (14 + drive d) top) by lia. unfold top.
    change (2 ^ 28) with (2 ^ 8 * (2 ^ 8 * (2 ^ 8 * 2 ^ 4))).
    rewrite (Z.rem_mul_r addr (2 ^ 8)), (Z.rem_mul_r (addr / 2 ^ 8) (2 ^ 8)), (Z.rem_mul_r (addr / 2 ^ 8 / 2 ^ 8) (2 ^ 8)) by lia.
    rewrite !Z.div_div by lia. change (2 ^ 8 * 2 ^ 8) with (2 ^ 16). change (2 ^ 8 * 2 ^ 16) with (2 ^ 24). change (2 ^ 16 * 2 ^ 8) with (2 ^ 24). lia.
Qed.

(** ** The data port

    [sector rq k]: the [k]-th word the disk gives for the request [rq]. *)

Context (ch : ata_chan) (sector : request -> nat -> Z).
Context (Hdata : forall tr m, answer tr m (PortIn 4 (u16 (data ch))) = sector (received ch (last_command ch tr)) (words_read ch tr)).

Definition sector_bytes (rq : request) (i n : nat) : list Z := concat ((fun k => le_split 4 (u32 (sector rq k))) <$> seq i n).

Lemma sector_bytes_length rq i n : length (sector_bytes rq i n) = (4 * n)%nat.
Proof.
  revert i. induction n as [|n IH]; intros i; [done|]. unfold sector_bytes. cbn [seq fmap list_fmap concat].
  rewrite length_app, le_split_length. fold (sector_bytes rq (S i) n). rewrite IH. lia.
Qed.

Lemma write_bytes_mapped m p cs q n : mapped m q n -> mapped (write_bytes m p cs) q n.
Proof.
  intros Hm a Ha. rewrite write_bytes_lookup. case_decide; [|by apply Hm]. apply lookup_lt_is_Some. lia.
Qed.

(** The state after [n] words from the [i]-th on have been stored at [buf]. *)
Definition loaded (rq : request) (buf : Z) (i n : nat) s : bus_state M disk_state :=
  with_machine (mk_hw (write_bytes (ram (machine s)) buf (sector_bytes rq i n)) (replicate n (PortIn 4 (u16 (data ch))) ++ trace (machine s))) s.

Lemma inl_run p h : inl p h = Ret (u32 (answer (trace h) (ram h) (PortIn 4 (u16 p)))) (mk_hw (ram h) (PortIn 4 (u16 p) :: trace h)).
Proof. unfold inl, occurs, kbind, kret. by rewrite no_dma. Qed.

Lemma insl_hw rq n i buf h : u16 (data ch) = data ch -> received ch (last_command ch (trace h)) = rq -> words_read ch (trace h) = i -> mapped (ram h) buf (4 * Z.of_nat n) ->
  insl n (data ch) buf h = Ret tt (mk_hw (write_bytes (ram h) buf (sector_bytes rq i n)) (replicate n (PortIn 4 (u16 (data ch))) ++ trace h)).
Proof.
  intros Hp. revert i buf h. induction n as [|n IH]; intros i buf h Hrq Hi Hm; [by destruct h|]. cbn [insl].
  rewrite (krun _ _ _ _ _ (inl_run _ _)), Hdata, Hrq, Hi.
  erewrite krun by (apply on_ram_run, write_unit_ok; [rewrite le_split_length; intros a Ha; apply Hm; lia|apply le_split_range]).
  cbn [ram trace]. rewrite (IH (S i)).
  - cbn [ram trace]. unfold sector_bytes. cbn [seq fmap list_fmap concat]. rewrite write_bytes_app, le_split_length.
    rewrite (replicate_S_end n). rewrite <- app_assoc. done.
  - done.
  - cbn [trace words_read]. by rewrite Hp, Z.eqb_refl, Hi.
  - cbn [ram]. intros a Ha. apply (write_bytes_mapped _ _ _ buf (4 * Z.of_nat (S n))); [exact Hm|lia].
Qed.

Lemma insl_ok rq n i buf s : u16 (data ch) = data ch -> received ch (last_command ch (trace (machine s))) = rq -> words_read ch (trace (machine s)) = i -> mapped (ram (machine s)) buf (4 * Z.of_nat n) ->
  on_machine (insl n (data ch) buf) s = Ret tt (loaded rq buf i n s).
Proof. intros Hp Hrq Hi Hm. unfold on_machine. by rewrite (insl_hw rq n i). Qed.

(** ** A read *)

Definition set_disk (o : Z * Z) (d : ata_disk) (st : ata_state) s : bus_state M disk_state :=
  with_drivers (with_ata (<[o := mk_ata (chan d) (drive d) st (nsectors d) (sect_size d)]> (ata_disks (drivers s))) (drivers s)) s.

(** The disk object [o], its channel, and the access that selects it. *)
Definition disk_at (o : Z * Z) (d : ata_disk) s : Prop :=
  ata_disks (drivers s) !! o = Some d /\ channels (drivers s) !! Z.to_nat (chan d) = Some ch.
Definition selection (d : ata_disk) : access := PortOut 1 (u16 (drive_port ch)) (u8 (Z.lor 0xa0 (Z.shiftl (drive d) 4))).

Lemma disk_at_traced o d s tr : disk_at o d s -> disk_at o d (traced tr s).
Proof. done. Qed.

Lemma get_ata_run o d s : disk_at o d s -> get_ata o s = Ret d s.
Proof. intros [Hd _]. unfold get_ata. by rewrite Hd. Qed.
Lemma get_chan_run o d s : disk_at o d s -> get_chan (chan d) s = Ret ch s.
Proof. intros [_ Hc]. unfold get_chan. by rewrite Hc. Qed.

Lemma set_state_run o d st s : disk_at o d s -> set_state o st s = Ret tt (set_disk o d st s).
Proof. intros Hd. unfold set_state. by rewrite (krun _ _ _ _ _ (get_ata_run o d s Hd)). Qed.

(** Up to the state machine: the disk is selected. *)
Lemma selected_run {A} o d s (f : ata_disk -> ata_chan -> K (bus_state M disk_state) A) : disk_at o d s ->
  (d <-- get_ata o;; ch <-- get_chan (chan d);; select_drive ch d;;; f d ch) s = f d ch (traced [selection d] s).
Proof.
  intros Hd. rewrite (krun _ _ _ _ _ (get_ata_run o d s Hd)), (krun _ _ _ _ _ (get_chan_run o d s Hd)).
  unfold select_drive. by rewrite (krun _ _ _ _ _ (port_out_run _ _ _)).
Qed.

Lemma poll_run o d s : disk_at o d s ->
  ata_poll o s = Ret (ready (u8 (answer (trace (machine s)) (ram (machine s)) (PortIn 1 (u16 (cmd ch)))))) (traced [PortIn 1 (u16 (cmd ch))] s).
Proof.
  intros Hd. unfold ata_poll. rewrite (krun _ _ _ _ _ (get_ata_run o d s Hd)), (krun _ _ _ _ _ (get_chan_run o d s Hd)).
  by rewrite (krun _ _ _ _ _ (port_in_run _ _)).
Qed.

(** The status the disk answers with after it has been selected. *)
Definition ready_now (d : ata_disk) s : bool :=
  ready (u8 (answer (selection d :: trace (machine s)) (ram (machine s)) (PortIn 1 (u16 (cmd ch))))).

Lemma ata_read_idle n o d buf count addr s : disk_at o d s -> state d = ATA_IDLE -> becomes_ready ch n (traced [selection d] s) -> (n < patience)%nat ->
  ata_read patience o buf count addr s
  = Ret (- EAGAIN) (set_disk o d ATA_READ (traced (issued ch d count addr ATA_CMD_READ ++ replicate (S n) (PortIn 1 (u16 (cmd ch))) ++ [selection d]) s)).
Proof.
  intros Hd Hst Hr Hn. unfold ata_read. rewrite (selected_run o d s _ Hd), Hst.
  rewrite (krun _ _ _ _ _ (wait_ready_ok n ch _ Hr Hn)), (krun _ _ _ _ _ (issue_run _ _ _ _ _ _)), !traced_traced.
  erewrite krun; [reflexivity|]. rewrite <- app_assoc. by apply set_state_run.
Qed.

(** Selecting the disk and reading its status leave the request as it is. *)
Lemma last_command_selected d s : u16 (drive_port ch) <> cmd ch ->
  last_command ch (trace (machine (traced [PortIn 1 (u16 (cmd ch)); selection d] s))) = last_command ch (trace (machine s)).
Proof. intros Hne. unfold traced, selection. cbn. by rewrite (proj2 (Z.eqb_neq _ _) Hne). Qed.
Lemma words_read_selected d s : u16 (cmd ch) <> data ch -> u16 (drive_port ch) <> cmd ch ->
  words_read ch (trace (machine (traced [PortIn 1 (u16 (cmd ch)); selection d] s))) = words_read ch (trace (machine s)).
Proof. intros Hne1 Hne2. unfold traced, selection. cbn. by rewrite (proj2 (Z.eqb_neq _ _) Hne1), (proj2 (Z.eqb_neq _ _) Hne2). Qed.

Lemma ata_read_collect rq o d buf count addr s : disk_at o d s -> state d = ATA_READ -> ready_now d s = true ->
  u16 (data ch) = data ch -> u16 (cmd ch) <> data ch -> u16 (drive_port ch) <> cmd ch ->
  received ch (last_command ch (trace (machine s))) = rq -> words_read ch (trace (machine s)) = O ->
  mapped (ram (machine s)) buf (4 * (sect_size d / 4)) -> 0 <= sect_size d ->
  ata_read patience o buf count addr s
  = Ret (s64 (u64 (count * sect_size d)))
      (set_disk o d ATA_IDLE (loaded rq buf 0 (Z.to_nat (sect_size d / 4)) (traced [PortIn 1 (u16 (cmd ch)); selection d] s))).
Proof.
  intros Hd Hst Hr Hp Hne1 Hne2 Hrq Hw Hm Hsz. unfold ata_read. rewrite (selected_run o d s _ Hd), Hst.
  rewrite (krun _ _ _ _ _ (poll_run o d _ (disk_at_traced _ _ _ _ Hd))). cbn [machine traced with_machine trace ram app].
  fold (ready_now d s). rewrite Hr. cbn [negb]. rewrite traced_traced. cbn [app].
  assert (0 <= sect_size d / 4) by (apply Z.div_pos; lia).
  rewrite (krun _ _ _ _ _ (insl_ok rq (Z.to_nat (sect_size d / 4)) 0 buf (traced [PortIn 1 (u16 (cmd ch)); selection d] s) Hp
    ltac:(by rewrite last_command_selected) ltac:(by rewrite words_read_selected) ltac:(by rewrite Z2Nat.id))).
  erewrite krun; [reflexivity|]. by apply set_state_run.
Qed.

Lemma ata_read_waits o d buf count addr s : disk_at o d s -> state d = ATA_READ -> ready_now d s = false ->
  ata_read patience o buf count addr s = Ret (- EAGAIN) (traced [PortIn 1 (u16 (cmd ch)); selection d] s).
Proof.
  intros Hd Hst Hr. unfold ata_read. rewrite (selected_run o d s _ Hd), Hst.
  rewrite (krun _ _ _ _ _ (poll_run o d _ (disk_at_traced _ _ _ _ Hd))). cbn [machine traced with_machine trace ram app].
  fold (ready_now d s). rewrite Hr. cbn [negb]. by rewrite traced_traced.
Qed.

Lemma ata_read_busy o d buf count addr s : disk_at o d s -> state d = ATA_WRITE ->
  ata_read patience o buf count addr s = Ret (- EAGAIN) (traced [selection d] s).
Proof. intros Hd Hst. unfold ata_read. by rewrite (selected_run o d s _ Hd), Hst. Qed.

(** The disk in another state, and the state after [k] calls that found it busy. *)
Definition in_state (st : ata_state) (d : ata_disk) : ata_disk := mk_ata (chan d) (drive d) st (nsectors d) (sect_size d).
Definition waited (k : nat) (d : ata_disk) s : bus_state M disk_state :=
  traced (mjoin (replicate k [PortIn 1 (u16 (cmd ch)); selection d])) s.

Lemma waited_S k d s : traced [PortIn 1 (u16 (cmd ch)); selection d] (waited k d s) = waited (S k) d s.
Proof. unfold waited. by rewrite traced_traced. Qed.

Lemma waited_trace k d s : u16 (cmd ch) <> data ch -> u16 (drive_port ch) <> cmd ch ->
  last_command ch (trace (machine (waited k d s))) = last_command ch (trace (machine s))
  /\ words_read ch (trace (machine (waited k d s))) = words_read ch (trace (machine s)).
Proof.
  intros Hne1 Hne2. induction k as [|k [IH1 IH2]]; [done|].
  by rewrite <- waited_S, last_command_selected, words_read_selected.
Qed.
Lemma waited_ram k d s : ram (machine (waited k d s)) = ram (machine s).
Proof. done. Qed.
Lemma disk_at_set o d st s : disk_at o d s -> disk_at o (in_state st d) (set_disk o d st s).
Proof. intros [Hd Hc]. split; [cbn; by rewrite lookup_insert_eq|exact Hc]. Qed.

(** What the calls of a read promise once the request has been issued. *)
Definition delivers (rq : request) (o : Z * Z) (d : ata_disk) (count addr : Z) s : Prop := forall k buf,
  let sk := waited k d s in
  if ready_now d sk then
    mapped (ram (machine s)) buf (4 * (sect_size d / 4)) ->
    exists s2, ata_read patience o buf count addr sk = Ret (s64 (u64 (count * sect_size d))) s2 /\
      disk_at o (in_state ATA_IDLE d) s2 /\
      ram (machine s2) = write_bytes (ram (machine s)) buf (sector_bytes rq 0 (Z.to_nat (sect_size d / 4)))
  else ata_read patience o buf count addr sk = Ret (- EAGAIN) (waited (S k) d s).

Lemma delivers_ok rq o d count addr s : disk_at o d s -> state d = ATA_READ -> 0 <= sect_size d ->
  u16 (data ch) = data ch -> u16 (cmd ch) <> data ch -> u16 (drive_port ch) <> cmd ch ->
  received ch (last_command ch (trace (machine s))) = rq -> words_read ch (trace (machine s)) = O ->
  delivers rq o d count addr s.
Proof.
  intros Hd Hst Hsz Hp Hne1 Hne2 Hrq Hw k buf sk. destruct (waited_trace k d s Hne1 Hne2) as [Ht Hwk].
  assert (disk_at o d sk) as Hdk by done. destruct (ready_now d sk) eqn:Hr.
  - intros Hm. eexists. split; [apply (ata_read_collect rq); unfold sk; rewrite ?Ht, ?Hwk; done|].
    split; [exact (disk_at_set o d ATA_IDLE _ Hdk)|done].
  - rewrite (ata_read_waits o d buf count addr sk Hdk Hst Hr). done.
Qed.
End Ata.

(** ** Reads

    A controller at the ports [base ..], whose disk, after a command, is busy for some
    polls and then gives the words of the sector that was asked for. *)

(** Fact (refinement): A read of an ATA disk takes two calls.  The first one waits for the disk, which is idle, to be
    ready, gives its controller the request - the read command, the disk, the low 8 bits of the number of
    sectors, the low 28 bits of the address of the first - records that a read is under way and returns
    [-EAGAIN] with the memory as it was.  Every later call returns [-EAGAIN] too while the disk is busy, and the
    first that finds it ready stores the words the disk gives for this request at the buffer, makes the
    disk idle again and returns the number of bytes that was asked for; what it stores is one sector,
    whatever this number. *)
Theorem ata_read_correct {M : Type} {D : devices} {DM : DevMem M} patience (sector : request -> nat -> Z) base ctl n o d buf count addr
    (s : bus_state M disk_state) :
  let ch := channel_at base ctl in
  (forall tr m, dma tr m = m) ->
  (forall tr m, answer tr m (PortIn 4 (data ch)) = sector (received ch (last_command ch tr)) (words_read ch tr)) ->
  0 <= base < 2 ^ 16 - 8 -> drive d = 0 \/ drive d = 1 -> 0 <= addr -> 0 <= sect_size d ->
  disk_at ch o d s -> state d = ATA_IDLE ->
  becomes_ready ch n (traced [selection ch d] s) -> (n < patience)%nat ->
  let rq := mk_request ATA_CMD_READ (drive d) (u8 count) (addr mod 2 ^ 28) in
  exists s1, ata_read patience o buf count addr s = Ret (- EAGAIN) s1 /\
    received ch (trace (machine s1)) = rq /\ disk_at ch o (in_state ATA_READ d) s1 /\ ram (machine s1) = ram (machine s) /\
    delivers patience ch sector rq o (in_state ATA_READ d) count addr s1.
Proof.
  intros ch Hdma Hdata Hb Hdr Ha Hsz Hd Hst Hready Hn rq.
  assert (forall i, 0 <= i < 8 -> u16 (base + i) = base + i) as Hp by (intros; unfold u16; apply Z.mod_small; lia).
  assert (u16 (data ch) = data ch) as Hp0 by (unfold ch, channel_at; cbn [data]; unfold u16; apply Z.mod_small; lia).
  assert (forall tr, received ch (issued ch d count addr ATA_CMD_READ ++ tr) = rq) as Hreq by (intros tr; by apply received_issued).
  eexists. split; [by apply (ata_read_idle patience Hdma ch n)|]. split; [cbn [machine set_disk with_drivers traced with_machine trace]; rewrite <- app_assoc; apply Hreq|].
  split; [by apply disk_at_set|]. split; [done|]. rewrite <- Hp0 in Hdata. apply delivers_ok; try done.
  - by apply disk_at_set.
  - unfold ch, channel_at. cbn [cmd data]. rewrite Hp by lia. lia.
  - unfold ch, channel_at. cbn [cmd drive_port]. rewrite Hp by lia. lia.
  - rewrite <- (Hreq (replicate (S n) (PortIn 1 (u16 (cmd ch))) ++ [selection ch d] ++ trace (machine s))). f_equal.
    unfold issued. cbn [machine set_disk with_drivers traced with_machine trace app last_command ch channel_at cmd]. rewrite Hp by lia. rewrite Z.eqb_refl. by rewrite <- app_assoc.
  - unfold issued. cbn [machine set_disk with_drivers traced with_machine trace app words_read ch channel_at cmd]. rewrite Hp by lia. by rewrite Z.eqb_refl.
Qed.

(** A disk that is always ready and whose words are their own addresses. *)
Module Demo.
Definition ch : ata_chan := channel_at 0x1f0 0x3f6.
Definition words (rq : request) (k : nat) : Z := 128 * rq_lba rq + Z.of_nat k.
#[local] Instance disk_machine : devices := {|
  answer tr m a := match a with
    | PortIn 4 p => words (received ch (last_command ch tr)) (words_read ch tr)
    | _ => ATA_STAT_READY end;
  dma tr m := m
|}.
Definition d : ata_disk := mk_ata 0 1 ATA_IDLE 4096 512.
Definition bus : bus_state simple disk_state := mk_bus (mk_hw ∅ []) simple0 ∅ (mk_disks [ch; ch] {[ (8, 0) := d ]} ∅ [Ata (8, 0)]).
End Demo.

Lemma ata_read_correct_witness :
  exists s1, @ata_read simple Demo.disk_machine 3 (8, 0) 0 2 0x12345678 Demo.bus = Ret (- EAGAIN) s1 /\
    received Demo.ch (trace (machine s1)) = mk_request ATA_CMD_READ 1 2 0x2345678.
Proof.
  destruct (@ata_read_correct simple Demo.disk_machine _ 3 Demo.words 0x1f0 0x3f6 0 (8, 0) Demo.d 0 2 0x12345678 Demo.bus)
    as (s1 & E & Hr & _).
  - reflexivity.
  - reflexivity.
  - lia.
  - right. reflexivity.
  - lia.
  - vm_compute. discriminate.
  - split; reflexivity.
  - reflexivity.
  - split; [intros i Hi; lia|reflexivity].
  - lia.
  - exists s1. split; [exact E|exact Hr].
Defined.
