(* ===== verification/Ahci.v ===== *)
(** * AHCI disks (kernel/dev/ahci.c)

    The driver for SATA disks: command lists and tables in memory that the host bus
    adapter reads, registers of a port that start a command.  A register is reached
    through the kernel's mapping; the command structures are bytes of [ram].  Loops that
    poll a register read it [patience] times at most. *)

From Stdlib Require Import ZArith Lia.
From stdpp Require Import strings base gmap fin_maps list.
From S2P Require Import Prelude Strings Printfmt MemState Devices Acpi DevMem Pci Ata.

#[local] Open Scope Z_scope.
#[local] Open Scope kernel_scope.

(** ** Constants and offsets of include/ahci.h *)

Definition HBA_PxCMD_ST : Z := 1.
Definition HBA_PxCMD_FRE : Z := Z.shiftl 1 4.
Definition HBA_PxCMD_FR : Z := Z.shiftl 1 14.
Definition HBA_PxCMD_CR : Z := Z.shiftl 1 15.
Definition HBA_PxIS_TFES : Z := Z.shiftl 1 30.
Definition HBA_PORT_IPM_ACTIVE : Z := 1.
Definition HBA_PORT_DET_PRESENT : Z := 3.
Definition FIS_TYPE_REG_H2D : Z := 0x27.
Definition SATA_SIG_ATAPI : Z := 0xeb140101.
Definition SATA_SIG_SEMB : Z := 0xc33c0101.
Definition SATA_SIG_PM : Z := 0x96690101.
Definition AHCI_DEV_NULL : Z := 0.
Definition AHCI_DEV_SATA : Z := 1.
Definition AHCI_DEV_SEMB : Z := 2.
Definition AHCI_DEV_PM : Z := 3.
Definition AHCI_DEV_SATAPI : Z := 4.

(** [struct hba_port], 128 bytes. *)
Definition px_cmd_base : Z := 0.
Definition px_fis_base : Z := 8.
Definition px_int_stat : Z := 16.
Definition px_cmd : Z := 24.
Definition px_task_file_data : Z := 32.
Definition px_sig : Z := 36.
Definition px_sata_stat : Z := 40.
Definition px_sata_act : Z := 52.
Definition px_cmd_issue : Z := 56.
Definition sizeof_hba_port : Z := 128.
(** [struct hba_mem]. *)
Definition hba_cap : Z := 0.
Definition hba_pts_impl : Z := 12.
Definition hba_ports : Z := 0x100.
(** [struct hba_cmd_hdr], [struct hba_cmd_tbl], [struct hba_prdt], [struct fis_reg_h2d]. *)
Definition sizeof_hba_cmd_hdr : Z := 32.
Definition hdr_prdt_len : Z := 2.
Definition hdr_cmd_base : Z := 8.
Definition sizeof_hba_cmd_tbl : Z := 144.
Definition tbl_prdts : Z := 128.
Definition sizeof_hba_prdt : Z := 16.
Definition sizeof_fis : Z := 20.
Definition sizeof_ahci_disk : Z := 48.

Section Ahci.
Context {M : Type} {D : devices} {DM : DevMem M} (patience : nat).

Abbreviation KD := (K (bus_state M disk_state)).

Definition KADDR (pa : Z) : KD Z := fun s =>
  if dm_npages (kernel s) <=? PAGE_INDEX pa then Panic else Ret (u64 (pa + KERNEL_VMA)) s.
Definition page2kva (p : Z) : KD Z := KADDR (page2pa p).

(** Bit fields of a 1-, 2- or 4-byte unit in memory. *)
Definition store_field (n : nat) (p pos width x : Z) : KD unit :=
  v <-- reading (load_le n p);; reading (store_le n p (set_field pos width x v)).

(** [memset(p, 0, n)], and the zeroed bytes of fresh pages. *)
Definition zero_bytes (p n : Z) : KD unit := reading (memset p 0 n);;; kret tt.
Definition fresh_bytes (p n : Z) : KD unit := reading (fun m => Ret tt (gset_to_gmap 0 (list_to_set (seqZ p n)) ∪ m)).

Definition px_in (port reg : Z) : KD Z := mmio_in 4 (port + reg).
Definition px_out (port reg v : Z) : KD unit := mmio_out 4 (port + reg) v.

(** ** Ports *)

(** [while (port->reg & mask) ;] *)
Fixpoint wait_clear (fuel : nat) (port reg mask : Z) : KD unit :=
  match fuel with
  | O => khang
  | S fuel => v <-- px_in port reg;; if flag v mask then wait_clear fuel port reg mask else kret tt
  end.

Definition start_cmd (port : Z) : KD unit :=
  wait_clear patience port px_cmd HBA_PxCMD_CR;;;
  v <-- px_in port px_cmd;; px_out port px_cmd (Z.lor v HBA_PxCMD_ST);;;
  v <-- px_in port px_cmd;; px_out port px_cmd (Z.lor v HBA_PxCMD_FRE).

Definition stop_cmd (port : Z) : KD unit :=
  v <-- px_in port px_cmd;; px_out port px_cmd (Z.ldiff v HBA_PxCMD_ST);;;
  v <-- px_in port px_cmd;; px_out port px_cmd (Z.ldiff v HBA_PxCMD_FRE);;;
  wait_clear patience port px_cmd (Z.lor HBA_PxCMD_FR HBA_PxCMD_CR).

(** The loop over the 32 command slots: [hdr] is not advanced. *)
Fixpoint rebase_loop (n : nat) (hdr p : Z) : KD unit :=
  match n with
  | O => kret tt
  | S n =>
      reading (store_le 2 (hdr + hdr_prdt_len) 8);;;
      pa <-- PADDR p;;
      reading (store_le 8 (hdr + hdr_cmd_base) pa);;;
      rebase_loop n hdr (p + 256)
  end.

Definition port_rebase (port : Z) : KD unit :=
  page <-- on_kernel (dm_page_alloc (Z.lor ALLOC_HUGE ALLOC_ZERO));;
  page <-- kderef page;;
  p <-- page2kva page;;
  fresh_bytes p HPAGE_SIZE;;;
  px_out port px_int_stat 0;;;
  stop_cmd port;;;
  pa <-- PADDR p;;
  mmio_out 8 (port + px_cmd_base) pa;;;
  pa <-- PADDR (p + 1024);;
  mmio_out 8 (port + px_fis_base) pa;;;
  cb <-- mmio_in 8 (port + px_cmd_base);;
  hdr <-- KADDR cb;;
  rebase_loop 32 hdr (p + 1024 + 256);;;
  start_cmd port.

Fixpoint first_clear (n : nat) (i slots : Z) : Z :=
  match n with
  | O => -1
  | S n => if negb (flag slots 1) then i else first_clear n (i + 1) (Z.shiftr slots 1)
  end.
Definition find_cmdslot (port : Z) : KD Z :=
  act <-- px_in port px_sata_act;;
  ci <-- px_in port px_cmd_issue;;
  kret (first_clear 32 0 (Z.lor act ci)).

(** ** Disks *)

Definition get_ahci (o : Z * Z) : KD ahci_disk := fun s => kderef (ahci_disks (drivers s) !! o) s.
Definition put_ahci (o : Z * Z) (d : ahci_disk) : KD unit := on_disks (fun x => with_ahci (<[o := d]> (ahci_disks x)) x).

(** [1 << slot] as an [int]: the processor shifts by the slot modulo 32. *)
Definition slot_bit (sl : Z) : Z := Z.shiftl 1 (sl mod 32).

Definition ahci_poll (o : Z * Z) : KD bool :=
  d <-- get_ahci o;;
  ci <-- px_in (port d) px_cmd_issue;;
  if negb (flag ci (slot_bit (slot d))) then kret true
  else (v <-- px_in (port d) px_int_stat;; kret (flag v HBA_PxIS_TFES)).

Fixpoint poll_loop (fuel : nat) (o : Z * Z) : KD unit :=
  match fuel with
  | O => khang
  | S fuel => r <-- ahci_poll o;; if (r : bool) then kret tt else poll_loop fuel o
  end.

(** The fields of the command header. *)
Definition set_header (hdr write prdt_len : Z) : KD unit :=
  store_field 1 hdr 0 5 (sizeof_fis / 4);;;
  store_field 1 hdr 6 1 write;;;
  store_field 1 hdr 7 1 1;;;
  store_field 1 (hdr + 1) 2 1 1;;;
  reading (store_le 2 (hdr + hdr_prdt_len) prdt_len).

(** An entry of the table of regions. *)
Definition set_prdt (prdt data_base sz : Z) : KD unit :=
  pa <-- PADDR data_base;;
  reading (store_le 8 prdt pa);;;
  store_field 4 (prdt + 12) 0 22 sz;;;
  store_field 4 (prdt + 12) 31 1 0.

Definition ahci_ident (o : Z * Z) (ident : Z) : KD Z :=
  d <-- get_ahci o;;
  let p := port d in
  sl <-- find_cmdslot p;;
  if sl <? 0 then kret (- ENOMEM) else
  cb <-- mmio_in 8 (p + px_cmd_base);;
  hdr <-- KADDR cb;;
  let hdr := hdr + sl * sizeof_hba_cmd_hdr in
  set_header hdr 0 1;;;
  tb <-- reading (load_le 8 (hdr + hdr_cmd_base));;
  tbl <-- KADDR tb;;
  zero_bytes tbl sizeof_hba_cmd_tbl;;;
  set_prdt (tbl + tbl_prdts) ident (512 - 1);;;
  reading (store_le 1 tbl FIS_TYPE_REG_H2D);;;
  store_field 1 (tbl + 1) 7 1 1;;;
  reading (store_le 1 (tbl + 2) ATA_CMD_IDENT);;;
  wait_clear patience p px_task_file_data (Z.lor ATA_STAT_BUSY ATA_STAT_DRQ);;;
  px_out p px_cmd_issue (slot_bit sl);;;
  poll_loop patience o;;;
  v <-- px_in p px_int_stat;;
  kret (if flag v HBA_PxIS_TFES then -1 else 0).

Definition ahci_stat (o : Z * Z) (stat : bool) : KD (option (Z * Z)) :=
  if stat then d <-- get_ahci o;; kret (Some (hnsectors d, hsect_size d)) else kret None.

(** The regions of 16 sectors before the last one: the number of rounds is read from the
    header in every round; every round takes 16 sectors from [left].  A round stores into 16
    further bytes of memory, so that one round per byte is enough. *)
Fixpoint prdt_loop (fuel : nat) (i hdr prdt data : Z) : KD (Z * Z * Z) :=
  n <-- reading (load_le 2 (hdr + hdr_prdt_len));;
  if i <? u64 (n - 1) then
    match fuel with
    | O => khang
    | S fuel => set_prdt prdt data (8 * 1024 - 1);;; prdt_loop fuel (i + 1) hdr (prdt + sizeof_hba_prdt) (data + 8 * 1024)
    end
  else kret (prdt, data, i).

(** The command's FIS: a request for [count] sectors from [addr] on. *)
Definition set_fis (fis command count addr : Z) : KD unit :=
  reading (store_le 1 fis FIS_TYPE_REG_H2D);;;
  store_field 1 (fis + 1) 7 1 1;;;
  reading (store_le 1 (fis + 2) command);;;
  reading (store_le 1 (fis + 4) (Z.land addr 0xff));;;
  reading (store_le 1 (fis + 5) (Z.land (Z.shiftr addr 8) 0xff));;;
  reading (store_le 1 (fis + 6) (Z.land (Z.shiftr addr 16) 0xff));;;
  reading (store_le 1 (fis + 7) (Z.shiftl 1 6));;;
  reading (store_le 1 (fis + 8) (Z.land (Z.shiftr addr 24) 0xff));;;
  reading (store_le 1 (fis + 9) (Z.land (Z.shiftr addr 32) 0xff));;;
  reading (store_le 1 (fis + 10) (Z.land (Z.shiftr addr 40) 0xff));;;
  reading (store_le 2 (fis + 12) count).

(** The header and the table of a command. *)
Definition set_command (hdr write command sect_size buf count addr : Z) : KD unit :=
  set_header hdr write ((count - 1) / 16 + 1);;;
  tb <-- reading (load_le 8 (hdr + hdr_cmd_base));;
  tbl <-- KADDR tb;;
  zero_bytes tbl sizeof_hba_cmd_tbl;;;
  r <-- (fun s => prdt_loop (rounds (ram (machine s))) 0 hdr (tbl + tbl_prdts) buf s);;
  let '(prdt, data, i) := r in
  set_prdt prdt data (u64 (count - 16 * i) / sect_size - 1);;;
  set_fis tbl command count addr.

(** What ahci_read and ahci_write have in common: issuing a request when the disk is idle,
    and collecting it when it is theirs. *)
Definition ahci_issue (o : Z * Z) (write command : Z) (st : ahci_state) (buf count addr : Z) : KD Z :=
  d <-- get_ahci o;;
  let p := port d in
  sl <-- find_cmdslot p;;
  put_ahci o (mk_ahci p (hstate d) (hnsectors d) (hsect_size d) sl);;;
  if sl <? 0 then kret (- ENOMEM) else
  if count =? 0 then kret 0 else
  cb <-- mmio_in 8 (p + px_cmd_base);;
  hdr <-- KADDR cb;;
  let hdr := hdr + sl * sizeof_hba_cmd_hdr in
  set_command hdr write command (hsect_size d) buf count addr;;;
  wait_clear patience p px_task_file_data (Z.lor ATA_STAT_BUSY ATA_STAT_DRQ);;;
  px_out p px_cmd_issue (slot_bit sl);;;
  put_ahci o (mk_ahci p st (hnsectors d) (hsect_size d) sl);;;
  kret (- EAGAIN).

Definition ahci_collect (o : Z * Z) (count : Z) : KD Z :=
  d <-- get_ahci o;;
  r <-- ahci_poll o;;
  if negb r then kret (- EAGAIN) else
  put_ahci o (mk_ahci (port d) AHCI_IDLE (hnsectors d) (hsect_size d) (slot d));;;
  v <-- px_in (port d) px_int_stat;;
  if flag v HBA_PxIS_TFES then kret 0 else kret (s64 (u64 (count * hsect_size d))).

Definition ahci_read (o : Z * Z) (buf count addr : Z) : KD Z :=
  d <-- get_ahci o;;
  match hstate d with
  | AHCI_IDLE => ahci_issue o 0 ATA_CMD_READ_DMA_EX AHCI_READ buf count addr
  | AHCI_READ => ahci_collect o count
  | AHCI_WRITE => kret (- EAGAIN)
  end.
Definition ahci_write (o : Z * Z) (buf count addr : Z) : KD Z :=
  d <-- get_ahci o;;
  match hstate d with
  | AHCI_IDLE => ahci_issue o 1 ATA_CMD_WRITE_DMA_EX AHCI_WRITE buf count addr
  | AHCI_READ => kret (- EAGAIN)
  | AHCI_WRITE => ahci_collect o count
  end.

(** ** Finding the disks *)

Definition check_type (port : Z) : KD Z :=
  ssts <-- px_in port px_sata_stat;;
  let ipm := Z.land (Z.shiftr ssts 8) 0x0F in
  let det := Z.land ssts 0x0F in
  if negb (det =? HBA_PORT_DET_PRESENT) then kret AHCI_DEV_NULL
  else if negb (ipm =? HBA_PORT_IPM_ACTIVE) then kret AHCI_DEV_NULL
  else
    sig <-- px_in port px_sig;;
    kret (if sig =? SATA_SIG_ATAPI then AHCI_DEV_SATAPI
          else if sig =? SATA_SIG_SEMB then AHCI_DEV_SEMB
          else if sig =? SATA_SIG_PM then AHCI_DEV_PM
          else AHCI_DEV_SATA).

Definition ahci_enum_device (abar port drive : Z) : KD unit :=
  impl <-- mmio_in 4 (abar + hba_pts_impl);;
  if negb (flag impl (Z.shiftl 1 drive)) then kret tt else
  ty <-- check_type port;;
  if ty =? AHCI_DEV_NULL then kret tt else
  port_rebase port;;;
  s <-- kget;;
  if ndisks (drivers s) >=? MAX_DISKS then kret tt else
  o <-- on_kernel (dm_kmalloc sizeof_ahci_disk);;
  match o with
  | None => kret tt
  | Some o =>
      put_ahci o (mk_ahci port AHCI_IDLE 0 512 (-1));;;
      page <-- on_kernel (dm_page_alloc ALLOC_ZERO);;
      page <-- kderef page;;
      ident <-- page2kva page;;
      fresh_bytes ident PAGE_SIZE;;;
      ahci_ident o ident;;;
      max_lba <-- reading (load_le 4 (ident + ident_max_lba));;
      d <-- get_ahci o;;
      put_ahci o (mk_ahci (Ata.port d) (hstate d) max_lba (hsect_size d) (slot d));;;
      on_kernel (dm_page_free page);;;
      on_disks (fun x => with_disks (disks x ++ [Ahci o]) x)
  end.

Fixpoint ahci_enum_loop (n : nat) (abar i : Z) : KD unit :=
  match n with
  | O => kret tt
  | S n => ahci_enum_device abar (abar + hba_ports + i * sizeof_hba_port) i;;; ahci_enum_loop n abar (i + 1)
  end.

Definition ahci_probe (dev : Z * Z) : KD Z :=
  r <-- pci_read_bar true dev 5;;
  abar <-- on_kernel (dm_mmio_map_region (fst r) (default 0 (snd r)));;
  if abar =? 0 then kret (-1) else
  mmio_in 4 (abar + hba_cap);;;
  ahci_enum_loop 32 abar 0;;;
  kret 0.

Definition ahci_driver : pci_driver M disk_state := mk_driver [PCI_MATCH_CLASS 1 6; id_end] ahci_probe.

(** ** disk.c: the operations of a disk, and the drivers of pci.c *)

Definition disk_poll (d : disk) : KD bool := match d with Ata o => ata_poll o | Ahci o => ahci_poll o end.
Definition disk_stat (d : disk) (stat : bool) : KD (option (Z * Z)) :=
  match d with Ata o => ata_stat o stat | Ahci o => ahci_stat o stat end.
Definition disk_read (d : disk) (buf count addr : Z) : KD Z :=
  match d with Ata o => ata_read patience o buf count addr | Ahci o => ahci_read o buf count addr end.
Definition disk_write (d : disk) (buf count addr : Z) : KD Z :=
  match d with Ata o => ata_write patience o buf count addr | Ahci o => ahci_write o buf count addr end.

Definition pci_drivers : list (pci_driver M disk_state) := [ahci_driver; ata_driver patience].

End Ahci.
