(* ===== verification/AhciThm.v ===== *)
(** * Theorems on AHCI disks

    The request the adapter finds in memory when the driver issues a command, and what
    setting a port up leaves in its command list. *)

From Stdlib Require Import ZArith Lia.
From stdpp Require Import strings base gmap fin_maps list.
From S2P Require Import Prelude Strings Printfmt MemState Devices Acpi DevMem Pci PciThm Ata AtaThm Ahci.

#[local] Open Scope Z_scope.
#[local] Open Scope kernel_scope.

(** ** Bit fields *)

Definition field (pos width v : Z) : Z := Z.land (Z.shiftr v pos) (Z.ones width).

Lemma field_testbit pos width v i : 0 <= pos -> 0 <= width -> 0 <= i ->
  Z.testbit (field pos width v) i = Z.testbit v (pos + i) && (i <? width).
Proof.
  intros Hp Hw Hi. unfold field. rewrite Z.land_spec, Z.shiftr_spec, (Z.add_comm i) by done. f_equal.
  destruct (Z.ltb_spec i width); [by apply Z.ones_spec_low|by apply Z.ones_spec_high].
Qed.

Lemma set_field_testbit pos width x v i : 0 <= pos -> 0 <= width -> 0 <= i ->
  Z.testbit (set_field pos width x v) i = if (pos <=? i) && (i <? pos + width) then Z.testbit x (i - pos) else Z.testbit v i.
Proof.
  intros Hp Hw Hi. unfold set_field. replace (2 ^ width - 1) with (Z.ones width) by (rewrite Z.ones_equiv; lia).
  rewrite Z.lor_spec, Z.ldiff_spec. destruct (Z.leb_spec pos i) as [Hl|Hl]; cbn [andb].
  - rewrite !Z.shiftl_spec by done. destruct (Z.ltb_spec i (pos + width)).
    + by rewrite Z.ones_spec_low, andb_false_r, Z.mod_pow2_bits_low by lia.
    + by rewrite Z.ones_spec_high, andb_true_r, Z.mod_pow2_bits_high, orb_false_r by lia.
  - by rewrite !Z.shiftl_spec_low, andb_true_r, orb_false_r by lia.
Qed.

(** The field set, and any other, also in a unit of [n] bits that is stored. *)
Lemma field_set_eq pos width x v : 0 <= pos -> 0 <= width -> field pos width (set_field pos width x v) = x mod 2 ^ width.
Proof.
  intros Hp Hw. apply Z.bits_inj'. intros i Hi. rewrite field_testbit, set_field_testbit, <- Z.land_ones, Z.land_spec by lia.
  replace (pos + i - pos) with i by lia. destruct (Z.ltb_spec i width).
  - rewrite (proj2 (Z.leb_le pos (pos + i))), (proj2 (Z.ltb_lt (pos + i) (pos + width))), Z.ones_spec_low by lia. done.
  - by rewrite Z.ones_spec_high, !andb_false_r by lia.
Qed.

Lemma field_set_ne pos width x v pos' width' : 0 <= pos -> 0 <= width -> 0 <= pos' -> 0 <= width' ->
  pos + width <= pos' \/ pos' + width' <= pos -> field pos' width' (set_field pos width x v) = field pos' width' v.
Proof.
  intros Hp Hw Hp' Hw' Hd. apply Z.bits_inj'. intros i Hi. rewrite !field_testbit, set_field_testbit by lia.
  destruct (Z.ltb_spec i width'); [|by rewrite !andb_false_r]. rewrite !andb_true_r.
  destruct (Z.leb_spec pos (pos' + i)), (Z.ltb_spec (pos' + i) (pos + width)); cbn [andb]; try done. lia.
Qed.

Lemma field_mod pos width v n : 0 <= pos -> 0 <= width -> pos + width <= n -> field pos width (v mod 2 ^ n) = field pos width v.
Proof.
  intros Hp Hw Hn. apply Z.bits_inj'. intros i Hi. rewrite !field_testbit by lia.
  destruct (Z.ltb_spec i width); [|by rewrite !andb_false_r]. by rewrite Z.mod_pow2_bits_low by lia.
Qed.

Lemma le_combine_split_mod n v : le_combine (le_split n v) = v mod 2 ^ (8 * Z.of_nat n).
Proof.
  revert v. induction n as [|n IH]; intros v; cbn [le_split le_combine]; [by rewrite Z.mod_1_r|].
  rewrite IH. replace (8 * Z.of_nat (S n)) with (8 + 8 * Z.of_nat n) by lia. rewrite Z.pow_add_r by lia.
  change (2 ^ 8) with 256. rewrite Z.rem_mul_r by lia. done.
Qed.

(** ** Structures in memory

    A structure is a list of bytes, of which a store replaces a part. *)

Definition splice (i : nat) (new bs : list Z) : list Z := take i bs ++ new ++ drop (i + length new) bs.

Definition sub (i n : nat) (bs : list Z) : list Z := take n (drop i bs).

Lemma splice_length i new bs : (i + length new <= length bs)%nat -> length (splice i new bs) = length bs.
Proof. intros Hi. unfold splice. rewrite !length_app, length_take, length_drop. lia. Qed.
Ltac len := repeat first [rewrite splice_length|rewrite le_split_length]; lia.
Lemma sub_splice i n new bs : (i + length new <= length bs)%nat -> n = length new -> sub i n (splice i new bs) = new.
Proof.
  intros Hi ->. unfold sub, splice. rewrite drop_app_length' by (rewrite length_take; lia). by rewrite take_app_length.
Qed.
Lemma sub_splice_after i n j new bs : (i + n <= j)%nat -> (j <= length bs)%nat -> sub i n (splice j new bs) = sub i n bs.
Proof.
  intros Hi Hj. unfold sub, splice. rewrite drop_app_le by (rewrite length_take; lia).
  rewrite take_app_le by (rewrite length_drop, length_take; lia). rewrite <- (take_drop j bs) at 2.
  rewrite drop_app_le by (rewrite length_take; lia). by rewrite take_app_le by (rewrite length_drop, length_take; lia).
Qed.

Lemma bytes_at_sub m p i n bs : bytes_at m p bs -> bytes_at m (p + Z.of_nat i) (sub i n bs).
Proof. apply bytes_at_slice. Qed.

Lemma bytes_at_same m m' p bs : (forall a, p <= a < p + Z.of_nat (length bs) -> m' !! a = m !! a) -> bytes_at m p bs -> bytes_at m' p bs.
Proof.
  revert p. induction bs as [|b bs IH]; intros p Hs; cbn [bytes_at length] in *; [done|]. intros [Hb Hr].
  split; [by rewrite Hs by lia|]. apply IH; [|done]. intros a Ha. apply Hs. lia.
Qed.

Lemma bytes_at_nth m p bs i b : bytes_at m p bs -> bs !! i = Some b -> m !! (p + Z.of_nat i) = Some b.
Proof.
  revert p i. induction bs as [|c bs IH]; intros p [|i] Hb Hi; [done..| |]; destruct Hb as [Hb Hr].
  - injection Hi as <-. by rewrite Z.add_0_r.
  - replace (p + Z.of_nat (S i)) with (p + 1 + Z.of_nat i) by lia. by apply IH.
Qed.

Lemma bytes_at_splice m p bs i new : bytes_at m p bs -> (i + length new <= length bs)%nat ->
  bytes_at (write_bytes m (p + Z.of_nat i) new) p (splice i new bs).
Proof.
  intros Hb Hi. rewrite <- (take_drop i bs) in Hb. rewrite <- (take_drop (length new) (drop i bs)) in Hb.
  apply bytes_at_app in Hb as [H1 Hb]. apply bytes_at_app in Hb as [_ H3]. rewrite drop_drop in H3.
  rewrite !length_take, ?length_drop in *. unfold splice. rewrite !bytes_at_app. rewrite !length_take.
  replace (i `min` length bs)%nat with i in * by lia. replace (length new `min` (length bs - i))%nat with (length new) in * by lia.
  split; [|split; [apply write_bytes_at|]].
  - eapply bytes_at_same; [|exact H1]. intros a Ha. rewrite length_take in Ha. rewrite write_bytes_lookup, decide_False by lia. done.
  - eapply bytes_at_same; [|exact H3]. intros a Ha. rewrite write_bytes_lookup, decide_False by lia. done.
Qed.

Lemma bytes_at_write m p bs q cs : bytes_at m p bs -> q + Z.of_nat (length cs) <= p \/ p + Z.of_nat (length bs) <= q ->
  bytes_at (write_bytes m q cs) p bs.
Proof. intros Hb Hd. eapply bytes_at_same; [|exact Hb]. intros a Ha. rewrite write_bytes_lookup, decide_False by lia. done. Qed.

Lemma bytes_at_mapped m p bs : bytes_at m p bs -> mapped m p (Z.of_nat (length bs)).
Proof. intros Hb a Ha. by eapply bytes_at_lookup. Qed.

(** Nothing outside [p, p + n) has changed. *)
Definition outside (p n : Z) (m m' : mem) : Prop := forall a, a < p \/ p + n <= a -> m' !! a = m !! a.

Lemma outside_write p n m q cs : p <= q -> q + Z.of_nat (length cs) <= p + n -> outside p n m (write_bytes m q cs).
Proof. intros H1 H2 a Ha. by rewrite write_bytes_lookup, decide_False by lia. Qed.
Lemma outside_trans p n m1 m2 m3 : outside p n m1 m2 -> outside p n m2 m3 -> outside p n m1 m3.
Proof. intros H1 H2 a Ha. by rewrite H2, H1. Qed.
Lemma outside_within p n p' n' m m' : p <= p' -> p' + n' <= p + n -> outside p' n' m m' -> outside p n m m'.
Proof. intros H1 H2 Ho a Ha. apply Ho. lia. Qed.
Lemma outside_bytes p n m m' q bs : outside p n m m' -> q + Z.of_nat (length bs) <= p \/ p + n <= q -> bytes_at m q bs -> bytes_at m' q bs.
Proof. intros Ho Hd. apply bytes_at_same. intros a Ha. apply Ho. lia. Qed.
Lemma outside_refl p n m : outside p n m m.
Proof. done. Qed.

(** ** What the driver stores *)

Section Ahci.
Context {M : Type} {D : devices} {DM : DevMem M} (patience : nat).
Implicit Types (s : bus_state M disk_state) (bs : list Z).
Abbreviation KD := (K (bus_state M disk_state)).

Definition ram_to (m : mem) s : bus_state M disk_state := with_machine (mk_hw m (trace (machine s))) s.

(** [k] changes a structure at [p] from [bs] to [bs'] and nothing else. *)
Definition stores (k : KD unit) (p : Z) bs bs' : Prop := length bs' = length bs /\ forall s, bytes_at (ram (machine s)) p bs ->
  exists m, k s = Ret tt (ram_to m s) /\ bytes_at m p bs' /\ outside p (Z.of_nat (length bs)) (ram (machine s)) m.

Lemma stores_bind k1 k2 p bs bs1 bs2 : stores k1 p bs bs1 -> stores k2 p bs1 bs2 -> stores (k1;;; k2) p bs bs2.
Proof.
  intros [L1 H1] [L2 H2]. split; [congruence|]. intros s Hb. destruct (H1 s Hb) as (m1 & E1 & Hb1 & Ho1).
  destruct (H2 (ram_to m1 s) Hb1) as (m2 & E2 & Hb2 & Ho2). exists m2. rewrite (krun _ _ _ _ _ E1). split; [exact E2|].
  split; [done|]. eapply outside_trans; [exact Ho1|]. by rewrite <- L1.
Qed.

Lemma stores_store n q v p i bs bs' : q = p + Z.of_nat i -> (i + n <= length bs)%nat -> splice i (le_split n v) bs = bs' ->
  stores (reading (store_le n q v)) p bs bs'.
Proof.
  intros -> Hi <-. split; [by apply splice_length; rewrite le_split_length|]. intros s Hb.
  exists (write_bytes (ram (machine s)) (p + Z.of_nat i) (le_split n v)). split.
  - unfold reading, on_machine, store_le, ram_to. erewrite on_ram_run; [reflexivity|]. apply write_unit_ok; [|apply le_split_range].
    rewrite le_split_length. intros a Ha. apply (bytes_at_mapped _ _ _ Hb). lia.
  - split; [by apply bytes_at_splice; rewrite ?le_split_length|]. apply outside_write; rewrite ?le_split_length; lia.
Qed.

Lemma load_field_run n q p i bs s : bytes_at (ram (machine s)) p bs -> q = p + Z.of_nat i -> (i + n <= length bs)%nat ->
  reading (load_le n q) s = Ret (le_combine (sub i n bs)) s.
Proof.
  intros Hb -> Hi. unfold reading, on_machine. rewrite (on_ram_run _ _ (le_combine (sub i n bs)) (ram (machine s))); [by destruct s as [[] ? ? ?]|].
  apply load_le_run; [unfold sub; rewrite length_take, length_drop; lia|]. by apply bytes_at_sub.
Qed.

Lemma stores_field n q pos width x p i bs bs' : q = p + Z.of_nat i -> (i + n <= length bs)%nat ->
  splice i (le_split n (set_field pos width x (le_combine (sub i n bs)))) bs = bs' ->
  stores (store_field n q pos width x) p bs bs'.
Proof.
  intros Hq Hi Hs. unfold store_field.
  destruct (stores_store n q (set_field pos width x (le_combine (sub i n bs))) p i bs bs' Hq Hi Hs) as [Hl H].
  split; [done|]. intros s Hb. rewrite (krun _ _ _ _ _ (load_field_run n q p i bs s Hb Hq Hi)). by apply H.
Qed.

Lemma stores_zero p n bs : length bs = n -> stores (zero_bytes p (Z.of_nat n)) p bs (replicate n 0).
Proof.
  intros <-. split; [by rewrite length_replicate|]. intros s Hb.
  destruct (memset_correct (ram (machine s)) p 0 (Z.of_nat (length bs)) ltac:(lia) (bytes_at_mapped _ _ _ Hb)) as (m & E & Hm).
  exists m. split; [|split].
  - unfold zero_bytes, reading, on_machine. by erewrite krun by (erewrite on_ram_run; [reflexivity|exact E]).
  - assert (forall k q, (forall a, q <= a < q + Z.of_nat k -> m !! a = Some 0) -> bytes_at m q (replicate k 0)) as Hr.
    { induction k as [|k IH]; intros q Hq; [done|]. split; [apply Hq; lia|]. apply IH. intros a Ha. apply Hq. lia. }
    apply Hr. intros a Ha. rewrite Hm, decide_True by done. done.
  - intros a Ha. by rewrite Hm, decide_False by lia.
Qed.

(** The next store, at the offset [i] of the structure. *)
Ltac put i :=
  lazymatch goal with |- stores (kbind _ _) _ _ _ => eapply stores_bind; [put i|] | _ =>
    first [apply (stores_store _ _ _ _ i); [first [lia|reflexivity]|cbn; lia|reflexivity] | apply (stores_field _ _ _ _ _ _ i); [first [lia|reflexivity]|cbn; lia|reflexivity]] end.

(** *** The FIS *)

Definition fis_bytes (command count addr : Z) : list Z :=
  [FIS_TYPE_REG_H2D; 128; u8 command; 0; u8 (Z.land addr 0xff); u8 (Z.land (Z.shiftr addr 8) 0xff); u8 (Z.land (Z.shiftr addr 16) 0xff); 64;
   u8 (Z.land (Z.shiftr addr 24) 0xff); u8 (Z.land (Z.shiftr addr 32) 0xff); u8 (Z.land (Z.shiftr addr 40) 0xff); 0;
   u8 count; u8 (count / 256); 0; 0; 0; 0; 0; 0].

Lemma set_fis_ok fis command count addr : stores (set_fis fis command count addr) fis (replicate 20 0) (fis_bytes command count addr).
Proof.
  unfold set_fis, fis_bytes. put 0%nat. put 1%nat. put 2%nat. put 4%nat. put 5%nat. put 6%nat. put 7%nat. put 8%nat. put 9%nat. put 10%nat. put 12%nat.
Qed.

(** What the disk reads from it: command, number of sectors, address of the first. *)
Definition fis_request (bs : list Z) : Z * Z * Z :=
  let b i := default 0 (bs !! i) in
  (b 2%nat, b 12%nat + 2 ^ 8 * b 13%nat,
   b 4%nat + 2 ^ 8 * b 5%nat + 2 ^ 16 * b 6%nat + 2 ^ 24 * b 8%nat + 2 ^ 32 * b 9%nat + 2 ^ 40 * b 10%nat).

Lemma mod_byte x k : Z.land (Z.shiftr x k) 0xff mod 2 ^ 8 = x / 2 ^ k mod 2 ^ 8 \/ k < 0.
Proof.
  destruct (Z.lt_ge_cases k 0); [by right|]. left. change 0xff with (2 ^ 8 - 1). rewrite land_mod, Z.shiftr_div_pow2 by done. by rewrite Z.mod_mod.
Qed.

Lemma fis_request_bytes command count addr :
  fis_request (fis_bytes command count addr) = (u8 command, u16 count, addr mod 2 ^ 48).
Proof.
  unfold fis_request, fis_bytes. cbn [lookup list_lookup default from_option id]. unfold u8, u16.
  assert (Z.land addr 0xff mod 2 ^ 8 = addr mod 2 ^ 8) as ->.
  { change 0xff with (2 ^ 8 - 1). rewrite land_mod by done. by rewrite Z.mod_mod. }
  assert (forall k, 0 <= k -> Z.land (Z.shiftr addr k) 0xff mod 2 ^ 8 = addr / 2 ^ k mod 2 ^ 8) as Hk by (intros; destruct (mod_byte addr k); [done|lia]).
  rewrite !Hk by lia. f_equal; [f_equal|].
  - change (2 ^ 16) with (2 ^ 8 * 2 ^ 8). rewrite (Z.rem_mul_r count) by lia. done.
  - change (2 ^ 48) with (2 ^ 8 * (2 ^ 8 * (2 ^ 8 * (2 ^ 8 * (2 ^ 8 * 2 ^ 8))))).
    rewrite !Z.rem_mul_r, !Z.div_div by lia. change (2 ^ 8 * 2 ^ 8) with (2 ^ 16). change (2 ^ 8 * 2 ^ 16) with (2 ^ 24).
    change (2 ^ 16 * 2 ^ 8) with (2 ^ 24). change (2 ^ 24 * 2 ^ 8) with (2 ^ 32). change (2 ^ 32 * 2 ^ 8) with (2 ^ 40). lia.
Qed.

(** *** The command header *)

Record header := mk_header { h_fis_len : Z; h_write : Z; h_prefetchable : Z; h_clear_busy : Z; h_prdt_len : Z }.
Definition header_of (bs : list Z) : header :=
  let b i := default 0 (bs !! i) in
  mk_header (field 0 5 (b 0%nat)) (field 6 1 (b 0%nat)) (field 7 1 (b 0%nat)) (field 2 1 (b 1%nat)) (b 2%nat + 256 * b 3%nat).

Lemma set_header_ok hdr write n bs : length bs = 4%nat -> 0 <= write < 2 -> 0 <= n < 2 ^ 16 ->
  exists bs', stores (set_header hdr write n) hdr bs bs' /\ header_of bs' = mk_header 5 write 1 1 n /\ drop 2 bs' = le_split 2 n.
Proof.
  intros Hl Hw Hn. destruct bs as [|b0 [|b1 [|b2 [|b3 [|]]]]]; try discriminate. eexists. split; [|split].
  - unfold set_header. put 0%nat. put 0%nat. put 0%nat. put 1%nat. put 2%nat.
  - unfold header_of. cbn [sub splice take drop app length le_split Nat.add lookup list_lookup default from_option id le_combine]. rewrite !Z.mul_0_r, !Z.add_0_r. unfold u8.
    repeat first [rewrite field_mod by lia|rewrite field_set_eq by lia|rewrite field_set_ne by lia].
    f_equal; [by apply Z.mod_small|]. change 256 with (2 ^ 8). rewrite <- Z.rem_mul_r by lia. by apply Z.mod_small.
  - reflexivity.
Qed.

(** *** The table of regions *)

(** The region an entry describes: its address and its length. *)
Definition region (m : mem) (p : Z) : option (Z * Z) :=
  (fun bs => (le_combine (sub 0 8 bs), field 0 22 (le_combine (sub 12 4 bs)) + 1)) <$> peek m 16 p.

Lemma region_bytes m p bs : length bs = 16%nat -> bytes_at m p bs ->
  region m p = Some (le_combine (sub 0 8 bs), field 0 22 (le_combine (sub 12 4 bs)) + 1).
Proof. intros Hl Hb. unfold region. by rewrite (proj2 (peek_bytes_at m 16 p bs)). Qed.

Lemma region_outside m m' p q n r : outside q n m m' -> p + 16 <= q \/ q + n <= p -> region m p = Some r -> region m' p = Some r.
Proof.
  intros Ho Hd. unfold region at 1. destruct (peek m 16 p) as [bs|] eqn:Hp; [|done]. intros [= <-].
  apply peek_bytes_at in Hp as [Hl Hb]. apply region_bytes; [done|]. apply (outside_bytes q n m); [done|lia|done].
Qed.

Lemma PADDR_run {S} va (s : S) : KERNEL_VMA <= va -> PADDR va s = Ret (u64 (va - KERNEL_VMA)) s.
Proof. intros Hva. unfold PADDR. by destruct (Z.ltb_spec va KERNEL_VMA); [lia|]. Qed.

Lemma le_combine_8 v : 0 <= v < 2 ^ 64 -> le_combine (le_split 8 v) = v.
Proof. intros Hv. by apply le_combine_split. Qed.

(** An entry, whatever its bytes were. *)
Lemma set_prdt_ok prdt data sz s : KERNEL_VMA <= data -> mapped (ram (machine s)) prdt 16 ->
  exists m, set_prdt prdt data sz s = Ret tt (ram_to m s) /\ outside prdt 16 (ram (machine s)) m /\
    region m prdt = Some (u64 (data - KERNEL_VMA), sz mod 2 ^ 22 + 1).
Proof.
  intros Hd Hm. destruct (mapped_bytes _ 16 prdt Hm) as (bs & Hb & Hl).
  set (pa := u64 (data - KERNEL_VMA)).
  assert (exists bs', stores (reading (store_le 8 prdt pa);;; store_field 4 (prdt + 12) 0 22 sz;;; store_field 4 (prdt + 12) 31 1 0) prdt bs bs' /\
    le_combine (sub 0 8 bs') = pa /\ field 0 22 (le_combine (sub 12 4 bs')) = sz mod 2 ^ 22) as (bs' & [Hl' Hs] & Ha & Hf).
  { eexists. split; [|split].
    - eapply stores_bind; [apply (stores_store _ _ _ _ 0); [lia|cbn; lia|reflexivity]|].
      eapply stores_bind; (apply (stores_field _ _ _ _ _ _ 12); [done|len|reflexivity]).
    - rewrite !sub_splice_after, sub_splice by len.
      apply le_combine_8. apply Z.mod_pos_bound. lia.
    - rewrite !sub_splice, !le_combine_split_mod by len.
      change (8 * Z.of_nat 4) with 32. by rewrite field_mod, field_set_ne, field_mod, field_set_eq by lia. }
  destruct (Hs s Hb) as (m & E & Hb' & Ho). exists m. unfold set_prdt. rewrite (krun _ _ _ _ _ (PADDR_run data s Hd)). split; [exact E|].
  rewrite Hl in *. split; [exact Ho|]. rewrite (region_bytes m prdt bs' Hl' Hb'). by rewrite Ha, Hf.
Qed.

(** The first [n] entries of a table, and where they put the [j]-th byte of a transfer. *)
Fixpoint regions (m : mem) (p : Z) (n : nat) : option (list (Z * Z)) :=
  match n with
  | O => Some []
  | S n => match region m p, regions m (p + 16) n with Some r, Some rs => Some (r :: rs) | _, _ => None end
  end.
Fixpoint place (rs : list (Z * Z)) (j : Z) : option Z :=
  match rs with
  | [] => None
  | (a, n) :: rs => if j <? n then Some (a + j) else place rs (j - n)
  end.

Lemma regions_ok m p n f : (forall j, (j < n)%nat -> region m (p + 16 * Z.of_nat j) = Some (f j)) -> regions m p n = Some (f <$> seq 0 n).
Proof.
  revert p f. induction n as [|n IH]; intros p f Hr; [done|]. cbn [regions seq fmap list_fmap].
  pose proof (Hr 0%nat ltac:(lia)) as H0. rewrite Z.mul_0_r, Z.add_0_r in H0. rewrite H0, (IH _ (fun j => f (S j))).
  - rewrite <- fmap_S_seq, <- list_fmap_compose. done.
  - intros j Hj. rewrite <- Hr by lia. f_equal. lia.
Qed.

Lemma regions_outside m m' q k n : outside q k m m' -> forall p rs, p + 16 * Z.of_nat n <= q \/ q + k <= p ->
  regions m p n = Some rs -> regions m' p n = Some rs.
Proof.
  intros Ho. induction n as [|n IH]; intros p rs Hd; cbn [regions]; [done|].
  destruct (region m p) as [r|] eqn:Hr; [|done]. rewrite (region_outside m m' p q k r Ho ltac:(lia) Hr).
  destruct (regions m (p + 16) n) as [rs'|] eqn:Hrs; [|done]. by rewrite (IH (p + 16) rs' ltac:(lia) Hrs).
Qed.

(** Regions of 8 KB that follow each other, and a last one. *)
Definition gather (pa : Z) (k : nat) (last : Z) (i : nat) : Z * Z := (pa + 8192 * Z.of_nat i, if (i <? k)%nat then 8192 else last).

Lemma place_gather pa k last j : 0 <= j < 8192 * Z.of_nat k + last -> place (gather pa k last <$> seq 0 (S k)) j = Some (pa + j).
Proof.
  assert (forall n i j, (i + n = k)%nat -> 0 <= j < 8192 * Z.of_nat n + last ->
    place (gather pa k last <$> seq i (S n)) j = Some (pa + 8192 * Z.of_nat i + j)) as H.
  { induction n as [|n IH]; intros i l Hi Hl; rewrite <- cons_seq, fmap_cons; cbn [place]; unfold gather at 1.
    - destruct (Nat.ltb_spec i k); [lia|]. by rewrite (proj2 (Z.ltb_lt l last)) by lia.
    - destruct (Nat.ltb_spec i k); [|lia]. destruct (Z.ltb_spec l 8192); [done|].
      rewrite (IH (S i)) by lia. f_equal. lia. }
  intros Hj. rewrite H by lia. f_equal. lia.
Qed.

(** The rounds of the loop. *)
Lemma prdt_loop_ok hdr n k : forall i fuel prdt data s,
  0 <= i -> i + Z.of_nat k = n - 1 -> n < 2 ^ 16 -> (k <= fuel)%nat -> KERNEL_VMA <= data ->
  bytes_at (ram (machine s)) (hdr + hdr_prdt_len) (le_split 2 n) -> mapped (ram (machine s)) prdt (16 * Z.of_nat k) ->
  hdr + 4 <= prdt \/ prdt + 16 * Z.of_nat k <= hdr + 2 ->
  exists m, prdt_loop fuel i hdr prdt data s = Ret (prdt + 16 * Z.of_nat k, data + 8192 * Z.of_nat k, n - 1) (ram_to m s) /\
    outside prdt (16 * Z.of_nat k) (ram (machine s)) m /\
    forall j, (j < k)%nat -> region m (prdt + 16 * Z.of_nat j) = Some (u64 (data + 8192 * Z.of_nat j - KERNEL_VMA), 8192).
Proof.
  assert (forall s, bytes_at (ram (machine s)) (hdr + hdr_prdt_len) (le_split 2 n) -> 0 < n < 2 ^ 16 ->
    reading (load_le 2 (hdr + hdr_prdt_len)) s = Ret n s) as Hload.
  { intros s Hb Hn. rewrite (load_field_run 2 _ (hdr + hdr_prdt_len) 0 (le_split 2 n) s Hb) by (rewrite ?le_split_length; lia).
    unfold sub. rewrite drop_0, take_ge, le_combine_split by (rewrite ?le_split_length; lia). done. }
  induction k as [|k IH]; intros i fuel prdt data s Hi Hk Hn Hf Hd Hb Hm Hdis.
  - exists (ram (machine s)). rewrite Z.mul_0_r, !Z.add_0_r. split; [|split; [done|lia]].
    destruct fuel as [|fuel]; cbn [prdt_loop]; rewrite (krun _ _ _ _ _ (Hload s Hb ltac:(lia)));
      (destruct (Z.ltb_spec i (u64 (n - 1))) as [Hlt|_]; [rewrite u64_id in Hlt by lia; lia|]);
      (destruct s as [[] ? ? ?]; unfold kret, ram_to; cbn; repeat f_equal; lia).
  - destruct fuel as [|fuel]; [lia|]. cbn [prdt_loop]. rewrite (krun _ _ _ _ _ (Hload s Hb ltac:(lia))).
    destruct (Z.ltb_spec i (u64 (n - 1))) as [_|Hge]; [|rewrite u64_id in Hge by lia; lia].
    destruct (set_prdt_ok prdt data (8 * 1024 - 1) s Hd) as (m1 & E1 & Ho1 & Hr1); [intros a Ha; apply Hm; lia|].
    rewrite (krun _ _ _ _ _ E1). destruct (IH (i + 1) fuel (prdt + 16) (data + 8 * 1024) (ram_to m1 s)) as (m2 & E2 & Ho2 & Hr2); try lia.
    + cbn [machine ram ram_to with_machine]. eapply outside_bytes; [exact Ho1| |exact Hb]. rewrite le_split_length. unfold hdr_prdt_len. lia.
    + cbn [machine ram ram_to with_machine]. intros a Ha. rewrite Ho1 by lia. apply Hm. lia.
    + exists m2. unfold sizeof_hba_prdt. rewrite E2. split; [|split].
      * replace (prdt + 16 + 16 * Z.of_nat k) with (prdt + 16 * Z.of_nat (S k)) by lia.
        by replace (data + 8 * 1024 + 8192 * Z.of_nat k) with (data + 8192 * Z.of_nat (S k)) by lia.
      * eapply outside_trans; [eapply outside_within; [| |exact Ho1]; lia|]. eapply outside_within; [| |exact Ho2]; lia.
      * intros [|j] Hj.
        -- rewrite !Z.mul_0_r, !Z.add_0_r. by apply (region_outside _ _ _ _ _ _ Ho2); [lia|].
        -- replace (prdt + 16 * Z.of_nat (S j)) with (prdt + 16 + 16 * Z.of_nat j) by lia. rewrite Hr2 by lia. do 2 f_equal. f_equal. lia.
Qed.

(** *** The command *)

(** The adapter finds at [hdr] and [tbl] the command to move [count] sectors from [addr] on
    and the memory from [buf] on. *)
Definition command_at (m : mem) (hdr tbl write command buf count addr : Z) : Prop :=
  let n := (count - 1) / 16 + 1 in
  (exists bs, bytes_at m hdr bs /\ header_of bs = mk_header 5 write 1 1 n) /\
  (exists fis, bytes_at m tbl fis /\ fis_request fis = (command, count, addr mod 2 ^ 48)) /\
  exists rs, regions m (tbl + tbl_prdts) (Z.to_nat n) = Some rs /\ forall j, 0 <= j < 512 * count -> place rs j = Some (buf - KERNEL_VMA + j).

(** The entries after the loop and the last one. *)
Lemma entries_ok prdt hdr n buf sz s : let k := Z.to_nat (n - 1) in
  1 <= n <= 8 -> KERNEL_VMA <= buf -> buf + 8192 * (n - 1) < 2 ^ 64 -> bytes_at (ram (machine s)) (hdr + hdr_prdt_len) (le_split 2 n) ->
  mapped (ram (machine s)) prdt (16 * n) -> hdr + 4 <= prdt \/ prdt + 16 * n <= hdr + 2 -> (k <= rounds (ram (machine s)))%nat ->
  exists m, (r <-- (fun s => prdt_loop (rounds (ram (machine s))) 0 hdr prdt buf s);;
             let '(prdt, data, i) := r in set_prdt prdt data (sz i)) s = Ret tt (ram_to m s) /\
    outside prdt (16 * n) (ram (machine s)) m /\
    regions m prdt (Z.to_nat n) = Some (gather (buf - KERNEL_VMA) k (sz (n - 1) mod 2 ^ 22 + 1) <$> seq 0 (S k)).
Proof.
  intros k Hn Hbuf Hend Hlen Hm Hdis Hf. assert (0 < KERNEL_VMA) by done. assert (Z.of_nat k = n - 1) by (unfold k; lia).
  destruct (prdt_loop_ok hdr n k 0 (rounds (ram (machine s))) prdt buf s) as (m1 & E1 & Ho1 & Hr1); try lia; [done|intros a Ha; apply Hm; lia|].
  destruct (set_prdt_ok (prdt + 16 * Z.of_nat k) (buf + 8192 * Z.of_nat k) (sz (n - 1)) (ram_to m1 s)) as (m2 & E2 & Ho2 & Hr2); [lia| |].
  { cbn [machine ram ram_to with_machine]. intros a Ha. rewrite Ho1 by lia. apply Hm. lia. }
  exists m2. rewrite (krun (fun s => prdt_loop (rounds (ram (machine s))) 0 hdr prdt buf s) _ _ _ _ E1). split; [exact E2|]. split.
  - eapply outside_trans; [eapply outside_within; [| |exact Ho1]; lia|]. eapply outside_within; [| |exact Ho2]; lia.
  - replace (Z.to_nat n) with (S k) by lia. apply regions_ok. intros j Hj. unfold gather. destruct (Nat.ltb_spec j k).
    + rewrite (region_outside _ _ (prdt + 16 * Z.of_nat j) _ _ _ Ho2 ltac:(lia) (Hr1 j ltac:(lia))). rewrite u64_id by lia. do 2 f_equal. lia.
    + replace j with k by lia. rewrite Hr2, u64_id by lia. do 2 f_equal. lia.
Qed.

Lemma KADDR_run pa s : PAGE_INDEX pa < dm_npages (kernel s) -> Ahci.KADDR pa s = Ret (u64 (pa + KERNEL_VMA)) s.
Proof. intros Hp. unfold Ahci.KADDR. by destruct (Z.leb_spec (dm_npages (kernel s)) (PAGE_INDEX pa)); [lia|]. Qed.

(** The header and the empty table. *)
Lemma header_ok hdr write n tb s : let tbl := u64 (tb + KERNEL_VMA) in
  1 <= n < 2 ^ 16 -> 0 <= write < 2 -> PAGE_INDEX tb < dm_npages (kernel s) -> 0 <= tb < 2 ^ 64 ->
  mapped (ram (machine s)) hdr 4 -> bytes_at (ram (machine s)) (hdr + hdr_cmd_base) (le_split 8 tb) ->
  mapped (ram (machine s)) tbl 256 -> hdr + 4 <= tbl \/ tbl + 256 <= hdr ->
  exists m, (forall f : Z -> KD unit, (set_header hdr write n;;; tb <-- reading (load_le 8 (hdr + hdr_cmd_base));; tbl <-- Ahci.KADDR tb;;
                        zero_bytes tbl sizeof_hba_cmd_tbl;;; f tbl) s = f tbl (ram_to m s)) /\
    (exists bs, bytes_at m hdr bs /\ header_of bs = mk_header 5 write 1 1 n /\ length bs = 4%nat) /\
    bytes_at m (hdr + hdr_prdt_len) (le_split 2 n) /\ bytes_at m tbl (replicate 144 0) /\ mapped m tbl 256 /\
    forall a, a < hdr \/ hdr + 4 <= a -> a < tbl \/ tbl + 256 <= a -> m !! a = ram (machine s) !! a.
Proof.
  intros tbl Hn Hw Hp Htb Hh Hb Ht Hdis.
  destruct (mapped_bytes _ 4 hdr Hh) as (bs & Hbs & Hl). destruct (set_header_ok hdr write n bs Hl Hw ltac:(lia)) as (bs' & [Hl' Hs] & Hhd & Hdr).
  destruct (Hs s Hbs) as (m1 & E1 & Hb1 & Ho1). rewrite Hl in *.
  assert (mapped m1 tbl 256) as Ht1 by (intros a Ha; rewrite Ho1 by lia; by apply Ht).
  destruct (mapped_bytes m1 144 tbl) as (old & Hold & Hlo); [intros a Ha; apply Ht1; lia|].
  destruct (stores_zero tbl 144 old Hlo) as [_ Hz]. destruct (Hz (ram_to m1 s) Hold) as (m2 & E2 & Hb2 & Ho2). rewrite Hlo in *.
  exists m2. split; [|split; [|split; [|split; [done|split]]]].
  - intros f. rewrite (krun _ _ _ _ _ E1).
    rewrite (krun _ _ _ _ _ (load_field_run 8 (hdr + hdr_cmd_base) (hdr + hdr_cmd_base) 0 (le_split 8 tb) (ram_to m1 s)
      ltac:(eapply outside_bytes; [exact Ho1| |exact Hb]; rewrite le_split_length; unfold hdr_cmd_base; lia) ltac:(lia) ltac:(by rewrite le_split_length))).
    unfold sub. rewrite drop_0, take_ge, le_combine_8 by (rewrite ?le_split_length; lia).
    rewrite (krun _ _ _ _ _ (KADDR_run tb (ram_to m1 s) Hp)). by rewrite (krun _ _ _ _ _ E2).
  - exists bs'. split; [|done]. eapply outside_bytes; [exact Ho2| |exact Hb1]. lia.
  - eapply outside_bytes; [exact Ho2|rewrite le_split_length; unfold hdr_prdt_len; lia|]. rewrite <- Hdr. rewrite <- (take_drop 2 bs') in Hb1.
    apply bytes_at_app in Hb1 as [_ Hb1]. rewrite length_take in Hb1. by replace (2 `min` length bs')%nat with 2%nat in Hb1 by lia.
  - intros a Ha. destruct (Z.lt_ge_cases a (tbl + 144)); [|rewrite Ho2 by lia; by apply Ht1].
    apply (bytes_at_mapped _ _ _ Hb2). rewrite length_replicate. lia.
  - intros a Ha1 Ha2. rewrite Ho2, Ho1 by lia. done.
Qed.

Lemma set_command_ok hdr write command buf count addr tb s : let tbl := u64 (tb + KERNEL_VMA) in
  1 <= count <= 128 -> 0 <= write < 2 -> 0 <= command < 256 -> KERNEL_VMA <= buf -> buf + 512 * count <= 2 ^ 64 ->
  PAGE_INDEX tb < dm_npages (kernel s) -> 0 <= tb < 2 ^ 64 ->
  mapped (ram (machine s)) hdr 4 -> bytes_at (ram (machine s)) (hdr + hdr_cmd_base) (le_split 8 tb) ->
  mapped (ram (machine s)) tbl 256 -> hdr + 4 <= tbl \/ tbl + 256 <= hdr ->
  exists m, set_command hdr write command 512 buf count addr s = Ret tt (ram_to m s) /\ command_at m hdr tbl write command buf count addr /\
    forall a, a < hdr \/ hdr + 4 <= a -> a < tbl \/ tbl + 256 <= a -> m !! a = ram (machine s) !! a.
Proof.
  intros tbl Hc Hw Hcmd Hbuf Hend Hp Htb Hh Hb Ht Hdis. set (n := (count - 1) / 16 + 1).
  assert (1 <= n <= 8 /\ 16 * (n - 1) < count <= 16 * n) as [Hn Hnc].
  { pose proof (Z.div_mod (count - 1) 16 ltac:(lia)). pose proof (Z.mod_pos_bound (count - 1) 16 ltac:(lia)). unfold n. lia. }
  assert (u64 (count - 16 * (n - 1)) / 512 - 1 = -1) as Hlast by (rewrite u64_id by lia; rewrite Z.div_small; lia).
  destruct (header_ok hdr write n tb s) as (m1 & E1 & (bs & Hbs & Hhd & Hlb) & Hlen & Hz & Ht1 & Hout1); try done; [lia|]. fold tbl in E1, Hz, Ht1, Hout1.
  destruct (entries_ok (tbl + tbl_prdts) hdr n buf (fun i => u64 (count - 16 * i) / 512 - 1) (ram_to m1 s)) as (m2 & E2 & Ho2 & Hr2); try done; unfold tbl_prdts in *; try lia.
  { intros a Ha. apply Ht1. lia. }
  { apply bytes_at_size in Hz. rewrite length_replicate in Hz. unfold rounds. cbn [machine ram ram_to with_machine]. lia. }
  change (replicate 144 0) with (replicate 20 0 ++ replicate 124 0) in Hz. apply bytes_at_app in Hz as [Hz _].
  destruct (set_fis_ok tbl command count addr) as [_ Hfis]. destruct (Hfis (ram_to m2 s)) as (m3 & E3 & Hb3 & Ho3).
  { eapply outside_bytes; [exact Ho2| |exact Hz]. rewrite length_replicate. lia. }
  rewrite length_replicate in Ho3. exists m3. split; [|split; [split; [|split]|]].
  - unfold set_command. fold n. rewrite E1. revert E2. unfold kbind. cbv beta.
    destruct (prdt_loop _ _ _ _ _ _) as [[[p q] i] s1| | | |]; [|discriminate..]. intros ->. exact E3.
  - exists bs. split; [|done]. eapply outside_bytes; [exact Ho3|lia|]. eapply outside_bytes; [exact Ho2|lia|done].
  - exists (fis_bytes command count addr). split; [done|]. rewrite fis_request_bytes. unfold u8, u16. by rewrite !Z.mod_small by lia.
  - fold n. eexists. split; [apply (regions_outside _ _ _ _ _ Ho3); [unfold tbl_prdts; lia|exact Hr2]|].
    intros j Hj. apply place_gather. rewrite Hlast. change (-1 mod 2 ^ 22 + 1) with (2 ^ 22). lia.
  - intros a Ha1 Ha2. rewrite Ho3, Ho2, Hout1 by lia. done.
Qed.

(** ** Registers of the port

    The registers lie at [hba] and the driver reaches them at [port]; reading one moves no
    data.  [with_trace]: the state after further accesses. *)

Context (reads_move_nothing : forall w a tr m, dma (RegIn w a :: tr) m = m).

Definition with_trace (tr : list access) s : bus_state M disk_state := with_machine (mk_hw (ram (machine s)) tr) s.
Definition registers_at (port hba : Z) s : Prop := forall r, 0 <= r < sizeof_hba_port -> dm_phys (kernel s) (port + r) = Some (hba + r).

Lemma px_in_run w port hba r s : registers_at port hba s -> 0 <= r < sizeof_hba_port ->
  mmio_in w (port + r) s = Ret (answer (trace (machine s)) (ram (machine s)) (RegIn w (hba + r)) mod 2 ^ (8 * w))
    (with_trace (RegIn w (hba + r) :: trace (machine s)) s).
Proof.
  intros Hp Hr. unfold mmio_in. rewrite (krun kget _ s s s eq_refl), (Hp r Hr). cbn [kderef].
  unfold kbind at 1, kret, on_machine, reg_in, occurs, kbind. by rewrite reads_move_nothing.
Qed.

Lemma first_clear_ok n i v : 0 <= i -> 0 <= first_clear n i v ->
  i <= first_clear n i v < i + Z.of_nat n /\ Z.testbit v (first_clear n i v - i) = false.
Proof.
  revert i v. induction n as [|n IH]; intros i v Hi; cbn [first_clear]; [lia|].
  rewrite flag_bit0.
  destruct (Z.testbit v 0) eqn:Hv; cbn [negb].
  - intros Hf. destruct (IH (i + 1) (Z.shiftr v 1) ltac:(lia) Hf) as [Hr Ht]. split; [lia|].
    rewrite Z.shiftr_spec in Ht by lia. rewrite <- Ht. f_equal. lia.
  - intros _. by rewrite Z.sub_diag; split; [lia|].
Qed.

(** [k] reads of the task file find the disk busy, the next one finds it free. *)
Definition free_after (k : nat) (hba : Z) (tr : list access) (m : mem) : Prop :=
  let tfd := RegIn 4 (hba + px_task_file_data) in
  let busy i := flag (answer (replicate i tfd ++ tr) m tfd mod 2 ^ (8 * 4)) (Z.lor ATA_STAT_BUSY ATA_STAT_DRQ) in
  (forall i, (i < k)%nat -> busy i = true) /\ busy k = false.

Lemma wait_clear_ok k port hba s : registers_at port hba s -> free_after k hba (trace (machine s)) (ram (machine s)) -> (k < patience)%nat ->
  wait_clear patience port px_task_file_data (Z.lor ATA_STAT_BUSY ATA_STAT_DRQ) s
  = Ret tt (with_trace (replicate (S k) (RegIn 4 (hba + px_task_file_data)) ++ trace (machine s)) s).
Proof.
  intros Hp. revert s Hp. revert patience. induction k as [|k IH]; intros [|fuel] s Hp [Hb Hf] Hk; [lia| |lia|]; cbn [wait_clear]; unfold px_in;
    rewrite (krun _ _ _ _ _ (px_in_run 4 port hba px_task_file_data s Hp ltac:(done))).
  - cbn [replicate app] in Hf. by rewrite Hf.
  - pose proof (Hb 0%nat ltac:(lia)) as H0. cbn [replicate app] in H0. rewrite H0. rewrite (IH fuel (with_trace _ s)); [|done| |lia].
    + cbn [with_trace with_machine machine trace ram]. by rewrite (replicate_S_end (S k)), <- app_assoc.
    + cbn [with_trace with_machine machine trace ram]. split.
      * intros i Hi. rewrite <- (Hb (S i) ltac:(lia)). by rewrite replicate_S_end, <- app_assoc.
      * rewrite <- Hf. by rewrite replicate_S_end, <- app_assoc.
Qed.

(** What an idle adapter answers while the driver prepares a command: the slots in use, the
    address of the command list, and a task file that is free in the end. *)
Definition idle_adapter (hba : Z) (tr : list access) (act ci cb : Z) (k : nat) : Prop := forall m,
  let t1 := RegIn 4 (hba + px_sata_act) :: tr in
  let t2 := RegIn 4 (hba + px_cmd_issue) :: t1 in
  let t3 := RegIn 8 (hba + px_cmd_base) :: t2 in
  answer tr m (RegIn 4 (hba + px_sata_act)) mod 2 ^ (8 * 4) = act /\
  answer t1 m (RegIn 4 (hba + px_cmd_issue)) mod 2 ^ (8 * 4) = ci /\
  answer t2 m (RegIn 8 (hba + px_cmd_base)) mod 2 ^ (8 * 8) = cb /\
  free_after k hba t3 m.

Lemma px_out_run port hba r v s : registers_at port hba s -> 0 <= r < sizeof_hba_port ->
  px_out port r v s = let tr := RegOut 4 (hba + r) (v mod 2 ^ (8 * 4)) :: trace (machine s) in
    Ret tt (with_machine (mk_hw (dma tr (ram (machine s))) tr) s).
Proof.
  intros Hp Hr. unfold px_out, mmio_out. rewrite (krun kget _ s s s eq_refl), (Hp r Hr). reflexivity.
Qed.

Definition put_disk (o : Z * Z) (d : ahci_disk) s : bus_state M disk_state :=
  with_drivers (with_ahci (<[o := d]> (ahci_disks (drivers s))) (drivers s)) s.
Lemma put_ahci_run o d s : put_ahci o d s = Ret tt (put_disk o d s).
Proof. done. Qed.

(** Issuing a command when the disk is idle. *)
Lemma ahci_issue_ok o d write command st buf count addr hba act ci cb tb k s :
  let sl := first_clear 32 0 (Z.lor act ci) in
  let hdr := u64 (cb + KERNEL_VMA) + sl * sizeof_hba_cmd_hdr in
  let tbl := u64 (tb + KERNEL_VMA) in
  ahci_disks (drivers s) !! o = Some d -> hsect_size d = 512 -> registers_at (port d) hba s ->
  idle_adapter hba (trace (machine s)) act ci cb k -> (k < patience)%nat -> 0 <= sl ->
  PAGE_INDEX cb < dm_npages (kernel s) ->
  1 <= count <= 128 -> 0 <= write < 2 -> 0 <= command < 256 -> KERNEL_VMA <= buf -> buf + 512 * count <= 2 ^ 64 ->
  PAGE_INDEX tb < dm_npages (kernel s) -> 0 <= tb < 2 ^ 64 ->
  mapped (ram (machine s)) hdr 4 -> bytes_at (ram (machine s)) (hdr + hdr_cmd_base) (le_split 8 tb) ->
  mapped (ram (machine s)) tbl 256 -> hdr + 4 <= tbl \/ tbl + 256 <= hdr ->
  exists m tr s', ahci_issue patience o write command st buf count addr s = Ret (- EAGAIN) s' /\
    (let tr' := RegOut 4 (hba + px_cmd_issue) (2 ^ sl) :: tr in machine s' = mk_hw (dma tr' m) tr') /\
    ahci_disks (drivers s') !! o = Some (mk_ahci (port d) st (hnsectors d) 512 sl) /\
    command_at m hdr tbl write command buf count addr /\
    forall a, a < hdr \/ hdr + 4 <= a -> a < tbl \/ tbl + 256 <= a -> m !! a = ram (machine s) !! a.
Proof.
  intros sl hdr tbl Hd Hsz Hp Hidle Hk Hsl Hcb Hc Hw Hcmd Hbuf Hend Htb Htb' Hh Hb Ht Hdis.
  destruct (Hidle (ram (machine s))) as (Eact & Eci & Ecb & _). rewrite <- Hsz. unfold ahci_issue.
  assert (get_ahci o s = Ret d s) as Eg by (unfold get_ahci; by rewrite Hd). rewrite (krun _ _ _ _ _ Eg).
  assert (find_cmdslot (port d) s = Ret sl (with_trace (RegIn 4 (hba + px_cmd_issue) :: RegIn 4 (hba + px_sata_act) :: trace (machine s)) s)) as Ef.
  { unfold find_cmdslot, px_in. rewrite (krun _ _ _ _ _ (px_in_run 4 _ hba px_sata_act s Hp ltac:(done))), Eact.
    rewrite (krun _ _ _ _ _ (px_in_run 4 _ hba px_cmd_issue (with_trace _ s) Hp ltac:(done))). cbn [with_trace with_machine machine trace ram].
    by rewrite Eci. }
  rewrite (krun _ _ _ _ _ Ef), (krun _ _ _ _ _ (put_ahci_run _ _ _)).
  destruct (Z.ltb_spec sl 0) as [|_]; [lia|]. destruct (Z.eqb_spec count 0) as [|_]; [lia|].
  set (t2 := RegIn 4 (hba + px_cmd_issue) :: _). set (s2 := put_disk o _ _).
  rewrite (krun _ _ _ _ _ (px_in_run 8 (port d) hba px_cmd_base s2 Hp ltac:(done))).
  change (answer (trace (machine s2)) (ram (machine s2)) (RegIn 8 (hba + px_cmd_base)) mod 2 ^ (8 * 8))
    with (answer t2 (ram (machine s)) (RegIn 8 (hba + px_cmd_base)) mod 2 ^ (8 * 8)). unfold t2. rewrite Ecb.
  set (s3 := with_trace _ s2). rewrite (krun _ _ _ _ _ (KADDR_run cb s3 Hcb)). fold hdr. rewrite Hsz.
  destruct (set_command_ok hdr write command buf count addr tb s3) as (m & Ec & Hcom & Hout); try done.
  rewrite (krun _ _ _ _ _ Ec).
  destruct (Hidle m) as (_ & _ & _ & Hfree).
  rewrite (krun _ _ _ _ _ (wait_clear_ok k (port d) hba (ram_to m s3) Hp Hfree Hk)).
  rewrite (krun _ _ _ _ _ (px_out_run (port d) hba px_cmd_issue (slot_bit sl) (with_trace _ (ram_to m s3)) Hp ltac:(done))), (krun _ _ _ _ _ (put_ahci_run _ _ _)).
  pose proof (first_clear_ok 32 0 (Z.lor act ci) ltac:(lia) Hsl) as [Hr _]. fold sl in Hr.
  assert (slot_bit sl mod 2 ^ (8 * 4) = 2 ^ sl) as ->.
  { unfold slot_bit. rewrite Z.shiftl_1_l, (Z.mod_small sl) by lia. apply Z.mod_small. split; [lia|]. apply Z.pow_lt_mono_r; lia. }
  do 3 eexists. split; [reflexivity|]. split; [reflexivity|]. split; [apply lookup_insert_eq|]. split; [exact Hcom|exact Hout].
Qed.
End Ahci.

(** One round of the loop. *)
Lemma rebase_round {M : Type} hdr p (s : bus_state M disk_state) : KERNEL_VMA <= p -> p < 2 ^ 64 -> mapped (ram (machine s)) hdr 16 ->
  exists m, (forall f : K (bus_state M disk_state) unit,
      (reading (store_le 2 (hdr + hdr_prdt_len) 8);;; pa <-- PADDR p;; reading (store_le 8 (hdr + hdr_cmd_base) pa);;; f) s = f (ram_to m s)) /\
    bytes_at m (hdr + hdr_prdt_len) (le_split 2 8) /\ bytes_at m (hdr + hdr_cmd_base) (le_split 8 (p - KERNEL_VMA)) /\
    outside hdr sizeof_hba_cmd_hdr (ram (machine s)) m /\ mapped m hdr 16.
Proof.
  intros Hp Hend Hm. destruct (mapped_bytes _ 16 hdr Hm) as (bs & Hb & Hl). assert (0 < KERNEL_VMA) by done.
  destruct (stores_store (M := M) 2 (hdr + hdr_prdt_len) 8 hdr 2 bs _ eq_refl ltac:(lia) eq_refl) as [Hl1 H1].
  destruct (H1 s Hb) as (m1 & E1 & Hb1 & Ho1).
  destruct (stores_store (M := M) 8 (hdr + hdr_cmd_base) (p - KERNEL_VMA) hdr 8 _ _ eq_refl ltac:(rewrite Hl1; lia) eq_refl) as [Hl2 H2].
  destruct (H2 (ram_to m1 s) Hb1) as (m2 & E2 & Hb2 & Ho2). rewrite Hl1 in Ho2. rewrite Hl in *.
  exists m2. split; [|split; [|split; [|split]]].
  - intros f. rewrite (krun _ _ _ _ _ E1), (krun _ _ _ _ _ (PADDR_run p _ Hp)), u64_id by lia. by rewrite (krun _ _ _ _ _ E2).
  - pose proof (bytes_at_sub _ _ 2 2 _ Hb2) as H0. rewrite sub_splice_after, sub_splice in H0 by len. exact H0.
  - pose proof (bytes_at_sub _ _ 8 8 _ Hb2) as H0. rewrite sub_splice in H0 by len. exact H0.
  - eapply outside_within; [| |eapply outside_trans; [exact Ho1|exact Ho2]]; unfold sizeof_hba_cmd_hdr; lia.
  - pose proof (bytes_at_mapped _ _ _ Hb2) as H0. by rewrite Hl2, Hl1 in H0.
Qed.

(** Fact (functional): Setting up the command list of a port writes the header of slot 0 only: it ends with the
    last of the tables, and the headers of the other slots stay as the zeroed page has them, without a
    command table. *)
Theorem rebase_loop_first_slot {M : Type} (n : nat) hdr p (s : bus_state M disk_state) :
  KERNEL_VMA <= p -> p + 256 * Z.of_nat n < 2 ^ 64 -> mapped (ram (machine s)) hdr 16 ->
  exists m, rebase_loop (S n) hdr p s = Ret tt (ram_to m s) /\
    bytes_at m (hdr + hdr_prdt_len) (le_split 2 8) /\
    bytes_at m (hdr + hdr_cmd_base) (le_split 8 (p + 256 * Z.of_nat n - KERNEL_VMA)) /\
    outside hdr sizeof_hba_cmd_hdr (ram (machine s)) m.
Proof.
  revert p s. induction n as [|n IH]; intros p s Hp Hend Hm; assert (0 < KERNEL_VMA) by done;
    destruct (rebase_round hdr p s Hp ltac:(lia) Hm) as (m1 & E1 & Hl1 & Hb1 & Ho1 & Hm1).
  - exists m1. cbn [rebase_loop]. rewrite E1, Z.mul_0_r, Z.add_0_r. done.
  - destruct (IH (p + 256) (ram_to m1 s)) as (m2 & E2 & Hl2 & Hb2 & Ho2); [lia|lia|done|].
    exists m2. cbn [rebase_loop]. rewrite E1. split; [exact E2|]. split; [done|]. split; [|by eapply outside_trans].
    by replace (p + 256 * Z.of_nat (S n) - KERNEL_VMA) with (p + 256 + 256 * Z.of_nat n - KERNEL_VMA) by lia.
Qed.

(** ** Requests

    A port whose registers lie at [hba], with the command list at the physical address [cb]
    and the command table of the free slot at [tb]. *)


(** A port at the physical address 0xfebf1100 whose first slot is in use, with its command
    list and a command table in the first megabytes. *)
Module DemoPort.
Definition hba : Z := 0xfebf1100.
#[local] Instance adapter : devices := {|
  answer tr m a := match a with
    | RegIn _ r => if r =? hba + px_cmd_issue then 1 else if r =? hba + px_cmd_base then 0x200000 else 0
    | _ => 0 end;
  dma tr m := m
|}.
Definition list_kva : Z := KERNEL_VMA + 0x200000.
Definition table_kva : Z := KERNEL_VMA + 0x201000.
Definition memory : mem :=
  write_bytes (write_bytes ∅ (list_kva + 32) (replicate 8 0 ++ le_split 8 0x201000)) table_kva (replicate 256 0).
Definition port_kva : Z := 0xffff900000000100.
Definition disk0 : ahci_disk := mk_ahci port_kva AHCI_IDLE 4096 512 (-1).
Definition bus : bus_state simple disk_state :=
  mk_bus (mk_hw memory []) (mk_simple 0 ∅ [(port_kva, hba, 128)]) ∅ (mk_disks [] ∅ {[ (8, 0) := disk0 ]} [Ahci (8, 0)]).
End DemoPort.

