(* ===== verification/Monitor.v ===== *)
(** * The kernel monitor's command line (kernel/monitor.c)

    The splitting of a line into arguments in place, the table of commands and the loop
    of the monitor, over byte memory; the arguments are pointers into the line.  What the
    commands print is not modelled; those that read other components are an argument. *)

From Stdlib Require Import ZArith Lia.
From stdpp Require Import strings base gmap fin_maps list.
From S2P Require Import Prelude Strings Printfmt.

#[local] Open Scope Z_scope.
#[local] Open Scope kernel_scope.

Definition MAXARGS : Z := 16.
Definition WHITESPACE : list Z := [9; 13; 10; 32].

Inductive command :=
  | mon_help | mon_continue | mon_kerninfo | mon_backtrace | mon_buddyinfo
  | mon_pageinfo | mon_mmapinfo | mon_quit | mon_ptdump | mon_vmainfo.

Definition commands : list (string * command) :=
  [("help", mon_help); ("continue", mon_continue); ("kerninfo", mon_kerninfo); ("backtrace", mon_backtrace);
   ("buddyinfo", mon_buddyinfo); ("pageinfo", mon_pageinfo); ("mmapinfo", mon_mmapinfo); ("quit", mon_quit);
   ("ptdump", mon_ptdump); ("vmainfo", mon_vmainfo)]%string.

(** [strchr(WHITESPACE, c)] for a character that is not the null byte. *)
Definition is_space (c : Z) : bool := existsb (fun w => schar w =? schar c) WHITESPACE.

(** [while ( *buf && strchr(WHITESPACE, *buf)) *buf++ = 0;] *)
Fixpoint gobble (fuel : nat) (buf : Z) : K mem Z :=
  match fuel with
  | O => khang
  | S fuel =>
      c <-- load buf;;
      if negb (c =? 0) && is_space c then store buf 0;;; gobble fuel (buf + 1) else kret buf
  end.

(** [while ( *buf && !strchr(WHITESPACE, *buf)) buf++;] *)
Fixpoint skip_arg (fuel : nat) (buf : Z) : K mem Z :=
  match fuel with
  | O => khang
  | S fuel => c <-- load buf;; if negb (c =? 0) && negb (is_space c) then skip_arg fuel (buf + 1) else kret buf
  end.

(** The loop over the arguments: the array argv up to argc, or [None] when it is full. *)
Fixpoint parse_loop (fuel : nat) (buf : Z) (argv : list Z) : K mem (option (list Z)) :=
  match fuel with
  | O => khang
  | S fuel =>
      buf <-- (fun m => gobble (rounds m) buf m);;
      c <-- load buf;;
      if c =? 0 then kret (Some argv) else
      if Z.of_nat (length argv) =? MAXARGS - 1 then kret None else
      next <-- (fun m => skip_arg (rounds m) buf m);;
      parse_loop fuel next (argv ++ [buf])
  end.
Definition parse (buf : Z) : K mem (option (list Z)) := fun m => parse_loop (rounds m) buf [] m.

(** [strcmp] against a literal. *)
Fixpoint strcmp_lit (p : Z) (lit : list Z) : K mem Z :=
  a <-- load p;;
  match lit with
  | [] => kret a
  | b :: lit => if negb (a =? 0) && (a =? b) then strcmp_lit (p + 1) lit else kret (a - b)
  end.

Fixpoint find_command (name : Z) (l : list (string * command)) : K mem (option command) :=
  match l with
  | [] => kret None
  | (s, c) :: l => r <-- strcmp_lit name (codes s);; if r =? 0 then kret (Some c) else find_command name l
  end.

Section Run.
(** The commands that read other components: their results. *)
Context (inspect : command -> list Z -> K mem Z).

Definition func (c : command) (argv : list Z) : K mem Z :=
  match c with
  | mon_continue => kret (-1)
  | mon_backtrace | mon_pageinfo | mon_ptdump | mon_vmainfo => inspect c argv
  | _ => kret 0
  end.

Definition runcmd (buf : Z) : K mem Z :=
  argv <-- parse buf;;
  match argv with
  | None => kret 0
  | Some [] => kret 0
  | Some (arg0 :: args) =>
      c <-- find_command arg0 commands;;
      match c with Some c => func c (arg0 :: args) | None => kret 0 end
  end.

(** The loop of the monitor over the lines that are typed; [buf] is the buffer of
    readline, [None] a line it does not return.  It waits for more when they are used up. *)
Fixpoint monitor (buf : Z) (lines : list (option (list Z))) : K mem (list (option (list Z))) :=
  match lines with
  | [] => khang
  | None :: lines => monitor buf lines
  | Some line :: lines =>
      kmodify (fun m => write_bytes m buf (line ++ [0]));;;
      r <-- runcmd buf;;
      if r <? 0 then kret lines else monitor buf lines
  end.

(** [outb(0x505, 1)] and the monitor, for ever. *)
Fixpoint halt_kernel (fuel : nat) (buf : Z) (lines : list (option (list Z))) : K mem unit :=
  match fuel with
  | O => khang
  | S fuel => lines <-- monitor buf lines;; halt_kernel fuel buf lines
  end.
End Run.

(** ** The words of a line *)

Fixpoint words_from (cur bs : list Z) : list (list Z) :=
  match bs with
  | [] => match cur with [] => [] | _ => [cur] end
  | b :: bs => if is_space b then match cur with [] => words_from [] bs | _ => cur :: words_from [] bs end
               else words_from (cur ++ [b]) bs
  end.
Definition words (bs : list Z) : list (list Z) := words_from [] bs.

Definition spaces (bs : list Z) : Prop := Forall (fun b => is_space b = true) bs.
Definition no_spaces (bs : list Z) : Prop := Forall (fun b => is_space b = false) bs.

(** At the end of a word: the end of the line or a blank. *)
Definition word_end (bs : list Z) : Prop := match bs with [] => True | b :: _ => is_space b = true end.

Lemma words_spaces ws bs : spaces ws -> words (ws ++ bs) = words bs.
Proof. unfold words. induction 1 as [|b ws Hb _ IH]; [done|]. cbn [app words_from]. by rewrite Hb. Qed.

Lemma words_from_word w cur bs : no_spaces w -> word_end bs -> (cur <> [] \/ w <> []) -> words_from cur (w ++ bs) = (cur ++ w) :: words bs.
Proof.
  intros Hw Hbs. revert cur. induction Hw as [|b w Hb _ IH]; intros cur Hne.
  - destruct Hne as [Hne|[]]; [|done]. rewrite app_nil_r. destruct bs as [|b bs]; cbn [app words_from].
    + by destruct cur.
    + cbn [word_end] in Hbs. rewrite Hbs. unfold words. cbn [words_from]. rewrite Hbs. by destruct cur.
  - cbn [app words_from]. rewrite Hb, IH; [by rewrite <- app_assoc|]. left. intros E%app_eq_nil. by destruct E.
Qed.

Lemma split_spaces bs : exists ws rest, bs = ws ++ rest /\ spaces ws /\ match rest with [] => True | b :: _ => is_space b = false end.
Proof.
  induction bs as [|b bs (ws & rest & -> & Hs & Hr)]; [exists [], []; repeat constructor|]. destruct (is_space b) eqn:Hb.
  - exists (b :: ws), rest. split; [done|]. split; [by constructor|done].
  - exists [], (b :: ws ++ rest). split; [done|]. split; [constructor|done].
Qed.

Lemma split_word bs : exists w rest, bs = w ++ rest /\ no_spaces w /\ word_end rest.
Proof.
  induction bs as [|b bs (w & rest & -> & Hw & Hr)]; [exists [], []; repeat constructor|]. destruct (is_space b) eqn:Hb.
  - exists [], (b :: w ++ rest). split; [done|]. split; [constructor|done].
  - exists (b :: w), rest. split; [done|]. split; [by constructor|done].
Qed.

(** ** Lemmas *)

(** [n] bytes from [p] on set to 0. *)
Definition zeroed (m : mem) (p : Z) (n : nat) : mem := write_bytes m p (replicate n 0).

Lemma cstring_split m p xs ys : cstring m p (xs ++ ys) -> cstring m (p + Z.of_nat (length xs)) ys /\ bytes_at m p xs.
Proof.
  revert p. induction xs as [|x xs IH]; intros p H; [rewrite Z.add_0_r; by split|].
  apply cstring_cons in H as (Hx & _ & H). destruct (IH _ H) as [H1 H2].
  cbn [length bytes_at]. replace (p + Z.of_nat (S (length xs))) with (p + 1 + Z.of_nat (length xs)) by lia. done.
Qed.

Lemma gobble_ok fuel m p ws bs : cstring m p (ws ++ bs) -> spaces ws ->
  match bs with [] => True | b :: _ => is_space b = false end -> (length ws < fuel)%nat ->
  gobble fuel p m = Ret (p + Z.of_nat (length ws)) (zeroed m p (length ws)).
Proof.
  revert fuel m p. induction ws as [|w ws IH]; intros [|fuel] m p H Hs Hb Hf; try (cbn in Hf; lia); cbn [gobble].
  - rewrite Z.add_0_r. destruct bs as [|b bs]; cbn [app] in H.
    + by rewrite (bind_load p 0) by exact (cstring_nil _ _ H).
    + apply cstring_cons in H as (Hp & _ & _). rewrite (bind_load p b) by done. by rewrite Hb, andb_false_r.
  - cbn [app] in H. apply cstring_cons in H as (Hp & Hw & H). apply Forall_cons in Hs as [Hsp Hs].
    rewrite (bind_load p w) by done. destruct (Z.eqb_spec w 0); [lia|]. rewrite Hsp. cbn [negb andb].
    rewrite bind_store by (by eexists). change (u8 0) with 0. cbn [length] in *.
    rewrite IH; [|apply cstring_insert; [done|lia]|done|done|lia].
    f_equal. lia.
Qed.

Lemma skip_arg_ok fuel m p w bs : cstring m p (w ++ bs) -> no_spaces w -> word_end bs -> (length w < fuel)%nat ->
  skip_arg fuel p m = Ret (p + Z.of_nat (length w)) m.
Proof.
  revert fuel p. induction w as [|x w IH]; intros [|fuel] p H Hs Hb Hf; try (cbn in Hf; lia); cbn [skip_arg].
  - rewrite Z.add_0_r. destruct bs as [|b bs]; cbn [app] in H.
    + by rewrite (bind_load p 0) by exact (cstring_nil _ _ H).
    + apply cstring_cons in H as (Hp & _ & _). rewrite (bind_load p b) by done. cbn [word_end] in Hb. by rewrite Hb, andb_false_r.
  - cbn [app] in H. apply cstring_cons in H as (Hp & Hw & H). apply Forall_cons in Hs as [Hsp Hs].
    rewrite (bind_load p x) by done. destruct (Z.eqb_spec x 0); [lia|]. rewrite Hsp. cbn [negb andb length] in *.
    rewrite IH by (done || lia). f_equal. lia.
Qed.

Lemma bytes_at_agree m m' p bs : (forall a, p <= a < p + Z.of_nat (length bs) -> m' !! a = m !! a) -> bytes_at m p bs -> bytes_at m' p bs.
Proof.
  revert p. induction bs as [|b bs IH]; intros p Hag; cbn [bytes_at length] in *; [done|].
  intros [Hb H]. split; [rewrite Hag by lia; done|]. apply IH; [|done]. intros a Ha. apply Hag. lia.
Qed.

Lemma cstring_agree m m' p bs : (forall a, p <= a <= p + Z.of_nat (length bs) -> m' !! a = m !! a) -> cstring m p bs -> cstring m' p bs.
Proof.
  intros Hag [H Hf]. split; [|done]. apply (bytes_at_agree m); [|done]. intros a. rewrite length_app. cbn [length].
  intros Ha. apply Hag. lia.
Qed.

Lemma bytes_at_snoc m p bs b : bytes_at m p bs -> m !! (p + Z.of_nat (length bs)) = Some b -> bytes_at m p (bs ++ [b]).
Proof.
  revert p. induction bs as [|c bs IH]; intros p; cbn [bytes_at app length]; [by rewrite Z.add_0_r|].
  intros [Hc H] Hb. split; [done|]. apply IH; [done|]. rewrite <- Hb. f_equal. lia.
Qed.

Lemma zeroed_outside m p n a : a < p \/ p + Z.of_nat n <= a -> zeroed m p n !! a = m !! a.
Proof. intros Ha. unfold zeroed. rewrite write_bytes_lookup, length_replicate, decide_False by lia. done. Qed.

Lemma zeroed_first m p n : (0 < n)%nat -> zeroed m p n !! p = Some 0.
Proof. intros Hn. unfold zeroed. rewrite write_bytes_lookup, length_replicate, decide_True, Z.sub_diag by lia. by apply lookup_replicate_2. Qed.

Definition unchanged_outside (m m' : mem) (p : Z) (n : nat) : Prop :=
  forall a, a < p \/ p + Z.of_nat n <= a -> m' !! a = m !! a.

(** What parse_loop makes of the line [bs] at [p] after the arguments [acc]. *)
Definition parsed (m m' : mem) (p : Z) (bs acc : list Z) (r : option (list Z)) : Prop :=
  if (length acc + length (words bs) <=? 15)%nat
  then exists args, r = Some (acc ++ args) /\ Forall2 (cstring m') args (words bs)
       /\ Forall (fun a => p <= a < p + Z.of_nat (length bs)) args
  else r = None.

Lemma parse_loop_ok fuel m p bs acc : cstring m p bs -> (length bs < fuel)%nat -> (length acc <= 15)%nat ->
  exists r m', parse_loop fuel p acc m = Ret r m' /\ unchanged_outside m m' p (length bs)
  /\ (word_end bs -> m' !! p = Some 0) /\ parsed m m' p bs acc r.
Proof.
  revert m p bs acc. induction fuel as [|fuel IH]; intros m p bs acc H Hf Hacc; [lia|]. cbn [parse_loop].
  destruct (split_spaces bs) as (ws & rest & -> & Hws & Hrest). pose proof (cstring_rounds _ _ _ H) as Hr.
  rewrite length_app in Hr, Hf. erewrite krun by (apply (gobble_ok _ _ _ ws rest); [done|done|done|lia]).
  destruct (cstring_split _ _ _ _ H) as [Hc _]. set (m1 := zeroed m p (length ws)). set (p1 := p + Z.of_nat (length ws)) in *.
  assert (cstring m1 p1 rest) as H1 by (apply (cstring_agree m); [intros a Ha; apply zeroed_outside; lia|done]).
  assert (unchanged_outside m m1 p (length (ws ++ rest))) as Hm1.
  { intros a Ha. rewrite length_app in Ha. apply zeroed_outside. lia. }
  assert (word_end (ws ++ rest) -> m1 !! p = Some 0) as Hend.
  { intros He. destruct ws as [|w ws]; [|apply zeroed_first; cbn; lia]. destruct rest as [|b rest].
    - unfold p1 in H1. rewrite Z.add_0_r in H1. exact (cstring_nil _ _ H1).
    - cbn [app word_end] in He. congruence. }
  unfold parsed. rewrite (words_spaces ws rest Hws). destruct rest as [|b rest].
  { rewrite (bind_load p1 0) by exact (cstring_nil _ _ H1). exists (Some acc), m1. split; [done|]. split; [done|]. split; [done|].
    destruct (Nat.leb_spec (length acc + length (words [])) 15) as [|Hbad]; [|cbn in Hbad; lia].
    exists []. rewrite app_nil_r. repeat constructor. }
  pose proof (cstring_cons _ _ _ _ H1) as (Hb & Hb0 & _). rewrite (bind_load p1 b) by done. destruct (Z.eqb_spec b 0); [lia|].
  destruct (split_word (b :: rest)) as (w & r2 & E & Hw & Hr2). rewrite E in *.
  assert (w <> []) as Hne. { intros ->. cbn [app] in E. subst r2. cbn [word_end] in Hr2. congruence. }
  pose proof (words_from_word w [] r2 Hw Hr2 (or_intror Hne)) as Hwords. fold (words (w ++ r2)) in Hwords. rewrite Hwords. cbn [app length].
  unfold MAXARGS. destruct (Z.eqb_spec (Z.of_nat (length acc)) (16 - 1)) as [Hfull|Hroom].
  { exists None, m1. split; [done|]. split; [done|]. split; [done|].
    destruct (Nat.leb_spec (length acc + S (length (words r2))) 15); [lia|done]. }
  pose proof (cstring_rounds _ _ _ H1) as Hr1. rewrite length_app in Hr1, Hf.
  erewrite krun by (apply (skip_arg_ok _ _ _ w r2); [done|done|done|lia]).
  destruct (cstring_split _ _ _ _ H1) as [H2 Hbw].
  assert (0 < length w)%nat as Hwl by (destruct w; [done|cbn; lia]).
  destruct (IH m1 (p1 + Z.of_nat (length w)) r2 (acc ++ [p1]) H2) as (r & m' & Er & Hout & Hend2 & Hp).
  { lia. } { rewrite length_app. cbn. lia. }
  exists r, m'. split; [exact Er|]. split; [|split].
  - intros a Ha. rewrite !length_app in Ha. rewrite Hout by lia. apply Hm1. rewrite !length_app. lia.
  - intros He. rewrite Hout by lia. by apply Hend.
  - unfold parsed in Hp. rewrite length_app in Hp. cbn [length] in Hp.
    replace (length acc + 1 + length (words r2))%nat with (length acc + S (length (words r2)))%nat in Hp by lia.
    destruct (length acc + S (length (words r2)) <=? 15)%nat; [|done]. destruct Hp as (args & -> & Ha & Hin).
    exists (p1 :: args). rewrite <- app_assoc. split; [done|]. split.
    + constructor; [|done]. destruct H1 as [_ Hfor]. apply Forall_app in Hfor as [Hfw _]. split; [|done].
      apply bytes_at_snoc; [|by apply Hend2]. apply (bytes_at_agree m1); [|done]. intros a Ha'. apply Hout. lia.
    + rewrite !length_app. constructor; [lia|]. eapply Forall_impl; [exact Hin|]. cbn. lia.
Qed.

Lemma strcmp_lit_ok lit p bs m : cstring m p bs -> Forall (fun b => 0 < b) lit ->
  exists r, strcmp_lit p lit m = Ret r m /\ (r = 0 <-> bs = lit).
Proof.
  revert p bs. induction lit as [|b lit IH]; intros p bs H Hl; cbn [strcmp_lit].
  - destruct bs as [|a bs].
    + rewrite (bind_load p 0) by exact (cstring_nil _ _ H). by exists 0.
    + apply cstring_cons in H as (Ha & Ha0 & _). rewrite (bind_load p a) by done. exists a. split; [done|]. split; [lia|done].
  - apply Forall_cons in Hl as [Hb Hl]. destruct bs as [|a bs].
    + rewrite (bind_load p 0) by exact (cstring_nil _ _ H). exists (0 - b). split; [done|]. split; [lia|done].
    + apply cstring_cons in H as (Ha & Ha0 & H). rewrite (bind_load p a) by done.
      destruct (Z.eqb_spec a 0); [lia|]. cbn [negb andb]. destruct (Z.eqb_spec a b) as [->|Hne].
      * destruct (IH _ _ H Hl) as (r & E & Hr). exists r. split; [done|]. rewrite Hr. split; [by intros ->|congruence].
      * exists (a - b). split; [done|]. split; [lia|congruence].
Qed.

(** The command of a name. *)
Definition command_named (name : list Z) (l : list (string * command)) : option command :=
  snd <$> find (fun x => bool_decide (codes (fst x) = name)) l.

Definition proper_names (l : list (string * command)) : Prop := Forall (fun x => Forall (fun b => 0 < b) (codes (fst x))) l.

Lemma find_command_ok l p name m : cstring m p name -> proper_names l ->
  find_command p l m = Ret (command_named name l) m.
Proof.
  intros H. unfold command_named. induction l as [|[s c] l IH]; intros Hl; [done|]. apply Forall_cons in Hl as [Hs Hl].
  cbn [find_command find fst] in *. destruct (strcmp_lit_ok (codes s) p name m H Hs) as (r & E & Hr). rewrite (krun _ _ _ _ _ E).
  destruct (Z.eqb_spec r 0) as [->|Hne].
  - rewrite bool_decide_true by (symmetry; tauto). done.
  - rewrite bool_decide_false by (intros <-; tauto). by apply IH.
Qed.

Lemma commands_proper : proper_names commands.
Proof. apply (bool_decide_unpack _). vm_compute. exact I. Qed.

(** C28 (equivalence): the command interpreter agrees with splitting the line into words.
    For every line of text, runcmd returns; it writes nowhere but into the line; an empty
    line, a line of more than 15 words, and a line whose first word is no command do
    nothing and return 0; any other line runs the command its first word names, with
    pointers to exactly the words of the line, in order, as its arguments. *)
Theorem runcmd_correct (inspect : command -> list Z -> K mem Z) (m : mem) (buf : Z) (line : list Z)
  (Hline : cstring m buf line) :
  exists m', unchanged_outside m m' buf (length line)
  /\ match words line, command_named (hd [] (words line)) commands with
     | [], _ | _, None => runcmd inspect buf m = Ret 0 m'
     | ws, Some c =>
         if (length ws <=? 15)%nat then exists argv, Forall2 (cstring m') argv ws /\ runcmd inspect buf m = func inspect c argv m'
         else runcmd inspect buf m = Ret 0 m'
     end.
Proof.
  destruct (parse_loop_ok (rounds m) m buf line [] Hline (cstring_rounds _ _ _ Hline)) as (r & m' & E & Hout & _ & Hp); [cbn; lia|].
  exists m'. split; [exact Hout|]. unfold runcmd. rewrite (krun (parse buf) _ _ _ _ E). unfold parsed in Hp. cbn [app length Nat.add] in Hp.
  destruct (words line) as [|w ws] eqn:Ew; [|cbn [hd]; destruct (length (w :: ws) <=? 15)%nat].
  - destruct Hp as (args & -> & Ha & _). inversion Ha. reflexivity.
  - destruct Hp as (args & -> & Ha & _). apply Forall2_cons_inv_r in Ha as (a & as' & Hw & Ha & ->).
    rewrite (krun _ _ _ _ _ (find_command_ok commands a w m' Hw commands_proper)).
    destruct (command_named w commands) as [c|]; [|done]. exists (a :: as'). split; [by constructor|done].
  - subst r. by destruct (command_named w commands).
Qed.

(** "  ptdump 12" and "a b c d e f g h i j k l m n o p". *)
Definition demo_line (s : string) : mem := write_bytes ∅ 100 (codes s ++ [0]).

Lemma cstring_write m p bs : forallb (fun b => (0 <? b) && (b <? 256)) bs = true -> cstring (write_bytes m p (bs ++ [0])) p bs.
Proof.
  intros H. split; [apply write_bytes_at|]. apply Forall_forall. intros b Hb. rewrite forallb_forall in H.
  specialize (H b (proj1 (list_elem_of_In _ _) Hb)). zify_bool. lia.
Qed.

Lemma runcmd_correct_witness : (exists m', runcmd (fun _ _ => kret 7) 100 (demo_line "  ptdump 12 ") = Ret 7 m')
  /\ (exists m', runcmd (fun _ _ => kret 7) 100 (demo_line "continue") = Ret (-1) m')
  /\ (exists m', runcmd (fun _ _ => kret 7) 100 (demo_line "ptdump b c d e f g h i j k l m n o p") = Ret 0 m').
Proof.
  split; [|split].
  - destruct (runcmd_correct (fun _ _ => kret 7) (demo_line "  ptdump 12 ") 100 (codes "  ptdump 12 ")) as (m' & _ & H);
      [apply cstring_write; vm_compute; reflexivity|]. destruct H as (argv & _ & H). exists m'. exact H.
  - destruct (runcmd_correct (fun _ _ => kret 7) (demo_line "continue") 100 (codes "continue")) as (m' & _ & H);
      [apply cstring_write; vm_compute; reflexivity|]. destruct H as (argv & _ & H). exists m'. exact H.
  - destruct (runcmd_correct (fun _ _ => kret 7) (demo_line "ptdump b c d e f g h i j k l m n o p") 100 (codes "ptdump b c d e f g h i j k l m n o p"))
      as (m' & _ & H); [apply cstring_write; vm_compute; reflexivity|]. exists m'. exact H.
Defined.
