(* ===== verification/Fwcfg.v ===== *)
(** * The QEMU configuration channel (kernel/fwcfg.c)

    The directory of files read from the device, and the reading of a file.  State: the
    machine and the static table of files.  kmalloc is an argument that gives an address. *)

From Stdlib Require Import ZArith Lia.
From stdpp Require Import strings base gmap fin_maps list.
From S2P Require Import Prelude Strings Printfmt Devices.

#[local] Open Scope Z_scope.
#[local] Open Scope kernel_scope.

Definition FW_CFG_PORT_SEL : Z := 0x510.
Definition FW_CFG_PORT_DATA : Z := 0x511.
Definition FW_CFG_SIGNATURE : Z := 0.
Definition FW_CFG_FILE_DIR : Z := 0x19.
Definition FW_CFG_MAX_FILES : Z := 64.

(** [struct fwcfg_file]; the name is its 56 bytes. *)
Record fwcfg_file := mk_file { file_size : Z; selector : Z; name : list Z }.
Record fwcfg := mk_fwcfg { machine : hw; fwcfg_files : list fwcfg_file; fwcfg_file_count : Z }.
Definition with_machine x s := mk_fwcfg x (fwcfg_files s) (fwcfg_file_count s).
Definition with_files x s := mk_fwcfg (machine s) x (fwcfg_file_count s).
Definition with_count x s := mk_fwcfg (machine s) (fwcfg_files s) x.

Definition on_machine {A} (k : K hw A) : K fwcfg A := fun s =>
  match k (machine s) with
  | Ret a h => Ret a (with_machine h s)
  | Panic => Panic | Fault => Fault | Hang => Hang
  | NoReturn h => NoReturn (with_machine h s)
  end.

(** [strncmp] of two arrays of at least [n] bytes (of which the first may end early with
    its null byte). *)
Fixpoint strncmp_bytes (n : nat) (p q : list Z) : Z :=
  match n with
  | O => 0
  | S n =>
      let a := hd 0 p in let b := hd 0 q in
      if negb (a =? 0) && (a =? b) then strncmp_bytes n (tl p) (tl q) else a - b
  end.

Section Ops.
Context {D : devices} (kmalloc : Z -> K hw (option Z)).

(** [n] bytes from the data port. *)
Fixpoint read_data (n : nat) : K fwcfg (list Z) :=
  match n with O => kret [] | S n => b <-- on_machine (inb FW_CFG_PORT_DATA);; bs <-- read_data n;; kret (b :: bs) end.

Definition has_fwcfg : K fwcfg bool :=
  on_machine (outw FW_CFG_PORT_SEL FW_CFG_SIGNATURE);;;
  result <-- read_data 4;;
  kret (strncmp_bytes 4 result (codes "QEMU") =? 0).

(** [x |= inb() << (8 * (n - 1 - i))] for [i] from 0 to [n - 1]. *)
Fixpoint read_be (n : nat) (x : Z) : K fwcfg Z :=
  match n with
  | O => kret x
  | S n => b <-- on_machine (inb FW_CFG_PORT_DATA);; read_be n (Z.lor x (Z.shiftl b (8 * Z.of_nat n)))
  end.

Fixpoint read_directory (n : nat) (i : nat) : K fwcfg unit :=
  match n with
  | O => kret tt
  | S n =>
      s <-- kget;;
      f <-- kderef (fwcfg_files s !! i);;
      sz <-- read_be 4 (file_size f);;
      sel <-- read_be 2 (selector f);;
      read_data 2;;;
      nm <-- read_data 56;;
      kmodify (fun s => with_files (<[i := mk_file (u32 sz) (u16 sel) nm]> (fwcfg_files s)) s);;;
      read_directory n (S i)
  end.

Definition fwcfg_init : K fwcfg Z :=
  b <-- has_fwcfg;;
  kassert b;;;
  on_machine (outw FW_CFG_PORT_SEL FW_CFG_FILE_DIR);;;
  count <-- read_be 4 0;;
  let count := u32 count in
  kassert (count <? FW_CFG_MAX_FILES);;;
  kmodify (with_count count);;;
  read_directory (Z.to_nat count) 0;;;
  kret (s32 count).

Fixpoint find_file (wanted : list Z) (l : list fwcfg_file) (i : Z) : option Z :=
  match l with
  | [] => None
  | f :: l => if strncmp_bytes 56 wanted (name f) =? 0 then Some i else find_file wanted l (i + 1)
  end.
Definition fwcfg_find_file (wanted : list Z) : K fwcfg Z :=
  s <-- kget;;
  kret (match find_file wanted (take (Z.to_nat (fwcfg_file_count s)) (fwcfg_files s)) 0 with Some i => i | None => - EINVAL end).

Fixpoint read_file_loop (n : nat) (buf : Z) : K fwcfg unit :=
  match n with
  | O => kret tt
  | S n => b <-- on_machine (inb FW_CFG_PORT_DATA);; on_machine (on_ram (store buf b));;; read_file_loop n (buf + 1)
  end.
Definition fwcfg_read_file (file : fwcfg_file) (buf : Z) : K fwcfg Z :=
  on_machine (outw FW_CFG_PORT_SEL (selector file));;;
  read_file_loop (Z.to_nat (file_size file)) buf;;;
  kret (s32 (file_size file)).

(** The comparison with [n] is one of unsigned integers. *)
Definition fwcfg_read (wanted : list Z) (buf n : Z) : K fwcfg Z :=
  i <-- fwcfg_find_file wanted;;
  if i <? 0 then kret i else
  s <-- kget;;
  file <-- kderef (fwcfg_files s !! Z.to_nat i);;
  if file_size file >? u32 n then kret (- ENOMEM) else fwcfg_read_file file buf.

(** The pointer stored through [buf], and the result. *)
Definition fwcfg_read_alloc (wanted : list Z) : K fwcfg (option Z * Z) :=
  i <-- fwcfg_find_file wanted;;
  if i <? 0 then kret (None, i) else
  s <-- kget;;
  file <-- kderef (fwcfg_files s !! Z.to_nat i);;
  buf <-- on_machine (kmalloc (file_size file));;
  r <-- fwcfg_read_file file (default 0 buf);;
  kret (buf, r).

End Ops.

(** ** What the device does

    Selecting a key rewinds its item; every byte read from the data port is the next
    one of the selected item, 0 after its end. *)

Section Device.
Context (item : Z -> list Z).

Fixpoint position (tr : list access) : nat :=
  match tr with
  | [] => 0
  | PortIn _ p :: tr => if p =? FW_CFG_PORT_DATA then S (position tr) else position tr
  | PortOut _ p _ :: tr => if p =? FW_CFG_PORT_SEL then O else position tr
  | _ :: tr => position tr
  end.
Fixpoint selected (tr : list access) : Z :=
  match tr with
  | [] => 0
  | PortOut _ p v :: tr => if p =? FW_CFG_PORT_SEL then v else selected tr
  | _ :: tr => selected tr
  end.
Definition next_byte (tr : list access) : Z := hd 0 (drop (position tr) (item (selected tr))).

(** A machine whose data port is that device's. *)
Class fw_cfg_device {D : devices} : Prop := {
  data_port tr m : answer tr m (PortIn 1 FW_CFG_PORT_DATA) = next_byte tr;
  no_dma tr m : dma tr m = m;
  item_bytes k : Forall (fun b => 0 <= b < 256) (item k)
}.

(** Such a machine, with nothing else in it. *)
Definition fw_cfg_machine : devices := {|
  answer tr m a := match a with PortIn _ p => if p =? FW_CFG_PORT_DATA then next_byte tr else 0 | _ => 0 end;
  dma tr m := m
|}.
End Device.

(** The directory as the device encodes it: numbers are big-endian. *)
Definition be_split (n : nat) (v : Z) : list Z := rev (le_split n v).
Definition encode_file (f : fwcfg_file) : list Z := be_split 4 (file_size f) ++ be_split 2 (selector f) ++ [0; 0] ++ name f.
Definition directory (files : list fwcfg_file) : list Z := be_split 4 (Z.of_nat (length files)) ++ concat (encode_file <$> files).
Definition wf_file (f : fwcfg_file) : Prop := 0 <= file_size f < 2 ^ 32 /\ 0 <= selector f < 2 ^ 16 /\ length (name f) = 56%nat.

(** ** Numbers, most significant byte first *)

Lemma le_split_snoc n v : le_split (S n) v = le_split n v ++ [u8 (v / 256 ^ Z.of_nat n)].
Proof.
  revert v. induction n as [|n IH]; intros v; [cbn; by rewrite Z.div_1_r|].
  change (le_split (S (S n)) v) with (u8 v :: le_split (S n) (v / 256)). rewrite IH. cbn [le_split app].
  rewrite Z.div_div, Nat2Z.inj_succ, Z.pow_succ_r by lia. done.
Qed.

Lemma be_split_S n v : be_split (S n) v = u8 (v / 256 ^ Z.of_nat n) :: be_split n v.
Proof. unfold be_split. rewrite le_split_snoc, rev_app_distr. done. Qed.

Lemma be_split_length n v : length (be_split n v) = n.
Proof. unfold be_split. by rewrite length_rev, le_split_length. Qed.

Lemma be_split_mod n v : be_split n (v mod 256 ^ Z.of_nat n) = be_split n v.
Proof.
  unfold be_split. f_equal. revert v. induction n as [|n IH]; intros v; [done|]. cbn [le_split].
  rewrite Nat2Z.inj_succ, Z.pow_succ_r by lia. f_equal.
  - unfold u8. change (2 ^ 8) with 256. rewrite Z.rem_mul_r, Z.mul_comm, Z.mod_add, Z.mod_mod by lia. done.
  - rewrite Z.rem_mul_r, Z.mul_comm, Z.div_add by lia. rewrite (Z.div_small (v mod 256)) by (apply Z.mod_pos_bound; lia).
    rewrite Z.add_0_l. apply IH.
Qed.

(** ** Reading an encoded directory *)

Section Theorems.
Context {D : devices} (item : Z -> list Z) {FW : fw_cfg_device item}.

(** The data port gives the bytes [bs] next. *)
Definition ahead (s : fwcfg) (bs : list Z) : Prop :=
  drop (position (trace (machine s))) (item (selected (trace (machine s)))) = bs.

(** What reading leaves alone. *)
Definition same (s s' : fwcfg) : Prop :=
  fwcfg_files s' = fwcfg_files s /\ fwcfg_file_count s' = fwcfg_file_count s /\ ram (machine s') = ram (machine s).

Lemma same_refl s : same s s. Proof. done. Qed.
Lemma same_device_trans s s1 s2 : same s s1 -> same s1 s2 -> same s s2.
Proof. intros (? & ? & ?) (? & ? & ?). repeat split; congruence. Qed.

Lemma data_in_ok s b bs : ahead s (b :: bs) -> exists s', on_machine (inb FW_CFG_PORT_DATA) s = Ret b s' /\ ahead s' bs /\ same s s'.
Proof.
  intros Ha. pose proof (item_bytes item (selected (trace (machine s)))) as Hr.
  pose proof (f_equal (hd 0) Ha) as Hn. cbn [hd] in Hn.
  assert (0 <= b < 256) as Hb.
  { apply (Forall_drop _ (position (trace (machine s)))) in Hr. unfold ahead in Ha. rewrite Ha in Hr. by apply Forall_cons in Hr as [? _]. }
  unfold on_machine, inb, occurs, kbind, kret. change (u16 FW_CFG_PORT_DATA) with FW_CFG_PORT_DATA.
  rewrite (data_port item), (no_dma item). unfold next_byte. rewrite Hn, u8_id by done.
  eexists. split; [reflexivity|]. split; [|done]. unfold ahead. cbn [machine with_machine trace position selected].
  change (FW_CFG_PORT_DATA =? FW_CFG_PORT_DATA) with true. cbn beta iota. unfold ahead in Ha.
  rewrite <- (Nat.add_1_r (position _)), <- drop_drop, Ha. done.
Qed.

Lemma select_ok s k : 0 <= k < 2 ^ 16 ->
  exists s', on_machine (outw FW_CFG_PORT_SEL k) s = Ret tt s' /\ ahead s' (item k) /\ same s s'.
Proof.
  intros Hk. unfold on_machine, outw, occurs, kbind, kret. rewrite (no_dma item).
  eexists. split; [reflexivity|]. split; [|done]. unfold ahead. cbn [machine with_machine trace position selected].
  change (u16 FW_CFG_PORT_SEL =? FW_CFG_PORT_SEL) with true. cbn beta iota. rewrite drop_0. unfold u16. by rewrite Z.mod_small.
Qed.

Lemma read_data_ok bs rest s : ahead s (bs ++ rest) ->
  exists s', read_data (length bs) s = Ret bs s' /\ ahead s' rest /\ same s s'.
Proof.
  revert s. induction bs as [|b bs IH]; intros s Ha; [by exists s|]. cbn [length read_data].
  destruct (data_in_ok s b (bs ++ rest) Ha) as (s1 & E & Ha1 & S1). rewrite (krun _ _ _ _ _ E).
  destruct (IH s1 Ha1) as (s2 & E2 & Ha2 & S2). rewrite (krun _ _ _ _ _ E2).
  exists s2. split; [done|]. split; [done|]. by eapply same_device_trans.
Qed.

Lemma read_be_ok n v rest x s : ahead s (be_split n v ++ rest) -> 0 <= v < 256 ^ Z.of_nat n ->
  exists s', read_be n x s = Ret (Z.lor x v) s' /\ ahead s' rest /\ same s s'.
Proof.
  revert v x s. induction n as [|n IH]; intros v x s Ha Hv.
  - exists s. change (256 ^ Z.of_nat 0) with 1 in Hv. assert (v = 0) as -> by lia. by rewrite Z.lor_0_r.
  - rewrite be_split_S in Ha. cbn [read_be app] in *. rewrite Nat2Z.inj_succ, Z.pow_succ_r in Hv by lia.
    destruct (data_in_ok s _ _ Ha) as (s1 & E & Ha1 & S1). rewrite (krun _ _ _ _ _ E).
    pose proof (Z.mod_pos_bound v (256 ^ Z.of_nat n) ltac:(lia)) as Hm. rewrite <- be_split_mod in Ha1.
    assert (0 <= v / 256 ^ Z.of_nat n < 256) as Hq.
    { split; [apply Z.div_pos; lia|]. apply Z.div_lt_upper_bound; lia. }
    destruct (IH _ (Z.lor x (Z.shiftl (u8 (v / 256 ^ Z.of_nat n)) (8 * Z.of_nat n))) s1 Ha1 Hm) as (s2 & E2 & Ha2 & S2).
    exists s2. split; [|split; [done|by eapply same_device_trans]]. rewrite E2, <- Z.lor_assoc. do 2 f_equal.
    rewrite u8_id by done. change 256 with (2 ^ 8) in *. rewrite <- Z.pow_mul_r in * by lia.
    rewrite lor_high by lia. pose proof (Z.div_mod v (2 ^ (8 * Z.of_nat n)) ltac:(lia)). lia.
Qed.

Definition blank_file (f : fwcfg_file) : Prop := file_size f = 0 /\ selector f = 0.

Lemma insert_next {A} (l l' : list A) x y : <[length l := y]> (l ++ x :: l') = l ++ y :: l'.
Proof. induction l as [|z l IH]; [done|]. cbn [length app]. change (z :: <[length l := y]> (l ++ x :: l') = z :: l ++ y :: l'). by rewrite IH. Qed.

(** Rebuilding the state from its parts. *)
Lemma same_files s s' l : same s s' -> same (with_files l s) (with_files l s').
Proof. intros (? & ? & ?). done. Qed.

Lemma read_directory_ok fs rest pre post s : Forall wf_file fs -> ahead s (concat (encode_file <$> fs) ++ rest) ->
  fwcfg_files s = pre ++ post -> Forall blank_file post -> (length fs <= length post)%nat ->
  exists s', read_directory (length fs) (length pre) s = Ret tt s'
  /\ fwcfg_files s' = pre ++ fs ++ drop (length fs) post /\ fwcfg_file_count s' = fwcfg_file_count s /\ ram (machine s') = ram (machine s).
Proof.
  revert pre post s. induction fs as [|f fs IH]; intros pre post s Hw Ha Hf Hb Hl; [by exists s|].
  apply Forall_cons in Hw as [(Hsz & Hsel & Hname) Hw]. destruct post as [|p0 post]; [cbn in Hl; lia|].
  apply Forall_cons in Hb as [[Hb1 Hb2] Hb]. cbn [length read_directory]. unfold kget. unfold kbind at 1.
  assert (fwcfg_files s !! length pre = Some p0) as Hp by (rewrite Hf; apply list_lookup_middle; done).
  rewrite Hp. cbn [kderef]. rewrite kret_run, Hb1, Hb2.
  cbn [fmap list_fmap concat] in Ha. unfold encode_file in Ha. rewrite <- !app_assoc in Ha.
  destruct (read_be_ok 4 _ _ 0 s Ha Hsz) as (s1 & E1 & A1 & S1). rewrite (krun _ _ _ _ _ E1).
  destruct (read_be_ok 2 _ _ 0 s1 A1 Hsel) as (s2 & E2 & A2 & S2). rewrite (krun _ _ _ _ _ E2).
  destruct (read_data_ok [0; 0] _ s2 A2) as (s3 & E3 & A3 & S3). rewrite (krun _ _ _ _ _ E3).
  destruct (read_data_ok (name f) _ s3 A3) as (s4 & E4 & A4 & S4). rewrite Hname in E4. rewrite (krun _ _ _ _ _ E4).
  rewrite !Z.lor_0_l. unfold u32, u16. rewrite !Z.mod_small by done. unfold kmodify. unfold kbind at 1.
  pose proof (same_device_trans _ _ _ (same_device_trans _ _ _ S1 S2) (same_device_trans _ _ _ S3 S4)) as (F & C & R).
  rewrite F, Hf, insert_next. replace (mk_file (file_size f) (selector f) (name f)) with f by (by destruct f).
  destruct (IH (pre ++ [f]) post (with_files (pre ++ f :: post) s4)) as (s' & E & Hf' & Hc & Hr); [done|done| |done|cbn in Hl; lia|].
  { cbn [fwcfg_files with_files]. by rewrite <- app_assoc. }
  rewrite length_app in E. cbn [length] in E. rewrite Nat.add_1_r in E. exists s'. split; [exact E|]. split.
  - rewrite Hf', <- app_assoc. done.
  - cbn [fwcfg_file_count with_files machine] in Hc, Hr. rewrite Hc, Hr. exact (conj C R).
Qed.

Definition zero_file : fwcfg_file := mk_file 0 0 (replicate 56 0).
Definition zero_table : list fwcfg_file := replicate 64 zero_file.

(** C27 (roundtrip): fwcfg_init reads back the directory of the device.  On a machine
    with a fw_cfg device whose directory item encodes a list of fewer than 64 files
    (sizes and selectors big-endian, names of 56 bytes), it returns their number, and the
    table holds exactly these files, followed by unused entries. *)
Theorem fwcfg_init_correct (files : list fwcfg_file) (rest sig : list Z) (s : fwcfg)
  (Hsig : item FW_CFG_SIGNATURE = codes "QEMU" ++ sig) (Hdir : item FW_CFG_FILE_DIR = directory files ++ rest)
  (Hw : Forall wf_file files) (Hlen : (length files < 64)%nat) (Hzero : fwcfg_files s = zero_table) :
  exists s', fwcfg_init s = Ret (Z.of_nat (length files)) s' /\ fwcfg_file_count s' = Z.of_nat (length files)
  /\ fwcfg_files s' = files ++ drop (length files) zero_table /\ ram (machine s') = ram (machine s).
Proof.
  unfold fwcfg_init, has_fwcfg. destruct (select_ok s FW_CFG_SIGNATURE ltac:(done)) as (s1 & E1 & A1 & S1).
  rewrite Hsig in A1. destruct (read_data_ok (codes "QEMU") _ s1 A1) as (s2 & E2 & A2 & S2).
  erewrite krun by (rewrite (krun _ _ _ _ _ E1), (krun _ _ _ _ _ E2); reflexivity). change (strncmp_bytes 4 (codes "QEMU") (codes "QEMU") =? 0) with true. cbn [kassert]. rewrite kret_run.
  destruct (select_ok s2 FW_CFG_FILE_DIR ltac:(done)) as (s3 & E3 & A3 & S3). rewrite (krun _ _ _ _ _ E3).
  rewrite Hdir in A3. unfold directory in A3. rewrite <- app_assoc in A3.
  assert (0 <= Z.of_nat (length files) < 256 ^ Z.of_nat 4) as Hn by (change (256 ^ Z.of_nat 4) with (2 ^ 32); lia).
  destruct (read_be_ok 4 _ _ 0 s3 A3 Hn) as (s4 & E4 & A4 & S4). rewrite (krun _ _ _ _ _ E4), Z.lor_0_l.
  change (256 ^ Z.of_nat 4) with (2 ^ 32) in Hn. unfold u32. rewrite Z.mod_small by done.
  unfold kassert, FW_CFG_MAX_FILES. destruct (Z.ltb_spec (Z.of_nat (length files)) 64); [|lia]. rewrite kret_run.
  unfold kmodify. unfold kbind at 1. rewrite Nat2Z.id.
  pose proof (same_device_trans _ _ _ (same_device_trans _ _ _ S1 S2) (same_device_trans _ _ _ S3 S4)) as (F & C & R).
  destruct (read_directory_ok files rest [] zero_table (with_count (Z.of_nat (length files)) s4)) as (s' & E & Hf & Hc & Hr).
  { done. } { exact A4. } { cbn [fwcfg_files with_count app]. congruence. }
  { apply Forall_replicate. done. } { unfold zero_table. rewrite length_replicate. lia. }
  erewrite krun by exact E. exists s'. cbn [app fwcfg_file_count with_count machine] in *.
  split; [unfold kret; f_equal; apply s32_id; lia|]. split; [done|]. split; [done|]. congruence.
Qed.

(** ** Reading a file *)

Lemma store_step s buf b : 0 <= b < 256 -> is_Some (ram (machine s) !! buf) ->
  on_machine (on_ram (store buf b)) s = Ret tt (with_machine (mk_hw (<[buf := b]> (ram (machine s))) (trace (machine s))) s).
Proof. intros Hb [c Hc]. unfold on_machine, on_ram, store. by rewrite Hc, u8_id. Qed.

Lemma read_file_loop_ok bs rest buf s : ahead s (bs ++ rest) -> Forall (fun b => 0 <= b < 256) bs ->
  mapped (ram (machine s)) buf (Z.of_nat (length bs)) ->
  exists s', read_file_loop (length bs) buf s = Ret tt s' /\ ram (machine s') = write_bytes (ram (machine s)) buf bs
  /\ fwcfg_files s' = fwcfg_files s /\ fwcfg_file_count s' = fwcfg_file_count s.
Proof.
  revert buf s. induction bs as [|b bs IH]; intros buf s Ha Hr Hm; [by exists s|]. apply Forall_cons in Hr as [Hb Hr].
  cbn [length read_file_loop] in *. destruct (data_in_ok s b _ Ha) as (s1 & E1 & A1 & F & C & R). rewrite (krun _ _ _ _ _ E1).
  rewrite (krun _ _ _ _ _ (store_step s1 buf b Hb ltac:(rewrite R; apply Hm; lia))).
  destruct (IH (buf + 1) (with_machine (mk_hw (<[buf := b]> (ram (machine s1))) (trace (machine s1))) s1)) as (s' & E & Hm' & F' & C').
  - exact A1.
  - exact Hr.
  - cbn [with_machine machine ram]. intros a Ha'. rewrite R. apply lookup_insert_is_Some. right. split; [lia|apply Hm; lia].
  - exists s'. cbn [with_machine machine ram fwcfg_files fwcfg_file_count] in *. split; [exact E|].
    rewrite Hm', F', C', R. exact (conj eq_refl (conj F C)).
Qed.

(** Fact (functional): fwcfg_read returns -EINVAL for a name that is not in the directory, -ENOMEM
    for a file larger than the buffer (compared as unsigned integers, so that a negative
    [n] admits every file), and otherwise fills the buffer with the bytes of the file's item and
    returns their number. *)
Theorem fwcfg_read_correct (wanted : list Z) (buf n : Z) (s : fwcfg) :
  match find_file wanted (take (Z.to_nat (fwcfg_file_count s)) (fwcfg_files s)) 0 with
  | None => fwcfg_read wanted buf n s = Ret (- EINVAL) s
  | Some i => forall f bs rest, 0 <= i -> fwcfg_files s !! Z.to_nat i = Some f -> 0 <= file_size f < 2 ^ 31 -> 0 <= selector f < 2 ^ 16 ->
      if u32 n <? file_size f then fwcfg_read wanted buf n s = Ret (- ENOMEM) s
      else item (selector f) = bs ++ rest -> Z.of_nat (length bs) = file_size f -> mapped (ram (machine s)) buf (file_size f) ->
        exists s', fwcfg_read wanted buf n s = Ret (file_size f) s' /\ ram (machine s') = write_bytes (ram (machine s)) buf bs
  end.
Proof.
  unfold fwcfg_read, fwcfg_find_file. destruct (find_file wanted _ 0) as [i|] eqn:Ef.
  - intros f bs rest Hi Hf Hsz Hsel.
    erewrite krun by (unfold kget, kbind; rewrite Ef; reflexivity). destruct (Z.ltb_spec i 0); [lia|].
    rewrite (krun kget _ s s s eq_refl), Hf. cbn [kderef].
    destruct (Z.ltb_spec (u32 n) (file_size f)) as [Hbig|Hfit].
    + rewrite kret_run. destruct (Z.gtb_spec (file_size f) (u32 n)); [done|lia].
    + rewrite kret_run. destruct (Z.gtb_spec (file_size f) (u32 n)); [lia|]. intros Hit Hl Hm. unfold fwcfg_read_file.
      destruct (select_ok s (selector f) Hsel) as (s1 & E1 & A1 & F & C & R). rewrite (krun _ _ _ _ _ E1). rewrite Hit in A1.
      pose proof (item_bytes item (selector f)) as Hr. rewrite Hit in Hr. apply Forall_app in Hr as [Hr _].
      destruct (read_file_loop_ok bs rest buf s1 A1 Hr) as (s2 & E2 & R2 & _); [by rewrite Hl, R|].
      rewrite <- Hl, Nat2Z.id. rewrite (krun _ _ _ _ _ E2). exists s2. rewrite R2, R. split; [|done].
      unfold kret. f_equal. apply s32_id. lia.
  - erewrite krun by (unfold kget, kbind; rewrite Ef; reflexivity). done.
Qed.
End Theorems.

(** ** A device with two files *)

Definition demo_name (s : string) : list Z := take 56 (codes s ++ replicate 56 0).
Definition demo_files : list fwcfg_file := [mk_file 5 0x20 (demo_name "opt/openlsd.test"); mk_file 300 0x21 (demo_name "opt/b")].
Definition demo_item (k : Z) : list Z :=
  if k =? FW_CFG_SIGNATURE then codes "QEMU" else if k =? FW_CFG_FILE_DIR then directory demo_files
  else if k =? 0x20 then codes "fork" ++ [0] else [].

Definition in_bytes (l : list Z) : bool := forallb (fun b => (0 <=? b) && (b <? 256)) l.
Lemma in_bytes_ok l : in_bytes l = true -> Forall (fun b => 0 <= b < 256) l.
Proof. unfold in_bytes. rewrite forallb_forall. intros H. apply Forall_forall. intros b Hb. specialize (H b (proj1 (list_elem_of_In _ _) Hb)). zify_bool. lia. Qed.

#[local] Instance demo_machine : devices := fw_cfg_machine demo_item.
#[local] Instance demo_device : fw_cfg_device demo_item.
Proof.
  split; [done|done|]. intros k. unfold demo_item. repeat case_match; apply in_bytes_ok; vm_compute; reflexivity.
Qed.

Definition demo_fwcfg : fwcfg := mk_fwcfg (mk_hw (write_bytes ∅ 100 (replicate 8 9)) []) zero_table 0.

Lemma fwcfg_init_correct_witness : exists s', fwcfg_init demo_fwcfg = Ret 2 s' /\ fwcfg_files s' !! 1%nat = Some (mk_file 300 0x21 (demo_name "opt/b")).
Proof.
  destruct (fwcfg_init_correct demo_item demo_files [] [] demo_fwcfg) as (s' & E & _ & F & _).
  - vm_compute. reflexivity.
  - vm_compute. reflexivity.
  - repeat constructor; vm_compute; congruence.
  - apply Nat.ltb_lt. vm_compute. reflexivity.
  - reflexivity.
  - exists s'. split; [exact E|]. rewrite F. vm_compute. reflexivity.
Defined.
