(* ===== verification/Symbols.v ===== *)
(** * The kernel's symbol table (kernel/symbols.c)

    The linker leaves a dynamic section that points to a table of symbols and to their
    names; [sdynamic] and [edynsym] are the addresses it gives.  State: byte memory and the
    three static variables of the file. *)

From Stdlib Require Import ZArith Lia.
From stdpp Require Import strings base gmap fin_maps list.
From S2P Require Import Prelude Strings Printfmt Devices Acpi.

#[local] Open Scope Z_scope.
#[local] Open Scope kernel_scope.

Definition ELF_DYN_NULL : Z := 0.
Definition ELF_DYN_STRTAB : Z := 5.
Definition ELF_DYN_SYMTAB : Z := 6.
Definition sizeof_elf_dyn : Z := 16.
Definition sizeof_elf_sym : Z := 24.

Record symbols := mk_symbols { memory : mem; symbols_found : bool; symbol_table : Z; string_table : Z }.

Definition reading {A} (k : K mem A) : K symbols A := fun s =>
  match k (memory s) with
  | Ret a m => Ret a (mk_symbols m (symbols_found s) (symbol_table s) (string_table s))
  | Panic => Panic | Fault => Fault | Hang => Hang
  | NoReturn m => NoReturn (mk_symbols m (symbols_found s) (symbol_table s) (string_table s))
  end.

(** Names are compared with a literal's bytes; see [strcmp] of Strings.v. *)
Section Ops.
Context (sdynamic edynsym : Z).

Fixpoint dynamic_loop (fuel : nat) (dynamic : Z) : K symbols unit :=
  match fuel with
  | O => khang
  | S fuel =>
      d_tag <-- reading (load_le 8 dynamic);;
      if d_tag =? ELF_DYN_NULL then kret tt else
      (if d_tag =? ELF_DYN_SYMTAB then
         d_val <-- reading (load_le 8 (dynamic + 8));; kmodify (fun s => mk_symbols (memory s) (symbols_found s) d_val (string_table s))
       else kret tt);;;
      (if d_tag =? ELF_DYN_STRTAB then
         d_val <-- reading (load_le 8 (dynamic + 8));; kmodify (fun s => mk_symbols (memory s) (symbols_found s) (symbol_table s) d_val)
       else kret tt);;;
      dynamic_loop fuel (dynamic + sizeof_elf_dyn)
  end.

Definition find_symbol_table : K symbols unit :=
  s <-- kget;;
  if symbols_found s then kret tt else
  (fun s => dynamic_loop (rounds (memory s)) sdynamic s);;;
  s <-- kget;;
  if negb (symbol_table s =? 0) && negb (string_table s =? 0)
  then kmodify (fun s => mk_symbols (memory s) true (symbol_table s) (string_table s))
  else kpanic.

Fixpoint symbol_loop (fuel : nat) (name symbol : Z) : K symbols Z :=
  if symbol <? edynsym then
    match fuel with
    | O => khang
    | S fuel =>
        s <-- kget;;
        s_name <-- reading (load_le 4 symbol);;
        r <-- reading (strcmp name (string_table s + s_name));;
        if r =? 0 then reading (load_le 8 (symbol + 8)) else symbol_loop fuel name (symbol + sizeof_elf_sym)
    end
  else kret 0.

Definition find_symbol (name : Z) : K symbols Z :=
  find_symbol_table;;;
  s <-- kget;;
  symbol_loop (Z.to_nat (edynsym - symbol_table s)) name (symbol_table s).

(** ** The tables as the linker writes them *)

Definition dyn_bytes (e : Z * Z) : list Z := le_split 8 e.1 ++ le_split 8 e.2.
Record symbol := mk_symbol { s_name : Z; s_info : Z; s_value : Z; s_size : Z; spelled : list Z }.
Definition sym_bytes (x : symbol) : list Z := le_split 4 (s_name x) ++ le_split 4 (s_info x) ++ le_split 8 (s_value x) ++ le_split 8 (s_size x).
Definition wf_symbol (m : mem) (strings : Z) (x : symbol) : Prop :=
  0 <= s_name x < 2 ^ 32 /\ 0 <= s_value x < 2 ^ 64 /\ cstring m (strings + s_name x) (spelled x).

(** The entries of the dynamic section up to its end. *)
Definition dynamic_at (m : mem) (p : Z) (l : list (Z * Z)) : Prop :=
  bytes_at m p (concat (dyn_bytes <$> l) ++ le_split 8 0) /\ Forall (fun e => 0 < e.1 < 2 ^ 64 /\ 0 <= e.2 < 2 ^ 64) l.

(** The value of the last entry with a tag. *)
Definition last_value (tag : Z) (l : list (Z * Z)) (v : Z) : Z := foldl (fun v e => if e.1 =? tag then e.2 else v) v l.

(** ** Lemmas *)

Lemma memory_run {A} (k : K mem A) s a : k (memory s) = Ret a (memory s) -> reading k s = Ret a s.
Proof. unfold reading. intros ->. by destruct s. Qed.

Lemma load8 p v m : 0 <= v < 2 ^ 64 -> bytes_at m p (le_split 8 v) -> load_le 8 p m = Ret v m.
Proof. intros Hv H. rewrite (load_le_run 8 p m _ (le_split_length 8 v) H). by rewrite le_combine_split. Qed.

Lemma dynamic_loop_ok l fuel p s : dynamic_at (memory s) p l -> (length l < fuel)%nat ->
  dynamic_loop fuel p s = Ret tt (mk_symbols (memory s) (symbols_found s)
    (last_value ELF_DYN_SYMTAB l (symbol_table s)) (last_value ELF_DYN_STRTAB l (string_table s))).
Proof.
  revert fuel p s. induction l as [|[t v] l IH]; intros [|fuel] p s [H Hl] Hf; try (cbn in Hf; lia); cbn [dynamic_loop].
  - rewrite (krun _ _ _ _ _ (memory_run _ s _ (load8 p 0 _ ltac:(lia) H))). by destruct s.
  - apply Forall_cons in Hl as [[Ht Hv] Hl]. cbn [fst snd fmap list_fmap concat] in *.
    unfold dyn_bytes in H at 1. cbn [fst snd] in H. rewrite <- !app_assoc in H.
    apply bytes_at_app in H as [H1 H]. rewrite le_split_length in H. apply bytes_at_app in H as [H2 H]. rewrite le_split_length in H.
    rewrite (krun _ _ _ _ _ (memory_run _ s _ (load8 p t _ ltac:(lia) H1))).
    unfold ELF_DYN_NULL. destruct (Z.eqb_spec t 0); [lia|].
    pose proof (fun s' (E : memory s' = memory s) => memory_run (load_le 8 (p + 8)) s' v ltac:(rewrite E; exact (load8 (p + 8) v _ Hv H2))) as R.
    replace (p + Z.of_nat 8 + Z.of_nat 8) with (p + sizeof_elf_dyn) in H by (unfold sizeof_elf_dyn; lia).
    cbn [last_value foldl fst snd length] in *.
    set (s1 := if t =? ELF_DYN_SYMTAB then mk_symbols (memory s) (symbols_found s) v (string_table s) else s).
    erewrite (krun _ _ s _ s1).
    2: { unfold s1. destruct (t =? ELF_DYN_SYMTAB); [|done]. by rewrite (krun _ _ _ _ _ (R s eq_refl)). }
    set (s2 := if t =? ELF_DYN_STRTAB then mk_symbols (memory s1) (symbols_found s1) (symbol_table s1) v else s1).
    assert (memory s1 = memory s) as Em1 by (unfold s1; by destruct (t =? ELF_DYN_SYMTAB)).
    erewrite (krun _ _ s1 _ s2).
    2: { unfold s2. destruct (t =? ELF_DYN_STRTAB); [|done]. by rewrite (krun _ _ _ _ _ (R s1 Em1)). }
    assert (memory s2 = memory s) as Em2 by (unfold s2; by destruct (t =? ELF_DYN_STRTAB)).
    rewrite IH; [|by rewrite Em2|lia]. rewrite Em2. unfold s2, s1, last_value.
    destruct (t =? ELF_DYN_STRTAB), (t =? ELF_DYN_SYMTAB); reflexivity.
Qed.

Lemma symbol_loop_ok l fuel name wanted p s : cstring (memory s) name wanted ->
  bytes_at (memory s) p (concat (sym_bytes <$> l)) -> Forall (wf_symbol (memory s) (string_table s)) l ->
  edynsym = p + sizeof_elf_sym * Z.of_nat (length l) -> (length l <= fuel)%nat ->
  symbol_loop fuel name p s = Ret (match find (fun x => bool_decide (spelled x = wanted)) l with Some x => s_value x | None => 0 end) s.
Proof.
  intros Hn. revert fuel p. induction l as [|x l IH]; intros fuel p H Hw He Hf.
  - cbn [length] in He. destruct fuel; cbn [symbol_loop find]; (destruct (Z.ltb_spec p edynsym); [lia|done]).
  - apply Forall_cons in Hw as [(Hx & Hv & Hs) Hw]. cbn [length] in *. destruct fuel as [|fuel]; [lia|].
    cbn [symbol_loop fmap list_fmap concat] in *. assert (sizeof_elf_sym = 24) as H24 by reflexivity. unfold sizeof_elf_sym in He.
    destruct (Z.ltb_spec p edynsym); [|lia].
    unfold sym_bytes in H at 1. rewrite <- !app_assoc in H.
    apply bytes_at_app in H as [H1 H]. apply bytes_at_app in H as [_ H]. apply bytes_at_app in H as [H2 H]. apply bytes_at_app in H as [_ H].
    rewrite !le_split_length in *. rewrite (krun kget _ s s s eq_refl).
    rewrite (krun _ _ _ _ _ (memory_run _ s _ (load_le_run 4 p _ _ (le_split_length 4 (s_name x)) H1))), le_combine_split by exact Hx.
    destruct (strcmp_loop_ok (rounds (memory s)) _ _ _ _ _ Hn Hs (cstring_rounds _ _ _ Hn)) as (r & E & Hr & _).
    rewrite (krun _ _ _ _ _ (memory_run (strcmp name (string_table s + s_name x)) s r E)). cbn [find].
    assert (r = 0 <-> spelled x = wanted) as Hr0.
    { rewrite <- Z.compare_eq_iff, Hr, lex_eq. split; congruence. }
    destruct (Z.eqb_spec r 0) as [->|Hne].
    + rewrite bool_decide_true by tauto. apply memory_run, load8; [done|].
      replace (p + 8) with (p + Z.of_nat 4 + Z.of_nat 4) by lia. done.
    + rewrite bool_decide_false by tauto. apply IH; [|done|unfold sizeof_elf_sym; lia|lia].
      replace (p + sizeof_elf_sym) with (p + Z.of_nat 4 + Z.of_nat 4 + Z.of_nat 8 + Z.of_nat 8) by (unfold sizeof_elf_sym; lia). done.
Qed.

(** Fact (functional): find_symbol gives the value of the first symbol of the table that is
    spelled like the name, and NULL if there is none; the tables are those of the last
    entries of the dynamic section, and looking them up happens once. *)
Theorem find_symbol_correct (name : Z) (wanted : list Z) (dynamic : list (Z * Z)) (l : list symbol) (s : symbols) :
  let tab := last_value ELF_DYN_SYMTAB dynamic 0 in let strings := last_value ELF_DYN_STRTAB dynamic 0 in
  symbols_found s = false -> symbol_table s = 0 -> string_table s = 0 ->
  dynamic_at (memory s) sdynamic dynamic -> tab <> 0 -> strings <> 0 ->
  cstring (memory s) name wanted -> bytes_at (memory s) tab (concat (sym_bytes <$> l)) -> Forall (wf_symbol (memory s) strings) l ->
  edynsym = tab + sizeof_elf_sym * Z.of_nat (length l) ->
  find_symbol name s = Ret (match find (fun x => bool_decide (spelled x = wanted)) l with Some x => s_value x | None => 0 end)
    (mk_symbols (memory s) true tab strings).
Proof.
  intros tab strings Hf Ht Hs Hd Htab Hstr Hn Hl Hw He. unfold find_symbol, find_symbol_table.
  assert (length dynamic < rounds (memory s))%nat as Hfuel.
  { destruct Hd as [Hd _]. apply bytes_at_size in Hd. unfold rounds. rewrite length_app in Hd.
    assert (length dynamic <= length (concat (dyn_bytes <$> dynamic)))%nat; [|lia]. clear. induction dynamic as [|e l IH]; [done|].
    cbn [fmap list_fmap concat length]. rewrite length_app. unfold dyn_bytes at 1. rewrite length_app, !le_split_length. lia. }
  erewrite krun.
  2: { rewrite (krun kget _ s s s eq_refl), Hf. erewrite krun by (apply dynamic_loop_ok; [exact Hd|exact Hfuel]).
       rewrite (krun kget _ _ _ _ eq_refl). cbn [symbol_table string_table]. rewrite Ht, Hs. fold tab strings.
       destruct (Z.eqb_spec tab 0); [done|]. destruct (Z.eqb_spec strings 0); [done|]. reflexivity. }
  rewrite (krun kget _ _ _ _ eq_refl). cbn [symbol_table string_table memory symbols_found].
  erewrite (symbol_loop_ok l); [reflexivity|exact Hn|exact Hl|exact Hw|exact He|].
  rewrite He. unfold sizeof_elf_sym. lia.
Qed.
End Ops.
