(* ===== verification/Boot.v ===== *)
(** * The boot loader (boot/main.c)

    bootmain reads the kernel's ELF image from the disk and jumps to it.  The disk is an
    argument, a function from sector numbers to sectors; so is the size of the second stage
    of the loader, after which the image starts.  The routine that reads a sector through
    the BIOS is assembly.  Pointers and sizes have 32 bits. *)

From Stdlib Require Import ZArith Lia.
From stdpp Require Import strings base gmap fin_maps list sorting.
From S2P Require Import Prelude Strings Devices.

#[local] Open Scope Z_scope.
#[local] Open Scope kernel_scope.

Definition SECTSIZE : Z := 512.
Definition ELFHDR : Z := 0x10000.
(** The buffer that readsect reads to. *)
Definition sector_buffer : Z := 0x1000.
Definition boot_magic : Z := 0x464C457F.
(** Offsets in struct elf and struct elf_proghdr. *)
Definition e_entry_off : Z := 24.
Definition e_phoff_off : Z := 32.
Definition e_phnum_off : Z := 56.
Definition sizeof_proghdr : Z := 56.
Definition p_offset_off : Z := 8.
Definition p_pa_off : Z := 24.
Definition p_memsz_off : Z := 40.
Definition boot_info_elf_hdr : Z := 8.

Section Loader.
(** The disk, and [stage2_end - stage2]. *)
Variable disk : Z -> list Z.
Variable stage2_size : Z.

Definition read_sector32 (dst offset : Z) : K mem unit := write_unit dst (disk offset).

(** memcpy of the loader: byte by byte, upwards. *)
Fixpoint copy_bytes (n : nat) (d s : Z) : K mem unit :=
  match n with
  | O => kret tt
  | S n => c <-- load s;; store d c;;; copy_bytes n (d + 1) (s + 1)
  end.

Definition readsect (dst offset : Z) : K mem unit :=
  read_sector32 sector_buffer offset;;;
  copy_bytes (Z.to_nat SECTSIZE) dst sector_buffer.

Fixpoint readseg_loop (fuel : nat) (pa end_pa offset : Z) : K mem unit :=
  match fuel with
  | O => khang
  | S fuel =>
      if pa <? end_pa then
        readsect pa offset;;;
        readseg_loop fuel (u32 (pa + SECTSIZE)) end_pa (u32 (offset + 1))
      else kret tt
  end.

(** A pass of the loop moves 512 bytes on; a range that ends in the last sector of the 32-bit
    address space never ends. *)
Definition readseg (pa count offset : Z) : K mem unit :=
  let end_pa := u32 (pa + count) in
  let pa := u32 (pa - pa mod SECTSIZE) in
  let offset := u32 (offset / SECTSIZE + 1 + (stage2_size + SECTSIZE - 1) / SECTSIZE) in
  readseg_loop (S (S (Z.to_nat ((end_pa - pa) / SECTSIZE)))) pa end_pa offset.

Fixpoint load_loop (fuel : nat) (ph eph : Z) : K mem unit :=
  match fuel with
  | O => khang
  | S fuel =>
      if ph <? eph then
        pa <-- load_le 8 (ph + p_pa_off);;
        memsz <-- load_le 8 (ph + p_memsz_off);;
        offset <-- load_le 8 (ph + p_offset_off);;
        readseg (u32 pa) (u32 memsz) (u32 offset);;;
        load_loop fuel (u32 (ph + sizeof_proghdr)) eph
      else kret tt
  end.

(** The value is the address jumped to.  The text of the error is left out. *)
Definition bootmain {D : devices} (boot_info : Z) : K hw Z :=
  on_ram (store_le 4 (boot_info + boot_info_elf_hdr) ELFHDR);;;
  on_ram (readseg ELFHDR (SECTSIZE * 8) 0);;;
  magic <-- on_ram (load_le 4 ELFHDR);;
  if magic =? boot_magic then
    phoff <-- on_ram (load_le 8 (ELFHDR + e_phoff_off));;
    phnum <-- on_ram (load_le 2 (ELFHDR + e_phnum_off));;
    let ph := u32 (ELFHDR + phoff) in
    on_ram (load_loop (S (Z.to_nat phnum)) ph (u32 (ph + sizeof_proghdr * phnum)));;;
    entry <-- on_ram (load_le 8 (ELFHDR + e_entry_off));;
    kret (u32 entry)
  else
    outw 0x8A00 0x8A00;;; outw 0x8A00 0x8E00;;; khang.
End Loader.

(** ** What the loader leaves in memory *)

Section Theorems.
Variable disk : Z -> list Z.
Variable stage2_size : Z.
Hypothesis disk_sectors : forall i, length (disk i) = 512%nat /\ Forall (fun b => 0 <= b < 256) (disk i).
Hypothesis stage2_small : 0 <= stage2_size < 2 ^ 20.

(** The image: sector and byte [i]. *)
Definition first_sector : Z := 1 + (stage2_size + 511) / 512.
Definition image_byte (i : Z) : Z := default 0 (disk (first_sector + i / 512) !! Z.to_nat (i mod 512)).
Definition image_field (n : nat) (i : Z) : Z := le_combine (image_byte <$> seqZ i (Z.of_nat n)).

Lemma copy_bytes_ok bs m d s : bytes_at m s bs -> Forall (fun b => 0 <= b < 256) bs -> mapped m d (Z.of_nat (length bs)) ->
  (d + Z.of_nat (length bs) <= s \/ s + Z.of_nat (length bs) <= d) -> copy_bytes (length bs) d s m = Ret tt (write_bytes m d bs).
Proof.
  revert m d s. induction bs as [|b bs IH]; intros m d s Hs Hb Hd Hdis; cbn [length copy_bytes write_bytes]; [done|].
  cbn [length] in *. destruct Hs as [H0 Hs]. apply Forall_cons in Hb as [Hb Hbs].
  rewrite (bind_load _ b) by done. rewrite bind_store by (apply Hd; lia). rewrite u8_id by done. apply IH; [|done| |lia].
  - apply bytes_at_insert; [done|lia].
  - intros a Ha. rewrite lookup_insert. case_decide; [eauto|]. apply Hd. lia.
Qed.

Definition off_buffer (d n : Z) : Prop := d + n <= sector_buffer \/ sector_buffer + 512 <= d.

Lemma readsect_ok m d i : mapped m sector_buffer 512 -> mapped m d 512 -> off_buffer d 512 ->
  readsect disk d i m = Ret tt (write_bytes (write_bytes m sector_buffer (disk i)) d (disk i)).
Proof.
  intros Hb Hd Ho. destruct (disk_sectors i) as [Hl Hr]. unfold readsect, read_sector32.
  assert (write_unit sector_buffer (disk i) m = Ret tt (write_bytes m sector_buffer (disk i))) as E
    by (apply write_unit_ok; [by rewrite Hl|done]).
  rewrite (krun _ _ _ _ _ E). change (Z.to_nat SECTSIZE) with 512%nat. rewrite <- Hl.
  apply copy_bytes_ok; [apply write_bytes_at|done| |rewrite Hl; unfold off_buffer in Ho; lia].
  rewrite Hl. intros a Ha. rewrite write_bytes_lookup. case_decide; [apply lookup_lt_is_Some; lia|by apply Hd].
Qed.

(** [n] sectors from [d] on. *)
Fixpoint placed (n : nat) (m : mem) (d i : Z) : mem :=
  match n with
  | O => m
  | S n => placed n (write_bytes (write_bytes m sector_buffer (disk i)) d (disk i)) (d + 512) (i + 1)
  end.

Lemma mapped_write m p bs a n : mapped m a n -> mapped (write_bytes m p bs) a n.
Proof. intros H x Hx. rewrite write_bytes_lookup. case_decide; [apply lookup_lt_is_Some; lia|by apply H]. Qed.

Lemma placed_lookup n m d i a : 0 <= d -> off_buffer d (512 * Z.of_nat n) ->
  (d <= a < d + 512 * Z.of_nat n -> placed n m d i !! a = disk (i + (a - d) / 512) !! Z.to_nat ((a - d) mod 512))
  /\ ((a < d \/ d + 512 * Z.of_nat n <= a) -> (a < sector_buffer \/ sector_buffer + 512 <= a) -> placed n m d i !! a = m !! a).
Proof.
  revert m d i. induction n as [|n IH]; intros m d i Hd0 Ho; cbn [placed]; [split; [lia|done]|]. unfold off_buffer in *.
  destruct (disk_sectors i) as [Hl _].
  destruct (IH (write_bytes (write_bytes m sector_buffer (disk i)) d (disk i)) (d + 512) (i + 1) ltac:(lia) ltac:(lia)) as [H1 H2].
  split.
  - intros Ha. destruct (decide (a < d + 512)) as [Hlt|Hge].
    + rewrite H2 by lia. rewrite write_bytes_lookup, Hl, decide_True by lia.
      rewrite Z.div_small, Z.mod_small, Z.add_0_r by lia. done.
    + rewrite H1 by lia. replace (a - d) with (a - (d + 512) + 1 * 512) by lia. rewrite Z.div_add, Z.mod_add by lia.
      do 2 f_equal. lia.
  - intros Ha Hb. rewrite H2 by lia. by rewrite !write_bytes_lookup, !decide_False by (rewrite Hl; lia).
Qed.

Lemma placed_mapped n m d i a k : mapped m a k -> mapped (placed n m d i) a k.
Proof. revert m d i. induction n as [|n IH]; intros m d i H; cbn [placed]; [done|]. by apply IH, mapped_write, mapped_write. Qed.

Lemma readseg_loop_ok n fuel m d e i : mapped m sector_buffer 512 -> mapped m d (512 * Z.of_nat n) -> off_buffer d (512 * Z.of_nat n) ->
  0 <= d -> e <= 2 ^ 32 - 512 -> 0 <= i -> i + Z.of_nat n < 2 ^ 32 ->
  (n = 0%nat -> e <= d) -> e <= d + 512 * Z.of_nat n -> (n <> 0%nat -> d + 512 * (Z.of_nat n - 1) < e) -> (n < fuel)%nat ->
  readseg_loop disk fuel d e i m = Ret tt (placed n m d i).
Proof.
  revert fuel m d i. induction n as [|n IH]; intros [|fuel] m d i Hb Hd Ho H0 He Hi Hi2 Hz Hle Hlt Hf; (lia || idtac); cbn [readseg_loop placed].
  { destruct (Z.ltb_spec d e); [lia|done]. }
  destruct (Z.ltb_spec d e); [|lia]. unfold off_buffer in *.
  assert (readsect disk d i m = _) as E by (apply readsect_ok; [done|intros a Ha; apply Hd; lia|unfold off_buffer; lia]).
  rewrite (krun _ _ _ _ _ E). unfold SECTSIZE, u32. rewrite !Z.mod_small by lia.
  apply IH; (lia || (try by apply mapped_write, mapped_write)); [apply mapped_write, mapped_write; intros a Ha; apply Hd; lia].
Qed.

(** ** Segments *)

Record segment := mk_segment { s_pa : Z; s_memsz : Z; s_offset : Z }.
(** The sectors a segment takes. *)
Definition seg_lo (x : segment) : Z := s_pa x - s_pa x mod 512.
Definition seg_sectors (x : segment) : Z := (s_pa x + s_memsz x - seg_lo x + 511) / 512.
Definition seg_end (x : segment) : Z := seg_lo x + 512 * seg_sectors x.

(** A segment within the first 4 GB whose place on disk fits its place in memory, away from the
    buffer. *)
Record placeable (m : mem) (x : segment) : Prop := {
  pl_pa : 0 <= s_pa x;
  pl_memsz : 0 <= s_memsz x;
  pl_end : s_pa x + s_memsz x <= 2 ^ 32 - 512;
  pl_offset : 0 <= s_offset x < 2 ^ 32;
  pl_align : s_offset x mod 512 = s_pa x mod 512;
  pl_buffer : off_buffer (seg_lo x) (seg_end x - seg_lo x);
  pl_mapped : mapped m (seg_lo x) (seg_end x - seg_lo x)
}.

(** The byte of the image that belongs at an address of the segment's sectors. *)
Definition seg_byte (x : segment) (a : Z) : Z := image_byte (s_offset x + (a - s_pa x)).

Lemma seg_sectors_bounds x : 0 <= s_pa x -> 0 <= s_memsz x ->
  0 <= seg_sectors x /\ s_pa x + s_memsz x <= seg_end x < s_pa x + s_memsz x + 512.
Proof.
  intros H1 H2. unfold seg_end, seg_sectors, seg_lo. pose proof (Z.mod_pos_bound (s_pa x) 512).
  pose proof (Z.div_mod (s_pa x + s_memsz x - (s_pa x - s_pa x mod 512) + 511) 512).
  pose proof (Z.mod_pos_bound (s_pa x + s_memsz x - (s_pa x - s_pa x mod 512) + 511) 512). lia.
Qed.

(** readseg brings the sectors of a segment, and beside them changes only the buffer. *)
Lemma readseg_ok m x : mapped m sector_buffer 512 -> placeable m x ->
  exists m', readseg disk stage2_size (s_pa x) (s_memsz x) (s_offset x) m = Ret tt m'
    /\ (forall a, seg_lo x <= a < seg_end x -> m' !! a = Some (seg_byte x a))
    /\ (forall a, (a < seg_lo x \/ seg_end x <= a) -> (a < sector_buffer \/ sector_buffer + 512 <= a) -> m' !! a = m !! a)
    /\ (forall a n, mapped m a n -> mapped m' a n).
Proof.
  intros Hb [Hpa Hsz Hend Hoff Hal Hbuf Hmap]. destruct (seg_sectors_bounds x Hpa Hsz) as (Hn & He1 & He2).
  pose proof (Z.mod_pos_bound (s_pa x) 512 ltac:(lia)) as Hmod. pose proof (Z.div_mod (s_pa x) 512 ltac:(lia)) as Hdm.
  assert (0 <= seg_lo x) as Hlo by (unfold seg_lo; pose proof (Z.div_pos (s_pa x) 512); lia).
  set (n := Z.to_nat (seg_sectors x)). set (i := s_offset x / 512 + first_sector).
  pose proof (Z.div_lt_upper_bound (s_offset x) 512 (2 ^ 23) ltac:(lia) ltac:(lia)) as Hi1. pose proof (Z.div_pos (s_offset x) 512 ltac:(lia) ltac:(lia)).
  assert (0 <= (stage2_size + 511) / 512 < 2 ^ 12) as Hs2.
  { split; [apply Z.div_pos; lia|apply Z.div_lt_upper_bound; lia]. }
  unfold seg_end in *. replace (seg_lo x + 512 * seg_sectors x - seg_lo x) with (512 * Z.of_nat n) in * by lia.
  exists (placed n m (seg_lo x) i). split; [|split; [|split]].
  - unfold readseg. change SECTSIZE with 512.
    assert (u32 (s_pa x + s_memsz x) = s_pa x + s_memsz x) as -> by (unfold u32; rewrite Z.mod_small; lia).
    assert (u32 (s_pa x - s_pa x mod 512) = seg_lo x) as -> by (unfold u32, seg_lo in *; rewrite Z.mod_small; lia).
    assert (u32 (s_offset x / 512 + 1 + (stage2_size + 512 - 1) / 512) = i) as ->.
    { replace (stage2_size + 512 - 1) with (stage2_size + 511) by lia. unfold i, first_sector, u32. rewrite Z.mod_small; lia. }
    apply readseg_loop_ok; try done; try (unfold i, first_sector; lia).
    unfold n, seg_sectors. pose proof (Z.div_le_mono (s_pa x + s_memsz x - seg_lo x + 511) (s_pa x + s_memsz x - seg_lo x + 1 * 512) 512).
    rewrite Z.div_add in * by lia. lia.
  - intros a Ha. destruct (placed_lookup n m (seg_lo x) i a Hlo Hbuf) as [-> _]; [|lia].
    destruct (disk_sectors (i + (a - seg_lo x) / 512)) as [Hl _]. unfold seg_byte, image_byte.
    assert (s_offset x + (a - s_pa x) = a - seg_lo x + s_offset x / 512 * 512) as ->
      by (unfold seg_lo; pose proof (Z.div_mod (s_offset x) 512); lia).
    rewrite Z.div_add, Z.mod_add by lia. replace (first_sector + ((a - seg_lo x) / 512 + s_offset x / 512)) with (i + (a - seg_lo x) / 512) by (unfold i; lia).
    pose proof (Z.mod_pos_bound (a - seg_lo x) 512). destruct (lookup_lt_is_Some_2 (disk (i + (a - seg_lo x) / 512)) (Z.to_nat ((a - seg_lo x) mod 512))) as [b ->]; [lia|done].
  - intros a Ha1 Ha2. destruct (placed_lookup n m (seg_lo x) i a Hlo Hbuf) as [_ ->]; [done|lia|done].
  - intros a k Hk. by apply placed_mapped.
Qed.
(** ** The program headers *)

Definition image_segment (j : Z) : segment :=
  let ph := image_field 8 e_phoff_off + sizeof_proghdr * j in
  mk_segment (u32 (image_field 8 (ph + p_pa_off))) (u32 (image_field 8 (ph + p_memsz_off))) (u32 (image_field 8 (ph + p_offset_off))).

(** The first page of the image, where the loader puts it. *)
Definition header_page : segment := mk_segment ELFHDR 4096 0.
Definition header_at (m : mem) : Prop := forall a, ELFHDR <= a < ELFHDR + 4096 -> m !! a = Some (image_byte (a - ELFHDR)).

Lemma bytes_at_fields (f : Z -> Z) m p n : (forall k, 0 <= k < Z.of_nat n -> m !! (p + k) = Some (f k)) -> bytes_at m p (f <$> seqZ 0 (Z.of_nat n)).
Proof.
  revert f p. induction n as [|n IH]; intros f p H; [done|]. rewrite seqZ_cons by lia. cbn [fmap list_fmap bytes_at].
  split; [by rewrite <- (Z.add_0_r p), H by lia|].
  replace (Z.pred (Z.of_nat (S n))) with (Z.of_nat n) by lia. change (Z.succ 0) with (1 + 0). rewrite <- fmap_add_seqZ, <- list_fmap_compose.
  apply (IH (f ∘ Z.add 1)). intros k Hk. rewrite <- Z.add_assoc. apply H. lia.
Qed.

Lemma header_field n m o : header_at m -> 0 <= o -> o + Z.of_nat n <= 4096 -> load_le n (ELFHDR + o) m = Ret (image_field n o) m.
Proof.
  intros Hh Ho Hn. unfold image_field. assert (seqZ o (Z.of_nat n) = Z.add o <$> seqZ 0 (Z.of_nat n)) as -> by (rewrite fmap_add_seqZ; f_equal; lia).
  rewrite <- list_fmap_compose. apply load_le_run.
  - rewrite length_fmap, length_seqZ. lia.
  - apply (bytes_at_fields (image_byte ∘ Z.add o)). intros k Hk. rewrite Hh by lia. unfold compose. do 2 f_equal. lia.
Qed.

(** Loading [x] leaves the memory of [y] alone. *)
Definition spares (x : segment) (lo n : Z) : Prop := forall a, lo <= a < lo + n -> a < seg_lo x \/ seg_end x <= a.

Record loadable (m : mem) (j : Z) : Prop := {
  ld_place : placeable m (image_segment j);
  ld_header : spares (image_segment j) ELFHDR 4096
}.

Lemma loadable_mono m m' j : (forall a n, mapped m a n -> mapped m' a n) -> loadable m j -> loadable m' j.
Proof. intros H [[] ?]. split; [|done]. split; try done. by apply H. Qed.

Definition ph_at (j : Z) : Z := ELFHDR + (image_field 8 e_phoff_off + sizeof_proghdr * j).

(** The headers [j], ..., [j + n - 1]. *)
Lemma load_loop_ok n m j : let e := j + Z.of_nat n in
  mapped m sector_buffer 512 -> header_at m -> 0 <= j -> 0 <= image_field 8 e_phoff_off -> image_field 8 e_phoff_off + sizeof_proghdr * e <= 4096 ->
  (forall i, j <= i < e -> loadable m i) ->
  (forall i k, j <= i < k -> k < e -> spares (image_segment k) (s_pa (image_segment i)) (s_memsz (image_segment i))) ->
  exists m', load_loop disk stage2_size (S n) (ph_at j) (ph_at e) m = Ret tt m' /\ header_at m'
    /\ (forall i a, j <= i < e -> s_pa (image_segment i) <= a < s_pa (image_segment i) + s_memsz (image_segment i) ->
         m' !! a = Some (seg_byte (image_segment i) a))
    /\ (forall a, (forall i, j <= i < e -> a < seg_lo (image_segment i) \/ seg_end (image_segment i) <= a) ->
         (a < sector_buffer \/ sector_buffer + 512 <= a) -> m' !! a = m !! a).
Proof.
  revert m j. induction n as [|n IH]; intros m j e Hb Hh Hj Hp Hfit Hld Hsp; cbn [load_loop].
  { replace e with j by lia. rewrite Z.ltb_irrefl. exists m. repeat split; try done. lia. }
  assert (ph_at j < ph_at e) as Hlt by (unfold ph_at, sizeof_proghdr; lia). rewrite (proj2 (Z.ltb_lt _ _) Hlt).
  assert (forall o, 0 <= o <= 48 -> load_le 8 (ph_at j + o) m = Ret (image_field 8 (image_field 8 e_phoff_off + sizeof_proghdr * j + o)) m) as Hf.
  { intros o Ho. replace (ph_at j + o) with (ELFHDR + (image_field 8 e_phoff_off + sizeof_proghdr * j + o)) by (unfold ph_at; lia).
    apply header_field; [done|unfold sizeof_proghdr in *; lia..]. }
  rewrite (krun _ _ _ _ _ (Hf p_pa_off ltac:(unfold p_pa_off; lia))), (krun _ _ _ _ _ (Hf p_memsz_off ltac:(unfold p_memsz_off; lia))),
    (krun _ _ _ _ _ (Hf p_offset_off ltac:(unfold p_offset_off; lia))).
  destruct (Hld j ltac:(lia)) as [Hpl Hhd]. destruct (readseg_ok m (image_segment j) Hb Hpl) as (m1 & E & H1 & H2 & Hmp).
  cbn [image_segment s_pa s_memsz s_offset] in E. rewrite (krun _ _ _ _ _ E).
  assert (u32 (ph_at j + sizeof_proghdr) = ph_at (j + 1)) as ->.
  { unfold u32. rewrite Z.mod_small; unfold ph_at, sizeof_proghdr, ELFHDR in *; lia. }
  assert (header_at m1) as Hh1.
  { intros a Ha. rewrite H2; [by apply Hh|by apply Hhd|unfold ELFHDR, sector_buffer in *; lia]. }
  destruct (IH m1 (j + 1)) as (m' & E2 & Hh2 & H3 & H4); replace (j + 1 + Z.of_nat n) with e in * by lia.
  - by apply Hmp.
  - done.
  - lia.
  - done.
  - done.
  - intros i Hi. apply (loadable_mono m); [done|]. apply Hld. lia.
  - intros i k Hi Hk. apply Hsp; lia.
  - exists m'. split; [done|]. split; [done|]. split.
    + intros i a Hi Ha. destruct (decide (i = j)) as [->|]; [|apply H3; [lia|done]].
      destruct Hpl as [Hpa Hsz _ _ _ Hbuf _]. pose proof (seg_sectors_bounds (image_segment j) Hpa Hsz) as (Hn & Hend & _).
      pose proof (Z.mod_pos_bound (s_pa (image_segment j)) 512). unfold off_buffer in Hbuf.
      assert (seg_lo (image_segment j) <= s_pa (image_segment j)) by (unfold seg_lo; lia).
      rewrite H4; [apply H1; lia| |lia]. intros k Hk. apply (Hsp j k); [lia..|done].
    + intros a Ha Hbuf. rewrite H4; [apply H2; [apply Ha; lia|done]|intros i Hi; apply Ha; lia|done].
Qed.

Section Main.
Context {D : devices}.

(** C33 (functional): bootmain.  Given a disk with an ELF image whose program headers lie in its first
    page and whose segments have the same offset in their sectors on disk and in memory, lie in memory
    away from the loader's buffer and from the headers and do not overwrite each other, the loader
    jumps to the entry point of the image with every byte of every segment in its place, having
    used no port. *)
Theorem bootmain_correct (boot_info : Z) (s : hw) :
  let phnum := image_field 2 e_phnum_off in
  mapped (ram s) sector_buffer 512 -> mapped (ram s) ELFHDR 4096 -> mapped (ram s) (boot_info + boot_info_elf_hdr) 4 ->
  image_field 4 0 = boot_magic ->
  0 <= phnum -> 0 <= image_field 8 e_phoff_off -> image_field 8 e_phoff_off + sizeof_proghdr * phnum <= 4096 ->
  (forall j, 0 <= j < phnum -> loadable (ram s) j) ->
  (forall i j, 0 <= i < j -> j < phnum -> spares (image_segment j) (s_pa (image_segment i)) (s_memsz (image_segment i))) ->
  exists s', bootmain disk stage2_size boot_info s = Ret (u32 (image_field 8 e_entry_off)) s' /\ trace s' = trace s
    /\ forall j k, 0 <= j < phnum -> 0 <= k < s_memsz (image_segment j) ->
         ram s' !! (s_pa (image_segment j) + k) = Some (image_byte (s_offset (image_segment j) + k)).
Proof.
  intros phnum Hb Hhdr Hbi Hm Hn0 Hp Hfit Hld Hsp. unfold bootmain.
  set (m0 := write_bytes (ram s) (boot_info + boot_info_elf_hdr) (le_split 4 ELFHDR)).
  assert (store_le 4 (boot_info + boot_info_elf_hdr) ELFHDR (ram s) = Ret tt m0) as E0.
  { apply write_unit_ok; [by rewrite le_split_length|apply le_split_range]. }
  rewrite (krun _ _ _ _ _ (on_ram_run _ _ _ _ E0)).
  destruct (readseg_ok m0 header_page) as (m1 & E1 & H1 & _ & Hmp); [by apply mapped_write| |].
  { split; try (cbn; lia); try done. - right. done. - change (seg_end header_page - seg_lo header_page) with 4096. by apply mapped_write. }
  assert (forall a n, mapped (ram s) a n -> mapped m1 a n) as Hmp1 by (intros a n Ha; by apply Hmp, mapped_write).
  assert (readseg disk stage2_size ELFHDR (SECTSIZE * 8) 0 m0 = Ret tt m1) as E1' by exact E1.
  rewrite (krun _ _ _ _ _ (on_ram_run _ (mk_hw m0 (trace s)) _ _ E1')).
  assert (header_at m1) as Hh by exact H1.
  assert (forall n o, 0 <= o -> o + Z.of_nat n <= 4096 -> forall tr, on_ram (load_le n (ELFHDR + o)) (mk_hw m1 tr) = Ret (image_field n o) (mk_hw m1 tr)) as Hf.
  { intros n o Ho Hn tr. by apply (on_ram_run _ (mk_hw m1 tr)), header_field. }
  rewrite (krun _ _ _ _ _ (Hf 4%nat 0 ltac:(lia) ltac:(lia) _)), Hm, Z.eqb_refl.
  rewrite (krun _ _ _ _ _ (Hf 8%nat e_phoff_off ltac:(unfold e_phoff_off; lia) ltac:(unfold e_phoff_off; lia) _)),
    (krun _ _ _ _ _ (Hf 2%nat e_phnum_off ltac:(unfold e_phnum_off; lia) ltac:(unfold e_phnum_off; lia) _)). fold phnum.
  assert (u32 (ELFHDR + image_field 8 e_phoff_off) = ph_at 0) as ->.
  { unfold u32, ph_at. rewrite Z.mod_small; unfold ELFHDR, sizeof_proghdr in *; lia. }
  assert (u32 (ph_at 0 + sizeof_proghdr * phnum) = ph_at (0 + Z.of_nat (Z.to_nat phnum))) as ->.
  { unfold u32, ph_at. rewrite Z.mod_small; unfold ELFHDR, sizeof_proghdr in *; lia. }
  destruct (load_loop_ok (Z.to_nat phnum) m1 0) as (m2 & E2 & Hh2 & H2 & _); rewrite ?Z.add_0_l, ?Z2Nat.id by lia; try done.
  - by apply Hmp1.
  - intros i Hi. apply (loadable_mono (ram s)); [done|]. by apply Hld.
  - rewrite Z.add_0_l, Z2Nat.id in E2 by lia. rewrite (krun _ _ _ _ _ (on_ram_run _ (mk_hw m1 _) _ _ E2)).
    assert (load_le 8 (ELFHDR + e_entry_off) m2 = Ret (image_field 8 e_entry_off) m2) as E3
      by (apply header_field; [done|unfold e_entry_off; lia..]).
    rewrite (krun _ _ _ _ _ (on_ram_run _ (mk_hw m2 _) _ _ E3)). eexists. split; [done|]. split; [done|].
    intros j k Hj Hk. cbn [ram]. rewrite (H2 j) by (rewrite ?Z2Nat.id; lia). unfold seg_byte. do 2 f_equal. lia.
Qed.
End Main.
End Theorems.

(** ** A disk with one segment of 600 bytes *)

Definition demo_header : list Z :=
  le_split 4 boot_magic ++ replicate 20 0 ++ le_split 8 0x100010 ++ le_split 8 64 ++ replicate 16 0 ++ le_split 2 1 ++ replicate 6 0
  ++ replicate 8 0 ++ le_split 8 0x1020 ++ replicate 8 0 ++ le_split 8 0x100020 ++ le_split 8 600 ++ le_split 8 600 ++ replicate 8 0
  ++ replicate 392 0.
Definition demo_disk (i : Z) : list Z := if i =? 1 then demo_header else replicate 512 (i mod 256).
Definition demo_ram : mem :=
  write_bytes (write_bytes (write_bytes (write_bytes ∅ sector_buffer (replicate 512 0)) ELFHDR (replicate 4096 0)) 0x7E00 (replicate 12 0))
    0x100000 (replicate 1024 0).
#[local] Instance silent : devices := {| answer := fun _ _ _ => 0; dma := fun _ m => m |}.

Lemma boot_mapped_check m p n : forallb (fun a => bool_decide (is_Some (m !! a))) (seqZ p n) = true -> mapped m p n.
Proof. rewrite forallb_forall. intros H a Ha. apply (bool_decide_eq_true _), H, list_elem_of_In, elem_of_seqZ. done. Qed.

Lemma bootmain_correct_witness :
  exists s', bootmain demo_disk 0 0x7E00 (mk_hw demo_ram []) = Ret 0x100010 s' /\ ram s' !! 0x100021 = Some 9.
Proof.
  assert (forall i, length (demo_disk i) = 512%nat /\ Forall (fun b => 0 <= b < 256) (demo_disk i)) as Hd.
  { intros i. unfold demo_disk. destruct (i =? 1); [by split; [reflexivity|apply (bool_decide_unpack _); vm_compute]|].
    split; [apply length_replicate|]. apply Forall_replicate, Z.mod_pos_bound. lia. }
  assert (image_segment demo_disk 0 0 = mk_segment 0x100020 600 0x1020) as Es by (vm_compute; reflexivity).
  assert (image_field demo_disk 0 2 e_phnum_off = 1) as En by (vm_compute; reflexivity).
  destruct (bootmain_correct demo_disk 0 Hd ltac:(lia) 0x7E00 (mk_hw demo_ram [])) as (s' & E & _ & H).
  1-3: apply boot_mapped_check; vm_compute; reflexivity.
  1-4: by vm_compute.
  - intros j Hj. rewrite En in Hj. assert (j = 0) as -> by lia.
    split; rewrite Es; [|intros a Ha; left; change (seg_lo _) with 0x100000; unfold ELFHDR in Ha; lia].
    split; cbn [s_pa s_memsz s_offset]; [lia..|done| |].
    + right. by vm_compute.
    + apply boot_mapped_check. vm_compute. reflexivity.
  - intros i j Hi Hj. rewrite En in Hj. lia.
  - exists s'. specialize (H 0 1). rewrite Es, En in H. cbn [s_pa s_memsz s_offset] in H. change (0x100020 + 1) with 0x100021 in H.
    rewrite H by lia. split; [exact E|vm_compute; reflexivity].
Defined.
