(* ===== verification/Ulib.v ===== *)
(** * The user library (lib/syscall.c, lib/libmain.c, lib/vma.c)

    What a program sees of the kernel.  A stub puts its arguments into a request, which the
    gate of Intr.v hands to int_handler of Trap.v; the answer comes back in the frame of the
    task.  A program is a tree of requests.  print_vmas walks through the areas of its own
    task with mquery; a line of its output is the range and what is printed of it. *)

From Stdlib Require Import ZArith Lia Sorting.Sorted.
From stdpp Require Import strings base gmap fin_maps list.
From S2P Require Import Prelude ListHeap RbTree MemState Buddy Walk WalkThm Ptbl Vma VmaThm Task Proc ProcThm Trap TrapThm.

#[local] Open Scope Z_scope.
#[local] Open Scope kernel_scope.

(** ** Programs *)

(** The number and the six arguments of a system call, as the registers hold them. *)
Record request := mk_request { r_num : Z; r_a1 : Z; r_a2 : Z; r_a3 : Z; r_a4 : Z; r_a5 : Z; r_a6 : Z }.

(** A program: it ends with a value, makes a request and goes on with the answer (an [int64_t]),
    or panics, which raises INT_PANIC. *)
Inductive uprog := UDone (v : Z) | USys (r : request) (k : Z -> uprog) | UPanic.

Fixpoint ubind (p : uprog) (f : Z -> uprog) : uprog :=
  match p with
  | UDone v => f v
  | USys r k => USys r (fun ret => ubind (k ret) f)
  | UPanic => UPanic
  end.

(** [syscall] of the library: [k] is what the stub makes of the answer. *)
Definition request_of (num : Z) (check : bool) (a1 a2 a3 a4 a5 a6 : Z) (k : Z -> Z) : uprog :=
  USys (mk_request num a1 a2 a3 a4 a5 a6) (fun ret => if check && (ret <? 0) then UPanic else UDone (k ret)).

Module Stubs.
Definition puts (s len : Z) : uprog := request_of 0 false s len 0 0 0 0 (fun _ => 0).
Definition getc : uprog := request_of 1 false 0 0 0 0 0 0 s32.
Definition getpid : uprog := request_of 2 false 0 0 0 0 0 0 s32.
Definition kill (pid : Z) : uprog := request_of 3 true (u64 pid) 0 0 0 0 0 s32.
Definition exit (exitcode : Z) : uprog := request_of 4 false (u64 exitcode) 0 0 0 0 0 (fun _ => 0).
Definition mquery (info addr : Z) : uprog := request_of 5 false info addr 0 0 0 0 s32.
Definition mmap (addr len prot flags fd offset : Z) : uprog := request_of 6 false addr len (u64 prot) (u64 flags) (u64 fd) offset u64.
Definition munmap (addr len : Z) : uprog := request_of 7 false addr len 0 0 0 0 (fun _ => 0).
Definition mprotect (addr len prot : Z) : uprog := request_of 8 false addr len (u64 prot) 0 0 0 s32.
Definition madvise (addr len advice : Z) : uprog := request_of 9 false addr len (u64 advice) 0 0 0 s32.
Definition yield : uprog := request_of 10 false 0 0 0 0 0 0 (fun _ => 0).
Definition wait (rstatus : Z) : uprog := request_of 11 false rstatus 0 0 0 0 0 s32.
Definition waitpid (pid rstatus opts : Z) : uprog := request_of 12 false (u64 pid) rstatus (u64 opts) 0 0 0 s32.
Definition fork : uprog := request_of 13 false 0 0 0 0 0 0 s32.
Definition getcpuid : uprog := request_of 14 false 0 0 0 0 0 0 u32.

(** [binary_name] and the program of a task; [main] is the program's own. *)
Definition libmain (main : Z -> list Z -> uprog) (argc : Z) (argv : list Z) : option Z * uprog :=
  (if argc >? 0 then head argv else None, ubind (main argc argv) (fun rstatus => exit rstatus)).
End Stubs.

(** ** The kernel's side *)

Section Kernel.
Context {M : machine}.
Context (put_user_text : Z -> Z -> K pstate unit) (cons_getc : K pstate Z) (monitor : K pstate unit) (cr2 : Z).
#[local] Abbreviation handle := (int_handler put_user_text cons_getc monitor cr2).
#[local] Abbreviation dispatch := (int_dispatch put_user_text cons_getc monitor cr2).
#[local] Abbreviation ksyscall := (syscall put_user_text cons_getc).

(** The frame that a request raises, on top of the other registers. *)
Definition request_frame (r : request) (f : int_frame) : int_frame :=
  mk_frame (ds f) (r15 f) (r14 f) (r13 f) (r12 f) (r11 f) (r10 f) (r_a6 r) (r_a5 r) (r_a1 r) (r_a2 r) (rbp f) (rbx f) (r_a3 r)
    (r_a4 r) (r_num r) INT_SYSCALL 0 (rip f) (cs f) (rflags f) (rsp f) (ss f).

(** A program alone: each request is answered and the task goes on. *)
Definition answer_request (r : request) : K pstate Z :=
  ret <-- ksyscall (r_num r) (r_a1 r) (r_a2 r) (r_a3 r) (r_a4 r) (r_a5 r) (r_a6 r);; kret (s64 (u64 ret)).
Fixpoint run (p : uprog) : K pstate Z :=
  match p with
  | UDone v => kret v
  | USys r k => ret <-- answer_request r;; run (k ret)
  | UPanic => sched_halt;;; kret 0
  end.

(** The state in which the kernel works on a request of task [c]. *)
Definition entered (s : pstate) (c : Z) (cx : task) (f : int_frame) : pstate :=
  with_objs (<[c := set_frame f cx]> (objs s)) (with_lapic ((LAPIC_TIMER, Z.lor (last_write LAPIC_TIMER (lapic s)) LAPIC_MASKED) :: lapic s) s).

Lemma int_dispatch_syscall s c x : objs s !! c = Some x -> int_no (t_frame x) = INT_SYSCALL -> let f := t_frame x in
  dispatch (InTask c) s = (ret <-- ksyscall (rax f) (rdi f) (rsi f) (rdx f) (rcx f) (r8 f) (r9 f);; write_rax (InTask c) (u64 ret)) s.
Proof.
  intros Hx Hn f. unfold int_dispatch, read_frame. rewrite (krun _ _ s (t_frame x) s); [|by rewrite (krun _ _ _ _ _ (get_task_ok _ _ _ Hx))].
  by rewrite Hn.
Qed.


(** ** Each stub and its system call *)

Definition is_int (x : Z) : Prop := - 2 ^ 31 <= x < 2 ^ 31.

Lemma sint_mod w x y : 0 < w -> x mod 2 ^ w = y mod 2 ^ w -> sint w x = sint w y.
Proof. intros Hw H. unfold sint. by rewrite <- (Zplus_mod_idemp_l x), H, Zplus_mod_idemp_l. Qed.

Lemma u64_s64 x : u64 (s64 (u64 x)) = u64 x.
Proof.
  unfold s64, sint, u64. change (2 ^ (64 - 1)) with (2 ^ 63). rewrite Zminus_mod_idemp_l.
  replace (x mod 2 ^ 64 + 2 ^ 63 - 2 ^ 63) with (x mod 2 ^ 64) by lia. by apply Z.mod_mod.
Qed.
Lemma low_u64 x : u64 x mod 2 ^ 32 = x mod 2 ^ 32.
Proof.
  unfold u64. replace (2 ^ 64) with (2 ^ 32 * 2 ^ 32) by reflexivity. rewrite Z.rem_mul_r by lia.
  rewrite Z.mul_comm, Z.mod_add by lia. by apply Z.mod_mod.
Qed.
Lemma s32_u64 x : is_int x -> s32 (u64 x) = x.
Proof. intros H. transitivity (s32 x); [apply sint_mod; [lia|apply low_u64]|]. unfold s32, sint, is_int in *. rewrite Z.mod_small; lia. Qed.
Lemma s32_answer x : s32 (s64 (u64 x)) = s32 x.
Proof. apply sint_mod; [lia|]. by rewrite <- low_u64, u64_s64, low_u64. Qed.

(** The function of a system call number. *)
#[local] Ltac which :=
  unfold syscall;
  match goal with |- context [if ?b then kret (- E_NOSYS) else _] => change b with false; cbv iota end;
  match goal with |- context [match ?x with Some _ => _ | None => kret (- E_NOSYS) end] => let y := eval vm_compute in x in change x with y; cbv iota beta end.

(** A request that is not checked. *)
Lemma run_request num a1 a2 a3 a4 a5 a6 k s : run (request_of num false a1 a2 a3 a4 a5 a6 k) s
  = (ret <-- ksyscall num a1 a2 a3 a4 a5 a6;; kret (k (s64 (u64 ret)))) s.
Proof. unfold request_of, run, answer_request, kbind. by destruct (ksyscall _ _ _ _ _ _ _ s). Qed.

(** C35 (equivalence): every stub of the library makes the system call of its name, with its own
    arguments in their places and at their widths: integers come out of the 64-bit registers as
    they went in, and so does the answer.  kill alone checks the answer, and halts the kernel when it is
    negative. *)
Theorem stubs_reach_kernel (s : pstate) :
  (forall a n, run (Stubs.puts a n) s = (sys_cputs put_user_text a n;;; kret 0) s)
  /\ run Stubs.getc s = (r <-- sys_cgetc cons_getc;; kret (s32 r)) s
  /\ run Stubs.getpid s = (r <-- sys_getpid;; kret (s32 r)) s
  /\ (forall pid, is_int pid -> run (Stubs.kill pid) s = (r <-- sys_kill pid;; if s64 (u64 r) <? 0 then sched_halt;;; kret 0 else kret (s32 r)) s)
  /\ (forall code, is_int code -> run (Stubs.exit code) s = (sys_exit code;;; kret 0) s)
  /\ (forall info addr, run (Stubs.mquery info addr) s
       = (r <-- on_current task_destroy (fun pml4 => sys_mquery refused pml4 info addr);; kret (s32 (fst r))) s)
  /\ (forall addr len prot flags fd off, is_int prot -> is_int flags -> is_int fd -> run (Stubs.mmap addr len prot flags fd off) s
       = (r <-- on_current killed (fun pml4 => sys_mmap cfg this_cpu oom_stop kmalloc_vma pml4 vma_fuel addr len prot flags fd off);; kret (u64 r)) s)
  /\ (forall addr len, run (Stubs.munmap addr len) s
       = (on_current killed (fun pml4 => sys_munmap cfg this_cpu oom_stop kmalloc_vma pml4 addr len);;; kret 0) s)
  /\ (forall addr len prot, is_int prot -> run (Stubs.mprotect addr len prot) s
       = (r <-- on_current killed (fun pml4 => sys_mprotect cfg this_cpu oom_stop kmalloc_vma pml4 addr len prot);; kret (s32 r)) s)
  /\ (forall addr len advice, is_int advice -> run (Stubs.madvise addr len advice) s
       = (r <-- on_current killed (fun pml4 => sys_madvise cfg this_cpu oom_stop kmalloc_vma pml4 addr len advice);; kret (s32 r)) s)
  /\ run Stubs.yield s = (sched_yield yields;;; kret 0) s
  /\ (forall a, run (Stubs.wait a) s = (r <-- sys_wait (user_ptr a);; kret (s32 r)) s)
  /\ (forall pid a opts, is_int pid -> is_int opts -> run (Stubs.waitpid pid a opts) s = (r <-- sys_waitpid pid (user_ptr a) opts;; kret (s32 r)) s)
  /\ run Stubs.fork s = (r <-- sys_fork;; kret (s32 r)) s
  /\ run Stubs.getcpuid s = (r <-- sys_getcpuid;; kret (u32 r)) s.
Proof.
  assert (forall (k : K pstate Z) (f : Z -> Z), (forall a, f (s64 (u64 a)) = f a) -> (ret <-- k;; kret (f (s64 (u64 ret)))) s = (r <-- k;; kret (f r)) s) as Hk.
  { intros k f Hf. unfold kbind, kret. destruct (k s); [|done..]. by rewrite Hf. }
  assert (forall (k : K pstate unit), (ret <-- (k;;; kret 0);; kret 0) s = (k;;; kret 0) s) as H0.
  { intros k. unfold kbind, kret. by destruct (k s). }
  pose proof s32_answer. pose proof u64_s64.
  assert (forall a, u32 (s64 (u64 a)) = u32 a) as Hu32 by (intros a; unfold u32; by rewrite <- low_u64, u64_s64, low_u64).
  split_and!; intros; unfold Stubs.puts, Stubs.getc, Stubs.getpid, Stubs.exit, Stubs.mquery, Stubs.mmap, Stubs.munmap, Stubs.mprotect,
    Stubs.madvise, Stubs.yield, Stubs.wait, Stubs.waitpid, Stubs.fork, Stubs.getcpuid; rewrite ?run_request.
  4: { unfold Stubs.kill, request_of. cbn [run]. unfold answer_request. cbn [r_num r_a1 r_a2 r_a3 r_a4 r_a5 r_a6]. which. rewrite s32_u64 by done.
    unfold kbind, kret. destruct (sys_kill pid s); [|done..]. cbn [andb].
    destruct (s64 (u64 a) <? 0); cbn [run]; [done|]. unfold kret. by rewrite s32_answer. }
  all: which; rewrite ?s32_u64 by done; try apply H0; try done; try by apply Hk.
  unfold kbind, kret. destruct (on_current _ _ s); [|done..]. by rewrite s32_answer.
Qed.
End Kernel.

(** ** print_vmas (lib/vma.c) *)

(** A line: the range, and for an area its permissions and its name. *)
Definition line : Type := Z * Z * option (Z * string).
Definition line_of (i : vma_info) : line :=
  (vi_base i, vi_end i, match vi_type i with VMA_FREE => None | VMA_ANONYMOUS | VMA_EXECUTABLE => Some (vi_prot i, vi_name i) end).

Section Print.
(** mquery of the library with the program's [info], and what it leaves there. *)
Context (mquery : Z -> K vmstate (Z * option vma_info)).

Fixpoint print_vmas_loop (fuel : nat) (addr : Z) : K vmstate (list line) :=
  match fuel with
  | O => khang
  | S fuel =>
      if addr <? USER_LIM then
        r <-- mquery addr;;
        if fst r <? 0 then kret [] else
        info <-- kderef (snd r);;
        rest <-- print_vmas_loop fuel (vi_end info);;
        kret (line_of info :: rest)
      else kret []
  end.
Definition print_vmas (fuel : nat) : K vmstate (list line) := print_vmas_loop fuel 0.
End Print.

(** The lines of the areas [vs] from [last] on: every area, and every gap before, between and after. *)
Definition gap (lo hi : Z) : list line := if lo <? hi then [(lo, hi, None)] else [].
Definition area_line (s : vmstate) (p : Z) : line :=
  (vbase s p, vend s p, match vmas s !! p with Some v => Some (vm_flags v, String.substring 0 64 (vm_name v)) | None => None end).
Fixpoint layout (s : vmstate) (last : Z) (vs : list Z) : list line :=
  match vs with
  | [] => gap last USER_LIM
  | p :: vs => gap last (vbase s p) ++ [area_line s p] ++ layout s (vend s p) vs
  end.

Section PrintThm.
Context (task_destroy : K vmstate unit) (tp info : Z) (s : vmstate) (vs : list Z).
Hypothesis ok : areas_ok s vs.
(** The program's variable is writable, the areas are not empty and lie in user space, and the page
    tables for their first pages are in memory. *)
Hypothesis info_writable : check_user_vma_range info sizeof_vma_info PROT_WRITE s = Ret (0, None) s.
Hypothesis proper : forall p, p ∈ vs -> 0 <= vbase s p < vend s p /\ vend s p <= USER_LIM.
Hypothesis tables : forall p, p ∈ vs -> good_page (vbase s p) /\ in4 (frames (pmem s)) (npages (pmem s)) tp (vbase s p)
  /\ forall e, leaf4 (frames (pmem s)) tp (vbase s p) = Some e -> tbl (read_frames (frames (pmem s)) e) < npages (pmem s).

#[local] Abbreviation query := (sys_mquery task_destroy tp info).

Lemma next_least xs p ys q : vs = xs ++ p :: ys -> q ∈ p :: ys -> vbase s p <= vbase s q.
Proof.
  intros Ev [-> |Hq]%elem_of_cons; [lia|]. pose proof (ar_order _ _ ok) as O. rewrite Ev in O.
  pose proof (proj2 (ordered_split _ _ _ _ O) q Hq). pose proof (ordered_range _ _ p O ltac:(set_solver)). lia.
Qed.

Lemma before_next xs ys q : vs = xs ++ ys -> q ∈ vs -> q ∈ xs \/ exists p, head ys = Some p /\ vbase s p <= vbase s q.
Proof.
  intros Ev Hq. rewrite Ev in Hq. apply elem_of_app in Hq as [Hq|Hq]; [by left|right].
  destruct ys as [|p ys]; [set_solver|]. exists p. split; [done|]. by apply (next_least xs p ys).
Qed.

(** The query at the end of [xs], before [ys]. *)
Definition stands (xs ys : list Z) (addr : Z) : Prop :=
  vs = xs ++ ys /\ 0 <= addr < 2 ^ 64 /\ (forall q, q ∈ xs -> vend s q <= addr) /\ (forall q, q ∈ ys -> addr <= vbase s q).

Lemma stands_next xs p ys : vs = xs ++ p :: ys -> stands (xs ++ [p]) ys (vend s p).
Proof.
  intros Ev. assert (p ∈ vs) as Hp by (rewrite Ev; set_solver). destruct (proper p Hp). unfold USER_LIM in *.
  pose proof (ar_order _ _ ok) as O. rewrite Ev in O. destruct (ordered_split _ _ _ _ O) as [Hx Hy].
  split; [by rewrite <- app_assoc|]. split; [lia|]. split; [|done].
  intros q [Hq| ->%list_elem_of_singleton]%elem_of_app; [|lia]. specialize (Hx q Hq). lia.
Qed.

Lemma query_gap xs ys addr : stands xs ys addr -> addr = default 0 (vend s <$> last xs) -> addr < default USER_LIM (vbase s <$> head ys) -> addr < USER_LIM ->
  query addr s = Ret (0, Some (mk_info "" addr (default USER_LIM (vbase s <$> head ys)) 0 VMA_FREE VM_UNMAPPED)) s.
Proof.
  intros (Ev & H0 & Hxs & Hys) Ha Hgap Hlim. set (hi := default USER_LIM (vbase s <$> head ys)) in *.
  assert (forall q, q ∈ vs -> vend s q <= addr \/ hi <= vbase s q) as Hout.
  { intros q Hq. destruct (before_next xs ys q Ev Hq) as [Hx|(p & Hp & Hle)]; [left; by apply Hxs|].
    right. unfold hi. by rewrite Hp. }
  destruct (sys_mquery_gap task_destroy tp s vs info addr ok info_writable ltac:(lia)) as (lo & hi' & E & Hr & Hsep & Hlo & Hhi).
  { intros p Hp Hin. destruct (Hout p Hp); lia. }
  assert (lo = addr) as ->.
  { destruct (last xs) as [z|] eqn:El; cbn in Ha.
    - apply last_Some_elem_of in El. destruct (Hsep z) as [|]; [rewrite Ev; set_solver|lia|]. destruct (proper z); [rewrite Ev; set_solver|]. lia.
    - apply last_None in El. destruct Hlo as [|(q & Hq & ->)]; [lia|]. destruct (proper q Hq). destruct (Hout q Hq); lia. }
  assert (hi' = hi) as ->; [|exact E]. destruct ys as [|p ys]; cbn in hi.
  - destruct Hhi as [|(q & Hq & ->)]; [done|]. destruct (proper q Hq). destruct (Hout q Hq); lia.
  - assert (p ∈ vs) as Hp by (rewrite Ev; set_solver). destruct (proper p Hp). specialize (Hys p ltac:(set_solver)).
    destruct (Hsep p Hp) as [|Hle]; [lia|]. destruct Hhi as [|(q & Hq & Eq)]; [unfold hi; lia|]. destruct (proper q Hq). destruct (Hout q Hq); unfold hi in *; lia.
Qed.

Lemma query_area xs p ys : stands xs (p :: ys) (vbase s p) -> exists v i, vmas s !! p = Some v /\ query (vbase s p) s = Ret (0, Some i) s
  /\ vi_end i = vend s p /\ line_of i = area_line s p.
Proof.
  intros (Ev & H0 & Hxs & Hys). assert (p ∈ vs) as Hp by (rewrite Ev; set_solver).
  destruct (or_in _ _ (ar_order _ _ ok) p Hp) as (v & Hv & _). destruct (proper p Hp) as [Hr Hl].
  destruct (find_vma_ok s vs (vbase s p) ok) as (r & xs' & ys' & Ef & Ev' & Hx & Hy & Er).
  assert (xs' = xs /\ ys' = p :: ys) as [-> ->].
  { apply (split_unique (fun q => vend s q <= vbase s p)); [by rewrite <- Ev, <- Ev'|done|..].
    - intros q Hq. specialize (Hy q Hq). lia.
    - done.
    - intros q Hq. specialize (Hys q Hq). destruct (proper q); [rewrite Ev; set_solver|]. lia. }
  cbn in Er. destruct (tables p Hp) as (Hg & Hin & Hleaf). pose proof (page_lookup_ok tp (vbase s p) (pmem s) Hg Hin Hleaf) as El.
  assert (forall A (m : K mstate A) a, m (pmem s) = Ret a (pmem s) -> pm m s = Ret a s) as Hpm.
  { intros A m a E. unfold pm. rewrite E. by destruct s. }
  exists v. unfold sys_mquery, assert_user_mem. unfold kbind at 1 2. rewrite info_writable. cbn [fst Z.ltb Z.compare]. unfold kret at 1.
  assert ((vbase s p >=? USER_LIM) = false) as -> by lia. rewrite (krun _ _ _ _ _ Ef), Er, (krun _ _ _ _ _ (get_vma_ok _ _ _ Hv)).
  rewrite <- (vbase_eq _ _ _ Hv), Z.ltb_irrefl, (krun _ _ _ _ _ (Hpm _ _ _ El)).
  destruct (leaf4 (frames (pmem s)) tp (vbase s p)) as [e|].
  - assert (get_entry e (pmem s) = Ret (read_frames (frames (pmem s)) e) (pmem s)) as Ee by done.
    unfold kbind at 1. unfold kbind at 1. rewrite (Hpm _ _ _ Ee). cbn [kret]. eexists. split; [done|]. split; [reflexivity|].
    cbn [vi_end line_of vi_base vi_type vi_prot vi_name]. unfold area_line. rewrite Hv, (vend_eq _ _ _ Hv). split; [done|]. by destruct (vm_src v).
  - rewrite kret_run. eexists. split; [done|]. split; [reflexivity|].
    cbn [vi_end line_of vi_base vi_type vi_prot vi_name]. unfold area_line. rewrite Hv, (vend_eq _ _ _ Hv). split; [done|]. by destruct (vm_src v).
Qed.

#[local] Abbreviation loop := (print_vmas_loop query).

Lemma loop_step fuel addr i : addr < USER_LIM -> query addr s = Ret (0, Some i) s ->
  loop (S fuel) addr s = (rest <-- loop fuel (vi_end i);; kret (line_of i :: rest)) s.
Proof. intros Ha E. cbn [print_vmas_loop]. rewrite (proj2 (Z.ltb_lt _ _) Ha). by rewrite (krun _ _ _ _ _ E). Qed.

Lemma loop_area xs p ys fuel l : stands xs (p :: ys) (vbase s p) -> loop fuel (vend s p) s = Ret l s ->
  loop (S fuel) (vbase s p) s = Ret (area_line s p :: l) s.
Proof.
  intros St El. destruct (query_area xs p ys St) as (v & i & _ & E & Ei & Eline). destruct St as (Ev & _).
  destruct (proper p); [rewrite Ev; set_solver|]. rewrite (loop_step _ _ i) by (done || lia). rewrite Ei, (krun _ _ _ _ _ El). by rewrite Eline.
Qed.

Lemma layout_loop ys : forall xs addr fuel, stands xs ys addr -> addr = default 0 (vend s <$> last xs) -> (2 * length ys + 1 < fuel)%nat ->
  addr <= USER_LIM -> loop fuel addr s = Ret (layout s addr ys) s.
Proof.
  assert (forall fuel, loop (S fuel) USER_LIM s = Ret [] s) as Hend by done.
  induction ys as [|p ys IH]; intros xs addr [|[|fuel]] St Ha Hf Hl; cbn [length] in Hf; (lia || idtac); cbn [layout]; unfold gap.
  - destruct (Z.ltb_spec addr USER_LIM) as [Hlt|]; [|by replace addr with USER_LIM by lia].
    rewrite (loop_step _ _ _ Hlt (query_gap xs [] addr St Ha Hlt Hlt)). cbn [vi_end]. by rewrite (krun _ _ _ _ _ (Hend _)).
  - pose proof St as (Ev & H0 & Hxs & Hys). assert (p ∈ vs) as Hp by (rewrite Ev; set_solver). destruct (proper p Hp) as [Hr Hu].
    assert (forall f, (2 * length ys + 1 < f)%nat -> loop (S f) (vbase s p) s = Ret (area_line s p :: layout s (vend s p) ys) s) as Hnext.
    { intros f Hff. apply (loop_area xs p ys).
      - split; [done|]. split; [unfold USER_LIM in *; lia|]. specialize (Hys p ltac:(set_solver)). split.
        + intros q Hq. specialize (Hxs q Hq). lia.
        + intros q. by apply (next_least xs).
      - apply (IH (xs ++ [p])); [by apply stands_next|by rewrite last_snoc|lia|lia]. }
    destruct (Z.ltb_spec addr (vbase s p)) as [Hlt|Hge].
    + rewrite (loop_step _ addr _ ltac:(lia) (query_gap xs (p :: ys) addr St Ha Hlt ltac:(lia))). cbn [vi_end head fmap option_fmap option_map default from_option id].
      by rewrite (krun _ _ _ _ _ (Hnext fuel ltac:(lia))).
    + assert (addr = vbase s p) as -> by (specialize (Hys p ltac:(set_solver)); lia). apply Hnext. lia.
Qed.

(** C34 (refinement): print_vmas lists the address space.  It ends, after at most twice the number of areas and one
    more query, and its lines are the areas in the order of their addresses, each with its permissions
    and name, and every gap between them, before the first and after the last, up to the end of user space. *)
Theorem print_vmas_correct (fuel : nat) : (2 * length vs + 1 < fuel)%nat -> print_vmas query fuel s = Ret (layout s 0 vs) s.
Proof. intros Hf. apply (layout_loop vs []); [|done|done|by vm_compute]. split_and!; (done || lia || set_solver || intros q Hq; apply proper, Hq). Qed.
End PrintThm.

(** ** Witnesses *)

#[local] Existing Instance demo_machine.


Lemma stubs_reach_kernel_witness : match run (fun _ _ => kret tt) (kret 0) (Stubs.waitpid 77 0 0) demo_sched with Ret v _ => v = - E_CHILD | _ => False end.
Proof.
  pose proof (stubs_reach_kernel (fun _ _ => kret tt) (kret 0) demo_sched) as H.
  destruct H as (_ & _ & _ & _ & _ & _ & _ & _ & _ & _ & _ & _ & Hw & _). rewrite (Hw 77 0 0) by (split; done).
  vm_compute. reflexivity.
Defined.

Lemma print_vmas_correct_witness : exists ls, print_vmas (sys_mquery (kret tt) 0 0x1000) 6 demo_vmas = Ret ls demo_vmas /\ length ls = 5%nat.
Proof.
  eexists. split; [apply (print_vmas_correct (kret tt) 0 0x1000 demo_vmas [1; 2] demo_areas)|].
  - vm_compute. reflexivity.
  - intros p Hp. repeat (apply elem_of_cons in Hp as [-> |Hp]; [vm_compute; repeat split; discriminate|]). by apply not_elem_of_nil in Hp.
  - assert (forall a, a = 0x1000 \/ a = 0x5000 -> good_page a) as Hg by (intros a [-> | ->]; (split; [reflexivity|left; vm_compute; by split])).
    intros p Hp. split; [apply Hg|split; [intros H; discriminate H|intros e He; discriminate He]].
    repeat (apply elem_of_cons in Hp as [-> |Hp]; [vm_compute; tauto|]). set_solver.
  - cbn. lia.
  - reflexivity.
Defined.
