(* ===== verification/Intr.v ===== *)
(** * Interrupt and segment tables, interrupt controllers (include/x86-64/idt.h, gdt.h,
      kernel/sched/idt.c, gdt.c, kernel/pic.c)

    The tables the processor reads: the gates idt_init fills in, the segments and task
    states of gdt.c; and the programming of the two 8259 controllers, over the machine of
    Devices.v.  The addresses of the stubs in assembly and of the array cpus are
    arguments.  How the processor reads a table is written out ([gate_offset],
    [segment_base], [io_allowed]) and is not code of the repository. *)

From Stdlib Require Import ZArith Lia.
From stdpp Require Import strings base gmap fin_maps list.
From S2P Require Import Prelude Strings MemState Devices Ptbl Init Trap Smp.

#[local] Open Scope Z_scope.
#[local] Open Scope kernel_scope.

(** ** The interrupt descriptor table

    The vectors Trap.v dispatches on are declared there. *)

Definition INT_DEBUG : Z := 1.
Definition INT_NMI : Z := 2.
Definition INT_OVERFLOW : Z := 4.
Definition INT_BOUND : Z := 5.
Definition INT_INVALID_OP : Z := 6.
Definition INT_DEVICE : Z := 7.
Definition INT_DOUBLE_FAULT : Z := 8.
Definition INT_TSS : Z := 10.
Definition INT_NO_SEG_PRESENT : Z := 11.
Definition INT_SS : Z := 12.
Definition INT_FPU : Z := 16.
Definition INT_ALIGNMENT : Z := 17.
Definition INT_MCE : Z := 18.
Definition INT_SIMD : Z := 19.
Definition INT_SECURITY : Z := 30.
Definition IRQ_OFFSET : Z := 32.

Definition IDT_GATE (x : Z) : Z := Z.shiftl (Z.land x 0xF) 8.
Definition IDT_PRIVL (x : Z) : Z := Z.shiftl (Z.land x 3) 13.
Definition IDT_PRESENT : Z := Z.shiftl 1 15.
Definition IDT_INT_GATE32 : Z := IDT_GATE 0xE.

Definition GDT_KDATA : Z := 0x10.
Definition GDT_UDATA : Z := 0x18.
Definition GDT_UCODE : Z := 0x20.
Definition GDT_TSS0 : Z := 0x28.

Record idt_entry := mk_gate { offset_lo : Z; sel : Z; flags : Z; offset_hi : Z; gate_always0 : Z }.

Definition set_idt_entry (offset fl sl : Z) (e : idt_entry) : idt_entry :=
  mk_gate (Z.land offset 0xFFFF) (u16 sl) (u16 fl) (Z.land (Z.shiftr offset 16) 0xFFFFFFFFFFFF) (gate_always0 e).

(** The calls of idt_init: vector, stub, privilege. *)
Definition gates : list (Z * Z * Z) :=
  [(INT_DIVIDE, 0, 0); (INT_DEBUG, 1, 0); (INT_NMI, 2, 0); (INT_BREAK, 3, 3); (INT_OVERFLOW, 4, 0); (INT_BOUND, 5, 0);
   (INT_INVALID_OP, 6, 0); (INT_DEVICE, 7, 0); (INT_DOUBLE_FAULT, 8, 0); (INT_TSS, 10, 0); (INT_NO_SEG_PRESENT, 11, 0);
   (INT_SS, 12, 0); (INT_GPF, 13, 0); (INT_PAGE_FAULT, 14, 0); (INT_FPU, 16, 0); (INT_ALIGNMENT, 17, 0); (INT_MCE, 18, 0);
   (INT_SIMD, 19, 0); (INT_SECURITY, 30, 0); (INT_SYSCALL, 128, 3); (INT_PANIC, 127, 3); (IRQ_TIMER, 32, 0)].

Definition no_gates : list idt_entry := replicate 256 (mk_gate 0 0 0 0 0).

(** The table idt_init hands to the processor, from the addresses of the stubs. *)
Definition idt_init (isr : Z -> Z) : list idt_entry :=
  foldl (fun t '(v, k, p) =>
    alter (set_idt_entry (isr k) (Z.lor (Z.lor IDT_INT_GATE32 IDT_PRESENT) (IDT_PRIVL p)) GDT_KCODE) (Z.to_nat v) t) no_gates gates.

(** What the processor reads in a gate. *)
Definition gate_offset (e : idt_entry) : Z := offset_lo e + 2 ^ 16 * offset_hi e.
Definition gate_type (e : idt_entry) : Z := Z.land (Z.shiftr (flags e) 8) 0xF.
Definition gate_dpl (e : idt_entry) : Z := Z.land (Z.shiftr (flags e) 13) 3.
Definition gate_present (e : idt_entry) : bool := Z.testbit (flags e) 15.

Lemma gate_offset_set offset fl sl e : 0 <= offset < 2 ^ 64 -> gate_offset (set_idt_entry offset fl sl e) = offset.
Proof.
  intros H. unfold gate_offset, set_idt_entry. cbn [offset_lo offset_hi].
  change 0xFFFF with (Z.ones 16). change 0xFFFFFFFFFFFF with (Z.ones 48). rewrite !Z.land_ones, Z.shiftr_div_pow2 by lia.
  rewrite (Z.mod_small (offset / 2 ^ 16)) by (split; [apply Z.div_pos; lia|apply Z.div_lt_upper_bound; lia]).
  pose proof (Z.div_mod offset (2 ^ 16)). lia.
Qed.

(** ** The segments *)

Definition GDT_RW : Z := Z.shiftl 1 1.
Definition GDT_EXEC : Z := Z.shiftl 1 3.
Definition GDT_DEFAULT : Z := Z.shiftl 1 4.
Definition GDT_PRIVL (x : Z) : Z := Z.shiftl (Z.land x 3) 5.
Definition GDT_PRESENT : Z := Z.shiftl 1 7.
Definition GDT_LIMIT (x : Z) : Z := Z.shiftl (Z.land x 0xF) 8.
Definition GDT_LONG_MODE : Z := Z.shiftl 1 13.
Definition GDT_TSS64 : Z := 9.
Definition GDT_KCODE_FLAGS : Z := Z.lor (Z.lor (Z.lor GDT_RW GDT_EXEC) GDT_DEFAULT) GDT_PRESENT.
Definition GDT_KDATA_FLAGS : Z := Z.lor (Z.lor GDT_RW GDT_DEFAULT) GDT_PRESENT.
Definition GDT_UCODE_FLAGS : Z := Z.lor GDT_KCODE_FLAGS (GDT_PRIVL 3).
Definition GDT_UDATA_FLAGS : Z := Z.lor GDT_KDATA_FLAGS (GDT_PRIVL 3).
Definition GDT_TSS_FLAGS : Z := Z.lor GDT_PRESENT GDT_TSS64.
Definition sizeof_tss : Z := 104.

Record gdt_entry := mk_segment { limit_low : Z; base_low : Z; base_middle : Z; seg_flags : Z; base_high : Z }.

(** A segment of which only the flags are given. *)
Definition flat (f : Z) : gdt_entry := mk_segment 0 0 0 f 0.

(** The initial gdt_entries. *)
Definition gdt_entries : list gdt_entry :=
  [flat 0; flat (Z.lor GDT_KCODE_FLAGS GDT_LONG_MODE); flat GDT_KDATA_FLAGS; flat GDT_UDATA_FLAGS;
   flat (Z.lor GDT_UCODE_FLAGS GDT_LONG_MODE)] ++ replicate (2 * Z.to_nat NCPUS) (flat 0).

Definition set_gdt_entry (base limit f : Z) (e : gdt_entry) : gdt_entry :=
  mk_segment (Z.land limit 0xFFFF) (Z.land base 0xFFFF) (Z.land (Z.shiftr base 16) 0xFF)
    (u16 (Z.lor f (GDT_LIMIT (Z.shiftr limit 16)))) (Z.land (Z.shiftr base 24) 0xFF).

(** A struct tss_entry takes two entries; its [base_high] is the first four bytes of the second. *)
Definition set_tss_entry (i : nat) (tss : Z) (t : list gdt_entry) : list gdt_entry :=
  let t := alter (set_gdt_entry tss sizeof_tss GDT_TSS_FLAGS) i t in
  let high := Z.land (Z.shiftr tss 32) 0xFFFFFFFF in
  alter (fun e => mk_segment (high mod 2 ^ 16) (high / 2 ^ 16) (base_middle e) (seg_flags e) (base_high e)) (S i) t.

(** The table, [cpu_tss.rsp[0]] of the processors, and the task register of the running one. *)
Record segments := mk_segments { gdt : list gdt_entry; rsp0 : list Z; task_sel : Z }.

(** [tss_va i] is the address of [cpus[i].cpu_tss]; [this] the index of the running processor. *)
Section Segments.
Variable tss_va : Z -> Z.

Fixpoint set_stacks (n : nat) (i boot : Z) (r : list Z) : list Z :=
  match n with
  | O => r
  | S n => set_stacks n (i + 1) boot
             (<[Z.to_nat i := if i =? boot then KSTACK_TOP else u64 (KSTACK_TOP - (i + 1) * (KSTACK_SIZE + PAGE_SIZE))]> r)
  end.

Definition gdt_init (ncpus boot this : Z) (s : segments) : segments :=
  let r := <[Z.to_nat this := KSTACK_TOP]> (set_stacks (Z.to_nat ncpus) 0 boot (rsp0 s)) in
  mk_segments (set_tss_entry (Z.to_nat (Z.shiftr GDT_TSS0 3)) (tss_va this) (gdt s)) r GDT_TSS0.

Definition gdt_init_mp (this : Z) (s : segments) : segments :=
  mk_segments (set_tss_entry (Z.to_nat (Z.shiftr GDT_TSS0 3 + this * 2)) (tss_va this) (gdt s)) (rsp0 s) (u16 (GDT_TSS0 + this * 16)).
End Segments.

(** What the processor reads: the base of a task state descriptor of two entries, and its limit. *)
Definition segment_base (t : list gdt_entry) (i : nat) : option Z :=
  match t !! i, t !! S i with
  | Some e, Some h => Some (base_low e + 2 ^ 16 * base_middle e + 2 ^ 24 * base_high e + 2 ^ 32 * (limit_low h + 2 ^ 16 * base_low h))
  | _, _ => None
  end.
Definition segment_limit (e : gdt_entry) : Z := limit_low e + 2 ^ 16 * Z.land (Z.shiftr (seg_flags e) 8) 0xF.

(** struct tss, byte by byte: only [rsp[0]] is ever written, the rest is zero. *)
Definition tss_bytes (rsp : Z) : list Z := replicate 4 0 ++ le_split 8 rsp ++ replicate 92 0.
Definition iomap_base (tss : list Z) : Z := le_combine (take 2 (drop 102 tss)).

(** The processor's rule for a byte-wide access to a port at privilege 3 with I/O privilege level
    0: the two bytes at [iomap_base + port / 8] lie within the limit, and the port's bit is clear. *)
Definition io_allowed (tss : list Z) (limit port : Z) : bool :=
  let a := iomap_base tss + port / 8 in
  (a + 1 <=? limit) && match tss !! Z.to_nat a with Some b => negb (Z.testbit b (port mod 8)) | None => false end.

(** ** The interrupt controllers (pic.c) *)

Definition PIC1_CMD : Z := 0x20.
Definition PIC1_DATA : Z := 0x21.
Definition PIC2_CMD : Z := 0xa0.
Definition PIC2_DATA : Z := 0xa1.
Definition PIC_EOI : Z := 0x20.
Definition PIC_ICW1_ICW4 : Z := 0x01.
Definition PIC_ICW1_INIT : Z := 0x10.
Definition PIC_ICW4_8086 : Z := 0x01.
Definition PIC_ICW4_AUTO : Z := 0x02.
Definition PIC_READ_IRR : Z := 0x0a.
Definition PIC_READ_ISR : Z := 0x0b.
Definition IRQ_SLAVE : Z := 2.

Section Pic.
Context {D : devices}.

Definition pic_remap (offset1 offset2 : Z) : K hw unit :=
  m0 <-- inb PIC1_DATA;;
  m1 <-- inb PIC2_DATA;;
  outb PIC1_CMD (Z.lor PIC_ICW1_INIT PIC_ICW1_ICW4);;;
  outb PIC2_CMD (Z.lor PIC_ICW1_INIT PIC_ICW1_ICW4);;;
  outb PIC1_DATA offset1;;;
  outb PIC2_DATA offset2;;;
  outb PIC1_DATA (Z.shiftl 1 IRQ_SLAVE);;;
  outb PIC2_DATA IRQ_SLAVE;;;
  outb PIC1_DATA (Z.lor PIC_ICW4_8086 PIC_ICW4_AUTO);;;
  outb PIC2_DATA PIC_ICW4_8086;;;
  outb PIC1_DATA m0;;;
  outb PIC2_DATA m1.

(** The two reads of the sum are made from left to right. *)
Definition pic_get_reg (ocw3 : Z) : K hw Z :=
  outb PIC1_CMD ocw3;;;
  outb PIC2_CMD ocw3;;;
  h <-- inb PIC2_CMD;;
  l <-- inb PIC1_CMD;;
  kret (u16 (Z.lor (Z.shiftl h 8) l)).
Definition pic_get_irr : K hw Z := pic_get_reg PIC_READ_IRR.
Definition pic_get_isr : K hw Z := pic_get_reg PIC_READ_ISR.

Definition pic_disable_all_irqs : K hw unit := outb PIC1_DATA 0xff;;; outb PIC2_DATA 0xff.

(** The controller of a line and the line's number there. *)
Definition pic_line (irq : Z) : Z * Z := if irq <? 8 then (PIC1_DATA, irq) else (PIC2_DATA, irq - 8).

Definition enable_irq (irq : Z) : K hw unit :=
  let '(port, irq) := pic_line irq in
  v <-- inb port;; outb port (Z.land v (Z.lnot (Z.shiftl 1 irq))).
Definition pic_disable_irq (irq : Z) : K hw unit :=
  let '(port, irq) := pic_line irq in
  v <-- inb port;; outb port (Z.lor v (Z.shiftl 1 irq)).

Definition pic_eoi (irq : Z) : K hw unit :=
  (if 8 <=? irq then outb PIC2_CMD PIC_EOI else kret tt);;; outb PIC1_CMD PIC_EOI.

Definition pic_init : K hw unit :=
  pic_disable_all_irqs;;;
  pic_remap IRQ_OFFSET (IRQ_OFFSET + 8);;;
  pic_get_irr;;;
  enable_irq IRQ_SLAVE.
End Pic.

(** ** Theorems *)

Section Gates.
Variable isr : Z -> Z.
Hypothesis isr_addresses : forall k, 0 <= isr k < 2 ^ 64.

Definition gate (p : Z * Z * Z) (e : idt_entry) : idt_entry :=
  set_idt_entry (isr (snd (fst p))) (Z.lor (Z.lor IDT_INT_GATE32 IDT_PRESENT) (IDT_PRIVL (snd p))) GDT_KCODE e.

(** Filling a table from a list with distinct vectors. *)
Lemma fill_lookup (l : list (Z * Z * Z)) (t : list idt_entry) (i : nat) :
  NoDup ((fun p => Z.to_nat (fst (fst p))) <$> l) ->
  foldl (fun t '(v, k, p) => alter (gate (v, k, p)) (Z.to_nat v) t) t l !! i
    = match list_find (fun p => Z.to_nat (fst (fst p)) = i) l with
      | Some (_, p) => gate p <$> t !! i
      | None => t !! i
      end.
Proof.
  revert t. induction l as [|[[v k] p] l IH]; intros t Hn; [done|]. apply NoDup_cons in Hn as [Hv Hn].
  cbn [foldl list_find fst]. rewrite IH by done. destruct (decide (Z.to_nat v = i)) as [<-|Hne].
  - rewrite (proj2 (list_find_None _ l)); [apply list_lookup_alter_eq|].
    apply Forall_forall. intros q Hq He. apply Hv. apply list_elem_of_fmap. by exists q.
  - destruct (list_find _ l) as [[j q]|]; by rewrite list_lookup_alter_ne.
Qed.

(** The gate of a vector, and what the list says of it. *)
Definition gate_of (n : Z) : option (Z * Z * Z) := snd <$> list_find (fun p => Z.to_nat (fst (fst p)) = Z.to_nat n) gates.

Definition gate_row (n : Z) : bool :=
  match gate_of n with
  | Some (v, k, p) =>
      (k =? n) && ((p =? 0) || (p =? 3)) && eqb (p =? 3) ((n =? INT_BREAK) || (n =? INT_SYSCALL) || (n =? INT_PANIC))
      && bool_decide (n ∈ (fst ∘ fst <$> gates))
  | None => bool_decide (n ∉ (fst ∘ fst <$> gates))
  end.

Lemma gates_listed n : 0 <= n < 256 ->
  match gate_of n with
  | Some (v, k, p) => k = n /\ (p = 0 \/ p = 3) /\ (p = 3 <-> n = INT_BREAK \/ n = INT_SYSCALL \/ n = INT_PANIC) /\ n ∈ (fst ∘ fst <$> gates)
  | None => n ∉ (fst ∘ fst <$> gates)
  end.
Proof.
  intros Hn.
  pose proof (range_check gate_row 256 ltac:(vm_compute; reflexivity) n Hn) as H. unfold gate_row in H.
  destruct (gate_of n) as [[[v k] p]|]; [|by apply bool_decide_eq_true in H].
  apply andb_prop in H as [H H4]. apply bool_decide_eq_true in H4. apply andb_prop in H as [H H3]. apply andb_prop in H as [H1 H2].
  apply eqb_prop in H3. repeat split; [lia|lia|lia| |done]. intros Hp. lia.
Qed.

Lemma idt_init_lookup n : 0 <= n < 256 ->
  idt_init isr !! Z.to_nat n = Some (match gate_of n with Some p => gate p (mk_gate 0 0 0 0 0) | None => mk_gate 0 0 0 0 0 end).
Proof.
  intros Hn. unfold idt_init. etransitivity; [apply (fill_lookup gates no_gates)|].
  - apply (bool_decide_unpack _). vm_compute. exact I.
  - unfold gate_of, no_gates. destruct (list_find _ gates) as [[j p]|]; cbn [fmap option_fmap option_map snd];
      rewrite lookup_replicate_2 by lia; done.
Qed.

End Gates.

(** ** Segments *)

Lemma segment_base_set i tss t : (S i < length t)%nat -> 0 <= tss < 2 ^ 64 -> segment_base (set_tss_entry i tss t) i = Some tss.
Proof.
  intros Hi Ht. destruct (lookup_lt_is_Some_2 t i ltac:(lia)) as [e He]. destruct (lookup_lt_is_Some_2 t (S i) Hi) as [h Hh].
  unfold segment_base, set_tss_entry. rewrite list_lookup_alter_ne by lia. rewrite !list_lookup_alter_eq, He.
  rewrite list_lookup_alter_ne by lia. rewrite Hh. cbn [fmap option_fmap option_map base_low base_middle base_high limit_low set_gdt_entry].
  f_equal. change 0xFFFF with (Z.ones 16). change 0xFF with (Z.ones 8). change 0xFFFFFFFF with (Z.ones 32).
  rewrite !Z.land_ones, !Z.shiftr_div_pow2 by lia.
  rewrite (Z.mod_small (tss / 2 ^ 32)) by (split; [apply Z.div_pos; lia|apply Z.div_lt_upper_bound; lia]).
  pose proof (Z.div_mod (tss / 2 ^ 32) (2 ^ 16)). pose proof (Z.div_mod tss (2 ^ 16)).
  pose proof (Z.div_mod (tss / 2 ^ 16) (2 ^ 8)). pose proof (Z.div_mod (tss / 2 ^ 24) (2 ^ 8)).
  assert (tss / 2 ^ 16 / 2 ^ 8 = tss / 2 ^ 24) by (rewrite Z.div_div by lia; reflexivity).
  assert (tss / 2 ^ 24 / 2 ^ 8 = tss / 2 ^ 32) by (rewrite Z.div_div by lia; reflexivity). lia.
Qed.

Lemma set_tss_other i j tss t : j <> i -> j <> S i -> set_tss_entry i tss t !! j = t !! j.
Proof. intros H1 H2. unfold set_tss_entry. by rewrite !list_lookup_alter_ne by done. Qed.

(** Fact (functional): gdt_init_mp on a processor.  The task register selects a descriptor whose base is
    the processor's own task state; the segments of kernel and programs and the descriptors of
    the other processors stay. *)
Theorem gdt_init_mp_correct (tss_va : Z -> Z) (i : Z) (s : segments) :
  length (gdt s) = length gdt_entries -> 0 <= i < NCPUS -> 0 <= tss_va i < 2 ^ 64 ->
  let s' := gdt_init_mp tss_va i s in
  segment_base (gdt s') (Z.to_nat (task_sel s' / 8)) = Some (tss_va i)
  /\ (seg_flags <$> gdt s' !! Z.to_nat (task_sel s' / 8)) = Some GDT_TSS_FLAGS
  /\ (forall j, (j < 5)%nat -> gdt s' !! j = gdt s !! j)
  /\ (forall k, 0 <= k -> k <> i -> segment_base (gdt s') (Z.to_nat (5 + k * 2)) = segment_base (gdt s) (Z.to_nat (5 + k * 2))).
Proof.
  intros Hl Hi Ht s'. unfold s', gdt_init_mp. cbn [gdt task_sel]. change (length gdt_entries) with 133%nat in Hl. unfold NCPUS in Hi.
  change (Z.shiftr GDT_TSS0 3) with 5. unfold u16, GDT_TSS0. rewrite Z.mod_small by lia.
  replace ((0x28 + i * 16) / 8) with (5 + i * 2) by (apply Z.div_unique with 0; lia).
  split; [apply segment_base_set; [lia|done]|]. split; [|split].
  - unfold set_tss_entry. rewrite list_lookup_alter_ne by lia. rewrite list_lookup_alter_eq.
    destruct (lookup_lt_is_Some_2 (gdt s) (Z.to_nat (5 + i * 2)) ltac:(lia)) as [e ->]. reflexivity.
  - intros j Hj. apply set_tss_other; lia.
  - intros k Hk Hne. unfold segment_base. by rewrite !set_tss_other by lia.
Qed.

Lemma gdt_init_mp_correct_witness :
  let s' := gdt_init_mp (fun i => 0xFFFF800000200000 + 4096 * i) 3 (mk_segments gdt_entries [] 0) in
  segment_base (gdt s') 11 = Some 0xFFFF800000203000.
Proof.
  apply (gdt_init_mp_correct (fun i => 0xFFFF800000200000 + 4096 * i) 3 (mk_segments gdt_entries [] 0));
    [reflexivity|split; [discriminate|reflexivity]|split; [discriminate|reflexivity]].
Defined.

(** Fact (safety): the ports of programs.  The task state holds no permission bitmap, but its
    [iomap_base] is zero and lies within the limit: the processor takes the bits of the task state
    itself, which are clear but for bits of the stack pointer.  A program can reach every port below 832
    except 71 and 73 to 95, and no other: the interrupt controllers, the keyboard, the CMOS and the
    registers of both ATA channels among them. *)
Theorem user_ports_open (port : Z) : 0 <= port ->
  io_allowed (tss_bytes KSTACK_TOP) sizeof_tss port = (port <? 832) && negb ((port =? 71) || (73 <=? port) && (port <? 96)).
Proof.
  intros Hp. destruct (Z.ltb_spec port 832) as [Hlt|Hge].
  - pose proof (range_check (fun p => eqb (io_allowed (tss_bytes KSTACK_TOP) sizeof_tss p) (negb ((p =? 71) || (73 <=? p) && (p <? 96)))) 832
      ltac:(vm_compute; reflexivity) port (conj Hp Hlt)) as H. by apply eqb_prop in H.
  - unfold io_allowed. change (iomap_base (tss_bytes KSTACK_TOP)) with 0. unfold sizeof_tss.
    pose proof (Z.div_le_mono 832 port 8 ltac:(lia) Hge). change (832 / 8) with 104 in *.
    rewrite (proj2 (Z.leb_gt (0 + port / 8 + 1) 104)) by lia. reflexivity.
Qed.

Lemma user_ports_open_witness : io_allowed (tss_bytes KSTACK_TOP) sizeof_tss 0x1f7 = true.
Proof. apply (user_ports_open 0x1f7). discriminate. Defined.

(** ** The controllers *)

Section PicThm.
Context {D : devices}.

Lemma inb_run port s : exists m, inb port s = Ret (u8 (answer (trace s) (ram s) (PortIn 1 (u16 port)))) (mk_hw m (PortIn 1 (u16 port) :: trace s)).
Proof. eexists. reflexivity. Qed.
Lemma outb_run port v s : exists m, outb port v s = Ret tt (mk_hw m (PortOut 1 (u16 port) (u8 v) :: trace s)).
Proof. eexists. reflexivity. Qed.

(** Fact (functional): enabling a line reads the mask of its controller once and writes it back with
    the line's bit cleared, and nothing else. *)
Theorem enable_irq_correct (irq : Z) (s : hw) : 0 <= irq < 16 ->
  let port := fst (pic_line irq) in
  let v := u8 (answer (trace s) (ram s) (PortIn 1 port)) in
  exists m w, enable_irq irq s = Ret tt (mk_hw m (PortOut 1 port w :: PortIn 1 port :: trace s)) /\ 0 <= w < 256
    /\ forall j, 0 <= j < 8 -> Z.testbit w j = Z.testbit v j && negb (j =? irq mod 8).
Proof.
  intros Hi port v.
  assert (0 <= snd (pic_line irq) /\ snd (pic_line irq) = irq mod 8 /\ u16 port = port) as (H0 & Hl & Hp).
  { unfold port, pic_line. destruct (Z.ltb_spec irq 8); cbn [fst snd]; (split; [lia|split; [|reflexivity]]).
    - rewrite Z.mod_small; lia.
    - apply (Z.mod_unique _ _ 1); lia. }
  unfold enable_irq. destruct (pic_line irq) as [p l] eqn:E. cbn [fst snd] in *. subst port.
  destruct (inb_run p s) as [m1 E1]. rewrite Hp in E1. rewrite (krun _ _ _ _ _ E1). fold v.
  destruct (outb_run p (Z.land v (Z.lnot (Z.shiftl 1 l))) (mk_hw m1 (PortIn 1 p :: trace s))) as [m2 E2]. rewrite Hp in E2.
  eexists _, _. split; [exact E2|]. split; [apply Z.mod_pos_bound; lia|].
  intros j Hj. unfold u8. rewrite Z.mod_pow2_bits_low, Z.land_spec, Z.lnot_spec, Z.shiftl_1_l, Z.pow2_bits_eqb by lia.
  rewrite Hl. by rewrite (Z.eqb_sym j).
Qed.

(** One access of a sequence. *)
#[local] Ltac access :=
  match goal with
  | |- context [kbind (outb ?p ?v) _ ?s] => let m := fresh "m" in let E := fresh "E" in
      destruct (outb_run p v s) as [m E]; rewrite (krun _ _ _ _ _ E); clear E
  | |- context [kbind (inb ?p) _ ?s] => let m := fresh "m" in let E := fresh "E" in
      destruct (inb_run p s) as [m E]; rewrite (krun _ _ _ _ _ E); clear E
  end; cbn [trace ram].

Lemma pic_disable_all_run s : exists m, pic_disable_all_irqs s = Ret tt (mk_hw m ([PortOut 1 PIC2_DATA 0xff; PortOut 1 PIC1_DATA 0xff] ++ trace s)).
Proof. unfold pic_disable_all_irqs. access. eexists. reflexivity. Qed.

Lemma pic_remap_run (o1 o2 : Z) s :
  exists m m1, let v1 := u8 (answer (trace s) (ram s) (PortIn 1 PIC1_DATA)) in
    let v2 := u8 (answer (PortIn 1 PIC1_DATA :: trace s) m1 (PortIn 1 PIC2_DATA)) in
    pic_remap o1 o2 s = Ret tt (mk_hw m
      ([PortOut 1 PIC2_DATA (u8 v2); PortOut 1 PIC1_DATA (u8 v1); PortOut 1 PIC2_DATA 1; PortOut 1 PIC1_DATA 3;
        PortOut 1 PIC2_DATA IRQ_SLAVE; PortOut 1 PIC1_DATA 4; PortOut 1 PIC2_DATA (u8 o2); PortOut 1 PIC1_DATA (u8 o1);
        PortOut 1 PIC2_CMD 0x11; PortOut 1 PIC1_CMD 0x11; PortIn 1 PIC2_DATA; PortIn 1 PIC1_DATA] ++ trace s)).
Proof. unfold pic_remap. do 11 access. eexists _, _. reflexivity. Qed.

Lemma pic_get_irr_run s :
  exists m v, pic_get_irr s = Ret v (mk_hw m ([PortIn 1 PIC1_CMD; PortIn 1 PIC2_CMD; PortOut 1 PIC2_CMD PIC_READ_IRR; PortOut 1 PIC1_CMD PIC_READ_IRR] ++ trace s)).
Proof. unfold pic_get_irr, pic_get_reg. do 4 access. eexists _, _. reflexivity. Qed.

(** Fact (functional): the accesses of pic_init, latest first, with controllers whose mask registers
    read as they were written: the controllers are given the vectors 32 and 40, and in the end every
    line is masked except the cascade to the second controller. *)
Theorem pic_init_masks (s : hw) :
  (forall port tr m, port = PIC1_DATA \/ port = PIC2_DATA -> answer tr m (PortIn 1 port) = last_out port tr) ->
  exists m, pic_init s = Ret tt (mk_hw m
    ([PortOut 1 PIC1_DATA 0xfb; PortIn 1 PIC1_DATA; PortIn 1 PIC1_CMD; PortIn 1 PIC2_CMD; PortOut 1 PIC2_CMD PIC_READ_IRR; PortOut 1 PIC1_CMD PIC_READ_IRR;
      PortOut 1 PIC2_DATA 0xff; PortOut 1 PIC1_DATA 0xff; PortOut 1 PIC2_DATA 1; PortOut 1 PIC1_DATA 3;
      PortOut 1 PIC2_DATA IRQ_SLAVE; PortOut 1 PIC1_DATA 4; PortOut 1 PIC2_DATA 40; PortOut 1 PIC1_DATA 32;
      PortOut 1 PIC2_CMD 0x11; PortOut 1 PIC1_CMD 0x11; PortIn 1 PIC2_DATA; PortIn 1 PIC1_DATA;
      PortOut 1 PIC2_DATA 0xff; PortOut 1 PIC1_DATA 0xff] ++ trace s)).
Proof.
  intros H. unfold pic_init.
  destruct (pic_disable_all_run s) as [m1 E1]. rewrite (krun _ _ _ _ _ E1).
  destruct (pic_remap_run IRQ_OFFSET (IRQ_OFFSET + 8) (mk_hw m1 ([PortOut 1 PIC2_DATA 0xff; PortOut 1 PIC1_DATA 0xff] ++ trace s))) as (m2 & m3 & E2).
  rewrite !H in E2 by tauto. rewrite (krun _ _ _ _ _ E2). cbn [trace].
  match goal with |- context [kbind pic_get_irr _ ?x] => destruct (pic_get_irr_run x) as (m4 & v & E3) end.
  rewrite (krun _ _ _ _ _ E3). unfold enable_irq. change (pic_line IRQ_SLAVE) with (PIC1_DATA, IRQ_SLAVE). cbv beta iota. access.
  rewrite H by tauto. eexists. reflexivity.
Qed.
End PicThm.

