(* ===== verification/Dump.v ===== *)
(** * Listing the mappings of an address space (kernel/mem/dump.c)

    The walker's client that prints runs of pages with the same permissions.  What it
    prints is a list of regions (first and last address, flags); the text of a line is
    left out.  The theorem compares the list with the translation the processor makes. *)

From Stdlib Require Import ZArith Lia Sorted.
From stdpp Require Import strings base gmap fin_maps list sorting.
From S2P Require Import Prelude ListHeap Spinlock MemState Walk WalkThm.

#[local] Open Scope Z_scope.
#[local] Open Scope kernel_scope.

Definition region : Type := Z * Z * Z.

(** struct dump_info, and the regions printed so far. *)
Record dump_info := mk_dump { d_base : Z; d_end : Z; d_flags : Z; d_mask : Z; printed : list region }.

(** The region before the hole, if there is one. *)
Definition pending (i : dump_info) : list region :=
  if flag (d_flags i) PAGE_PRESENT then [(d_base i, d_end i, d_flags i)] else [].

Definition dump_hole (base end_ : Z) : K (wstate dump_info) Z :=
  i <-- get_info;;
  set_info (mk_dump (d_base i) (d_end i) 0 (d_mask i) (printed i ++ pending i));;;
  kret 0.

Definition dump_pte : callback dump_info := fun e base end_ =>
  v <-- mem (get_entry e);;
  i <-- get_info;;
  let flags := Z.land v (d_mask i) in
  if flags =? d_flags i then
    set_info (mk_dump (d_base i) end_ (d_flags i) (d_mask i) (printed i));;; kret 0
  else
    dump_hole base end_;;;
    i <-- get_info;;
    set_info (mk_dump base end_ flags (d_mask i) (printed i));;; kret 0.

Definition dump_pde : callback dump_info := fun e base end_ =>
  v <-- mem (get_entry e);;
  if negb (flag v PAGE_HUGE) then kret 0 else
  i <-- get_info;;
  let flags := Z.land v (d_mask i) in
  if flags =? d_flags i then
    set_info (mk_dump (d_base i) end_ (d_flags i) (d_mask i) (printed i));;; kret 0
  else
    dump_hole base end_;;;
    i <-- get_info;;
    set_info (mk_dump base end_ flags (d_mask i) (printed i));;; kret 0.

Definition dump_walker : page_walker dump_info :=
  mk_walker (Some dump_pte) (Some dump_pde) None None None None None (Some dump_hole).

Definition full_mask (mask : Z) : Z := Z.lor (Z.lor (Z.lor (Z.lor mask PAGE_PRESENT) PAGE_WRITE) PAGE_NO_EXEC) PAGE_USER.

(** The result and what has been printed. *)
Definition dump_page_tables_range (pml4 mask base end_ : Z) : K mstate (Z * list region) :=
  r <-- run_walk (mk_dump 0 0 0 (full_mask mask) []) (walk_page_range pml4 base end_ dump_walker);;
  if fst r <? 0 then kret (-1, printed (snd r)) else
  r <-- run_walk (snd r) (dump_hole 0 0);;
  kret (0, printed (snd r)).

Definition dump_page_tables (pml4 mask : Z) : K mstate (Z * list region) := dump_page_tables_range pml4 mask 0 KERNEL_LIM.

(** ** Sweeps: a read-only walk carries a property of *udata along the addresses *)

Section Sweep.
Context {U : Type} (s : mstate) (Inv : U -> Z -> Prop).

Definition sweeps (m : K (wstate U) Z) (lo hi : Z) : Prop :=
  forall u, Inv u lo -> exists u', m (s, u) = Ret 0 (s, u') /\ Inv u' (hi + 1).

Lemma sweeps_state m m' lo hi : (forall u, Inv u lo -> m (s, u) = m' (s, u)) -> sweeps m' lo hi -> sweeps m lo hi.
Proof. intros He H u Hu. rewrite He by done. by apply H. Qed.

Lemma sweeps_then m lo hi : sweeps m lo hi -> sweeps (r <-- m;; if r <? 0 then kret r else kret 0) lo hi.
Proof. intros H u Hu. destruct (H u Hu) as (u' & E & Hu'). exists u'. split; [|done]. unfold kbind. by rewrite E. Qed.

(** The loop of a level, block by block: a block starts where the walk starts or at a boundary. *)
Lemma range_sweeps fuel k be body base en :
  0 <= k <= 64 -> (forall a, 0 <= a -> be a = bend k a) -> base <= en -> one_half base en ->
  en / 2 ^ k - base / 2 ^ k < Z.of_nat fuel ->
  (forall b, base <= b <= en -> b = base \/ b mod 2 ^ k = 0 -> sweeps (body b) b (Z.min (bend k b) en)) ->
  sweeps (range_loop fuel be body base en) base en.
Proof.
  intros Hk Hbe. revert base. induction fuel as [|fuel IH]; intros base Hle Hh Hf Hbody.
  { pose proof (Z.pow_pos_nonneg 2 k). pose proof (Z.div_le_mono base en (2 ^ k)). lia. }
  pose proof (one_half_64 _ _ base Hh ltac:(lia)) as Hb64. pose proof (one_half_64 _ _ en Hh ltac:(lia)) as He64.
  pose proof (bend_spec k base ltac:(lia)) as (Hdiv & Hbd & Hmod). pose proof (bend_64 k base ltac:(lia) Hb64) as Hbend.
  intros u Hu. cbn [range_loop]. destruct (Z.leb_spec base en); [|lia].
  rewrite (sign_extend_half base en) by (done || lia). rewrite Hbe by lia.
  destruct (Hbody base ltac:(lia) (or_introl eq_refl) u Hu) as (u1 & E & Hu1). rewrite (krun _ _ _ _ _ E). cbn [Z.ltb Z.compare].
  destruct (Z_lt_le_dec en (bend k base + 1)) as [Hlast|Hmore].
  - rewrite Z.min_r in Hu1 by lia. exists u1. split; [|done]. destruct (Z.eqb_spec (u64 (bend k base + 1)) 0) as [|Hne]; [done|].
    assert (bend k base + 1 < 2 ^ 64) as Hlt.
    { destruct (Z.eq_dec (bend k base + 1) (2 ^ 64)) as [Ex|]; [|lia]. by rewrite Ex in Hne. }
    rewrite u64_id by lia. destruct fuel; cbn [range_loop]; destruct (Z.leb_spec (bend k base + 1) en); (lia || done).
  - rewrite Z.min_l in Hu1 by lia. rewrite u64_id by lia. destruct (Z.eqb_spec (bend k base + 1) 0); [lia|].
    assert (0 < 2 ^ k) by (apply Z.pow_pos_nonneg; lia).
    assert ((bend k base + 1) / 2 ^ k = base / 2 ^ k + 1) as Hnext.
    { unfold bend. replace (base / 2 ^ k * 2 ^ k + (2 ^ k - 1) + 1) with ((base / 2 ^ k + 1) * 2 ^ k) by lia. apply Z.div_mul. lia. }
    apply (IH (bend k base + 1)); [lia|eapply one_half_sub; [exact Hh|lia|lia]|lia| |done].
    intros b Hb Hpos. apply Hbody; [lia|]. right. by destruct Hpos as [-> |?].
Qed.
End Sweep.

(** ** Sorted lists of regions *)

Definition apart (r r' : region) : Prop :=
  let '(_, e, f) := r in let '(b, _, f') := r' in e < b /\ (e + 1 = b -> f <> f').

Lemma sorted_snoc {A} (R : A -> A -> Prop) l y : Sorted R l -> (forall x, last l = Some x -> R x y) -> Sorted R (l ++ [y]).
Proof.
  induction 1 as [|x l Hl IH Hx]; intros Hy; [repeat constructor|]. cbn [app]. constructor.
  - apply IH. intros z Hz. apply Hy. destruct l; [done|exact Hz].
  - destruct l as [|z l]; [constructor; by apply Hy|]. inversion Hx; subst. by constructor.
Qed.

Lemma sorted_last {A} (R : A -> A -> Prop) l y y' : (forall x, R x y -> R x y') -> Sorted R (l ++ [y]) -> Sorted R (l ++ [y']).
Proof.
  intros HR. induction l as [|x l IH]; cbn [app]; intros Hs; [repeat constructor|]. apply Sorted_inv in Hs as [Hs Hx].
  constructor; [by apply IH|]. destruct l; inversion Hx; subst; constructor; auto.
Qed.

(** ** The runs of a function on addresses *)

Section Runs.
Context (df : Z -> option Z) (M lo hi : Z).

Definition covers (rs : list region) (x f : Z) : Prop := exists b e, (b, e, f) ∈ rs /\ b <= x <= e.

Definition listed (i : dump_info) : list region := printed i ++ pending i.

(** [i] describes the addresses from [lo] up to [a]. *)
Record upto (i : dump_info) (a : Z) : Prop := {
  up_mask : d_mask i = M;
  up_none : flag (d_flags i) PAGE_PRESENT = false -> d_flags i = 0;
  up_open : a <= hi -> flag (d_flags i) PAGE_PRESENT = true -> d_end i + 1 = a;
  up_base : flag (d_flags i) PAGE_PRESENT = true -> d_base i <= a;
  up_cover : forall x f, lo <= x <= hi -> x < a -> covers (listed i) x f <-> df x = Some f;
  up_past : a <= hi -> forall b e f, (b, e, f) ∈ listed i -> e < a;
  up_sorted : Sorted apart (listed i);
  up_start : a = lo -> listed i = [];
  up_gap : a <= hi -> pending i = [] -> forall b e f, last (listed i) = Some (b, e, f) -> e + 1 < a
}.

(** What the callbacks do to *udata. *)
Definition cut (i : dump_info) : dump_info := mk_dump (d_base i) (d_end i) 0 (d_mask i) (listed i).
Definition extend (base end_ f : Z) (i : dump_info) : dump_info :=
  if f =? d_flags i then mk_dump (d_base i) end_ (d_flags i) (d_mask i) (printed i)
  else mk_dump base end_ f (d_mask i) (listed i).

Lemma covers_snoc rs b e f x g : covers (rs ++ [(b, e, f)]) x g <-> covers rs x g \/ (g = f /\ b <= x <= e).
Proof.
  unfold covers. split.
  - intros (b' & e' & [Hin|Hin]%elem_of_app & Hx); [left; by exists b', e'|]. apply list_elem_of_singleton in Hin as [= -> -> ->]. by right.
  - intros [(b' & e' & Hin & Hx)|[-> Hx]]; [exists b', e'|exists b, e]; (split; [apply elem_of_app|done]); [by left|right; by left].
Qed.

Lemma hole_ok i i' a c :
  upto i a -> lo <= a <= c -> c <= hi -> (forall x, a <= x <= c -> df x = None) ->
  d_mask i' = M -> d_flags i' = 0 -> listed i' = listed i -> upto i' (c + 1).
Proof.
  intros [Hm Hn Ho Hbs Hc Hp Hs Hst Hg] Hac Hch Hdf Hm' Hf' Hl'.
  assert (pending i' = []) as Hpe by (unfold pending; by rewrite Hf').
  constructor; rewrite ?Hl'; try done.
  - by rewrite Hf'.
  - by rewrite Hf'.
  - intros x f Hx Hlt. destruct (Z_lt_le_dec x a) as [|Ha]; [by apply Hc|]. rewrite Hdf by lia. split; [|done].
    intros (b & e & Hin & Hb). specialize (Hp ltac:(lia) _ _ _ Hin). lia.
  - intros _ b e f Hin. specialize (Hp ltac:(lia) _ _ _ Hin). lia.
  - lia.
  - intros _ _ b e f Hin%last_Some_elem_of. specialize (Hp ltac:(lia) _ _ _ Hin). lia.
Qed.

(** Where a page with flags [f] at [a] goes: the last region of a list, which reaches back to [b']. *)
Lemma extend_listed i a b be f :
  upto i a -> lo <= a <= hi -> flag f PAGE_PRESENT = true -> b = a \/ (a = lo /\ b <= a) ->
  exists l b', listed (extend b be f i) = l ++ [(b', be, f)] /\ d_base (extend b be f i) = b' /\ b' <= a
    /\ (forall x g, lo <= x <= hi -> x < a -> covers l x g \/ (g = f /\ b' <= x) <-> df x = Some g)
    /\ (forall r, r ∈ l -> r ∈ listed i) /\ Sorted apart (l ++ [(b', be, f)]).
Proof.
  intros [Hm Hn Ho Hbs Hc Hp Hs Hst Hg] Ha Hf Hb. unfold extend, listed, pending in *.
  destruct (Z.eqb_spec f (d_flags i)) as [->|Hne]; cbn [d_flags d_base d_end printed]; rewrite Hf in *.
  - specialize (Ho ltac:(lia) eq_refl). specialize (Hbs eq_refl). exists (printed i), (d_base i). split_and!; try done.
    + intros x g Hx Hlt. rewrite <- Hc, covers_snoc by done. split; (intros [?|[? ?]]; [by left|right; split; [done|lia]]).
    + intros r Hr. apply elem_of_app. by left.
    + revert Hs. apply sorted_last. by intros [[? ?] ?].
  - exists (printed i ++ (if flag (d_flags i) PAGE_PRESENT then [(d_base i, d_end i, d_flags i)] else [])), b.
    split_and!; try done; [lia| |].
    + intros x g Hx Hlt. rewrite <- Hc by done. split; [|by left]. intros [|[-> ?]]; [done|lia].
    + apply sorted_snoc; [done|]. intros [[b1 e1] f1] Hl. destruct Hb as [->|[-> _]]; [|by rewrite Hst in Hl].
      destruct (flag (d_flags i) PAGE_PRESENT).
      * rewrite last_snoc in Hl. injection Hl as <- <- <-. specialize (Ho ltac:(lia) eq_refl). split; [lia|]. intros _. congruence.
      * specialize (Hg ltac:(lia) eq_refl _ _ _ Hl). split; lia.
Qed.

Lemma run_ok i a b be f c :
  upto i a -> lo <= a <= hi -> a <= be -> c = Z.min be hi -> flag f PAGE_PRESENT = true -> (forall x, a <= x <= c -> df x = Some f) ->
  b = a \/ (a = lo /\ b <= a) -> upto (extend b be f i) (c + 1).
Proof.
  intros Hup Ha Hbe Hch Hf Hdf Hb. destruct (extend_listed i a b be f Hup Ha Hf Hb) as (l & b' & El & Eb & Hb' & Hcov & Hsub & Hsort).
  destruct Hup as [Hm _ _ _ _ Hp _ _ _].
  assert (d_flags (extend b be f i) = f /\ d_end (extend b be f i) = be /\ d_mask (extend b be f i) = M) as (Ef & Ee & Em).
  { unfold extend. by destruct (Z.eqb_spec f (d_flags i)) as [->|]. }
  constructor; rewrite ?El, ?Ef, ?Ee, ?Eb; try done; try lia.
  - by rewrite Hf.
  - intros x g Hx Hlt. rewrite covers_snoc. destruct (Z_lt_le_dec x a) as [Hxa|Hxa].
    + rewrite <- Hcov by done. split; (intros [?|[? ?]]; [by left|right; split; [done|lia]]).
    + rewrite Hdf by lia. split.
      * intros [(b1 & e1 & Hin & Hx1)|[-> _]]; [|done]. specialize (Hp ltac:(lia) _ _ _ (Hsub _ Hin)). lia.
      * intros [= ->]. right. split; [done|lia].
  - intros Hc b1 e1 f1 [Hin|Hin]%elem_of_app; [specialize (Hp ltac:(lia) _ _ _ (Hsub _ Hin)); lia|].
    apply list_elem_of_singleton in Hin as [= -> -> ->]. lia.
  - unfold pending. by rewrite Ef, Hf.
Qed.
End Runs.

(** ** The walk *)

Lemma dump_hole_run b en (s : mstate) i : dump_hole b en (s, i) = Ret 0 (s, cut i).
Proof. reflexivity. Qed.

Lemma dump_pte_run e b en s i : dump_pte e b en (s, i) = Ret 0 (s, extend b en (Z.land (read_frames (frames s) e) (d_mask i)) i).
Proof. unfold dump_pte. rewrite bind_get_entry. unfold kbind at 1, get_info at 1, extend. by destruct (Z.land _ _ =? d_flags i). Qed.

Lemma dump_pde_run e b en s i :
  dump_pde e b en (s, i)
    = Ret 0 (s, if flag (read_frames (frames s) e) PAGE_HUGE then extend b en (Z.land (read_frames (frames s) e) (d_mask i)) i else i).
Proof.
  unfold dump_pde. rewrite bind_get_entry. destruct (flag (read_frames (frames s) e) PAGE_HUGE); [|done].
  unfold negb, kbind at 1, get_info at 1, extend. by destruct (Z.land _ _ =? d_flags i).
Qed.

Lemma listed_cut i : listed (cut i) = listed i.
Proof. unfold listed at 1, pending at 1, cut. cbn [d_flags printed]. change (flag 0 PAGE_PRESENT) with false. apply app_nil_r. Qed.

Lemma listed_absent b e f i : flag f PAGE_PRESENT = false -> listed (cut (extend b e f i)) = listed i.
Proof.
  intros Hf. rewrite listed_cut. unfold extend. destruct (Z.eqb_spec f (d_flags i)) as [->|]; unfold listed, pending; cbn [d_flags d_base d_end printed]; rewrite Hf; [done|by rewrite app_nil_r].
Qed.

Lemma mask_present mask : flag (full_mask mask) PAGE_PRESENT = true.
Proof. unfold full_mask, PAGE_PRESENT. change (Z.shiftl 1 0) with 1. rewrite flag_bit0, !Z.lor_spec. by rewrite !orb_true_r. Qed.

Section Walk.
Context (s : mstate) (M lo hi : Z) (df : Z -> option Z).
Hypothesis mask_has_present : flag M PAGE_PRESENT = true.
Hypothesis range : lo <= hi /\ one_half lo hi.

#[local] Abbreviation Inv := (upto df M lo hi).
#[local] Abbreviation fr := (frames s).

(** What the entry of an address shows. *)
Definition shown (l : option entry) : option Z := (fun e => Z.land (read_frames fr e) M) <$> l.

Lemma shown_present v : flag (Z.land v M) PAGE_PRESENT = flag v PAGE_PRESENT.
Proof.
  revert mask_has_present. unfold PAGE_PRESENT. change (Z.shiftl 1 0) with 1. rewrite !flag_bit0, Z.land_spec. intros ->.
  apply andb_true_r.
Qed.

(** The end of a part of the range: the end of the range, or of a block. *)
Definition clipped (k en : Z) : Prop := en = hi \/ (en + 1) mod 2 ^ k = 0.

Lemma clipped_min k en b : 0 <= k -> b <= en <= hi -> clipped k en -> Z.min (bend k b) en = Z.min (bend k b) hi.
Proof.
  intros Hk Hb [->|Hc]; [done|]. pose proof (bend_spec k b Hk) as (Hd & Hbd & _). enough (bend k b <= en) by lia.
  assert (0 < 2 ^ k) by (apply Z.pow_pos_nonneg; lia). unfold bend. apply Z.mod_divide in Hc as [q Hq]; [|lia].
  assert (b / 2 ^ k < q) by (apply Z.div_lt_upper_bound; lia). nia.
Qed.

Lemma mod_pow_le k j x : 0 <= k <= j -> x mod 2 ^ j = 0 -> x mod 2 ^ k = 0.
Proof.
  intros Hk Hx. apply Z.mod_divide in Hx; [|apply Z.pow_nonzero; lia]. apply Z.mod_divide; [apply Z.pow_nonzero; lia|].
  etransitivity; [|exact Hx]. exists (2 ^ (j - k)). rewrite <- Z.pow_add_r by lia. f_equal. lia.
Qed.

Lemma clipped_le k j en : 0 <= k <= j -> clipped j en -> clipped k en.
Proof. intros Hk [->|Hc]; [by left|right; by eapply mod_pow_le]. Qed.

Lemma clipped_sub k j en b : 0 <= k <= j -> clipped j en -> clipped k (Z.min (bend j b) en).
Proof.
  intros Hk Hc. destruct (Z.min_spec (bend j b) en) as [[_ ->]|[_ ->]]; [|by eapply clipped_le].
  right. apply (mod_pow_le k j); [done|]. apply bend_spec. lia.
Qed.

Lemma start_aligned k b : 0 <= k -> b mod 2 ^ k = 0 -> b / 2 ^ k * 2 ^ k = b.
Proof. intros Hk Hb. pose proof (Z.div_mod b (2 ^ k) ltac:(apply Z.pow_nonzero; lia)). lia. Qed.

Lemma ptbl_sweeps t base en :
  base <= en -> lo <= base -> en <= hi -> en <= bend 21 base -> base mod 4096 = 0 -> clipped 12 en ->
  (forall x, base <= x <= en -> df x = shown (leaf1 fr t x)) ->
  sweeps s Inv (ptbl_walk_range t base en dump_walker) base en.
Proof.
  intros Hle Hlo Hhi Hb Hal Hcl Hdf. pose proof (one_half_sub _ _ base en (proj2 range) Hlo Hhi) as Hh.
  unfold ptbl_walk_range. rewrite !(sign_extend_half base en) by (done || lia). pose proof (one_half_64 _ _ base Hh ltac:(lia)) as Hb64.
  apply (range_sweeps _ _ _ 12); [lia|apply ptbl_end_bend|done|done|by apply blocks_512; [lia|]|].
  intros b Hbb Hpos. pose proof (bend_spec 12 b ltac:(lia)) as (_ & Hbd & _).
  set (e := (t, PAGE_TABLE_INDEX b)). set (v := read_frames fr e).
  assert (forall x, b <= x <= Z.min (bend 12 b) en -> df x = if flag v PAGE_PRESENT then Some (Z.land v M) else None) as Hx.
  { intros x Hx. rewrite Hdf by lia. unfold leaf1. rewrite (table_index_block x b) by lia. fold e v. by destruct (flag v PAGE_PRESENT). }
  assert (ptbl_start b = b) as Hst.
  { unfold ptbl_start. change PAGE_SIZE with (2 ^ 12). rewrite (land_not64 b 12) by (lia || apply (one_half_64 _ _ b Hh); lia).
    apply start_aligned; [lia|]. by destruct Hpos as [->|?]. }
  rewrite clipped_min in * by (done || lia). intros i Hi. unfold ptbl_body. fold e. cbn [dump_walker pte_callback].
  rewrite (call_opt_0 _ _ _ _ _ _ _ (dump_pte_run _ _ _ _ _)), bind_get_entry, Hst, ptbl_end_bend, (up_mask _ _ _ _ _ _ Hi) by lia. fold v.
  destruct (flag v PAGE_PRESENT) eqn:P; cbn [negb hole_opt pt_hole_callback dump_walker].
  - eexists. split; [reflexivity|]. apply (run_ok df M lo hi i b); [done|lia|lia|done|by rewrite shown_present|done|by left].
  - rewrite (krun _ _ _ _ _ (dump_hole_run _ _ _ _)). eexists. split; [reflexivity|].
    apply (hole_ok df M lo hi i _ b); [done|lia|lia|done| |done|by rewrite listed_absent by (by rewrite shown_present)].
    unfold cut, extend. cbn. by destruct (_ =? _); cbn; apply (up_mask _ _ _ _ _ _ Hi).
Qed.
(** Where a part of the range may start at level [k]. *)
Definition starts (k b : Z) : Prop := b = lo \/ b mod 2 ^ k = 0.

Lemma starts_sub k j base b : 0 <= k <= j -> starts j base -> b = base \/ b mod 2 ^ k = 0 -> starts k b.
Proof. intros Hk Hs [->|?]; [|by right]. destruct Hs as [->|Hs]; [by left|right; by eapply mod_pow_le]. Qed.

(** A hole. *)
Lemma hole_sweeps bs be b c : lo <= b <= c -> c <= hi -> (forall x, b <= x <= c -> df x = None) ->
  sweeps s Inv (r <-- dump_hole bs be;; if r <? 0 then kret r else kret 0) b c.
Proof.
  intros Hb Hc Hdf i Hi. rewrite (krun _ _ _ _ _ (dump_hole_run _ _ _ _)). eexists. split; [reflexivity|].
  apply (hole_ok df M lo hi i _ b); try done; [apply (up_mask _ _ _ _ _ _ Hi)|apply listed_cut].
Qed.

Lemma pdir_sweeps t base en :
  base <= en -> lo <= base -> en <= hi -> en <= bend 30 base -> lo mod 4096 = 0 -> (hi + 1) mod 4096 = 0 -> starts 30 base -> clipped 30 en ->
  (forall x, base <= x <= en -> in2 fr (npages s) t x) ->
  (forall x, base <= x <= en -> df x = shown (leaf2 fr t x)) ->
  sweeps s Inv (pdir_walk_range t base en dump_walker) base en.
Proof.
  intros Hle Hlo Hhi Hb Hal Hah Hpos Hcl Hin Hdf. pose proof (one_half_sub _ _ base en (proj2 range) Hlo Hhi) as Hh.
  unfold pdir_walk_range. rewrite !(sign_extend_half base en) by (done || lia).
  apply (range_sweeps _ _ _ 21); [lia|apply pdir_end_bend|done|done|by apply blocks_512; [lia|]|].
  intros b Hbb Hposb. pose proof (bend_spec 21 b ltac:(lia)) as (_ & Hbd & _). pose proof (one_half_64 _ _ b Hh ltac:(lia)) as Hb64.
  pose proof (starts_sub 21 30 base b ltac:(lia) Hpos Hposb) as Hsb. specialize (Hin b Hbb).
  set (e := (t, PAGE_DIR_INDEX b)). unfold in2 in Hin. fold e in Hin. set (v := read_frames fr e) in *.
  assert (forall x, b <= x <= Z.min (bend 21 b) en -> df x = shown
    (if flag v PAGE_PRESENT then if flag v PAGE_HUGE then Some e else leaf1 fr (tbl v) x else None)) as Hx.
  { intros x Hx. rewrite Hdf by lia. unfold leaf2. by rewrite (dir_index_block x b) by lia. }
  assert (pdir_start b = b \/ (b = lo /\ pdir_start b <= b)) as Hst.
  { unfold pdir_start. change PAGE_TABLE_SPAN with (2 ^ 21). rewrite (land_not64 b 21) by lia.
    destruct Hsb as [->|Hs]; [right; split; [done|]|left; by apply start_aligned].
    pose proof (Z.div_mod lo (2 ^ 21) ltac:(lia)). pose proof (Z.mod_pos_bound lo (2 ^ 21) ltac:(lia)). lia. }
  assert (Z.min (bend 21 b) en = Z.min (bend 21 b) hi) as Hmin.
  { apply clipped_min; [lia|lia|]. by apply (clipped_le 21 30). }
  intros i Hi. unfold pdir_body. fold e. cbn [dump_walker pde_callback].
  rewrite (call_opt_0 _ _ _ _ _ _ _ (dump_pde_run _ _ _ _ _)), bind_get_entry, pdir_end_bend, (up_mask _ _ _ _ _ _ Hi) by lia. fold v.
  destruct (flag v PAGE_PRESENT) eqn:P; [destruct (flag v PAGE_HUGE) eqn:H|]; cbn [hole_opt pt_hole_callback dump_walker call_opt pde_unmap].
  - eexists. split; [reflexivity|]. rewrite Hmin in *.
    apply (run_ok df M lo hi i b); [done|lia|lia|done|by rewrite shown_present|intros x Hxx; by rewrite Hx|done].
  - rewrite bind_table_at by auto. revert i Hi. apply sweeps_then.
    apply ptbl_sweeps; [lia|lia|lia|lia| | |exact Hx].
    + destruct Hsb as [->|Hs]; [done|]. by apply (mod_pow_le 12 21).
    + apply (clipped_sub _ 21); [lia|]. by apply (clipped_le 21 30).
  - rewrite (krun _ _ _ _ _ (dump_hole_run _ _ _ _)). eexists. split; [reflexivity|].
    apply (hole_ok df M lo hi i _ b); [done|lia|lia|intros x Hxx; by rewrite Hx| |done|].
    + destruct (flag v PAGE_HUGE); unfold cut, extend; cbn; [destruct (_ =? _)|]; cbn; apply (up_mask _ _ _ _ _ _ Hi).
    + destruct (flag v PAGE_HUGE); [by rewrite listed_absent by (by rewrite shown_present)|apply listed_cut].
Qed.
Lemma pdpt_sweeps t base en :
  base <= en -> lo <= base -> en <= hi -> en <= bend 39 base -> lo mod 4096 = 0 -> (hi + 1) mod 4096 = 0 -> starts 39 base -> clipped 39 en ->
  (forall x, base <= x <= en -> in3 fr (npages s) t x) ->
  (forall x, base <= x <= en -> df x = shown (leaf3 fr t x)) ->
  sweeps s Inv (pdpt_walk_range t base en dump_walker) base en.
Proof.
  intros Hle Hlo Hhi Hb Hal Hah Hpos Hcl Hin Hdf. pose proof (one_half_sub _ _ base en (proj2 range) Hlo Hhi) as Hh.
  unfold pdpt_walk_range. rewrite !(sign_extend_half base en) by (done || lia).
  apply (range_sweeps _ _ _ 30); [lia|apply pdpt_end_bend|done|done|by apply blocks_512; [lia|]|].
  intros b Hbb Hposb. pose proof (bend_spec 30 b ltac:(lia)) as (_ & Hbd & _). pose proof (one_half_64 _ _ b Hh ltac:(lia)) as Hb64.
  pose proof (starts_sub 30 39 base b ltac:(lia) Hpos Hposb) as Hsb. set (v := read_frames fr (t, PDPT_INDEX b)).
  assert (forall x, b <= x <= Z.min (bend 30 b) en -> df x = shown (if flag v PAGE_PRESENT then leaf2 fr (tbl v) x else None)) as Hx.
  { intros x Hx. rewrite Hdf by lia. unfold leaf3. by rewrite (pdpt_index_block x b) by lia. }
  assert (forall x, b <= x <= Z.min (bend 30 b) en -> flag v PAGE_PRESENT = true -> tbl v < npages s /\ in2 fr (npages s) (tbl v) x) as Hin'.
  { intros x Hxx. specialize (Hin x ltac:(lia)). unfold in3 in Hin. by rewrite (pdpt_index_block x b) in Hin by lia. }
  unfold pdpt_body. cbn [call_opt dump_walker pdpte_callback pdpte_unmap hole_opt pt_hole_callback].
  eapply sweeps_state; [intros u _; rewrite bind_get_entry; fold v; reflexivity|].
  destruct (flag v PAGE_PRESENT) eqn:P.
  - destruct (Hin' b ltac:(lia) eq_refl) as [Ht _].
    eapply sweeps_state; [intros u _; by rewrite bind_table_at|]. rewrite pdpt_end_bend by lia. apply sweeps_then.
    apply pdir_sweeps; [lia|lia|lia|lia|done|done|done| |intros x Hxx; by apply Hin'|exact Hx].
    apply (clipped_sub _ 30); [lia|]. by apply (clipped_le 30 39).
  - apply hole_sweeps; [lia|lia|exact Hx].
Qed.

Lemma pml4_sweeps t :
  lo mod 4096 = 0 -> (hi + 1) mod 4096 = 0 -> (forall x, lo <= x <= hi -> in4 fr (npages s) t x) ->
  (forall x, lo <= x <= hi -> df x = shown (leaf4 fr t x)) ->
  sweeps s Inv (pml4_walk_range t lo hi dump_walker) lo hi.
Proof.
  intros Hal Hah Hin Hdf. destruct range as [Hle Hh].
  unfold pml4_walk_range. rewrite !(sign_extend_half lo hi) by (done || lia).
  apply (range_sweeps _ _ _ 39); [lia|apply pml4_end_bend|done|done|by apply half_blocks|].
  intros b Hbb Hposb. pose proof (bend_spec 39 b ltac:(lia)) as (_ & Hbd & _). pose proof (one_half_64 _ _ b Hh ltac:(lia)) as Hb64.
  set (v := read_frames fr (t, PML4_INDEX b)).
  assert (forall x, b <= x <= Z.min (bend 39 b) hi -> df x = shown (if flag v PAGE_PRESENT then leaf3 fr (tbl v) x else None)) as Hx.
  { intros x Hx. rewrite Hdf by lia. unfold leaf4. by rewrite (pml4_index_block x b) by lia. }
  assert (forall x, b <= x <= Z.min (bend 39 b) hi -> flag v PAGE_PRESENT = true -> tbl v < npages s /\ in3 fr (npages s) (tbl v) x) as Hin'.
  { intros x Hxx. specialize (Hin x ltac:(lia)). unfold in4 in Hin. by rewrite (pml4_index_block x b) in Hin by lia. }
  unfold pml4_body. cbn [call_opt dump_walker pml4e_callback pml4e_unmap hole_opt pt_hole_callback].
  eapply sweeps_state; [intros u _; rewrite bind_get_entry; fold v; reflexivity|].
  destruct (flag v PAGE_PRESENT) eqn:P.
  - destruct (Hin' b ltac:(lia) eq_refl) as [Ht _].
    eapply sweeps_state; [intros u _; by rewrite bind_table_at|]. rewrite pml4_end_bend by lia. apply sweeps_then.
    apply pdpt_sweeps; [lia|lia|lia|lia|done|done|done| |intros x Hxx; by apply Hin'|exact Hx].
    apply (clipped_sub _ 39); [lia|]. by left.
  - apply hole_sweeps; [lia|lia|exact Hx].
Qed.
End Walk.


