(* ===== verification/Daemons.v ===== *)
(** * The page daemons and swapping (kernel/sched/task.c, kernel/mem/swap.c)

    The thread that ages the pages on the list of active pages, the thread that clears
    freed pages, and moving a page to the swap disk and back, over the state of Task.v.
    Disks are reached through their table of operations, as in disk.c: an argument. *)

From Stdlib Require Import ZArith Lia.
From stdpp Require Import strings base gmap fin_maps list.
From S2P Require Import Prelude ListHeap Strings Printfmt Spinlock RbTree MemState Buddy Walk Ptbl Init Vma Task Proc.
Import Spinlock.

#[local] Open Scope Z_scope.
#[local] Open Scope kernel_scope.

Definition PAGE_ACCESSED : Z := Z.shiftl 1 5.

(** ** A struct page_info taken for an entry

    page_lookup returns the address of a [struct page_info]; its callers here cast it to the address of a
    page-table entry.  The word they read and write is the first of the structure, [pp_node.next]. *)
Section Cast.
Variable st : statics.

(** The node at an address. *)
Definition node_at (a : Z) : mloc :=
  let d := a - KPAGES in
  if (0 <=? d) && (d mod sizeof_page_info =? 0) then PpNode (d / sizeof_page_info)
  else if (0 <=? d) && (d mod sizeof_page_info =? 48) then ActiveNode (d / sizeof_page_info)
  else if a =? va_active st then ActivePages
  else if a =? va_inactive st then InactivePages
  else if a =? va_zeroq st then Zeroq
  else let k := (a - va_free_lists st) / 16 in
       if (0 <=? k) && (k <? BUDDY_MAX_ORDER) && ((a - va_free_lists st) mod 16 =? 0) then FreeList k else Wild a.

Definition read_as_pte (page : Z) : K mstate Z :=
  n <-- list_get (fun h => get_next h (PpNode page));; kret (addr_of st KPAGES n).
Definition write_as_pte (page v : Z) : K mstate unit := list_op (fun h => set_next h (PpNode page) (node_at v)).
End Cast.

Section Daemons.
Context {M : machine} (st : statics).

(** ** task_init *)

(** The PID map is an array of pointers at PIDMAP_BASE; all are cleared. *)
Definition task_init : K pstate unit :=
  on_mem oom_kill_task (populate_region cfg this_cpu oom_stop kernel_pml4 PIDMAP_BASE (pid_max * 8)
    (Z.lor (Z.lor PAGE_PRESENT PAGE_WRITE) PAGE_NO_EXEC));;;
  kmodify (with_pidmap ∅).

(** ** page_check_daemon *)

(** The body of the loop, for one node of the list.  A cleared structure has no page table; frame 0 is
    never one. *)
Definition check_page (node : mloc) : K pstate unit :=
  let stop : K pstate unit := fun s => NoReturn s in
  pp <-- (match node with ActiveNode i => kret i | _ => kfault end);;
  g <-- on_mem stop (get_page pp);;
  match owner g with
  | None => kret tt
  | Some task =>
      x <-- get_task task;;
      if t_pml4 x =? 0 then kret tt else
      r <-- on_mem stop (page_lookup (t_pml4 x) (virt_addr g));;
      match fst r with
      | None => kret tt
      | Some pte =>
          v <-- on_mem stop (read_as_pte st pte);;
          if flag v PAGE_ACCESSED then on_mem stop (write_as_pte st pte (Z.land v (not64 PAGE_ACCESSED)))
          else
            on_mem stop (list_op (fun h => list_del h node));;;
            on_mem stop (list_op (fun h => list_add_tail h InactivePages node))
      end
  end.

(** [list_foreach_safe(&active_pages, node, next)]. *)
Fixpoint check_loop (fuel : nat) (node next : mloc) : K pstate unit :=
  match fuel with
  | O => khang
  | S fuel =>
      if bool_decide (node = ActivePages) then kret tt else
      check_page node;;;
      n <-- on_mem (fun s => NoReturn s) (list_get (fun h => get_next h next));;
      check_loop fuel next n
  end.

Definition check_pages : K pstate unit :=
  let stop : K pstate unit := fun s => NoReturn s in
  on_mem stop (lock_active this_cpu "kernel/sched/task.c" 366);;;
  node <-- on_mem stop (list_get (fun h => get_next h ActivePages));;
  next <-- on_mem stop (list_get (fun h => get_next h node));;
  (fun s => check_loop (S (size (lists (phys s)))) node next s);;;
  on_mem stop (unlock_active this_cpu).

Fixpoint page_check_daemon (fuel : nat) : K pstate unit :=
  match fuel with
  | O => khang
  | S fuel => check_pages;;; sched_yield yields;;; page_check_daemon fuel
  end.

(** ** State of the rest: zeroq_lock, and the variables of swap.c *)

Record swap_entry := mk_swap_entry { se_sector : Z; se_task : option Z; se_pte : Z; se_used : bool }.

Record swap_state := mk_swap {
  kern : pstate;
  zeroq_lock : spinlock;
  (** [sdisk], an index of [disks]. *)
  sdisk : option nat;
  swap_bitmap : list Z;
  swap_meta : gmap Z swap_entry;
  swap_entries : gmap Z swap_entry
}.
Definition with_kern x s := mk_swap x (zeroq_lock s) (sdisk s) (swap_bitmap s) (swap_meta s) (swap_entries s).
Definition with_zeroq_lock x s := mk_swap (kern s) x (sdisk s) (swap_bitmap s) (swap_meta s) (swap_entries s).
Definition with_sdisk x s := mk_swap (kern s) (zeroq_lock s) x (swap_bitmap s) (swap_meta s) (swap_entries s).
Definition with_tables x y s := mk_swap (kern s) (zeroq_lock s) (sdisk s) x y (swap_entries s).
Definition with_entries x s := mk_swap (kern s) (zeroq_lock s) (sdisk s) (swap_bitmap s) (swap_meta s) x.

Definition on_kern {A} (m : K pstate A) : K swap_state A := fun s =>
  match m (kern s) with
  | Ret a k => Ret a (with_kern k s)
  | Panic => Panic | Fault => Fault | Hang => Hang
  | NoReturn k => NoReturn (with_kern k s)
  end.
Definition on_frames {A} (m : K mstate A) : K swap_state A := on_kern (on_mem (fun s => NoReturn s) m).

(** ** zero_page_daemon *)

Definition haslock_zeroq : K swap_state bool := fun s => Ret (spin_haslock this_cpu (zeroq_lock s)) s.
Definition lock_zeroq : K swap_state unit := fun s =>
  match spin_lock this_cpu "kernel/sched/task.c" 401 (zeroq_lock s, spinlock_rank (phys (kern s))) with
  | Ret _ (l, r) => Ret tt (with_zeroq_lock l (with_kern (with_rank r (kern s)) s))
  | Panic => Panic | Fault => Fault | Hang => Hang | NoReturn _ => Fault
  end.
Definition unlock_zeroq : K swap_state unit := fun s =>
  match spin_unlock this_cpu (zeroq_lock s, spinlock_rank (phys (kern s))) with
  | Ret _ (l, r) => Ret tt (with_zeroq_lock l (with_kern (with_rank r (kern s)) s))
  | Panic => Panic | Fault => Fault | Hang => Hang | NoReturn _ => Fault
  end.

(** The index of the page a node belongs to; NULL is [pp_node] of the structure at address 0. *)
Definition page_of_zeroq (n : option mloc) : K swap_state Z :=
  match n with
  | Some (PpNode i) => kret i
  | Some _ => kfault
  | None => kret ((2 ^ 64 - KPAGES) / sizeof_page_info)
  end.

Fixpoint zero_page_daemon (fuel : nat) : K swap_state unit :=
  match fuel with
  | O => khang
  | S fuel =>
      has <-- haslock_zeroq;;
      (if negb has then lock_zeroq else kret tt);;;
      e <-- on_frames (list_get (fun h => list_is_empty h Zeroq));;
      (if e : bool then unlock_zeroq;;; on_kern (sched_yield yields) else kret tt);;;
      n <-- on_frames (list_run (fun h => list_pop_tail h Zeroq));;
      page <-- page_of_zeroq n;;
      has <-- haslock_zeroq;;
      (if has : bool then unlock_zeroq else kret tt);;;
      on_frames (page2kva page;;; memset_zero page 1);;;
      on_frames (page_free cfg this_cpu page);;;
      zero_page_daemon fuel
  end.

(** ** swap.c *)

Definition SECTOR_SIZE : Z := 512.
Definition SWAP_SECTORS_PER_PAGE : Z := PAGE_SIZE / SECTOR_SIZE.
Definition SWAP_SIZE_MB : Z := 128.
Definition SWAP_ENTRIES : Z := SWAP_SIZE_MB * 1024 * 1024 / PAGE_SIZE.

(** struct disk_ops; the disk itself is in the state. *)
Record disk_ops := mk_disk_ops {
  op_poll : K pstate Z;
  op_read : Z -> Z -> Z -> K pstate Z;
  op_write : Z -> Z -> Z -> K pstate Z
}.
Variable disks : list disk_ops.
(** How often a busy disk is polled. *)
Variable patience : nat.

Definition the_disk : K swap_state disk_ops := fun s => kderef (i ← sdisk s; disks !! i) s.

Definition swap_init : K swap_state Z :=
  if Z.of_nat (length disks) <? 2 then kret (-1) else
  kmodify (with_sdisk (Some 1%nat));;;
  p <-- on_frames (page_alloc cfg this_cpu ALLOC_ZERO);;
  page <-- kderef p;;
  on_frames (mod_page page (fun g => set_pp_ref (u16 (pp_ref g + 1)) g));;;
  kmodify (with_tables (replicate (Z.to_nat (SWAP_ENTRIES / 64)) 0) ∅);;;
  kret 0.

(** [do { ret = ...; if (ret == -EAGAIN) disk_poll(sdisk); } while (ret == -EAGAIN)]. *)
Fixpoint transfer (fuel : nat) (request : K pstate Z) (poll : K pstate Z) : K swap_state Z :=
  match fuel with
  | O => khang
  | S fuel =>
      ret <-- on_kern request;;
      if ret =? - EAGAIN then on_kern poll;;; transfer fuel request poll else kret ret
  end.

Definition swap_page_in (pp slot : Z) : K swap_state Z :=
  let lba := u64 (slot * SWAP_SECTORS_PER_PAGE) in
  buf <-- on_frames (page2kva pp);;
  d <-- the_disk;;
  ret <-- transfer patience (op_read d buf SWAP_SECTORS_PER_PAGE lba) (op_poll d);;
  if ret <? 0 then kret (s32 ret) else kret 0.

(** [*pte &= ~PAGE_PRESENT] where page_lookup found something. *)
Definition clear_present (pml4 va : Z) : K mstate unit :=
  r <-- page_lookup pml4 va;;
  match fst r with
  | None => kret tt
  | Some pte =>
      v <-- read_as_pte st pte;;
      if flag v PAGE_PRESENT then write_as_pte st pte (Z.land v (not64 PAGE_PRESENT)) else kret tt
  end.

Definition swap_page_out (pp : option Z) (slot : Z) : K swap_state Z :=
  s <-- kget;;
  if bool_decide (sdisk s = None) then kret (-1) else
  match pp with
  | None => kret (- EINVAL)
  | Some pp =>
      g <-- on_frames (get_page pp);;
      match owner g with
      | None => kret (- EINVAL)
      | Some task =>
          let va := virt_addr g in
          let lba := u64 (slot * SWAP_SECTORS_PER_PAGE) in
          buf <-- on_frames (page2kva pp);;
          d <-- the_disk;;
          ret <-- transfer patience (op_write d buf SWAP_SECTORS_PER_PAGE lba) (op_poll d);;
          if ret <? 0 then kret (s32 ret) else
          (if (0 <=? slot) && (slot <? SWAP_ENTRIES) then
             kmodify (fun s => with_entries (<[slot := mk_swap_entry lba (Some task) va true]> (swap_entries s)) s)
           else kfault);;;
          x <-- on_kern (get_task task);;
          on_frames (clear_present (t_pml4 x) va);;;
          on_frames (page_free cfg this_cpu pp);;;
          kret 0
      end
  end.
End Daemons.
