(* ===== verification/DaemonsThm.v ===== *)
(** * The page daemons and swapping: theorems

    What one pass of page_check_daemon does to the list of active pages, that its first move
    faults with the lists as the kernel leaves them, and that swap_page_out frees a page
    that stays mapped: both take a [struct page_info] for a page-table entry. *)

From Stdlib Require Import ZArith Lia.
From stdpp Require Import strings base gmap fin_maps list.
From S2P Require Import Prelude ListHeap Strings Printfmt Spinlock RbTree MemState Buddy BuddyInv BuddyThm Walk WalkThm Ptbl PtblThm Init Vma Task Proc ProcThm Daemons.
Import Spinlock.

#[local] Open Scope Z_scope.
#[local] Open Scope kernel_scope.

Lemma kfault_run {S A B} (m : K S A) (f : A -> K S B) s : m s = Fault -> kbind m f s = Fault.
Proof. unfold kbind. by intros ->. Qed.

(** ** Memory operations inside a task's state *)

(** The memory keeps no current task of its own between operations. *)
Definition settled (k : pstate) : Prop := MemState.cur_task (phys k) = None.

Lemma alter_same {A} (f : A -> A) i (m : gmap Z A) : (forall x, m !! i = Some x -> f x = x) -> alter f i m = m.
Proof.
  intros H. apply map_eq. intros j. destruct (decide (j = i)) as [->|]; [|by rewrite lookup_alter_ne].
  rewrite lookup_alter_eq. destruct (m !! i) as [x|] eqn:E; [|done]. cbn. f_equal. by apply H.
Qed.

(** The state with other pointers in the list nodes. *)
Definition relist (h : gmap mloc (list_node mloc)) (k : pstate) : pstate := with_phys (set_lists h (phys k)) k.

Lemma mem_out_step (f : mstate -> mstate) k : settled k -> (forall c m, f (set_cur_task c m) = set_cur_task c (f m)) ->
  mem_out (f (mem_in k)) k = with_phys (f (phys k)) k.
Proof.
  intros H Hf. unfold mem_out, mem_in. rewrite Hf. cbn [set_cur_task MemState.cur_task].
  assert (set_cur_task None (set_cur_task (task_ref_of k) (f (phys k))) = f (phys k)) as ->.
  { change (set_cur_task None (f (phys k)) = f (phys k)). rewrite <- Hf. f_equal. unfold settled in H. destruct (phys k). cbn in *. by subst. }
  unfold task_ref_of. destruct k as [os ? ? c ? ? ? ? ? ? ? ? p ? ? ? ?]. cbn. destruct c as [c|]; cbn; [|done].
  destruct (os !! c) as [x|] eqn:E; cbn; [|done]. rewrite alter_same; [done|].
  intros y Hy. rewrite E in Hy. injection Hy as <-. by destruct x.
Qed.

Lemma mem_out_lists h k : settled k -> mem_out (set_lists h (mem_in k)) k = relist h k.
Proof. intros H. by apply (mem_out_step (set_lists h)). Qed.

Lemma mem_in_out k : settled k -> mem_out (mem_in k) k = k.
Proof.
  intros H. transitivity (relist (lists (phys k)) k); [|by destruct k as [? ? ? ? ? ? ? ? ? ? ? ? [] ? ? ? ?]].
  by rewrite <- mem_out_lists.
Qed.

Lemma on_mem_read {A} stop (m : K mstate A) k a : settled k -> m (mem_in k) = Ret a (mem_in k) -> on_mem stop m k = Ret a k.
Proof. intros H E. unfold on_mem. by rewrite E, mem_in_out. Qed.

Lemma on_mem_list stop f h k : settled k -> f (lists (phys k)) = Some h -> on_mem stop (list_op f) k = Ret tt (relist h k).
Proof. intros H E. unfold on_mem, list_op. cbn [mem_in set_cur_task lists]. by rewrite E, mem_out_lists. Qed.

Lemma on_mem_list_fault stop f k : f (lists (phys k)) = None -> on_mem stop (list_op f) k = Fault.
Proof. intros E. unfold on_mem, list_op. cbn [mem_in set_cur_task lists]. by rewrite E. Qed.

Lemma on_mem_get {A} stop f (a : A) k : settled k -> f (lists (phys k)) = Some a -> on_mem stop (list_get f) k = Ret a k.
Proof. intros H E. apply on_mem_read; [done|]. unfold list_get. cbn [mem_in set_cur_task lists]. by rewrite E. Qed.

Lemma on_mem_page stop i g k : settled k -> pages (phys k) !! i = Some g -> on_mem stop (get_page i) k = Ret g k.
Proof. intros H E. apply on_mem_read; [done|]. unfold get_page. cbn [mem_in set_cur_task pages]. by rewrite E. Qed.

Lemma relist_relist h h' k : relist h' (relist h k) = relist h' k.
Proof. reflexivity. Qed.

Lemma flag_aligned a m : 0 <= m < 64 -> flag (a * 64) m = false.
Proof.
  intros Hm. unfold flag. rewrite (proj2 (Z.eqb_eq _ 0)); [done|]. apply Z.bits_inj'. intros n Hn. rewrite Z.land_spec, Z.bits_0.
  change 64 with (2 ^ 6) in *. destruct (Z.ltb_spec n 6).
  - by rewrite Z.mul_pow2_bits_low by lia.
  - rewrite <- (Z.mod_small m (2 ^ 6)) by lia. rewrite Z.mod_pow2_bits_high by lia. apply andb_false_r.
Qed.

(** A structure that is on no free list, read as an entry, is its own address. *)
Lemma read_as_pte_ok st q (m : mstate) : get_next (lists m) (PpNode q) = Some (PpNode q) ->
  read_as_pte st q m = Ret ((KPAGES / 64 + q) * 64) m.
Proof.
  intros E. unfold read_as_pte, kbind, list_get. rewrite E. cbn [kderef kret addr_of]. unfold sizeof_page_info.
  assert (KPAGES = KPAGES / 64 * 64) as Ek by reflexivity. unfold kret. f_equal. lia.
Qed.

(** ** One pass *)

Section Pass.
Context {M : machine} (st : statics).

(** A page whose owner's page table still maps its address. *)
Definition mapped_page (k : pstate) (i : Z) : Prop :=
  exists g t x e, pages (phys k) !! i = Some g /\ owner g = Some t /\ objs k !! t = Some x /\ t_pml4 x <> 0
    /\ good_page (virt_addr g) /\ in4 (frames (phys k)) (npages (phys k)) (t_pml4 x) (virt_addr g)
    /\ leaf4 (frames (phys k)) (t_pml4 x) (virt_addr g) = Some e
    /\ tbl (read_frames (frames (phys k)) e) < npages (phys k)
    /\ let q := tbl (read_frames (frames (phys k)) e) in get_next (lists (phys k)) (PpNode q) = Some (PpNode q).

(** A page that the pass skips. *)
Definition skipped_page (k : pstate) (i : Z) : Prop :=
  exists g, pages (phys k) !! i = Some g /\
  (owner g = None \/ exists t x, owner g = Some t /\ objs k !! t = Some x /\
     (t_pml4 x = 0 \/ (good_page (virt_addr g) /\ in4 (frames (phys k)) (npages (phys k)) (t_pml4 x) (virt_addr g)
        /\ leaf4 (frames (phys k)) (t_pml4 x) (virt_addr g) = None))).

(** What the pass writes are nodes of the two lists. *)
Definition same_pages (h h' : gmap mloc (list_node mloc)) : Prop := forall q, h' !! PpNode q = h !! PpNode q.

Lemma mapped_relist h k i : same_pages (lists (phys k)) h -> mapped_page k i -> mapped_page (relist h k) i.
Proof.
  intros Hs (g & t & x & e & H). exists g, t, x, e. destruct H as (H1 & H2 & H3 & H4 & H5 & H6 & H7 & H8 & H9).
  split_and!; try done. cbn. unfold get_next in *. by rewrite Hs.
Qed.
Lemma skipped_relist h k i : skipped_page k i -> skipped_page (relist h k) i.
Proof. done. Qed.

Lemma lookup_step stop k x va : settled k -> good_page va -> in4 (frames (phys k)) (npages (phys k)) (t_pml4 x) va ->
  (forall e, leaf4 (frames (phys k)) (t_pml4 x) va = Some e -> tbl (read_frames (frames (phys k)) e) < npages (phys k)) ->
  on_mem stop (page_lookup (t_pml4 x) va) k =
    Ret (match leaf4 (frames (phys k)) (t_pml4 x) va with
         | Some e => (Some (tbl (read_frames (frames (phys k)) e)), Some e) | None => (None, None) end) k.
Proof. intros H Hg Hi Hl. apply on_mem_read; [done|]. by apply (page_lookup_ok _ _ (mem_in k)). Qed.

Lemma check_skipped k i : settled k -> skipped_page k i -> check_page st (ActiveNode i) k = Ret tt k.
Proof.
  intros Hs (g & Hg & Hc). unfold check_page. rewrite kret_run. rewrite (krun _ _ _ _ _ (on_mem_page _ i g k Hs Hg)).
  destruct Hc as [->|(t & x & -> & Hx & Hc)]; [done|]. erewrite krun by (unfold get_task; rewrite Hx; reflexivity).
  destruct (Z.eqb_spec (t_pml4 x) 0); [done|]. destruct Hc as [|(Hgp & Hin & Hl)]; [done|].
  rewrite (krun _ _ _ _ _ (lookup_step _ k x _ Hs Hgp Hin ltac:(by rewrite Hl))). by rewrite Hl.
Qed.

(** A mapped page: only the moves between the lists are left. *)
Lemma check_mapped k i : settled k -> mapped_page k i ->
  check_page st (ActiveNode i) k =
    (on_mem (fun s => NoReturn s) (list_op (fun h => list_del h (ActiveNode i)));;;
     on_mem (fun s => NoReturn s) (list_op (fun h => list_add_tail h InactivePages (ActiveNode i)))) k.
Proof.
  intros Hs (g & t & x & e & Hg & Ho & Hx & Hp & Hgp & Hin & Hl & Hn & Hself). unfold check_page. rewrite kret_run.
  rewrite (krun _ _ _ _ _ (on_mem_page _ i g k Hs Hg)). rewrite Ho. erewrite krun by (unfold get_task; rewrite Hx; reflexivity).
  destruct (Z.eqb_spec (t_pml4 x) 0); [done|].
  rewrite (krun _ _ _ _ _ (lookup_step _ k x _ Hs Hgp Hin ltac:(rewrite Hl; by intros ? [= <-]))). rewrite Hl. cbn [fst].
  assert (on_mem (fun s => NoReturn s) (read_as_pte st (tbl (read_frames (frames (phys k)) e))) k
    = Ret ((KPAGES / 64 + tbl (read_frames (frames (phys k)) e)) * 64) k) as E.
  { apply on_mem_read; [done|]. by apply read_as_pte_ok. }
  rewrite (krun _ _ _ _ _ E). by rewrite flag_aligned by (vm_compute; split; [discriminate|reflexivity]).
Qed.
(** Moving a node from one list to the end of another. *)
Lemma move_node h kept i rest ys :
  dlist h ActivePages (ActiveNode <$> kept ++ i :: rest) -> dlist h InactivePages (ActiveNode <$> ys) ->
  (forall j, j ∈ ys -> j ∉ kept ++ i :: rest) ->
  exists h1 h2, list_del h (ActiveNode i) = Some h1 /\ list_add_tail h1 InactivePages (ActiveNode i) = Some h2
    /\ dlist h2 ActivePages (ActiveNode <$> kept ++ rest) /\ dlist h2 InactivePages (ActiveNode <$> ys ++ [i]) /\ same_pages h h2.
Proof.
  intros D1 D2 Hd. rewrite fmap_app, fmap_cons in D1. destruct (list_del_spec _ _ _ _ _ D1) as (h1 & E1 & D1' & Di & T1).
  assert (dlist h1 InactivePages (ActiveNode <$> ys)) as D2'.
  { eapply dlist_touches; [exact D2|exact T1|]. intros c Hc Hin. rewrite <- fmap_cons, <- fmap_app in Hc.
    apply elem_of_cons in Hin as [->|(j & -> & Hj)%list_elem_of_fmap].
    - apply elem_of_cons in Hc as [?|(? & ? & _)%list_elem_of_fmap]; done.
    - apply elem_of_cons in Hc as [?|(j' & [= <-] & Hj')%list_elem_of_fmap]; [done|]. by apply (Hd j). }
  destruct (list_add_tail_spec h1 InactivePages (ActiveNode <$> ys) (ActiveNode i) D2') as (h2 & E2 & D2'' & T2).
  { eapply dlist_node; [exact Di|left]. }
  { intros [?|(j & [= <-] & Hj)%list_elem_of_fmap]%elem_of_cons; [done|]. apply (Hd i Hj). apply elem_of_app. right. left. }
  exists h1, h2. split_and!; try done.
  - rewrite fmap_app. eapply dlist_touches; [exact D1'|exact T2|]. rewrite <- fmap_app. intros c Hc Hin.
    apply dlist_nodup in D1 as [Hnd _]. rewrite <- fmap_cons, <- fmap_app in Hnd.
    apply NoDup_fmap_1, NoDup_app in Hnd as (Hk & Hkr & [Hi _]%NoDup_cons).
    apply elem_of_cons in Hc as [->|[->|(j & -> & Hj)%list_elem_of_fmap]%elem_of_cons];
      (apply elem_of_cons in Hin as [?|(j' & E & Hj')%list_elem_of_fmap]; [done|]); try done; injection E as <-.
    + apply elem_of_app in Hj' as [Hj'|Hj']; [apply (Hkr i Hj'); left|done].
    + apply (Hd j Hj). apply elem_of_app in Hj' as [?|?]; apply elem_of_app; [by left|right; by right].
  - by rewrite fmap_app.
  - intros q. destruct T1 as [T1 _], T2 as [T2 _]. rewrite T2, T1; [done| |].
    + rewrite <- fmap_cons, <- fmap_app. intros [?|(? & ? & _)%list_elem_of_fmap]%elem_of_cons; done.
    + intros [?|[?|(? & ? & _)%list_elem_of_fmap]%elem_of_cons]%elem_of_cons; done.
Qed.

(** The pointers the loop follows. *)
Definition first (xs : list Z) : mloc := default ActivePages (head (ActiveNode <$> xs)).

Lemma next_of_first h kept rest :
  dlist h ActivePages (ActiveNode <$> kept ++ rest) ->
  exists n, get_next h (first rest) = Some n /\ forall i rest', rest = i :: rest' -> n = first rest'.
Proof.
  intros D. destruct rest as [|i rest].
  - destruct (dlist_node _ _ _ ActivePages D ltac:(left)) as [nd E]. exists (next nd). unfold first, get_next. cbn. by rewrite E.
  - exists (first rest). split; [|by intros i' r' [= <- <-]]. rewrite fmap_app, fmap_cons in D.
    replace ((ActiveNode <$> kept) ++ ActiveNode i :: (ActiveNode <$> rest)) with (((ActiveNode <$> kept) ++ [ActiveNode i]) ++ (ActiveNode <$> rest)) in D
      by by rewrite <- app_assoc.
    destruct (dlist_position _ _ _ _ D) as (N & _). rewrite last_snoc in N. exact N.
Qed.

(** The loop from a node on: the mapped pages of the rest move to the other list, in order. *)
Lemma check_pages_loop_ok (moves : Z -> bool) : forall rest kept ys fuel k n,
  settled k -> dlist (lists (phys k)) ActivePages (ActiveNode <$> kept ++ rest) ->
  dlist (lists (phys k)) InactivePages (ActiveNode <$> ys) -> (forall j, j ∈ ys -> j ∉ kept ++ rest) ->
  (forall i, i ∈ rest -> if moves i then mapped_page k i else skipped_page k i) ->
  get_next (lists (phys k)) (first rest) = Some n -> (length rest < fuel)%nat ->
  exists h, check_loop st fuel (first rest) n k = Ret tt (relist h k)
    /\ dlist h ActivePages (ActiveNode <$> kept ++ filter (fun i => moves i = false) rest)
    /\ dlist h InactivePages (ActiveNode <$> ys ++ filter (fun i => moves i = true) rest) /\ same_pages (lists (phys k)) h.
Proof.
  induction rest as [|i rest IH]; intros kept ys fuel k n Hs D1 D2 Hd Hc Hn Hf; (destruct fuel as [|fuel]; [cbn in Hf; lia|]); cbn [check_loop].
  { exists (lists (phys k)). rewrite !filter_nil, !app_nil_r in *. split; [|done]. rewrite bool_decide_true by done. f_equal.
    by destruct k as [? ? ? ? ? ? ? ? ? ? ? ? [] ? ? ? ?]. }
  rewrite bool_decide_false by done.
  destruct (next_of_first _ _ _ D1) as (n' & Hn' & Hfst). rewrite Hn' in Hn. injection Hn as <-. rewrite (Hfst _ _ eq_refl) in *.
  pose proof (Hc i ltac:(left)) as Hi. rewrite !filter_cons. destruct (moves i) eqn:Em; cbn [first head fmap list_fmap default].
  - destruct (move_node _ _ _ _ _ D1 D2 Hd) as (h1 & h2 & E1 & E2 & D1' & D2' & Hsp). set (k2 := relist h2 k).
    assert (check_page st (ActiveNode i) k = Ret tt k2) as Ep.
    { rewrite check_mapped by done. rewrite (krun _ _ _ _ _ (on_mem_list _ (fun h => list_del h (ActiveNode i)) h1 k Hs E1)).
      by rewrite (on_mem_list _ _ h2 (relist h1 k)). }
    rewrite (krun _ _ _ _ _ Ep). destruct (next_of_first h2 kept rest D1') as (n2 & Hn2 & _).
    rewrite (krun _ _ _ _ _ (on_mem_get _ _ _ k2 Hs Hn2)).
    destruct (IH kept (ys ++ [i]) fuel k2 n2) as (h & E & A1 & A2 & A3); try done.
    + intros j [Hj|Hj%list_elem_of_singleton]%elem_of_app Hin; [apply (Hd j Hj); apply elem_of_app in Hin as [?|?]; apply elem_of_app; [by left|right; by right]|].
      subst j. apply dlist_nodup in D1 as [Hnd%NoDup_fmap_1 _]. apply NoDup_app in Hnd as (_ & Hkr & [Hir _]%NoDup_cons).
      apply elem_of_app in Hin as [Hin|?]; [apply (Hkr i Hin); left|done].
    + intros j Hj. specialize (Hc j ltac:(by right)). destruct (moves j); [by apply mapped_relist|by apply skipped_relist].
    + cbn in Hf. lia.
    + exists h. rewrite decide_False, decide_True by done. rewrite <- app_assoc in A2. split_and!; try done. intros q. by rewrite A3, Hsp.
  - rewrite (krun _ _ _ _ _ (check_skipped _ _ Hs Hi)).
    assert (dlist (lists (phys k)) ActivePages (ActiveNode <$> (kept ++ [i]) ++ rest)) as D1' by by rewrite <- app_assoc.
    destruct (next_of_first _ _ _ D1') as (n2 & Hn2 & _). rewrite (krun _ _ _ _ _ (on_mem_get _ _ _ k Hs Hn2)).
    destruct (IH (kept ++ [i]) ys fuel k n2) as (h & E & A1 & A2 & A3); try done.
    + intros j Hj. rewrite <- app_assoc. by apply Hd.
    + intros j Hj. apply Hc. by right.
    + cbn in Hf. lia.
    + exists h. rewrite decide_True, decide_False by done. rewrite <- app_assoc in A1. done.
Qed.
(** With the head of the list of inactive pages never initialised, the loop faults at the first mapped page. *)
Lemma add_tail_null h i : is_Some (h !! ActiveNode i) -> h !! InactivePages = Some (mk_node (Wild 0) (Wild 0)) -> h !! Wild 0 = None ->
  list_add_tail h InactivePages (ActiveNode i) = None.
Proof.
  intros [nd Hn] Hi Hw. unfold list_add_tail, list_insert_before, set_next, set_prev, get_prev.
  by repeat first [rewrite lookup_insert_eq|rewrite Hn|rewrite Hi|rewrite Hw|rewrite lookup_insert_ne by done|progress cbn].
Qed.

Lemma check_loop_fault (moves : Z -> bool) : forall rest kept fuel k n,
  settled k -> dlist (lists (phys k)) ActivePages (ActiveNode <$> kept ++ rest) ->
  lists (phys k) !! InactivePages = Some (mk_node (Wild 0) (Wild 0)) -> lists (phys k) !! Wild 0 = None ->
  (forall i, i ∈ rest -> if moves i then mapped_page k i else skipped_page k i) -> (exists i, i ∈ rest /\ moves i = true) ->
  get_next (lists (phys k)) (first rest) = Some n -> (length rest < fuel)%nat -> check_loop st fuel (first rest) n k = Fault.
Proof.
  induction rest as [|i rest IH]; intros kept fuel k n Hs D1 Hi Hw Hc Hex Hn Hf; [by destruct Hex as (? & ?%elem_of_nil & _)|].
  destruct fuel as [|fuel]; [cbn in Hf; lia|]. cbn [check_loop]. rewrite bool_decide_false by done.
  destruct (next_of_first _ _ _ D1) as (n' & Hn' & Hfst). rewrite Hn' in Hn. injection Hn as <-. rewrite (Hfst _ _ eq_refl) in *.
  pose proof (Hc i ltac:(left)) as Hci. destruct (moves i) eqn:Em; cbn [first head fmap list_fmap default].
  - assert (check_page st (ActiveNode i) k = Fault) as Ep; [|exact (kfault_run _ _ _ Ep)].
    rewrite check_mapped by done. rewrite fmap_app, fmap_cons in D1.
    destruct (list_del_spec _ _ _ _ _ D1) as (h1 & E1 & _ & Di & T1 & Td).
    rewrite (krun _ _ _ _ _ (on_mem_list _ (fun h => list_del h (ActiveNode i)) h1 k Hs E1)).
    apply on_mem_list_fault. cbn. apply add_tail_null.
    + eapply dlist_node; [exact Di|left].
    + rewrite T1; [done|]. rewrite <- fmap_cons, <- fmap_app. intros [?|(? & ? & _)%list_elem_of_fmap]%elem_of_cons; done.
    + apply not_elem_of_dom. rewrite Td. by apply not_elem_of_dom.
  - rewrite (krun _ _ _ _ _ (check_skipped _ _ Hs Hci)).
    assert (dlist (lists (phys k)) ActivePages (ActiveNode <$> (kept ++ [i]) ++ rest)) as D1' by by rewrite <- app_assoc.
    destruct (next_of_first _ _ _ D1') as (n2 & Hn2 & _). rewrite (krun _ _ _ _ _ (on_mem_get _ _ _ k Hs Hn2)).
    apply (IH (kept ++ [i])); try done.
    + intros j Hj. apply Hc. by right.
    + destruct Hex as (j & [->|Hj]%elem_of_cons & Hm); [congruence|by exists j].
    + cbn in Hf. lia.
Qed.

(** The state with the lock of the list of active pages taken. *)
Definition locked_active (k : pstate) : pstate :=
  with_phys (set_active_pages_lock (taken this_cpu "kernel/sched/task.c" 366 (active_pages_lock (phys k))) (spinlock_rank (phys k)) (phys k)) k.

Lemma lock_step stop k : settled k -> lock_idle (active_pages_lock (phys k)) ->
  on_mem stop (lock_active this_cpu "kernel/sched/task.c" 366) k = Ret tt (locked_active k).
Proof.
  intros Hs Hl. unfold on_mem, lock_active. cbn [mem_in set_cur_task active_pages_lock spinlock_rank]. rewrite spin_lock_idle by done. f_equal.
  by apply (mem_out_step (set_active_pages_lock (taken this_cpu "kernel/sched/task.c" 366 (active_pages_lock (phys k))) (spinlock_rank (phys k)))).
Qed.

(** What a pass starts with. *)
Lemma pass_start k xs : settled k -> lock_idle (active_pages_lock (phys k)) -> dlist (lists (phys k)) ActivePages (ActiveNode <$> xs) ->
  exists n, get_next (lists (phys k)) (first xs) = Some n
    /\ check_pages st k = ((fun s => check_loop st (S (size (lists (phys s)))) (first xs) n s);;; on_mem (fun s => NoReturn s) (unlock_active this_cpu)) (locked_active k)
    /\ (length xs < S (size (lists (phys (locked_active k)))))%nat.
Proof.
  intros Hs Hl D. destruct (next_of_first (lists (phys k)) [] xs D) as (n & Hn & _). exists n. split; [done|]. split.
  - unfold check_pages. rewrite (krun _ _ _ _ _ (lock_step _ k Hs Hl)).
    assert (get_next (lists (phys k)) ActivePages = Some (first xs)) as H0.
    { pose proof (linked_next _ ActivePages [] (ActiveNode <$> xs) ActivePages (proj2 D)) as H0. exact H0. }
    rewrite (krun _ _ _ _ _ (on_mem_get _ _ _ (locked_active k) Hs H0)).
    by rewrite (krun _ _ _ _ _ (on_mem_get _ _ _ (locked_active k) Hs Hn)).
  - apply dlist_size in D. rewrite length_fmap in D. cbn. lia.
Qed.

(** Fact (functional): one pass of the page check daemon.  Every page of the active list whose owner still maps
    its address goes, in order, to the end of the inactive list, whether or not the processor has set the accessed
    bit of its entry: the word tested is the address of the page's own structure.  The other pages stay;
    no entry changes, so no accessed bit is cleared. *)
Theorem check_pages_correct (moves : Z -> bool) (k : pstate) (xs ys : list Z) :
  settled k -> lock_idle (active_pages_lock (phys k)) ->
  dlist (lists (phys k)) ActivePages (ActiveNode <$> xs) -> dlist (lists (phys k)) InactivePages (ActiveNode <$> ys) ->
  (forall j, j ∈ ys -> j ∉ xs) -> (forall i, i ∈ xs -> if moves i then mapped_page k i else skipped_page k i) ->
  exists k', check_pages st k = Ret tt k'
    /\ dlist (lists (phys k')) ActivePages (ActiveNode <$> filter (fun i => moves i = false) xs)
    /\ dlist (lists (phys k')) InactivePages (ActiveNode <$> ys ++ filter (fun i => moves i = true) xs)
    /\ frames (phys k') = frames (phys k) /\ pages (phys k') = pages (phys k) /\ objs k' = objs k
    /\ lock_idle (active_pages_lock (phys k')).
Proof.
  intros Hs Hl D1 D2 Hd Hc. destruct (pass_start k xs Hs Hl D1) as (n & Hn & -> & Hsz).
  destruct (check_pages_loop_ok moves xs [] ys (S (size (lists (phys (locked_active k))))) (locked_active k) n) as (h & E & A1 & A2 & _); try done.
  rewrite (krun (fun s => check_loop st (S (size (lists (phys s)))) (first xs) n s) _ _ _ _ E). eexists. split.
  - unfold on_mem, unlock_active. cbn [mem_in set_cur_task active_pages_lock spinlock_rank relist locked_active with_phys phys set_lists set_active_pages_lock].
    rewrite spin_unlock_taken. reflexivity.
  - unfold mem_out. cbn [MemState.cur_task]. destruct (MemState.cur_task _) as [r|] eqn:Er; split_and!; try done. cbn. cbn in Er.
    apply alter_same. intros x Hx. unfold task_ref_of in Er. destruct (cur_task _) as [c|] eqn:Ec; [|done]. cbn in Er.
    destruct (objs _ !! c) as [y|] eqn:Ey; [|done]. injection Er as <-. cbn in *. rewrite Ey in Hx. injection Hx as <-. by destruct y.
Qed.

(** Fact (error): the daemon on the lists as the kernel leaves them.  Nothing initialises the head of the
    list of inactive pages, whose pointers are NULL: a pass over an active list with a mapped page on it
    writes through NULL. *)
Theorem check_pages_faults (moves : Z -> bool) (k : pstate) (xs : list Z) :
  settled k -> lock_idle (active_pages_lock (phys k)) -> dlist (lists (phys k)) ActivePages (ActiveNode <$> xs) ->
  lists (phys k) !! InactivePages = Some (mk_node (Wild 0) (Wild 0)) -> lists (phys k) !! Wild 0 = None ->
  (forall i, i ∈ xs -> if moves i then mapped_page k i else skipped_page k i) -> (exists i, i ∈ xs /\ moves i = true) ->
  check_pages st k = Fault.
Proof.
  intros Hs Hl D1 Hi Hw Hc Hex. destruct (pass_start k xs Hs Hl D1) as (n & Hn & -> & Hsz).
  by apply kfault_run, (check_loop_fault moves xs [] _ (locked_active k) n).
Qed.
End Pass.

(** ** Swapping out *)

(** Freeing a page writes no frame. *)
Section Frames.
Context (cfg : config) (cpu : Z).

#[local] Ltac base_op := let E := fresh "E" in intros ? ? ? E; revert E; unfold get_page, mod_page, list_op, list_get, kderef, lock_buddy, unlock_buddy,
  lock_active, unlock_active, kret, kfault; repeat case_match; intros; by simplify_eq.

Lemma frames_get_page i : keeps frames (get_page i). Proof. base_op. Qed.
Lemma frames_mod_page i f : keeps frames (mod_page i f). Proof. base_op. Qed.
Lemma frames_list_op f : keeps frames (list_op f). Proof. base_op. Qed.
Lemma frames_list_get {A} (f : gmap mloc (list_node mloc) -> option A) : keeps frames (list_get f). Proof. base_op. Qed.
Lemma frames_lock_buddy f l : keeps frames (lock_buddy cpu f l). Proof. base_op. Qed.
Lemma frames_unlock_buddy : keeps frames (unlock_buddy cpu). Proof. base_op. Qed.
Lemma frames_lock_active f l : keeps frames (lock_active cpu f l). Proof. base_op. Qed.
Lemma frames_unlock_active : keeps frames (unlock_active cpu). Proof. base_op. Qed.

#[local] Hint Resolve frames_get_page frames_mod_page frames_list_op frames_list_get frames_lock_buddy frames_unlock_buddy
  frames_lock_active frames_unlock_active : keeps.

Lemma frames_merge_loop fuel p : keeps frames (buddy_merge_loop fuel p).
Proof. revert p. induction fuel; intros p; cbn [buddy_merge_loop]; cbv zeta; repeat keeps_step. Qed.

Lemma frames_page_free p : keeps frames (page_free cfg cpu p).
Proof. unfold page_free, buddy_merge. repeat (keeps_step || apply frames_merge_loop). Qed.
End Frames.

Section SwapOut.
Context {M : machine} (st : statics) (disks : list disk_ops).

Lemma on_kern_read {A} (m : K pstate A) s a : m (kern s) = Ret a (kern s) -> on_kern m s = Ret a s.
Proof. unfold on_kern. intros ->. by destruct s. Qed.

Lemma on_frames_read {A} (m : K mstate A) s a : settled (kern s) -> m (mem_in (kern s)) = Ret a (mem_in (kern s)) -> on_frames m s = Ret a s.
Proof. intros H E. by apply on_kern_read, on_mem_read. Qed.

Lemma leaf_present fr t a e : leaf4 fr t a = Some e -> flag (read_frames fr e) PAGE_PRESENT = true.
Proof. unfold leaf4, leaf3, leaf2, leaf1. repeat case_match; congruence. Qed.

(** What is taken for the entry of the page is never one that is present. *)
Lemma clear_present_idle k pml4 va e : settled k -> good_page va -> in4 (frames (phys k)) (npages (phys k)) pml4 va ->
  leaf4 (frames (phys k)) pml4 va = Some e -> tbl (read_frames (frames (phys k)) e) < npages (phys k) ->
  get_next (lists (phys k)) (PpNode (tbl (read_frames (frames (phys k)) e))) = Some (PpNode (tbl (read_frames (frames (phys k)) e))) ->
  clear_present st pml4 va (mem_in k) = Ret tt (mem_in k).
Proof.
  intros Hs Hg Hi Hl Hn Hself. unfold clear_present.
  assert (page_lookup pml4 va (mem_in k) = Ret (Some (tbl (read_frames (frames (phys k)) e)), Some e) (mem_in k)) as E.
  { rewrite page_lookup_ok by (try done; cbn; rewrite Hl; by intros ? [= <-]). cbn. by rewrite Hl. }
  rewrite (krun _ _ _ _ _ E). cbn [fst]. rewrite (krun _ _ _ _ _ (read_as_pte_ok st _ (mem_in k) Hself)).
  by rewrite flag_aligned by (vm_compute; split; [discriminate|reflexivity]).
Qed.

(** C40 (safety): what swap_page_out leaves behind.  When the disk takes the page's sectors and the page can be
    freed, the call returns 0 and has recorded the slot, and the page is freed; but the entry that maps the page
    for its owner is present as before, since the word whose present bit was cleared is not that entry. *)
Theorem swap_page_out_keeps_mapping (patience : nat) (s : swap_state) (pp slot d : Z) (o : disk_ops) (g : page_info) (t : Z) (x : task)
    (e : entry) (ret : Z) (m' : mstate) :
  let k := kern s in
  settled k -> sdisk s = Some (Z.to_nat d) -> disks !! Z.to_nat d = Some o -> 0 <= slot < SWAP_ENTRIES ->
  0 <= pp < npages (phys k) -> npages (phys k) <= 2 ^ 52 ->
  pages (phys k) !! pp = Some g -> owner g = Some t -> objs k !! t = Some x ->
  op_write o (u64 (page2pa pp + KERNEL_VMA)) SWAP_SECTORS_PER_PAGE (slot * SWAP_SECTORS_PER_PAGE) k = Ret ret k -> 0 <= ret ->
  good_page (virt_addr g) -> in4 (frames (phys k)) (npages (phys k)) (t_pml4 x) (virt_addr g) ->
  leaf4 (frames (phys k)) (t_pml4 x) (virt_addr g) = Some e -> tbl (read_frames (frames (phys k)) e) = pp ->
  get_next (lists (phys k)) (PpNode pp) = Some (PpNode pp) ->
  page_free cfg this_cpu pp (mem_in k) = Ret tt m' ->
  exists s', swap_page_out st disks (S patience) (Some pp) slot s = Ret 0 s'
    /\ swap_entries s' !! slot = Some (mk_swap_entry (slot * SWAP_SECTORS_PER_PAGE) (Some t) (virt_addr g) true)
    /\ pages (phys (kern s')) = pages m' /\ lists (phys (kern s')) = lists m'
    /\ leaf4 (frames (phys (kern s'))) (t_pml4 x) (virt_addr g) = Some e
    /\ flag (read_frames (frames (phys (kern s'))) e) PAGE_PRESENT = true /\ tbl (read_frames (frames (phys (kern s'))) e) = pp.
Proof.
  intros k Hs Hd Ho Hslot Hpp Hnp Hg Hown Hx Hw Hret Hgp Hin Hl Htbl Hself Hfree. unfold swap_page_out.
  rewrite (krun kget _ s s s eq_refl). rewrite bool_decide_false by (by rewrite Hd).
  assert (get_page pp (mem_in k) = Ret g (mem_in k)) as Eg by (unfold get_page; cbn [mem_in set_cur_task pages]; by rewrite Hg).
  assert (get_task t k = Ret x k) as Ex by (unfold get_task; by rewrite Hx).
  rewrite (krun _ _ _ _ _ (on_frames_read (get_page pp) s g Hs Eg)). rewrite Hown.
  rewrite (krun _ _ _ _ _ (on_frames_read (page2kva pp) s _ Hs (page2kva_ok pp (mem_in k) Hpp Hnp))).
  erewrite krun by (unfold the_disk; rewrite Hd; cbn; rewrite Ho; reflexivity).
  assert (u64 (slot * SWAP_SECTORS_PER_PAGE) = slot * SWAP_SECTORS_PER_PAGE) as Hlba.
  { apply u64_id. change SWAP_SECTORS_PER_PAGE with 8. change SWAP_ENTRIES with 32768 in Hslot. lia. }
  assert ((ret =? - EAGAIN) = false) as Heq by (apply Z.eqb_neq; intros ->; by apply Hret).
  rewrite Hlba. erewrite krun. 2:{ cbn [transfer]. rewrite (krun _ _ _ _ _ (on_kern_read _ s _ Hw)), Heq. reflexivity. }
  destruct (Z.ltb_spec ret 0); [lia|].
  rewrite (proj2 (Z.leb_le 0 slot)), (proj2 (Z.ltb_lt slot SWAP_ENTRIES)) by lia. cbn [andb].
  erewrite (krun (kmodify _)) by reflexivity.
  set (s1 := with_entries (<[slot := mk_swap_entry (slot * SWAP_SECTORS_PER_PAGE) (Some t) (virt_addr g) true]> (swap_entries s)) s).
  rewrite (krun _ _ _ _ _ (on_kern_read (get_task t) s1 x Ex)).
  subst pp. rewrite (krun _ _ _ _ _ (on_frames_read _ s1 tt Hs (clear_present_idle k (t_pml4 x) (virt_addr g) e Hs Hgp Hin Hl (proj2 Hpp) Hself))).
  pose proof (frames_page_free _ _ _ _ _ _ Hfree) as Hfr. cbn in Hfr.
  assert (flag (read_frames (frames (phys k)) e) PAGE_PRESENT = true) as Hpres by (by eapply leaf_present).
  exists (with_kern (mem_out m' k) s1). split.
  { unfold on_frames, on_kern, on_mem, kbind, kret. cbn [s1 with_entries kern]. fold k. rewrite Hfree. reflexivity. }
  assert (phys (mem_out m' k) = set_cur_task None m') as Hph by (unfold mem_out; by destruct (MemState.cur_task m')).
  cbn [with_kern kern]. rewrite Hph. cbn [set_cur_task pages lists frames]. rewrite Hfr. split_and!; try done. by apply lookup_insert_eq.
Qed.
End SwapOut.

(** ** Witnesses: task 100 maps pages 10 and 11 at 0 and 4096; page 12 has no owner *)

Definition demo_statics : statics := mk_statics 0xFFFF800000200000 0xFFFF800000200100 0xFFFF800000200110 0xFFFF800000200120.
Definition demo_list (inactive : list_node mloc) : gmap mloc (list_node mloc) :=
  let h := <[InactivePages := inactive]> (lists ProcThm.demo_phys) in
  default h (list_add_tail h ActivePages (ActiveNode 10) ≫= fun h => list_add_tail h ActivePages (ActiveNode 12)
             ≫= fun h => list_add_tail h ActivePages (ActiveNode 11)).
Definition demo_tracked (inactive : list_node mloc) : mstate :=
  let p := ProcThm.demo_phys in
  mk_mstate (<[10 := mk_page 1 0 0 1 0 0 (Some 100)]> (<[11 := mk_page 1 0 0 1 0 4096 (Some 100)]> (pages p))) (npages p) (demo_list inactive)
    WalkThm.demo_frames (buddy_lock p) (active_pages_lock p) 0 None 1 [].
Definition demo_state (inactive : list_node mloc) : pstate := with_phys (demo_tracked inactive) demo_sched.

Lemma demo_in4 a : 0 <= a < 8192 -> in4 WalkThm.demo_frames 16 1 a.
Proof.
  intros Ha. unfold in4, in3, in2.
  rewrite (pml4_index_block a 0) by (change (bend 39 0) with (2 ^ 39 - 1); lia).
  rewrite (pdpt_index_block a 0) by (change (bend 30 0) with (2 ^ 30 - 1); lia).
  rewrite (dir_index_block a 0) by (change (bend 21 0) with (2 ^ 21 - 1); lia).
  intros _. split; [reflexivity|]. intros _. split; [reflexivity|]. intros _ _. reflexivity.
Qed.

Lemma demo_good va : 0 <= va < 8192 -> va mod 4096 = 0 -> good_page va.
Proof. intros H1 H2. split; [done|]. left. unfold USER_LIM. lia. Qed.

Definition demo_moves (i : Z) : bool := negb (i =? 12).

Lemma demo_classified inactive : get_next (demo_list inactive) (PpNode 10) = Some (PpNode 10) -> get_next (demo_list inactive) (PpNode 11) = Some (PpNode 11) ->
  forall i, i ∈ [10; 12; 11] -> if demo_moves i then mapped_page (demo_state inactive) i else skipped_page (demo_state inactive) i.
Proof.
  intros N1 N2 i Hi. apply elem_of_cons in Hi as [->|Hi]; [|apply elem_of_cons in Hi as [->|Hi%list_elem_of_singleton]; [|subst i]]; cbn [demo_moves negb Z.eqb].
  - exists (mk_page 1 0 0 1 0 0 (Some 100)), 100, (demo_task 1 0 TASK_RUNNING), (4, 0).
    split; [reflexivity|]. split; [reflexivity|]. split; [reflexivity|]. split; [discriminate|]. split; [apply (demo_good 0); [lia|reflexivity]|].
    split; [apply (demo_in4 0); lia|]. split; [vm_compute; reflexivity|]. split; [vm_compute; reflexivity|exact N1].
  - exists (mk_page 0 0 0 1 0 0 None). split; [reflexivity|by left].
  - exists (mk_page 1 0 0 1 0 4096 (Some 100)), 100, (demo_task 1 0 TASK_RUNNING), (4, 1).
    split; [reflexivity|]. split; [reflexivity|]. split; [reflexivity|]. split; [discriminate|]. split; [apply (demo_good 4096); [lia|reflexivity]|].
    split; [apply (demo_in4 4096); lia|]. split; [vm_compute; reflexivity|]. split; [vm_compute; reflexivity|exact N2].
Qed.

Lemma check_pages_correct_witness : exists k',
  @check_pages demo_machine demo_statics (demo_state (mk_node InactivePages InactivePages)) = Ret tt k'
    /\ dlist (lists (phys k')) ActivePages [ActiveNode 12] /\ dlist (lists (phys k')) InactivePages [ActiveNode 10; ActiveNode 11].
Proof.
  destruct (@check_pages_correct demo_machine demo_statics demo_moves (demo_state (mk_node InactivePages InactivePages)) [10; 12; 11] [])
    as (k' & E & A & I & _).
  - reflexivity.
  - by split.
  - split; [by_eval|]. vm_compute. repeat split.
  - split; [by_eval|]. vm_compute. repeat split.
  - intros j Hj. by apply elem_of_nil in Hj.
  - apply demo_classified; vm_compute; reflexivity.
  - exists k'. split; [exact E|]. split; [exact A|exact I].
Defined.

Lemma check_pages_faults_witness : @check_pages demo_machine demo_statics (demo_state (mk_node (Wild 0) (Wild 0))) = Fault.
Proof.
  apply (@check_pages_faults demo_machine demo_statics demo_moves (demo_state (mk_node (Wild 0) (Wild 0))) [10; 12; 11]).
  - reflexivity.
  - by split.
  - split; [by_eval|]. vm_compute. repeat split.
  - vm_compute. reflexivity.
  - vm_compute. reflexivity.
  - apply demo_classified; vm_compute; reflexivity.
  - exists 10. split; [left|reflexivity].
Defined.

(** A disk that takes everything at once. *)
Definition demo_disk : disk_ops := mk_disk_ops (kret 0) (fun _ _ _ => kret 1) (fun _ _ _ => kret 1).
Definition demo_swap : swap_state :=
  mk_swap (demo_state (mk_node InactivePages InactivePages)) (static_lock "zeroq_lock") (Some 1%nat) [] ∅ ∅.
Definition demo_freed : mstate :=
  match page_free default_config 0 10 (mem_in (kern demo_swap)) with Ret _ m => m | _ => demo_tracked (mk_node InactivePages InactivePages) end.

Lemma demo_freed_run : page_free default_config 0 10 (mem_in (kern demo_swap)) = Ret tt demo_freed /\ pp_free <$> pages demo_freed !! 10 = Some 1.
Proof.
  split; [|vm_compute; reflexivity].
  assert (match page_free default_config 0 10 (mem_in (kern demo_swap)) with Ret tt _ => true | _ => false end = true) as H by (vm_compute; reflexivity).
  unfold demo_freed. destruct (page_free default_config 0 10 (mem_in (kern demo_swap))) as [[] m| | | |]; [reflexivity|discriminate H..].
Qed.

Lemma swap_page_out_keeps_mapping_witness : exists s',
  @swap_page_out demo_machine demo_statics [demo_disk; demo_disk] 1 (Some 10) 3 demo_swap = Ret 0 s'
    /\ leaf4 (frames (phys (kern s'))) 1 0 = Some (4, 0) /\ pp_free <$> pages (phys (kern s')) !! 10 = Some 1.
Proof.
  destruct (@swap_page_out_keeps_mapping demo_machine demo_statics [demo_disk; demo_disk] 0 demo_swap 10 3 1 demo_disk
    (mk_page 1 0 0 1 0 0 (Some 100)) 100 (demo_task 1 0 TASK_RUNNING) (4, 0) 1 demo_freed) as (s' & E & _ & P & _ & L & _).
  - reflexivity.
  - reflexivity.
  - reflexivity.
  - split; [discriminate|reflexivity].
  - split; [discriminate|reflexivity].
  - discriminate.
  - reflexivity.
  - reflexivity.
  - reflexivity.
  - reflexivity.
  - discriminate.
  - by apply demo_good.
  - by apply demo_in4.
  - vm_compute. reflexivity.
  - vm_compute. reflexivity.
  - vm_compute. reflexivity.
  - exact (proj1 demo_freed_run).
  - exists s'. split; [exact E|]. split; [exact L|]. rewrite P. exact (proj2 demo_freed_run).
Defined.
