(* ===== verification/Report.v ===== *)
(** * What the kernel reports (kernel/monitor.c, kernel/sched/idt.c, kernel/vma/show.c,
      kernel/mem/buddy.c, kernel/mem/boot.c)

    The commands of the monitor and the routines that print the state of a component, with
    the very characters that cprintf sends to the console: the formats go through the
    formatter of Printfmt.v.  [world] is the state that is reported on. *)

From Stdlib Require Import ZArith Lia.
From stdpp Require Import strings base gmap fin_maps list.
From S2P Require Import Prelude ListHeap Strings Printfmt MemState Buddy BuddyInv BuddyThm Walk Ptbl Dump Vma Task Trap Monitor.

#[local] Open Scope Z_scope.
#[local] Open Scope kernel_scope.

(** ** Printing *)

Record shown (W : Type) := mk_shown { world : W; text : list Z }.
Arguments mk_shown {W} _ _.
Arguments world {W} _.
Arguments text {W} _.

(** An argument of cprintf: a number, or a pointer to a string. *)
Inductive arg := Num (x : Z) | Str (bs : list Z).

(** The arguments as va_arg reads them, strings at multiples of 4096. *)
Fixpoint place (i : Z) (l : list arg) (m : gmap Z Z) : gmap Z Z * list Z :=
  match l with
  | [] => (m, [])
  | Num x :: l => let r := place (i + 1) l m in (fst r, u64 x :: snd r)
  | Str bs :: l => let r := place (i + 1) l (write_bytes m (4096 * i) (bs ++ [0])) in (fst r, 4096 * i :: snd r)
  end.

Definition line (s : string) : list Z := codes s ++ [10].
Definition byte_of (s : string) : Z := hd 0 (codes s).

(** ** Interrupt frames (idt.c) *)

Definition int_names : list (Z * string) :=
  [(0, "Divide-by-Zero Error Exception (#DE)"); (1, "Debug (#DB)"); (2, "Non-Maskable Interrupt"); (3, "Breakpoint (#BP)");
   (4, "Overflow (#OF)"); (5, "Bound Range (#BR)"); (6, "Invalid Opcode (#UD)"); (7, "Device Not Available (#NM)");
   (8, "Double Fault (#DF)"); (10, "Invalid TSS (#TS)"); (11, "Segment Not Present (#NP)"); (12, "Stack (#SS)");
   (13, "General Protection (#GP)"); (14, "Page Fault (#PF)"); (16, "x86 FPU Floating-Point (#MF)"); (17, "Alignment Check (#AC)");
   (18, "Machine Check (#MC)"); (19, "SIMD Floating-Point (#XF)"); (30, "Security (#SX)"); (128, "System Call(#SC)");
   (127, "Panic"); (32, "HW Timer")]%string.

(** The array has 256 entries; [int_no] is cut to an [unsigned]. *)
Definition get_int_name {S} (int_no : Z) : K S (list Z) :=
  let i := u32 int_no in
  if i <? 256 then
    kret (match list_find (fun e => fst e = i) int_names with Some (_, (_, n)) => codes n | None => codes "Unknown Interrupt" end)
  else kfault.

Section Report.
Context {W : Type}.
#[local] Abbreviation R := (K (shown W)).

Definition on_world {A} (m : K W A) : R A := fun s =>
  match m (world s) with
  | Ret a w => Ret a (mk_shown w (text s))
  | Panic => Panic | Fault => Fault | Hang => Hang
  | NoReturn w => NoReturn (mk_shown w (text s))
  end.

Definition cprintf (fmt : list Z) (args : list arg) : R unit := fun s =>
  let r := place 1 args (write_bytes ∅ 0 (fmt ++ [0])) in
  match vcprintf (fst r) 0 (snd r) (text s) with
  | Ret _ out => Ret tt (mk_shown (world s) out)
  | Panic => Panic | Fault => Fault | Hang => Hang | NoReturn _ => Fault
  end.

Definition yes_no (b : bool) (s t : string) : arg := Str (codes (if b then s else t)).
(** The character of a permission. *)
Definition perm_char (b : bool) (s : string) : arg := Num (if b then byte_of s else byte_of "-").

Definition print_int_frame (frame cr2 : Z) (f : int_frame) : R unit :=
  cprintf (line "INT frame at %p") [Num frame];;;
  n <-- get_int_name (int_no f);;
  cprintf (line " INT %u: %s") [Num (int_no f); Str n];;;
  (if int_no f =? INT_PAGE_FAULT then
     cprintf (line " CR2 %p") [Num cr2];;;
     cprintf (line " ERR 0x%016llx (%s, %s, %s)")
       [Num (err_code f); yes_no (flag (err_code f) 4) "user" "kernel"; yes_no (flag (err_code f) 2) "write" "read";
        yes_no (flag (err_code f) 1) "protection" "not present"]
   else cprintf (line " ERR 0x%016llx") [Num (err_code f)]);;;
  cprintf (line " RAX 0x%016llx RCX 0x%016llx RDX 0x%016llx RBX 0x%016llx" ++ line " RSP 0x%016llx RBP 0x%016llx RSI 0x%016llx RDI 0x%016llx"
           ++ line " R8  0x%016llx R9  0x%016llx R10 0x%016llx R11 0x%016llx" ++ line " R12 0x%016llx R13 0x%016llx R14 0x%016llx R15 0x%016llx")
    (Num <$> [rax f; rcx f; rdx f; rbx f; rsp f; rbp f; rsi f; rdi f; r8 f; r9 f; r10 f; r11 f; r12 f; r13 f; r14 f; r15 f]);;;
  cprintf (line " RIP 0x%016llx RFL 0x%016llx" ++ line " CS  0x%04x            DS  0x%04x            SS  0x%04x")
    (Num <$> [rip f; rflags f; cs f; ds f; ss f]).

(** ** The memory map (boot.c) *)

Definition region_name (type : Z) : string :=
  match type with 1 => "free" | 2 => "reserved" | 3 => "ACPI" | 4 => "ACPI NVS" | 5 => "bad" | _ => "?" end%string.

Fixpoint show_entries (l : list mmap_entry) : R unit :=
  match l with
  | [] => kret tt
  | e :: l =>
      cprintf (line "  %016p - %016p [%s]") [Num (mm_addr e); Num (mm_addr e + mm_len e); Str (codes (region_name (mm_type e)))];;;
      show_entries l
  end.
Definition show_boot_mmap (l : list mmap_entry) : R unit := cprintf (line "Boot memory map:") [];;; show_entries l.

(** ** Page tables (dump.c): the line of a region *)

Definition show_region (mask : Z) (r : region) : R unit :=
  let '(base, end_, flags) := r in
  cprintf (codes "  %016p - %016p [%c%c%c%c")
    [Num base; Num end_; perm_char (flag flags PAGE_PRESENT) "r"; perm_char (flag flags PAGE_WRITE) "w";
     Num (if flag flags PAGE_NO_EXEC then byte_of "-" else byte_of "x"); perm_char (flag flags PAGE_USER) "u"];;;
  (if flag mask PAGE_HUGE then cprintf (codes " %s") [yes_no (flag flags PAGE_HUGE) "2M" "4K"] else kret tt);;;
  cprintf (line "]") [].

Fixpoint show_regions (mask : Z) (l : list region) : R unit :=
  match l with [] => kret tt | r :: l => show_region mask r;;; show_regions mask l end.

(** ** Areas (show.c) *)

Fixpoint show_areas (vmas : gmap Z vma) (nodes : list (option Z)) : R unit :=
  match nodes with
  | [] => kret tt
  | None :: _ => kfault
  | Some p :: nodes =>
      v <-- kderef (vmas !! p);;
      cprintf (codes "  %016p - %016p [%c%c%c] ")
        [Num (vm_base v); Num (vm_end v); perm_char (flag (vm_flags v) PROT_READ) "r"; perm_char (flag (vm_flags v) PROT_WRITE) "w";
         perm_char (flag (vm_flags v) PROT_EXEC) "x"];;;
      match vm_src v with
      | Some src => cprintf (codes "%016p - %016p ") [Num src; Num (vm_len v)]
      | None => kret tt
      end;;;
      cprintf ([34] ++ codes "%s" ++ [34; 10]) [Str (codes (vm_name v))];;;
      show_areas vmas nodes
  end.
Definition show_vmas (pid : Z) (a : areas) : R unit :=
  cprintf (line "[PID %5u] VMAs:") [Num pid];;;
  nodes <-- kderef (list_foreach (a_mmap a) None (size (a_mmap a)));;
  show_areas (a_vmas a) nodes.

End Report.

(** ** Free memory (buddy.c) *)

Fixpoint show_orders (n : nat) (order nfree : Z) : K (shown mstate) Z :=
  match n with
  | O => kret nfree
  | S n =>
      nfree_pages <-- on_world (count_free_pages order);;
      cprintf (line "  order #%u pages=%u") [Num order; Num nfree_pages];;;
      show_orders n (order + 1) (u64 (nfree + nfree_pages * Z.shiftl 1 (order + 12)))
  end.
Definition show_buddy_info : K (shown mstate) unit :=
  cprintf (line "Buddy allocator:") [];;;
  nfree <-- show_orders (Z.to_nat BUDDY_MAX_ORDER) 0 0;;
  cprintf (line "  free: %u kiB") [Num (nfree / 1024)].

(** ** The commands of the monitor *)

Section Commands.
Context {M : machine}.
(** The linker's symbols, the map of the boot loader, the words of memory, [outw], and the root of the kernel's page tables. *)
Context (start entry etext edata end_ : Z) (monitor_boot_info : option (list mmap_entry)) (word : Z -> option Z)
  (port_outw : Z -> Z -> K pstate unit).
#[local] Abbreviation R := (K (shown pstate)).

(** The memory the arguments lie in is only read. *)
Definition from_line {A} (m : gmap Z Z) (k : K (gmap Z Z) A) : R A := fun s =>
  match k m with
  | Ret a _ => Ret a s
  | Panic => Panic | Fault => Fault | Hang => Hang | NoReturn _ => Fault
  end.
Definition on_memory {A} (k : K mstate A) : R A := on_world (on_mem (fun s => NoReturn s) k).
Definition arg_at (argv : list Z) (i : nat) : R Z := kderef (argv !! i).
(** The characters of an argument, for a [%s]. *)
Fixpoint string_at (fuel : nat) (m : gmap Z Z) (p : Z) : list Z :=
  match fuel with
  | O => []
  | S fuel => match m !! p with Some b => if b =? 0 then [] else b :: string_at fuel m (p + 1) | None => [] end
  end.
Definition str_arg (m : gmap Z Z) (p : Z) : arg := Str (string_at (rounds m) m p).

Fixpoint help_lines (l : list (string * string)) : R unit :=
  match l with
  | [] => kret tt
  | (n, d) :: l => cprintf (line "%s - %s") [Str (codes n); Str (codes d)];;; help_lines l
  end.
Definition descriptions : list (string * string) :=
  [("help", "Display this list of commands"); ("continue", "Try to exit out of the monitor and continue execution");
   ("kerninfo", "Display information about the kernel"); ("backtrace", "Display stack backtrace");
   ("buddyinfo", "Display debugging information for the buddy allocator"); ("pageinfo", "Display page information for a given page index");
   ("mmapinfo", "Display the boot-time mmap information"); ("quit", "Quit the kernel and shutdown QEMU");
   ("ptdump", "Display the page tables"); ("vmainfo", "Display the VMAs")]%string.
Definition do_help : R Z := help_lines descriptions;;; kret 0.

Definition do_kerninfo : R Z :=
  cprintf (line "Special kernel symbols:") [];;;
  cprintf (line "  _start                            %016p (phys)") [Num start];;;
  cprintf (line "  entry  %016p (virt)  %016p (phys)") [Num entry; Num (entry - KERNEL_VMA)];;;
  cprintf (line "  etext  %016p (virt)  %016p (phys)") [Num etext; Num (etext - KERNEL_VMA)];;;
  cprintf (line "  edata  %016p (virt)  %016p (phys)") [Num edata; Num (edata - KERNEL_VMA)];;;
  cprintf (line "  end    %016p (virt)  %016p (phys)") [Num end_; Num (end_ - KERNEL_VMA)];;;
  cprintf (line "Kernel executable memory footprint: %llu kiB") [Num (ROUNDUP (u64 (end_ - entry)) 1024 / 1024)];;;
  kret 0.

Fixpoint frames_loop (fuel : nat) (rbp : Z) : R unit :=
  match fuel with
  | O => khang
  | S fuel =>
      if rbp =? 0 then kret tt else
      rip <-- kderef (word (rbp + 8));;
      cprintf (codes "  RIP: %016p ") [Num rip];;;
      cprintf (codes "<no debug info>" ++ [9]) [];;;
      cprintf (codes "  RBP: %016p ") [Num rbp];;;
      cprintf (codes "  args ") [];;;
      (fix each (l : list Z) : R unit :=
         match l with
         | [] => kret tt
         | i :: l => a <-- kderef (word (rbp + 16 + 8 * i));; cprintf (codes "%016p ") [Num a];;; each l
         end) (seqZ 0 6);;;
      cprintf [10] [];;;
      next <-- kderef (word rbp);;
      frames_loop fuel next
  end.
Definition do_backtrace (fuel : nat) (rbp : Z) : R Z := cprintf (line "Stack backtrace:") [];;; frames_loop fuel rbp;;; kret 0.

Definition do_buddyinfo : R Z := fun s =>
  match show_buddy_info (mk_shown (phys (world s)) (text s)) with
  | Ret _ t => Ret 0 (mk_shown (world s) (text t))
  | Panic => Panic | Fault => Fault | Hang => Hang | NoReturn _ => Fault
  end.

(** What pageinfo prints of a page. *)
Definition show_page (idx page : Z) : R Z :=
  g <-- on_memory (get_page page);;
  cprintf (line "  Page index: %u") [Num idx];;;
  cprintf (line "  Physical address: %p") [Num (page2pa page)];;;
  cprintf (line "  State: %s") [yes_no (negb (pp_free g =? 0)) "free" "used"];;;
  cprintf (line "  References: %u") [Num (pp_ref g)];;;
  cprintf (line "  Order: %u") [Num (pp_order g)];;;
  cprintf (line "  Available: %u") [Num (pp_avail g)];;;
  kret 0.
Definition usage (m : gmap Z Z) (argv : list Z) : R Z :=
  a0 <-- arg_at argv 0;; cprintf (line "usage: %s [idx|pa] <index>") [str_arg m a0];;; kret 0.

Definition do_pageinfo (m : gmap Z Z) (argv : list Z) : R Z :=
  s <-- kget;;
  if npages (phys (world s)) =? 0 then cprintf (line "error: buddy allocator not set up") [];;; kret 0 else
  if Z.of_nat (length argv) <? 3 then usage m argv else
  a2 <-- arg_at argv 2;;
  r <-- from_line m (strtol a2 0);;
  let addr := u64 (fst r) in
  a1 <-- arg_at argv 1;;
  c <-- from_line m (strcmp_lit a1 (codes "idx"));;
  if c =? 0 then
    if npages (phys (world s)) <=? addr then cprintf (line "error: index %u out of range.") [Num addr];;; kret 0 else
    show_page addr addr
  else
    c <-- from_line m (strcmp_lit a1 (codes "pa"));;
    if c =? 0 then
      page <-- on_memory (pa2page addr);;
      show_page (PAGE_INDEX addr) page
    else usage m argv.

Definition do_mmapinfo : R Z :=
  match monitor_boot_info with
  | None => cprintf (line "Could not find the boot info!") [];;; kret 0
  | Some l => show_boot_mmap l;;; kret 0
  end.

Definition do_quit : R Z :=
  cprintf (line "Shutting down kernel and QEMU...") [];;;
  on_world (port_outw 0x604 0x2000);;;
  cprintf (line "Shutdown failed!") [];;;
  kret 0.

Definition dump_of (pml4 : Z) : R Z :=
  r <-- on_memory (dump_page_tables pml4 PAGE_HUGE);;
  show_regions (full_mask PAGE_HUGE) (snd r);;;
  kret (fst r).
Definition no_such_pid : R Z := cprintf (line "error: no such PID") [];;; kret 0.

Definition do_ptdump (m : gmap Z Z) (argv : list Z) : R Z :=
  if Z.of_nat (length argv) <? 2 then dump_of kernel_pml4 else
  a1 <-- arg_at argv 1;;
  r <-- from_line m (strtol a1 10);;
  task <-- on_world (pid2task (s32 (fst r)) false);;
  match task with
  | None => no_such_pid
  | Some t => x <-- on_world (get_task t);; dump_of (t_pml4 x)
  end.

Definition areas_of (t : Z) : R Z :=
  x <-- on_world (get_task t);;
  s <-- kget;;
  a <-- kderef (Task.spaces (world s) !! t);;
  show_vmas (t_pid x) a;;; kret 0.
Definition do_vmainfo (m : gmap Z Z) (argv : list Z) : R Z :=
  if Z.of_nat (length argv) <? 2 then t <-- on_world current;; areas_of t else
  a1 <-- arg_at argv 1;;
  r <-- from_line m (strtol a1 10);;
  task <-- on_world (pid2task (s32 (fst r)) false);;
  match task with
  | None => no_such_pid
  | Some t => areas_of t
  end.

(** The function of a command; [rbp] is its frame pointer. *)
Definition do_command (fuel : nat) (rbp : Z) (c : command) (m : gmap Z Z) (argv : list Z) : R Z :=
  match c with
  | mon_help => do_help
  | mon_continue => kret (-1)
  | mon_kerninfo => do_kerninfo
  | mon_backtrace => do_backtrace fuel rbp
  | mon_buddyinfo => do_buddyinfo
  | mon_pageinfo => do_pageinfo m argv
  | mon_mmapinfo => do_mmapinfo
  | mon_quit => do_quit
  | mon_ptdump => do_ptdump m argv
  | mon_vmainfo => do_vmainfo m argv
  end.
End Commands.

(** ** Two outputs *)

Definition printed_by {W A} (k : K (shown W) A) (w : W) : list Z :=
  match k (mk_shown w []) with Ret _ s | NoReturn s => text s | _ => [] end.

Example show_boot_mmap_text :
  printed_by (show_boot_mmap [mk_mmap 0 0x9fc00 1; mk_mmap 0xfffc0000 0x40000 2; mk_mmap 0x1000 0 7]) tt
  = line "Boot memory map:" ++ line "  0x0000000000000000 - 0x000000000009fc00 [free]"
    ++ line "  0x00000000fffc0000 - 0x0000000100000000 [reserved]" ++ line "  0x0000000000001000 - 0x0000000000001000 [?]".
Proof. vm_compute. reflexivity. Qed.

(** A page of a program and one of the kernel. *)
Example show_regions_text :
  printed_by (show_regions (full_mask PAGE_HUGE) [(0x400000, 0x400fff, 5); (0x800000, 0x9fffff, Z.lor 0x83 PAGE_NO_EXEC)]) tt
  = line "  0x0000000000400000 - 0x0000000000400fff [r-xu 4K]" ++ line "  0x0000000000800000 - 0x00000000009fffff [rw-- 2M]".
Proof. vm_compute. reflexivity. Qed.
