(* ===== verification/Panics.v ===== *)
(** * Messages, panics and warnings (kernel/printf.c, kernel/main.c, kernel/monitor.c)

    cprintf and vcprintf with the lock of the console, and the two routines that report an
    error.  The build decides whether the kernel has one big lock; without it, the console
    has a lock of its own, which vcprintf expects to be held and cprintf gives back. *)

From Stdlib Require Import ZArith Lia.
From stdpp Require Import strings base gmap fin_maps list.
From S2P Require Import Prelude Spinlock Strings Printfmt.

#[local] Open Scope Z_scope.
#[local] Open Scope kernel_scope.
Import Spinlock.

(** What has been sent to the console, its lock, the rank of this CPU, the format of the
    first panic, and the values written to the device that ends a run. *)
Record messages := mk_messages { console : list Z; console_lock : spinlock; cpu_rank : Z; panicstr : option Z; pvpanic : list Z }.

Definition with_console x s := mk_messages x (console_lock s) (cpu_rank s) (panicstr s) (pvpanic s).
Definition with_lock x r s := mk_messages (console s) x r (panicstr s) (pvpanic s).
Definition with_panicstr x s := mk_messages (console s) (console_lock s) (cpu_rank s) x (pvpanic s).
Definition with_pvpanic x s := mk_messages (console s) (console_lock s) (cpu_rank s) (panicstr s) x.

Definition newline : string := String (Ascii.ascii_of_nat 10) EmptyString.

(** The memory the formats and the strings lie in, the addresses of the literals, and
    whether USE_BIG_KERNEL_LOCK is defined. *)
Section Messages.
Context (big : bool) (this_cpu : Z) (m : mem) (literal : string -> Z).

(** fine_spin_haslock, fine_spin_lock and fine_spin_unlock of the console's lock. *)
Definition on_lock {A} (k : K lock_state A) : K messages A := fun s =>
  match k (console_lock s, cpu_rank s) with
  | Ret a (l, r) => Ret a (with_lock l r s)
  | Panic => Panic | Fault => Fault | Hang => Hang
  | NoReturn (l, r) => NoReturn (with_lock l r s)
  end.
Definition haslock : K messages bool := fun s => Ret (if big then true else spin_haslock this_cpu (console_lock s)) s.
Definition take_lock : K messages unit := if big then kret tt else on_lock (spin_lock this_cpu "kernel/printf.c" 40).
Definition give_lock : K messages unit := if big then kret tt else on_lock (spin_unlock this_cpu).

Definition print (fmt : Z) (ap : list Z) : K messages Z := fun s =>
  match vcprintf m fmt ap (console s) with
  | Ret n out => Ret n (with_console out s)
  | Panic => Panic | Fault => Fault | Hang => Hang
  | NoReturn out => NoReturn (with_console out s)
  end.

Section Printing.
(** What a failed assertion does. *)
Context (assertion_failed : K messages unit).

Definition vcprintf (fmt : Z) (ap : list Z) : K messages Z :=
  b <-- haslock;; (if b then kret tt else assertion_failed);;; print fmt ap.

Definition cprintf (fmt : Z) (ap : list Z) : K messages Z :=
  b <-- haslock;;
  (if b then kret tt else take_lock);;;
  cnt <-- vcprintf fmt ap;;
  b <-- haslock;;
  (if b then give_lock else kret tt);;;
  kret cnt.

(** The monitor that follows does not return. *)
Definition halt_kernel : K messages unit :=
  cprintf (literal ("Finished kernel execution" +:+ newline)) [];;;
  kmodify (fun s => with_pvpanic (1 :: pvpanic s) s);;;
  (fun s => NoReturn s).

Definition warn_body (file line fmt : Z) (ap : list Z) : K messages unit :=
  cprintf (literal "kernel warning at %s:%d: ") [file; line];;;
  vcprintf fmt ap;;;
  cprintf (literal newline) [];;;
  kret tt.

Definition panic_body (file line fmt : Z) (ap : list Z) : K messages unit :=
  s <-- kget;;
  (match panicstr s with
   | Some _ => kret tt
   | None =>
       kmodify (with_panicstr (Some fmt));;;
       cprintf (literal "kernel panic at %s:%d: ") [file; line];;;
       vcprintf fmt ap;;;
       cprintf (literal newline) [];;;
       kret tt
   end);;;
  cprintf (literal newline) [];;;
  halt_kernel.
End Printing.

(** The assertion of vcprintf panics in turn; [n] bounds how deep (two are enough). *)
Fixpoint panics (n : nat) (file line fmt : Z) (ap : list Z) : K messages unit :=
  match n with
  | O => khang
  | S n =>
      panic_body (panics n (literal "kernel/printf.c") 29 (literal "assertion failed: %s") [literal "fine_spin_haslock(&console_lock)"])
        file line fmt ap
  end.
Definition assertion_panics : K messages unit :=
  panics 2 (literal "kernel/printf.c") 29 (literal "assertion failed: %s") [literal "fine_spin_haslock(&console_lock)"].
Definition _panic (file line fmt : Z) (ap : list Z) : K messages unit := panics 2 file line fmt ap.
Definition _warn (file line fmt : Z) (ap : list Z) : K messages unit := warn_body assertion_panics file line fmt ap.

(** ** What is printed *)

(** The text of a format with its arguments. *)
Definition spells (fmt : Z) (ap out : list Z) : Prop := vprintfmt emit m fmt ap [] = Ret tt out.

(** The lock is free, or this CPU has it; its rank is the static 0. *)
Definition lock_usable (s : messages) : Prop :=
  rank (console_lock s) = 0 /\ (locked (console_lock s) = 0 \/ holding this_cpu (console_lock s) = true).

Definition unlocked (l : spinlock) : spinlock := mk_spinlock 0 (rank l) (lk_name l) None None 0.
(** After a message. *)
Definition said (out : list Z) (s : messages) : messages :=
  with_console (console s ++ out) (if big then s else with_lock (unlocked (console_lock s)) (cpu_rank s) s).

Lemma print_run fmt ap out s : spells fmt ap out -> print fmt ap s = Ret 0 (with_console (console s ++ out) s).
Proof.
  intros E. unfold print, Printfmt.vcprintf. rewrite (vprintfmt_emits cputch _ _ _ _ E).
  assert (forall l con, putch_all cputch l (con, 0) = Ret tt (con ++ l, 0)) as ->; [|done].
  induction l as [|c l IH]; intros con; [by rewrite app_nil_r|]. cbn [putch_all]. unfold kbind, cputch. rewrite IH. by rewrite <- app_assoc.
Qed.

Definition has (s : messages) : bool := if big then true else holding this_cpu (console_lock s).
Lemma haslock_run s : haslock s = Ret (has s) s.
Proof. done. Qed.

Lemma vcprintf_run fail fmt ap out s : has s = true -> spells fmt ap out -> vcprintf fail fmt ap s = Ret 0 (with_console (console s ++ out) s).
Proof. intros H E. unfold vcprintf. by rewrite (krun _ _ _ _ _ (haslock_run s)), H, kret_run, (print_run _ _ _ _ E). Qed.

(** Taking the lock if it is not there already. *)
Lemma take_run s : big = false -> lock_usable s ->
  exists l, (if has s then kret tt else take_lock) s = Ret tt (with_lock l (cpu_rank s) s)
    /\ rank l = 0 /\ locked l <> 0 /\ holding this_cpu l = true /\ unlocked l = unlocked (console_lock s).
Proof.
  intros B [Hr Hl]. unfold has, take_lock. rewrite B. destruct (holding this_cpu (console_lock s)) eqn:Hh.
  - exists (console_lock s). split; [by destruct s|]. repeat split; try done. intros H0. unfold holding in Hh. by rewrite H0 in Hh.
  - destruct Hl as [Hl|?]; [|done]. eexists. split.
    + unfold on_lock, spin_lock, acquire_checks. rewrite Hh, Hr, Hl. cbn. rewrite Hr, Z.lor_0_r. reflexivity.
    + unfold holding, unlocked. cbn. rewrite Hr. repeat split; try done. by rewrite bool_decide_eq_true_2.
Qed.

Lemma give_run s : big = false -> rank (console_lock s) = 0 -> locked (console_lock s) <> 0 -> holding this_cpu (console_lock s) = true ->
  give_lock s = Ret tt (with_lock (unlocked (console_lock s)) (cpu_rank s) s).
Proof.
  intros B Hr Hne Hh. unfold give_lock. rewrite B. unfold on_lock, spin_unlock, release_checks. rewrite Hh, Hr.
  destruct (Z.eqb_spec (locked (console_lock s)) 0); [done|]. cbn. unfold unlocked. by rewrite Hr, Z.lxor_0_r.
Qed.

Lemma cprintf_run fail fmt ap out s : lock_usable s -> spells fmt ap out -> cprintf fail fmt ap s = Ret 0 (said out s).
Proof.
  intros Hs E. unfold cprintf, said. rewrite (krun _ _ _ _ _ (haslock_run s)). destruct big eqn:B.
  - assert (forall s, has s = true) as H by (intros; unfold has; by rewrite B). rewrite H, kret_run.
    rewrite (krun _ _ _ _ _ (vcprintf_run _ _ _ _ _ (H s) E)), (krun _ _ _ _ _ (haslock_run _)), H.
    unfold give_lock. by rewrite B, kret_run.
  - destruct (take_run s B Hs) as (l & E1 & Hr & Hne & Hh & Hu). rewrite (krun _ _ _ _ _ E1).
    assert (forall c, has (with_console c (with_lock l (cpu_rank s) s)) = true) as H by (intros; unfold has; by rewrite B).
    rewrite (krun _ _ _ _ _ (vcprintf_run _ _ _ _ _ (H (console s)) E)), (krun _ _ _ _ _ (haslock_run _)).
    rewrite H, (krun _ _ _ _ _ (give_run (with_console (console s ++ out) (with_lock l (cpu_rank s) s)) B Hr Hne Hh)).
    unfold with_console, with_lock; cbn. by rewrite Hu.
Qed.

Lemma said_console out s : console (said out s) = console s ++ out.
Proof. done. Qed.
Lemma said_panicstr out s : panicstr (said out s) = panicstr s.
Proof. unfold said. by destruct big. Qed.
Lemma said_pvpanic out s : pvpanic (said out s) = pvpanic s.
Proof. unfold said. by destruct big. Qed.
Lemma said_usable out s : lock_usable s -> lock_usable (said out s).
Proof. intros [Hr Hl]. unfold said, lock_usable. destruct big; cbn; [done|]. split; [done|by left]. Qed.
Lemma said_has out s : has (said out s) = big.
Proof. unfold said, has. by destruct big. Qed.

(** The texts of the fixed messages. *)
Context (finished : list Z)
  (newline_text : spells (literal newline) [] [10])
  (finished_text : spells (literal ("Finished kernel execution" +:+ newline)) [] finished).

Lemma halt_run fail s : lock_usable s -> halt_kernel fail s = NoReturn (with_pvpanic (1 :: pvpanic s) (said finished s)).
Proof. intros Hs. unfold halt_kernel. rewrite (krun _ _ _ _ _ (cprintf_run fail _ _ _ s Hs finished_text)). unfold kmodify, kbind. by rewrite said_pvpanic. Qed.

(** A panic during a panic only ends the run. *)
Lemma panic_again n file line fmt ap s str : lock_usable s -> panicstr s = Some str ->
  panics (S n) file line fmt ap s = NoReturn (with_pvpanic (1 :: pvpanic s) (said finished (said [10] s))).
Proof.
  intros Hs Hp. cbn [panics]. unfold panic_body. rewrite (krun _ _ _ _ _ (eq_refl : kget s = Ret s s)), Hp, kret_run.
  rewrite (krun _ _ _ _ _ (cprintf_run _ _ _ _ s Hs newline_text)), halt_run by (by apply said_usable). by rewrite said_pvpanic.
Qed.

Lemma kbind_noreturn {A B} (k : K messages A) (f : A -> K messages B) s s' : k s = NoReturn s' -> kbind k f s = NoReturn s'.
Proof. unfold kbind. by intros ->. Qed.

(** What both routines do after their first words: the message and a newline, or a panic. *)
Lemma message_run n fail file line fmt0 ap0 fmt ap msg str s :
  fail = panics (S n) file line fmt0 ap0 ->
  lock_usable s -> panicstr s = Some str -> has s = big -> (big = true -> spells fmt ap msg) ->
  (vcprintf fail fmt ap;;; cprintf fail (literal newline) [];;; kret tt) s
    = if big then Ret tt (said [10] (with_console (console s ++ msg) s))
      else NoReturn (with_pvpanic (1 :: pvpanic s) (said finished (said [10] s))).
Proof.
  intros -> Hs Hp Hh E. destruct big eqn:B.
  - rewrite (krun _ _ _ _ _ (vcprintf_run _ _ _ _ _ Hh (E eq_refl))). by rewrite (krun _ _ _ _ _ (cprintf_run _ _ _ _ (with_console (console s ++ msg) s) Hs newline_text)).
  - apply kbind_noreturn. unfold vcprintf. rewrite (krun _ _ _ _ _ (haslock_run s)), Hh. apply kbind_noreturn. by apply (panic_again _ _ _ _ _ _ str).
Qed.

Lemma panic_run (file line fmt : Z) (ap prefix msg : list Z) (s : messages) :
  lock_usable s -> panicstr s = None ->
  spells (literal "kernel panic at %s:%d: ") [file; line] prefix -> (big = true -> spells fmt ap msg) ->
  exists s', _panic file line fmt ap s = NoReturn s'
    /\ console s' = console s ++ prefix ++ (if big then msg ++ [10] else []) ++ [10] ++ finished
    /\ pvpanic s' = 1 :: pvpanic s.
Proof.
  intros Hs Hp E0 E. unfold _panic. change (panics 2 file line fmt ap) with (panic_body (panics 1 (literal "kernel/printf.c") 29
    (literal "assertion failed: %s") [literal "fine_spin_haslock(&console_lock)"]) file line fmt ap).
  set (fail := panics 1 _ _ _ _). unfold panic_body. rewrite (krun _ _ _ _ _ (eq_refl : kget s = Ret s s)), Hp.
  set (s1 := said prefix (with_panicstr (Some fmt) s)).
  assert (lock_usable s1) as Hs1 by (by apply said_usable).
  assert (panicstr s1 = Some fmt) as Hp1 by apply said_panicstr.
  pose proof (message_run 0 fail _ _ _ _ fmt ap msg fmt s1 eq_refl Hs1 Hp1 (said_has _ _) E) as Em.
  assert (pvpanic s1 = pvpanic s) as Hv by (unfold s1; by rewrite said_pvpanic).
  assert ((kmodify (with_panicstr (Some fmt));;; cprintf fail (literal "kernel panic at %s:%d: ") [file; line];;;
      vcprintf fail fmt ap;;; cprintf fail (literal newline) [];;; kret tt) s
    = (vcprintf fail fmt ap;;; cprintf fail (literal newline) [];;; kret tt) s1) as Eb.
  { rewrite (krun _ _ _ _ _ (eq_refl : kmodify (with_panicstr (Some fmt)) s = Ret tt (with_panicstr (Some fmt) s))).
    by rewrite (krun _ _ _ _ _ (cprintf_run fail _ _ _ (with_panicstr (Some fmt) s) Hs E0)). }
  rewrite Em in Eb. destruct big eqn:B.
  - rewrite (krun _ _ _ _ _ Eb).
    assert (lock_usable (said [10] (with_console (console s1 ++ msg) s1))) as Hs2 by (by apply said_usable).
    rewrite (krun _ _ _ _ _ (cprintf_run fail _ _ _ _ Hs2 newline_text)), halt_run by (by apply said_usable).
    eexists. split; [reflexivity|]. cbn [with_pvpanic console pvpanic]. rewrite !said_console, !said_pvpanic. cbn [with_console console pvpanic].
    rewrite Hv. unfold s1. rewrite said_console. cbn. by rewrite <- !app_assoc.
  - eexists. split; [apply kbind_noreturn, Eb|]. cbn [with_pvpanic console pvpanic]. rewrite Hv, !said_console. unfold s1. rewrite said_console.
    cbn. by rewrite <- !app_assoc.
Qed.

(** C39 (error): what a panic shows.  It never returns, and tells the device that the run is
    over; but only a kernel with one big lock prints the message.  With a lock per
    component, vcprintf finds the lock of the console free, the assertion panics in turn,
    and the run ends after the words "kernel panic at". *)
Theorem panic_shows (file line fmt : Z) (ap prefix msg : list Z) (s : messages) :
  lock_usable s -> panicstr s = None ->
  spells (literal "kernel panic at %s:%d: ") [file; line] prefix -> spells fmt ap msg ->
  exists s', _panic file line fmt ap s = NoReturn s'
    /\ console s' = console s ++ prefix ++ (if big then msg ++ [10] else []) ++ [10] ++ finished
    /\ pvpanic s' = 1 :: pvpanic s.
Proof. intros Hs Hp E0 E. by apply panic_run. Qed.

(** Fact (error): a warning prints its message and returns only in a kernel with one big
    lock; otherwise the kernel panics, as in [panic_shows]. *)
Theorem warning_shows (file line fmt : Z) (ap prefix prefix' msg : list Z) (s : messages) :
  lock_usable s -> panicstr s = None ->
  spells (literal "kernel warning at %s:%d: ") [file; line] prefix -> spells fmt ap msg ->
  spells (literal "kernel panic at %s:%d: ") [literal "kernel/printf.c"; 29] prefix' ->
  exists s', if big then _warn file line fmt ap s = Ret tt s' /\ console s' = console s ++ prefix ++ msg ++ [10]
             else _warn file line fmt ap s = NoReturn s' /\ console s' = console s ++ prefix ++ prefix' ++ [10] ++ finished.
Proof.
  intros Hs Hp E0 E E1. set (s1 := said prefix s).
  assert (lock_usable s1) as Hs1 by (by apply said_usable).
  assert (panicstr s1 = None) as Hp1 by (unfold s1; by rewrite said_panicstr).
  assert (has s1 = big) as Hh by apply said_has.
  unfold _warn, warn_body. rewrite (krun _ _ _ _ _ (cprintf_run assertion_panics _ _ _ s Hs E0)). fold s1. destruct big eqn:B.
  - rewrite (krun _ _ _ _ _ (vcprintf_run _ _ _ _ _ Hh E)).
    rewrite (krun _ _ _ _ _ (cprintf_run _ _ _ _ (with_console (console s1 ++ msg) s1) Hs1 newline_text)).
    eexists. split; [reflexivity|]. rewrite said_console. unfold s1. cbn [with_console console]. rewrite said_console. by rewrite <- !app_assoc.
  - destruct (panic_run (literal "kernel/printf.c") 29 (literal "assertion failed: %s") [literal "fine_spin_haslock(&console_lock)"] prefix' [] s1
      Hs1 Hp1 E1 ltac:(by rewrite B)) as (s' & Ep & Hc & _).
    exists s'. split.
    + apply kbind_noreturn. unfold vcprintf. rewrite (krun _ _ _ _ _ (haslock_run s1)), Hh. apply kbind_noreturn, Ep.
    + rewrite Hc, B. unfold s1. rewrite said_console. cbn. by rewrite <- !app_assoc.
Qed.
End Messages.

(** ** A panic in a kernel whose literals lie at 1000, 1100 and so on *)

Definition demo_literals : list (Z * string) :=
  [(1000, "kernel panic at %s:%d: "); (1100, newline); (1200, "Finished kernel execution" +:+ newline);
   (1300, "kernel/mem/buddy.c"); (1400, "bad order %u"); (1500, "assertion failed: %s"); (1600, "kernel/printf.c");
   (1700, "fine_spin_haslock(&console_lock)")]%string.
Definition demo_memory : mem := foldr (fun e => lit e.1 e.2) ∅ demo_literals.
Definition demo_literal (s : string) : Z :=
  match list_find (fun e => e.2 = s) demo_literals with Some (_, e) => e.1 | None => 0 end.
Definition demo_messages : messages := mk_messages [] (static_lock "console_lock") 0 None [].

Lemma panic_shows_witness :
  exists s', _panic false 0 demo_memory demo_literal 1300 57 1400 [12] demo_messages = NoReturn s'
    /\ console s' = codes "kernel panic at kernel/mem/buddy.c:57: " ++ [10] ++ codes "Finished kernel execution" ++ [10].
Proof.
  destruct (panic_shows false 0 demo_memory demo_literal (codes ("Finished kernel execution" +:+ newline))
    ltac:(vm_compute; reflexivity) ltac:(vm_compute; reflexivity) 1300 57 1400 [12]
    (codes "kernel panic at kernel/mem/buddy.c:57: ") (codes "bad order 12") demo_messages) as (s' & E & C & _).
  - split; [reflexivity|left; reflexivity].
  - reflexivity.
  - vm_compute. reflexivity.
  - vm_compute. reflexivity.
  - exists s'. split; [exact E|]. rewrite C. reflexivity.
Defined.
