(* ===== verification/Probes.v ===== *)
(** * Tests and probes (kernel/test/probe.c, kernel/test/test.c, main.c: find_user_binary)

    A test replaces the first instructions of the functions it watches by a call of
    probe_handler.  The name of the test comes from the configuration device (Fwcfg.v),
    what belongs to the name from the kernel's symbols (Symbols.v).  The functions behind
    the addresses, the tests' own code and kmalloc are arguments. *)

From Stdlib Require Import ZArith Lia.
From stdpp Require Import strings base gmap fin_maps list.
From S2P Require Import Prelude Strings Printfmt Devices Fwcfg Symbols.

#[local] Open Scope Z_scope.
#[local] Open Scope kernel_scope.

Definition PROBE_COUNT : Z := 10.
Definition TEST_NAME_LENGTH : Z := 64.
Definition TEST_PREFIX_LENGTH : Z := 8.
Definition TEST_BINARY_NAME_LENGTH : Z := 63.

(** What the stub passes: the argument registers, the stack pointer, and two addresses. *)
Record probe_frame := mk_frame { f_args : list Z; f_rsp : Z; caller : Z; callee : Z }.
Record probe := mk_probe { target : Z; callback : Z }.

(** The configuration device with all of memory, the variables of symbols.c, of probe.c and of
    test.c; [test] is a pointer. *)
Record harness := mk_harness {
  fw : fwcfg;
  syms : bool * Z * Z;
  active_probes : list probe;
  current_probe_count : Z;
  probe_depth : Z;
  test : Z;
  has_been_called : bool;
  passed : nat
}.
Definition with_fw x s := mk_harness x (syms s) (active_probes s) (current_probe_count s) (probe_depth s) (test s) (has_been_called s) (passed s).
Definition with_syms x s := mk_harness (fw s) x (active_probes s) (current_probe_count s) (probe_depth s) (test s) (has_been_called s) (passed s).
Definition with_probes x n s := mk_harness (fw s) (syms s) x n (probe_depth s) (test s) (has_been_called s) (passed s).
Definition with_depth x s := mk_harness (fw s) (syms s) (active_probes s) (current_probe_count s) x (test s) (has_been_called s) (passed s).
Definition with_test x s := mk_harness (fw s) (syms s) (active_probes s) (current_probe_count s) (probe_depth s) x (has_been_called s) (passed s).
Definition with_called x s := mk_harness (fw s) (syms s) (active_probes s) (current_probe_count s) (probe_depth s) (test s) x (passed s).
Definition with_passed x s := mk_harness (fw s) (syms s) (active_probes s) (current_probe_count s) (probe_depth s) (test s) (has_been_called s) x.

Definition memory (s : harness) : mem := ram (Fwcfg.machine (fw s)).
Definition with_memory (m : mem) (s : harness) : harness := with_fw (Fwcfg.with_machine (mk_hw m (trace (Fwcfg.machine (fw s)))) (fw s)) s.

Definition on_fw {A} (k : K fwcfg A) : K harness A := fun s =>
  match k (fw s) with
  | Ret a x => Ret a (with_fw x s)
  | Panic => Panic | Fault => Fault | Hang => Hang
  | NoReturn x => NoReturn (with_fw x s)
  end.
Definition in_memory {A} (k : K mem A) : K harness A := fun s =>
  match k (memory s) with
  | Ret a m => Ret a (with_memory m s)
  | Panic => Panic | Fault => Fault | Hang => Hang
  | NoReturn m => NoReturn (with_memory m s)
  end.

(** ** probe.c *)

(** The instructions at a probed function, and the two words that are stored for them. *)
Definition probe_code (probe_stub : Z) : list Z := [0x48; 0xb8] ++ le_split 8 probe_stub ++ [0xff; 0xd0; 0x0f; 0x1f; 0x40; 0x00].

Section Probes.
Context (probe_stub : Z).

Definition register_probe (target callback : Z) : K harness Z :=
  s <-- kget;;
  if current_probe_count s >=? PROBE_COUNT then kret 1 else
  kmodify (with_probes (<[Z.to_nat (current_probe_count s) := mk_probe target callback]> (active_probes s)) (current_probe_count s + 1));;;
  let instructions := probe_code probe_stub in
  in_memory (store_le 8 target (le_combine (take 8 instructions)));;;
  in_memory (store_le 8 (target + 8) (le_combine (drop 8 instructions)));;;
  kret 0.

(** The function at an address, called with the frame. *)
Context (call : Z -> probe_frame -> K harness unit).

Fixpoint find_callback (l : list probe) (frame : probe_frame) : K harness unit :=
  match l with
  | [] => kret tt
  | p :: l =>
      if negb (target p =? callee frame) then find_callback l frame else
      if negb (callback p =? 0) then
        kmodify (fun s => with_depth (probe_depth s + 1) s);;;
        call (callback p) frame;;;
        kmodify (fun s => with_depth (probe_depth s - 1) s)
      else kret tt
  end.
Definition probe_handler (frame : probe_frame) : K harness unit :=
  s <-- kget;;
  if probe_depth s >? 10 then kret tt else
  find_callback (take (Z.to_nat (current_probe_count s)) (active_probes s)) frame.
End Probes.

(** ** test.c *)

(** Offsets of [struct test_definition]. *)
Definition td_run_test : Z := 0.
Definition td_test_point : Z := 8.
Definition td_should_continue : Z := 16.
Definition td_checksum : Z := 20.
Definition td_probe_count : Z := 24.
Definition td_probes : Z := 32.
Definition sizeof_probe : Z := 16.

(** The test's function. *)
Definition test_point_handler (run_test : Z -> probe_frame -> K harness Z) (frame : probe_frame) : K harness unit :=
  s <-- kget;;
  if (test s =? 0) || has_been_called s then kret tt else
  kmodify (with_called true);;;
  f <-- in_memory (load_le 8 (test s + td_run_test));;
  checksum <-- run_test f frame;;
  s <-- kget;;
  expected <-- in_memory (load_le 4 (test s + td_checksum));;
  kassert (checksum =? s32 expected);;;
  kmodify (fun s => with_passed (S (passed s)) s);;;
  should_continue <-- in_memory (load (test s + td_should_continue));;
  if should_continue =? 0 then (fun s => NoReturn s) else kret tt.

Section Start.
Context {D : devices} (kmalloc : Z -> K hw (option Z)) (sdynamic edynsym probe_stub : Z).
(** The addresses of test_point_handler, of test_name, of the two buffers on the stack, and
    of the literals. *)
Context (handler test_name definition_name binary_name : Z) (literal : string -> Z).

(** [snprintf] into [n] bytes of memory. *)
Definition snprintf_to (buf : option Z) (n fmt : Z) (ap : list Z) : K harness Z :=
  s <-- kget;;
  match buf with
  | None => kret (- EINVAL)
  | Some p =>
      bytes <-- kderef (peek (memory s) (Z.to_nat n) p);;
      match vsnprintf (memory s) (Some bytes) n fmt ap with
      | Ret r l => in_memory (write_unit p l);;; kret r
      | Panic => kpanic | Fault => kfault | Hang => khang | NoReturn _ => kfault
      end
  end.
Definition find_symbol (name : Z) : K harness Z := fun s =>
  let '(found, symtab, strtab) := syms s in
  match Symbols.find_symbol sdynamic edynsym name (mk_symbols (memory s) found symtab strtab) with
  | Ret a x => Ret a (with_memory (Symbols.memory x) (with_syms (symbols_found x, symbol_table x, string_table x) s))
  | Panic => Panic | Fault => Fault | Hang => Hang | NoReturn _ => Fault
  end.

Fixpoint register_probes (n : nat) (p : Z) : K harness unit :=
  match n with
  | O => kret tt
  | S n =>
      target <-- in_memory (load_le 8 p);;
      callback <-- in_memory (load_le 8 (p + 8));;
      register_probe probe_stub target callback;;;
      register_probes n (p + sizeof_probe)
  end.

Definition register_test : K harness unit :=
  s <-- kget;;
  if test s =? 0 then kret tt else
  count <-- in_memory (load_le 4 (test s + td_probe_count));;
  register_probes (Z.to_nat (s32 count)) (test s + td_probes);;;
  test_point <-- in_memory (load_le 8 (test s + td_test_point));;
  register_probe probe_stub test_point handler;;;
  kret tt.

(** [char name[n] = ...]: an array of zeros. *)
Definition zero_buffer (p n : Z) : K harness unit := in_memory (write_unit p (replicate (Z.to_nat n) 0)).

Definition tests_init : K harness Z :=
  ret <-- on_fw (fwcfg_read (codes "opt/openlsd.test") test_name TEST_NAME_LENGTH);;
  if (ret =? 0) || (ret =? - EINVAL) then kret 0 else
  if ret <? 0 then kpanic else
  zero_buffer definition_name (TEST_NAME_LENGTH + TEST_PREFIX_LENGTH);;;
  snprintf_to (Some definition_name) (TEST_NAME_LENGTH + TEST_PREFIX_LENGTH) (literal "__test__%s") [test_name];;;
  definition <-- find_symbol definition_name;;
  kmodify (with_test definition);;;
  register_test;;;
  zero_buffer binary_name (TEST_NAME_LENGTH + TEST_BINARY_NAME_LENGTH);;;
  snprintf_to (Some binary_name) (TEST_NAME_LENGTH + TEST_BINARY_NAME_LENGTH) (literal "_binary_obj_test_%s_user_start") [test_name];;;
  test_binary <-- find_symbol binary_name;;
  s <-- kget;;
  if (test s =? 0) && (test_binary =? 0) then kpanic else kret test_binary.

(** main.c *)
Definition find_user_binary : K harness Z :=
  r <-- on_fw (fwcfg_read_alloc kmalloc (codes "opt/openlsd.user"));;
  let '(user_binary_name, ret) := r in
  if (ret =? 0) || (ret =? - EINVAL) then kret 0 else
  if ret <? 0 then kpanic else
  name <-- on_fw (Fwcfg.on_machine (kmalloc (s32 (ret + 24))));;
  snprintf_to name (s32 (ret + 24)) (literal "_binary_obj_user_%s_start") [default 0 user_binary_name];;;
  binary <-- find_symbol (default 0 name);;
  if binary =? 0 then kpanic else kret binary.
End Start.

(** ** Lemmas *)

Lemma modify_run {S A} (f : S -> S) (k : unit -> K S A) s : kbind (kmodify f) k s = k tt (f s).
Proof. done. Qed.

Lemma in_memory_run {A} (k : K mem A) s a m : k (memory s) = Ret a m -> in_memory k s = Ret a (with_memory m s).
Proof. unfold in_memory. by intros ->. Qed.

Lemma le_split_combine bs : Forall (fun b => 0 <= b < 256) bs -> le_split (length bs) (le_combine bs) = bs.
Proof.
  induction 1 as [|b bs Hb Hbs IH]; [done|]. cbn [length le_split le_combine]. f_equal.
  - unfold u8. change (2 ^ 8) with 256. replace (b + 256 * le_combine bs) with (b + le_combine bs * 256) by lia. rewrite Z.mod_add by lia. by apply Z.mod_small.
  - replace (b + 256 * le_combine bs) with (le_combine bs * 256 + b) by lia. by rewrite Z.div_add_l, Z.div_small, Z.add_0_r by lia.
Qed.

Lemma store_combined n p bs m : length bs = n -> Forall (fun b => 0 <= b < 256) bs -> mapped m p (Z.of_nat n) ->
  store_le n p (le_combine bs) m = Ret tt (write_bytes m p bs).
Proof. intros <- Hb Hm. unfold store_le. rewrite le_split_combine by done. by apply write_unit_ok. Qed.

Lemma probe_code_bytes stub : Forall (fun b => 0 <= b < 256) (probe_code stub).
Proof.
  unfold probe_code. apply Forall_app_2; [repeat constructor; lia|]. apply Forall_app_2; [apply le_split_range|repeat constructor; lia].
Qed.

Lemma probe_code_length stub : length (probe_code stub) = 16%nat.
Proof. reflexivity. Qed.

(** Fact (functional): register_probe.  With room in the table and 16 bytes of code at the
    function, it enters the probe and replaces exactly these bytes by the call of the stub;
    with a full table it changes nothing and returns 1. *)
Theorem register_probe_correct (probe_stub target callback : Z) (s : harness) :
  0 <= current_probe_count s -> mapped (memory s) target 16 ->
  exists s', register_probe probe_stub target callback s = Ret (if current_probe_count s <? PROBE_COUNT then 0 else 1) s'
    /\ if current_probe_count s <? PROBE_COUNT then
         bytes_at (memory s') target (probe_code probe_stub)
         /\ (forall a, ~ (target <= a < target + 16) -> memory s' !! a = memory s !! a)
         /\ active_probes s' = <[Z.to_nat (current_probe_count s) := mk_probe target callback]> (active_probes s)
         /\ current_probe_count s' = current_probe_count s + 1 /\ probe_depth s' = probe_depth s
       else s' = s.
Proof.
  intros Hc Hm. unfold register_probe. rewrite (krun _ _ _ _ _ (eq_refl : kget s = Ret s s)).
  destruct (Z.ltb_spec (current_probe_count s) PROBE_COUNT) as [Hlt|Hge].
  2: { exists s. by destruct (Z.geb_spec (current_probe_count s) PROBE_COUNT); [|lia]. }
  destruct (Z.geb_spec (current_probe_count s) PROBE_COUNT); [lia|].
  set (s1 := with_probes (<[Z.to_nat (current_probe_count s) := mk_probe target callback]> (active_probes s)) (current_probe_count s + 1) s).
  rewrite modify_run. fold s1. cbv zeta.
  pose proof (probe_code_bytes probe_stub) as Hb. set (bs := probe_code probe_stub) in *.
  assert (length bs = 16%nat) as Hl by reflexivity.
  assert (mapped (memory s1) target 8) as Hm1 by (intros a Ha; apply Hm; lia).
  rewrite (krun _ _ _ _ _ (in_memory_run _ s1 _ _ (store_combined 8 target (take 8 bs) (memory s1) eq_refl (Forall_take _ _ _ Hb) Hm1))).
  set (s2 := with_memory _ s1). assert (memory s2 = write_bytes (memory s) target (take 8 bs)) as Es2 by done.
  assert (mapped (memory s2) (target + 8) 8) as Hm2.
  { rewrite Es2. intros a Ha. rewrite write_bytes_lookup, length_take, Hl, decide_False by lia. apply Hm. lia. }
  rewrite (krun _ _ _ _ _ (in_memory_run _ s2 _ _ (store_combined 8 (target + 8) (drop 8 bs) (memory s2) eq_refl (Forall_drop _ _ _ Hb) Hm2))).
  assert (write_bytes (memory s2) (target + 8) (drop 8 bs) = write_bytes (memory s) target bs) as Ew.
  { rewrite Es2. rewrite <- (take_drop 8 bs) at 3. by rewrite write_bytes_app. }
  rewrite Ew. eexists. split; [reflexivity|]. change (memory (with_memory ?m ?x)) with m. split; [apply write_bytes_at|]. split; [|done].
  intros a Ha. by rewrite write_bytes_lookup, Hl, decide_False by lia.
Qed.

(** ** Probes in probes *)

Section Nesting.
(** What a callback calls of the probed functions, in this order. *)
Context (triggers : Z -> probe_frame -> list probe_frame).

Fixpoint probed (fuel : nat) (frame : probe_frame) : K harness unit :=
  match fuel with
  | O => khang
  | S fuel =>
      probe_handler (fun callback frame =>
        (fix each (l : list probe_frame) : K harness unit :=
           match l with [] => kret tt | f :: l => probed fuel f;;; each l end) (triggers callback frame)) frame
  end.

Lemma find_callback_run call l frame s :
  (forall c f, call c f (with_depth (probe_depth s + 1) s) = Ret tt (with_depth (probe_depth s + 1) s)) ->
  find_callback call l frame s = Ret tt s.
Proof.
  intros Hc. induction l as [|p l IH]; cbn [find_callback]; [done|].
  destruct (negb (target p =? callee frame)); [done|]. destruct (negb (callback p =? 0)); [|done].
  rewrite modify_run, (krun _ _ _ _ _ (Hc _ _)).
  unfold kmodify, with_depth. cbn. rewrite Z.add_simpl_r. by destruct s.
Qed.

(** Fact (termination): probes whose callbacks run into probes again, themselves included,
    always end, at most twelve levels deep, and leave the counter of levels as it was. *)
Theorem probes_end (fuel : nat) (frame : probe_frame) (s : harness) :
  0 <= probe_depth s -> 12 - probe_depth s <= Z.of_nat fuel -> (0 < fuel)%nat -> probed fuel frame s = Ret tt s.
Proof.
  revert frame s. induction fuel as [|fuel IH]; intros frame s Hd Hf H0; [lia|]. cbn [probed]. unfold probe_handler.
  rewrite (krun _ _ _ _ _ (eq_refl : kget s = Ret s s)). destruct (Z.gtb_spec (probe_depth s) 10) as [|Hle]; [done|].
  apply find_callback_run. intros c f. induction (triggers c f) as [|g l IHl]; [done|].
  rewrite (krun _ _ _ _ _ (IH g (with_depth (probe_depth s + 1) s) ltac:(cbn; lia) ltac:(cbn; lia) ltac:(lia))). apply IHl.
Qed.
End Nesting.

(** ** A test called "fork" with one probe *)

Definition demo_test_bytes : list Z :=
  le_split 8 0x5000 ++ le_split 8 2000 ++ [0; 0; 0; 0] ++ le_split 4 4711 ++ le_split 4 1 ++ [0; 0; 0; 0]
  ++ le_split 8 2100 ++ le_split 8 0x6000.
Definition demo_memory : mem :=
  lit 500 "__test__%s" (lit 600 "_binary_obj_test_%s_user_start" (lit 701 "__test__fork"
    (foldr (fun e m => write_bytes m e.1 e.2) ∅
      [(100, replicate 64 7); (200, replicate 72 7); (300, replicate 127 7);
       (800, sym_bytes (mk_symbol 0 0 0 0 []) ++ sym_bytes (mk_symbol 1 0 1000 0 []));
       (900, dyn_bytes (ELF_DYN_STRTAB, 700) ++ dyn_bytes (ELF_DYN_SYMTAB, 800) ++ dyn_bytes (0, 0));
       (1000, demo_test_bytes); (2000, replicate 16 0x90); (2100, replicate 16 0x90); (700, [0])]))).
Definition demo_harness : harness :=
  mk_harness (mk_fwcfg (mk_hw demo_memory []) [mk_file 5 0x20 (demo_name "opt/openlsd.test")] 1)
    (false, 0, 0) (replicate 10 (mk_probe 0 0)) 0 0 0 false 0.
Definition demo_literals (s : string) : Z := if String.eqb s "__test__%s" then 500 else 600.

(** The device of Fwcfg.v gives the name; the probe and the test point are registered. *)
Definition demo_start : K harness Z :=
  @tests_init (fw_cfg_machine demo_item) 900 848 0x123456789a 0x7000 100 200 300 demo_literals.

Example tests_init_demo :
  match demo_start demo_harness with
  | Ret binary s => Some (binary, test s, current_probe_count s, take 2 (active_probes s), peek (memory s) 16 2100)
  | _ => None
  end = Some (0, 1000, 2, [mk_probe 2100 0x6000; mk_probe 2000 0x7000],
              Some [0x48; 0xb8; 0x9a; 0x78; 0x56; 0x34; 0x12; 0; 0; 0; 0xff; 0xd0; 0x0f; 0x1f; 0x40; 0]).
Proof. vm_compute. reflexivity. Qed.

Lemma register_probe_correct_witness :
  exists s', register_probe 0x123456789a 2100 0x6000 demo_harness = Ret 0 s' /\ bytes_at (memory s') 2100 (probe_code 0x123456789a).
Proof.
  destruct (register_probe_correct 0x123456789a 2100 0x6000 demo_harness) as (s' & E & B & _).
  - vm_compute. discriminate.
  - intros a Ha. assert (a ∈ seqZ 2100 16) as Hin by (apply elem_of_seqZ; lia). revert a Ha Hin.
    enough (Forall (fun a => is_Some (memory demo_harness !! a)) (seqZ 2100 16)) as H by (intros a _ Hin; rewrite Forall_forall in H; exact (H a Hin)).
    apply (bool_decide_unpack _). vm_compute. exact I.
  - exists s'. split; [exact E|exact B].
Defined.

(** A callback that runs into its own probe twice. *)
Lemma probes_end_witness :
  let f := mk_frame [] 0 0 2100 in
  let s := with_probes [mk_probe 2100 0x6000] 1 demo_harness in
  probed (fun _ _ => [f; f]) 12 f s = Ret tt s.
Proof. intros f s. apply (probes_end (fun _ _ => [f; f]) 12 f s); vm_compute; lia || discriminate || reflexivity. Defined.
