(* ===== verification/Mp.v ===== *)
(** * Starting the other processors (kernel/mp.c, kernel/boot_ap.S)

    The boot processor runs boot_cpus, each processor it starts runs boot_ap16 and mp_main.
    They share one stack to begin with and one variable, mpentry_kstack, and synchronise by
    the status of the started processor.  The processors' steps interleave, as a step
    relation. *)

From Stdlib Require Import ZArith Lia.
From stdpp Require Import base numbers relations functions list.
From S2P Require Import Prelude MemState Ptbl Init Smp.

#[local] Open Scope Z_scope.

(** Where boot_cpus stands: before a processor of the array, its stack chosen, its start
    requested (in the loop that waits), behind the loop. *)
Inductive boot_pc := Pick | Send | Wait | Done.

#[global] Instance boot_pc_eq_dec : EqDecision boot_pc.
Proof. solve_decision. Defined.

(** What a processor does: nothing yet; on the boot stack; [rbp] loaded; on a stack of its own;
    its status set. *)
Inductive ap := Off | Entered | Framed (rbp : Z) | Running (rbp rsp : Z) | Ready (rbp rsp : Z).

Record mp := mk_mp { boot_at : boot_pc; cpu : Z; mpentry_kstack : Z; aps : Z -> ap; status : Z -> Z }.

Definition boot_to (p : boot_pc) (i : Z) (s : mp) : mp := mk_mp p i (mpentry_kstack s) (aps s) (status s).
Definition with_kstack (x : Z) (s : mp) : mp := mk_mp (boot_at s) (cpu s) x (aps s) (status s).
Definition with_ap (c : Z) (a : ap) (s : mp) : mp := mk_mp (boot_at s) (cpu s) (mpentry_kstack s) (<[c := a]> (aps s)) (status s).
Definition with_status (c v : Z) (s : mp) : mp := mk_mp (boot_at s) (cpu s) (mpentry_kstack s) (aps s) (<[c := v]> (status s)).

(** The number of processors, the boot processor, the number lapic_startup gets for an entry
    of the array, and [cpu_tss.rsp[0]] of an entry. *)
Section Mp.
Context (ncpus boot : Z) (cpu_id rsp0 : Z -> Z).

(** A started processor [c] of the APIC finds itself at [cpus + c].  The request resets a
    processor that runs already. *)
Inductive mp_step (s : mp) : mp -> Prop :=
  | step_boot_cpu : boot_at s = Pick -> cpu s < ncpus -> cpu s = boot -> mp_step s (boot_to Pick (cpu s + 1) s)
  | step_stack : boot_at s = Pick -> cpu s < ncpus -> cpu s <> boot ->
      mp_step s (boot_to Send (cpu s) (with_kstack (rsp0 (cpu s)) s))
  | step_send : boot_at s = Send -> mp_step s (boot_to Wait (cpu s) (with_ap (cpu_id (cpu s)) Entered s))
  | step_spin : boot_at s = Wait -> status s (cpu s) <> CPU_STARTED -> mp_step s s
  | step_next : boot_at s = Wait -> status s (cpu s) = CPU_STARTED -> mp_step s (boot_to Pick (cpu s + 1) s)
  | step_done : boot_at s = Pick -> ncpus <= cpu s -> mp_step s (boot_to Done (cpu s) s)
  | step_rbp c : aps s c = Entered -> mp_step s (with_ap c (Framed (mpentry_kstack s)) s)
  | step_rsp c rbp : aps s c = Framed rbp -> mp_step s (with_ap c (Running rbp (mpentry_kstack s - 32)) s)
  | step_ready c rbp rsp : aps s c = Running rbp rsp -> mp_step s (with_status c CPU_STARTED (with_ap c (Ready rbp rsp) s)).

Definition initial (s : mp) : Prop :=
  boot_at s = Pick /\ cpu s = 0 /\ forall c, c <> boot -> aps s c = Off /\ status s c <> CPU_STARTED.
Definition reachable (s : mp) : Prop := exists s0, initial s0 /\ aps s0 boot = Off /\ rtc mp_step s0 s.

(** On the boot stack. *)
Definition on_boot_stack (a : ap) : bool := match a with Entered | Framed _ => true | _ => false end.
(** The registers of a processor that has left it. *)
Definition on_own_stack (a : ap) : option (Z * Z) := match a with Running b p | Ready b p => Some (b, p) | _ => None end.

(** ** The invariant *)

Definition own (c : Z) : Z * Z := (rsp0 c, rsp0 c - 32).

(** The processor being started. *)
Definition starting (c : Z) (a : ap) (st : Z) : Prop :=
  match a with
  | Entered => st <> CPU_STARTED
  | Framed b => b = rsp0 c /\ st <> CPU_STARTED
  | Running b p => (b, p) = own c /\ st <> CPU_STARTED
  | Ready b p => (b, p) = own c
  | Off => False
  end.

Record mp_inv (s : mp) : Prop := {
  mi_cpu : 0 <= cpu s;
  mi_busy : boot_at s = Send \/ boot_at s = Wait -> cpu s < ncpus /\ cpu s <> boot /\ mpentry_kstack s = rsp0 (cpu s);
  mi_done : boot_at s = Done -> ncpus <= cpu s;
  mi_boot : aps s boot = Off;
  mi_before : forall c, 0 <= c < cpu s -> c < ncpus -> c <> boot -> exists b p, aps s c = Ready b p /\ (b, p) = own c;
  mi_now : boot_at s = Wait -> starting (cpu s) (aps s (cpu s)) (status s (cpu s));
  mi_after : forall c, c <> boot -> c < 0 \/ cpu s < c \/ ncpus <= c \/ (c = cpu s /\ boot_at s <> Wait) ->
    aps s c = Off /\ status s c <> CPU_STARTED
}.

Lemma aps_with_ap c a s d : aps (with_ap c a s) d = if decide (c = d) then a else aps s d.
Proof. cbn. case_decide; subst; [by rewrite fn_lookup_insert|by rewrite fn_lookup_insert_ne]. Qed.
Lemma status_with_status c v s d : status (with_status c v s) d = if decide (c = d) then v else status s d.
Proof. cbn. case_decide; subst; [by rewrite fn_lookup_insert|by rewrite fn_lookup_insert_ne]. Qed.

Context (ids : forall c, 0 <= c < ncpus -> cpu_id c = c).

Lemma mp_inv_initial s : initial s -> aps s boot = Off -> mp_inv s.
Proof.
  intros (Hp & Hc & Ho) Hb. constructor; rewrite ?Hp, ?Hc; try done.
  - by intros [|].
  - lia.
  - intros c Hne _. by apply Ho.
Qed.

(** Only the processor being started is on its way. *)
Lemma active_current s c : mp_inv s -> aps s c <> Off -> (forall b p, aps s c <> Ready b p) -> c = cpu s /\ boot_at s = Wait.
Proof.
  intros I Hoff Hready. destruct (Z.eq_dec c boot) as [->|Hb]; [by rewrite (mi_boot _ I) in Hoff|].
  destruct (decide (c < 0 \/ cpu s < c \/ ncpus <= c \/ c = cpu s /\ boot_at s <> Wait)) as [Ha|Hn].
  - by destruct (mi_after _ I c Hb Ha).
  - destruct (Z.eq_dec c (cpu s)) as [->|Hne].
    + split; [done|]. destruct (decide (boot_at s = Wait)) as [|Hw]; [done|]. exfalso. apply Hn. auto.
    + destruct (mi_before _ I c ltac:(lia) ltac:(lia) Hb) as (b & p & E & _). by destruct (Hready b p).
Qed.

(** A step of the processor being started. *)
Lemma inv_started s s' : mp_inv s -> boot_at s = Wait ->
  boot_at s' = Wait -> cpu s' = cpu s -> mpentry_kstack s' = mpentry_kstack s ->
  (forall c, c <> cpu s -> aps s' c = aps s c /\ status s' c = status s c) ->
  starting (cpu s) (aps s' (cpu s)) (status s' (cpu s)) -> mp_inv s'.
Proof.
  intros [Ic Ib Id Io Ibe In Ia] Hw Hw' Ec Ek Hsame Hst. destruct (Ib (or_intror Hw)) as (Hlt & Hne & Hk).
  constructor; rewrite ?Ec, ?Ek, ?Hw'; try done.
  - rewrite (proj1 (Hsame boot ltac:(congruence))). done.
  - intros c Hr Hn Hb. rewrite (proj1 (Hsame c ltac:(lia))). by apply Ibe.
  - intros c Hb Hcase. destruct (Hsame c) as [-> ->]; [lia || (destruct Hcase as [?|[?|[?|[_ ?]]]]; [lia..|done])|].
    apply Ia; [done|]. destruct Hcase as [?|[?|[?|[_ ?]]]]; [auto..|done].
Qed.

(** The boot processor moves on: what is settled, and what is still off. *)
Lemma inv_boot p i k s : mp_inv s -> boot_at s <> Wait -> p <> Wait -> cpu s <= i <= cpu s + 1 -> (cpu s < i -> cpu s < ncpus -> cpu s = boot) ->
  (p = Send -> i < ncpus /\ i <> boot /\ k = rsp0 i) -> (p = Done -> ncpus <= i) -> mp_inv (boot_to p i (with_kstack k s)).
Proof.
  intros [Ic Ib Id Io Ibe In Ia] Hw Hpw Hi Hskip Hsend Hdone. constructor; cbn; try done.
  - lia.
  - intros [->| ->]; [|done]. by apply Hsend.
  - intros c Hr Hn Hb. apply Ibe; [|done..]. destruct (Z.eq_dec c (cpu s)) as [->|]; [|lia]. exfalso. apply Hb, Hskip; lia.
  - intros c Hb Hc. apply Ia; [done|]. destruct (Z_lt_le_dec (cpu s) c) as [|Hle]; [auto|].
    destruct (Z.eq_dec c (cpu s)) as [->|]; [auto|]. destruct Hc as [?|[?|[?|[? _]]]]; [auto|lia|auto|lia].
Qed.

Lemma mp_inv_step s s' : mp_inv s -> mp_step s s' -> mp_inv s'.
Proof.
  intros I H. pose proof I as [Ic Ib Id Io Ibe In Ia].
  destruct H as [Hp Hlt Hb|Hp Hlt Hb|Hp|Hp Hs|Hp Hs|Hp Hge|c Hc|c rbp Hc|c rbp rsp Hc].
  - apply (inv_boot Pick (cpu s + 1) (mpentry_kstack s) s I); rewrite ?Hp; (done || lia).
  - apply (inv_boot Send (cpu s) (rsp0 (cpu s)) s I); rewrite ?Hp; (done || lia).
  - destruct (Ib (or_introl Hp)) as (Hlt & Hne & Hk). rewrite (ids (cpu s)) by lia.
    destruct (Ia (cpu s) Hne) as [Hoff Hst]; [right; right; right; split; [done|by rewrite Hp]|].
    constructor; cbn [boot_to with_ap boot_at cpu mpentry_kstack status]; try done.
    + change (aps (with_ap (cpu s) Entered s) boot = Off). by rewrite aps_with_ap, decide_False.
    + intros c Hr Hn Hb. change (exists b p, aps (with_ap (cpu s) Entered s) c = Ready b p /\ (b, p) = own c). rewrite aps_with_ap, decide_False by lia. by apply Ibe.
    + intros _. change (starting (cpu s) (aps (with_ap (cpu s) Entered s) (cpu s)) (status s (cpu s))). by rewrite aps_with_ap, decide_True.
    + intros c Hb Hcase. change (aps (with_ap (cpu s) Entered s) c = Off /\ status s c <> CPU_STARTED). destruct (Z.eq_dec (cpu s) c) as [<-|Hcc]; [destruct Hcase as [?|[?|[?|[_ ?]]]]; [lia..|done]|].
      rewrite aps_with_ap, decide_False by done. apply Ia; [done|]. destruct Hcase as [?|[?|[?|[_ ?]]]]; [auto..|done].
  - exact I.
  - destruct (Ib (or_intror Hp)) as (Hlt & Hne & Hk). specialize (In Hp).
    constructor; cbn [boot_to boot_at cpu mpentry_kstack aps status]; try done; [lia|by intros [|]| |].
    + intros c Hr Hn Hb. destruct (Z.eq_dec c (cpu s)) as [->|]; [|apply Ibe; (done || lia)].
      destruct (aps s (cpu s)) as [| |b|b p|b p]; cbn in In; try (by destruct In). by exists b, p.
    + intros c Hb Hcase. apply Ia; [done|]. destruct Hcase as [?|[?|[?|[? _]]]]; auto; lia.
  - apply (inv_boot Done (cpu s) (mpentry_kstack s) s I); rewrite ?Hp; (done || lia).
  - destruct (active_current s c I) as [-> Hw]; [by rewrite Hc..|]. destruct (Ib (or_intror Hw)) as (_ & _ & Hk). specialize (In Hw). rewrite Hc in In.
    apply (inv_started s _ I Hw); try done.
    + intros d Hd. by rewrite aps_with_ap, decide_False.
    + rewrite aps_with_ap, decide_True by done. cbn. by rewrite Hk.
  - destruct (active_current s c I) as [-> Hw]; [by rewrite Hc..|]. destruct (Ib (or_intror Hw)) as (_ & _ & Hk). specialize (In Hw). rewrite Hc in In.
    apply (inv_started s _ I Hw); try done.
    + intros d Hd. by rewrite aps_with_ap, decide_False.
    + rewrite aps_with_ap, decide_True by done. destruct In as [-> ?]. cbn. unfold own. by rewrite Hk.
  - destruct (active_current s c I) as [-> Hw]; [by rewrite Hc..|]. specialize (In Hw). rewrite Hc in In.
    apply (inv_started s _ I Hw); try done.
    + intros d Hd. rewrite status_with_status, decide_False by done. split; [|done]. change (aps (with_ap (cpu s) (Ready rbp rsp) s) d = aps s d). by rewrite aps_with_ap, decide_False.
    + change (starting (cpu s) (aps (with_ap (cpu s) (Ready rbp rsp) s) (cpu s)) (status (with_status (cpu s) CPU_STARTED (with_ap (cpu s) (Ready rbp rsp) s)) (cpu s))).
      rewrite aps_with_ap, decide_True by done. by destruct In.
Qed.

Lemma mp_reachable_inv s : reachable s -> mp_inv s.
Proof.
  intros (s0 & H0 & Hb & Hr). apply mp_inv_initial in H0; [|done]. clear Hb.
  induction Hr as [s|s s1 s2 H1 _ IH]; [done|]. by apply IH, (mp_inv_step s).
Qed.

Lemma own_of_inv s c b p : mp_inv s -> on_own_stack (aps s c) = Some (b, p) -> (b, p) = own c /\ 0 <= c < ncpus /\ c <> boot.
Proof.
  intros I E. destruct (Z.eq_dec c boot) as [->|Hb]; [by rewrite (mi_boot _ I) in E|].
  destruct (decide (c < 0 \/ cpu s < c \/ ncpus <= c \/ c = cpu s /\ boot_at s <> Wait)) as [Ha|Hn].
  { destruct (mi_after _ I c Hb Ha) as [Hoff _]. by rewrite Hoff in E. }
  split; [|lia]. destruct (Z.eq_dec c (cpu s)) as [->|Hne].
  - assert (boot_at s = Wait) as Hw by (destruct (decide (boot_at s = Wait)); [done|exfalso; apply Hn; auto]).
    pose proof (mi_now _ I Hw) as Hst. destruct (aps s (cpu s)); cbn in E, Hst; try done; injection E as <- <-; by destruct Hst.
  - destruct (mi_before _ I c ltac:(lia) ltac:(lia) Hb) as (b' & p' & Ea & Ho). rewrite Ea in E. by injection E as <- <-.
Qed.


(** ** It can go on *)

Lemma start_one s : mp_inv s -> boot_at s = Pick -> cpu s < ncpus ->
  exists s', rtc mp_step s s' /\ boot_at s' = Pick /\ cpu s' = cpu s + 1.
Proof.
  intros I Hp Hlt. destruct (Z.eq_dec (cpu s) boot) as [Hb|Hb].
  { eexists. split; [apply rtc_once; by apply step_boot_cpu|done]. }
  set (i := cpu s). set (s1 := boot_to Send i (with_kstack (rsp0 i) s)). set (s2 := boot_to Wait i (with_ap (cpu_id i) Entered s1)).
  set (s3 := with_ap i (Framed (rsp0 i)) s2). set (s4 := with_ap i (Running (rsp0 i) (rsp0 i - 32)) s3).
  set (s5 := with_status i CPU_STARTED (with_ap i (Ready (rsp0 i) (rsp0 i - 32)) s4)).
  pose proof (mi_cpu _ I) as Hc0. assert (cpu_id i = i) as Hid by (apply ids; unfold i; lia).
  exists (boot_to Pick (i + 1) s5). split; [|done].
  apply rtc_l with s1; [by apply step_stack|]. apply rtc_l with s2; [by apply (step_send s1)|].
  apply rtc_l with s3. { apply (step_rbp s2). change (aps (with_ap (cpu_id i) Entered s1) i = Entered). by rewrite aps_with_ap, decide_True. }
  apply rtc_l with s4. { apply (step_rsp s3 i (rsp0 i)). unfold s3. by rewrite aps_with_ap, decide_True. }
  apply rtc_l with s5. { apply (step_ready s4 i). unfold s4. by rewrite aps_with_ap, decide_True. }
  apply rtc_once. apply (step_next s5); [done|]. unfold s5. by rewrite status_with_status, decide_True.
Qed.

(** Fact (liveness): from the beginning, boot_cpus can always come to its end. *)
Theorem mp_start_completes (s : mp) : initial s -> aps s boot = Off -> exists s', rtc mp_step s s' /\ boot_at s' = Done.
Proof.
  intros H0 Hb. pose proof (mp_inv_initial s H0 Hb) as I. destruct H0 as (Hp & _ & _). clear Hb.
  remember (Z.to_nat (ncpus - cpu s)) as n eqn:Hn. revert s I Hp Hn. induction n as [|n IH]; intros s I Hp Hn.
  - eexists. split; [apply rtc_once, step_done; (done || lia)|done].
  - destruct (start_one s I Hp ltac:(lia)) as (s1 & H1 & Hp1 & Hc1).
    assert (mp_inv s1) as I1 by (clear - ids I H1; induction H1 as [|? ? ? H _ IH]; [done|apply IH; by apply (mp_inv_step _ _ I)]).
    destruct (IH s1 I1 Hp1 ltac:(lia)) as (s' & H' & Hd). exists s'. split; [by transitivity s1|done].
Qed.
End Mp.

(** ** Stacks as mem_init_mp reserves them *)

Definition stack_top (boot c : Z) : Z := if c =? boot then KSTACK_TOP else KSTACK_TOP - (c + 1) * (KSTACK_SIZE + KSTACK_GAP).

(** Fact (safety): the stacks of different processors are apart. *)
Theorem stacks_apart (boot c d : Z) : 0 <= c < d -> c <> boot -> d <> boot -> stack_top boot d + KSTACK_GAP <= stack_top boot c - KSTACK_SIZE.
Proof. intros Hcd Hc Hd. unfold stack_top. destruct (Z.eqb_spec c boot), (Z.eqb_spec d boot); try done. unfold KSTACK_SIZE, KSTACK_GAP, PAGE_SIZE. lia. Qed.

(** Three processors, the first of them the boot processor, all started. *)
Definition demo_start : mp := mk_mp Pick 0 0 (fun _ => Off) (fun _ => CPU_UNUSED).

