(* ===== verification/Regs.v ===== *)
(** * The processor's registers (include/x86-64/asm.h, kernel/mp.c)

    The instructions of asm.h that Devices.v has not: model-specific and control registers,
    the atomic exchange, processor identification, and string transfers of bytes and
    words.  A register of 64 bits is an integer in that range; what cpuid answers is an
    argument. *)

From Stdlib Require Import ZArith Lia.
From stdpp Require Import base functions list.
From S2P Require Import Prelude Strings Devices.

#[local] Open Scope Z_scope.
#[local] Open Scope kernel_scope.

Definition MSR_EFER : Z := 0xc0000080.
Definition MSR_GS_BASE : Z := 0xc0000101.
Definition MSR_KERNEL_GS_BASE : Z := 0xc0000102.
Definition MSR_EFER_NXE : Z := Z.shiftl 1 11.

Record registers := mk_regs { msr : Z -> Z; cr2 : Z; cr3 : Z; cr4 : Z; rbp : Z; rsp : Z; rflags : Z }.
Definition with_msr r v s := mk_regs (<[r := v]> (msr s)) (cr2 s) (cr3 s) (cr4 s) (rbp s) (rsp s) (rflags s).
Definition with_cr3 v s := mk_regs (msr s) (cr2 s) v (cr4 s) (rbp s) (rsp s) (rflags s).
Definition with_cr4 v s := mk_regs (msr s) (cr2 s) (cr3 s) v (rbp s) (rsp s) (rflags s).
Definition with_stack b p s := mk_regs (msr s) (cr2 s) (cr3 s) (cr4 s) b p (rflags s).

(** rdmsr gives the halves in EDX and EAX, wrmsr takes them from there. *)
Definition rdmsr (ecx : Z) : K registers (Z * Z) := fun s => Ret (u32 (msr s ecx), u32 (Z.shiftr (msr s ecx) 32)) s.
Definition wrmsr (ecx eax edx : Z) : K registers unit := kmodify (with_msr ecx (Z.lor (Z.shiftl edx 32) eax)).

Definition read_msr (reg : Z) : K registers Z :=
  r <-- rdmsr (u32 reg);; let '(lo, hi) := r in kret (Z.lor (Z.shiftl hi 32) lo).
Definition write_msr (reg val : Z) : K registers unit :=
  wrmsr (u32 reg) (u32 (Z.land val 0xFFFFFFFF)) (u32 (Z.land (Z.shiftr val 32) 0xFFFFFFFF)).

Definition read_rbp : K registers Z := s <-- kget;; kret (rbp s).
Definition read_rsp : K registers Z := s <-- kget;; kret (rsp s).
Definition read_rflags : K registers Z := s <-- kget;; kret (rflags s).
Definition read_cr2 : K registers Z := s <-- kget;; kret (cr2 s).
Definition read_cr3 : K registers Z := s <-- kget;; kret (cr3 s).
Definition write_cr3 (value : Z) : K registers unit := kmodify (with_cr3 value).
Definition read_cr4 : K registers Z := s <-- kget;; kret (cr4 s).
Definition write_cr4 (value : Z) : K registers unit := kmodify (with_cr4 value).
Definition swapgs : K registers unit := kmodify (fun s => with_msr MSR_GS_BASE (msr s MSR_KERNEL_GS_BASE) (with_msr MSR_KERNEL_GS_BASE (msr s MSR_GS_BASE) s)).

(** [lock; xchgl] on a word of memory. *)
Definition xchg (addr newval : Z) : K mem Z := ret <-- load_le 4 addr;; store_le 4 addr newval;;; kret ret.

(** Each result is stored unless its pointer is NULL. *)
Definition cpuid (answers : Z -> Z -> Z * Z * Z * Z) (eax ecx : Z) (eaxp ebxp ecxp edxp : option Z) : K mem unit :=
  let '(a, b, c, d) := answers (u32 eax) (u32 ecx) in
  let put p v := match p with Some p => store_le 4 p v | None => kret tt end in
  put eaxp a;;; put ebxp b;;; put ecxp c;;; put edxp d.

(** The string instructions of [n] bytes and words, upwards. *)
Section Ports.
Context {D : devices}.
Fixpoint insb (n : nat) (port addr : Z) : K hw unit :=
  match n with O => kret tt | S n => v <-- inb port;; on_ram (store_le 1 addr v);;; insb n port (addr + 1) end.
Fixpoint insw (n : nat) (port addr : Z) : K hw unit :=
  match n with O => kret tt | S n => v <-- inw port;; on_ram (store_le 2 addr v);;; insw n port (addr + 2) end.
Fixpoint outsb (n : nat) (port addr : Z) : K hw unit :=
  match n with O => kret tt | S n => v <-- on_ram (load_le 1 addr);; outb port v;;; outsb n port (addr + 1) end.
Fixpoint outsw (n : nat) (port addr : Z) : K hw unit :=
  match n with O => kret tt | S n => v <-- on_ram (load_le 2 addr);; outw port v;;; outsw n port (addr + 2) end.
End Ports.

(** The registers a started processor sets first: [pml4] is the physical address of the
    kernel's page tables, the stack is the one chosen for it (Mp.v). *)
Definition mp_main_registers (pml4 mpentry_kstack : Z) : K registers unit :=
  efer <-- read_msr MSR_EFER;;
  write_msr MSR_EFER (Z.lor efer MSR_EFER_NXE);;;
  write_cr3 pml4;;;
  kmodify (with_stack mpentry_kstack (u64 (mpentry_kstack - 32))).

(** ** Theorems *)

Lemma halves v : 0 <= v < 2 ^ 64 -> Z.lor (Z.shiftl (u32 (Z.shiftr v 32)) 32) (u32 v) = v.
Proof.
  intros Hv. unfold u32. rewrite Z.shiftr_div_pow2 by lia.
  assert (0 <= v / 2 ^ 32 < 2 ^ 32) as Hh by (split; [apply Z.div_pos; lia|apply Z.div_lt_upper_bound; lia]).
  rewrite (Z.mod_small (v / 2 ^ 32)), lor_high by (try lia; apply Z.mod_pos_bound; lia).
  pose proof (Z.div_mod v (2 ^ 32) ltac:(lia)). lia.
Qed.

Lemma u32_small x : 0 <= x < 2 ^ 32 -> u32 x = x.
Proof. intros Hx. unfold u32. by apply Z.mod_small. Qed.

Lemma lor_below a b k : 0 < k -> 0 <= a < 2 ^ k -> 0 <= b < 2 ^ k -> 0 <= Z.lor a b < 2 ^ k.
Proof.
  intros Hk Ha Hb. assert (forall x, 0 <= x < 2 ^ k -> Z.log2 x < k) as Hlog.
  { intros x Hx. destruct (Z.eq_dec x 0) as [->|]; [done|]. apply Z.log2_lt_pow2; lia. }
  assert (0 <= Z.lor a b) as H0 by (apply Z.lor_nonneg; lia). split; [done|].
  destruct (Z.eq_dec (Z.lor a b) 0) as [->|]; [lia|]. apply Z.log2_lt_pow2; [lia|]. rewrite Z.log2_lor by lia.
  apply Z.max_lub_lt; by apply Hlog.
Qed.

Lemma write_msr_run reg v s : 0 <= v < 2 ^ 64 -> 0 <= reg < 2 ^ 32 -> write_msr reg v s = Ret tt (with_msr reg v s).
Proof.
  intros Hv Hr. unfold write_msr, wrmsr, kmodify. rewrite u32_small by done. do 2 f_equal.
  change 0xFFFFFFFF with (Z.ones 32). rewrite !Z.land_ones by lia. fold (u32 v) (u32 (Z.shiftr v 32)).
  assert (forall x, u32 (u32 x) = u32 x) as E by (intros x; unfold u32; by rewrite Z.mod_mod by lia). rewrite !E. by apply halves.
Qed.

Lemma read_msr_run reg s : 0 <= msr s reg < 2 ^ 64 -> 0 <= reg < 2 ^ 32 -> read_msr reg s = Ret (msr s reg) s.
Proof. intros Hv Hr. unfold read_msr, rdmsr, kbind. rewrite (u32_small reg) by done. unfold kret. f_equal. by apply halves. Qed.

(** Fact (roundtrip): a model-specific register is read back as it was written. *)
Theorem msr_roundtrip (reg v : Z) (s : registers) : 0 <= v < 2 ^ 64 -> 0 <= reg < 2 ^ 32 ->
  exists s', write_msr reg v s = Ret tt s' /\ read_msr reg s' = Ret v s' /\ forall r, r <> reg -> msr s' r = msr s r.
Proof.
  intros Hv Hr. exists (with_msr reg v s). assert (msr (with_msr reg v s) reg = v) as E by (cbn; by rewrite fn_lookup_insert).
  split_and!; [by apply write_msr_run|rewrite read_msr_run by (rewrite ?E; done); by rewrite E|].
  intros r Hne. cbn. by rewrite fn_lookup_insert_ne.
Qed.

(** Fact (functional): a started processor honours no-execute pages, keeps the other bits of
    that register, and is on the kernel's page tables and its own stack. *)
Theorem mp_main_registers_correct (pml4 kstack : Z) (s : registers) :
  0 <= msr s MSR_EFER < 2 ^ 64 -> 32 <= kstack < 2 ^ 64 ->
  exists s', mp_main_registers pml4 kstack s = Ret tt s'
    /\ msr s' MSR_EFER = Z.lor (msr s MSR_EFER) (2 ^ 11) /\ cr3 s' = pml4 /\ rbp s' = kstack /\ rsp s' = kstack - 32.
Proof.
  intros He Hk. unfold mp_main_registers. rewrite (krun _ _ _ _ _ (read_msr_run MSR_EFER s He ltac:(unfold MSR_EFER; lia))).
  assert (0 <= Z.lor (msr s MSR_EFER) MSR_EFER_NXE < 2 ^ 64) as Hv by (apply lor_below; [lia|done|change MSR_EFER_NXE with 2048; lia]).
  rewrite (krun _ _ _ _ _ (write_msr_run MSR_EFER _ s Hv ltac:(unfold MSR_EFER; lia))).
  eexists. split; [reflexivity|]. cbn. rewrite fn_lookup_insert. rewrite u64_id by lia. done.
Qed.

(** Fact (functional): the exchange gives the old word and stores the new one. *)
Theorem xchg_correct (m : mem) (addr old new : Z) :
  0 <= old < 2 ^ 32 -> bytes_at m addr (le_split 4 old) ->
  exists m', xchg addr new m = Ret old m' /\ bytes_at m' addr (le_split 4 new).
Proof.
  intros Ho Hm. unfold xchg. rewrite (krun _ _ _ _ _ (load_le_run 4 addr m _ (le_split_length 4 old) Hm)), le_combine_split by done.
  assert (mapped m addr 4) as Hmap.
  { destruct Hm as (H0 & H1 & H2 & H3 & _). intros a Ha. assert (a = addr \/ a = addr + 1 \/ a = addr + 1 + 1 \/ a = addr + 1 + 1 + 1) as [->|[->|[-> | ->]]] by lia; eauto. }
  exists (write_bytes m addr (le_split 4 new)). split; [|apply write_bytes_at].
  unfold store_le. rewrite (krun _ _ _ _ _ (write_unit_ok (le_split 4 new) m addr ltac:(by rewrite le_split_length) (le_split_range 4 new))). done.
Qed.
